(* ===== verification/_CoqProject ===== *)
-Q . S2P
Prelude.v
HeapModel.v
Machine.v
Heap.v
Book.v
PageTable.v
Mmu.v
World.v
Submit.v
Scan.v
Console.v
MemorySim.v
NoMemorySim.v
HwParams.v
Driver.v
Hardware.v
Harness.v
HarnessMain.v
HarnessWait.v
HarnessWrite.v
HarnessLog.v
HarnessDevice.v
HwHeap.v
HwTiers.v
HwAccess.v
HwSites.v
HwSift.v
HwCommand.v
HwEngine.v
HwRun.v
HwSettle.v
HwOrder.v
HwHistory.v
HwDemo.v
HwSame.v
HwRing.v
HwWalk.v
HwBank.v
HwMmu.v
HwSlots.v
HwStore.v
HwGuard.v
HwFlow.v
HwTurn.v
HwShared.v
HwCrowd.v
HwPlaces.v
HwShelf.v
HwStage.v
HwPort.v
HwSystem.v
HwDispatch.v
HwLog.v
HwBoard.v
HwWire.v
HwSession.v
HwBatch.v
SeqConfig.v
SeqBase.v
SeqScc.v
SeqMem.v
SeqTest.v
SeqLatency.v
SeqSafe.v
SeqOps.v
SeqPhase.v
SeqCentre.v
SeqEye.v
SeqReadEye.v
SeqWrites.v
SeqWriteEye.v
SeqCalib.v
SeqWlevel.v
SeqCalibSafe.v
SeqError.v
SeqTop.v
