(* ===== verification/Prelude.v ===== *)
(** * The virtualized HFT simulator: a verification development

The repository is an exchange in three shapes.  [src/sw_sim/] is a simulator in C
of order books whose memory is paged.  [src/sw/] is the software of the board
version: a Linux driver for the order dispatcher and the trade log in the FPGA,
and a user program that fills the dispatcher's FIFOs from CSV files and dumps the
log.  [src/hw/] is the hardware: dispatcher, engines, MMU and log in SystemVerilog, and
the generated system, of which the largest part in C is the sequencer that calibrates
the board's DDR3 memory ([submodules/sequencer/]).  This library models the C code of the
three and the SystemVerilog of the hardware, and proves what makes them correct.

** The files

Shared: [Prelude] (machine integers and fields of words; the monad [M] and the
predicates [wp], [wlp], [always] on its programs; loops with fuel; generic lemmas; the
tactic [run]).

The simulator, [src/sw_sim/]:
- [HeapModel]: binary heaps as lists; [Machine]: [Order], the store of objects
  that [malloc] hands out, the clock, [rand] and the output;
- [Heap] ([heap.h]: [push], [pop], [sift_up], [sift_down], ...), [Book]
  ([min_cmp], [max_cmp], [check_for_trade]);
- [PageTable] and [Mmu] ([mmu.h]: frames, page tables, [mem_aware_insert],
  [check_for_trade_multi]), [World] (the exchange: looking up a book and matching
  until nothing crosses), [Submit] (one order through the exchange);
- [Scan] and [Console]: [fgets], [sscanf], [scanf], [getchar] as they are used;
- [MemorySim] ([memory_sim.c]) and [NoMemorySim] ([no_memory_sim.c]): the modes
  and [main].
A program that includes [heap.h] supplies [free_node_memory]: it is the class
[NodeMemory] of [Heap], with an instance in [NoMemorySim] and one in [PageTable].

The board, [src/sw/]:
- [HwParams]: the sizes of the FIFOs and of the log;
- [Driver] ([HFT_drivers.c]) over the class [Device] of what answers its register
  accesses; [Hardware] is such a device, written after the bus side of
  [HFT_SIM.sv], the dispatcher and the trade log;
- [Harness] ([HFT_harness.c]) over the class [System] of what the kernel answers,
  [HarnessMain] its [main]; [HarnessWait], [HarnessWrite] and [HarnessLog] prove
  its functions correct from laws of that class; [HarnessDevice] proves the laws
  for driver and hardware together, so the theorems hold of the stack.

The hardware, [src/hw/], clock by clock:
- the engines: [HwHeap] ([heap_fsm.sv]), [HwTiers] (the block RAM and the port of the MMU
  in [symbol_engine.sv], with the class [MmuPort] of what an engine sees of the MMU and
  [MmuLaws] of what it relies on), [HwEngine] (the trade controller); proofs from the
  bottom up: [HwAccess] (one access), [HwSites], [HwSift] (the sifts), [HwCommand] (a
  command), [HwRun], [HwSettle], [HwOrder] (an order), with [HwSame] (equivalence with
  [heap.h]) and [HwDemo] (an engine on a slow memory);
- the MMU: [HwRing] (its queues), [HwWalk] ([HPTW.sv]), [HwBank] ([mem_bank.sv]), [HwMmu]
  ([mmu.sv] and [arbiter.sv]); [HwGuard] (the page table, and whose slots a bank works on)
  and [HwFlow] (no request is lost) for arbitrary traffic; for clients with one request each [HwSlots] and
  [HwStore] (slots and words of the nodes), [HwTurn] (turns among eight), [HwShared] (what
  a walker does for its client), [HwCrowd] (the invariant of the eight; no two nodes share a slot), [HwPlaces] (where
  a request is, and how far from its answer), [HwShelf] (the nodes of one client),
  [HwStage] (a request on its way), [HwPort] (the laws of [MmuLaws], the interface on
  which all theorems about engines rest);
- [HwHistory] (an engine over a whole run, from rest to rest), [HwSystem] (an engine with
  the MMU, from reset);
- [HwDispatch] ([order_dispatcher.sv] and its FIFOs), [HwLog] ([trade_aggregator.sv],
  [trade_log.sv]), [HwBoard] ([HFT_SIM.sv]: all parts wired, with
  the registers on the bus and the reset button); proofs: [HwWire] (an engine on the board is an engine with an
  MMU that it shares), [HwSession] (a run from reset), [HwBatch] (a batch of orders, until
  trading is done).
A clock edge is a function from a state and the inputs of the cycle to the next state; a
wire is a function of both.

The memory sequencer, [sequencer.pre.c]:
- [SeqConfig] (constants of the configuration), [SeqBase] (class [Avalon] of the
  bus, the globals, the stage register), [SeqScc] (scan chains), [SeqMem] (delays
  and set-up), [SeqTest] (read and write tests, the read FIFO), [SeqLatency] (the
  read latency), [SeqPhase] (the phase of the read strobe), [SeqCentre] and
  [SeqWrites] (the centring of reads and writes), [SeqCalib] (the calibration of a
  group, of the memory, and [sdram_calibration]) model it;
- [SeqSafe] (programs that keep every tap in range, with [SeqOps] and
  [SeqCalibSafe] for the operations from the bottom to the top), [SeqError] (a
  failure leaves the stage that failed), [SeqTop] (the whole calibration), [SeqEye]
  with [SeqReadEye] and [SeqWriteEye] (what the centring does to a device with data
  eyes) prove it correct; [SeqWlevel] has the write levelling, which is not called here.

** State and programs

A C function is a program of the monad [M S A]: from a state it gives [Val] a
result and a new state, [Undef] (undefined behaviour: a bad index, a signed
overflow, an unwritten variable, a null pointer), [Exit] with a code, or [NoFuel] with
the state that was reached.
[wp m P Q s]
says that [m] started in [s] ends, with [Val] and [P] or with [Exit] and [Q], so a
[wp] theorem contains the absence of undefined behaviour and termination; [wlp]
is its partial form, and [always m P I U s] adds that a run that is cut off, whatever the
fuel it has used up, has reached a state with [I], which covers runs that do not end.  A struct is a record, an array a list accessed with
[array_get] and [array_set], a C pointer to an [Order] a position in the store of
orders, so two heaps that hold the same pointer share the object.  Integers are in
[Z], wrapped where the type wraps and [Undef] where a signed one overflows.

** Loops and fuel

A C loop is [loop fuel body], which is [NoFuel] when the fuel runs out, so that a
[wp] theorem also shows that the fuel was enough.  In the simulator the fuel is
computed from the state: the depth for a sift, the size of the heaps for the
matching loop (each trade takes an order off a heap), the length of the text for a
CSV file.  In the driver and the sequencer a countdown or the range of a counter
bounds the loop.  The loops of the harness that wait for the hardware have no bound
of their own: the fuel is a section variable, and the theorems say how much is
enough (from the timeout, or from the number of rows) or, for [writer_spins], that
none is.

** The theorems

- heaps and books: [push_correct], [pop_correct], [comparisons_price_time], the
  refinement of the matching rule [match_step] by [check_for_trade] and
  [check_for_trade_multi], conservation of shares;
- memory manager: the least free frame is handed out, freeing undoes allocating,
  a trade gives back what an order was charged, insertion charges in order of
  preference;
- exchange: the matching loop settles the book; one order keeps every invariant of
  the exchange and leaves the other symbols alone; a CSV file and a random run end
  in a well-formed, uncrossed exchange with the orders that the input describes;
- driver and hardware: words round-trip, [ioctl] returns, probing is
  all-or-nothing, a pushed order reaches its FIFO and a logged trade is read;
- harness: every wait ends in time with a truthful answer, orders are delivered
  in order and once, also in runs that never end, the log is read and shown as the hardware holds it;
- engines: a command of the heap machine computes what the heap of the simulators does
  ([machine_equals_heap_h], [heap_command_correct]); an engine places an order and settles
  its book by the same matching rule as the simulators ([engine_implements_matching]);
- MMU: whatever seven others ask for, the request of a client is taken and answered within
  69 clock edges with the stored word ([mmu_answers]); for arbitrary traffic the valid
  entries of the page table are distinct, a bank works on slots of the right partition, and,
  for clients with one request each, no two nodes share a slot ([mmu_protects]); no request
  is lost, and it is said which are answered twice ([mmu_conserves]); an engine with the MMU, from reset, trades by the reference rule
  ([engine_with_mmu_trades]);
- the board as a whole, from reset and until the reset button is pressed, all eight
  engines at work on one MMU: whatever the software does, the trades that have left an engine are a beginning of those that the
  reference rule makes of the orders it has taken ([board_trades]); once the orders of a
  batch are dispatched, the board reports that trading is done, and the log holds exactly
  the trades of the orders that the software wrote ([board_session]), with the lower seven
  bits of their amounts;
- dispatcher and log: orders reach their engine once and in order
  ([dispatch_keeps_order]), trades the log ([log_collects]), and no engine waits for ever
  ([aggregator_fair]);
- sequencer: delays last at least the cycles asked for, tests return the verdict
  of the bits read and never a stale one, latency and strobe searches end with a
  setting under which a test passed;
- sequencer, as a whole: whatever the device answers, the calibration ends, gives
  no tap register a value out of range, and reports success, or a stage that
  failed, in the registers; on a device with data eyes (classes [ReadEyes],
  [WriteEyes], on the scan chains of [ScanChain]: a delay counts once an update has loaded
  it, and only a test shows errors) the centring leaves the strobe in the middle of the eye of every pin
  and the mask inside its own; a model of a whole PHY is calibrated
  ([phy_calibrates]).

** Assumptions

[malloc] and [realloc] succeed (the sources never test them) and memory is freed
only at the end of a run.  The [int] counters of [SimStats], of the books and of the
memory manager are integers that only grow, and [print_sim_stats] is [Undef] if one of
them, or the product that it prints, is then outside its type.
The two calls of [rand] in one argument list are made left to right.  In a format
the new-line escape stands as the two characters of the source.  The text of
[perror] and [strerror] is left out.  A failed [copy_to_user] leaves the buffer
as it was.  The theorems about an engine rely on [MmuLaws]; the MMU keeps it for
clients that have one request under way at a time and ask for nodes of their own, which the
engines of the board do, so the theorems about the board assume nothing of its parts; at
most 512 orders a side, because the sift of a pop also asks for children that do not exist
and a partition has 960 slots.  The theorems about the board assume that the reset button is
not pressed, since a reset leaves the page table as it is, and hold for the orders of one
batch of up to 512 a lane (a lane has 1210 places).  [HarnessWait]'s laws speak of times before [2^63] ms.  The sequencer's
debugging macros are empty in this configuration, and the code that the
preprocessor removes under it (other memory protocols, other chips) is left out.

** Not modelled

- [tclrpt.pre.c]: the reporting to the Tcl tool, compiled out here; likewise the
  [alt_types], [system.h] and [sdram_io] glue, of which only the bus accesses
  remain, as the class [Avalon].
- The generated [sdram.h], whose macros [initialize_hps_phy] uses: class [PhyCtrl].
- The generated system (Qsys, timing constraints), the scripts that make data, the
  seven-segment displays.  [Hardware] is the device as the driver meets it, one step per
  register access; [HwBoard] is the same device clock by clock. *)
From Stdlib Require Import ZArith Lia.
From stdpp Require Export base sets list list_numbers option numbers strings.
#[global] Open Scope Z_scope.

(** ** Machine integers

C integers are values of [Z] kept in the range of their type by the
wrap-around functions below. *)

Definition u8 (z : Z) : Z := z mod 2 ^ 8.
Definition u16 (z : Z) : Z := z mod 2 ^ 16.
Definition u32 (z : Z) : Z := z mod 2 ^ 32.
Definition u64 (z : Z) : Z := z mod 2 ^ 64.

(** Conversion to a signed type: two's complement wrap-around, as gcc defines
the conversion. *)
Definition s16 (z : Z) : Z := (z + 2 ^ 15) mod 2 ^ 16 - 2 ^ 15.
Definition s32 (z : Z) : Z := (z + 2 ^ 31) mod 2 ^ 32 - 2 ^ 31.

Definition in_s32 (z : Z) : bool := (- 2 ^ 31 <=? z) && (z <? 2 ^ 31).

Lemma u32_small z : 0 <= z < 2 ^ 32 -> u32 z = z.
Proof. intros. by apply Z.mod_small. Qed.

Lemma u32_bound z : 0 <= u32 z < 2 ^ 32.
Proof. apply Z.mod_pos_bound. lia. Qed.

Lemma u16_small z : 0 <= z < 2 ^ 16 -> u16 z = z.
Proof. intros. by apply Z.mod_small. Qed.

Lemma u16_bound z : 0 <= u16 z < 2 ^ 16.
Proof. apply Z.mod_pos_bound. lia. Qed.

Lemma s16_small z : - 2 ^ 15 <= z < 2 ^ 15 -> s16 z = z.
Proof. intros. unfold s16. rewrite Z.mod_small; lia. Qed.

Lemma s16_bound z : - 2 ^ 15 <= s16 z < 2 ^ 15.
Proof. unfold s16. pose proof (Z.mod_pos_bound (z + 2 ^ 15) (2 ^ 16)). lia. Qed.

Lemma s32_small z : - 2 ^ 31 <= z < 2 ^ 31 -> s32 z = z.
Proof. intros. unfold s32. rewrite Z.mod_small; lia. Qed.

Lemma in_s32_true z : - 2 ^ 31 <= z < 2 ^ 31 -> in_s32 z = true.
Proof. unfold in_s32. lia. Qed.

(** Fields of a word: [field w lo n] is the [n] bits of [w] from bit [lo]. *)
Definition field (w lo n : Z) : Z := Z.shiftr w lo mod 2 ^ n.

Lemma mask_field w lo n :
  0 <= lo -> 0 <= n -> Z.shiftr (Z.land w (Z.shiftl (Z.ones n) lo)) lo = field w lo n.
Proof.
  intros. unfold field. rewrite Z.shiftr_land, Z.shiftr_shiftl_l, Z.sub_diag, Z.shiftl_0_r by lia.
  by apply Z.land_ones.
Qed.

Lemma low_field w n : 0 <= n -> Z.land w (Z.ones n) = field w 0 n.
Proof. intros. unfold field. by rewrite Z.shiftr_0_r, Z.land_ones. Qed.

Lemma field_div w lo n : 0 <= lo -> field w lo n = (w / 2 ^ lo) mod 2 ^ n.
Proof. intros. unfold field. by rewrite Z.shiftr_div_pow2. Qed.

Lemma field_bound w lo n : 0 <= n -> 0 <= field w lo n < 2 ^ n.
Proof. intros. apply Z.mod_pos_bound. lia. Qed.

Lemma testbit_field w lo n i :
  0 <= lo -> 0 <= n -> 0 <= i -> Z.testbit (field w lo n) i = (i <? n) && Z.testbit w (i + lo).
Proof.
  intros. unfold field. destruct (Z.ltb_spec i n); simpl.
  - rewrite Z.mod_pow2_bits_low, Z.shiftr_spec by lia. done.
  - by rewrite Z.mod_pow2_bits_high by lia.
Qed.

Lemma field_field w lo n lo' n' :
  0 <= lo -> 0 <= lo' -> 0 <= n' -> lo' + n' <= n -> field (field w lo n) lo' n' = field w (lo + lo') n'.
Proof.
  intros. apply Z.bits_inj'. intros i Hi. rewrite !testbit_field by lia.
  destruct (Z.ltb_spec i n'); simpl; [|done]. replace (i + lo' <? n) with true by lia.
  simpl. f_equal. lia.
Qed.

(** A shifted word and a word below it do not overlap. *)
Lemma lor_disjoint a b n : 0 <= n -> 0 <= b < 2 ^ n -> Z.lor (Z.shiftl a n) b = a * 2 ^ n + b.
Proof.
  intros Hn Hb. rewrite Z.shiftl_mul_pow2 by done.
  assert (Hland : Z.land (a * 2 ^ n) b = 0).
  { apply Z.bits_inj'. intros i Hi. rewrite Z.land_spec, Z.bits_0.
    destruct (Z.lt_ge_cases i n); [by rewrite Z.mul_pow2_bits_low|].
    rewrite <- (Z.mod_small b (2 ^ n)) by done. by rewrite Z.mod_pow2_bits_high, andb_false_r by lia. }
  by rewrite <- Z.lxor_lor, <- Z.add_nocarry_lxor.
Qed.

(** Testing a bit with a mask. *)
Lemma land_bit w b : 0 <= b -> negb (Z.land w (Z.shiftl 1 b) =? 0) = Z.testbit w b.
Proof.
  intros Hb. rewrite Z.shiftl_1_l. destruct (Z.testbit w b) eqn:Hw.
  - apply negb_true_iff, Z.eqb_neq. intros H0. apply (f_equal (fun x => Z.testbit x b)) in H0.
    by rewrite Z.land_spec, Hw, Z.pow2_bits_true, Z.bits_0 in H0.
  - apply negb_false_iff, Z.eqb_eq. apply Z.bits_inj'. intros i Hi.
    rewrite Z.land_spec, Z.bits_0. destruct (decide (i = b)) as [->|Hne]; [by rewrite Hw|].
    by rewrite Z.pow2_bits_false, andb_false_r by done.
Qed.

Create HintDb cint discriminated.
Create Rewrite HintDb cint.
#[export] Hint Rewrite u32_small u16_small s16_small in_s32_true using lia : cint.
#[export] Hint Resolve u32_bound u16_bound s16_bound : cint.

(** ** The state and error monad

A C function is a computation from a state to one of four outcomes: a value
and a new state, the end of the process, undefined behaviour (an access
outside an object, a read of an uninitialised slot, a signed overflow), or
exhausted fuel and the state that was reached with it. *)

Inductive res (S A : Type) : Type :=
| Val (a : A) (s : S)
| Exit (code : Z) (s : S)
| Undef
| NoFuel (s : S).
Arguments Val {S A} _ _.
Arguments Exit {S A} _ _.
Arguments Undef {S A}.
Arguments NoFuel {S A} _.

Definition M (S A : Type) : Type := S -> res S A.

Section Monad.
Context {S : Type}.

Definition ret {A} (a : A) : M S A := fun s => Val a s.

Definition bind {A B} (m : M S A) (k : A -> M S B) : M S B := fun s =>
  match m s with
  | Val a s' => k a s'
  | Exit c s' => Exit c s'
  | Undef => Undef
  | NoFuel s' => NoFuel s'
  end.

Definition undef {A} : M S A := fun _ => Undef.
Definition exit {A} (c : Z) : M S A := fun s => Exit c s.
Definition get : M S S := fun s => Val s s.
Definition gets {A} (f : S -> A) : M S A := fun s => Val (f s) s.
Definition modify (f : S -> S) : M S unit := fun s => Val tt (f s).

(** A partial read: [None] is undefined behaviour. *)
Definition lift {A} (o : option A) : M S A := match o with Some a => ret a | None => undef end.

(** An [int] result: overflow is undefined behaviour. *)
Definition int (z : Z) : M S Z := if in_s32 z then ret z else undef.

End Monad.

Declare Scope c_scope.
Delimit Scope c_scope with c.
Notation "'let!' x := m 'in' k" := (bind m (fun x => k))
  (at level 10, x name, m at level 100, k at level 200) : c_scope.
Notation "'let!' ' p := m 'in' k" := (bind m (fun x => match x with p => k end))
  (at level 10, p pattern, m at level 100, k at level 200) : c_scope.
Notation "m1 ';;!' m2" := (bind m1 (fun _ => m2))
  (at level 199, right associativity) : c_scope.
#[global] Open Scope c_scope.

(** Running a computation of a component inside a larger state. *)
Definition zoom {S T A} (view : S -> T) (put : T -> S -> S) (m : M T A) : M S A := fun s =>
  match m (view s) with
  | Val a t => Val a (put t s)
  | Exit c t => Exit c (put t s)
  | Undef => Undef
  | NoFuel t => NoFuel (put t s)
  end.

(** A loop: the body maps the loop variables either to new ones ([inl]) or to
the result ([inr]). *)
Fixpoint loop {S L R} (fuel : nat) (body : L -> M S (L + R)) (l : L) : M S R :=
  match fuel with
  | O => fun s => NoFuel s
  | Datatypes.S fuel' =>
      let! r := body l in
      match r with
      | inl l' => loop fuel' body l'
      | inr v => ret v
      end
  end.

(** [for (x in xs) body], the body run for its effects. *)
Fixpoint for_each {S A} (xs : list A) (body : A -> M S unit) : M S unit :=
  match xs with
  | [] => ret tt
  | x :: xs' => body x ;;! for_each xs' body
  end.

(** [for (x in xs) body], left by an early [return] when the body gives [Some]. *)
Fixpoint for_return {S A R} (xs : list A) (body : A -> M S (option R)) : M S (option R) :=
  match xs with
  | [] => ret None
  | x :: xs' =>
      let! r := body x in
      match r with
      | Some v => ret (Some v)
      | None => for_return xs' body
      end
  end.

(** ** Total-correctness reasoning

[wp m Q X s]: run from [s], [m] neither meets undefined behaviour nor runs out
of fuel; it returns a value and a state that satisfy [Q], or ends the process
with a code and a state that satisfy [X]. *)

Definition wp {S A} (m : M S A) (Q : A -> S -> Prop) (X : Z -> S -> Prop) (s : S) : Prop :=
  match m s with
  | Val a s' => Q a s'
  | Exit c s' => X c s'
  | Undef | NoFuel _ => False
  end.

Abbreviation no_exit := (fun _ _ => False).

Lemma wp_ret {S A} (a : A) (Q : A -> S -> Prop) X s : Q a s -> wp (ret a) Q X s.
Proof. done. Qed.

Lemma wp_bind {S A B} (m : M S A) (k : A -> M S B) Q X s :
  wp m (fun a s' => wp (k a) Q X s') X s -> wp (bind m k) Q X s.
Proof. unfold wp, bind. by destruct (m s). Qed.

Lemma wp_mono {S A} (m : M S A) (Q Q' : A -> S -> Prop) (X X' : Z -> S -> Prop) s :
  wp m Q X s -> (forall a s', Q a s' -> Q' a s') -> (forall c s', X c s' -> X' c s') ->
  wp m Q' X' s.
Proof. unfold wp. destruct (m s); eauto. Qed.

Lemma wp_int {S} z (Q : Z -> S -> Prop) X s :
  - 2 ^ 31 <= z < 2 ^ 31 -> Q z s -> wp (int z) Q X s.
Proof. intros. unfold int. by rewrite in_s32_true. Qed.

Lemma wp_lift {S A} (o : option A) a (Q : A -> S -> Prop) X s :
  o = Some a -> Q a s -> wp (lift o) Q X s.
Proof. by intros ->. Qed.

Lemma wp_zoom {S T A} (view : S -> T) put (m : M T A) Q X s :
  wp m (fun a t => Q a (put t s)) (fun c t => X c (put t s)) (view s) ->
  wp (zoom view put m) Q X s.
Proof. unfold wp, zoom. by destruct (m (view s)). Qed.

(** Partial correctness, for runs that need not end or may meet undefined
behaviour: if [m] returns, its result satisfies [Q]. *)
Definition wlp {S A} (m : M S A) (Q : A -> S -> Prop) (s : S) : Prop :=
  forall a s', m s = Val a s' -> Q a s'.

Lemma wlp_ret {S A} (a : A) (Q : A -> S -> Prop) s : Q a s -> wlp (ret a) Q s.
Proof. by intros HQ ? ? [= <- <-]. Qed.

Lemma wlp_bind {S A B} (m : M S A) (k : A -> M S B) Q s :
  wlp m (fun a s' => wlp (k a) Q s') s -> wlp (bind m k) Q s.
Proof.
  intros Hm b s'. unfold bind. destruct (m s) as [a s1| | |] eqn:Heq; try done. by apply Hm.
Qed.

Lemma wlp_mono {S A} (m : M S A) (Q Q' : A -> S -> Prop) s :
  wlp m Q s -> (forall a s', Q a s' -> Q' a s') -> wlp m Q' s.
Proof. intros Hm HQ a s' Heq. by apply HQ, Hm. Qed.

Lemma wlp_val {S A} (m : M S A) (Q : A -> S -> Prop) s a s' : m s = Val a s' -> Q a s' -> wlp m Q s.
Proof. intros Heq HQ b t. rewrite Heq. by intros [= <- <-]. Qed.

(** Whatever the fuel, a loop whose body keeps an invariant keeps it. *)
Lemma wlp_loop {S L R} (I : L -> S -> Prop) (body : L -> M S (L + R)) Q :
  (forall l s, I l s ->
     wlp (body l) (fun r s' => match r with inl l' => I l' s' | inr v => Q v s' end) s) ->
  forall fuel l s, I l s -> wlp (loop fuel body l) Q s.
Proof.
  intros Hbody fuel. induction fuel as [|fuel IH]; intros l s HI; [by intros ? ?|].
  simpl. apply wlp_bind. eapply wlp_mono; [by apply Hbody|].
  intros [l'|v] s' HI'; [by apply IH|by apply wlp_ret].
Qed.

(** Every run, those that do not return included: a run that returns satisfies [Q]; one
that is cut off, whatever the fuel that it has used up, has reached a state that satisfies
[I]; and there is undefined behaviour only if [U].  The states of a run that does not end
are those that its runs with more and more fuel are cut off in. *)
Definition always {S A} (m : M S A) (Q : A -> S -> Prop) (I : S -> Prop) (U : Prop) (s : S) : Prop :=
  match m s with
  | Val a s' => Q a s'
  | Exit _ _ => False
  | Undef => U
  | NoFuel s' => I s'
  end.

Lemma always_ret {S A} (a : A) (Q : A -> S -> Prop) I U s : Q a s -> always (ret a) Q I U s.
Proof. done. Qed.

Lemma always_bind {S A B} (m : M S A) (k : A -> M S B) Q I U s :
  always m (fun a s' => always (k a) Q I U s') I U s -> always (bind m k) Q I U s.
Proof. unfold always, bind. by destruct (m s). Qed.

Lemma always_mono {S A} (m : M S A) (Q Q' : A -> S -> Prop) (I I' : S -> Prop) (U U' : Prop) s :
  always m Q I U s -> (forall a s', Q a s' -> Q' a s') -> (forall s', I s' -> I' s') -> (U -> U') ->
  always m Q' I' U' s.
Proof. unfold always. destruct (m s); eauto. Qed.

Lemma always_val {S A} (m : M S A) (Q : A -> S -> Prop) I U s a s' :
  m s = Val a s' -> Q a s' -> always m Q I U s.
Proof. unfold always. by intros ->. Qed.

Lemma always_loop {S L R} (J : L -> S -> Prop) (body : L -> M S (L + R)) Q (I : S -> Prop) U :
  (forall l s, J l s -> I s) ->
  (forall l s, J l s ->
     always (body l) (fun r s' => match r with inl l' => J l' s' | inr v => Q v s' end) I U s) ->
  forall fuel l s, J l s -> always (loop fuel body l) Q I U s.
Proof.
  intros HI Hbody fuel. induction fuel as [|fuel IH]; intros l s HJ; [by eapply HI|].
  cbn [loop]. apply always_bind. eapply always_mono; [by apply Hbody| |done..].
  intros [l'|v] s' HJ'; [by apply IH|by apply always_ret].
Qed.

(** Equational forms: a command whose outcome is known is run in place. *)
Lemma bind_val {S A B} (m : M S A) (k : A -> M S B) s a s' :
  m s = Val a s' -> bind m k s = k a s'.
Proof. unfold bind. by intros ->. Qed.

Lemma int_val {S} z (s : S) : - 2 ^ 31 <= z < 2 ^ 31 -> int z s = Val z s.
Proof. intros. unfold int. by rewrite in_s32_true. Qed.

Lemma wp_val {S A} (m : M S A) (Q : A -> S -> Prop) X s a s' :
  m s = Val a s' -> Q a s' -> wp m Q X s.
Proof. unfold wp. by intros ->. Qed.

(** [run tac]: run the first command, its outcome proved by [tac]. *)
Tactic Notation "run" tactic3(tac) := erewrite bind_val; [|solve [tac]]; cbv beta iota.
Tactic Notation "run" := run reflexivity.

(** A loop whose body keeps an invariant and decreases a measure terminates
within any fuel above the measure. *)
Lemma wp_loop {S L R} (I : L -> S -> Prop) (mu : L -> S -> nat) (body : L -> M S (L + R)) Q X :
  (forall l s, I l s ->
     wp (body l) (fun r s' => match r with
                             | inl l' => I l' s' /\ (mu l' s' < mu l s)%nat
                             | inr v => Q v s'
                             end) X s) ->
  forall fuel l s, (mu l s < fuel)%nat -> I l s -> wp (loop fuel body l) Q X s.
Proof.
  intros Hbody fuel. induction fuel as [|fuel IH]; intros l s Hmu HI; [lia|].
  simpl. apply wp_bind. eapply wp_mono; [by apply Hbody| |done].
  intros [l'|v] s'; [|done]. intros [HI' Hdec]. apply IH; [lia|done].
Qed.

Lemma wp_for_each {S A} (I : list A -> S -> Prop) (xs : list A) (body : A -> M S unit) X :
  (forall x xs' s, I (x :: xs') s -> wp (body x) (fun _ s' => I xs' s') X s) ->
  forall s, I xs s -> wp (for_each xs body) (fun _ s' => I [] s') X s.
Proof.
  intros Hbody. induction xs as [|x xs IH]; intros s HI; simpl; [done|].
  apply wp_bind. eapply wp_mono; [by apply Hbody| |done]. intros ? s' Hs'. by apply IH.
Qed.

(** [wp_step] runs the next command of a straight-line program. *)
Ltac wp_step :=
  lazymatch goal with
  | |- wp (bind _ _) _ _ _ => apply wp_bind
  | |- wp (ret _) _ _ _ => apply wp_ret
  | |- wp (gets _) _ _ _ => red; simpl
  | |- wp get _ _ _ => red; simpl
  | |- wp (modify _) _ _ _ => red; simpl
  | |- wp (zoom _ _ _) _ _ _ => apply wp_zoom
  | |- wp (exit _) _ _ _ => red; simpl
  | |- wp (int _) _ _ _ => apply wp_int; [try lia|]
  | |- wp (lift _) _ _ _ => eapply wp_lift; [eassumption|]
  | |- wp (if ?b then _ else _) _ _ _ => let E := fresh "Hif" in destruct b eqn:E
  | |- wp (let '(_, _) := ?p in _) _ _ _ => destruct p
  end.
Ltac wp_steps := repeat (wp_step; simpl).

(** An invariant of a loop that folds over a list. *)
Lemma foldl_inv {A B} (P : A -> Prop) (f : A -> B -> A) xs a :
  P a -> (forall a x, x ∈ xs -> P a -> P (f a x)) -> P (foldl f a xs).
Proof.
  revert a. induction xs as [|x xs IH]; intros a Ha Hf; simpl; [done|].
  apply IH; [apply Hf; [set_solver|done]|]. intros; apply Hf; [set_solver|done].
Qed.

(** ** Arrays

[array_get] and [array_set] are the accesses [a[i]] at an [int] index: outside
the array there is no result. *)

Definition array_get {A} (l : list A) (i : Z) : option A :=
  if 0 <=? i then l !! Z.to_nat i else None.

Definition array_set {A} (l : list A) (i : Z) (x : A) : option (list A) :=
  if (0 <=? i) && (i <? Z.of_nat (length l)) then Some (<[Z.to_nat i := x]> l) else None.

Lemma array_get_nat {A} (l : list A) (n : nat) : array_get l (Z.of_nat n) = l !! n.
Proof. unfold array_get. rewrite Nat2Z.id. by destruct (Z.leb_spec 0 (Z.of_nat n)); [|lia]. Qed.

Lemma array_set_nat {A} (l : list A) (n : nat) x :
  (n < length l)%nat -> array_set l (Z.of_nat n) x = Some (<[n := x]> l).
Proof.
  intros. unfold array_set. rewrite Nat2Z.id.
  replace ((0 <=? Z.of_nat n) && (Z.of_nat n <? Z.of_nat (length l))) with true by lia. done.
Qed.

Lemma array_get_in {A} (l : list A) i :
  0 <= i < Z.of_nat (length l) -> exists x, array_get l i = Some x /\ l !! Z.to_nat i = Some x.
Proof.
  intros Hi. destruct (lookup_lt_is_Some_2 l (Z.to_nat i)) as [x Hx]; [lia|].
  exists x. split; [|done]. unfold array_get. by replace (0 <=? i) with true by lia.
Qed.

Lemma array_get_out {A} (l : list A) i :
  i < 0 \/ Z.of_nat (length l) <= i -> array_get l i = None.
Proof.
  intros Hi. unfold array_get. destruct (Z.leb_spec 0 i); [|done].
  apply lookup_ge_None_2. lia.
Qed.

Lemma array_set_in {A} (l : list A) i x :
  0 <= i < Z.of_nat (length l) -> array_set l i x = Some (<[Z.to_nat i := x]> l).
Proof.
  intros. unfold array_set.
  by replace ((0 <=? i) && (i <? Z.of_nat (length l))) with true by lia.
Qed.

(** Exchange of two slots of a list, and its effect on a lookup. *)
Definition exchange {A} `{Inhabited A} (xs : list A) (i j : nat) : list A :=
  <[i := xs !!! j]> (<[j := xs !!! i]> xs).

Section Exchange.
Context {A : Type} `{Inhabited A}.
Implicit Type xs : list A.

Lemma exchange_length xs i j : length (exchange xs i j) = length xs.
Proof. unfold exchange. by rewrite !length_insert. Qed.

Lemma exchange_lookup xs i j k :
  (i < length xs)%nat -> (j < length xs)%nat ->
  exchange xs i j !!! k = if decide (k = i) then xs !!! j
                          else if decide (k = j) then xs !!! i else xs !!! k.
Proof.
  intros Hi Hj. unfold exchange. repeat case_decide; subst.
  - apply list_lookup_total_insert_eq. by rewrite length_insert.
  - rewrite list_lookup_total_insert_ne by done. by apply list_lookup_total_insert_eq.
  - by rewrite !list_lookup_total_insert_ne by done.
Qed.

Lemma exchange_perm xs i j :
  (i < length xs)%nat -> (j < length xs)%nat -> exchange xs i j ≡ₚ xs.
Proof.
  intros Hi Hj. unfold exchange.
  destruct (lookup_lt_is_Some_2 xs i Hi) as [x Hx].
  destruct (lookup_lt_is_Some_2 xs j Hj) as [y Hy].
  rewrite !list_lookup_total_alt, Hx, Hy; simpl.
  by apply Permutation_insert_swap.
Qed.

End Exchange.

(** Sums over a list, compared term by term. *)
Lemma sum_le {A} (f g : A -> nat) xs :
  (forall x, x ∈ xs -> (f x <= g x)%nat) -> (sum_list_with f xs <= sum_list_with g xs)%nat.
Proof.
  induction xs as [|x xs IH]; intros Hle; [done|]. cbn.
  pose proof (Hle x (list_elem_of_here _ _)). assert (sum_list_with f xs <= sum_list_with g xs)%nat; [|lia].
  apply IH. intros y Hy. apply Hle. by right.
Qed.

Lemma sum_lt {A} (f g : A -> nat) xs z :
  (forall x, x ∈ xs -> (f x <= g x)%nat) -> z ∈ xs -> (f z < g z)%nat ->
  (sum_list_with f xs < sum_list_with g xs)%nat.
Proof.
  intros Hle [ys [zs ->]]%list_elem_of_split Hlt. rewrite !sum_list_with_app. cbn.
  assert (sum_list_with f ys <= sum_list_with g ys)%nat
    by (apply sum_le; intros; apply Hle; set_solver).
  assert (sum_list_with f zs <= sum_list_with g zs)%nat
    by (apply sum_le; intros; apply Hle; set_solver).
  lia.
Qed.

(** A loop that goes round for ever uses up any fuel. *)
Lemma loop_forever {S L R} (I : L -> S -> Prop) (body : L -> M S (L + R)) :
  (forall l s, I l s -> exists l' s', body l s = Val (inl l') s' /\ I l' s') ->
  forall fuel l s, I l s -> exists l' s', loop fuel body l s = NoFuel s' /\ I l' s'.
Proof.
  intros Hbody fuel. induction fuel as [|fuel IH]; intros l s HI; [by exists l, s|].
  destruct (Hbody l s HI) as (l' & s' & Hrun & HI'). cbn [loop].
  rewrite (bind_val _ _ _ _ _ Hrun). by apply IH.
Qed.
