(* ===== verification/HeapModel.v ===== *)
(** * HeapModel: binary heaps as lists

The list-level account of the two loops of [sw_sim/heap.h]: [up] and [down]
are what [sift_up] and [sift_down] do to the live prefix of the array, free of
bounds, pointers and clocks.  [Heap.v] proves that the array code refines them;
here they are shown to permute the list and to restore the heap order, for any
test [better] and any total preorder [le] that it decides. *)
From S2P Require Import Prelude.

Section HeapModel.
Context {A : Type} `{Inhabited A}.
Variable better : A -> A -> bool.
Implicit Type xs : list A.
Local Open Scope nat_scope.

Definition parent (j : nat) : nat := (j - 1) / 2.

(** [swap] with the parent while the element is better than its parent. *)
Fixpoint up (fuel : nat) (xs : list A) (i : nat) : list A :=
  match fuel with
  | O => xs
  | S fuel' =>
      if decide (i = 0) then xs
      else if better (xs !!! i) (xs !!! parent i)
           then up fuel' (exchange xs i (parent i)) (parent i)
           else xs
  end.

(** The child that [sift_down] descends to, or [i] itself. *)
Definition best_of (xs : list A) (i : nat) : nat :=
  let l := 2 * i + 1 in
  let r := 2 * i + 2 in
  let b := if decide (l < length xs) then if better (xs !!! l) (xs !!! i) then l else i else i in
  if decide (r < length xs) then if better (xs !!! r) (xs !!! b) then r else b else b.

Fixpoint down (fuel : nat) (xs : list A) (i : nat) : list A :=
  match fuel with
  | O => xs
  | S fuel' =>
      if decide (i < length xs)
      then if decide (best_of xs i = i) then xs
           else down fuel' (exchange xs i (best_of xs i)) (best_of xs i)
      else xs
  end.

(** The list of a heap after [push x], and after [pop]. *)
Definition push_heap (xs : list A) (x : A) : list A := up (S (length xs)) (xs ++ [x]) (length xs).

(** The last element takes the place of the root. *)
Definition pop_rest (xs : list A) : list A :=
  <[0 := xs !!! (length xs - 1)]> (take (length xs - 1) xs).

Definition pop_heap (xs : list A) : list A := down (S (length (pop_rest xs))) (pop_rest xs) 0.

Lemma pop_rest_length xs : length (pop_rest xs) = length xs - 1.
Proof. unfold pop_rest. rewrite length_insert, length_take. lia. Qed.

Lemma pop_rest_perm xs : xs <> [] -> xs ≡ₚ xs !!! 0 :: pop_rest xs.
Proof.
  intros Hne. destruct (exists_last Hne) as (ys & z & ->). unfold pop_rest.
  rewrite length_app; simpl. rewrite Nat.add_sub, take_app_length.
  rewrite (lookup_total_app_r ys [z] (length ys)) by lia. rewrite Nat.sub_diag. simpl.
  destruct ys as [|y ys]; simpl; [done|].
  by rewrite <- Permutation_cons_append.
Qed.

Lemma parent_lt j : 0 < j -> parent j < j.
Proof. intros. unfold parent. apply Nat.Div0.div_lt_upper_bound. lia. Qed.

Lemma parent_child i j : parent j = i -> 0 < j -> j = 2 * i + 1 \/ j = 2 * i + 2.
Proof.
  unfold parent. intros <- ?.
  pose proof (Nat.div_mod_eq (j - 1) 2). pose proof (Nat.mod_upper_bound (j - 1) 2). lia.
Qed.

Lemma child_parent i : parent (2 * i + 1) = i /\ parent (2 * i + 2) = i.
Proof.
  unfold parent. split.
  - replace (2 * i + 1 - 1) with (i * 2) by lia. by apply Nat.div_mul.
  - replace (2 * i + 2 - 1) with (1 + i * 2) by lia. rewrite Nat.div_add by lia. done.
Qed.

Lemma best_of_cases xs i :
  best_of xs i = i \/ (best_of xs i = 2 * i + 1 /\ 2 * i + 1 < length xs)
  \/ (best_of xs i = 2 * i + 2 /\ 2 * i + 2 < length xs).
Proof. unfold best_of. repeat (case_decide || case_match); lia. Qed.

Lemma up_length fuel xs i : length (up fuel xs i) = length xs.
Proof.
  revert xs i. induction fuel as [|fuel IH]; intros xs i; simpl; [done|].
  case_decide; [done|]. case_match; [|done]. by rewrite IH, exchange_length.
Qed.

Lemma down_length fuel xs i : length (down fuel xs i) = length xs.
Proof.
  revert xs i. induction fuel as [|fuel IH]; intros xs i; simpl; [done|].
  case_decide; [|done]. case_decide; [done|]. by rewrite IH, exchange_length.
Qed.

Lemma up_perm fuel xs i : i < length xs -> up fuel xs i ≡ₚ xs.
Proof.
  revert xs i. induction fuel as [|fuel IH]; intros xs i Hi; simpl; [done|].
  case_decide; [done|]. pose proof (parent_lt i). case_match; [|done].
  rewrite IH by (rewrite exchange_length; lia). apply exchange_perm; lia.
Qed.

Lemma down_perm fuel xs i : down fuel xs i ≡ₚ xs.
Proof.
  revert xs i. induction fuel as [|fuel IH]; intros xs i; simpl; [done|].
  case_decide; [|done]. case_decide; [done|].
  rewrite IH. apply exchange_perm; [done|].
  destruct (best_of_cases xs i) as [?|[[-> ?]|[-> ?]]]; done.
Qed.

Lemma push_heap_perm xs x : push_heap xs x ≡ₚ x :: xs.
Proof.
  unfold push_heap. rewrite up_perm by (rewrite length_app; simpl; lia). symmetry. apply Permutation_cons_append.
Qed.

Lemma pop_heap_perm xs : xs <> [] -> xs ≡ₚ xs !!! 0 :: pop_heap xs.
Proof. intros Hne. unfold pop_heap. rewrite down_perm. by apply pop_rest_perm. Qed.

Section Order.
Variable le : A -> A -> Prop.
Context `{!PreOrder le}.
Hypothesis better_le : forall a b, better a b = true -> le a b.
Hypothesis not_better_le : forall a b, better a b = false -> le b a.

(** Every element is no better than its children. *)
Definition heap_order xs : Prop :=
  forall j, 0 < j < length xs -> le (xs !!! parent j) (xs !!! j).

(** The order may fail between [i] and its parent only. *)
Definition order_above xs i : Prop :=
  (forall j, 0 < j < length xs -> j <> i -> le (xs !!! parent j) (xs !!! j)) /\
  (forall j, 0 < j < length xs -> parent j = i -> 0 < i -> le (xs !!! parent i) (xs !!! j)).

(** The order may fail between [i] and its children only. *)
Definition order_below xs i : Prop :=
  (forall j, 0 < j < length xs -> parent j <> i -> le (xs !!! parent j) (xs !!! j)) /\
  (forall j, 0 < j < length xs -> parent j = i -> 0 < i -> le (xs !!! parent i) (xs !!! j)).

Ltac exchanged := rewrite !exchange_lookup by lia;
  repeat first [rewrite decide_True by lia | rewrite decide_False by lia].

Lemma up_order fuel xs i :
  i < fuel -> i < length xs -> order_above xs i -> heap_order (up fuel xs i).
Proof.
  revert xs i. induction fuel as [|fuel IH]; intros xs i Hf Hi [Habove Hskip]; [lia|]. simpl.
  case_decide as Hi0; [intros j Hj; apply Habove; lia|].
  pose proof (parent_lt i) as Hp. set (p := parent i) in *.
  destruct (better (xs !!! i) (xs !!! p)) eqn:Hb.
  - apply better_le in Hb. apply IH; [lia|rewrite exchange_length; lia|].
    split; intros j Hj Hjp; rewrite exchange_length in Hj; pose proof (parent_lt j).
    + destruct (decide (j = i)) as [->|]; [fold p; by exchanged|].
      destruct (decide (parent j = i)) as [Hj'|]; [exchanged; apply Hskip; lia|].
      destruct (decide (parent j = p)) as [Hj'|]; exchanged; [|apply Habove; lia].
      etrans; [exact Hb|]. rewrite <- Hj'. apply Habove; lia.
    + intros Hp0. pose proof (parent_lt p).
      destruct (decide (j = i)) as [->|]; exchanged; [apply Habove; lia|].
      etrans; [apply Habove; lia|]. rewrite <- Hjp. apply Habove; lia.
  - apply not_better_le in Hb. intros j Hj.
    destruct (decide (j = i)) as [->|]; [done|]. by apply Habove.
Qed.

Lemma best_of_le_self xs i : le (xs !!! best_of xs i) (xs !!! i).
Proof.
  unfold best_of. set (b := if decide (2 * i + 1 < length xs) then _ else _).
  assert (Hb : le (xs !!! b) (xs !!! i)).
  { subst b. case_decide; [case_match; [by apply better_le|reflexivity]|reflexivity]. }
  case_decide; [|done]. case_match; [|done]. etrans; [by apply better_le|done].
Qed.

Lemma best_of_le_child xs i j :
  j < length xs -> parent j = i -> 0 < j -> le (xs !!! best_of xs i) (xs !!! j).
Proof.
  intros Hj Hp Hj0. destruct (parent_child i j Hp Hj0) as [-> | ->]; unfold best_of.
  - rewrite (decide_True (P := 2 * i + 1 < length xs)) by done. set (b := if better (xs !!! (2 * i + 1)) (xs !!! i) then _ else _).
    assert (Hb : le (xs !!! b) (xs !!! (2 * i + 1))).
    { subst b. case_match; [reflexivity|by apply not_better_le]. }
    case_decide; [|done]. case_match; [|done]. etrans; [by apply better_le|done].
  - rewrite (decide_True (P := 2 * i + 2 < length xs)) by done.
    case_match; [reflexivity|by apply not_better_le].
Qed.

Lemma down_order fuel xs i :
  length xs - i < fuel -> order_below xs i -> heap_order (down fuel xs i).
Proof.
  revert xs i. induction fuel as [|fuel IH]; intros xs i Hf [Hbelow Hskip]; [lia|]. simpl.
  case_decide as Hi; [|intros j Hj; apply Hbelow; [lia|]; pose proof (parent_lt j); lia].
  pose proof (best_of_cases xs i) as Hcases. pose proof (best_of_le_self xs i) as Hself.
  pose proof (best_of_le_child xs i) as Hchild. destruct (child_parent i) as [Hl Hr].
  set (b := best_of xs i) in *.
  case_decide as Hb.
  { intros j Hj. destruct (decide (parent j = i)) as [Hj'|]; [|by apply Hbelow].
    rewrite Hj'. rewrite <- Hb at 1. apply Hchild; lia. }
  assert (i < b < length xs /\ parent b = i) as [Hib Hpb]
    by (destruct Hcases as [?|[[-> ?]|[-> ?]]]; [done|..]; (split; [lia|done])).
  apply IH; [rewrite exchange_length; lia|].
  split; intros j Hj Hjp; rewrite exchange_length in Hj; pose proof (parent_lt j).
  - destruct (decide (j = i)) as [->|]; [exchanged; apply Hskip; lia|].
    destruct (decide (parent j = i)) as [Hj'|]; 
      [|assert (j <> b) by congruence; exchanged; apply Hbelow; lia].
    destruct (decide (j = b)) as [->|]; exchanged; [done|]. apply Hchild; lia.
  - intros _. rewrite Hpb. exchanged. rewrite <- Hjp. apply Hbelow; lia.
Qed.

(** The root of an ordered heap is no worse than any element. *)
Lemma heap_order_root xs j : heap_order xs -> j < length xs -> le (xs !!! 0) (xs !!! j).
Proof.
  intros Hx. induction (lt_wf j) as [j _ IH]. intros Hj.
  destruct (decide (j = 0)) as [->|]; [reflexivity|].
  pose proof (parent_lt j). etrans; [apply (IH (parent j)); lia|]. apply Hx. lia.
Qed.

(** Appending an element breaks the order above it only. *)
Lemma order_above_snoc xs x : heap_order xs -> order_above (xs ++ [x]) (length xs).
Proof.
  intros Hx. split; intros j Hj Hne; rewrite length_app in Hj; simpl in Hj; pose proof (parent_lt j).
  - rewrite !lookup_total_app_l by lia. apply Hx. lia.
  - lia.
Qed.

(** Overwriting the root breaks the order below it only. *)
Lemma order_below_root xs x : heap_order xs -> order_below (<[0 := x]> xs) 0.
Proof.
  intros Hx. split; intros j Hj Hne; rewrite length_insert in Hj; [|lia].
  rewrite !list_lookup_total_insert_ne by lia. apply Hx. lia.
Qed.

Lemma heap_order_prefix xs ys : heap_order (xs ++ ys) -> heap_order xs.
Proof.
  intros Hx j Hj. pose proof (parent_lt j). specialize (Hx j).
  rewrite length_app, !lookup_total_app_l in Hx by lia. apply Hx. lia.
Qed.

Lemma push_heap_order xs x : heap_order xs -> heap_order (push_heap xs x).
Proof.
  intros Hx. apply up_order; [lia|rewrite length_app; simpl; lia|]. by apply order_above_snoc.
Qed.

Lemma pop_heap_order xs : heap_order xs -> heap_order (pop_heap xs).
Proof.
  intros Hx. apply down_order; [lia|]. unfold pop_rest. apply order_below_root.
  apply (heap_order_prefix _ (drop (length xs - 1) xs)). by rewrite take_drop.
Qed.

End Order.
End HeapModel.

(** ** Two heaps that agree

Two lists whose elements compare the same way, position by position, are moved the
same way. *)
Section Agree.
Context {A B : Type} `{Inhabited A, Inhabited B}.
Variables (better1 : A -> A -> bool) (better2 : B -> B -> bool).
Variable R : A -> B -> Prop.
Local Open Scope nat_scope.

Record agree (xs : list A) (ys : list B) : Prop := {
  agree_elements : Forall2 R xs ys;
  agree_better i j : i < length xs -> j < length xs -> i <> j ->
    better1 (xs !!! i) (xs !!! j) = better2 (ys !!! i) (ys !!! j)
}.

Lemma Forall2_insert_total (xs : list A) (ys : list B) i x y : Forall2 R xs ys -> R x y -> Forall2 R (<[i := x]> xs) (<[i := y]> ys).
Proof. intros. by apply Forall2_insert. Qed.

Lemma Forall2_total xs ys i : Forall2 R xs ys -> i < length xs -> R (xs !!! i) (ys !!! i).
Proof.
  intros HR Hi. destruct (lookup_lt_is_Some_2 xs i Hi) as [x Hx]. destruct (Forall2_lookup_l _ _ _ _ _ HR Hx) as (y & Hy & Hxy).
  by rewrite (list_lookup_total_correct _ _ _ Hx), (list_lookup_total_correct _ _ _ Hy).
Qed.

Lemma agree_exchange xs ys i j :
  agree xs ys -> i < length xs -> j < length xs -> agree (exchange xs i j) (exchange ys i j).
Proof.
  intros [HR Hb] Hi Hj. pose proof (Forall2_length _ _ _ HR) as Hlen. split.
  - unfold exchange. repeat apply Forall2_insert_total; try done; by apply Forall2_total.
  - intros p q. rewrite exchange_length. intros Hp Hq Hpq. rewrite !exchange_lookup by lia.
    repeat case_decide; subst; apply Hb; lia.
Qed.

Lemma agree_up fuel xs ys i : agree xs ys -> i < length xs -> agree (up better1 fuel xs i) (up better2 fuel ys i).
Proof.
  revert xs ys i. induction fuel as [|fuel IH]; intros xs ys i Ha Hi; [done|]. cbn [up].
  case_decide as H0i; [done|]. pose proof (parent_lt i ltac:(lia)) as Hp.
  rewrite (agree_better _ _ Ha i (parent i)) by lia. case_match; [|done].
  apply IH; [by apply agree_exchange; [|lia..]|rewrite exchange_length; lia].
Qed.

Lemma agree_best xs ys i : agree xs ys -> i < length xs -> best_of better1 xs i = best_of better2 ys i.
Proof.
  intros Ha Hi. pose proof (Forall2_length _ _ _ (agree_elements _ _ Ha)) as Hlen. unfold best_of. rewrite <- Hlen.
  assert (Hl : (if decide (2 * i + 1 < length xs) then if better1 (xs !!! (2 * i + 1)) (xs !!! i) then 2 * i + 1 else i else i)
    = (if decide (2 * i + 1 < length xs) then if better2 (ys !!! (2 * i + 1)) (ys !!! i) then 2 * i + 1 else i else i)).
  { case_decide; [|done]. by rewrite (agree_better _ _ Ha) by lia. }
  rewrite Hl. set (b := if decide (2 * i + 1 < length xs) then _ else _).
  assert (b = i \/ b = 2 * i + 1 /\ 2 * i + 1 < length xs) by (subst b; repeat case_match; lia).
  clear Hl. clearbody b. case_decide; [|done]. by rewrite (agree_better _ _ Ha (2 * i + 2) b) by lia.
Qed.

Lemma agree_down fuel xs ys i : agree xs ys -> agree (down better1 fuel xs i) (down better2 fuel ys i).
Proof.
  revert xs ys i. induction fuel as [|fuel IH]; intros xs ys i Ha; [done|]. cbn [down].
  pose proof (Forall2_length _ _ _ (agree_elements _ _ Ha)) as Hlen. rewrite <- Hlen.
  case_decide as Hi; [|done]. rewrite <- (agree_best xs ys i Ha Hi). case_decide; [done|].
  apply IH, agree_exchange; [done|done|]. destruct (best_of_cases better1 xs i) as [?|[[-> ?]|[-> ?]]]; done.
Qed.

Lemma agree_push xs ys x y : agree (xs ++ [x]) (ys ++ [y]) -> agree (push_heap better1 xs x) (push_heap better2 ys y).
Proof.
  intros Ha. pose proof (Forall2_length _ _ _ (agree_elements _ _ Ha)) as Hlen. rewrite !length_app in Hlen. simpl in Hlen.
  unfold push_heap. replace (length ys) with (length xs) by lia. apply agree_up; [done|]. rewrite length_app. simpl. lia.
Qed.

Lemma agree_pop xs ys : agree xs ys -> agree (pop_heap better1 xs) (pop_heap better2 ys).
Proof.
  intros Ha. pose proof (Forall2_length _ _ _ (agree_elements _ _ Ha)) as Hlen. unfold pop_heap.
  replace (length (pop_rest ys)) with (length (pop_rest xs)) by (rewrite !pop_rest_length; lia).
  apply agree_down. destruct xs as [|x0 xs']; [by destruct ys|]. set (xs := x0 :: xs') in *.
  assert (Hn : 0 < length xs) by (simpl; lia).
  assert (Hlook : forall {C} `{Inhabited C} (zs : list C) p, p < length zs - 1 ->
    pop_rest zs !!! p = zs !!! (if decide (p = 0) then length zs - 1 else p)).
  { intros C ? zs p Hp. unfold pop_rest. case_decide as Hp0.
    - subst p. by rewrite list_lookup_total_insert_eq by (rewrite length_take; lia).
    - rewrite list_lookup_total_insert_ne by done. by rewrite !list_lookup_total_alt, lookup_take_lt by lia. }
  split.
  - unfold pop_rest. rewrite <- Hlen. apply Forall2_insert_total; [by apply Forall2_take, Ha|].
    apply Forall2_total; [apply Ha|lia].
  - intros p q. rewrite pop_rest_length. intros Hp Hq Hpq. rewrite !Hlook by lia. rewrite <- Hlen.
    repeat case_decide; apply Ha; lia.
Qed.
End Agree.

Arguments parent _ : simpl never.
Arguments best_of {A _} _ _ _ : simpl never.
Arguments exchange {A _} _ _ _ : simpl never.
