(* ===== verification/Machine.v ===== *)
(** * Machine: what the simulators use of the C library

The orders that [malloc] has handed out, the two sources of outside values
([clock_gettime] and [rand]) and what the program prints.  A pointer to an
[Order] is the position of the object in the store of orders; [malloc] is taken
to succeed (the sources never test its result), and objects are freed only when
a run ends, so positions are never reused. *)
From S2P Require Import Prelude.

(** [Order] of [sw_sim/heap.h]: [short] price and amount, [uint32_t]
timestamp, [int] type (1 an ask, 0 a bid). *)
Record Order := mkOrder {
  price : Z;
  timestamp : Z;
  amount : Z;
  type : Z;
  symbol : string
}.

#[export] Instance Order_inhabited : Inhabited Order := populate (mkOrder 0 0 0 0 "").
#[export] Instance Order_eq_dec : EqDecision Order.
Proof. solve_decision. Defined.

Definition set_amount (v : Z) (o : Order) : Order :=
  mkOrder (price o) (timestamp o) v (type o) (symbol o).

(** A call of [printf] or [fprintf]: the stream, the format and its arguments. *)
Inductive arg := Int (z : Z) | Str (s : string).
Inductive stream := Stdout | Stderr | Results.
Record line := mkLine { line_stream : stream; line_format : string; line_args : list arg }.

Record timespec := mkTimespec { tv_sec : Z; tv_nsec : Z }.

(** The outside world: what the [n]-th call of [clock_gettime] and of [rand]
returns, and how many streams [fopen] can hold open at a time. *)
Class Env := {
  clock : nat -> timespec;
  rand_value : nat -> Z;
  open_limit : nat
}.

(** What their documentation promises. *)
Class EnvOk `{Env} : Prop := {
  nsec_range : forall n, 0 <= tv_nsec (clock n) < 1000000000;
  rand_range_ok : forall n, 0 <= rand_value n <= 2147483647
}.

(** A world to run the programs in: the clock advances by a nanosecond at each
call and [rand] counts. *)
Definition demo_env : Env := {|
  clock := fun n => mkTimespec 0 (Z.of_nat n mod 1000000000);
  rand_value := fun n => Z.of_nat n mod 2147483648;
  open_limit := 64
|}.

Lemma demo_env_ok : @EnvOk demo_env.
Proof.
  split; intros n; cbn.
  - apply Z.mod_pos_bound. lia.
  - pose proof (Z.mod_pos_bound (Z.of_nat n) 2147483648). lia.
Qed.

Record Mach := mkMach {
  store : list Order;
  clock_calls : nat;
  rand_calls : nat;
  open_files : nat;
  output : list line
}.

Definition set_store (st : list Order) (m : Mach) : Mach :=
  mkMach st (clock_calls m) (rand_calls m) (open_files m) (output m).
Definition set_open_files (n : nat) (m : Mach) : Mach :=
  mkMach (store m) (clock_calls m) (rand_calls m) n (output m).
Definition emit (ls : list line) (m : Mach) : Mach :=
  mkMach (store m) (clock_calls m) (rand_calls m) (open_files m) (output m ++ ls).
(** The state after [n] more calls of [clock_gettime]. *)
Definition tick (n : nat) (m : Mach) : Mach :=
  mkMach (store m) (n + clock_calls m) (rand_calls m) (open_files m) (output m).

Definition init_mach : Mach := mkMach [] 0 0 0 [].

Section Machine.
Context `{Env}.

(** [malloc] of an order, filled in: its address. *)
Definition alloc_order (o : Order) : M Mach nat := fun m =>
  Val (length (store m)) (set_store (store m ++ [o]) m).

Definition clock_gettime : M Mach timespec := fun m => Val (clock (clock_calls m)) (tick 1 m).

Definition rand : M Mach Z := fun m =>
  Val (rand_value (rand_calls m))
      (mkMach (store m) (clock_calls m) (S (rand_calls m)) (open_files m) (output m)).

Definition fprintf (f : stream) (fmt : string) (args : list arg) : M Mach unit := fun m =>
  Val tt (emit [mkLine f fmt args] m).

Definition printf (fmt : string) (args : list arg) : M Mach unit := fprintf Stdout fmt args.

(** [fopen]: whether it gives a stream. [fclose] gives one back. *)
Definition fopen : M Mach bool := fun m =>
  if (open_files m <? open_limit)%nat
  then Val true (set_open_files (S (open_files m)) m) else Val false m.
Definition fclose : M Mach unit := modify (fun m => set_open_files (pred (open_files m)) m).

(** [p->field] and [p->amount = v]. *)
Definition load (p : nat) : M Mach Order := fun m =>
  match store m !! p with Some o => Val o m | None => Undef end.

Definition store_amount (p : nat) (v : Z) : M Mach unit :=
  let! o := load p in
  modify (fun m => set_store (<[p := set_amount v o]> (store m)) m).

End Machine.
