(* ===== verification/Heap.v ===== *)
(** * Heap: the priority queue of [sw_sim/heap.h]

One definition per function of the header, over the array of order pointers
that it keeps ([data], of which the first [size] slots are live), followed by
the proof that the array code refines the list heaps of [HeapModel.v]. *)
From Stdlib Require Import Sorting.Sorted.
From S2P Require Import Prelude HeapModel Machine.

Definition MAX_PRICE : Z := 100.
Definition MAX_AMOUNT : Z := 10.
Definition MAX_ORDERS : Z := 1500000.
Definition DEFAULT_MODE : Z := 1.
Definition DEFAULT_ORDERS : Z := 100.
Definition TRIM_TIME : Z := 0xFFFFFFFFFFFF.

(** A comparison returns one of the two pointers it is given; [None] is a
dangling argument. *)
Definition HeapCmpFunc : Type := list Order -> nat -> nat -> option nat.

(** [data] has one entry per allocated slot, [None] while it has never been
written.  [h_mm], [h_ob] and [h_stats] say whether the three pointers are set;
when they are, they point to the memory manager, to the book that owns the
heap and to the statistics (see [MmuSim.create_order_book]). *)
Record Heap := mkHeap {
  data : list (option nat);
  size : Z;
  capacity : Z;
  cmp : HeapCmpFunc;
  h_mm : bool;
  h_ob : bool;
  h_stats : bool
}.

Definition set_data (d : list (option nat)) (h : Heap) : Heap :=
  mkHeap d (size h) (capacity h) (cmp h) (h_mm h) (h_ob h) (h_stats h).
Definition set_size (n : Z) (h : Heap) : Heap :=
  mkHeap (data h) n (capacity h) (cmp h) (h_mm h) (h_ob h) (h_stats h).
Definition set_capacity (n : Z) (h : Heap) : Heap :=
  mkHeap (data h) (size h) n (cmp h) (h_mm h) (h_ob h) (h_stats h).

(** [free_node_memory], declared by the header and defined by each simulator:
what a heap tells its owner when it drops an expired order. *)
Class NodeMemory (W : Type) := free_node_memory : M W unit.

(** The state a heap operation works on: the machine, the heap itself and
whatever [free_node_memory] reaches. *)
Record HW (W : Type) := mkHW { mach : Mach; hp : Heap; ext : W }.
Arguments mkHW {W} _ _ _.
Arguments mach {W} _.
Arguments hp {W} _.
Arguments ext {W} _.

(** [strncpy(dst, src, 3); dst[3] = 0]. *)
Definition symbol3 (s : string) : string := String.substring 0 3 s.
#[global] Arguments symbol3 : simpl never.

Section Create.
Context `{Env}.

Definition create_order (price amount type : Z) (symbol : string) : M Mach nat :=
  let! ts := clock_gettime in
  alloc_order (mkOrder (s16 price) (u32 (tv_nsec ts)) (s16 amount) type (symbol3 symbol)).

Definition create_heap (capacity : Z) (cmp : HeapCmpFunc) : Heap :=
  mkHeap (replicate (Z.to_nat capacity) None) 0 capacity cmp false false false.

Definition rand_range (min max : Z) : M Mach Z :=
  let! r := rand in
  let! span := int (max - min) in
  let! span := int (span + 1) in
  if span =? 0 then undef else int (min + Z.rem r span).

End Create.

Section Cmp.
Local Open Scope Z_scope.

Definition min_cmp : HeapCmpFunc := fun st a b =>
  oa ← st !! a; ob ← st !! b;
  Some (if price oa <? price ob then a
        else if price oa =? price ob then
          if timestamp oa <? timestamp ob then a
          else if timestamp oa =? timestamp ob then
            if amount oa >? amount ob then a else b
          else b
        else b).

Definition max_cmp : HeapCmpFunc := fun st a b =>
  oa ← st !! a; ob ← st !! b;
  Some (if price oa >? price ob then a
        else if price oa =? price ob then
          if timestamp oa <? timestamp ob then a
          else if timestamp oa =? timestamp ob then
            if amount oa >? amount ob then a else b
          else b
        else b).

End Cmp.

Definition is_expired (o : Order) (now : Z) : bool := u32 (now - timestamp o) >? TRIM_TIME.

Section HeapOps.
Context `{Env} {W : Type} `{NodeMemory W}.

Definition on_mach {A} (m : M Mach A) : M (HW W) A :=
  zoom mach (fun x s => mkHW x (hp s) (ext s)) m.
Definition on_ext {A} (m : M W A) : M (HW W) A :=
  zoom ext (fun x s => mkHW (mach s) (hp s) x) m.
Definition update_heap (f : Heap -> Heap) : M (HW W) unit :=
  modify (fun s => mkHW (mach s) (f (hp s)) (ext s)).

(** [h->data[i]], read and written. *)
Definition data_get (i : Z) : M (HW W) nat := fun s =>
  match array_get (data (hp s)) i with Some (Some p) => Val p s | _ => Undef end.
Definition data_set (i : Z) (p : nat) : M (HW W) unit := fun s =>
  match array_set (data (hp s)) i (Some p) with
  | Some d => Val tt (mkHW (mach s) (set_data d (hp s)) (ext s))
  | None => Undef
  end.

(** [h->cmp(a, b)]. *)
Definition call_cmp (a b : nat) : M (HW W) nat := fun s =>
  match cmp (hp s) (store (mach s)) a b with Some p => Val p s | None => Undef end.

(** [swap(&h->data[i], &h->data[j])]. *)
Definition swap (i j : Z) : M (HW W) unit :=
  let! tmp := data_get i in
  let! b := data_get j in
  data_set i b ;;! data_set j tmp.

Definition sift_up_body (i : Z) : M (HW W) (Z + unit) :=
  if 0 <? i then
    let parent := (i - 1) ÷ 2 in
    let! di := data_get i in
    let! dp := data_get parent in
    let! c := call_cmp di dp in
    if decide (c = di) then swap i parent ;;! ret (inl parent) else ret (inr tt)
  else ret (inr tt).

Definition sift_up (i : Z) : M (HW W) unit := loop (S (Z.to_nat i)) sift_up_body i.

(** [j < h->size && is_expired(h->data[j], now)]. *)
Definition expired_at (j now : Z) : M (HW W) bool :=
  let! h := gets hp in
  if j <? size h then
    let! p := data_get j in
    let! o := on_mach (load p) in
    ret (is_expired o now)
  else ret false.

(** [h->data[j] = h->data[--h->size]; if (h->mm) free_node_memory(...)]. *)
Definition trim (j : Z) : M (HW W) unit :=
  let! h := gets hp in
  let! n := int (size h - 1) in
  update_heap (set_size n) ;;!
  let! p := data_get n in
  data_set j p ;;!
  (if h_mm h then on_ext free_node_memory else ret tt).

(** [j < h->size && h->cmp(h->data[j], h->data[best]) == h->data[j]]. *)
Definition beats (j best : Z) : M (HW W) bool :=
  let! h := gets hp in
  if j <? size h then
    let! dj := data_get j in
    let! db := data_get best in
    let! c := call_cmp dj db in
    ret (bool_decide (c = dj))
  else ret false.

Definition sift_down_body (now i : Z) : M (HW W) (Z + unit) :=
  let! h := gets hp in
  if i <? size h then
    let! dbl := int (2 * i) in
    let! left := int (dbl + 1) in
    let! right := int (dbl + 2) in
    let! el := expired_at left now in
    if (el : bool) then trim left ;;! ret (inl i) else
    let! er := expired_at right now in
    if (er : bool) then trim right ;;! ret (inl i) else
    let! bl := beats left i in
    let best := if (bl : bool) then left else i in
    let! br := beats right best in
    let best := if (br : bool) then right else best in
    if best =? i then ret (inr tt) else swap i best ;;! ret (inl best)
  else ret (inr tt).

Definition sift_down (i : Z) : M (HW W) unit :=
  let! ts := on_mach clock_gettime in
  let now := u32 (tv_nsec ts) in
  let! h := gets hp in
  loop (S (Z.to_nat (size h))) (sift_down_body now) i.

Definition update (new_amount : Z) : M (HW W) unit :=
  let! p := data_get 0 in
  on_mach (store_amount p (s16 new_amount)).

(** [realloc] to a larger array: the old slots, then unwritten ones. *)
Definition realloc (n : Z) (d : list (option nat)) : list (option nat) :=
  take (Z.to_nat n) d ++ replicate (Z.to_nat n - length d) None.

(** The [if (h->size == h->capacity)] block of [push]. *)
Definition grow : M (HW W) unit :=
  let! h := gets hp in
  if size h =? capacity h then
    let! c := int (capacity h * 2) in
    update_heap (set_capacity c) ;;!
    update_heap (fun h => set_data (realloc c (data h)) h)
  else ret tt.

Definition push (val : nat) : M (HW W) unit :=
  grow ;;!
  let! h := gets hp in
  data_set (size h) val ;;!
  sift_up (size h) ;;!
  let! h := gets hp in
  let! n := int (size h + 1) in
  update_heap (set_size n).

Definition pop : M (HW W) nat :=
  let! top := data_get 0 in
  let! h := gets hp in
  let! n := int (size h - 1) in
  update_heap (set_size n) ;;!
  let! p := data_get n in
  data_set 0 p ;;!
  sift_down 0 ;;!
  ret top.

Definition peek : M (HW W) nat := data_get 0.

End HeapOps.

(** ** Refinement of the list heaps *)

(** A comparison function returns its first argument when [pick] prefers the
order it points to. *)
Class Comparator (c : HeapCmpFunc) (pick : Order -> Order -> bool) : Prop :=
  comparator : forall st p q, (p < length st)%nat -> (q < length st)%nat ->
    c st p q = Some (if pick (st !!! p) (st !!! q) then p else q).

(** The test [h->cmp(p, q) == p]. *)
Definition better (pick : Order -> Order -> bool) (st : list Order) (p q : nat) : bool :=
  pick (st !!! p) (st !!! q) || (p =? q)%nat.

Definition valid (st : list Order) (xs : list nat) : Prop := Forall (fun p => (p < length st)%nat) xs.

(** The live slots of a heap hold [xs]. *)
Definition live (h : Heap) (xs : list nat) : Prop :=
  exists junk, data h = (Some <$> xs) ++ junk.

Lemma array_get_live (xs : list nat) junk k :
  (k < length xs)%nat -> array_get ((Some <$> xs) ++ junk) (Z.of_nat k) = Some (Some (xs !!! k)).
Proof.
  intros Hk. rewrite array_get_nat, lookup_app_l by (by rewrite length_fmap).
  by rewrite list_lookup_fmap, (list_lookup_lookup_total_lt xs k Hk).
Qed.

Lemma array_set_live (xs : list nat) junk k p :
  (k < length xs)%nat ->
  array_set ((Some <$> xs) ++ junk) (Z.of_nat k) (Some p) = Some ((Some <$> <[k := p]> xs) ++ junk).
Proof.
  intros Hk. rewrite array_set_nat by (rewrite length_app, length_fmap; lia).
  rewrite insert_app_l by (by rewrite length_fmap). by rewrite list_fmap_insert.
Qed.

Lemma valid_lookup st xs k : valid st xs -> (k < length xs)%nat -> (xs !!! k < length st)%nat.
Proof.
  unfold valid. rewrite Forall_lookup. intros Hv Hk. eapply Hv. by apply list_lookup_lookup_total_lt.
Qed.

Lemma valid_insert st xs k p : valid st xs -> (p < length st)%nat -> valid st (<[k := p]> xs).
Proof. intros. by apply Forall_insert. Qed.

Lemma valid_perm st xs ys : xs ≡ₚ ys -> valid st xs -> valid st ys.
Proof. intros Hp. unfold valid. by rewrite Hp. Qed.

Section Refinement.
Context `{Env} {W : Type} `{NodeMemory W}.
Context {c : HeapCmpFunc} {pick : Order -> Order -> bool} `{!Comparator c pick}.
Implicit Type s : HW W.

Definition put_data (d : list (option nat)) s : HW W := mkHW (mach s) (set_data d (hp s)) (ext s).

Lemma data_get_live s xs junk k :
  data (hp s) = (Some <$> xs) ++ junk -> (k < length xs)%nat ->
  data_get (Z.of_nat k) s = Val (xs !!! k) s.
Proof. intros Hd Hk. unfold data_get. by rewrite Hd, array_get_live. Qed.

Lemma data_set_live s xs junk k p :
  data (hp s) = (Some <$> xs) ++ junk -> (k < length xs)%nat ->
  data_set (Z.of_nat k) p s = Val tt (put_data ((Some <$> <[k := p]> xs) ++ junk) s).
Proof. intros Hd Hk. unfold data_set. by rewrite Hd, array_set_live. Qed.

Lemma swap_live s xs junk i j :
  data (hp s) = (Some <$> xs) ++ junk -> (i < length xs)%nat -> (j < length xs)%nat ->
  swap (Z.of_nat i) (Z.of_nat j) s = Val tt (put_data ((Some <$> exchange xs j i) ++ junk) s).
Proof.
  intros Hd Hi Hj. unfold swap, bind.
  rewrite !(data_get_live s xs junk) by done.
  rewrite (data_set_live s xs junk) by done.
  rewrite (data_set_live _ (<[i := xs !!! j]> xs) junk) by (rewrite ?length_insert; done).
  done.
Qed.

Lemma call_cmp_live s xs junk i j :
  cmp (hp s) = c -> data (hp s) = (Some <$> xs) ++ junk -> valid (store (mach s)) xs ->
  (i < length xs)%nat -> (j < length xs)%nat ->
  exists r, call_cmp (xs !!! i) (xs !!! j) s = Val r s /\
    bool_decide (r = xs !!! i) = better pick (store (mach s)) (xs !!! i) (xs !!! j).
Proof.
  intros Hc Hd Hv Hi Hj. unfold call_cmp. rewrite Hc, comparator by (by eapply valid_lookup).
  eexists. split; [done|]. unfold better. destruct (pick _ _); simpl.
  - by rewrite bool_decide_eq_true_2.
  - rewrite (Nat.eqb_sym (xs !!! i)). by destruct (Nat.eqb_spec (xs !!! j) (xs !!! i)) as [?|?];
      [rewrite bool_decide_eq_true_2|rewrite bool_decide_eq_false_2].
Qed.

Lemma exchange_comm {A} `{Inhabited A} (xs : list A) i j : exchange xs i j = exchange xs j i.
Proof.
  unfold exchange. destruct (decide (i = j)) as [->|]; [done|]. by apply list_insert_insert_ne.
Qed.

Lemma parent_quot i : (0 < i)%nat -> (Z.of_nat i - 1) ÷ 2 = Z.of_nat (parent i).
Proof.
  intros. unfold parent. rewrite Nat2Z.inj_div, Nat2Z.inj_sub by lia.
  by rewrite Z.quot_div_nonneg by lia.
Qed.

Lemma exchange_valid st xs i j :
  valid st xs -> (i < length xs)%nat -> (j < length xs)%nat -> valid st (exchange xs i j).
Proof. intros. eapply valid_perm; [|done]. symmetry. by apply exchange_perm. Qed.

Lemma sift_up_loop fuel i s xs junk :
  cmp (hp s) = c -> data (hp s) = (Some <$> xs) ++ junk -> valid (store (mach s)) xs ->
  (i < fuel)%nat -> (i < length xs)%nat ->
  loop fuel sift_up_body (Z.of_nat i) s =
    Val tt (put_data ((Some <$> up (better pick (store (mach s))) fuel xs i) ++ junk) s).
Proof.
  revert i s xs. induction fuel as [|fuel IH]; intros i s xs Hc Hd Hv Hf Hi; [lia|].
  assert (Hsame : put_data ((Some <$> xs) ++ junk) s = s)
    by (destruct s as [m h e], h; simpl in *; unfold put_data; simpl; by rewrite <- Hd).
  cbn [loop up]. unfold bind at 1. unfold sift_up_body.
  case_decide as Hi0; [subst i; simpl; by rewrite Hsame|].
  pose proof (parent_lt i ltac:(lia)) as Hp.
  replace (0 <? Z.of_nat i) with true by lia. rewrite parent_quot by lia.
  unfold bind. rewrite !(data_get_live s xs junk) by (done || lia).
  destruct (call_cmp_live s xs junk i (parent i)) as (r & -> & Hr); [done..|lia|].
  rewrite <- Hr. destruct (decide (r = xs !!! i)) as [->|Hne].
  - rewrite bool_decide_eq_true_2 by done. rewrite (swap_live s xs junk) by (done || lia). cbn.
    rewrite (IH _ _ (exchange xs (parent i) i)).
    + cbn. by rewrite exchange_comm.
    + done.
    + done.
    + apply exchange_valid; [done|lia..].
    + lia.
    + rewrite exchange_length. lia.
  - rewrite bool_decide_eq_false_2 by done. cbn. by rewrite Hsame.
Qed.

Lemma sift_up_refines i s xs junk :
  cmp (hp s) = c -> data (hp s) = (Some <$> xs) ++ junk -> valid (store (mach s)) xs ->
  (i < length xs)%nat ->
  sift_up (Z.of_nat i) s =
    Val tt (put_data ((Some <$> up (better pick (store (mach s))) (S i) xs i) ++ junk) s).
Proof. intros. unfold sift_up. rewrite Nat2Z.id. apply sift_up_loop; auto with lia. Qed.

Lemma is_expired_false o now : is_expired o now = false.
Proof. unfold is_expired, TRIM_TIME. pose proof (u32_bound (now - timestamp o)). lia. Qed.

Lemma expired_at_live s xs junk j now :
  data (hp s) = (Some <$> xs) ++ junk -> size (hp s) = Z.of_nat (length xs) ->
  valid (store (mach s)) xs -> expired_at (Z.of_nat j) now s = Val false s.
Proof.
  intros Hd Hn Hv. unfold expired_at, bind, gets. rewrite Hn.
  destruct (Z.ltb_spec (Z.of_nat j) (Z.of_nat (length xs))); [|done].
  rewrite (data_get_live s xs junk) by (done || lia).
  unfold on_mach, zoom, load.
  rewrite (list_lookup_lookup_total_lt (store (mach s))) by (apply valid_lookup; [done|lia]).
  rewrite is_expired_false. by destruct s.
Qed.

Lemma beats_live s xs junk j b :
  cmp (hp s) = c -> data (hp s) = (Some <$> xs) ++ junk -> size (hp s) = Z.of_nat (length xs) ->
  valid (store (mach s)) xs -> (b < length xs)%nat ->
  beats (Z.of_nat j) (Z.of_nat b) s =
    Val (if decide (j < length xs)%nat
         then better pick (store (mach s)) (xs !!! j) (xs !!! b) else false) s.
Proof.
  intros Hc Hd Hn Hv Hb. unfold beats, bind, gets. rewrite Hn.
  destruct (Z.ltb_spec (Z.of_nat j) (Z.of_nat (length xs)));
    [rewrite decide_True by lia|by rewrite decide_False by lia].
  rewrite !(data_get_live s xs junk) by (done || lia).
  destruct (call_cmp_live s xs junk j b) as (r & -> & Hr); [done..|lia|done|].
  cbn. by rewrite Hr.
Qed.

Lemma put_data_same s d : data (hp s) = d -> put_data d s = s.
Proof. intros <-. by destruct s as [m [] e]. Qed.

Lemma sift_down_body_live now i s xs junk :
  cmp (hp s) = c -> data (hp s) = (Some <$> xs) ++ junk -> size (hp s) = Z.of_nat (length xs) ->
  valid (store (mach s)) xs -> (Z.of_nat (length xs) < 2 ^ 30) ->
  let b := best_of (better pick (store (mach s))) xs i in
  sift_down_body now (Z.of_nat i) s =
    if decide (i < length xs)%nat
    then if decide (b = i) then Val (inr tt) s
         else Val (inl (Z.of_nat b)) (put_data ((Some <$> exchange xs i b) ++ junk) s)
    else Val (inr tt) s.
Proof.
  intros Hc Hd Hn Hv Hmax b. unfold sift_down_body. run. rewrite Hn.
  destruct (Z.ltb_spec (Z.of_nat i) (Z.of_nat (length xs)));
    [rewrite decide_True by lia|by rewrite decide_False by lia].
  do 3 run (apply int_val; lia).
  replace (2 * Z.of_nat i + 1) with (Z.of_nat (2 * i + 1)) by lia.
  replace (2 * Z.of_nat i + 2) with (Z.of_nat (2 * i + 2)) by lia.
  do 2 run (by apply (expired_at_live _ xs junk)).
  run (apply (beats_live _ xs junk); [done..|lia]).
  set (best := if (if decide (2 * i + 1 < length xs)%nat then _ else false) then Z.of_nat (2 * i + 1) else _).
  assert (best = Z.of_nat (if decide (2 * i + 1 < length xs)%nat
      then if better pick (store (mach s)) (xs !!! (2 * i + 1)%nat) (xs !!! i) then (2 * i + 1)%nat else i
      else i)) as -> by (subst best; by repeat case_match).
  run (apply (beats_live _ xs junk); [done..|repeat case_match; lia]).
  set (best' := if (if decide (2 * i + 2 < length xs)%nat then _ else false) then Z.of_nat (2 * i + 2) else _).
  assert (best' = Z.of_nat b) as -> by (subst best' b; unfold best_of; by repeat case_match).
  destruct (best_of_cases (better pick (store (mach s))) xs i) as [Hb|Hb]; fold b in Hb.
  - rewrite decide_True by done. by replace (Z.of_nat b =? Z.of_nat i) with true by lia.
  - rewrite decide_False by lia. replace (Z.of_nat b =? Z.of_nat i) with false by lia.
    run (apply (swap_live _ xs junk); [done|lia..]). by rewrite exchange_comm.
Qed.

Lemma sift_down_loop fuel now i s xs junk :
  cmp (hp s) = c -> data (hp s) = (Some <$> xs) ++ junk -> size (hp s) = Z.of_nat (length xs) ->
  valid (store (mach s)) xs -> (Z.of_nat (length xs) < 2 ^ 30) ->
  (length xs - i < fuel)%nat ->
  loop fuel (sift_down_body now) (Z.of_nat i) s =
    Val tt (put_data ((Some <$> down (better pick (store (mach s))) fuel xs i) ++ junk) s).
Proof.
  revert i s xs. induction fuel as [|fuel IH]; intros i s xs Hc Hd Hn Hv Hmax Hf; [lia|].
  cbn [loop down]. unfold bind. rewrite (sift_down_body_live now i s xs junk) by done.
  case_decide; [|by rewrite put_data_same].
  case_decide as Hb; [by rewrite put_data_same|].
  destruct (best_of_cases (better pick (store (mach s))) xs i) as [?|Hcases]; [done|].
  set (b := best_of _ xs i) in *.
  rewrite (IH _ _ (exchange xs i b)); cbn; rewrite ?exchange_length; auto; [|lia].
  apply exchange_valid; auto; lia.
Qed.

Lemma sift_down_refines i s xs junk :
  cmp (hp s) = c -> data (hp s) = (Some <$> xs) ++ junk -> size (hp s) = Z.of_nat (length xs) ->
  valid (store (mach s)) xs -> (Z.of_nat (length xs) < 2 ^ 30) ->
  sift_down (Z.of_nat i) s =
    Val tt (mkHW (tick 1 (mach s))
      (set_data ((Some <$> down (better pick (store (mach s))) (S (length xs)) xs i) ++ junk) (hp s))
      (ext s)).
Proof.
  intros Hc Hd Hn Hv Hmax. unfold sift_down. run. run. cbn [hp]. rewrite Hn, Nat2Z.id.
  rewrite (sift_down_loop _ _ _ _ xs junk); auto with lia.
Qed.

(** ** Whole heaps *)

(** The heap's fields describe an array whose live slots hold [xs]. *)
Record heap_rep (h : Heap) (xs : list nat) : Prop := {
  rep_live : live h xs;
  rep_size : size h = Z.of_nat (length xs);
  rep_data : Z.of_nat (length (data h)) = capacity h;
  rep_capacity : 0 < capacity h <= 2 ^ 30
}.

(** Everything but the array, its size and its capacity. *)
Definition same_config (h h' : Heap) : Prop :=
  cmp h' = cmp h /\ h_mm h' = h_mm h /\ h_ob h' = h_ob h /\ h_stats h' = h_stats h.

Definition push_list (st : list Order) (xs : list nat) (p : nat) : list nat :=
  push_heap (better pick st) xs p.

Definition pop_list (st : list Order) (xs : list nat) : list nat := pop_heap (better pick st) xs.

Lemma grow_refines m h (e : W) xs :
  heap_rep h xs -> Z.of_nat (length xs) < 2 ^ 29 ->
  exists h', grow (W := W) (mkHW m h e) = Val tt (mkHW m h' e) /\ heap_rep h' xs /\ same_config h h' /\
    (length xs < length (data h'))%nat.
Proof.
  intros [[junk Hd] Hn Hlen Hcap] Hmax. unfold grow. run. cbn [hp].
  assert (Hjunk : length (data h) = (length xs + length junk)%nat)
    by (by rewrite Hd, length_app, length_fmap).
  destruct (Z.eqb_spec (size h) (capacity h)) as [Hfull|Hroom].
  - run (apply int_val; lia).
    assert (Hr : realloc (capacity h * 2) (data h) =
      (Some <$> xs) ++ junk ++ replicate (Z.to_nat (capacity h * 2) - length (data h)) None).
    { unfold realloc. rewrite take_ge by lia. by rewrite Hd, <- app_assoc. }
    eexists. split; [reflexivity|]. split; [|split; [done|]].
    + split; cbn; try done; [by exists (junk ++ replicate (Z.to_nat (capacity h * 2) - length (data h)) None)| |lia].
      rewrite Hr, !length_app, length_fmap, length_replicate. lia.
    + cbn. rewrite Hr, !length_app, length_fmap, length_replicate. lia.
  - exists h. split; [done|]. split; [split; try done; by exists junk|]. split; [done|lia].
Qed.

Lemma push_refines m h (e : W) xs p :
  heap_rep h xs -> cmp h = c -> valid (store m) xs -> (p < length (store m))%nat ->
  Z.of_nat (length xs) < 2 ^ 29 ->
  exists h', push p (mkHW m h e) = Val tt (mkHW m h' e) /\
    heap_rep h' (push_list (store m) xs p) /\ same_config h h'.
Proof.
  intros Hrep Hc Hv Hp Hmax. unfold push.
  destruct (grow_refines m h e xs) as (h1 & Hgrow & [[junk Hd] Hn Hlen Hcap] & Hcfg & Hroom); [done..|].
  run (exact Hgrow). run. cbn [hp]. rewrite Hn.
  destruct junk as [|q junk]; [rewrite Hd, length_app, length_fmap in Hroom; simpl in Hroom; lia|].
  assert (Hset : data_set (Z.of_nat (length xs)) p (mkHW m h1 e) =
    Val tt (mkHW m (set_data ((Some <$> xs ++ [p]) ++ junk) h1) e)).
  { unfold data_set. cbn [hp]. rewrite array_set_nat by done.
    rewrite Hd, insert_app_r_alt, length_fmap, Nat.sub_diag by (by rewrite length_fmap).
    by rewrite fmap_app, <- app_assoc. }
  run (exact Hset).
  run (apply (sift_up_refines (length xs) _ (xs ++ [p]) junk);
    [destruct Hcfg as [Hcc _]; cbn; congruence|done|apply Forall_app_2; [done|by apply Forall_singleton]
    |rewrite length_app; simpl; lia]).
  run. cbn [hp size put_data set_data]. rewrite Hn. run (apply int_val; lia).
  eexists. split; [reflexivity|]. split; [|done].
  split; cbn [data size capacity set_size set_data put_data hp]; [by exists junk|..].
  - unfold push_list, push_heap. rewrite up_length, length_app. simpl. lia.
  - rewrite length_app, length_fmap, up_length, length_app in *. rewrite <- Hlen, Hd.
    rewrite length_app, length_fmap. simpl. lia.
  - done.
Qed.

Lemma pop_refines m h (e : W) xs :
  heap_rep h xs -> cmp h = c -> valid (store m) xs -> xs <> [] -> Z.of_nat (length xs) < 2 ^ 30 ->
  exists h', pop (mkHW m h e) = Val (xs !!! 0%nat) (mkHW (tick 1 m) h' e) /\
    heap_rep h' (pop_list (store m) xs) /\ same_config h h'.
Proof.
  intros [[junk Hd] Hn Hlen Hcap] Hc Hv Hne Hmax. unfold pop.
  assert (0 < length xs)%nat by (destruct xs; [done|simpl; lia]).
  run (apply (data_get_live _ xs junk 0); [done|lia]). run. cbn [hp]. rewrite Hn.
  run (apply int_val; lia). run.
  replace (Z.of_nat (length xs) - 1) with (Z.of_nat (length xs - 1)) by lia.
  run (apply (data_get_live _ xs junk); [done|lia]).
  assert (exists junk', <[0%nat := xs !!! (length xs - 1)%nat]> xs = pop_rest xs ++ junk') as [tl Htl].
  { exists (if decide (length xs = 1)%nat then <[0%nat := xs !!! (length xs - 1)%nat]> xs
            else drop (length xs - 1) xs).
    unfold pop_rest. case_decide as Hone.
    - by rewrite Hone, Nat.sub_diag.
    - rewrite <- insert_app_l by (rewrite length_take; lia). by rewrite take_drop. }
  run (apply (data_set_live _ xs junk 0 (xs !!! (length xs - 1)%nat)); [done|lia]).
  cbn [mach hp ext put_data set_size set_data data size capacity cmp h_mm h_ob h_stats].
  rewrite Htl, fmap_app, <- app_assoc.
  assert (Hvr : valid (store m) (pop_rest xs)).
  { unfold pop_rest. apply valid_insert; [by apply Forall_take|apply valid_lookup; [done|lia]]. }
  run (apply (sift_down_refines 0 _ (pop_rest xs) ((Some <$> tl) ++ junk));
    [done|done|cbn; rewrite pop_rest_length; lia|done|rewrite pop_rest_length; lia]).
  eexists. split; [reflexivity|]. split; [|done].
  split; cbn [data size capacity set_size set_data put_data hp]; [by eexists|..].
  - unfold pop_list, pop_heap. rewrite down_length, pop_rest_length. lia.
  - rewrite <- Hlen, Hd, !length_app, !length_fmap, down_length.
    apply (f_equal length) in Htl. rewrite length_insert, length_app in Htl. lia.
  - done.
Qed.
End Refinement.

(** ** Order *)

(** [le] is a total preorder that the comparison function [c] decides, and that
ignores the amount of an order. *)
Class HeapOrdering (c : HeapCmpFunc) (pick : Order -> Order -> bool)
    (le : Order -> Order -> Prop) : Prop := {
  ordering_cmp :: Comparator c pick;
  ordering_pre :: PreOrder le;
  pick_le : forall a b, pick a b = true -> le a b;
  unpick_le : forall a b, pick a b = false -> le b a;
  le_amount_l : forall a v, le (set_amount v a) a;
  le_amount_r : forall a v, le a (set_amount v a)
}.

Definition ptr_le (le : Order -> Order -> Prop) (st : list Order) (p q : nat) : Prop :=
  le (st !!! p) (st !!! q).

#[export] Instance ptr_le_preorder le st : PreOrder le -> PreOrder (ptr_le le st).
Proof. intros [Hr Ht]. unfold ptr_le. split; [intros x; apply Hr|intros x y z; apply Ht]. Qed.

(** A heap with comparison [c] whose live slots [xs] point to orders of the
store, ordered by [le]. *)
Record heap_ok (c : HeapCmpFunc) (le : Order -> Order -> Prop) (st : list Order)
    (h : Heap) (xs : list nat) : Prop := {
  ok_rep : heap_rep h xs;
  ok_cmp : cmp h = c;
  ok_valid : valid st xs;
  ok_order : heap_order (ptr_le le st) xs
}.

Section Ordered.
Context `{Env} {W : Type} `{NodeMemory W}.
Context {c : HeapCmpFunc} {pick : Order -> Order -> bool} {le : Order -> Order -> Prop}.
Context `{!HeapOrdering c pick le}.

Lemma better_ptr_le st p q : better pick st p q = true -> ptr_le le st p q.
Proof.
  unfold better. intros [Hp|Heq]%orb_true_iff; [exact (pick_le _ _ Hp)|].
  apply Nat.eqb_eq in Heq as ->. reflexivity.
Qed.

Lemma not_better_ptr_le st p q : better pick st p q = false -> ptr_le le st q p.
Proof. unfold better. intros [Hp _]%orb_false_iff. exact (unpick_le _ _ Hp). Qed.

Lemma push_ok m h (e : W) xs p :
  heap_ok c le (store m) h xs -> (p < length (store m))%nat -> Z.of_nat (length xs) < 2 ^ 29 ->
  exists h' ys, push p (mkHW m h e) = Val tt (mkHW m h' e) /\
    heap_ok c le (store m) h' ys /\ ys ≡ₚ p :: xs /\ same_config h h'.
Proof.
  intros [Hrep Hc Hv Ho] Hp Hmax.
  destruct (push_refines m h e xs p) as (h' & Hrun & Hrep' & Hcfg); [done..|].
  exists h', (push_list (pick := pick) (store m) xs p).
  pose proof (push_heap_perm (better pick (store m)) xs p : push_list (pick := pick) (store m) xs p ≡ₚ p :: xs) as Hperm.
  split; [done|]. split; [|done]. split; [done| | |].
  - destruct Hcfg as [-> _]. done.
  - eapply valid_perm; [symmetry; exact Hperm|]. by apply Forall_cons.
  - apply (push_heap_order _ (ptr_le le (store m))); [apply better_ptr_le|apply not_better_ptr_le|done].
Qed.

Lemma pop_ok m h (e : W) xs :
  heap_ok c le (store m) h xs -> xs <> [] -> Z.of_nat (length xs) < 2 ^ 30 ->
  exists h' ys, pop (mkHW m h e) = Val (xs !!! 0%nat) (mkHW (tick 1 m) h' e) /\
    heap_ok c le (store m) h' ys /\ xs ≡ₚ xs !!! 0%nat :: ys /\ same_config h h'.
Proof.
  intros [Hrep Hc Hv Ho] Hne Hmax.
  destruct (pop_refines m h e xs) as (h' & Hrun & Hrep' & Hcfg); [done..|].
  exists h', (pop_list (pick := pick) (store m) xs).
  pose proof (pop_heap_perm (better pick (store m)) xs Hne) as Hperm.
  split; [done|]. split; [|done]. split; [done| | |].
  - destruct Hcfg as [-> _]. done.
  - eapply Forall_inv_tail. eapply valid_perm; [exact Hperm|done].
  - apply (pop_heap_order _ (ptr_le le (store m))); [apply better_ptr_le|apply not_better_ptr_le|done].
Qed.

Lemma root_best m h xs p :
  heap_ok c le (store m) h xs -> p ∈ xs -> le (store m !!! (xs !!! 0%nat)) (store m !!! p).
Proof.
  intros [_ _ _ Ho] Hp. apply list_elem_of_lookup in Hp as [i Hi].
  pose proof (heap_order_root (ptr_le le (store m)) xs i Ho) as Hroot.
  rewrite (list_lookup_total_correct _ _ _ Hi) in Hroot. apply Hroot.
  by eapply lookup_lt_Some.
Qed.

(** A heap stays ordered in any store that agrees on the keys of its orders. *)
Lemma heap_ok_store st st' h xs :
  heap_ok c le st h xs -> (length st <= length st')%nat ->
  (forall p, p ∈ xs -> st' !!! p = st !!! p \/ exists v, st' !!! p = set_amount v (st !!! p)) ->
  heap_ok c le st' h xs.
Proof.
  intros [Hrep Hc Hv Ho] Hlen Hsame. split; [done..| |].
  - eapply Forall_impl; [exact Hv|]. simpl. lia.
  - intros j Hj. pose proof (parent_lt j ltac:(lia)) as Hp. specialize (Ho j Hj). unfold ptr_le in *.
    assert (Helem : forall k, (k < length xs)%nat -> xs !!! k ∈ xs)
      by (intros; by apply list_elem_of_lookup_total_2).
    destruct (Hsame _ (Helem (parent j) ltac:(lia))) as [-> | [v ->]];
      destruct (Hsame _ (Helem j ltac:(lia))) as [-> | [w ->]]; auto.
    + etrans; [exact Ho|apply le_amount_r].
    + etrans; [apply le_amount_l|exact Ho].
    + etrans; [apply le_amount_l|]. etrans; [exact Ho|apply le_amount_r].
Qed.

End Ordered.

(** ** What is created at random *)

(** The order that [create_order] makes. *)
Definition new_order (price amount type : Z) (symbol : string) (ts : timespec) : Order :=
  mkOrder (s16 price) (u32 (tv_nsec ts)) (s16 amount) type (symbol3 symbol).

Section Draws.
Context `{EnvOk}.

Definition next_rand (m : Mach) : Mach :=
  mkMach (store m) (clock_calls m) (S (rand_calls m)) (open_files m) (output m).

(** [rand_range] draws from the closed interval. *)
Lemma rand_range_run min max m :
  0 <= min <= max -> max < 2 ^ 30 ->
  exists v, rand_range min max m = Val v (next_rand m) /\ min <= v <= max.
Proof.
  intros Hmin Hmax. pose proof (rand_range_ok (rand_calls m)) as Hr.
  pose proof (Z.mod_pos_bound (rand_value (rand_calls m)) (max - min + 1)) as Hb.
  assert (Hrem : Z.rem (rand_value (rand_calls m)) (max - min + 1) =
          rand_value (rand_calls m) mod (max - min + 1)) by (apply Z.rem_mod_nonneg; lia).
  eexists. split; [|instantiate (1 := min + rand_value (rand_calls m) mod (max - min + 1)); lia].
  unfold rand_range. run. run (apply int_val; lia). run (apply int_val; lia).
  replace (max - min + 1 =? 0) with false by lia. rewrite Hrem. apply int_val. lia.
Qed.

Lemma create_order_run price amount type symbol m :
  create_order price amount type symbol m =
    Val (length (store m))
        (set_store (store m ++ [new_order price amount type symbol (clock (clock_calls m))]) (tick 1 m)).
Proof. done. Qed.

End Draws.

(** ** Properties *)

Lemma create_heap_ok c le st k b : 0 < k <= 2 ^ 30 ->
  heap_ok c le st (mkHeap (replicate (Z.to_nat k) None) 0 k c b b b) [].
Proof.
  intros Hk. split; [|done|by constructor|].
  - split; cbn; [by eexists|done|rewrite length_replicate; lia|lia].
  - intros j Hj. simpl in Hj. lia.
Qed.

Section Properties.
Context `{Env} {W : Type} `{NodeMemory W}.
Context {c : HeapCmpFunc} {pick : Order -> Order -> bool} {le : Order -> Order -> Prop}.
Context `{!HeapOrdering c pick le}.

(** C13: [push] adds exactly the order it is given, keeps the array a heap for
the comparison function, doubles the array when it is full, and touches neither
the machine nor the owner of the heap. *)
Theorem push_correct m h (e : W) xs p :
  heap_ok c le (store m) h xs -> (p < length (store m))%nat -> Z.of_nat (length xs) < 2 ^ 29 ->
  exists h' ys, push p (mkHW m h e) = Val tt (mkHW m h' e) /\
    heap_ok c le (store m) h' ys /\ ys ≡ₚ p :: xs /\ size h' = size h + 1 /\ same_config h h'.
Proof.
  intros Hok Hp Hmax. destruct (push_ok m h e xs p Hok Hp Hmax) as (h' & ys & Hrun & Hok' & Hperm & Hcfg).
  exists h', ys. do 3 (split; [done|]). split; [|done].
  rewrite (rep_size _ _ (ok_rep _ _ _ _ _ Hok')), (rep_size _ _ (ok_rep _ _ _ _ _ Hok)), Hperm.
  simpl. lia.
Qed.

(** C14: [pop] of a non-empty heap returns its best order and leaves a heap of
the others; the only other effect is one reading of the clock. *)
Theorem pop_correct m h (e : W) xs :
  heap_ok c le (store m) h xs -> xs <> [] -> Z.of_nat (length xs) < 2 ^ 30 ->
  exists top h' ys, pop (mkHW m h e) = Val top (mkHW (tick 1 m) h' e) /\
    heap_ok c le (store m) h' ys /\ xs ≡ₚ top :: ys /\
    (forall p, p ∈ xs -> le (store m !!! top) (store m !!! p)).
Proof.
  intros Hok Hne Hmax. destruct (pop_ok m h e xs Hok Hne Hmax) as (h' & ys & Hrun & Hok' & Hperm & _).
  exists (xs !!! 0%nat), h', ys. do 3 (split; [done|]). intros p. by apply (root_best m h).
Qed.

(** [n] calls of [pop], and what they return. *)
Fixpoint drain (n : nat) : M (HW W) (list nat) :=
  match n with
  | O => ret []
  | S n' => let! p := pop in let! ps := drain n' in ret (p :: ps)
  end.

(** Emptying a heap gives its orders from the best to the worst. *)
Lemma drain_ok m h (e : W) xs :
  heap_ok c le (store m) h xs -> Z.of_nat (length xs) < 2 ^ 30 ->
  exists m' h' ps, drain (length xs) (mkHW m h e) = Val ps (mkHW m' h' e) /\
    ps ≡ₚ xs /\ StronglySorted (fun p q => le (store m !!! p) (store m !!! q)) ps.
Proof.
  remember (length xs) as n eqn:Hn. revert m h xs Hn.
  induction n as [|n IH]; intros m h xs Hn Hok Hmax.
  - destruct xs; [|done]. exists m, h, []. by repeat constructor.
  - assert (Hne : xs <> []) by by destruct xs.
    destruct (pop_ok m h e xs Hok Hne) as (h1 & ys & Hrun & Hok1 & Hperm & _); [lia|].
    pose proof (Permutation_length Hperm) as Hlen. simpl in Hlen.
    destruct (IH (tick 1 m) h1 ys) as (m' & h' & ps & Hrun' & Hps & Hsort); [lia|done|lia|].
    exists m', h', (xs !!! 0%nat :: ps). cbn [drain]. unfold bind. rewrite Hrun, Hrun'.
    split; [done|]. split; [etrans; [by apply perm_skip|by symmetry]|]. constructor; [done|].
    apply Forall_forall. intros p Hp. apply (root_best m h xs); [done|].
    rewrite Hperm. right. by rewrite <- Hps.
Qed.

End Properties.

(** No order ever expires, so the trimming branches of [sift_down] are
dead: the difference of two [uint32_t] times cannot pass a 48-bit limit. *)
Theorem is_expired_never o now : is_expired o now = false.
Proof. apply is_expired_false. Qed.
