(* ===== verification/Book.v ===== *)
(** * Book: price-time priority and the matching step of [sw_sim/heap.h]

The two comparison functions decide price-time priority; [check_for_trade]
works on a pair of heaps and is shown to implement [match_step], the matching
rule of an exchange stated on the collections of resting orders. *)
From S2P Require Import Prelude HeapModel Machine Heap.

(** ** The comparison functions *)

Definition min_pick (a b : Order) : bool :=
  if price a <? price b then true
  else if price a =? price b then
    if timestamp a <? timestamp b then true
    else if timestamp a =? timestamp b then amount a >? amount b else false
  else false.

Definition max_pick (a b : Order) : bool :=
  if price a >? price b then true
  else if price a =? price b then
    if timestamp a <? timestamp b then true
    else if timestamp a =? timestamp b then amount a >? amount b else false
  else false.

(** Price-time priority among asks: cheaper first, then older first. *)
Definition ask_le (a b : Order) : Prop :=
  price a < price b \/ (price a = price b /\ timestamp a <= timestamp b).

(** Among bids: dearer first, then older first. *)
Definition bid_le (a b : Order) : Prop :=
  price b < price a \/ (price a = price b /\ timestamp a <= timestamp b).

Lemma min_cmp_pick st p q oa ob :
  st !! p = Some oa -> st !! q = Some ob -> min_cmp st p q = Some (if min_pick oa ob then p else q).
Proof. unfold min_cmp, min_pick. intros -> ->. simpl. by repeat case_match. Qed.

Lemma max_cmp_pick st p q oa ob :
  st !! p = Some oa -> st !! q = Some ob -> max_cmp st p q = Some (if max_pick oa ob then p else q).
Proof. unfold max_cmp, max_pick. intros -> ->. simpl. by repeat case_match. Qed.

Ltac order_cases := unfold min_pick, max_pick, ask_le, bid_le; intros;
  repeat match goal with
  | H : context [if ?b then _ else _] |- _ => destruct b eqn:?
  end; try discriminate; simpl in *; lia.

#[export] Instance min_ordering : HeapOrdering min_cmp min_pick ask_le.
Proof.
  split.
  - intros st p q Hp Hq. apply min_cmp_pick; by apply list_lookup_lookup_total_lt.
  - split; [intros x|intros x y z]; order_cases.
  - order_cases.
  - order_cases.
  - intros a v. unfold ask_le. simpl. lia.
  - intros a v. unfold ask_le. simpl. lia.
Qed.

#[export] Instance max_ordering : HeapOrdering max_cmp max_pick bid_le.
Proof.
  split.
  - intros st p q Hp Hq. apply max_cmp_pick; by apply list_lookup_lookup_total_lt.
  - split; [intros x|intros x y z]; order_cases.
  - order_cases.
  - order_cases.
  - intros a v. unfold bid_le. simpl. lia.
  - intros a v. unfold bid_le. simpl. lia.
Qed.

(** ** A pair of heaps *)

Record BookW (W : Type) := mkBookW { b_mach : Mach; b_asks : Heap; b_bids : Heap; b_ext : W }.
Arguments mkBookW {W} _ _ _ _.
Arguments b_mach {W} _.
Arguments b_asks {W} _.
Arguments b_bids {W} _.
Arguments b_ext {W} _.

Section BookOps.
Context `{Env} {W : Type} `{NodeMemory W}.

Definition book_mach {A} (m : M Mach A) : M (BookW W) A :=
  zoom b_mach (fun x s => mkBookW x (b_asks s) (b_bids s) (b_ext s)) m.
Definition book_ext {A} (m : M W A) : M (BookW W) A :=
  zoom b_ext (fun x s => mkBookW (b_mach s) (b_asks s) (b_bids s) x) m.
Definition on_asks {A} (m : M (HW W) A) : M (BookW W) A :=
  zoom (fun s => mkHW (b_mach s) (b_asks s) (b_ext s))
       (fun x s => mkBookW (mach x) (hp x) (b_bids s) (ext x)) m.
Definition on_bids {A} (m : M (HW W) A) : M (BookW W) A :=
  zoom (fun s => mkHW (b_mach s) (b_bids s) (b_ext s))
       (fun x s => mkBookW (mach x) (b_asks s) (hp x) (ext x)) m.

(** The three [printf] formats of a trade. *)
Definition trade_format : string :=
  "A trade has been executed at %d! Sold %d shares of %s at $%d.\n".
Definition bid_remains_format : string :=
  "A partial fill has been executed at %d! Sold %d shares of %s at $%d. A bid for %d shares remains.\n".
Definition ask_remains_format : string :=
  "A partial fill has been executed at %d! Sold %d shares of %s at $%d. A ask of %d shares remains.\n".

Definition check_for_trade : M (BookW W) Z :=
  let! asks := gets b_asks in
  let! bids := gets b_bids in
  if (size asks =? 0) || (size bids =? 0) then ret 0 else
  let! bidp := on_bids peek in
  let! askp := on_asks peek in
  let! bid := book_mach (load bidp) in
  let! ask := book_mach (load askp) in
  if price bid >=? price ask then
    if amount bid =? amount ask then
      let! ts := book_mach clock_gettime in
      book_mach (printf trade_format
        [Int (u32 (tv_nsec ts)); Int (amount ask); Str (symbol ask); Int (price bid)]) ;;!
      let! _ := on_bids pop in
      let! _ := on_asks pop in
      ret 1
    else if amount bid >? amount ask then
      let! ts := book_mach clock_gettime in
      book_mach (printf bid_remains_format
        [Int (u32 (tv_nsec ts)); Int (amount ask); Str (symbol ask); Int (price bid);
         Int (amount bid - amount ask)]) ;;!
      on_bids (update (amount bid - amount ask)) ;;!
      let! _ := on_asks pop in
      ret 1
    else
      let! ts := book_mach clock_gettime in
      book_mach (printf ask_remains_format
        [Int (u32 (tv_nsec ts)); Int (amount bid); Str (symbol ask); Int (price bid);
         Int (amount ask - amount bid)]) ;;!
      on_asks (update (amount ask - amount bid)) ;;!
      let! _ := on_bids pop in
      ret 1
  else ret 0.

End BookOps.

(** ** The matching rule *)

Definition view (st : list Order) (xs : list nat) : list Order := (fun p => st !!! p) <$> xs.

(** What is left of [o] among the orders [rest] once [q] of its shares are sold. *)
Definition remainder (o : Order) (q : Z) (rest : list Order) : list Order :=
  if amount o =? q then rest else set_amount (s16 (amount o - q)) o :: rest.

(** One step of matching over the resting asks and bids: nothing happens when
no bid reaches an ask; otherwise the best bid and the best ask trade the
smaller of their two amounts, and whichever is filled leaves its side. *)
Inductive match_step (asks bids : list Order) : Z -> list Order -> list Order -> Prop :=
| match_none :
    (forall a b, a ∈ asks -> b ∈ bids -> price b < price a) ->
    match_step asks bids 0 asks bids
| match_trade a b asks0 bids0 asks' bids' :
    asks ≡ₚ a :: asks0 -> bids ≡ₚ b :: bids0 ->
    (forall x, x ∈ asks -> ask_le a x) -> (forall x, x ∈ bids -> bid_le b x) ->
    price a <= price b ->
    asks' ≡ₚ remainder a (amount a `min` amount b) asks0 ->
    bids' ≡ₚ remainder b (amount a `min` amount b) bids0 ->
    match_step asks bids 1 asks' bids'.

(** Matching until nothing crosses, after [n] trades. *)
Inductive match_run : list Order -> list Order -> nat -> list Order -> list Order -> Prop :=
| run_done asks bids :
    match_step asks bids 0 asks bids -> match_run asks bids 0 asks bids
| run_trade asks bids asks1 bids1 n asks2 bids2 :
    match_step asks bids 1 asks1 bids1 -> match_run asks1 bids1 n asks2 bids2 ->
    match_run asks bids (S n) asks2 bids2.

(** The heaps [xs], [ys] once the order [o] of type [ty] is pushed. *)
Definition pushed (ty : Z) (o : nat) (xs ys xs' ys' : list nat) : Prop :=
  if ty =? 0 then xs' = xs /\ ys' ≡ₚ o :: ys else xs' ≡ₚ o :: xs /\ ys' = ys.

(** A well-formed pair of heaps over the store [st]: each is an ordered heap,
and no order is in both or twice in one. *)
Record book_ok (st : list Order) (asks bids : Heap) (xs ys : list nat) : Prop := {
  book_asks : heap_ok min_cmp ask_le st asks xs;
  book_bids : heap_ok max_cmp bid_le st bids ys;
  book_nodup : NoDup (xs ++ ys);
  book_bound : Z.of_nat (length (xs ++ ys)) < 2 ^ 29
}.

(** Only the amount of orders among [ps] may differ between two stores. *)
Definition store_frame (ps : list nat) (st st' : list Order) : Prop :=
  length st' = length st /\
  (forall p, p ∉ ps -> st' !!! p = st !!! p) /\
  (forall p, st' !!! p = st !!! p \/ exists v, st' !!! p = set_amount v (st !!! p)).

(** ** Operations on a well-formed pair of heaps *)

Lemma view_perm st xs ys : xs ≡ₚ ys -> view st xs ≡ₚ view st ys.
Proof. intros Hp. unfold view. by rewrite Hp. Qed.

Lemma view_same st st' xs : (forall p, p ∈ xs -> st' !!! p = st !!! p) -> view st' xs = view st xs.
Proof. intros Hs. unfold view. apply list_fmap_ext. intros i p Hp. apply Hs. by eapply list_elem_of_lookup_2. Qed.

Lemma elem_of_view st xs o : o ∈ view st xs <-> exists p, o = st !!! p /\ p ∈ xs.
Proof. unfold view. by rewrite list_elem_of_fmap. Qed.

Lemma store_frame_refl ps st : store_frame ps st st.
Proof. split; [done|]. split; intros; [done|by left]. Qed.

Lemma store_frame_weaken ps qs st st' :
  (forall p, p ∈ ps -> p ∈ qs) -> store_frame ps st st' -> store_frame qs st st'.
Proof. intros Hsub (? & Hps & ?). split; [done|]. split; [|done]. intros p Hp. apply Hps. set_solver. Qed.

Lemma store_frame_trans ps st1 st2 st3 :
  store_frame ps st1 st2 -> store_frame ps st2 st3 -> store_frame ps st1 st3.
Proof.
  intros (Hl1 & Hp1 & Ha1) (Hl2 & Hp2 & Ha2). split; [congruence|]. split.
  - intros p Hp. by rewrite Hp2, Hp1.
  - intros p. destruct (Ha2 p) as [-> | [v ->]], (Ha1 p) as [-> | [w ->]]; eauto.
Qed.

Lemma store_frame_amount st p v :
  (p < length st)%nat -> store_frame [p] st (<[p := set_amount v (st !!! p)]> st).
Proof.
  intros Hp. split; [by rewrite length_insert|]. split.
  - intros q Hq. apply list_lookup_total_insert_ne. set_solver.
  - intros q. destruct (decide (p = q)) as [->|].
    + right. exists v. by apply list_lookup_total_insert_eq.
    + left. by apply list_lookup_total_insert_ne.
Qed.

Lemma heap_ok_frame c pick le `{!HeapOrdering c pick le} ps st st' h xs :
  heap_ok c le st h xs -> store_frame ps st st' -> heap_ok c le st' h xs.
Proof. intros Hok (Hl & _ & Ha). eapply heap_ok_store; eauto. lia. Qed.

Lemma book_ok_frame ps st st' a b xs ys :
  book_ok st a b xs ys -> store_frame ps st st' -> book_ok st' a b xs ys.
Proof. intros [Ha Hb Hnd Hlen] Hf.
  split; [exact (heap_ok_frame _ min_pick _ _ _ _ _ _ Ha Hf)|exact (heap_ok_frame _ max_pick _ _ _ _ _ _ Hb Hf)|done|done]. Qed.

Lemma book_sizes st a b xs ys :
  book_ok st a b xs ys -> size a = Z.of_nat (length xs) /\ size b = Z.of_nat (length ys).
Proof. intros [[[] _ _ _] [[] _ _ _] _ _]. done. Qed.

Lemma root_cons {A} `{Inhabited A} (xs : list A) : xs <> [] -> xs !!! 0%nat ∈ xs.
Proof. intros Hne. apply list_elem_of_lookup_total_2. destruct xs; [done|simpl; lia]. Qed.

Lemma root_tail {A} `{Inhabited A} (xs : list A) : xs <> [] -> xs ≡ₚ xs !!! 0%nat :: tail xs.
Proof. by destruct xs. Qed.

Section BookLemmas.
Context `{Env} {W : Type} `{NodeMemory W}.
Implicit Types (m : Mach) (e : W).

Lemma on_asks_peek m a b e xs :
  live a xs -> xs <> [] -> on_asks peek (mkBookW m a b e) = Val (xs !!! 0%nat) (mkBookW m a b e).
Proof.
  intros [junk Hd] Hne. unfold on_asks, zoom, peek. change 0 with (Z.of_nat 0).
  rewrite (data_get_live _ xs junk); [done|done|]. destruct xs; [done|simpl; lia].
Qed.

Lemma on_bids_peek m a b e ys :
  live b ys -> ys <> [] -> on_bids peek (mkBookW m a b e) = Val (ys !!! 0%nat) (mkBookW m a b e).
Proof.
  intros [junk Hd] Hne. unfold on_bids, zoom, peek. change 0 with (Z.of_nat 0).
  rewrite (data_get_live _ ys junk); [done|done|]. destruct ys; [done|simpl; lia].
Qed.

Lemma book_load m a b e p :
  (p < length (store m))%nat ->
  book_mach (load p) (mkBookW m a b e) = Val (store m !!! p) (mkBookW m a b e).
Proof.
  intros Hp. unfold book_mach, zoom, load. cbn [b_mach].
  by rewrite (list_lookup_lookup_total_lt _ _ Hp).
Qed.

Lemma on_asks_pop m a b e xs ys :
  book_ok (store m) a b xs ys -> xs <> [] ->
  exists a' xs', on_asks pop (mkBookW m a b e) = Val (xs !!! 0%nat) (mkBookW (tick 1 m) a' b e) /\
    book_ok (store m) a' b xs' ys /\ xs ≡ₚ xs !!! 0%nat :: xs' /\ same_config a a'.
Proof.
  intros [Ha Hb Hnd Hlen] Hne. rewrite length_app in Hlen.
  destruct (pop_ok (c := min_cmp) (pick := min_pick) (le := ask_le) m a e xs) as (a' & xs' & Hrun & Hok & Hperm & Hcfg); [done..|lia|].
  exists a', xs'. unfold on_asks, zoom. cbn [b_mach b_asks b_ext]. rewrite Hrun.
  split; [done|]. split; [|done].
  rewrite Hperm in Hnd. apply Permutation_length in Hperm. simpl in *.
  split; [done|done|by apply NoDup_cons in Hnd as [_ ?]|rewrite length_app; lia].
Qed.

Lemma on_bids_pop m a b e xs ys :
  book_ok (store m) a b xs ys -> ys <> [] ->
  exists b' ys', on_bids pop (mkBookW m a b e) = Val (ys !!! 0%nat) (mkBookW (tick 1 m) a b' e) /\
    book_ok (store m) a b' xs ys' /\ ys ≡ₚ ys !!! 0%nat :: ys' /\ same_config b b'.
Proof.
  intros [Ha Hb Hnd Hlen] Hne. rewrite length_app in Hlen.
  destruct (pop_ok (c := max_cmp) (pick := max_pick) (le := bid_le) m b e ys) as (b' & ys' & Hrun & Hok & Hperm & Hcfg); [done..|lia|].
  exists b', ys'. unfold on_bids, zoom. cbn [b_mach b_bids b_ext]. rewrite Hrun.
  split; [done|]. split; [|done].
  rewrite Hperm in Hnd. apply Permutation_length in Hperm. simpl in *.
  rewrite <- Permutation_middle in Hnd.
  split; [done|done|by apply NoDup_cons in Hnd as [_ ?]|rewrite length_app; lia].
Qed.

Lemma fresh_nodup (o : nat) (xs ys : list nat) :
  o ∉ xs ++ ys -> NoDup (xs ++ ys) -> NoDup ((o :: xs) ++ ys) /\ NoDup (xs ++ o :: ys).
Proof. intros Ho Hnd. split; [by constructor|]. rewrite <- Permutation_middle. by constructor. Qed.

Lemma on_asks_push m a b e o xs ys :
  book_ok (store m) a b xs ys -> (o < length (store m))%nat -> o ∉ xs ++ ys ->
  Z.of_nat (length (xs ++ ys)) + 1 < 2 ^ 29 ->
  exists a' xs', on_asks (push o) (mkBookW m a b e) = Val tt (mkBookW m a' b e) /\
    book_ok (store m) a' b xs' ys /\ xs' ≡ₚ o :: xs.
Proof.
  intros [Ha Hb Hnd _] Ho Hfresh Hlen. rewrite length_app in Hlen.
  destruct (fresh_nodup o xs ys Hfresh Hnd) as [Hnda _].
  destruct (push_ok (c := min_cmp) (pick := min_pick) (le := ask_le) m a e xs o)
    as (a' & xs' & Hrun & Hok & Hp & _); [done..|lia|].
  exists a', xs'. unfold on_asks, zoom. cbn [b_mach b_asks b_ext]. rewrite Hrun.
  split; [done|]. split; [|done].
  pose proof (Permutation_length Hp) as Hpl. simpl in Hpl.
  split; [done|done|by rewrite Hp|rewrite length_app; lia].
Qed.

Lemma on_bids_push m a b e o xs ys :
  book_ok (store m) a b xs ys -> (o < length (store m))%nat -> o ∉ xs ++ ys ->
  Z.of_nat (length (xs ++ ys)) + 1 < 2 ^ 29 ->
  exists b' ys', on_bids (push o) (mkBookW m a b e) = Val tt (mkBookW m a b' e) /\
    book_ok (store m) a b' xs ys' /\ ys' ≡ₚ o :: ys.
Proof.
  intros [Ha Hb Hnd _] Ho Hfresh Hlen. rewrite length_app in Hlen.
  destruct (fresh_nodup o xs ys Hfresh Hnd) as [_ Hndb].
  destruct (push_ok (c := max_cmp) (pick := max_pick) (le := bid_le) m b e ys o)
    as (b' & ys' & Hrun & Hok & Hp & _); [done..|lia|].
  exists b', ys'. unfold on_bids, zoom. cbn [b_mach b_bids b_ext]. rewrite Hrun.
  split; [done|]. split; [|done].
  pose proof (Permutation_length Hp) as Hpl. simpl in Hpl.
  split; [done|done|by rewrite Hp|rewrite length_app; lia].
Qed.

Lemma update_live m h e xs v :
  live h xs -> valid (store m) xs -> xs <> [] ->
  update (W := W) v (mkHW m h e) =
    Val tt (mkHW (set_store (<[xs !!! 0%nat :=
                     set_amount (s16 v) (store m !!! (xs !!! 0%nat))]> (store m)) m) h e).
Proof.
  intros [junk Hd] Hv Hne. assert (0 < length xs)%nat by (destruct xs; [done|simpl; lia]).
  unfold update. change 0 with (Z.of_nat 0).
  run (apply (data_get_live _ xs junk); done). unfold on_mach, zoom, store_amount, bind, load.
  cbn [mach]. by rewrite (list_lookup_lookup_total_lt (store m)) by (by apply valid_lookup).
Qed.

Lemma on_asks_update m a b e xs ys v :
  book_ok (store m) a b xs ys -> xs <> [] ->
  let st' := <[xs !!! 0%nat := set_amount (s16 v) (store m !!! (xs !!! 0%nat))]> (store m) in
  on_asks (update v) (mkBookW m a b e) = Val tt (mkBookW (set_store st' m) a b e) /\
  book_ok st' a b xs ys /\ store_frame [xs !!! 0%nat] (store m) st'.
Proof.
  intros Hok Hne st'. pose proof Hok as [[[Hl _ _ _] _ Hv _] _ _ _].
  assert (Hf : store_frame [xs !!! 0%nat] (store m) st').
  { apply store_frame_amount, valid_lookup; [done|destruct xs; [done|simpl; lia]]. }
  split; [|split; [by eapply book_ok_frame|done]].
  unfold on_asks, zoom. cbn [b_mach b_asks b_ext]. by rewrite (update_live _ _ _ xs).
Qed.

Lemma on_bids_update m a b e xs ys v :
  book_ok (store m) a b xs ys -> ys <> [] ->
  let st' := <[ys !!! 0%nat := set_amount (s16 v) (store m !!! (ys !!! 0%nat))]> (store m) in
  on_bids (update v) (mkBookW m a b e) = Val tt (mkBookW (set_store st' m) a b e) /\
  book_ok st' a b xs ys /\ store_frame [ys !!! 0%nat] (store m) st'.
Proof.
  intros Hok Hne st'. pose proof Hok as [_ [[Hl _ _ _] _ Hv _] _ _].
  assert (Hf : store_frame [ys !!! 0%nat] (store m) st').
  { apply store_frame_amount, valid_lookup; [done|destruct ys; [done|simpl; lia]]. }
  split; [|split; [by eapply book_ok_frame|done]].
  unfold on_bids, zoom. cbn [b_mach b_bids b_ext]. by rewrite (update_live _ _ _ ys).
Qed.

End BookLemmas.

(** ** One trade *)

(** From the heaps [xs], [ys] over the store [st] a trade was made that left
[xs'], [ys'] over [st']. *)
Record traded (st : list Order) (xs ys : list nat) (st' : list Order) (xs' ys' : list nat) : Prop := {
  traded_step : match_step (view st xs) (view st ys) 1 (view st' xs') (view st' ys');
  traded_frame : store_frame (xs ++ ys) st st';
  traded_length : (length (xs' ++ ys') < length (xs ++ ys))%nat;
  traded_asks : forall p, p ∈ xs' -> p ∈ xs;
  traded_bids : forall p, p ∈ ys' -> p ∈ ys
}.

Lemma crossing_step st a b xs ys asks0 bids0 asks' bids' :
  book_ok st a b xs ys -> xs <> [] -> ys <> [] ->
  let ask := st !!! (xs !!! 0%nat) in
  let bid := st !!! (ys !!! 0%nat) in
  price ask <= price bid ->
  view st xs ≡ₚ ask :: asks0 -> view st ys ≡ₚ bid :: bids0 ->
  asks' ≡ₚ remainder ask (amount ask `min` amount bid) asks0 ->
  bids' ≡ₚ remainder bid (amount ask `min` amount bid) bids0 ->
  match_step (view st xs) (view st ys) 1 asks' bids'.
Proof.
  intros [Ha Hb _ _] Hx Hy ask bid Hprice HA HB HA' HB'.
  apply (match_trade _ _ ask bid asks0 bids0); try done.
  - intros o (p & -> & Hp)%elem_of_view.
    apply (root_best (c := min_cmp) (pick := min_pick) (set_store st init_mach) a xs); done.
  - intros o (p & -> & Hp)%elem_of_view.
    apply (root_best (c := max_cmp) (pick := max_pick) (set_store st init_mach) b ys); done.
Qed.

Section Settle.
Context `{Env} {W : Type} `{NodeMemory W}.
Variables (m : Mach) (a b : Heap) (e : W) (xs ys : list nat).
Hypothesis Hok : book_ok (store m) a b xs ys.
Hypothesis Hx : xs <> [].
Hypothesis Hy : ys <> [].
Let st := store m.
Let ask := st !!! (xs !!! 0%nat).
Let bid := st !!! (ys !!! 0%nat).
Hypothesis Hprice : price ask <= price bid.

Lemma roots_apart : (xs !!! 0%nat ∉ ys) /\ (ys !!! 0%nat ∉ xs).
Proof.
  destruct Hok as [_ _ Hnd _]. apply NoDup_app in Hnd as (_ & Hd & _).
  split; [apply Hd; by apply root_cons|]. intros Hin. by apply (Hd _ Hin), root_cons.
Qed.

(** Equal amounts: both roots leave. *)
Lemma settle_both :
  amount bid = amount ask ->
  exists a' b' xs' ys',
    on_bids pop (mkBookW m a b e) = Val (ys !!! 0%nat) (mkBookW (tick 1 m) a b' e) /\
    on_asks pop (mkBookW (tick 1 m) a b' e) =
      Val (xs !!! 0%nat) (mkBookW (tick 1 (tick 1 m)) a' b' e) /\
    book_ok st a' b' xs' ys' /\ traded st xs ys st xs' ys' /\
    same_config a a' /\ same_config b b'.
Proof.
  intros Heq.
  destruct (on_bids_pop m a b e xs ys Hok Hy) as (b' & ys' & Hrunb & Hokb & Hpb & Hcb).
  destruct (on_asks_pop (tick 1 m) a b' e xs ys' Hokb Hx) as (a' & xs' & Hruna & Hoka & Hpa & Hca).
  exists a', b', xs', ys'. split; [done|]. split; [done|]. split; [done|]. split; [|done].
  split.
  - apply (crossing_step _ a b _ _ (view st xs') (view st ys')); try done.
    + exact (view_perm st _ _ Hpa).
    + exact (view_perm st _ _ Hpb).
    + unfold remainder. fold st ask bid. by rewrite <- Heq, Z.min_id, Z.eqb_refl.
    + unfold remainder. fold st ask bid. by rewrite <- Heq, Z.min_id, Z.eqb_refl.
  - apply store_frame_refl.
  - apply Permutation_length in Hpa, Hpb. rewrite !length_app. simpl in *. lia.
  - intros p Hp. rewrite Hpa. by right.
  - intros p Hp. rewrite Hpb. by right.
Qed.

(** The bid is larger: the ask leaves, the bid keeps the difference. *)
Lemma settle_bid_remains :
  amount ask < amount bid ->
  let st' := <[ys !!! 0%nat := set_amount (s16 (amount bid - amount ask)) bid]> st in
  exists a' xs',
    on_bids (update (amount bid - amount ask)) (mkBookW m a b e) =
      Val tt (mkBookW (set_store st' m) a b e) /\
    on_asks pop (mkBookW (set_store st' m) a b e) =
      Val (xs !!! 0%nat) (mkBookW (tick 1 (set_store st' m)) a' b e) /\
    book_ok st' a' b xs' ys /\ traded st xs ys st' xs' ys /\ same_config a a'.
Proof.
  intros Hlt st'.
  destruct (on_bids_update m a b e xs ys (amount bid - amount ask) Hok Hy) as (Hrunb & Hokb & Hf).
  destruct (on_asks_pop (set_store st' m) a b e xs ys Hokb Hx) as (a' & xs' & Hruna & Hoka & Hpa & Hca).
  exists a', xs'. split; [done|]. split; [done|]. split; [done|]. split; [|done].
  destruct roots_apart as [_ Hq]. pose proof Hok as [_ [_ _ Hvy _] Hnd _].
  pose proof (root_tail ys Hy) as Hty.
  assert (Hq0 : st' !!! (ys !!! 0%nat) = set_amount (s16 (amount bid - amount ask)) bid).
  { apply list_lookup_total_insert_eq, valid_lookup; [done|]. apply Permutation_length in Hty.
    simpl in Hty. lia. }
  split.
  - apply (crossing_step _ a b _ _ (view st xs') (view st (tail ys))); try done; fold st ask bid.
    + exact (view_perm st _ _ Hpa).
    + exact (view_perm st _ _ Hty).
    + unfold remainder. replace (amount ask =? amount ask `min` amount bid) with true by lia.
      rewrite (view_same st st'); [done|]. intros p Hp. apply Hf.
      intros ->%list_elem_of_singleton. apply Hq. rewrite Hpa. by right.
    + unfold remainder. replace (amount bid =? amount ask `min` amount bid) with false by lia.
      replace (amount ask `min` amount bid) with (amount ask) by lia.
      rewrite (view_perm st' _ _ Hty). unfold view at 1. rewrite fmap_cons, Hq0. apply perm_skip.
      fold (view st' (tail ys)). rewrite (view_same st st'); [done|].
      intros p Hp. apply Hf. intros ->%list_elem_of_singleton.
      apply NoDup_app in Hnd as (_ & _ & Hnd). rewrite Hty in Hnd. by apply NoDup_cons in Hnd as [].
  - eapply store_frame_weaken; [|exact Hf].
    intros p ->%list_elem_of_singleton. apply elem_of_app. right. by apply root_cons.
  - apply Permutation_length in Hpa. rewrite !length_app. simpl in *. lia.
  - intros p Hp. rewrite Hpa. by right.
  - done.
Qed.

(** The ask is larger: the bid leaves, the ask keeps the difference. *)
Lemma settle_ask_remains :
  amount bid < amount ask ->
  let st' := <[xs !!! 0%nat := set_amount (s16 (amount ask - amount bid)) ask]> st in
  exists b' ys',
    on_asks (update (amount ask - amount bid)) (mkBookW m a b e) =
      Val tt (mkBookW (set_store st' m) a b e) /\
    on_bids pop (mkBookW (set_store st' m) a b e) =
      Val (ys !!! 0%nat) (mkBookW (tick 1 (set_store st' m)) a b' e) /\
    book_ok st' a b' xs ys' /\ traded st xs ys st' xs ys' /\ same_config b b'.
Proof.
  intros Hlt st'.
  destruct (on_asks_update m a b e xs ys (amount ask - amount bid) Hok Hx) as (Hruna & Hoka & Hf).
  destruct (on_bids_pop (set_store st' m) a b e xs ys Hoka Hy) as (b' & ys' & Hrunb & Hokb & Hpb & Hcb).
  exists b', ys'. split; [done|]. split; [done|]. split; [done|]. split; [|done].
  destruct roots_apart as [Hp0 _]. pose proof Hok as [[_ _ Hvx _] _ Hnd _].
  pose proof (root_tail xs Hx) as Htx.
  assert (Hp1 : st' !!! (xs !!! 0%nat) = set_amount (s16 (amount ask - amount bid)) ask).
  { apply list_lookup_total_insert_eq, valid_lookup; [done|]. apply Permutation_length in Htx.
    simpl in Htx. lia. }
  split.
  - apply (crossing_step _ a b _ _ (view st (tail xs)) (view st ys')); try done; fold st ask bid.
    + exact (view_perm st _ _ Htx).
    + exact (view_perm st _ _ Hpb).
    + unfold remainder. replace (amount ask =? amount ask `min` amount bid) with false by lia.
      replace (amount ask `min` amount bid) with (amount bid) by lia.
      rewrite (view_perm st' _ _ Htx). unfold view at 1. rewrite fmap_cons, Hp1. apply perm_skip.
      fold (view st' (tail xs)). rewrite (view_same st st'); [done|].
      intros q Hq. apply Hf. intros ->%list_elem_of_singleton.
      apply NoDup_app in Hnd as (Hnd & _). rewrite Htx in Hnd. by apply NoDup_cons in Hnd as [].
    + unfold remainder. replace (amount bid =? amount ask `min` amount bid) with true by lia.
      rewrite (view_same st st'); [done|]. intros q Hq. apply Hf.
      intros ->%list_elem_of_singleton. apply Hp0. rewrite Hpb. by right.
  - eapply store_frame_weaken; [|exact Hf].
    intros p ->%list_elem_of_singleton. apply elem_of_app. left. by apply root_cons.
  - apply Permutation_length in Hpb. rewrite !length_app. simpl in *. lia.
  - done.
  - intros q Hq. rewrite Hpb. by right.
Qed.

End Settle.

(** No resting bid reaches a resting ask. *)
Definition uncrossed (asks bids : list Order) : Prop :=
  forall a b, a ∈ asks -> b ∈ bids -> price b < price a.

(** A line of the report names the traded amount, the symbol and the price. *)
Definition reports (sym : string) (a b : Order) (l : line) : Prop :=
  exists ts rest, line_args l =
    Int ts :: Int (amount a `min` amount b) :: Str sym :: Int (price b) :: rest.

Lemma roots_uncrossed st a b xs ys :
  book_ok st a b xs ys ->
  xs = [] \/ ys = [] \/ price (st !!! (ys !!! 0%nat)) < price (st !!! (xs !!! 0%nat)) ->
  uncrossed (view st xs) (view st ys).
Proof.
  intros [Ha Hb _ _] Hcase o1 o2 (p & -> & Hp)%elem_of_view (q & -> & Hq)%elem_of_view.
  destruct Hcase as [-> | [-> | Hlt]]; [set_solver..|].
  pose proof (root_best (c := min_cmp) (pick := min_pick) (set_store st init_mach) a xs p Ha Hp) as H1.
  pose proof (root_best (c := max_cmp) (pick := max_pick) (set_store st init_mach) b ys q Hb Hq) as H2.
  unfold ask_le, bid_le in *. simpl in *. lia.
Qed.

(** The result of a matching function run on the heaps [xs], [ys] over [st]. *)
Definition matched (st : list Order) (xs ys : list nat) (r : Z) (st' : list Order) (xs' ys' : list nat) : Prop :=
  (r = 0 /\ st' = st /\ xs' = xs /\ ys' = ys /\ uncrossed (view st xs) (view st ys)) \/
  (r = 1 /\ traded st xs ys st' xs' ys').

Lemma matched_step st xs ys r st' xs' ys' :
  matched st xs ys r st' xs' ys' ->
  match_step (view st xs) (view st ys) r (view st' xs') (view st' ys').
Proof. intros [(-> & -> & -> & -> & Hu)|[-> []]]; [by apply match_none|done]. Qed.

Lemma match_run_uncrossed asks bids n asks' bids' :
  match_run asks bids n asks' bids' -> uncrossed asks' bids'.
Proof. induction 1 as [asks bids Hm|]; [by inversion Hm|done]. Qed.

(** ** Shares *)

Definition shares (os : list Order) : Z := foldr (fun o n => amount o + n) 0 os.

Lemma shares_cons o os : shares (o :: os) = amount o + shares os.
Proof. done. Qed.

#[export] Instance shares_proper : Proper ((≡ₚ) ==> (=)) shares.
Proof. intros xs ys Hp. unfold shares. induction Hp; simpl; lia. Qed.

(** Amounts that a [short] holds and that are worth trading. *)
Definition tradable (hi : Z) (o : Order) : Prop := 1 <= amount o <= hi.

Lemma Forall_perm {A} (P : A -> Prop) xs ys : xs ≡ₚ ys -> Forall P xs -> Forall P ys.
Proof. rewrite !Forall_forall. intros Hp Hx x Hin. apply Hx. by rewrite Hp. Qed.

Section Shares.
Variable hi : Z.
Hypothesis Hhi : hi < 2 ^ 15.

Lemma remainder_shares o q rest :
  tradable hi o -> 0 <= q <= amount o -> shares (remainder o q rest) = amount o + shares rest - q.
Proof.
  unfold tradable, remainder. intros Ho Hq. destruct (Z.eqb_spec (amount o) q); [lia|].
  rewrite shares_cons. cbn [amount set_amount]. rewrite s16_small by lia. lia.
Qed.

Lemma remainder_tradable o q rest :
  tradable hi o -> 0 <= q <= amount o -> Forall (tradable hi) rest ->
  Forall (tradable hi) (remainder o q rest).
Proof.
  unfold remainder. intros Ho Hq Hr. destruct (Z.eqb_spec (amount o) q); [done|].
  constructor; [|done]. unfold tradable in *. cbn. rewrite s16_small by lia. lia.
Qed.

Lemma match_step_shares asks bids r asks' bids' :
  match_step asks bids r asks' bids' -> Forall (tradable hi) asks -> Forall (tradable hi) bids ->
  Forall (tradable hi) asks' /\ Forall (tradable hi) bids' /\
  shares asks - shares asks' = shares bids - shares bids' /\ r <= shares asks - shares asks'.
Proof.
  intros [Hn|a b asks0 bids0 as' bs' Ha Hb _ _ _ Ha' Hb'] Hfa Hfb; [split; [done|split; [done|lia]]|].
  apply (Forall_perm _ _ _ Ha), Forall_cons in Hfa as [Hta Hfa].
  apply (Forall_perm _ _ _ Hb), Forall_cons in Hfb as [Htb Hfb].
  pose proof Hta as Hta'. pose proof Htb as Htb'. unfold tradable in Hta', Htb'.
  split; [eapply Forall_perm; [symmetry; exact Ha'|apply remainder_tradable; auto; lia]|].
  split; [eapply Forall_perm; [symmetry; exact Hb'|apply remainder_tradable; auto; lia]|].
  rewrite (shares_proper _ _ Ha), (shares_proper _ _ Hb), (shares_proper _ _ Ha'), (shares_proper _ _ Hb').
  rewrite !remainder_shares, !shares_cons by (done || lia). lia.
Qed.

(** Every trade moves the same number of shares off both sides, at least one. *)
Lemma match_run_shares asks bids n asks' bids' :
  match_run asks bids n asks' bids' -> Forall (tradable hi) asks -> Forall (tradable hi) bids ->
  Forall (tradable hi) asks' /\ Forall (tradable hi) bids' /\
  shares asks - shares asks' = shares bids - shares bids' /\ Z.of_nat n <= shares asks - shares asks'.
Proof.
  induction 1 as [asks bids Hm|asks bids asks1 bids1 n asks2 bids2 Hm Hrun IH]; intros Ha Hb.
  - split; [done|split; [done|lia]].
  - destruct (match_step_shares _ _ _ _ _ Hm Ha Hb) as (Ha1 & Hb1 & Heq & Hge).
    destruct (IH Ha1 Hb1) as (Ha2 & Hb2 & Heq2 & Hge2).
    split; [done|split; [done|lia]].
Qed.

End Shares.

Section CheckForTrade.
Context `{Env} {W : Type} `{NodeMemory W}.

Lemma size_eqb_nil {A} (xs : list A) : (Z.of_nat (length xs) =? 0) = bool_decide (xs = []).
Proof. destruct xs; [by rewrite bool_decide_eq_true_2|by rewrite bool_decide_eq_false_2]. Qed.

Lemma root_valid st (xs : list nat) : valid st xs -> xs <> [] -> (xs !!! 0%nat < length st)%nat.
Proof. intros Hv Hne. apply valid_lookup; [done|]. destruct xs; [done|simpl; lia]. Qed.

(** Nothing to match: the function returns 0 and changes nothing. *)
Lemma check_for_trade_idle m a b (e : W) xs ys :
  book_ok (store m) a b xs ys ->
  xs = [] \/ ys = [] \/ price (store m !!! (ys !!! 0%nat)) < price (store m !!! (xs !!! 0%nat)) ->
  check_for_trade (mkBookW m a b e) = Val 0 (mkBookW m a b e).
Proof.
  intros Hok Hcase. destruct (book_sizes _ _ _ _ _ Hok) as [Hna Hnb].
  unfold check_for_trade. run. run. cbn [b_asks b_bids]. rewrite Hna, Hnb, !size_eqb_nil.
  destruct (decide (xs = [])) as [Hx|Hx]; [by rewrite (bool_decide_eq_true_2 (xs = []))|].
  destruct (decide (ys = [])) as [Hy|Hy];
    [by rewrite (bool_decide_eq_true_2 (ys = [])), orb_true_r|].
  destruct Hcase as [?|[?|Hlt]]; [done..|].
  rewrite !bool_decide_eq_false_2 by done. cbn [orb].
  destruct Hok as [[[Hlx _ _ _] _ Hvx _] [[Hly _ _ _] _ Hvy _] _ _].
  run (by apply on_bids_peek). run (by apply on_asks_peek).
  do 2 run (by apply book_load, root_valid).
  by replace (price (store m !!! (ys !!! 0%nat)) >=? price (store m !!! (xs !!! 0%nat))) with false by lia.
Qed.

Lemma check_for_trade_cross m a b (e : W) xs ys :
  book_ok (store m) a b xs ys -> xs <> [] -> ys <> [] ->
  let ask := store m !!! (xs !!! 0%nat) in
  let bid := store m !!! (ys !!! 0%nat) in
  price ask <= price bid ->
  exists m' a' b' xs' ys' l,
    check_for_trade (mkBookW m a b e) = Val 1 (mkBookW m' a' b' e) /\
    book_ok (store m') a' b' xs' ys' /\ traded (store m) xs ys (store m') xs' ys' /\
    same_config a a' /\ same_config b b' /\
    output m' = output m ++ [l] /\ reports (symbol ask) ask bid l.
Proof.
  intros Hok Hx Hy ask bid Hp. destruct (book_sizes _ _ _ _ _ Hok) as [Hna Hnb].
  unfold check_for_trade. run. run. cbn [b_asks b_bids]. rewrite Hna, Hnb, !size_eqb_nil.
  rewrite !bool_decide_eq_false_2 by done. cbn [orb].
  pose proof Hok as [[[Hlx _ _ _] _ Hvx _] [[Hly _ _ _] _ Hvy _] _ _].
  run (by apply on_bids_peek). run (by apply on_asks_peek).
  do 2 run (by apply book_load, root_valid). fold ask bid.
  replace (price bid >=? price ask) with true by lia.
  destruct (Z.eqb_spec (amount bid) (amount ask)) as [Heq|Hne].
  - run. run.
    destruct (settle_both (emit [mkLine Stdout trade_format [Int (u32 (tv_nsec (clock (clock_calls m))));
      Int (amount ask); Str (symbol ask); Int (price bid)]] (tick 1 m)) a b e xs ys Hok Hx Hy Hp Heq)
      as (a' & b' & xs' & ys' & Hb & Ha & Hok' & Htr & Hca & Hcb).
    run (exact Hb). run (exact Ha).
    eexists _, a', b', xs', ys', _. split; [reflexivity|].
    do 4 (split; [done|]). split; [reflexivity|]. eexists _, []. by rewrite Heq, Z.min_id.
  - destruct (Z.gtb_spec (amount bid) (amount ask)) as [Hlt|Hge]; run; run.
    + destruct (settle_bid_remains (emit [mkLine Stdout bid_remains_format
        [Int (u32 (tv_nsec (clock (clock_calls m)))); Int (amount ask); Str (symbol ask);
         Int (price bid); Int (amount bid - amount ask)]] (tick 1 m)) a b e xs ys Hok Hx Hy Hp Hlt)
        as (a' & xs' & Hb & Ha & Hok' & Htr & Hca).
      run (exact Hb). run (exact Ha).
      eexists _, a', b, xs', ys, _. split; [reflexivity|].
      do 4 (split; [done|]). split; [reflexivity|]. eexists _, [_].
      by replace (amount ask `min` amount bid) with (amount ask) by lia.
    + assert (Hlt : amount bid < amount ask) by lia.
      destruct (settle_ask_remains (emit [mkLine Stdout ask_remains_format
        [Int (u32 (tv_nsec (clock (clock_calls m)))); Int (amount bid); Str (symbol ask);
         Int (price bid); Int (amount ask - amount bid)]] (tick 1 m)) a b e xs ys Hok Hx Hy Hp Hlt)
        as (b' & ys' & Ha & Hb & Hok' & Htr & Hcb).
      run (exact Ha). run (exact Hb).
      eexists _, a, b', xs, ys', _. split; [reflexivity|].
      do 4 (split; [done|]). split; [reflexivity|]. eexists _, [_].
      by replace (amount ask `min` amount bid) with (amount bid) by lia.
Qed.

(** Both cases at once. *)
Lemma check_for_trade_ok m a b (e : W) xs ys :
  book_ok (store m) a b xs ys ->
  exists r m' a' b' xs' ys',
    check_for_trade (mkBookW m a b e) = Val r (mkBookW m' a' b' e) /\
    book_ok (store m') a' b' xs' ys' /\ matched (store m) xs ys r (store m') xs' ys'.
Proof.
  intros Hok.
  destruct (decide (xs = [] \/ ys = [] \/
    price (store m !!! (ys !!! 0%nat)) < price (store m !!! (xs !!! 0%nat)))) as [Hidle|Hcross].
  - exists 0, m, a, b, xs, ys. split; [by eapply check_for_trade_idle|]. split; [done|]. left.
    repeat split. by eapply roots_uncrossed.
  - destruct (check_for_trade_cross m a b e xs ys Hok)
      as (m' & a' & b' & xs' & ys' & l & Hrun & Hok' & Htr & _); [tauto|tauto|lia|].
    exists 1, m', a', b', xs', ys'. split; [done|]. split; [done|]. by right.
Qed.

Lemma traded_contents st xs ys r st' xs' ys' :
  matched st xs ys r st' xs' ys' ->
  length st' = length st /\ (forall p, p ∈ xs' -> p ∈ xs) /\ (forall p, p ∈ ys' -> p ∈ ys).
Proof. intros [(_ & -> & -> & -> & _)|[_ [_ [] _ ? ?]]]; done. Qed.

End CheckForTrade.

Lemma nodup_valid_length st (xs : list nat) : NoDup xs -> valid st xs -> (length xs <= length st)%nat.
Proof.
  intros Hnd Hv. rewrite <- (length_seq (length st) 0).
  apply NoDup_incl_length; [by apply NoDup_ListNoDup|]. intros p Hp%list_elem_of_In.
  apply list_elem_of_In, elem_of_seq. unfold valid in Hv. rewrite Forall_forall in Hv.
  specialize (Hv p Hp). lia.
Qed.

Lemma pushed_tradable hi st ty o xs ys xs' ys' :
  pushed ty o xs ys xs' ys' -> tradable hi (st !!! o) ->
  Forall (tradable hi) (view st xs) -> Forall (tradable hi) (view st ys) ->
  Forall (tradable hi) (view st xs') /\ Forall (tradable hi) (view st ys').
Proof.
  unfold pushed. destruct (ty =? 0); intros [Hx Hy] Ho Ha Hb; subst.
  - split; [done|]. eapply Forall_perm; [symmetry; exact (view_perm st _ _ Hy)|by constructor].
  - split; [|done]. eapply Forall_perm; [symmetry; exact (view_perm st _ _ Hx)|by constructor].
Qed.

(** ** Changes of the store *)

(** The store [st'] has the orders of [st], their amounts apart, and maybe more. *)
Definition same_keys (st st' : list Order) : Prop :=
  (length st <= length st')%nat /\
  forall p, (p < length st)%nat -> st' !!! p = st !!! p \/ exists v, st' !!! p = set_amount v (st !!! p).

Lemma same_keys_frame ps st st' : store_frame ps st st' -> same_keys st st'.
Proof. intros (Hl & _ & Ha). split; [lia|auto]. Qed.

Lemma same_keys_extend st o : same_keys st (st ++ [o]).
Proof.
  split; [rewrite length_app; lia|]. intros p Hp. left. by apply lookup_total_app_l.
Qed.

Section Keys.
Variables st st' : list Order.
Hypothesis Hkeys : same_keys st st'.

Lemma keys_fields p : (p < length st)%nat ->
  symbol (st' !!! p) = symbol (st !!! p) /\ type (st' !!! p) = type (st !!! p) /\
  price (st' !!! p) = price (st !!! p).
Proof. intros Hp. destruct Hkeys as [_ Ha]. by destruct (Ha p Hp) as [-> | [v ->]]. Qed.

Lemma uncrossed_keys xs ys :
  valid st xs -> valid st ys -> uncrossed (view st xs) (view st ys) ->
  uncrossed (view st' xs) (view st' ys).
Proof.
  unfold valid. rewrite !Forall_forall. intros Hx Hy Hu a b (p & -> & Hp)%elem_of_view (q & -> & Hq)%elem_of_view.
  destruct (keys_fields p (Hx p Hp)) as (_ & _ & ->). destruct (keys_fields q (Hy q Hq)) as (_ & _ & ->).
  apply Hu; apply elem_of_view; eauto.
Qed.

Lemma book_ok_keys a b xs ys : book_ok st a b xs ys -> book_ok st' a b xs ys.
Proof.
  destruct Hkeys as [Hl Ha]. intros [Hax Hby Hnd Hlen].
  pose proof (ok_valid _ _ _ _ _ Hax) as Hvx. pose proof (ok_valid _ _ _ _ _ Hby) as Hvy.
  unfold valid in *. rewrite Forall_forall in Hvx, Hvy. split; [| |done|done].
  - by apply (heap_ok_store (pick := min_pick) st); auto.
  - by apply (heap_ok_store (pick := max_pick) st); auto.
Qed.

End Keys.

(** ** Properties *)

(** Two asks and a bid between them. *)
Definition demo_store : list Order :=
  [mkOrder 10 5 4 1 "AAA"; mkOrder 12 3 7 1 "AAA"; mkOrder 11 9 6 0 "AAA"].
Definition demo_mach : Mach := set_store demo_store init_mach.
Definition demo_heap (c : HeapCmpFunc) (xs : list nat) : Heap :=
  mkHeap ((Some <$> xs) ++ replicate (10 - length xs) None) (Z.of_nat (length xs)) 10 c false false false.

Lemma demo_heap_ok c le st xs :
  (length xs <= 10)%nat -> valid st xs -> heap_order (ptr_le le st) xs ->
  heap_ok c le st (demo_heap c xs) xs.
Proof.
  intros Hl Hv Ho. split; [|done..]. split; cbn; [by eexists|done| |lia].
  rewrite length_app, length_fmap, length_replicate. lia.
Qed.

Lemma demo_asks_ok : heap_ok min_cmp ask_le demo_store (demo_heap min_cmp [0%nat; 1%nat]) [0%nat; 1%nat].
Proof.
  apply demo_heap_ok; [simpl; lia|repeat constructor; simpl; lia|].
  intros j Hj. simpl in Hj. assert (j = 1%nat) as -> by lia. left. by vm_compute.
Qed.

Lemma demo_bids_ok : heap_ok max_cmp bid_le demo_store (demo_heap max_cmp [2%nat]) [2%nat].
Proof.
  apply demo_heap_ok; [simpl; lia|repeat constructor; simpl; lia|].
  intros j Hj. simpl in Hj. lia.
Qed.

Lemma demo_book_ok :
  book_ok demo_store (demo_heap min_cmp [0%nat; 1%nat]) (demo_heap max_cmp [2%nat]) [0%nat; 1%nat] [2%nat].
Proof. split; [exact demo_asks_ok|exact demo_bids_ok|by apply (bool_decide_unpack _)|simpl; lia]. Qed.

Section Properties.
Context `{Env} {W : Type} `{NodeMemory W}.

(** C5: on any well-formed pair of heaps [check_for_trade] terminates without
undefined behaviour and does one step of the matching rule: it returns 0 and
changes nothing when no bid reaches an ask; otherwise it returns 1 and the best
bid and the best ask have traded the smaller of their amounts. *)
Theorem check_for_trade_implements_match_step m a b (e : W) xs ys :
  book_ok (store m) a b xs ys ->
  exists r m' a' b' xs' ys',
    check_for_trade (mkBookW m a b e) = Val r (mkBookW m' a' b' e) /\
    match_step (view (store m) xs) (view (store m) ys) r (view (store m') xs') (view (store m') ys') /\
    book_ok (store m') a' b' xs' ys' /\
    store_frame (xs ++ ys) (store m) (store m').
Proof.
  intros Hok. destruct (check_for_trade_ok m a b e xs ys Hok) as (r & m' & a' & b' & xs' & ys' & Hrun & Hok' & Hm).
  exists r, m', a', b', xs', ys'. split; [done|]. split; [by apply matched_step|]. split; [done|].
  destruct Hm as [(_ & -> & _)|[_ []]]; [apply store_frame_refl|done].
Qed.

(** The line that a trade prints names the traded amount, the symbol of the
ask and the price of the bid. *)
Theorem check_for_trade_report m a b (e : W) xs ys :
  book_ok (store m) a b xs ys -> xs <> [] -> ys <> [] ->
  let ask := store m !!! (xs !!! 0%nat) in
  let bid := store m !!! (ys !!! 0%nat) in
  price ask <= price bid ->
  exists s' l, check_for_trade (mkBookW m a b e) = Val 1 s' /\
    output (b_mach s') = output m ++ [l] /\ reports (symbol ask) ask bid l.
Proof.
  intros Hok Hx Hy ask bid Hp.
  destruct (check_for_trade_cross m a b e xs ys Hok Hx Hy Hp)
    as (m' & a' & b' & xs' & ys' & l & Hrun & _ & _ & _ & _ & Hout & Hrep). eauto.
Qed.

End Properties.

Lemma check_for_trade_implements_match_step_witness :
  exists r m' a' b' xs' ys',
    @check_for_trade demo_env unit (ret tt)
      (mkBookW demo_mach (demo_heap min_cmp [0%nat; 1%nat]) (demo_heap max_cmp [2%nat]) tt) =
        Val r (mkBookW m' a' b' tt) /\
    match_step (view demo_store [0%nat; 1%nat]) (view demo_store [2%nat]) r
      (view (store m') xs') (view (store m') ys') /\
    book_ok (store m') a' b' xs' ys' /\ store_frame [0%nat; 1%nat; 2%nat] demo_store (store m').
Proof.
  exact (@check_for_trade_implements_match_step demo_env unit (ret tt) demo_mach _ _ tt _ _ demo_book_ok).
Defined.

(** Through any run of the matching rule over orders with at least one
share, the asks and the bids lose the same number of shares, at least one per
trade, and every order that is left still has shares. *)
Theorem match_run_conserves_shares hi asks bids n asks' bids' :
  hi < 2 ^ 15 -> match_run asks bids n asks' bids' ->
  Forall (tradable hi) asks -> Forall (tradable hi) bids ->
  shares asks - shares asks' = shares bids - shares bids' /\
  Z.of_nat n <= shares asks - shares asks' /\
  Forall (tradable hi) asks' /\ Forall (tradable hi) bids'.
Proof.
  intros Hhi Hrun Ha Hb.
  destruct (match_run_shares hi Hhi _ _ _ _ _ Hrun Ha Hb) as (? & ? & ? & ?). done.
Qed.

(** The asks at 10 and the bid at 11 of [demo_store] trade four shares. *)
Lemma demo_match_run :
  match_run [mkOrder 10 5 4 1 "AAA"] [mkOrder 11 9 6 0 "AAA"] 1 [] [mkOrder 11 9 2 0 "AAA"].
Proof.
  eapply run_trade.
  - eapply (match_trade _ _ (mkOrder 10 5 4 1 "AAA") (mkOrder 11 9 6 0 "AAA") [] []);
      [done|done|..|simpl; lia|reflexivity|reflexivity].
    + intros x ->%list_elem_of_singleton. right. simpl. lia.
    + intros x ->%list_elem_of_singleton. right. simpl. lia.
  - apply run_done, match_none. intros a b Ha. by apply not_elem_of_nil in Ha.
Qed.

Lemma match_run_conserves_shares_witness :
  shares [mkOrder 10 5 4 1 "AAA"] - shares [] = shares [mkOrder 11 9 6 0 "AAA"] - shares [mkOrder 11 9 2 0 "AAA"] /\
  Z.of_nat 1 <= shares [mkOrder 10 5 4 1 "AAA"] - shares [] /\
  Forall (tradable 10) [] /\ Forall (tradable 10) [mkOrder 11 9 2 0 "AAA"].
Proof.
  apply (match_run_conserves_shares 10 [mkOrder 10 5 4 1 "AAA"] [mkOrder 11 9 6 0 "AAA"] 1 []
    [mkOrder 11 9 2 0 "AAA"]); [lia|exact demo_match_run|..];
    repeat constructor; cbn; lia.
Defined.

(** [min_cmp] and [max_cmp] never prefer the worse order: the pointer they
return is that of an order at least as good, in price-time priority, as both. *)
Theorem comparisons_price_time st p q oa ob r :
  st !! p = Some oa -> st !! q = Some ob ->
  (min_cmp st p q = Some r -> exists o, st !! r = Some o /\ ask_le o oa /\ ask_le o ob) /\
  (max_cmp st p q = Some r -> exists o, st !! r = Some o /\ bid_le o oa /\ bid_le o ob).
Proof.
  intros Hp Hq. rewrite (min_cmp_pick _ _ _ _ _ Hp Hq), (max_cmp_pick _ _ _ _ _ Hp Hq). split; intros [= <-].
  - destruct (min_pick oa ob) eqn:E.
    + exists oa. split; [done|]. split; [reflexivity|by apply (pick_le (c := min_cmp))].
    + exists ob. split; [done|]. split; [by apply (unpick_le (c := min_cmp))|reflexivity].
  - destruct (max_pick oa ob) eqn:E.
    + exists oa. split; [done|]. split; [reflexivity|by apply (pick_le (c := max_cmp))].
    + exists ob. split; [done|]. split; [by apply (unpick_le (c := max_cmp))|reflexivity].
Qed.

Lemma comparisons_price_time_witness :
  (min_cmp demo_store 0%nat 1%nat = Some 0%nat ->
     exists o, demo_store !! 0%nat = Some o /\ ask_le o (mkOrder 10 5 4 1 "AAA") /\ ask_le o (mkOrder 12 3 7 1 "AAA")) /\
  (max_cmp demo_store 0%nat 1%nat = Some 0%nat ->
     exists o, demo_store !! 0%nat = Some o /\ bid_le o (mkOrder 10 5 4 1 "AAA") /\ bid_le o (mkOrder 12 3 7 1 "AAA")).
Proof.
  apply (comparisons_price_time demo_store 0%nat 1%nat (mkOrder 10 5 4 1 "AAA") (mkOrder 12 3 7 1 "AAA") 0%nat); reflexivity.
Defined.

(** Witnesses of the heap's properties, on the asks above. *)
Lemma push_correct_witness :
  exists h' ys, @push unit 2 (mkHW demo_mach (demo_heap min_cmp [0%nat; 1%nat]) tt) =
      Val tt (mkHW demo_mach h' tt) /\
    heap_ok min_cmp ask_le demo_store h' ys /\ ys ≡ₚ [2%nat; 0%nat; 1%nat] /\ size h' = 3 /\
    same_config (demo_heap min_cmp [0%nat; 1%nat]) h'.
Proof.
  refine (push_correct demo_mach (demo_heap min_cmp [0%nat; 1%nat]) tt [0%nat; 1%nat] 2 demo_asks_ok _ _);
    simpl; lia.
Defined.

Lemma pop_correct_witness :
  exists top h' ys, @pop demo_env unit (ret tt) (mkHW demo_mach (demo_heap min_cmp [0%nat; 1%nat]) tt) =
      Val top (mkHW (tick 1 demo_mach) h' tt) /\
    heap_ok min_cmp ask_le demo_store h' ys /\ [0%nat; 1%nat] ≡ₚ top :: ys /\
    (forall p, p ∈ [0%nat; 1%nat] -> ask_le (demo_store !!! top) (demo_store !!! p)).
Proof.
  refine (@pop_correct demo_env unit (ret tt) _ _ _ _ demo_mach (demo_heap min_cmp [0%nat; 1%nat]) tt
    [0%nat; 1%nat] demo_asks_ok _ _); [done|simpl; lia].
Defined.
