(* ===== verification/PageTable.v ===== *)
(** * PageTable: physical frames and page accounting of [sw_sim/mmu.h]

The frame allocator over the 256-bit free map, the page table of one book, and
the two functions that give back a node, [free_node_memory] of
[sw_sim/memory_sim.c] and [post_trade_cleanup]. *)
From S2P Require Import Prelude Machine Heap.

Definition PAGE_SIZE : Z := 64.
Definition MAX_PAGES : Z := 256.
Definition MAX_PAGES_PER_SYMBOL : Z := 128.
Definition BITMAP_WORDS : Z := (MAX_PAGES + 63) ÷ 64.
Definition OVERFLOW_PAGE_SIZE : Z := 8.
Definition PAGE_WALK_CYCLES : Z := 3.
Definition OVERFLOW_PENALTY_CYCLES : Z := 2.

Record PhysicalFrame := mkFrame { frame_index : Z; owner_symbol : Z; node_count : Z }.

(** The entries of the overflow page ([data]) are never read or written by the
program; only their number is. *)
Record OverflowPage := mkOverflow { ov_data : list (option Z); cnt : Z }.

Record MemoryManager := mkMM {
  frames : list PhysicalFrame;
  free_bitmap : list Z;
  hard_rejects : Z;
  overflow : OverflowPage
}.

Record SymbolMemory := mkSymMem {
  virtual_pages : list (option Z);
  page_count : Z;
  nodes_in_curr_page : Z
}.

(** The counters are [int]s, the cycles a [long long].  They only grow, and are kept as
mathematical integers until they are printed: there one that has overflowed on the way is
found out of range ([print_sim_stats] in World). *)
Record SimStats := mkStats {
  total_trades : Z;
  total_reads : Z;
  total_writes : Z;
  overflow_accesses : Z;
  st_hard_rejects : Z;
  hazards : Z;
  overflow_max : Z;
  total_cycles : Z
}.

Definition zero_stats : SimStats := mkStats 0 0 0 0 0 0 0 0.

Definition set_frames v mm := mkMM v (free_bitmap mm) (hard_rejects mm) (overflow mm).
Definition set_free_bitmap v mm := mkMM (frames mm) v (hard_rejects mm) (overflow mm).
Definition set_hard_rejects v mm := mkMM (frames mm) (free_bitmap mm) v (overflow mm).
Definition set_overflow_cnt v mm :=
  mkMM (frames mm) (free_bitmap mm) (hard_rejects mm) (mkOverflow (ov_data (overflow mm)) v).
Definition set_owner v f := mkFrame (frame_index f) v (node_count f).
Definition set_node_count v f := mkFrame (frame_index f) (owner_symbol f) v.
Definition set_virtual_pages v m := mkSymMem v (page_count m) (nodes_in_curr_page m).
Definition set_page_count v m := mkSymMem (virtual_pages m) v (nodes_in_curr_page m).
Definition set_nodes v m := mkSymMem (virtual_pages m) (page_count m) v.
Definition add_trades n s := mkStats (total_trades s + n) (total_reads s) (total_writes s)
  (overflow_accesses s) (st_hard_rejects s) (hazards s) (overflow_max s) (total_cycles s).
Definition add_reads n s := mkStats (total_trades s) (total_reads s + n) (total_writes s)
  (overflow_accesses s) (st_hard_rejects s) (hazards s) (overflow_max s) (total_cycles s).
Definition add_writes n s := mkStats (total_trades s) (total_reads s) (total_writes s + n)
  (overflow_accesses s) (st_hard_rejects s) (hazards s) (overflow_max s) (total_cycles s).
Definition add_overflow_accesses n s := mkStats (total_trades s) (total_reads s) (total_writes s)
  (overflow_accesses s + n) (st_hard_rejects s) (hazards s) (overflow_max s) (total_cycles s).
Definition set_overflow_max n s := mkStats (total_trades s) (total_reads s) (total_writes s)
  (overflow_accesses s) (st_hard_rejects s) (hazards s) n (total_cycles s).
Definition add_cycles n s := mkStats (total_trades s) (total_reads s) (total_writes s)
  (overflow_accesses s) (st_hard_rejects s) (hazards s) (overflow_max s) (total_cycles s + n).

(** What the page-accounting functions reach: [*mm], [ob->mem] and [*stats]. *)
Record NodeMem := mkNodeMem { nm_mm : MemoryManager; nm_mem : SymbolMemory; nm_stats : SimStats }.

Definition update_mm (f : MemoryManager -> MemoryManager) : M NodeMem unit :=
  modify (fun s => mkNodeMem (f (nm_mm s)) (nm_mem s) (nm_stats s)).
Definition update_mem (f : SymbolMemory -> SymbolMemory) : M NodeMem unit :=
  modify (fun s => mkNodeMem (nm_mm s) (f (nm_mem s)) (nm_stats s)).
Definition update_stats (f : SimStats -> SimStats) : M NodeMem unit :=
  modify (fun s => mkNodeMem (nm_mm s) (nm_mem s) (f (nm_stats s))).

(** [mm->frames[i]], changed by [f]. *)
Definition update_frame (i : Z) (f : PhysicalFrame -> PhysicalFrame) : M NodeMem unit :=
  let! mm := gets nm_mm in
  let! fr := lift (array_get (frames mm) i) in
  let! fs := lift (array_set (frames mm) i (f fr)) in
  update_mm (set_frames fs).

Definition create_memory_manager : MemoryManager :=
  mkMM ((fun i => mkFrame i (-1) 0) <$> seqZ 0 MAX_PAGES)
       (replicate (Z.to_nat BITMAP_WORDS) (u64 (Z.lnot 0)))
       0
       (mkOverflow (replicate (Z.to_nat OVERFLOW_PAGE_SIZE) None) 0).

(** Reading an entry of [virtual_pages] that was never written is undefined. *)
Definition translate (page_index : Z) : M NodeMem Z :=
  update_stats (add_cycles PAGE_WALK_CYCLES) ;;!
  let! mem := gets nm_mem in
  if page_index <? page_count mem then
    let! e := lift (array_get (virtual_pages mem) page_index) in
    lift e
  else ret (-1).

Definition allocate_frame (symbol_id : Z) : M NodeMem Z :=
  let! r := for_return (seqZ 0 MAX_PAGES) (fun i =>
    let word := i ÷ 64 in
    let bit := Z.rem i 64 in
    let! mm := gets nm_mm in
    let! w := lift (array_get (free_bitmap mm) word) in
    if negb (Z.land w (Z.shiftl 1 bit) =? 0) then
      let! bm := lift (array_set (free_bitmap mm) word
                         (Z.land w (u64 (Z.lnot (Z.shiftl 1 bit))))) in
      update_mm (set_free_bitmap bm) ;;!
      update_frame i (set_owner symbol_id) ;;!
      update_frame i (set_node_count 0) ;;!
      ret (Some i)
    else ret None) in
  match r with Some i => ret i | None => ret (-1) end.

Definition free_frame (page_index : Z) : M NodeMem unit :=
  let! frame := translate page_index in
  if frame <? 0 then ret tt else
  let word := frame ÷ 64 in
  let bit := Z.rem frame 64 in
  let! mm := gets nm_mm in
  let! w := lift (array_get (free_bitmap mm) word) in
  let! bm := lift (array_set (free_bitmap mm) word (Z.lor w (Z.shiftl 1 bit))) in
  update_mm (set_free_bitmap bm) ;;!
  update_frame frame (set_owner (-1)) ;;!
  update_frame frame (set_node_count 0).

(** The body of [free_node_memory] in [memory_sim.c]; [post_trade_cleanup] ends
with the same statements. *)
Definition release_node : M NodeMem unit :=
  let! mem := gets nm_mem in
  if nodes_in_curr_page mem >? 0 then
    update_mem (set_nodes (nodes_in_curr_page mem - 1)) ;;!
    if page_count mem >? 0 then
      let! frame := translate (page_count mem - 1) in
      if frame >=? 0 then
        update_frame frame (fun f => set_node_count (node_count f - 1) f) ;;!
        let! mm := gets nm_mm in
        let! fr := lift (array_get (frames mm) frame) in
        if node_count fr =? 0 then
          free_frame (page_count mem - 1) ;;!
          update_mem (set_page_count (page_count mem - 1)) ;;!
          if page_count mem - 1 >? 0 then update_mem (set_nodes PAGE_SIZE)
          else update_mem (set_nodes 0)
        else ret tt
      else ret tt
    else ret tt
  else ret tt.

#[export] Instance memory_sim_free_node_memory : NodeMemory NodeMem := release_node.

Definition post_trade_cleanup : M NodeMem unit :=
  let! mm := gets nm_mm in
  (if cnt (overflow mm) >? 0
   then update_mm (set_overflow_cnt (cnt (overflow mm) - 1)) else ret tt) ;;!
  release_node.

(** The page-accounting part of [mem_aware_insert]: how an order that arrives
is charged, before it is pushed.  The result says where the order was placed. *)
Inductive placement := CurrentPage | NewPage | Overflow | Rejected | NoFrame.

Definition place_node (sym_id : Z) : M NodeMem placement :=
  let! mem := gets nm_mem in
  if (page_count mem >? 0) && (nodes_in_curr_page mem <? PAGE_SIZE) then
    let! frame := translate (page_count mem - 1) in
    if frame <? 0 then ret NoFrame else
    update_mem (set_nodes (nodes_in_curr_page mem + 1)) ;;!
    update_frame frame (fun f => set_node_count (node_count f + 1) f) ;;!
    update_stats (add_writes 1) ;;!
    ret CurrentPage
  else
  let! frame := (if page_count mem <? MAX_PAGES_PER_SYMBOL
                 then allocate_frame sym_id else ret (-1)) in
  if frame >=? 0 then
    let! vp := lift (array_set (virtual_pages mem) (page_count mem) (Some frame)) in
    update_mem (set_virtual_pages vp) ;;!
    update_mem (set_page_count (page_count mem + 1)) ;;!
    update_mem (set_nodes 1) ;;!
    update_frame frame (set_node_count 1) ;;!
    update_stats (add_cycles PAGE_WALK_CYCLES) ;;!
    update_stats (add_writes 1) ;;!
    ret NewPage
  else
  let! mm := gets nm_mm in
  if cnt (overflow mm) <? OVERFLOW_PAGE_SIZE then
    update_mm (set_overflow_cnt (cnt (overflow mm) + 1)) ;;!
    update_stats (add_cycles (PAGE_WALK_CYCLES + OVERFLOW_PENALTY_CYCLES)) ;;!
    update_stats (add_overflow_accesses 1) ;;!
    update_stats (add_writes 1) ;;!
    ret Overflow
  else
    update_mm (set_hard_rejects (hard_rejects mm + 1)) ;;!
    update_stats (add_cycles 1) ;;!
    ret Rejected.

(** ** Bits and frames *)

#[export] Instance frame_inhabited : Inhabited PhysicalFrame := populate (mkFrame 0 0 0).

Definition frame_at (mm : MemoryManager) (f : Z) : PhysicalFrame := frames mm !!! Z.to_nat f.

(** Bit [f] of the free map. *)
Definition bit_free (mm : MemoryManager) (f : Z) : bool :=
  Z.testbit (free_bitmap mm !!! Z.to_nat (f / 64)) (f mod 64).

Record mm_wf (mm : MemoryManager) : Prop := {
  wf_frames : length (frames mm) = 256%nat;
  wf_bitmap : length (free_bitmap mm) = 4%nat
}.

Lemma clear_bit_spec w b i :
  0 <= b < 64 -> 0 <= i < 64 ->
  Z.testbit (Z.land w (u64 (Z.lnot (Z.shiftl 1 b)))) i = if decide (i = b) then false else Z.testbit w i.
Proof.
  intros Hb Hi. rewrite Z.land_spec. unfold u64.
  rewrite Z.mod_pow2_bits_low, Z.lnot_spec, Z.shiftl_1_l by lia. case_decide as Hib.
  - subst. by rewrite Z.pow2_bits_true, andb_false_r by lia.
  - by rewrite Z.pow2_bits_false, andb_true_r by done.
Qed.

Lemma set_bit_spec w b i :
  0 <= b -> 0 <= i ->
  Z.testbit (Z.lor w (Z.shiftl 1 b)) i = if decide (i = b) then true else Z.testbit w i.
Proof.
  intros Hb Hi. rewrite Z.lor_spec, Z.shiftl_1_l. case_decide as Hib.
  - subst. by rewrite Z.pow2_bits_true, orb_true_r by lia.
  - by rewrite Z.pow2_bits_false, orb_false_r by done.
Qed.

Lemma quot_rem_64 f : 0 <= f -> f ÷ 64 = f / 64 /\ Z.rem f 64 = f mod 64.
Proof. intros. by rewrite Z.quot_div_nonneg, Z.rem_mod_nonneg by lia. Qed.

Lemma word_bit_eq f g : f / 64 = g / 64 -> f mod 64 = g mod 64 -> f = g.
Proof. intros. pose proof (Z.div_mod f 64). pose proof (Z.div_mod g 64). lia. Qed.

Lemma word_range f : 0 <= f < 256 -> 0 <= f / 64 < 4 /\ 0 <= f mod 64 < 64.
Proof. intros. pose proof (Z.div_mod f 64). pose proof (Z.mod_pos_bound f 64). lia. Qed.

(** The effect of [allocate_frame] on the frame it picks, and of [free_frame]. *)
Definition take_frame (f sym : Z) (mm : MemoryManager) : MemoryManager :=
  mkMM (<[Z.to_nat f := mkFrame (frame_index (frame_at mm f)) sym 0]> (frames mm))
       (<[Z.to_nat (f / 64) := Z.land (free_bitmap mm !!! Z.to_nat (f / 64))
             (u64 (Z.lnot (Z.shiftl 1 (f mod 64))))]> (free_bitmap mm))
       (hard_rejects mm) (overflow mm).

Definition drop_frame (f : Z) (mm : MemoryManager) : MemoryManager :=
  mkMM (<[Z.to_nat f := mkFrame (frame_index (frame_at mm f)) (-1) 0]> (frames mm))
       (<[Z.to_nat (f / 64) := Z.lor (free_bitmap mm !!! Z.to_nat (f / 64))
             (Z.shiftl 1 (f mod 64))]> (free_bitmap mm))
       (hard_rejects mm) (overflow mm).

Definition map_frame (f : Z) (g : PhysicalFrame -> PhysicalFrame) (mm : MemoryManager) : MemoryManager :=
  set_frames (<[Z.to_nat f := g (frame_at mm f)]> (frames mm)) mm.

Section Frames.
Variable mm : MemoryManager.
Hypothesis Hwf : mm_wf mm.

Lemma take_frame_wf f sym : mm_wf (take_frame f sym mm).
Proof. destruct Hwf. split; cbn; by rewrite length_insert. Qed.

Lemma drop_frame_wf f : mm_wf (drop_frame f mm).
Proof. destruct Hwf. split; cbn; by rewrite length_insert. Qed.

Lemma map_frame_wf f g : mm_wf (map_frame f g mm).
Proof. destruct Hwf. split; cbn; by rewrite ?length_insert. Qed.

Lemma frame_at_insert (fs : list PhysicalFrame) f x g :
  length fs = 256%nat -> 0 <= f < 256 -> 0 <= g < 256 ->
  <[Z.to_nat f := x]> fs !!! Z.to_nat g = if decide (g = f) then x else fs !!! Z.to_nat g.
Proof.
  intros Hl Hf Hg. case_decide as Hfg.
  - subst. apply list_lookup_total_insert_eq. lia.
  - apply list_lookup_total_insert_ne. lia.
Qed.

Lemma take_frame_at f sym g : 0 <= f < 256 -> 0 <= g < 256 ->
  frame_at (take_frame f sym mm) g =
    if decide (g = f) then mkFrame (frame_index (frame_at mm f)) sym 0 else frame_at mm g.
Proof. intros. unfold frame_at at 1. by apply frame_at_insert; [apply Hwf|..]. Qed.

Lemma drop_frame_at f g : 0 <= f < 256 -> 0 <= g < 256 ->
  frame_at (drop_frame f mm) g =
    if decide (g = f) then mkFrame (frame_index (frame_at mm f)) (-1) 0 else frame_at mm g.
Proof. intros. unfold frame_at at 1. by apply frame_at_insert; [apply Hwf|..]. Qed.

Lemma map_frame_at f h g : 0 <= f < 256 -> 0 <= g < 256 ->
  frame_at (map_frame f h mm) g = if decide (g = f) then h (frame_at mm f) else frame_at mm g.
Proof. intros. unfold frame_at at 1. by apply frame_at_insert; [apply Hwf|..]. Qed.

Lemma take_frame_free f sym g : 0 <= f < 256 -> 0 <= g < 256 ->
  bit_free (take_frame f sym mm) g = if decide (g = f) then false else bit_free mm g.
Proof.
  intros Hf Hg. destruct Hwf as [_ Hb]. pose proof (word_range f Hf). pose proof (word_range g Hg).
  unfold bit_free. cbn [free_bitmap take_frame].
  destruct (decide (g / 64 = f / 64)) as [Hw|Hw].
  - rewrite Hw, list_lookup_total_insert_eq by lia. rewrite clear_bit_spec by lia.
    destruct (decide (g = f)) as [->|Hne]; [by rewrite decide_True|].
    rewrite decide_False; [done|]. intros Hm. by apply Hne, word_bit_eq.
  - rewrite list_lookup_total_insert_ne by lia. rewrite decide_False; [done|]. by intros ->.
Qed.

Lemma drop_frame_free f g : 0 <= f < 256 -> 0 <= g < 256 ->
  bit_free (drop_frame f mm) g = if decide (g = f) then true else bit_free mm g.
Proof.
  intros Hf Hg. destruct Hwf as [_ Hb]. pose proof (word_range f Hf). pose proof (word_range g Hg).
  unfold bit_free. cbn [free_bitmap drop_frame].
  destruct (decide (g / 64 = f / 64)) as [Hw|Hw].
  - rewrite Hw, list_lookup_total_insert_eq by lia. rewrite set_bit_spec by lia.
    destruct (decide (g = f)) as [->|Hne]; [by rewrite decide_True|].
    rewrite decide_False; [done|]. intros Hm. by apply Hne, word_bit_eq.
  - rewrite list_lookup_total_insert_ne by lia. rewrite decide_False; [done|]. by intros ->.
Qed.

Lemma fresh_frame_at f sym h g : 0 <= f < 256 -> 0 <= g < 256 ->
  frame_at (map_frame f h (take_frame f sym mm)) g =
    if decide (g = f) then h (mkFrame (frame_index (frame_at mm f)) sym 0) else frame_at mm g.
Proof.
  intros Hf Hg. unfold frame_at at 1. cbn [frames map_frame set_frames].
  rewrite frame_at_insert by (done || apply take_frame_wf).
  destruct (decide (g = f)) as [->|Hne].
  - rewrite take_frame_at by done. by rewrite decide_True.
  - pose proof (take_frame_at f sym g Hf Hg) as Ht. by rewrite decide_False in Ht.
Qed.

End Frames.

Lemma map_frame_free f g mm x : bit_free (map_frame f g mm) x = bit_free mm x.
Proof. done. Qed.

(** ** The operations, run *)

Definition with_mm (f : MemoryManager -> MemoryManager) (s : NodeMem) : NodeMem :=
  mkNodeMem (f (nm_mm s)) (nm_mem s) (nm_stats s).

Lemma update_frame_run f g s :
  mm_wf (nm_mm s) -> 0 <= f < 256 -> update_frame f g s = Val tt (with_mm (map_frame f g) s).
Proof.
  intros [Hfr _] Hf. unfold update_frame. run.
  destruct (array_get_in (frames (nm_mm s)) f) as (x & Hx & Hl); [lia|]. rewrite Hx. run.
  rewrite array_set_in by lia. run. unfold with_mm, map_frame, frame_at.
  by rewrite (list_lookup_total_correct _ _ _ Hl).
Qed.

Lemma bitmap_get mm f :
  mm_wf mm -> 0 <= f < 256 ->
  array_get (free_bitmap mm) (f ÷ 64) = Some (free_bitmap mm !!! Z.to_nat (f / 64)) /\
  forall w, array_set (free_bitmap mm) (f ÷ 64) w = Some (<[Z.to_nat (f / 64) := w]> (free_bitmap mm)).
Proof.
  intros [_ Hb] Hf. pose proof (word_range f Hf). destruct (quot_rem_64 f) as [-> _]; [lia|]. split.
  - destruct (array_get_in (free_bitmap mm) (f / 64)) as (x & Hx & Hl); [lia|].
    by rewrite Hx, (list_lookup_total_correct _ _ _ Hl).
  - intros w. apply array_set_in. lia.
Qed.

(** The first free frame of a list of candidates. *)
Fixpoint first_free (mm : MemoryManager) (fs : list Z) : option Z :=
  match fs with
  | [] => None
  | f :: fs' => if bit_free mm f then Some f else first_free mm fs'
  end.

Lemma first_free_spec mm fs :
  match first_free mm fs with
  | Some f => f ∈ fs /\ bit_free mm f = true
  | None => forall f, f ∈ fs -> bit_free mm f = false
  end.
Proof.
  induction fs as [|f fs IH]; simpl; [set_solver|].
  destruct (bit_free mm f) eqn:Hf; [split; [by left|done]|].
  destruct (first_free mm fs); [destruct IH; split; [by right|done]|].
  intros g [->|Hg]%elem_of_cons; auto.
Qed.

Lemma allocate_frame_run sym s :
  mm_wf (nm_mm s) ->
  allocate_frame sym s =
    match first_free (nm_mm s) (seqZ 0 MAX_PAGES) with
    | Some f => Val f (with_mm (take_frame f sym) s)
    | None => Val (-1) s
    end.
Proof.
  intros Hwf. unfold allocate_frame.
  assert (Hin : forall f, f ∈ seqZ 0 MAX_PAGES -> 0 <= f < 256)
    by (intros f Hf; apply elem_of_seqZ in Hf; unfold MAX_PAGES in Hf; lia).
  revert Hin. generalize (seqZ 0 MAX_PAGES). intros fs Hin. unfold bind at 1.
  induction fs as [|f fs IH]; [done|]. cbn [for_return first_free].
  assert (Hf : 0 <= f < 256) by (apply Hin; by left).
  destruct (bitmap_get _ f Hwf Hf) as [Hget Hset]. destruct (quot_rem_64 f) as [_ Hrem]; [lia|].
  unfold bind at 1. unfold bind at 1. cbn [gets]. rewrite Hget. cbn [lift ret bind].
  rewrite Hrem, land_bit by (pose proof (word_range f Hf); lia).
  fold (bit_free (nm_mm s) f). destruct (bit_free (nm_mm s) f).
  - rewrite Hset. run. run.
    run (apply update_frame_run; [split; cbn; rewrite ?length_insert; apply Hwf|done]).
    run (apply update_frame_run; [split; cbn; rewrite ?length_insert; apply Hwf|done]).
    cbn. unfold with_mm, map_frame, take_frame, set_frames, set_free_bitmap, frame_at; cbn.
    rewrite list_lookup_total_insert_eq, list_insert_insert_eq by (destruct Hwf; lia). done.
  - cbn [ret]. apply IH. intros g Hg. apply Hin. by right.
Qed.

(** ** The invariant of page accounting *)

(** The frames in [used] are distinct and are exactly those whose bit is clear;
the others belong to nobody. *)
Record mm_ok (mm : MemoryManager) (used : list Z) : Prop := {
  mm_shape : mm_wf mm;
  mm_nodup : NoDup used;
  mm_used : forall f, f ∈ used -> 0 <= f < 256;
  mm_free : forall f, 0 <= f < 256 -> (bit_free mm f = true <-> f ∉ used);
  mm_reset : forall f, 0 <= f < 256 -> f ∉ used ->
    owner_symbol (frame_at mm f) = -1 /\ node_count (frame_at mm f) = 0
}.

(** The page table [mem] of book [sym] maps its pages to the frames [ps]; all
of them are full but the last, which holds [nodes_in_curr_page] nodes. *)
Record table_ok (mm : MemoryManager) (sym : Z) (mem : SymbolMemory) (ps : list Z) : Prop := {
  table_pages : exists junk, virtual_pages mem = (Some <$> ps) ++ junk;
  table_length : length (virtual_pages mem) = 128%nat;
  table_count : page_count mem = Z.of_nat (length ps);
  table_nodes : if decide (ps = []) then nodes_in_curr_page mem = 0
                else 1 <= nodes_in_curr_page mem <= PAGE_SIZE;
  table_frames : forall k f, ps !! k = Some f ->
    owner_symbol (frame_at mm f) = sym /\
    node_count (frame_at mm f) =
      if decide (S k = length ps) then nodes_in_curr_page mem else PAGE_SIZE
}.

(** The page table alone: its pages are the frames [ps]. *)
Record page_map (mem : SymbolMemory) (ps : list Z) : Prop := {
  map_pages : exists junk, virtual_pages mem = (Some <$> ps) ++ junk;
  map_count : page_count mem = Z.of_nat (length ps)
}.

Lemma table_map mm sym mem ps : table_ok mm sym mem ps -> page_map mem ps.
Proof. by intros []. Qed.

(** How many nodes the pages of a book are charged with. *)
Definition charged (mem : SymbolMemory) : Z :=
  if page_count mem =? 0 then 0 else (page_count mem - 1) * PAGE_SIZE + nodes_in_curr_page mem.

(** Two managers agree on the frames of the other books. *)
Definition same_frames (fs : list Z) (mm mm' : MemoryManager) : Prop :=
  forall f, f ∈ fs -> frame_at mm' f = frame_at mm f.

Lemma table_ok_same_frames mm mm' sym mem ps :
  table_ok mm sym mem ps -> same_frames ps mm mm' -> table_ok mm' sym mem ps.
Proof.
  intros [] Hs. split; try done. intros k f Hk. rewrite Hs by (by eapply list_elem_of_lookup_2). eauto.
Qed.

Lemma mm_ok_take mm used f sym :
  mm_ok mm used -> 0 <= f < 256 -> f ∉ used -> mm_ok (take_frame f sym mm) (f :: used).
Proof.
  intros [Hwf Hnd Hu Hfree Hr] Hf Hn. split.
  - by apply take_frame_wf.
  - by apply NoDup_cons.
  - intros g [->|Hg]%elem_of_cons; auto.
  - intros g Hg. rewrite take_frame_free by done. case_decide as Hgf.
    + subst. set_solver.
    + rewrite Hfree by done. set_solver.
  - intros g Hg Hgn. rewrite take_frame_at by done.
    rewrite decide_False by set_solver. apply Hr; [done|set_solver].
Qed.

Lemma mm_ok_drop mm used f :
  mm_ok mm (f :: used) -> mm_ok (drop_frame f mm) used.
Proof.
  intros [Hwf Hnd Hu Hfree Hr]. apply NoDup_cons in Hnd as [Hn Hnd].
  assert (Hf : 0 <= f < 256) by (apply Hu; by left). split.
  - by apply drop_frame_wf.
  - done.
  - intros g Hg. apply Hu. by right.
  - intros g Hg. rewrite drop_frame_free by done. case_decide as Hgf.
    + subst. done.
    + rewrite Hfree by done. set_solver.
  - intros g Hg Hgn. rewrite drop_frame_at by done. case_decide; [done|].
    apply Hr; [done|set_solver].
Qed.

Lemma mm_ok_perm mm used used' : used ≡ₚ used' -> mm_ok mm used -> mm_ok mm used'.
Proof.
  intros Hp [Hwf Hnd Hu Hfree Hr].
  split; [done|by rewrite <- Hp|intros f Hf; apply Hu; by rewrite Hp|..]; intros f Hf.
  - rewrite Hfree by done. by rewrite Hp.
  - intros Hn. apply Hr; [done|]. by rewrite Hp.
Qed.

Lemma mm_ok_map mm used f g :
  mm_ok mm used -> f ∈ used -> mm_ok (map_frame f g mm) used.
Proof.
  intros [Hwf Hnd Hu Hfree Hr] Hf. split; [by apply map_frame_wf|done|done|done|].
  intros x Hx Hxn. rewrite map_frame_at by auto. rewrite decide_False by set_solver. auto.
Qed.

Lemma mm_ok_overflow mm used v : mm_ok mm used -> mm_ok (set_overflow_cnt v mm) used.
Proof. by intros [[] ? ? ? ?]. Qed.

Lemma mm_ok_rejects mm used v : mm_ok mm used -> mm_ok (set_hard_rejects v mm) used.
Proof. by intros [[] ? ? ? ?]. Qed.

(** Only frame [f] changed, and it is none of [fs]. *)
Lemma same_frames_except mm mm' f fs :
  (forall g, 0 <= g < 256 -> g <> f -> frame_at mm' g = frame_at mm g) ->
  (forall g, g ∈ fs -> 0 <= g < 256) -> f ∉ fs -> same_frames fs mm mm'.
Proof. intros Hs Hr Hn g Hg. apply Hs; [auto|]. by intros ->. Qed.

Definition bump_stats (f : SimStats -> SimStats) (s : NodeMem) : NodeMem :=
  mkNodeMem (nm_mm s) (nm_mem s) (f (nm_stats s)).

Lemma translate_run s ps k :
  page_map (nm_mem s) ps -> (k < length ps)%nat ->
  translate (Z.of_nat k) s = Val (ps !!! k) (bump_stats (add_cycles PAGE_WALK_CYCLES) s).
Proof.
  intros [[junk Hv] Hc] Hk. unfold translate. run. run. cbn [nm_mem]. rewrite Hc.
  replace (Z.of_nat k <? Z.of_nat (length ps)) with true by lia.
  rewrite Hv, array_get_nat, lookup_app_l by (by rewrite length_fmap).
  by rewrite list_lookup_fmap, (list_lookup_lookup_total_lt ps k Hk).
Qed.

Lemma translate_out s ps k :
  page_map (nm_mem s) ps -> Z.of_nat (length ps) <= k ->
  translate k s = Val (-1) (bump_stats (add_cycles PAGE_WALK_CYCLES) s).
Proof.
  intros [_ Hc] Hk. unfold translate. run. run. cbn [nm_mem]. rewrite Hc.
  by replace (k <? Z.of_nat (length ps)) with false by lia.
Qed.

Lemma free_frame_run s ps k :
  mm_wf (nm_mm s) -> page_map (nm_mem s) ps -> (k < length ps)%nat ->
  0 <= ps !!! k < 256 ->
  free_frame (Z.of_nat k) s =
    Val tt (with_mm (drop_frame (ps !!! k)) (bump_stats (add_cycles PAGE_WALK_CYCLES) s)).
Proof.
  intros Hwf Ht Hk Hf. unfold free_frame. run (by eapply translate_run).
  set (f := ps !!! k) in *. replace (f <? 0) with false by lia. run. cbn [nm_mm bump_stats].
  destruct (bitmap_get _ f Hwf Hf) as [Hget Hset]. destruct (quot_rem_64 f) as [_ ->]; [lia|].
  rewrite Hget. run. rewrite Hset. run. run.
  run (apply update_frame_run; [split; cbn; rewrite ?length_insert; apply Hwf|done]).
  rewrite update_frame_run by (split; cbn; rewrite ?length_insert; apply Hwf || done || lia).
  cbn. unfold with_mm, map_frame, drop_frame, set_frames, set_free_bitmap, frame_at; cbn.
  rewrite list_lookup_total_insert_eq, list_insert_insert_eq by (destruct Hwf; lia). done.
Qed.

(** Accounting leaves the number of trades and the overflow maximum alone, and adds at most
[k] writes and accesses of the overflow page. *)
Record stats_frame (k : Z) (st st' : SimStats) : Prop := {
  sf_trades : total_trades st' = total_trades st;
  sf_max : overflow_max st' = overflow_max st;
  sf_reads : total_reads st' = total_reads st;
  sf_writes : 0 <= total_writes st' - total_writes st <= k;
  sf_overflow : 0 <= overflow_accesses st' - overflow_accesses st <= k;
  sf_cycles : 0 <= total_cycles st' - total_cycles st <= 6
}.

Ltac solve_stats := split; cbn; unfold PAGE_WALK_CYCLES, OVERFLOW_PENALTY_CYCLES; lia.

(** The outcome of an accounting step of book [sym] among the frames [others]
of the other books. *)
Record step_ok (others : list Z) (sym : Z) (mm mm' : MemoryManager) (mem' : SymbolMemory)
    (ps' : list Z) : Prop := {
  step_mm : mm_ok mm' (ps' ++ others);
  step_table : table_ok mm' sym mem' ps';
  step_others : same_frames others mm mm'
}.

Section Accounting.
Variables (others ps : list Z) (sym : Z) (s : NodeMem).
Hypothesis Hmm : mm_ok (nm_mm s) (ps ++ others).
Hypothesis Ht : table_ok (nm_mm s) sym (nm_mem s) ps.

Lemma page_range k : (k < length ps)%nat -> 0 <= ps !!! k < 256.
Proof.
  intros Hk. apply (mm_used _ _ Hmm), elem_of_app. left. by apply list_elem_of_lookup_total_2.
Qed.

Lemma page_private k : (k < length ps)%nat -> ps !!! k ∉ others.
Proof.
  intros Hk Hin. pose proof (mm_nodup _ _ Hmm) as (_ & Hd & _)%NoDup_app.
  eapply Hd; [|exact Hin]. by apply list_elem_of_lookup_total_2.
Qed.

(** Changing the last page's node count and its frame's to [n]. *)
Lemma set_last_count n :
  ps <> [] -> 1 <= n <= PAGE_SIZE ->
  let last := ps !!! (length ps - 1)%nat in
  forall g, node_count (g (frame_at (nm_mm s) last)) = n ->
    owner_symbol (g (frame_at (nm_mm s) last)) = owner_symbol (frame_at (nm_mm s) last) ->
    step_ok others sym (nm_mm s) (map_frame last g (nm_mm s)) (set_nodes n (nm_mem s)) ps.
Proof.
  intros Hne Hn last g Hg Ho. assert (Hk : (length ps - 1 < length ps)%nat) by (destruct ps; [done|simpl; lia]).
  pose proof (page_range _ Hk) as Hr. fold last in Hr.
  assert (Hin : last ∈ ps) by by apply list_elem_of_lookup_total_2.
  split.
  - apply mm_ok_map; [done|]. apply elem_of_app. by left.
  - destruct Ht as [Hv Hl Hc Hnodes Hf]. split; try done; cbn.
    + by rewrite decide_False.
    + intros k f Hkf. pose proof (lookup_lt_Some _ _ _ Hkf).
      assert (Hf' : f ∈ ps) by by eapply list_elem_of_lookup_2.
      rewrite map_frame_at; [|apply (mm_shape _ _ Hmm)|done|].
      2: { apply (mm_used _ _ Hmm), elem_of_app. by left. }
      destruct (Hf _ _ Hkf) as [Hfo Hfn]. destruct (decide (f = last)) as [Hfl|Hfl].
      * rewrite Hfl in Hfo, Hkf. rewrite Ho, Hg. assert (k = (length ps - 1)%nat) as ->.
        { pose proof (mm_nodup _ _ Hmm) as (Hnd & _ & _)%NoDup_app.
          eapply NoDup_lookup; [exact Hnd|exact Hkf|]. by apply list_lookup_lookup_total_lt. }
        split; [done|]. by rewrite decide_True by lia.
      * split; [done|]. rewrite Hfn. assert (Hk' : S k <> length ps).
        { intros Heq. apply Hfl. unfold last. replace (length ps - 1)%nat with k by lia.
          symmetry. by apply list_lookup_total_correct. }
        by rewrite !decide_False by done.
  - eapply (same_frames_except _ _ last).
    + intros h Hh Hne'. rewrite map_frame_at by first [done|exact (mm_shape _ _ Hmm)]. by rewrite decide_False.
    + intros h Hh. apply (mm_used _ _ Hmm), elem_of_app. by right.
    + by apply page_private.
Qed.

End Accounting.

(** Dropping the last page: the table keeps the others, all full. *)
Lemma drop_last_page others sym mm mm1 mem ps0 f :
  mm_ok mm1 ((ps0 ++ [f]) ++ others) -> same_frames (ps0 ++ others) mm mm1 ->
  (forall k g, ps0 !! k = Some g ->
     owner_symbol (frame_at mm g) = sym /\ node_count (frame_at mm g) = PAGE_SIZE) ->
  (exists junk, virtual_pages mem = (Some <$> ps0) ++ junk) ->
  length (virtual_pages mem) = 128%nat ->
  page_count mem = Z.of_nat (length ps0) ->
  nodes_in_curr_page mem = (if decide (ps0 = []) then 0 else PAGE_SIZE) ->
  step_ok others sym mm (drop_frame f mm1) mem ps0.
Proof.
  intros Hmm Hsame Hfull Hvp Hlen Hpc Hnodes.
  assert (Hperm : (ps0 ++ [f]) ++ others ≡ₚ f :: ps0 ++ others)
    by (rewrite <- app_assoc; simpl; by rewrite Permutation_middle).
  pose proof (mm_ok_perm _ _ _ Hperm Hmm) as Hmm1.
  pose proof (mm_nodup _ _ Hmm1) as [Hn _]%NoDup_cons.
  assert (Hr : forall g, g ∈ f :: ps0 ++ others -> 0 <= g < 256) by apply Hmm1.
  assert (Hs : same_frames (ps0 ++ others) mm (drop_frame f mm1)).
  { intros g Hg. rewrite drop_frame_at; [|apply Hmm1|apply Hr; by left|apply Hr; by right].
    rewrite decide_False by (by intros ->). by apply Hsame. }
  split.
  - by apply mm_ok_drop.
  - split; [done..|rewrite Hnodes; by repeat case_decide|].
    intros k g Hk. rewrite Hs by (apply elem_of_app; left; by eapply list_elem_of_lookup_2).
    destruct (Hfull _ _ Hk) as [-> ->]. split; [done|]. rewrite Hnodes.
    rewrite (decide_False (P := ps0 = [])) by (intros ->; by rewrite lookup_nil in Hk).
    by destruct (decide (S k = length ps0)).
  - intros g Hg. apply Hs, elem_of_app. by right.
Qed.

(** ** Releasing and placing a node *)

(** How a step changed the charge of the book. *)
Definition last_page (ps : list Z) : Z := ps !!! (length ps - 1)%nat.

Lemma release_empty sym s :
  table_ok (nm_mm s) sym (nm_mem s) [] -> release_node s = Val tt s.
Proof.
  intros [_ _ _ Hn _]. simpl in Hn. unfold release_node. run. by rewrite Hn.
Qed.

(** The state once the last page has one node less. *)
Definition one_less (ps : list Z) (s : NodeMem) : NodeMem :=
  mkNodeMem (map_frame (last_page ps) (fun f => set_node_count (node_count f - 1) f) (nm_mm s))
    (set_nodes (nodes_in_curr_page (nm_mem s) - 1) (nm_mem s))
    (add_cycles PAGE_WALK_CYCLES (nm_stats s)).

(** [release_node] up to the test of the page's node count. *)
Lemma release_head others sym s ps :
  mm_ok (nm_mm s) (ps ++ others) -> table_ok (nm_mm s) sym (nm_mem s) ps -> ps <> [] ->
  let n := Z.of_nat (length ps - 1) in
  release_node s =
    (if nodes_in_curr_page (nm_mem s) - 1 =? 0 then
       free_frame n ;;!
       update_mem (set_page_count n) ;;!
       if n >? 0 then update_mem (set_nodes PAGE_SIZE) else update_mem (set_nodes 0)
     else ret tt) (one_less ps s).
Proof.
  intros Hmm Ht Hne n. pose proof Ht as [_ _ Hc Hn Hf]. rewrite decide_False in Hn by done.
  assert (Hk : (length ps - 1 < length ps)%nat) by (destruct ps; [done|simpl; lia]).
  pose proof (page_range _ _ _ Hmm _ Hk) as Hr. fold (last_page ps) in Hr.
  unfold release_node. run. replace (nodes_in_curr_page (nm_mem s) >? 0) with true by lia.
  run. rewrite Hc. replace (Z.of_nat (length ps) >? 0) with true by lia.
  replace (Z.of_nat (length ps) - 1) with n by lia.
  run (apply (translate_run _ ps); [by destruct Ht|done]). fold (last_page ps).
  replace (last_page ps >=? 0) with true by lia.
  run (apply update_frame_run; [apply Hmm|done]). run. cbn [nm_mm with_mm bump_stats].
  assert (Hget : array_get (frames (map_frame (last_page ps)
      (fun f => set_node_count (node_count f - 1) f) (nm_mm s))) (last_page ps) =
    Some (set_node_count (node_count (frame_at (nm_mm s) (last_page ps)) - 1)
            (frame_at (nm_mm s) (last_page ps)))).
  { unfold array_get. replace (0 <=? last_page ps) with true by lia. apply list_lookup_insert_eq.
    pose proof (wf_frames _ (mm_shape _ _ Hmm)). lia. }
  rewrite Hget. run. cbn [node_count set_node_count].
  destruct (Hf (length ps - 1)%nat (last_page ps)) as [_ Hcount];
    [by apply list_lookup_lookup_total_lt|].
  rewrite decide_True in Hcount by lia. by rewrite Hcount.
Qed.

(** Releasing a node of a non-empty page table takes one node off the charge
and keeps every invariant; the page goes when its last node does. *)
Lemma release_node_ok others sym s ps :
  mm_ok (nm_mm s) (ps ++ others) -> table_ok (nm_mm s) sym (nm_mem s) ps ->
  exists mm' mem' st' ps', release_node s = Val tt (mkNodeMem mm' mem' st') /\
    step_ok others sym (nm_mm s) mm' mem' ps' /\
    charged mem' = Z.max 0 (charged (nm_mem s) - 1) /\
    overflow mm' = overflow (nm_mm s) /\ hard_rejects mm' = hard_rejects (nm_mm s) /\
    stats_frame 0 (nm_stats s) st'.
Proof.
  intros Hmm Ht. destruct (decide (ps = [])) as [->|Hne].
  { exists (nm_mm s), (nm_mem s), (nm_stats s), []. rewrite (release_empty sym) by done.
    split; [by destruct s|]. split; [done|]. destruct Ht as [_ _ Hc _ _].
    unfold charged. rewrite Hc. do 3 (split; [done|]). solve_stats. }
  rewrite (release_head others sym s ps) by done. cbv zeta.
  pose proof Ht as [[junk Hvp] Hlen Hc Hn Hf]. rewrite decide_False in Hn by done.
  assert (Hk : (length ps - 1 < length ps)%nat) by (destruct ps; [done|simpl; lia]).
  destruct (Z.eqb_spec (nodes_in_curr_page (nm_mem s) - 1) 0) as [H1|H1].
  - run (apply (free_frame_run _ ps);
      [apply map_frame_wf, Hmm|split; [by exists junk|done]|done|by eapply page_range]).
    fold (last_page ps). run.
    destruct (exists_last Hne) as (ps0 & f & Eps).
    assert (Hlast : last_page ps = f).
    { unfold last_page. rewrite Eps, length_app; simpl. rewrite Nat.add_sub.
      by rewrite lookup_total_app_r, Nat.sub_diag by lia. }
    assert (Hlen0 : (length ps - 1)%nat = length ps0) by (rewrite Eps, length_app; simpl; lia).
    exists (drop_frame f (nm_mm (one_less ps s))),
      (set_nodes (if decide (ps0 = []) then 0 else PAGE_SIZE)
         (set_page_count (Z.of_nat (length ps0)) (nm_mem (one_less ps s)))),
      (add_cycles PAGE_WALK_CYCLES (nm_stats (one_less ps s))), ps0.
    rewrite Hlen0, Hlast. split; [|split; [|split; [|do 2 (split; [done|]); solve_stats]]].
    + destruct ps0; [done|]. by rewrite decide_False.
    + apply drop_last_page; cbn; rewrite ?Hlast; try done.
      * rewrite <- Eps, <- Hlast. apply mm_ok_map; [done|]. apply elem_of_app. left.
        by apply list_elem_of_lookup_total_2.
      * intros g Hg. pose proof (mm_nodup _ _ Hmm) as Hnd. rewrite Eps, <- app_assoc in Hnd.
        assert (g <> f /\ g ∈ ps ++ others) as [Hgf Hgin].
        { rewrite Eps. simpl in Hnd. apply NoDup_app in Hnd as (_ & Hd & Hnd).
          apply NoDup_cons in Hnd as [Hfo _]. split; [|set_solver]. intros ->.
          apply elem_of_app in Hg as [Hg|Hg]; [|done]. apply (Hd _ Hg). by left. }
        rewrite map_frame_at; [by rewrite decide_False|apply Hmm|..];
          [|by apply (mm_used _ _ Hmm)].
        rewrite <- Hlast. by eapply page_range.
      * intros k g Hkg. pose proof (lookup_lt_Some _ _ _ Hkg).
        destruct (Hf k g) as [? Hcnt]; [by rewrite Eps; apply lookup_app_l_Some|].
        by rewrite decide_False in Hcnt by (rewrite Eps, length_app; simpl; lia).
      * rewrite Hvp, Eps, fmap_app, <- app_assoc. by eexists.
    + unfold charged. cbn. rewrite Hc, <- Hlen0.
      replace (Z.of_nat (length ps) =? 0) with false by lia.
      destruct ps0 as [|x ps0]; [rewrite Hlen0; simpl in *; unfold PAGE_SIZE; lia|].
      rewrite decide_False by done. cbn [length] in Hlen0. unfold PAGE_SIZE.
      destruct (Z.eqb_spec (Z.of_nat (length ps - 1)) 0); lia.
  - exists (nm_mm (one_less ps s)), (nm_mem (one_less ps s)), (nm_stats (one_less ps s)), ps.
    split; [done|]. split; [|split; [|do 2 (split; [done|]); solve_stats]].
    + apply (set_last_count others ps sym s Hmm Ht); [done|unfold PAGE_SIZE in *; lia| |done].
      cbn. fold (last_page ps). destruct (Hf (length ps - 1)%nat (last_page ps)) as [_ ->];
        [by apply list_lookup_lookup_total_lt|]. by rewrite decide_True by lia.
    + unfold charged. cbn. rewrite Hc. replace (Z.of_nat (length ps) =? 0) with false by lia.
      unfold PAGE_SIZE in *. lia.
Qed.

Lemma frame_at_same_frames fs mm mm' : frames mm' = frames mm -> same_frames fs mm mm'.
Proof. intros Hf g _. unfold frame_at. by rewrite Hf. Qed.

Lemma table_ok_frames mm mm' sym mem ps :
  frames mm' = frames mm -> table_ok mm sym mem ps -> table_ok mm' sym mem ps.
Proof. intros Hf Ht. eapply table_ok_same_frames; [done|]. by apply frame_at_same_frames. Qed.

(** [post_trade_cleanup] also takes one node off the shared overflow page. *)
Lemma post_trade_cleanup_ok others sym s ps :
  mm_ok (nm_mm s) (ps ++ others) -> table_ok (nm_mm s) sym (nm_mem s) ps ->
  exists mm' mem' st' ps', post_trade_cleanup s = Val tt (mkNodeMem mm' mem' st') /\
    step_ok others sym (nm_mm s) mm' mem' ps' /\
    charged mem' = Z.max 0 (charged (nm_mem s) - 1) /\
    (0 <= cnt (overflow (nm_mm s)) -> cnt (overflow mm') = Z.max 0 (cnt (overflow (nm_mm s)) - 1)) /\
    hard_rejects mm' = hard_rejects (nm_mm s) /\ stats_frame 0 (nm_stats s) st'.
Proof.
  intros Hmm Ht. unfold post_trade_cleanup. run.
  destruct (Z.gtb_spec (cnt (overflow (nm_mm s))) 0) as [Hgt|Hle].
  - run.
    destruct (release_node_ok others sym
      (with_mm (set_overflow_cnt (cnt (overflow (nm_mm s)) - 1)) s) ps)
      as (mm' & mem' & st' & ps' & Hrun & Hst & Hch & Hov & Hhr & Hstats);
      [by apply mm_ok_overflow|by apply (table_ok_frames (nm_mm s))|].
    exists mm', mem', st', ps'. split; [exact Hrun|]. destruct Hst as [? ? Hsame].
    split; [by split|]. split; [done|]. split; [rewrite Hov; cbn; lia|done].
  - run. destruct (release_node_ok others sym s ps Hmm Ht)
      as (mm' & mem' & st' & ps' & Hrun & Hst & Hch & Hov & Hhr & Hstats).
    exists mm', mem', st', ps'. do 3 (split; [done|]). split; [rewrite Hov; lia|done].
Qed.

(** No page of the book has room, and it can get no other. *)
Definition out_of_pages (others ps : list Z) (mem : SymbolMemory) : Prop :=
  (ps = [] \/ nodes_in_curr_page mem = PAGE_SIZE) /\
  (Z.of_nat (length ps) = MAX_PAGES_PER_SYMBOL \/ forall f, 0 <= f < 256 -> f ∈ ps ++ others).

(** What [place_node] does, by the placement it reports. *)
Definition placed (r : placement) (others ps : list Z) (mm mm' : MemoryManager)
    (mem mem' : SymbolMemory) (ps' : list Z) : Prop :=
  match r with
  | CurrentPage => ps' = ps /\ charged mem' = charged mem + 1 /\
      overflow mm' = overflow mm /\ hard_rejects mm' = hard_rejects mm
  | NewPage => (exists f, ps' = ps ++ [f] /\ f ∉ ps ++ others) /\ charged mem' = charged mem + 1 /\
      overflow mm' = overflow mm /\ hard_rejects mm' = hard_rejects mm
  | Overflow => ps' = ps /\ mem' = mem /\ out_of_pages others ps mem /\
      cnt (overflow mm') = cnt (overflow mm) + 1 /\ cnt (overflow mm) < OVERFLOW_PAGE_SIZE /\
      hard_rejects mm' = hard_rejects mm
  | Rejected => ps' = ps /\ mem' = mem /\ out_of_pages others ps mem /\
      overflow mm' = overflow mm /\ OVERFLOW_PAGE_SIZE <= cnt (overflow mm) /\
      hard_rejects mm' = hard_rejects mm + 1
  | NoFrame => False
  end.

Section Place.
Variables (others ps : list Z) (sym : Z) (s : NodeMem).
Hypothesis Hmm : mm_ok (nm_mm s) (ps ++ others).
Hypothesis Ht : table_ok (nm_mm s) sym (nm_mem s) ps.

(** Room in the current page. *)
Lemma place_current :
  ps <> [] -> nodes_in_curr_page (nm_mem s) < PAGE_SIZE ->
  exists mm' mem' st', place_node sym s = Val CurrentPage (mkNodeMem mm' mem' st') /\
    step_ok others sym (nm_mm s) mm' mem' ps /\
    placed CurrentPage others ps (nm_mm s) mm' (nm_mem s) mem' ps /\ stats_frame 1 (nm_stats s) st'.
Proof.
  intros Hne Hroom. pose proof Ht as [_ _ Hc Hn Hf]. rewrite decide_False in Hn by done.
  assert (Hk : (length ps - 1 < length ps)%nat) by (destruct ps; [done|simpl; lia]).
  pose proof (page_range _ _ _ Hmm _ Hk) as Hr. fold (last_page ps) in Hr.
  unfold place_node. run. rewrite Hc.
  replace (Z.of_nat (length ps) >? 0) with true by lia.
  replace (nodes_in_curr_page (nm_mem s) <? PAGE_SIZE) with true by lia. cbn [andb].
  replace (Z.of_nat (length ps) - 1) with (Z.of_nat (length ps - 1)) by lia.
  run (apply (translate_run _ ps); [by eapply table_map|done]). fold (last_page ps).
  replace (last_page ps <? 0) with false by lia. run.
  run (apply update_frame_run; [apply Hmm|done]). run.
  eexists _, _, _. split; [reflexivity|]. cbn. split.
  - apply (set_last_count others ps sym s Hmm Ht); [done|unfold PAGE_SIZE in *; lia| |done].
    cbn. fold (last_page ps). destruct (Hf (length ps - 1)%nat (last_page ps)) as [_ ->];
      [by apply list_lookup_lookup_total_lt|]. by rewrite decide_True by lia.
  - split; [|solve_stats]. split; [done|]. split; [|done]. unfold charged. cbn. rewrite Hc.
    destruct (Z.eqb_spec (Z.of_nat (length ps)) 0); lia.
Qed.

(** A frame that none of the books uses becomes the last page. *)
Lemma place_new f :
  ps = [] \/ nodes_in_curr_page (nm_mem s) = PAGE_SIZE ->
  Z.of_nat (length ps) < MAX_PAGES_PER_SYMBOL ->
  first_free (nm_mm s) (seqZ 0 MAX_PAGES) = Some f ->
  exists mm' mem' st', place_node sym s = Val NewPage (mkNodeMem mm' mem' st') /\
    step_ok others sym (nm_mm s) mm' mem' (ps ++ [f]) /\
    placed NewPage others ps (nm_mm s) mm' (nm_mem s) mem' (ps ++ [f]) /\ stats_frame 1 (nm_stats s) st'.
Proof.
  intros Hfull Hroom Hff. pose proof Ht as [[junk Hv] Hl Hc Hn Hf]. unfold MAX_PAGES_PER_SYMBOL in *.
  pose proof (first_free_spec (nm_mm s) (seqZ 0 MAX_PAGES)) as Hspec. rewrite Hff in Hspec.
  destruct Hspec as [Hin Hfree]. apply elem_of_seqZ in Hin. unfold MAX_PAGES in Hin.
  assert (Hn' : f ∉ ps ++ others) by by apply (mm_free _ _ Hmm).
  unfold place_node. run. rewrite Hc.
  replace ((Z.of_nat (length ps) >? 0) && (nodes_in_curr_page (nm_mem s) <? PAGE_SIZE)) with false
    by (destruct Hfull as [-> | ->]; [done|by rewrite andb_false_r]).
  unfold MAX_PAGES_PER_SYMBOL. replace (Z.of_nat (length ps) <? 128) with true by lia.
  run (rewrite allocate_frame_run, Hff by apply Hmm; reflexivity).
  replace (f >=? 0) with true by lia. rewrite array_set_nat by (rewrite Hl; lia). run. run. run. run.
  run (apply update_frame_run; [apply take_frame_wf, Hmm|lia]). run. run.
  eexists _, _, _. split; [reflexivity|]. cbn. split; [|split; [split; [by exists f|]|solve_stats]].
  - split.
    + eapply (mm_ok_perm _ (f :: ps ++ others)); [by rewrite <- app_assoc; simpl; rewrite Permutation_middle|].
      apply mm_ok_map; [by apply mm_ok_take; [|lia|]|by left].
    + split; cbn; [|by rewrite length_insert|rewrite length_app; simpl; lia| |].
      * rewrite Hv, insert_app_r_alt, length_fmap, Nat.sub_diag by (by rewrite length_fmap).
        rewrite Hv, length_app, length_fmap in Hl. destruct junk as [|x junk]; [simpl in Hl; lia|].
        exists junk. by rewrite fmap_app, <- app_assoc.
      * rewrite decide_False by (by destruct ps). unfold PAGE_SIZE. lia.
      * intros k g Hk. rewrite length_app. cbn [length].
        apply lookup_app_Some in Hk as [Hk|[Hge Hk]].
        -- pose proof (lookup_lt_Some _ _ _ Hk).
           assert (Hgin : g ∈ ps ++ others) by (apply elem_of_app; left; by eapply list_elem_of_lookup_2).
           rewrite fresh_frame_at; [|apply Hmm|lia|by apply (mm_used _ _ Hmm)].
           rewrite decide_False by (by intros ->). destruct (Hf _ _ Hk) as [-> ->].
           split; [done|]. rewrite (decide_False (P := S k = (length ps + 1)%nat)) by lia.
           destruct (decide (S k = length ps)); [|done]. by destruct Hfull as [->|].
        -- apply list_lookup_singleton_Some in Hk as [Hk ->].
           rewrite fresh_frame_at by (lia || apply Hmm). by rewrite !decide_True by lia.
    + intros g Hg. assert (Hgin : g ∈ ps ++ others) by (apply elem_of_app; by right).
      rewrite fresh_frame_at; [|apply Hmm|lia|by apply (mm_used _ _ Hmm)].
      by rewrite decide_False by (by intros ->).
  - split; [|done]. unfold charged. cbn. rewrite Hc.
    destruct (Z.eqb_spec (Z.of_nat (length ps) + 1) 0); [lia|].
    destruct (Z.eqb_spec (Z.of_nat (length ps)) 0); [lia|].
    destruct Hfull as [->| ->]; [done|lia].
Qed.

(** No page: the shared overflow page, or nothing. *)
Lemma place_none :
  ps = [] \/ nodes_in_curr_page (nm_mem s) = PAGE_SIZE ->
  Z.of_nat (length ps) = MAX_PAGES_PER_SYMBOL \/
    (Z.of_nat (length ps) < MAX_PAGES_PER_SYMBOL /\
     first_free (nm_mm s) (seqZ 0 MAX_PAGES) = None) ->
  exists r mm' mem' st', place_node sym s = Val r (mkNodeMem mm' mem' st') /\
    step_ok others sym (nm_mm s) mm' mem' ps /\
    placed r others ps (nm_mm s) mm' (nm_mem s) mem' ps /\ stats_frame 1 (nm_stats s) st'.
Proof.
  intros Hfull Hnone. pose proof Ht as [_ _ Hc _ _].
  assert (Hout : out_of_pages others ps (nm_mem s)).
  { split; [done|]. destruct Hnone as [?|[_ Hff]]; [by left|right]. intros f Hf.
    pose proof (first_free_spec (nm_mm s) (seqZ 0 MAX_PAGES)) as Hspec. rewrite Hff in Hspec.
    destruct (decide (f ∈ ps ++ others)) as [|Hn]; [done|exfalso].
    apply (mm_free _ _ Hmm f Hf) in Hn. rewrite Hspec in Hn; [done|].
    apply elem_of_seqZ. unfold MAX_PAGES. lia. }
  unfold place_node. run. rewrite Hc.
  replace ((Z.of_nat (length ps) >? 0) && (nodes_in_curr_page (nm_mem s) <? PAGE_SIZE)) with false
    by (destruct Hfull as [-> | ->]; [done|by rewrite andb_false_r]).
  erewrite (bind_val _ _ _ (-1) s); [|destruct Hnone as [-> | [Hlt Hff]]; [done|]];
    [|replace (Z.of_nat (length ps) <? MAX_PAGES_PER_SYMBOL) with true by lia;
      by rewrite allocate_frame_run, Hff by apply Hmm].
  cbn [Z.geb Z.compare]. run.
  destruct (Z.ltb_spec (cnt (overflow (nm_mm s))) OVERFLOW_PAGE_SIZE) as [Hlt|Hge].
  - run. run. run. run. eexists Overflow, _, _, _. split; [reflexivity|]. cbn. split; [split|].
    + by apply mm_ok_overflow.
    + by apply (table_ok_frames (nm_mm s)).
    + by apply frame_at_same_frames.
    + split; [done|solve_stats].
  - run. run. eexists Rejected, _, _, _. split; [reflexivity|]. cbn. split; [split|].
    + by apply mm_ok_rejects.
    + by apply (table_ok_frames (nm_mm s)).
    + by apply frame_at_same_frames.
    + split; [done|solve_stats].
Qed.

(** [place_node] keeps every invariant and always finds where to charge the
order, unless the book is out of pages and the overflow page is full. *)
Lemma place_node_ok :
  exists r mm' mem' st' ps', place_node sym s = Val r (mkNodeMem mm' mem' st') /\
    step_ok others sym (nm_mm s) mm' mem' ps' /\
    placed r others ps (nm_mm s) mm' (nm_mem s) mem' ps' /\ stats_frame 1 (nm_stats s) st'.
Proof.
  pose proof Ht as [_ Hl Hc Hn _].
  assert (Hmax : Z.of_nat (length ps) <= MAX_PAGES_PER_SYMBOL).
  { destruct Ht as [[junk Hv] _ _ _ _]. rewrite Hv, length_app, length_fmap in Hl.
    unfold MAX_PAGES_PER_SYMBOL. lia. }
  destruct (decide (ps <> [] /\ nodes_in_curr_page (nm_mem s) < PAGE_SIZE)) as [[Hne Hroom]|Hfull].
  { destruct (place_current Hne Hroom) as (mm' & mem' & st' & ?). by eexists _, mm', mem', st', ps. }
  assert (Hfull' : ps = [] \/ nodes_in_curr_page (nm_mem s) = PAGE_SIZE).
  { destruct (decide (ps = [])); [by left|right]. apply Decidable.not_and in Hfull.
    - destruct Hfull; [done|lia].
    - unfold Decidable.decidable. destruct (decide (ps <> [])); tauto. }
  destruct (decide (Z.of_nat (length ps) = MAX_PAGES_PER_SYMBOL)) as [Heq|Hneq].
  { destruct place_none as (r & mm' & mem' & st' & ?); [done|by left|]. by eexists r, mm', mem', st', ps. }
  destruct (first_free (nm_mm s) (seqZ 0 MAX_PAGES)) as [f|] eqn:Hff.
  - destruct (place_new f) as (mm' & mem' & st' & ?); [done|lia|done|].
    by eexists _, mm', mem', st', (ps ++ [f]).
  - destruct place_none as (r & mm' & mem' & st' & ?); [done|right; split; [lia|done]|].
    by eexists r, mm', mem', st', ps.
Qed.

End Place.

(** ** The initial state *)

Lemma initial_mm_ok : mm_ok create_memory_manager [].
Proof.
  split.
  - split; [|done]. cbn [frames create_memory_manager]. by rewrite length_fmap, length_seqZ.
  - constructor.
  - set_solver.
  - intros f Hf. split; [set_solver|intros _]. pose proof (word_range f Hf) as [Hw Hb].
    unfold bit_free. cbn [free_bitmap create_memory_manager].
    change (Z.to_nat BITMAP_WORDS) with 4%nat. rewrite lookup_total_replicate_2 by lia.
    unfold u64. rewrite Z.mod_pow2_bits_low, Z.lnot_spec, Z.bits_0 by lia. done.
  - intros f Hf _. unfold frame_at. cbn [frames create_memory_manager].
    rewrite list_lookup_total_alt, list_lookup_fmap, lookup_seqZ_lt by (unfold MAX_PAGES; lia).
    done.
Qed.

Definition empty_memory : SymbolMemory :=
  mkSymMem (replicate (Z.to_nat MAX_PAGES_PER_SYMBOL) None) 0 0.

Lemma empty_table_ok mm sym : table_ok mm sym empty_memory [].
Proof. split; try done. by exists (replicate (Z.to_nat MAX_PAGES_PER_SYMBOL) None). Qed.

(** ** Properties *)

Lemma first_free_least mm a n f :
  first_free mm (seqZ a n) = Some f -> forall g, a <= g < f -> bit_free mm g = false.
Proof.
  intros Hf g Hg. destruct (Z.le_gt_cases n 0) as [Hn|Hn].
  { by rewrite seqZ_nil in Hf. }
  revert a Hf Hg. pattern n. apply Z_lt_induction with (x := n); [|lia]. clear n Hn.
  intros n IH a Hf Hg. destruct (Z.le_gt_cases n 0) as [Hn|Hn]; [by rewrite seqZ_nil in Hf|].
  rewrite seqZ_cons in Hf by lia. cbn [first_free] in Hf. destruct (bit_free mm a) eqn:Ha; [simplify_eq; lia|].
  destruct (decide (g = a)) as [->|]; [done|]. apply (IH (Z.pred n) ltac:(lia) (Z.succ a)); [done|lia].
Qed.

(** C15: [allocate_frame] hands out the least frame that nobody uses, marks it
used and owned by the symbol with no node, and leaves every other frame alone;
when all 256 frames are used it returns -1 and changes nothing. *)
Theorem allocate_frame_correct sym s used :
  mm_ok (nm_mm s) used ->
  (exists f s', allocate_frame sym s = Val f s' /\ 0 <= f < 256 /\ f ∉ used /\
     (forall g, 0 <= g < f -> g ∈ used) /\
     mm_ok (nm_mm s') (f :: used) /\ nm_mem s' = nm_mem s /\ nm_stats s' = nm_stats s /\
     frame_at (nm_mm s') f = mkFrame (frame_index (frame_at (nm_mm s) f)) sym 0 /\
     same_frames used (nm_mm s) (nm_mm s')) \/
  (allocate_frame sym s = Val (-1) s /\ forall f, 0 <= f < 256 -> f ∈ used).
Proof.
  intros Hmm. pose proof (mm_shape _ _ Hmm) as Hwf. rewrite allocate_frame_run by done.
  pose proof (first_free_spec (nm_mm s) (seqZ 0 MAX_PAGES)) as Hspec.
  assert (Hused : forall g, 0 <= g < 256 -> bit_free (nm_mm s) g = false -> g ∈ used).
  { intros g Hg Hb. destruct (decide (g ∈ used)) as [|Hn]; [done|].
    apply (mm_free _ _ Hmm g Hg) in Hn. congruence. }
  destruct (first_free (nm_mm s) (seqZ 0 MAX_PAGES)) as [f|] eqn:Hff; [left|right].
  - destruct Hspec as [Hin Hfree]. apply elem_of_seqZ in Hin. unfold MAX_PAGES in Hin.
    assert (Hn : f ∉ used) by (by apply (mm_free _ _ Hmm); [lia|]).
    exists f, (with_mm (take_frame f sym) s). split; [done|]. split; [lia|]. split; [done|].
    split; [intros g Hg; apply Hused; [lia|by eapply first_free_least]|].
    split; [by apply mm_ok_take; [|lia|]|]. do 2 (split; [done|]).
    cbn [nm_mm with_mm].
    split; [by rewrite take_frame_at, decide_True by (done || lia)|].
    intros g Hg. rewrite take_frame_at; [|done|lia|by apply (mm_used _ _ Hmm)].
    by rewrite decide_False by (by intros ->).
  - split; [done|]. intros f Hf. apply Hused; [done|]. apply Hspec, elem_of_seqZ. unfold MAX_PAGES. lia.
Qed.

Definition demo_mem : NodeMem := mkNodeMem create_memory_manager empty_memory zero_stats.

Lemma allocate_frame_correct_witness :
  (exists f s', allocate_frame 3 demo_mem = Val f s' /\ 0 <= f < 256 /\ f ∉ [] /\
     (forall g, 0 <= g < f -> g ∈ []) /\
     mm_ok (nm_mm s') [f] /\ nm_mem s' = nm_mem demo_mem /\ nm_stats s' = nm_stats demo_mem /\
     frame_at (nm_mm s') f = mkFrame (frame_index (frame_at (nm_mm demo_mem) f)) 3 0 /\
     same_frames [] (nm_mm demo_mem) (nm_mm s')) \/
  (allocate_frame 3 demo_mem = Val (-1) demo_mem /\ forall f, 0 <= f < 256 -> f ∈ []).
Proof. exact (allocate_frame_correct 3 demo_mem [] initial_mm_ok). Defined.

(** C16: freeing the page that was given a frame makes the free map what it was
before the frame was allocated, and the frame belongs to nobody again. *)
Theorem free_undoes_allocate sym s used f s1 ps k mem :
  mm_ok (nm_mm s) used -> allocate_frame sym s = Val f s1 -> 0 <= f ->
  page_map mem ps -> ps !! k = Some f ->
  exists s2, free_frame (Z.of_nat k) (mkNodeMem (nm_mm s1) mem (nm_stats s1)) = Val tt s2 /\
    (forall g, 0 <= g < 256 -> bit_free (nm_mm s2) g = bit_free (nm_mm s) g) /\
    owner_symbol (frame_at (nm_mm s2) f) = -1 /\ mm_ok (nm_mm s2) used.
Proof.
  intros Hmm Halloc Hpos Hmap Hk. pose proof (mm_shape _ _ Hmm) as Hwf.
  rewrite allocate_frame_run in Halloc by done.
  pose proof (first_free_spec (nm_mm s) (seqZ 0 MAX_PAGES)) as Hspec.
  destruct (first_free (nm_mm s) (seqZ 0 MAX_PAGES)) as [g|]; simplify_eq; [|lia].
  destruct Hspec as [Hin Hfree]. apply elem_of_seqZ in Hin. unfold MAX_PAGES in Hin.
  assert (Hn : f ∉ used) by (by apply (mm_free _ _ Hmm); [lia|]).
  pose proof (list_lookup_total_correct _ _ _ Hk) as Hkf.
  eexists. split.
  { apply (free_frame_run _ ps); [by apply take_frame_wf|done|by eapply lookup_lt_Some|rewrite Hkf; lia]. }
  rewrite Hkf. cbn. split; [|split].
  - intros g Hg. rewrite drop_frame_free, take_frame_free by (try apply take_frame_wf; done || lia).
    by repeat case_decide; subst.
  - rewrite drop_frame_at by (try apply take_frame_wf; done || lia). by rewrite decide_True.
  - apply mm_ok_drop, mm_ok_take; [done|lia|done].
Qed.

Lemma free_undoes_allocate_witness :
  exists s2, free_frame (Z.of_nat 0) (mkNodeMem (take_frame 0 3 create_memory_manager)
      (mkSymMem (Some 0 :: replicate 127 None) 1 0) zero_stats) = Val tt s2 /\
    (forall g, 0 <= g < 256 -> bit_free (nm_mm s2) g = bit_free create_memory_manager g) /\
    owner_symbol (frame_at (nm_mm s2) 0) = -1 /\ mm_ok (nm_mm s2) [].
Proof.
  refine (free_undoes_allocate 3 demo_mem [] 0 (with_mm (take_frame 0 3) demo_mem) [0] 0
    (mkSymMem (Some 0 :: replicate 127 None) 1 0) initial_mm_ok _ _ _ _).
  - vm_compute. reflexivity.
  - lia.
  - split; [by exists (replicate 127 None)|reflexivity].
  - reflexivity.
Defined.

(** C17: after a trade [post_trade_cleanup] takes one node off the charge of the
book, frees its last page exactly when that was the page's last node, gives one
slot of the shared overflow page back if any was taken, and keeps the frames of
the other books and every invariant of the allocator. *)
Theorem post_trade_cleanup_correct others sym s ps :
  mm_ok (nm_mm s) (ps ++ others) -> table_ok (nm_mm s) sym (nm_mem s) ps ->
  0 <= cnt (overflow (nm_mm s)) ->
  exists mm' mem' st' ps', post_trade_cleanup s = Val tt (mkNodeMem mm' mem' st') /\
    mm_ok mm' (ps' ++ others) /\ table_ok mm' sym mem' ps' /\ same_frames others (nm_mm s) mm' /\
    charged mem' = Z.max 0 (charged (nm_mem s) - 1) /\
    cnt (overflow mm') = Z.max 0 (cnt (overflow (nm_mm s)) - 1).
Proof.
  intros Hmm Ht Hov.
  destruct (post_trade_cleanup_ok others sym s ps Hmm Ht)
    as (mm' & mem' & st' & ps' & Hrun & [Hmm' Ht' Hs'] & Hch & Hov' & _ & _).
  exists mm', mem', st', ps'. by rewrite Hov'.
Qed.

Lemma post_trade_cleanup_correct_witness :
  exists mm' mem' st' ps', post_trade_cleanup demo_mem = Val tt (mkNodeMem mm' mem' st') /\
    mm_ok mm' (ps' ++ []) /\ table_ok mm' 0 mem' ps' /\ same_frames [] create_memory_manager mm' /\
    charged mem' = Z.max 0 (charged empty_memory - 1) /\
    cnt (overflow mm') = Z.max 0 (cnt (overflow create_memory_manager) - 1).
Proof.
  refine (post_trade_cleanup_correct [] 0 demo_mem [] initial_mm_ok _ _).
  - apply empty_table_ok.
  - cbn. lia.
Defined.
