(* ===== verification/Mmu.v ===== *)
(** * Mmu: order books over the paged memory of [sw_sim/mmu.h]

A book is a pair of heaps with its page table.  [mem_aware_insert] charges an
arriving order to the memory manager before pushing it; [check_for_trade_multi]
is the matching step with its report file and its statistics. *)
From S2P Require Import Prelude HeapModel Machine Heap Book PageTable.

Record OrderBook := mkOrderBook {
  ob_symbol : string;
  asks : Heap;
  bids : Heap;
  trades : Z;
  mem : SymbolMemory;
  trade_in_progress : Z;
  insert_pending : Z
}.

(** [books] are the objects that the first [cnt] pointers of the array point to. *)
Record Exchange := mkExchange { books : list OrderBook; ex_cnt : Z; cap : Z }.

Section MmuOps.
Context `{Env}.

(** [if (o->type) push(ob->asks, o); else push(ob->bids, o);] *)
Definition push_order (o : nat) : M (BookW NodeMem) unit :=
  let! ord := book_mach (load o) in
  if negb (type ord =? 0) then on_asks (push o) else on_bids (push o).

Definition mem_aware_insert (sym : string) (o : nat) (sym_id : Z) : M (BookW NodeMem) Z :=
  let! r := book_ext (place_node sym_id) in
  match r with
  | NoFrame => ret 0
  | CurrentPage | NewPage => push_order o ;;! ret 1
  | Overflow =>
      let! mm := book_ext (gets nm_mm) in
      book_mach (printf "[OVERFLOW] %s using shared overflow (%d/%d) +%d cycles\n"
        [Str sym; Int (cnt (overflow mm)); Int OVERFLOW_PAGE_SIZE;
         Int (PAGE_WALK_CYCLES + OVERFLOW_PENALTY_CYCLES)]) ;;!
      push_order o ;;!
      book_ext (let! mm := gets nm_mm in
                let! st := gets nm_stats in
                if cnt (overflow mm) >? overflow_max st
                then update_stats (set_overflow_max (cnt (overflow mm))) else ret tt) ;;!
      ret 1
  | Rejected =>
      let! ord := book_mach (load o) in
      book_mach (printf "[HARD REJECT] %s order rejected: price=%d amount=%d\n"
        [Str sym; Int (price ord); Int (amount ord)]) ;;!
      ret 0
  end.

(** [printf(fmt, ...); fprintf(fptr, fmt, ...);] *)
Definition print_both (fmt : string) (args : list arg) : M Mach unit :=
  printf fmt args ;;! fprintf Results fmt args.

(** The part of [check_for_trade_multi] that follows the reading of the two roots. *)
Definition multi_settle (name : string) (bid ask : Order) : M (BookW NodeMem) Z :=
  if price bid >=? price ask then
    if amount bid =? amount ask then
      let! ts := book_mach clock_gettime in
      book_mach (print_both trade_format
        [Int (u32 (tv_nsec ts)); Int (amount bid); Str name; Int (price bid)]) ;;!
      let! _ := on_bids pop in
      let! _ := on_asks pop in
      book_ext (update_stats (add_trades 1)) ;;!
      book_mach fclose ;;!
      ret 1
    else if amount bid >? amount ask then
      let! ts := book_mach clock_gettime in
      book_mach (print_both bid_remains_format
        [Int (u32 (tv_nsec ts)); Int (amount ask); Str name; Int (price bid);
         Int (amount bid - amount ask)]) ;;!
      on_bids (update (amount bid - amount ask)) ;;!
      let! _ := on_asks pop in
      book_ext (update_stats (add_trades 1)) ;;!
      book_ext (update_stats (add_writes 1)) ;;!
      book_mach fclose ;;!
      ret 1
    else
      let! ts := book_mach clock_gettime in
      book_mach (print_both ask_remains_format
        [Int (u32 (tv_nsec ts)); Int (amount bid); Str name; Int (price bid);
         Int (amount ask - amount bid)]) ;;!
      on_asks (update (amount ask - amount bid)) ;;!
      let! _ := on_bids pop in
      book_ext (update_stats (add_trades 1)) ;;!
      book_ext (update_stats (add_writes 1)) ;;!
      book_mach fclose ;;!
      ret 1
  else
    book_mach fclose ;;!
    ret 0.

(** The early [return 0] on an empty side comes before any [fclose]. *)
Definition check_for_trade_multi (sym : string) : M (BookW NodeMem) Z :=
  let! fptr := book_mach fopen in
  if negb fptr then book_mach (fprintf Stderr "File error" []) ;;! exit 1 else
  let! asks := gets b_asks in
  let! bids := gets b_bids in
  if (size asks =? 0) || (size bids =? 0) then ret 0 else
  let! _ := book_ext (translate 0) in
  let! _ := book_ext (translate 0) in
  let! bidp := on_bids peek in
  let! askp := on_asks peek in
  let! bid := book_mach (load bidp) in
  let! ask := book_mach (load askp) in
  book_ext (update_stats (add_reads 2)) ;;!
  multi_settle sym bid ask.

Definition create_exchange (cap : Z) : Exchange := mkExchange [] 0 cap.

(** The heaps of a book point to the manager, to the book and to the statistics. *)
Definition own_heap (h : Heap) : Heap :=
  mkHeap (data h) (size h) (capacity h) (cmp h) true true true.

Definition create_order_book (symbol : string) : OrderBook :=
  mkOrderBook (symbol3 symbol) (own_heap (create_heap 10 min_cmp)) (own_heap (create_heap 10 max_cmp))
    0 empty_memory 0 0.

End MmuOps.

(** ** Inserting an order *)

(** Whether [mem_aware_insert] reports success. *)
Definition accepted (r : placement) : bool :=
  match r with CurrentPage | NewPage | Overflow => true | Rejected | NoFrame => false end.

Section InsertLemmas.
Context `{Env}.
Implicit Types (m : Mach) (e : NodeMem).

Lemma push_order_ok m a b e o xs ys :
  book_ok (store m) a b xs ys -> (o < length (store m))%nat -> o ∉ xs ++ ys ->
  Z.of_nat (length (xs ++ ys)) + 1 < 2 ^ 29 ->
  exists a' b' xs' ys', push_order o (mkBookW m a b e) = Val tt (mkBookW m a' b' e) /\
    book_ok (store m) a' b' xs' ys' /\ pushed (type (store m !!! o)) o xs ys xs' ys'.
Proof.
  intros Hok Ho Hfresh Hlen. unfold push_order. run (by apply book_load). unfold pushed.
  destruct (Z.eqb_spec (type (store m !!! o)) 0) as [Hty|Hty]; cbn [negb].
  - destruct (on_bids_push m a b e o xs ys) as (b' & ys' & Hrun & Hok' & Hp); [done..|].
    by exists a, b', xs, ys'.
  - destruct (on_asks_push m a b e o xs ys) as (a' & xs' & Hrun & Hok' & Hp); [done..|].
    by exists a', b, xs', ys.
Qed.

(** What [mem_aware_insert] prints. *)
Definition insert_report (r : placement) (name : string) (ord : Order) (e' : NodeMem) : list line :=
  match r with
  | Overflow => [mkLine Stdout "[OVERFLOW] %s using shared overflow (%d/%d) +%d cycles\n"
      [Str name; Int (cnt (overflow (nm_mm e'))); Int 8; Int 5]]
  | Rejected => [mkLine Stdout "[HARD REJECT] %s order rejected: price=%d amount=%d\n"
      [Str name; Int (price ord); Int (amount ord)]]
  | _ => []
  end.

(** The statistics of the overflow page: its use never passes the recorded
maximum, and the maximum never passes the size of the page. *)
Definition overflow_ok (e : NodeMem) : Prop :=
  0 <= cnt (overflow (nm_mm e)) <= overflow_max (nm_stats e) /\
  overflow_max (nm_stats e) <= OVERFLOW_PAGE_SIZE.

(** How the counters grow when an order is placed. *)
Record charged_once (e e' : NodeMem) : Prop := {
  co_stats : stats_frame 1 (nm_stats e) (set_overflow_max (overflow_max (nm_stats e)) (nm_stats e'));
  co_rejects : 0 <= hard_rejects (nm_mm e') - hard_rejects (nm_mm e) <= 1
}.

(** Everything [mem_aware_insert] promises about its outcome [r]. *)
Record inserted (r : placement) (name : string) (o : nat) (others ps : list Z) (sym : Z)
    (m : Mach) (e : NodeMem) (xs ys : list nat)
    (m' : Mach) (a' b' : Heap) (e' : NodeMem) (ps' : list Z) (xs' ys' : list nat) : Prop := {
  ins_pages : step_ok others sym (nm_mm e) (nm_mm e') (nm_mem e') ps';
  ins_placed : placed r others ps (nm_mm e) (nm_mm e') (nm_mem e) (nm_mem e') ps';
  ins_mach : m' = emit (insert_report r name (store m !!! o) e') m;
  ins_book : book_ok (store m) a' b' xs' ys';
  ins_pushed : if accepted r then pushed (type (store m !!! o)) o xs ys xs' ys'
               else xs' = xs /\ ys' = ys;
  ins_trades : total_trades (nm_stats e') = total_trades (nm_stats e);
  ins_overflow : overflow_ok e -> overflow_ok e';
  ins_counts : charged_once e e'
}.

Lemma charged_placed r others ps e mm' mem' st' ps' n :
  placed r others ps (nm_mm e) mm' (nm_mem e) mem' ps' -> stats_frame 1 (nm_stats e) st' ->
  charged_once e (mkNodeMem mm' mem' (set_overflow_max n st')).
Proof.
  intros Hp [? ? ? ? ? ?]. split; cbn; [by split|]. destruct r; cbn in Hp; destruct_and?; done || lia.
Qed.

Lemma same_max st : set_overflow_max (overflow_max st) st = st.
Proof. by destruct st. Qed.

Lemma emit_nil m : emit [] m = m.
Proof. destruct m. unfold emit. cbn. by rewrite app_nil_r. Qed.

Lemma book_ext_run {A} (c : M NodeMem A) m a b e v e' :
  c e = Val v e' -> book_ext c (mkBookW m a b e) = Val v (mkBookW m a b e').
Proof. intros Hc. unfold book_ext, zoom. cbn. by rewrite Hc. Qed.

Lemma mem_aware_insert_ok name m a b e o sym others ps xs ys :
  book_ok (store m) a b xs ys ->
  mm_ok (nm_mm e) (ps ++ others) -> table_ok (nm_mm e) sym (nm_mem e) ps ->
  (o < length (store m))%nat -> o ∉ xs ++ ys -> Z.of_nat (length (xs ++ ys)) + 1 < 2 ^ 29 ->
  exists r m' a' b' e' ps' xs' ys',
    mem_aware_insert name o sym (mkBookW m a b e) =
      Val (if accepted r then 1 else 0) (mkBookW m' a' b' e') /\
    inserted r name o others ps sym m e xs ys m' a' b' e' ps' xs' ys'.
Proof.
  intros Hok Hmm Ht Ho Hfresh Hlen.
  destruct (place_node_ok others ps sym e Hmm Ht) as (r & mm' & mem' & st' & ps' & Hrun & Hst & Hpl & Hstats). pose proof Hstats as [Htr Hmx _ _ _ _].
  assert (Hcount : forall n, charged_once e (mkNodeMem mm' mem' (set_overflow_max n st'))) by (intros; by eapply charged_placed).
  assert (Hcount0 : charged_once e (mkNodeMem mm' mem' st')) by (rewrite <- (same_max st'); apply Hcount).
  destruct (push_order_ok m a b (mkNodeMem mm' mem' st') o xs ys Hok Ho Hfresh Hlen)
    as (a' & b' & xs' & ys' & Hpush & Hok' & Hpushed).
  exists r. unfold mem_aware_insert. run (apply book_ext_run; exact Hrun). destruct r; cbn [accepted].
  - run (exact Hpush). exists m, a', b', (mkNodeMem mm' mem' st'), ps', xs', ys'. split; [done|].
    pose proof Hpl as (_ & _ & Hov & _). split; try done; [symmetry; apply emit_nil|].
    unfold overflow_ok. cbn. by rewrite Hov, Hmx.
  - run (exact Hpush). exists m, a', b', (mkNodeMem mm' mem' st'), ps', xs', ys'. split; [done|].
    pose proof Hpl as (_ & _ & Hov & _). split; try done; [symmetry; apply emit_nil|].
    unfold overflow_ok. cbn. by rewrite Hov, Hmx.
  - run. run. cbn [nm_mm].
    destruct (push_order_ok (emit (insert_report Overflow name (store m !!! o) (mkNodeMem mm' mem' st')) m)
      a b (mkNodeMem mm' mem' st') o xs ys Hok Ho Hfresh Hlen)
      as (a2 & b2 & xs2 & ys2 & Hpush2 & Hok2 & Hpushed2).
    run (exact Hpush2).
    set (st2 := if cnt (overflow mm') >? overflow_max st'
                then set_overflow_max (cnt (overflow mm')) st' else st').
    run (apply book_ext_run; instantiate (1 := mkNodeMem mm' mem' st2); subst st2; cbn;
         by destruct (cnt (overflow mm') >? overflow_max st')).
    exists (emit (insert_report Overflow name (store m !!! o) (mkNodeMem mm' mem' st')) m),
      a2, b2, (mkNodeMem mm' mem' st2), ps', xs2, ys2. split; [done|].
    pose proof Hpl as (? & ? & ? & Hcnt & Hroom & ?). split; try done.
    + subst st2. cbn. rewrite <- Htr. by destruct (_ >? _).
    + unfold overflow_ok. subst st2. cbn. intros [? ?].
      destruct (Z.gtb_spec (cnt (overflow mm')) (overflow_max st')); cbn; lia.
    + subst st2. destruct (_ >? _); [apply Hcount|done].
  - run (by apply book_load). run.
    eexists _, a, b, (mkNodeMem mm' mem' st'), ps', xs, ys. split; [reflexivity|].
    pose proof Hpl as (_ & _ & _ & Hov & _). split; try done.
    unfold overflow_ok. cbn. by rewrite Hov, Hmx.
  - done.
Qed.

End InsertLemmas.

(** ** The matching step *)

Section MultiLemmas.
Context `{Env}.
Implicit Types (m : Mach) (e : NodeMem).

(** No stream is left: the process ends with code 1. *)
Lemma multi_no_stream name m a b e :
  (open_limit <= open_files m)%nat ->
  check_for_trade_multi name (mkBookW m a b e) =
    Exit 1 (mkBookW (emit [mkLine Stderr "File error" []] m) a b e).
Proof.
  intros Hlim. unfold check_for_trade_multi.
  run (unfold book_mach, zoom, fopen; cbn [b_mach];
       apply Nat.ltb_ge in Hlim; rewrite Hlim; reflexivity).
  done.
Qed.

(** The machine with the report file open. *)
Definition opened m : Mach := set_open_files (S (open_files m)) m.

Lemma fopen_run m a b e :
  (open_files m < open_limit)%nat ->
  book_mach fopen (mkBookW m a b e) = Val true (mkBookW (opened m) a b e).
Proof.
  intros Hlim%Nat.ltb_lt. unfold book_mach, zoom, fopen. cbn [b_mach]. by rewrite Hlim.
Qed.

(** An empty side: the function returns 0 with the report file still open. *)
Lemma multi_empty name m a b e xs ys :
  (open_files m < open_limit)%nat -> book_ok (store m) a b xs ys -> xs = [] \/ ys = [] ->
  check_for_trade_multi name (mkBookW m a b e) = Val 0 (mkBookW (opened m) a b e).
Proof.
  intros Hlim Hok Hcase. destruct (book_sizes _ _ _ _ _ Hok) as [Hna Hnb].
  unfold check_for_trade_multi. run (by apply fopen_run). cbn [negb]. run. run.
  cbn [b_asks b_bids]. rewrite Hna, Hnb, !size_eqb_nil.
  by destruct Hcase as [-> | ->]; rewrite ?orb_true_r.
Qed.

Lemma translate_first e ps :
  page_map (nm_mem e) ps ->
  exists v, translate 0 e = Val v (bump_stats (add_cycles PAGE_WALK_CYCLES) e).
Proof.
  intros Hmap. destruct (decide (ps = [])) as [->|Hne].
  - eexists. apply (translate_out e []); [done|simpl; lia].
  - eexists. change 0 with (Z.of_nat 0). eapply translate_run; [done|].
    destruct ps; [done|simpl; lia].
Qed.

(** What the function adds to the statistics before it compares the prices. *)
Definition charge_check e : NodeMem :=
  bump_stats (fun st => add_reads 2 (add_cycles PAGE_WALK_CYCLES (add_cycles PAGE_WALK_CYCLES st))) e.

(** Both sides filled: what is left to run once the two roots are read. *)
Lemma multi_prefix name m a b e ps xs ys :
  (open_files m < open_limit)%nat -> book_ok (store m) a b xs ys -> xs <> [] -> ys <> [] ->
  page_map (nm_mem e) ps ->
  check_for_trade_multi name (mkBookW m a b e) =
    multi_settle name (store m !!! (ys !!! 0%nat)) (store m !!! (xs !!! 0%nat))
      (mkBookW (opened m) a b (charge_check e)).
Proof.
  intros Hlim Hok Hx Hy Hmap. destruct (book_sizes _ _ _ _ _ Hok) as [Hna Hnb].
  pose proof Hok as [[[Hlx _ _ _] _ Hvx _] [[Hly _ _ _] _ Hvy _] _ _].
  destruct (translate_first e ps Hmap) as [v1 Ht1].
  destruct (translate_first (bump_stats (add_cycles PAGE_WALK_CYCLES) e) ps Hmap) as [v2 Ht2].
  unfold check_for_trade_multi. run (by apply fopen_run). cbn [negb]. run. run.
  cbn [b_asks b_bids]. rewrite Hna, Hnb, !size_eqb_nil, !bool_decide_eq_false_2 by done. cbn [orb].
  run (apply book_ext_run; exact Ht1). run (apply book_ext_run; exact Ht2).
  run (by apply on_bids_peek). run (by apply on_asks_peek).
  run (by apply (book_load (opened m)), root_valid). run (by apply (book_load (opened m)), root_valid).
  run. done.
Qed.

(** The best bid does not reach the best ask: the function returns 0. *)
Lemma multi_idle name m a b e ps xs ys :
  (open_files m < open_limit)%nat -> book_ok (store m) a b xs ys -> xs <> [] -> ys <> [] ->
  page_map (nm_mem e) ps ->
  price (store m !!! (ys !!! 0%nat)) < price (store m !!! (xs !!! 0%nat)) ->
  check_for_trade_multi name (mkBookW m a b e) = Val 0 (mkBookW m a b (charge_check e)).
Proof.
  intros Hlim Hok Hx Hy Hmap Hlt. rewrite (multi_prefix _ _ _ _ _ ps xs ys) by done.
  unfold multi_settle. replace (_ >=? _) with false by lia. run. by destruct m.
Qed.

(** The same line goes to the screen and to the report file. *)
Definition reported (name : string) (a b : Order) (out out' : list line) : Prop :=
  exists fmt args, out' = out ++ [mkLine Stdout fmt args; mkLine Results fmt args] /\
    reports name a b (mkLine Results fmt args).

(** The outcome of a trade, seen from outside the machine. *)
Record multi_traded (name : string) (ask bid : Order) m e m' e' : Prop := {
  mt_output : reported name ask bid (output m) (output m');
  mt_files : open_files m' = open_files m;
  mt_mm : nm_mm e' = nm_mm e;
  mt_mem : nm_mem e' = nm_mem e;
  mt_trades : total_trades (nm_stats e') = total_trades (nm_stats e) + 1;
  mt_reads : total_reads (nm_stats e') = total_reads (nm_stats e) + 2;
  mt_cycles : total_cycles (nm_stats e') = total_cycles (nm_stats e) + 2 * PAGE_WALK_CYCLES;
  mt_max : overflow_max (nm_stats e') = overflow_max (nm_stats e);
  mt_writes : 0 <= total_writes (nm_stats e') - total_writes (nm_stats e) <= 1;
  mt_overflow : overflow_accesses (nm_stats e') = overflow_accesses (nm_stats e)
}.

Lemma app_two {A} (l : list A) x y : (l ++ [x]) ++ [y] = l ++ [x; y].
Proof. by rewrite <- app_assoc. Qed.

Lemma add_twice z : z + PAGE_WALK_CYCLES + PAGE_WALK_CYCLES = z + 2 * PAGE_WALK_CYCLES.
Proof. lia. Qed.

(** The two calls of a [print_both]. *)
Definition both_lines (fmt : string) (args : list arg) m : Mach :=
  emit [mkLine Results fmt args] (emit [mkLine Stdout fmt args] m).

Lemma multi_cross name m a b e ps xs ys :
  (open_files m < open_limit)%nat -> book_ok (store m) a b xs ys -> xs <> [] -> ys <> [] ->
  page_map (nm_mem e) ps ->
  let ask := store m !!! (xs !!! 0%nat) in
  let bid := store m !!! (ys !!! 0%nat) in
  price ask <= price bid ->
  exists m' a' b' e' xs' ys',
    check_for_trade_multi name (mkBookW m a b e) = Val 1 (mkBookW m' a' b' e') /\
    book_ok (store m') a' b' xs' ys' /\ traded (store m) xs ys (store m') xs' ys' /\
    multi_traded name ask bid m e m' e'.
Proof.
  intros Hlim Hok Hx Hy Hmap ask bid Hp. rewrite (multi_prefix _ _ _ _ _ ps xs ys) by done.
  fold ask bid. unfold multi_settle. replace (price bid >=? price ask) with true by lia.
  set (ts := Int (u32 (tv_nsec (clock (clock_calls m))))). unfold charge_check, bump_stats.
  destruct (Z.eqb_spec (amount bid) (amount ask)) as [Heq|Hne].
  - set (args := [ts; Int (amount bid); Str name; Int (price bid)]). run. run.
    destruct (settle_both (both_lines trade_format args (tick 1 (opened m))) a b
      (charge_check e) xs ys Hok Hx Hy Hp Heq) as (a' & b' & xs' & ys' & Hb & Ha & Hok' & Htr & _).
    run (exact Hb). run (exact Ha). run. run.
    eexists _, a', b', _, xs', ys'. split; [reflexivity|]. split; [done|]. split; [done|].
    split; cbn; try done; [|by rewrite add_twice|lia].
    eexists trade_format, args. split; [by rewrite app_two|].
    eexists _, []. cbn. by rewrite <- Heq, Z.min_id.
  - destruct (Z.gtb_spec (amount bid) (amount ask)) as [Hlt|Hge].
    + set (args := [ts; Int (amount ask); Str name; Int (price bid); Int (amount bid - amount ask)]).
      run. run.
      destruct (settle_bid_remains (both_lines bid_remains_format args (tick 1 (opened m))) a b
        (charge_check e) xs ys Hok Hx Hy Hp Hlt) as (a' & xs' & Hb & Ha & Hok' & Htr & _).
      run (exact Hb). run (exact Ha). run. run. run.
      eexists _, a', b, _, xs', ys. split; [reflexivity|]. split; [done|]. split; [done|].
      split; cbn; try done; [|by rewrite add_twice|lia].
      eexists bid_remains_format, args. split; [by rewrite app_two|].
      eexists _, [_]. cbn. by rewrite (Z.min_l (amount ask)) by lia.
    + set (args := [ts; Int (amount bid); Str name; Int (price bid); Int (amount ask - amount bid)]).
      run. run. assert (Hlt : amount bid < amount ask) by lia.
      destruct (settle_ask_remains (both_lines ask_remains_format args (tick 1 (opened m))) a b
        (charge_check e) xs ys Hok Hx Hy Hp Hlt) as (b' & ys' & Ha & Hb & Hok' & Htr & _).
      run (exact Ha). run (exact Hb). run. run. run.
      eexists _, a, b', _, xs, ys'. split; [reflexivity|]. split; [done|]. split; [done|].
      split; cbn; try done; [|by rewrite add_twice|lia].
      eexists ask_remains_format, args. split; [by rewrite app_two|].
      eexists _, [_]. cbn. by rewrite (Z.min_r (amount ask)) by lia.
Qed.

End MultiLemmas.

(** ** Properties *)

Section Properties.
Context `{Env}.
Implicit Types (m : Mach) (e : NodeMem).

(** C11: [mem_aware_insert] charges the order to the current page, to a new
page, to the shared overflow page, or rejects it, in that order of preference,
and pushes it on its side of the book exactly when it was charged; it returns 1
or 0 accordingly, prints only when the overflow page or a rejection is involved,
and keeps the book, its page table and the allocator well formed. *)
Theorem mem_aware_insert_correct name m a b e o sym others ps xs ys :
  book_ok (store m) a b xs ys ->
  mm_ok (nm_mm e) (ps ++ others) -> table_ok (nm_mm e) sym (nm_mem e) ps ->
  (o < length (store m))%nat -> o ∉ xs ++ ys -> Z.of_nat (length (xs ++ ys)) + 1 < 2 ^ 29 ->
  exists r m' a' b' e' ps' xs' ys',
    mem_aware_insert name o sym (mkBookW m a b e) =
      Val (if accepted r then 1 else 0) (mkBookW m' a' b' e') /\
    inserted r name o others ps sym m e xs ys m' a' b' e' ps' xs' ys'.
Proof. apply mem_aware_insert_ok. Qed.

(** C12: when the best bid reaches the best ask, [check_for_trade_multi] does one
trade of the matching rule, prints the same line on the screen and in the report
file, closes the file, and counts one trade, two reads and two page walks. *)
Theorem check_for_trade_multi_trades name m a b e ps xs ys :
  (open_files m < open_limit)%nat -> book_ok (store m) a b xs ys -> xs <> [] -> ys <> [] ->
  page_map (nm_mem e) ps ->
  price (store m !!! (xs !!! 0%nat)) <= price (store m !!! (ys !!! 0%nat)) ->
  exists m' a' b' e' xs' ys',
    check_for_trade_multi name (mkBookW m a b e) = Val 1 (mkBookW m' a' b' e') /\
    book_ok (store m') a' b' xs' ys' /\
    match_step (view (store m) xs) (view (store m) ys) 1 (view (store m') xs') (view (store m') ys') /\
    multi_traded name (store m !!! (xs !!! 0%nat)) (store m !!! (ys !!! 0%nat)) m e m' e'.
Proof.
  intros Hlim Hok Hx Hy Hmap Hp.
  destruct (multi_cross name m a b e ps xs ys Hlim Hok Hx Hy Hmap Hp)
    as (m' & a' & b' & e' & xs' & ys' & Hrun & Hok' & [Hstep _ _ _ _] & Htr).
  by exists m', a', b', e', xs', ys'.
Qed.

(** A call with an empty side returns 0 and leaves the report file open, so
every such call uses up one stream; once no stream is left the next call ends
the process with code 1. *)
Theorem check_for_trade_multi_leaks name m a b e xs ys :
  book_ok (store m) a b xs ys -> xs = [] \/ ys = [] ->
  if (open_files m <? open_limit)%nat then
    check_for_trade_multi name (mkBookW m a b e) =
      Val 0 (mkBookW (set_open_files (S (open_files m)) m) a b e)
  else exists s', check_for_trade_multi name (mkBookW m a b e) = Exit 1 s'.
Proof.
  intros Hok Hcase. destruct (Nat.ltb_spec (open_files m) open_limit) as [Hlt|Hge].
  - by eapply multi_empty.
  - eexists. by apply multi_no_stream.
Qed.

End Properties.

Definition demo_node_mem : NodeMem := mkNodeMem create_memory_manager empty_memory zero_stats.

Lemma mem_aware_insert_correct_witness :
  exists r m' a' b' e' ps' xs' ys',
    mem_aware_insert "AAA" 2 0
        (mkBookW demo_mach (demo_heap min_cmp [0%nat; 1%nat]) (demo_heap max_cmp []) demo_node_mem) =
      Val (if accepted r then 1 else 0) (mkBookW m' a' b' e') /\
    inserted r "AAA" 2 [] [] 0 demo_mach demo_node_mem [0%nat; 1%nat] [] m' a' b' e' ps' xs' ys'.
Proof.
  refine (mem_aware_insert_correct "AAA" demo_mach (demo_heap min_cmp [0%nat; 1%nat]) (demo_heap max_cmp [])
    demo_node_mem 2 0 [] [] [0%nat; 1%nat] [] _ initial_mm_ok (empty_table_ok _ 0) _ _ _).
  - split; [exact demo_asks_ok| |by apply (bool_decide_unpack _)|simpl; lia].
    apply demo_heap_ok; [simpl; lia|constructor|]. intros j Hj. simpl in Hj. lia.
  - simpl. lia.
  - by apply (bool_decide_unpack _).
  - simpl. lia.
Defined.

Lemma check_for_trade_multi_trades_witness :
  exists m' a' b' e' xs' ys',
    @check_for_trade_multi demo_env "AAA"
        (mkBookW demo_mach (demo_heap min_cmp [0%nat; 1%nat]) (demo_heap max_cmp [2%nat]) demo_node_mem) =
      Val 1 (mkBookW m' a' b' e') /\
    book_ok (store m') a' b' xs' ys' /\
    match_step (view demo_store [0%nat; 1%nat]) (view demo_store [2%nat]) 1
      (view (store m') xs') (view (store m') ys') /\
    multi_traded "AAA" (mkOrder 10 5 4 1 "AAA") (mkOrder 11 9 6 0 "AAA") demo_mach demo_node_mem m' e'.
Proof.
  refine (@check_for_trade_multi_trades demo_env "AAA" demo_mach (demo_heap min_cmp [0%nat; 1%nat])
    (demo_heap max_cmp [2%nat]) demo_node_mem [] [0%nat; 1%nat] [2%nat] _ demo_book_ok _ _ _ _).
  - simpl. lia.
  - done.
  - done.
  - split; [by exists (replicate (Z.to_nat MAX_PAGES_PER_SYMBOL) None)|reflexivity].
  - simpl. lia.
Defined.

Lemma check_for_trade_multi_leaks_witness :
  @check_for_trade_multi demo_env "AAA"
      (mkBookW demo_mach (demo_heap min_cmp [0%nat; 1%nat]) (demo_heap max_cmp []) demo_node_mem) =
    Val 0 (mkBookW (set_open_files 1 demo_mach) (demo_heap min_cmp [0%nat; 1%nat]) (demo_heap max_cmp []) demo_node_mem).
Proof.
  refine (@check_for_trade_multi_leaks demo_env "AAA" demo_mach (demo_heap min_cmp [0%nat; 1%nat])
    (demo_heap max_cmp []) demo_node_mem [0%nat; 1%nat] [] _ (or_intror eq_refl)).
  split; [exact demo_asks_ok| |by apply (bool_decide_unpack _)|simpl; lia].
  apply demo_heap_ok; [simpl; lia|constructor|]. intros j Hj. simpl in Hj. lia.
Defined.
