(* ===== verification/World.v ===== *)
(** * World: the exchange of [sw_sim/mmu.h] as the simulator runs it

All the books, the memory manager and the statistics in one state; looking up
the book of a symbol, inserting an order and matching until nothing crosses. *)
From S2P Require Import Prelude HeapModel Machine Heap Book PageTable Mmu.

Record World := mkWorld {
  w_mach : Mach;
  w_ex : Exchange;
  w_mm : MemoryManager;
  w_stats : SimStats
}.

Definition init_world (m : Mach) : World :=
  mkWorld m (create_exchange 16) create_memory_manager zero_stats.

Definition set_books (bs : list OrderBook) (ex : Exchange) : Exchange :=
  mkExchange bs (ex_cnt ex) (cap ex).
Definition set_cap (n : Z) (ex : Exchange) : Exchange := mkExchange (books ex) (ex_cnt ex) n.
Definition set_trades (n : Z) (ob : OrderBook) : OrderBook :=
  mkOrderBook (ob_symbol ob) (asks ob) (bids ob) n (mem ob) (trade_in_progress ob) (insert_pending ob).

(** The state that the functions on one book work on, and back. *)
Definition book_state (w : World) (ob : OrderBook) : BookW NodeMem :=
  mkBookW (w_mach w) (asks ob) (bids ob) (mkNodeMem (w_mm w) (mem ob) (w_stats w)).
Definition put_book (i : nat) (ob : OrderBook) (s : BookW NodeMem) (w : World) : World :=
  mkWorld (b_mach s)
    (set_books (<[i := mkOrderBook (ob_symbol ob) (b_asks s) (b_bids s) (trades ob)
                         (nm_mem (b_ext s)) (trade_in_progress ob) (insert_pending ob)]>
                 (books (w_ex w))) (w_ex w))
    (nm_mm (b_ext s)) (nm_stats (b_ext s)).

Section WorldOps.
Context `{Env}.

Definition world_mach {A} (c : M Mach A) : M World A :=
  zoom w_mach (fun x w => mkWorld x (w_ex w) (w_mm w) (w_stats w)) c.
Definition update_ex (f : Exchange -> Exchange) : M World unit :=
  modify (fun w => mkWorld (w_mach w) (f (w_ex w)) (w_mm w) (w_stats w)).

(** A function called on the book [i]; it is given the book's symbol. *)
Definition with_book {A} (i : nat) (c : string -> M (BookW NodeMem) A) : M World A := fun w =>
  match books (w_ex w) !! i with
  | Some ob => zoom (fun _ => book_state w ob) (put_book i ob) (c (ob_symbol ob)) w
  | None => Undef
  end.

(** The first book whose symbol is [symbol]. *)
Definition find_book (symbol : string) : M World (option Z) :=
  let! ex := gets w_ex in
  for_return (seqZ 0 (ex_cnt ex)) (fun i =>
    let! ex := gets w_ex in
    let! ob := lift (array_get (books ex) i) in
    ret (if String.eqb (ob_symbol ob) symbol then Some i else None)).

(** A pointer to a book is its index; [realloc] keeps the books. *)
Definition find_or_create_book (symbol : string) : M World nat :=
  let! found := find_book symbol in
  match found with
  | Some i => ret (Z.to_nat i)
  | None =>
      let! ex := gets w_ex in
      (if ex_cnt ex >=? cap ex
       then let! c := int (cap ex * 2) in update_ex (set_cap c) else ret tt) ;;!
      let! ex := gets w_ex in
      if ex_cnt ex <? cap ex then
        update_ex (fun ex => mkExchange (books ex ++ [create_order_book symbol]) (ex_cnt ex + 1) (cap ex)) ;;!
        ret (Z.to_nat (ex_cnt ex))
      else undef
  end.

(** [int sym_id = 0; for (j ...) if (strcmp(...) == 0) { sym_id = j; break; }] *)
Definition find_sym_id (symbol : string) : M World Z :=
  let! found := find_book symbol in
  ret (match found with Some j => j | None => 0 end).

(** [ob->trades++]. *)
Definition count_trade (i : nat) : M World unit :=
  let! ex := gets w_ex in
  let! ob := lift (books ex !! i) in
  update_ex (set_books (<[i := set_trades (trades ob + 1) ob]> (books ex))).

(** [while (check_for_trade_multi(ob, &stats)) { ob->trades++; post_trade_cleanup(...); }] *)
Definition match_body (i : nat) (_ : unit) : M World (unit + unit) :=
  let! r := with_book i check_for_trade_multi in
  if r =? 0 then ret (inr tt) else
  count_trade i ;;!
  with_book i (fun _ => book_ext post_trade_cleanup) ;;!
  ret (inl tt).

(** Each trade takes an order off a heap, so the two sizes bound the trades. *)
Definition match_loop (i : nat) : M World unit :=
  let! ex := gets w_ex in
  let! ob := lift (books ex !! i) in
  loop (S (Z.to_nat (size (asks ob) + size (bids ob)))) (match_body i) tt.

Definition insert_and_match (i o : nat) (sym_id : Z) : M World unit :=
  let! r := with_book i (fun name => mem_aware_insert name o sym_id) in
  if negb (r =? 0) then match_loop i else ret tt.

(** A [long long] result. *)
Definition long_long (z : Z) : M World Z :=
  if (- 2 ^ 63 <=? z) && (z <? 2 ^ 63) then ret z else undef.

(** The [int] counters are kept as integers, and it is here that they are
checked: they only grow, so one that ever left the range of an [int] is outside
it when it is printed. *)
Definition print_sim_stats : M World unit :=
  world_mach (printf "\nPer-Symbol Breakdown:\n" []) ;;!
  let! ex := gets w_ex in
  for_each (seqZ 0 (ex_cnt ex)) (fun i =>
    let! ob := lift (array_get (books ex) i) in
    let! n := int (trades ob) in
    world_mach (printf "%s: %d trades, %d open asks, %d open bids, %d pages used\n"
      [Str (ob_symbol ob); Int n; Int (size (asks ob)); Int (size (bids ob));
       Int (page_count (mem ob))])) ;;!
  let! mm := gets w_mm in
  let! stats := gets w_stats in
  let! accesses := int (overflow_accesses stats) in
  let! penalty := int (accesses * (PAGE_WALK_CYCLES + OVERFLOW_PENALTY_CYCLES)) in
  let! rejects := int (hard_rejects mm) in
  let! all_trades := int (total_trades stats) in
  let! reads := int (total_reads stats) in
  let! writes := int (total_writes stats) in
  let! cycles := long_long (total_cycles stats) in
  world_mach (
    printf "\nOverflow:\n" [] ;;!
    printf "Accesses:       %d\n" [Int accesses] ;;!
    printf "Current usage:  %d/%d\n" [Int (cnt (overflow mm)); Int OVERFLOW_PAGE_SIZE] ;;!
    printf "Maximum usage: %d/%d\n" [Int (overflow_max stats); Int OVERFLOW_PAGE_SIZE] ;;!
    printf "Penalty cycles: %d\n" [Int penalty] ;;!
    printf "\nTotals:\n" [] ;;!
    printf "Hard rejects: %d\n" [Int rejects] ;;!
    printf "Trades:       %d\n" [Int all_trades] ;;!
    printf "Reads:        %d\n" [Int reads] ;;!
    printf "Writes:       %d\n" [Int writes] ;;!
    printf "Cycles:       %lld\n" [Int cycles]).

End WorldOps.

Lemma long_long_val `{Env} z w : - 2 ^ 63 <= z < 2 ^ 63 -> long_long z w = Val z w.
Proof.
  intros [H1 H2]. unfold long_long. apply Z.leb_le in H1. apply Z.ltb_lt in H2. by rewrite H1, H2.
Qed.

(** ** The invariant of the exchange *)

(** What a book holds: its two heaps and its page frames. *)
Record Contents := mkContents { c_asks : list nat; c_bids : list nat; c_pages : list Z }.

Definition resting (ty name : _) (st : list Order) (ps : list nat) : Prop :=
  Forall (fun p => symbol (st !!! p) = name /\ (type (st !!! p) =? 0) = ty) ps.

(** Book [i] is a pair of ordered heaps over the store, with a page table of
its own frames; it holds only orders of its symbol, each on its side. *)
Record book_inv (st : list Order) (mm : MemoryManager) (i : nat) (ob : OrderBook)
    (g : Contents) : Prop := {
  bi_book : book_ok st (asks ob) (bids ob) (c_asks g) (c_bids g);
  bi_pages : table_ok mm (Z.of_nat i) (mem ob) (c_pages g);
  bi_asks : resting false (ob_symbol ob) st (c_asks g);
  bi_bids : resting true (ob_symbol ob) st (c_bids g)
}.

(** The exchange [w] holds the books [gs], one per symbol, and no two of them
share a page frame. *)
Record world_wf (w : World) (gs : list Contents) : Prop := {
  ww_cnt : ex_cnt (w_ex w) = Z.of_nat (length (books (w_ex w)));
  ww_cap : Z.of_nat (length (books (w_ex w))) <= cap (w_ex w);
  ww_cap_max : 16 <= cap (w_ex w) <= 16 + 2 * Z.of_nat (length (books (w_ex w)));
  ww_orders : (length (books (w_ex w)) <= length (store (w_mach w)))%nat;
  ww_length : length gs = length (books (w_ex w));
  ww_books : forall i ob g, books (w_ex w) !! i = Some ob -> gs !! i = Some g ->
    book_inv (store (w_mach w)) (w_mm w) i ob g;
  ww_frames : mm_ok (w_mm w) (mjoin (c_pages <$> gs));
  ww_symbols : NoDup (ob_symbol <$> books (w_ex w))
}.

(** The frames of the books other than [i]. *)
Definition other_pages (i : nat) (gs : list Contents) : list Z := mjoin (c_pages <$> delete i gs).

(** The total of the trades of the books. *)
Definition sum_trades (bs : list OrderBook) : Z := foldr Z.add 0 (trades <$> bs).

#[global] Arguments sum_trades : simpl never.

(** The statistics agree with the books. *)
Record counted (w : World) : Prop := {
  ct_trades : total_trades (w_stats w) = sum_trades (books (w_ex w));
  ct_overflow : 0 <= cnt (overflow (w_mm w)) <= overflow_max (w_stats w);
  ct_max : overflow_max (w_stats w) <= OVERFLOW_PAGE_SIZE
}.

Definition book_uncrossed (st : list Order) (g : Contents) : Prop :=
  uncrossed (view st (c_asks g)) (view st (c_bids g)).

(** Nothing is left to match in any book. *)
Definition all_uncrossed (w : World) (gs : list Contents) : Prop :=
  Forall (book_uncrossed (store (w_mach w))) gs.

(** ** Changes that keep the invariant *)

Section Keys.
Variables st st' : list Order.
Hypothesis Hkeys : same_keys st st'.

Lemma resting_keys ty name xs : valid st xs -> resting ty name st xs -> resting ty name st' xs.
Proof.
  unfold valid, resting. rewrite !Forall_forall. intros Hv Hr p Hp.
  destruct (keys_fields st st' Hkeys p (Hv p Hp)) as (-> & -> & _). auto.
Qed.

Lemma book_inv_keys mm mm' i ob g :
  book_inv st mm i ob g -> same_frames (c_pages g) mm mm' -> book_inv st' mm' i ob g.
Proof.
  intros [Hb Hp Ha Hr] Hs. pose proof Hb as [[_ _ Hvx _] [_ _ Hvy _] _ _]. split.
  - by apply (book_ok_keys st).
  - by eapply table_ok_same_frames.
  - by apply resting_keys.
  - by apply resting_keys.
Qed.

End Keys.

Lemma pages_split i gs g :
  gs !! i = Some g -> mjoin (c_pages <$> gs) ≡ₚ c_pages g ++ other_pages i gs.
Proof.
  intros Hg. unfold other_pages. pose proof (delete_Permutation gs i g Hg) as Hp.
  rewrite Hp at 1. done.
Qed.

Lemma other_pages_insert i gs g : other_pages i (<[i := g]> gs) = other_pages i gs.
Proof. unfold other_pages. by rewrite !delete_take_drop, take_insert_ge, drop_insert_lt by lia. Qed.

Lemma other_pages_in i j gs h f :
  gs !! j = Some h -> j <> i -> f ∈ c_pages h -> f ∈ other_pages i gs.
Proof.
  intros Hh Hne Hf. apply list_elem_of_join. exists (c_pages h). split; [done|].
  apply list_elem_of_fmap. exists h. split; [done|].
  rewrite delete_take_drop. apply elem_of_app. destruct (decide (j < i)%nat).
  - left. apply (list_elem_of_lookup_2 _ j). by rewrite lookup_take_lt by lia.
  - right. apply (list_elem_of_lookup_2 _ (j - S i)). rewrite lookup_drop.
    by replace (S i + (j - S i))%nat with j by lia.
Qed.

Lemma sum_trades_insert bs i ob ob' :
  bs !! i = Some ob -> sum_trades (<[i := ob']> bs) = sum_trades bs - trades ob + trades ob'.
Proof.
  unfold sum_trades. revert i. induction bs as [|b bs IH]; intros [|i] Hi; [done..| |].
  - simpl in *. simplify_eq. lia.
  - specialize (IH i Hi).
    change (trades b + foldr Z.add 0 (trades <$> <[i := ob']> bs) =
            trades b + foldr Z.add 0 (trades <$> bs) - trades ob + trades ob'). lia.
Qed.

(** The orders in the heaps of a book. *)
Definition open_orders (g : Contents) : Z := Z.of_nat (length (c_asks g ++ c_bids g)).

(** What placing [i] orders in a book, trading it, and finding [c] times that
nothing trades may add to the counters; every trade takes an order away. *)
Record grew (i c : Z) (w : World) (g : Contents) (w' : World) (g' : Contents) : Prop := {
  gw_trades : 0 <= total_trades (w_stats w') - total_trades (w_stats w)
                <= open_orders g + i - open_orders g';
  gw_reads : 0 <= total_reads (w_stats w') - total_reads (w_stats w)
               <= 2 * (c + total_trades (w_stats w') - total_trades (w_stats w));
  gw_writes : 0 <= total_writes (w_stats w') - total_writes (w_stats w)
                <= i + total_trades (w_stats w') - total_trades (w_stats w);
  gw_overflow : 0 <= overflow_accesses (w_stats w') - overflow_accesses (w_stats w) <= i;
  gw_rejects : 0 <= hard_rejects (w_mm w') - hard_rejects (w_mm w) <= i;
  gw_cycles : 0 <= total_cycles (w_stats w') - total_cycles (w_stats w)
                <= 12 * (i + c + total_trades (w_stats w') - total_trades (w_stats w));
  gw_books : Forall (fun ob => 0 <= trades ob) (books (w_ex w)) ->
             Forall (fun ob => 0 <= trades ob) (books (w_ex w'))
}.

Lemma grew_trans i c i' c' w g w1 g1 w2 g2 :
  grew i c w g w1 g1 -> grew i' c' w1 g1 w2 g2 -> grew (i + i') (c + c') w g w2 g2.
Proof. intros [] []. split; auto; lia. Qed.

Lemma grew_weaken i c c' w g w' g' : c <= c' -> grew i c w g w' g' -> grew i c' w g w' g'.
Proof. intros Hc []. split; auto; lia. Qed.

(** A book whose count of trades did not fall is put back. *)
Lemma books_put_back i ob ob' bs :
  bs !! i = Some ob -> trades ob <= trades ob' ->
  Forall (fun ob => 0 <= trades ob) bs -> Forall (fun ob => 0 <= trades ob) (<[i := ob']> bs).
Proof.
  intros Hob Hle Hall. apply Forall_insert; [done|].
  pose proof (Forall_lookup_1 _ _ _ _ Hall Hob) as H0. cbv beta in H0. lia.
Qed.

(** A step of book [i] that keeps the book's own invariants. *)
Lemma world_put w gs i ob ob' g s' g' :
  world_wf w gs -> books (w_ex w) !! i = Some ob -> gs !! i = Some g -> ob_symbol ob' = ob_symbol ob ->
  same_keys (store (w_mach w)) (store (b_mach s')) ->
  step_ok (other_pages i gs) (Z.of_nat i) (w_mm w) (nm_mm (b_ext s')) (nm_mem (b_ext s')) (c_pages g') ->
  book_ok (store (b_mach s')) (b_asks s') (b_bids s') (c_asks g') (c_bids g') ->
  resting false (ob_symbol ob) (store (b_mach s')) (c_asks g') ->
  resting true (ob_symbol ob) (store (b_mach s')) (c_bids g') ->
  world_wf (put_book i ob' s' w) (<[i := g']> gs).
Proof.
  intros [Hcnt Hcap Hcm Hord Hlen Hb Hmm Hnd] Hob Hg Hsym Hkeys [Hmm' Ht' Hs'] Hbook Hra Hrb.
  pose proof (lookup_lt_Some _ _ _ Hob) as Hi.
  split; cbn [w_ex w_mach w_mm put_book set_books books ex_cnt cap]; rewrite ?length_insert; try done.
  - destruct Hkeys. lia.
  - intros j obj gj Hj Hgj. destruct (decide (j = i)) as [->|Hne].
    + rewrite list_lookup_insert_eq in Hj by lia. rewrite list_lookup_insert_eq in Hgj by lia.
      simplify_eq. split; cbn [asks bids mem ob_symbol]; rewrite ?Hsym; done.
    + rewrite list_lookup_insert_ne in Hj by done. rewrite list_lookup_insert_ne in Hgj by done.
      apply (book_inv_keys _ _ Hkeys (w_mm w)); [by apply Hb|].
      intros f Hf. apply Hs'. by eapply other_pages_in.
  - eapply mm_ok_perm; [|exact Hmm']. rewrite <- (other_pages_insert i gs g').
    symmetry. apply pages_split, list_lookup_insert_eq. lia.
  - rewrite list_fmap_insert. by rewrite list_insert_id by (cbn; by rewrite list_lookup_fmap, Hob, Hsym).
Qed.

Lemma world_split w gs i ob g :
  world_wf w gs -> books (w_ex w) !! i = Some ob -> gs !! i = Some g ->
  book_inv (store (w_mach w)) (w_mm w) i ob g /\
  mm_ok (w_mm w) (c_pages g ++ other_pages i gs).
Proof.
  intros Hw Hob Hg. split; [by apply (ww_books _ _ Hw)|].
  eapply mm_ok_perm; [by apply pages_split|]. apply Hw.
Qed.

Lemma world_contents w gs i ob :
  world_wf w gs -> books (w_ex w) !! i = Some ob -> exists g, gs !! i = Some g.
Proof.
  intros Hw Hob. apply lookup_lt_is_Some. rewrite (ww_length _ _ Hw). by eapply lookup_lt_Some.
Qed.

Lemma with_book_run `{Env} {A} i (c : string -> M (BookW NodeMem) A) w ob v s' :
  books (w_ex w) !! i = Some ob -> c (ob_symbol ob) (book_state w ob) = Val v s' ->
  with_book i c w = Val v (put_book i ob s' w).
Proof. intros Hob Hc. unfold with_book, zoom. by rewrite Hob, Hc. Qed.

(** A new order in the store. *)
Lemma world_extend w gs m' :
  world_wf w gs -> same_keys (store (w_mach w)) (store m') ->
  world_wf (mkWorld m' (w_ex w) (w_mm w) (w_stats w)) gs.
Proof.
  intros [] Hk. split; try done; cbn; [destruct Hk; lia|]. intros. by apply (book_inv_keys _ _ Hk (w_mm w)); [auto|].
Qed.

(** ** Looking up a book *)

Section Find.
Context `{Env}.

Definition find_index (name : string) (bs : list OrderBook) : option Z :=
  Z.of_nat ∘ fst <$> list_find (fun ob => ob_symbol ob = name) bs.

Lemma find_book_run w gs name :
  world_wf w gs -> find_book name w = Val (find_index name (books (w_ex w))) w.
Proof.
  intros Hw. unfold find_book. run. rewrite (ww_cnt _ _ Hw).
  assert (Hgen : forall pre suf, books (w_ex w) = pre ++ suf ->
    for_return (seqZ (Z.of_nat (length pre)) (Z.of_nat (length suf))) (fun i =>
      let! ex := gets w_ex in
      let! ob := lift (array_get (books ex) i) in
      ret (if String.eqb (ob_symbol ob) name then Some i else None)) w =
    Val ((fun i => Z.of_nat (length pre) + i) <$> find_index name suf) w).
  { intros pre suf. revert pre. induction suf as [|ob suf IH]; intros pre Hbs; [done|].
    rewrite seqZ_cons by (simpl; lia). cbn [for_return].
    erewrite bind_val; [|run; rewrite array_get_nat, Hbs, lookup_app_r, Nat.sub_diag by lia; done].
    cbn beta iota. unfold find_index. cbn [list_find].
    destruct (String.eqb_spec (ob_symbol ob) name) as [Heq|Hne].
    - rewrite decide_True by done. cbn. by rewrite Z.add_0_r.
    - rewrite decide_False by done.
      replace (Z.succ (Z.of_nat (length pre))) with (Z.of_nat (length (pre ++ [ob])))
        by (rewrite length_app; simpl; lia).
      replace (Z.pred (Z.of_nat (length (ob :: suf)))) with (Z.of_nat (length suf)) by (simpl; lia).
      rewrite IH by (rewrite Hbs, <- app_assoc; done). unfold find_index.
      destruct (list_find _ suf) as [[k x]|]; cbn; [|done].
      rewrite length_app. cbn [length]. do 2 f_equal. lia. }
  specialize (Hgen [] (books (w_ex w)) eq_refl).
  cbn [length] in Hgen. change (Z.of_nat 0) with 0 in Hgen. rewrite Hgen.
  destruct (find_index name _); done.
Qed.

Definition empty_contents : Contents := mkContents [] [] [].

Lemma create_order_book_inv st mm i name :
  book_inv st mm i (create_order_book name) empty_contents.
Proof.
  split; [|apply empty_table_ok|by constructor|by constructor].
  split; [by apply (create_heap_ok _ _ _ 10)..|constructor|simpl; lia].
Qed.

(** A book of a new symbol at the end of the array. *)
Definition add_book (name : string) (c : Z) (w : World) : World :=
  mkWorld (w_mach w)
    (mkExchange (books (w_ex w) ++ [create_order_book name]) (ex_cnt (w_ex w) + 1) c)
    (w_mm w) (w_stats w).

Lemma add_book_wf w gs name c :
  world_wf w gs -> symbol3 name = name -> find_index name (books (w_ex w)) = None ->
  (length (books (w_ex w)) < length (store (w_mach w)))%nat ->
  Z.of_nat (length (books (w_ex w))) < c -> 16 <= c <= 16 + 2 * Z.of_nat (length (books (w_ex w))) ->
  world_wf (add_book name c w) (gs ++ [empty_contents]).
Proof.
  intros [Hcnt Hcap Hcm Hord Hlen Hb Hmm Hnd] Hname Hnone Hlt Hc Hc'.
  assert (Hfresh : name ∉ ob_symbol <$> books (w_ex w)).
  { intros (ob & Heq & Hin)%list_elem_of_fmap. unfold find_index in Hnone.
    apply fmap_None, list_find_None in Hnone. rewrite Forall_forall in Hnone. by apply (Hnone ob). }
  split; cbn [w_ex w_mach w_mm add_book books ex_cnt cap]; rewrite ?length_app; cbn [length]; try lia.
  - intros j ob g Hj Hg. apply lookup_app_Some in Hj as [Hj|[Hge Hj]].
    + rewrite lookup_app_l in Hg by (apply lookup_lt_Some in Hj; lia). by apply Hb.
    + rewrite lookup_app_r in Hg by lia. rewrite Hlen in Hg.
      apply list_lookup_singleton_Some in Hj as [Hj <-].
      apply list_lookup_singleton_Some in Hg as [_ <-]. apply create_order_book_inv.
  - rewrite fmap_app, join_app. cbn. by rewrite app_nil_r.
  - rewrite fmap_app. cbn. rewrite Hname. apply NoDup_app. split; [done|]. split; [|apply NoDup_singleton].
    intros x Hx ->%list_elem_of_singleton. done.
Qed.

(** The book found or made for [name]. *)
Record book_of (name : string) w gs i w' gs' : Prop := {
  bf_wf : world_wf w' gs';
  bf_contents : gs' = gs \/ gs' = gs ++ [empty_contents];
  bf_index : find_index name (books (w_ex w')) = Some (Z.of_nat i);
  bf_mach : w_mach w' = w_mach w;
  bf_mm : w_mm w' = w_mm w;
  bf_stats : w_stats w' = w_stats w;
  bf_trades : sum_trades (books (w_ex w')) = sum_trades (books (w_ex w));
  bf_books : books (w_ex w) `prefix_of` books (w_ex w');
  bf_counts : Forall (fun ob => 0 <= trades ob) (books (w_ex w)) ->
              Forall (fun ob => 0 <= trades ob) (books (w_ex w'));
  bf_kind : if find_index name (books (w_ex w)) then w' = w /\ gs' = gs
            else gs' = gs ++ [empty_contents]
}.

Lemma find_or_create_ok w gs name :
  world_wf w gs -> symbol3 name = name ->
  (length (books (w_ex w)) < length (store (w_mach w)))%nat ->
  Z.of_nat (length (store (w_mach w))) < 2 ^ 29 ->
  exists i w' gs', find_or_create_book name w = Val i w' /\ book_of name w gs i w' gs'.
Proof.
  intros Hw Hname Hlt Hmax. unfold find_or_create_book. run (by eapply find_book_run).
  destruct (find_index name (books (w_ex w))) as [z|] eqn:Hfind.
  { exists (Z.to_nat z), w, gs. split; [done|]. split; try done; [by left| |by rewrite Hfind].
    rewrite Hfind. unfold find_index in Hfind. apply fmap_Some in Hfind as (? & _ & ->). cbn.
    by rewrite Nat2Z.id. }
  run. pose proof Hw as [Hcnt Hcap Hcm _ _ _ _ _].
  exists (length (books (w_ex w))).
  assert (Hdone : forall c, Z.of_nat (length (books (w_ex w))) < c ->
    16 <= c <= 16 + 2 * Z.of_nat (length (books (w_ex w))) ->
    book_of name w gs (length (books (w_ex w))) (add_book name c w) (gs ++ [empty_contents])).
  { intros c Hc Hc'. split; [by apply add_book_wf|by right| |done|done|done| |by eexists| |by rewrite Hfind].
    - cbn. unfold find_index in *. apply fmap_None in Hfind.
      rewrite list_find_app_r by done. cbn. rewrite decide_True by done. cbn. by rewrite ?Nat.add_0_r.
    - unfold sum_trades. cbn. rewrite fmap_app, foldr_app. done.
    - intros Hall. apply Forall_app. split; [done|]. by apply Forall_singleton. }
  destruct (Z.geb_spec (ex_cnt (w_ex w)) (cap (w_ex w))) as [Hfull|Hroom].
  - erewrite bind_val; [|cbv iota; run (apply int_val; lia); reflexivity]. cbv beta. run. cbn [w_ex ex_cnt cap set_cap].
    replace (ex_cnt (w_ex w) <? cap (w_ex w) * 2) with true by lia. run.
    eexists (add_book name (cap (w_ex w) * 2) w), _. split; [|apply Hdone; lia].
    unfold add_book. cbn. by rewrite Hcnt, Nat2Z.id.
  - run. run. replace (ex_cnt (w_ex w) <? cap (w_ex w)) with true by lia. run.
    eexists (add_book name (cap (w_ex w)) w), _. split; [|apply Hdone; lia].
    unfold add_book. cbn. by rewrite Hcnt, Nat2Z.id.
Qed.

Lemma find_sym_id_run w gs name i :
  world_wf w gs -> find_index name (books (w_ex w)) = Some (Z.of_nat i) ->
  find_sym_id name w = Val (Z.of_nat i) w.
Proof. intros Hw Hi. unfold find_sym_id. run (by eapply find_book_run). by rewrite Hi. Qed.

Lemma find_index_book name bs i :
  find_index name bs = Some (Z.of_nat i) -> exists ob, bs !! i = Some ob /\ ob_symbol ob = name.
Proof.
  unfold find_index. intros ([k ob] & [Hob [Hn _]]%list_find_Some & Hk)%fmap_Some. cbn in Hk.
  apply Nat2Z.inj in Hk as ->. eauto.
Qed.

End Find.

(** ** Matching one book *)

Lemma resting_sub ty name st xs xs' :
  (forall p, p ∈ xs' -> p ∈ xs) -> resting ty name st xs -> resting ty name st xs'.
Proof. unfold resting. rewrite !Forall_forall. auto. Qed.

(** The book [i] went from [g] to [g'] by [n] trades. *)
Record settled (i : nat) (n : nat) (w : World) (gs : list Contents) (g : Contents)
    (w' : World) (g' : Contents) : Prop := {
  se_wf : world_wf w' (<[i := g']> gs);
  se_frame : store_frame (c_asks g ++ c_bids g) (store (w_mach w)) (store (w_mach w'));
  se_asks : forall p, p ∈ c_asks g' -> p ∈ c_asks g;
  se_bids : forall p, p ∈ c_bids g' -> p ∈ c_bids g;
  se_symbols : ob_symbol <$> books (w_ex w') = ob_symbol <$> books (w_ex w);
  se_trades : sum_trades (books (w_ex w')) = sum_trades (books (w_ex w)) + Z.of_nat n;
  se_counted : counted w -> counted w'
}.

Section Match.
Context `{Env}.
Variables (w : World) (gs : list Contents) (i : nat) (ob : OrderBook) (g : Contents).
Hypothesis Hw : world_wf w gs.
Hypothesis Hob : books (w_ex w) !! i = Some ob.
Hypothesis Hg : gs !! i = Some g.
Let st := store (w_mach w).

Lemma body_no_stream :
  (open_limit <= open_files (w_mach w))%nat ->
  exists w', match_body i tt w = Exit 1 w' /\ (open_limit <= open_files (w_mach w'))%nat.
Proof.
  intros Hlim. unfold match_body, bind, with_book, zoom. rewrite Hob. unfold book_state.
  rewrite multi_no_stream by done. eexists. split; [reflexivity|done].
Qed.

(** A state of the book that differs from [w] in its open streams and in the
statistics that [charge_check] adds to. *)
Lemma settled_still m' e' :
  store m' = st -> nm_mm e' = w_mm w -> nm_mem e' = mem ob ->
  total_trades (nm_stats e') = total_trades (w_stats w) ->
  overflow_max (nm_stats e') = overflow_max (w_stats w) ->
  settled i 0 w gs g (put_book i ob (mkBookW m' (asks ob) (bids ob) e') w) g.
Proof.
  intros Hst Hmm Hmem Htr Hmax. pose proof (world_split _ _ _ _ _ Hw Hob Hg) as [[Hb Hp Ha Hr] Hfr].
  fold st in Hb, Ha, Hr. split; try done.
  - apply (world_put w gs i ob ob g); try done; cbn; rewrite ?Hst, ?Hmm, ?Hmem; try done.
    apply (same_keys_frame []), store_frame_refl.
  - cbn. rewrite Hst. apply store_frame_refl.
  - cbn. rewrite list_fmap_insert. by rewrite list_insert_id by (by rewrite list_lookup_fmap, Hob).
  - cbn. erewrite sum_trades_insert by done. cbn. lia.
  - intros []. split; cbn; rewrite ?Hmm, ?Htr, ?Hmax; try done.
    erewrite sum_trades_insert by done. cbn. lia.
Qed.

Lemma grew_still m' e' :
  nm_mm e' = w_mm w ->
  total_trades (nm_stats e') = total_trades (w_stats w) ->
  0 <= total_reads (nm_stats e') - total_reads (w_stats w) <= 2 ->
  total_writes (nm_stats e') = total_writes (w_stats w) ->
  overflow_accesses (nm_stats e') = overflow_accesses (w_stats w) ->
  0 <= total_cycles (nm_stats e') - total_cycles (w_stats w) <= 12 ->
  grew 0 1 w g (put_book i ob (mkBookW m' (asks ob) (bids ob) e') w) g.
Proof.
  intros Hmm Ht Hr Hwr Ho Hc. split; cbn; rewrite ?Hmm, ?Ht; try lia.
  by apply (books_put_back _ ob).
Qed.

Lemma body_idle :
  (open_files (w_mach w) < open_limit)%nat ->
  c_asks g = [] \/ c_bids g = [] \/
    price (st !!! (c_bids g !!! 0%nat)) < price (st !!! (c_asks g !!! 0%nat)) ->
  exists w', match_body i tt w = Val (inr tt) w' /\ settled i 0 w gs g w' g /\
    grew 0 1 w g w' g /\ store (w_mach w') = st.
Proof.
  intros Hlim Hcase. pose proof (world_split _ _ _ _ _ Hw Hob Hg) as [[Hb Hp _ _] _].
  unfold match_body. destruct (decide (c_asks g = [] \/ c_bids g = [])) as [Hempty|Hne].
  - run (eapply (with_book_run _ _ _ _ _ _ Hob); eapply multi_empty; [done|exact Hb|done]).
    eexists. split; [reflexivity|]. split; [by apply settled_still|].
    split; [by apply grew_still; cbn; try lia|done].
  - run (eapply (with_book_run _ _ _ _ _ _ Hob); eapply multi_idle;
      [done|exact Hb|tauto|tauto|exact (table_map _ _ _ _ Hp)|
       destruct Hcase as [?|[?|?]]; [tauto..|done]]).
    eexists. split; [reflexivity|]. split; [by apply settled_still|].
    split; [by apply grew_still; cbn; unfold PAGE_WALK_CYCLES; try lia|done].
Qed.

Lemma body_trade :
  (open_files (w_mach w) < open_limit)%nat -> c_asks g <> [] -> c_bids g <> [] ->
  price (st !!! (c_asks g !!! 0%nat)) <= price (st !!! (c_bids g !!! 0%nat)) ->
  exists w' g', match_body i tt w = Val (inl tt) w' /\ settled i 1 w gs g w' g' /\
    grew 0 0 w g w' g' /\
    traded st (c_asks g) (c_bids g) (store (w_mach w')) (c_asks g') (c_bids g').
Proof.
  intros Hlim Hx Hy Hprice.
  pose proof (world_split _ _ _ _ _ Hw Hob Hg) as [[Hb Hp Ha Hr] Hfr].
  destruct (multi_cross (ob_symbol ob) (w_mach w) (asks ob) (bids ob)
      (mkNodeMem (w_mm w) (mem ob) (w_stats w)) (c_pages g) (c_asks g) (c_bids g))
    as (m' & a' & b' & e' & xs' & ys' & Hrun & Hb' & Htr & [_ _ Hmm Hmem Ht Hrd Hcy Hmax Hwr Hacc]);
    [done|done|done|done|by eapply table_map|done|].
  cbn in Hmm, Hmem, Ht, Hrd, Hcy, Hmax, Hwr, Hacc. unfold PAGE_WALK_CYCLES in Hcy. fold st in Htr. pose proof Htr as [_ Hframe _ Hsa Hsb].
  destruct (post_trade_cleanup_ok (other_pages i gs) (Z.of_nat i) e' (c_pages g))
    as (mm2 & mem2 & st2 & ps2 & Hclean & Hstep & _ & Hov & Hrj & [Ht2 Hm2 Hrd2 Hwr2 Hacc2 Hcy2]);
    [by rewrite Hmm|by rewrite Hmm, Hmem|].
  unfold match_body. run (eapply (with_book_run _ _ _ _ _ _ Hob); exact Hrun).
  cbn [Z.eqb]. pose proof (lookup_lt_Some _ _ _ Hob) as Hi.
  run (unfold count_trade; run; cbn [w_ex put_book set_books books];
       rewrite list_lookup_insert_eq by done; run; reflexivity).
  run (eapply with_book_run; [cbn; by rewrite list_lookup_insert_eq by (by rewrite length_insert)|];
       apply book_ext_run; cbn; destruct e'; exact Hclean).
  exists (put_book i (set_trades (trades ob + 1) ob) (mkBookW m' a' b' (mkNodeMem mm2 mem2 st2)) w),
    (mkContents xs' ys' ps2).
  split; [unfold put_book; cbn; by rewrite !list_insert_insert_eq|]. rewrite Hmm in Hov, Hstep, Hrj.
  split; [|split; [|done]]; [split; try done|].
  - apply (world_put w gs i ob _ g); try done; cbn; [by eapply same_keys_frame|..].
    + eapply resting_sub; [exact Hsa|].
      eapply (resting_keys st); [by eapply same_keys_frame|apply Hb|done].
    + eapply resting_sub; [exact Hsb|].
      eapply (resting_keys st); [by eapply same_keys_frame|apply Hb|done].
  - cbn. rewrite list_fmap_insert. by rewrite list_insert_id by (by rewrite list_lookup_fmap, Hob).
  - cbn. erewrite sum_trades_insert by done. cbn. lia.
  - intros [Hc1 Hc2 Hc3]. split; cbn; rewrite ?Ht2, ?Hm2, ?Ht, ?Hmax; [|rewrite Hov; lia|done].
    erewrite sum_trades_insert by done. cbn. lia.
  - pose proof Htr as [_ _ Hlen _ _]. split; cbn; unfold open_orders; cbn; rewrite ?Hrj; try lia.
    apply (books_put_back _ ob); cbn; [done|lia].
Qed.

End Match.

(** The loop runs the book down to a state with nothing to match, one trade of
[match_step] at a time, unless no stream is left for the report. *)
Lemma match_loop_run `{Env} fuel w gs i ob g :
  world_wf w gs -> books (w_ex w) !! i = Some ob -> gs !! i = Some g ->
  (length (c_asks g ++ c_bids g) < fuel)%nat ->
  wp (loop fuel (match_body i) tt)
    (fun _ w' => exists n g', settled i n w gs g w' g' /\ grew 0 1 w g w' g' /\
       match_run (view (store (w_mach w)) (c_asks g)) (view (store (w_mach w)) (c_bids g)) n
                 (view (store (w_mach w')) (c_asks g')) (view (store (w_mach w')) (c_bids g')))
    (fun c w' => c = 1 /\ (open_limit <= open_files (w_mach w'))%nat) w.
Proof.
  revert w gs ob g. induction fuel as [|fuel IH]; intros w gs ob g Hw Hob Hg Hfuel; [lia|].
  cbn [loop]. apply wp_bind.
  destruct (decide (open_limit <= open_files (w_mach w))%nat) as [Hlim|Hlim].
  { destruct (body_no_stream w i ob Hob Hlim) as (w' & Hrun & ?). unfold wp. by rewrite Hrun. }
  pose proof (world_split _ _ _ _ _ Hw Hob Hg) as [[Hb _ _ _] _].
  destruct (decide (c_asks g = [] \/ c_bids g = [] \/
    price (store (w_mach w) !!! (c_bids g !!! 0%nat)) <
    price (store (w_mach w) !!! (c_asks g !!! 0%nat)))) as [Hidle|Hcross].
  - destruct (body_idle w gs i ob g Hw Hob Hg) as (w' & Hrun & Hset & Hgr & Hst); [lia|done|].
    eapply wp_val; [exact Hrun|]. cbv iota. apply wp_ret. exists 0%nat, g. do 2 (split; [done|]).
    rewrite Hst. apply run_done, match_none. by eapply roots_uncrossed.
  - destruct (body_trade w gs i ob g Hw Hob Hg) as (w1 & g1 & Hrun & Hset & Hgr & Htr);
      [lia|tauto|tauto|lia|].
    eapply wp_val; [exact Hrun|]. cbv iota.
    pose proof Hset as [Hw1 Hfr1 Hsa1 Hsb1 Hsy1 Ht1 Hc1].
    assert (exists ob1, books (w_ex w1) !! i = Some ob1) as [ob1 Hob1].
    { apply lookup_lt_is_Some. apply (f_equal length) in Hsy1. rewrite !length_fmap in Hsy1.
      rewrite Hsy1. by eapply lookup_lt_Some. }
    assert (Hg1 : <[i := g1]> gs !! i = Some g1)
      by (apply list_lookup_insert_eq; by eapply lookup_lt_Some).
    eapply wp_mono; [eapply (IH w1 _ ob1 g1 Hw1 Hob1 Hg1)| |done].
    { destruct Htr as [_ _ Hlen _ _]. lia. }
    intros _ w2 (n & g2 & [Hw2 Hfr2 Hsa2 Hsb2 Hsy2 Ht2 Hc2] & Hgr2 & Hrun2). exists (S n), g2.
    split; [|split; [exact (grew_trans _ _ _ _ _ _ _ _ _ _ Hgr Hgr2)|by eapply run_trade; [apply Htr|]]].
    rewrite list_insert_insert_eq in Hw2. split; auto; [|congruence|lia].
    eapply store_frame_trans; [exact Hfr1|]. eapply store_frame_weaken; [|exact Hfr2].
    intros p [Hp|Hp]%elem_of_app; apply elem_of_app; auto.
Qed.

(** ** Submitting an order *)

(** What became of the order [o] in its book: it was pushed and the book was
matched down, or it was rejected and the book is as it was. *)
Definition submit_result (o : nat) (st st' : list Order) (g g' : Contents) : Prop :=
  (exists xs ys n, pushed (type (st !!! o)) o (c_asks g) (c_bids g) xs ys /\
     match_run (view st xs) (view st ys) n (view st' (c_asks g')) (view st' (c_bids g'))) \/
  (c_asks g' = c_asks g /\ c_bids g' = c_bids g /\ st' = st).

Record submitted (i o : nat) (w : World) (gs : list Contents) (g : Contents)
    (w' : World) (g' : Contents) : Prop := {
  su_wf : world_wf w' (<[i := g']> gs);
  su_frame : store_frame (o :: c_asks g ++ c_bids g) (store (w_mach w)) (store (w_mach w'));
  su_symbols : ob_symbol <$> books (w_ex w') = ob_symbol <$> books (w_ex w);
  su_counted : counted w -> counted w';
  su_result : submit_result o (store (w_mach w)) (store (w_mach w')) g g';
  su_grew : grew 1 1 w g w' g'
}.

Definition out_of_streams `{Env} (c : Z) (w : World) : Prop :=
  c = 1 /\ (open_limit <= open_files (w_mach w))%nat.

Section Submit.
Context `{Env}.
Variables (w : World) (gs : list Contents) (i o : nat) (ob : OrderBook) (g : Contents).
Hypothesis Hw : world_wf w gs.
Hypothesis Hob : books (w_ex w) !! i = Some ob.
Hypothesis Hg : gs !! i = Some g.
Hypothesis Ho : (o < length (store (w_mach w)))%nat.
Hypothesis Hsym : symbol (store (w_mach w) !!! o) = ob_symbol ob.
Hypothesis Hfresh : o ∉ c_asks g ++ c_bids g.
Hypothesis Hmax : Z.of_nat (length (store (w_mach w))) < 2 ^ 29.
Let st := store (w_mach w).

Lemma contents_bound : Z.of_nat (length (c_asks g ++ c_bids g)) + 1 < 2 ^ 29.
Proof.
  pose proof (world_split _ _ _ _ _ Hw Hob Hg) as [[[[_ _ Hvx _] [_ _ Hvy _] Hnd _] _ _ _] _].
  assert (Hl : (length (o :: c_asks g ++ c_bids g) <= length st)%nat).
  { apply nodup_valid_length; [by constructor|].
    apply Forall_cons; split; [done|]. by apply Forall_app. }
  cbn [length] in Hl. subst st. lia.
Qed.

Lemma pushed_resting xs ys :
  pushed (type (st !!! o)) o (c_asks g) (c_bids g) xs ys ->
  resting false (ob_symbol ob) st (c_asks g) -> resting true (ob_symbol ob) st (c_bids g) ->
  resting false (ob_symbol ob) st xs /\ resting true (ob_symbol ob) st ys.
Proof.
  unfold pushed, resting. intros Hp Ha Hb.
  destruct (type (st !!! o) =? 0) eqn:Hty; destruct Hp as [Hx Hy].
  - subst xs. split; [done|]. rewrite Hy. by constructor.
  - subst ys. split; [|done]. rewrite Hx. by constructor.
Qed.

Lemma pushed_incl ty xs ys p :
  pushed ty o (c_asks g) (c_bids g) xs ys -> p ∈ xs ++ ys -> p ∈ o :: c_asks g ++ c_bids g.
Proof.
  unfold pushed. destruct (ty =? 0); intros [Hx Hy] Hp; apply elem_of_app in Hp as [Hp|Hp];
    subst; rewrite ?Hx, ?Hy in Hp; set_solver.
Qed.

Lemma pushed_length r xs ys :
  (if accepted r then pushed (type (st !!! o)) o (c_asks g) (c_bids g) xs ys
   else xs = c_asks g /\ ys = c_bids g) ->
  (length (xs ++ ys) <= length (c_asks g ++ c_bids g) + 1)%nat.
Proof.
  destruct (accepted r); [|intros [-> ->]; lia]. unfold pushed. rewrite !length_app.
  destruct (type (st !!! o) =? 0); intros [Hx Hy]; subst; rewrite ?Hx, ?Hy; simpl; lia.
Qed.

(** [mem_aware_insert] on the book [i] of the exchange. *)
Lemma insert_world :
  exists r w' g', with_book i (fun name => mem_aware_insert name o (Z.of_nat i)) w =
      Val (if accepted r then 1 else 0) w' /\
    world_wf w' (<[i := g']> gs) /\ store (w_mach w') = st /\
    ob_symbol <$> books (w_ex w') = ob_symbol <$> books (w_ex w) /\
    (counted w -> counted w') /\ grew 1 0 w g w' g' /\
    (if accepted r then pushed (type (st !!! o)) o (c_asks g) (c_bids g) (c_asks g') (c_bids g')
     else c_asks g' = c_asks g /\ c_bids g' = c_bids g).
Proof.
  pose proof (world_split _ _ _ _ _ Hw Hob Hg) as [[Hb Hp Ha Hr] Hfr].
  destruct (mem_aware_insert_ok (ob_symbol ob) (w_mach w) (asks ob) (bids ob)
      (mkNodeMem (w_mm w) (mem ob) (w_stats w)) o (Z.of_nat i) (other_pages i gs) (c_pages g)
      (c_asks g) (c_bids g) Hb Hfr Hp Ho Hfresh contents_bound)
    as (r & m' & a' & b' & e' & ps' & xs' & ys' & Hrun & [Hst _ Hm Hbook Hpush Htr Hov [Hcount Hrej]]).
  exists r, (put_book i ob (mkBookW m' a' b' e') w), (mkContents xs' ys' ps').
  split; [eapply (with_book_run _ _ _ _ _ _ Hob); exact Hrun|].
  assert (Hst' : store m' = st) by by rewrite Hm.
  split; [|split; [done|split; [|split; [|split; [|done]]]]].
  - apply (world_put w gs i ob ob g); try done; cbn; fold st; rewrite ?Hst'; try done.
    + apply (same_keys_frame []), store_frame_refl.
    + destruct (accepted r); [|by destruct Hpush as [-> _]]. by apply (pushed_resting xs' ys').
    + destruct (accepted r); [|by destruct Hpush as [_ ->]]. by apply (pushed_resting xs' ys').
  - cbn. rewrite list_fmap_insert. by rewrite list_insert_id by (by rewrite list_lookup_fmap, Hob).
  - intros [Hc1 Hc2 Hc3]. destruct (Hov (conj Hc2 Hc3)). split; cbn; [|done..].
    erewrite sum_trades_insert by done. cbn. rewrite Htr. cbn. lia.
  - pose proof (pushed_length r xs' ys' Hpush). destruct Hcount. cbn in *.
    split; cbn; unfold open_orders; cbn; rewrite ?Htr; cbn; try lia. by apply (books_put_back _ ob).
Qed.

Lemma insert_and_match_ok :
  wp (insert_and_match i o (Z.of_nat i))
    (fun _ w' => exists g', submitted i o w gs g w' g') out_of_streams w.
Proof.
  destruct insert_world as (r & w1 & g1 & Hrun & Hw1 & Hst1 & Hsy1 & Hc1 & Hgr1 & Hr).
  unfold insert_and_match. apply wp_bind. eapply wp_val; [exact Hrun|]. cbn beta.
  destruct (accepted r); cbn [Z.eqb negb].
  - assert (exists ob1, books (w_ex w1) !! i = Some ob1) as [ob1 Hob1].
    { apply lookup_lt_is_Some. apply (f_equal length) in Hsy1. rewrite !length_fmap in Hsy1.
      rewrite Hsy1. by eapply lookup_lt_Some. }
    assert (Hg1 : <[i := g1]> gs !! i = Some g1)
      by (apply list_lookup_insert_eq; by eapply lookup_lt_Some).
    pose proof (world_split _ _ _ _ _ Hw1 Hob1 Hg1) as [[Hb _ _ _] _].
    destruct (book_sizes _ _ _ _ _ Hb) as [Hsa Hsb].
    unfold match_loop. apply wp_bind. eapply wp_val; [reflexivity|].
    apply wp_bind. eapply wp_lift; [exact Hob1|]. rewrite Hsa, Hsb.
    eapply wp_mono; [eapply (match_loop_run _ w1 _ i ob1 g1); [done..|]| |done].
    { rewrite length_app. lia. }
    intros _ w2 (n & g2 & [Hw2 Hfr2 Hsa2 Hsb2 Hsy2 Ht2 Hc2] & Hgr2 & Hrun2). exists g2.
    rewrite Hst1 in Hfr2, Hrun2. rewrite list_insert_insert_eq in Hw2.
    split; [done| |congruence|auto|left; by eexists _, _, n|exact (grew_trans _ _ _ _ _ _ _ _ _ _ Hgr1 Hgr2)].
    eapply store_frame_weaken; [|exact Hfr2]. intros p. by eapply pushed_incl.
  - apply wp_ret. exists g1. destruct Hr as [Hra Hrb].
    split; [done| |done|done|right; by rewrite Hra, Hrb|by apply (grew_weaken 1 0)].
    rewrite Hst1. apply store_frame_refl.
Qed.

End Submit.

(** ** Properties *)

(** C4: the [while] loop over [check_for_trade_multi] always ends.  It ends
either with code 1, no stream being left for the report, or after [n] trades,
each one a step of the matching rule on the book [i], in a state where no bid of
the book reaches an ask; the exchange is well formed, its statistics count the
[n] trades, and no order outside the book has changed. *)
Theorem match_loop_settles `{Env} w gs i ob g :
  world_wf w gs -> books (w_ex w) !! i = Some ob -> gs !! i = Some g ->
  wp (match_loop i)
    (fun _ w' => exists n g', world_wf w' (<[i := g']> gs) /\
       match_run (view (store (w_mach w)) (c_asks g)) (view (store (w_mach w)) (c_bids g)) n
                 (view (store (w_mach w')) (c_asks g')) (view (store (w_mach w')) (c_bids g')) /\
       uncrossed (view (store (w_mach w')) (c_asks g')) (view (store (w_mach w')) (c_bids g')) /\
       sum_trades (books (w_ex w')) = sum_trades (books (w_ex w)) + Z.of_nat n /\
       (counted w -> counted w') /\
       store_frame (c_asks g ++ c_bids g) (store (w_mach w)) (store (w_mach w')))
    out_of_streams w.
Proof.
  intros Hw Hob Hg. pose proof (world_split _ _ _ _ _ Hw Hob Hg) as [[Hb _ _ _] _].
  destruct (book_sizes _ _ _ _ _ Hb) as [Hsa Hsb].
  unfold match_loop. apply wp_bind. eapply wp_val; [reflexivity|].
  apply wp_bind. eapply wp_lift; [exact Hob|]. rewrite Hsa, Hsb.
  eapply wp_mono; [eapply (match_loop_run _ w gs i ob g); [done..|rewrite length_app; lia]| |done].
  intros _ w' (n & g' & [Hwf Hf _ _ _ Ht Hc] & _ & Hrun). exists n, g'.
  do 2 (split; [done|]). split; [by eapply match_run_uncrossed|done].
Qed.

(** A world with one book, and the orders of [demo_store] in it. *)
Definition demo_book : OrderBook :=
  mkOrderBook "AAA" (demo_heap min_cmp [0%nat; 1%nat]) (demo_heap max_cmp [2%nat]) 0 empty_memory 0 0.
Definition demo_world : World :=
  mkWorld demo_mach (mkExchange [demo_book] 1 16) create_memory_manager zero_stats.
Definition demo_contents : Contents := mkContents [0%nat; 1%nat] [2%nat] [].

Lemma demo_world_wf : world_wf demo_world [demo_contents].
Proof.
  split; cbn; try done; try lia; [|apply initial_mm_ok|apply NoDup_singleton].
  intros [|i] ob g Hi Hg; [|done].
  injection Hi as <-. injection Hg as <-. split; [exact demo_book_ok|apply empty_table_ok|..];
    repeat constructor.
Qed.

Lemma match_loop_settles_witness :
  wp (@match_loop demo_env 0)
    (fun _ w' => exists n g', world_wf w' [g'] /\
       match_run (view demo_store [0%nat; 1%nat]) (view demo_store [2%nat]) n
                 (view (store (w_mach w')) (c_asks g')) (view (store (w_mach w')) (c_bids g')) /\
       uncrossed (view (store (w_mach w')) (c_asks g')) (view (store (w_mach w')) (c_bids g')) /\
       sum_trades (books (w_ex w')) = sum_trades [demo_book] + Z.of_nat n /\
       (counted demo_world -> counted w') /\
       store_frame [0%nat; 1%nat; 2%nat] demo_store (store (w_mach w')))
    (@out_of_streams demo_env) demo_world.
Proof.
  exact (@match_loop_settles demo_env demo_world [demo_contents] 0 demo_book demo_contents
    demo_world_wf eq_refl eq_refl).
Defined.

(** The exchange keeps one book per symbol: asked for a symbol that has a
book it returns that book and changes nothing; otherwise it adds one empty book
at the end, doubling the array when it is full. *)
Theorem find_or_create_book_correct `{Env} w gs name :
  world_wf w gs -> symbol3 name = name ->
  (length (books (w_ex w)) < length (store (w_mach w)))%nat ->
  Z.of_nat (length (store (w_mach w))) < 2 ^ 29 ->
  exists i w' gs', find_or_create_book name w = Val i w' /\ world_wf w' gs' /\
    (exists ob, books (w_ex w') !! i = Some ob /\ ob_symbol ob = name) /\
    w_mach w' = w_mach w /\ w_mm w' = w_mm w /\ w_stats w' = w_stats w /\
    if decide (name ∈ ob_symbol <$> books (w_ex w)) then gs' = gs
    else gs' = gs ++ [empty_contents].
Proof.
  intros Hw Hname Hlt Hmax. destruct (find_or_create_ok w gs name Hw Hname Hlt Hmax)
    as (i & w' & gs' & Hrun & [Hwf Hgs Hidx Hm Hmm Hst Htr _ _ Hkind]).
  exists i, w', gs'. do 2 (split; [done|]). split; [by apply find_index_book|].
  do 3 (split; [done|]). unfold find_index in Hkind. case_decide as Hin.
  - destruct (list_find _ (books (w_ex w))) as [[k ob]|] eqn:Hfind; [by destruct Hkind|exfalso].
    apply list_find_None in Hfind. rewrite Forall_forall in Hfind.
    apply list_elem_of_fmap in Hin as (ob & -> & Hob). by apply (Hfind ob).
  - destruct (list_find _ (books (w_ex w))) as [[k ob]|] eqn:Hfind; [exfalso|exact Hkind].
    apply list_find_Some in Hfind as (Hk & Hname' & _). apply Hin, list_elem_of_fmap.
    exists ob. split; [done|]. by eapply list_elem_of_lookup_2.
Qed.

Lemma find_or_create_book_correct_witness :
  exists i w' gs', @find_or_create_book "BBB" demo_world = Val i w' /\ world_wf w' gs' /\
    (exists ob, books (w_ex w') !! i = Some ob /\ ob_symbol ob = "BBB"%string) /\
    w_mach w' = demo_mach /\ w_mm w' = create_memory_manager /\ w_stats w' = zero_stats /\
    if decide ("BBB"%string ∈ ["AAA"%string]) then gs' = [demo_contents]
    else gs' = [demo_contents] ++ [empty_contents].
Proof.
  refine (@find_or_create_book_correct demo_env demo_world [demo_contents] "BBB" demo_world_wf eq_refl _ _);
    simpl; lia.
Defined.
