(* ===== verification/Submit.v ===== *)
(** * Submit: one order through the exchange of [sw_sim/memory_sim.c]

The statements that the three modes of [memory_sim.c] repeat for every order,
from the look-up of its book to the end of the matching loop, and what they
guarantee: every invariant of the exchange, and that the books of the other
symbols are not touched. *)
From S2P Require Import Prelude HeapModel Machine Heap Book PageTable Mmu World.

Section SubmitOps.
Context `{Env}.

(** The two lines of a submission. *)
Definition ask_format : string := "Ask Submitted for %s; Price: $%d, Amount %d, Timestamp: %d\n".
Definition bid_format : string := "Bid Submitted for %s; Price: $%d, Amount %d, Timestamp: %d\n".

(** [is_ask] and [shown] are what the caller tests and prints: the fields of
the order, or the values it was made from. *)
Definition submit (symbol : string) (o : nat) (is_ask : Order -> Z) (shown : Order -> Z * Z) : M World unit :=
  let! ob := find_or_create_book symbol in
  let! sym_id := find_sym_id symbol in
  let! ord := world_mach (load o) in
  world_mach (printf (if negb (is_ask ord =? 0) then ask_format else bid_format)
    [Str symbol; Int (shown ord).1; Int (shown ord).2; Int (timestamp ord)]) ;;!
  insert_and_match ob o sym_id.

(** [create_order] and the statements after it. *)
Definition submit_new (price amount type : Z) (symbol : string) (is_ask : Order -> Z)
    (shown : Order -> Z * Z) : M World unit :=
  let! o := world_mach (create_order price amount type symbol) in
  submit symbol o is_ask shown.

End SubmitOps.

(** ** Isolation *)

(** What the heaps of a book hold, as orders. *)
Definition book_orders (st : list Order) (g : Contents) : list Order * list Order :=
  (view st (c_asks g), view st (c_bids g)).

(** Orders of another symbol are in other books. *)
Lemma book_symbol w gs j obj h p :
  world_wf w gs -> books (w_ex w) !! j = Some obj -> gs !! j = Some h ->
  p ∈ c_asks h ++ c_bids h ->
  (p < length (store (w_mach w)))%nat /\ symbol (store (w_mach w) !!! p) = ob_symbol obj.
Proof.
  intros Hw Hj Hh Hp.
  pose proof (world_split _ _ _ _ _ Hw Hj Hh) as [[[[_ _ Hvx _] [_ _ Hvy _] _ _] _ Ha Hb] _].
  unfold valid, resting in *. rewrite Forall_forall in Hvx, Hvy, Ha, Hb.
  apply elem_of_app in Hp as [Hp|Hp]; [split; [by apply Hvx|by apply Ha]|split; [by apply Hvy|by apply Hb]].
Qed.

Lemma symbols_differ w gs i j ob obj :
  world_wf w gs -> books (w_ex w) !! i = Some ob -> books (w_ex w) !! j = Some obj -> j <> i ->
  ob_symbol obj <> ob_symbol ob.
Proof.
  intros Hw Hi Hj Hne Heq. apply Hne.
  eapply (NoDup_lookup _ _ _ (ob_symbol ob) (ww_symbols _ _ Hw)); rewrite list_lookup_fmap.
  - rewrite Hj. cbn. by rewrite Heq.
  - by rewrite Hi.
Qed.

Section Isolation.
Variables (w : World) (gs : list Contents) (i o : nat) (ob : OrderBook) (g : Contents).
Hypothesis Hw : world_wf w gs.
Hypothesis Hob : books (w_ex w) !! i = Some ob.
Hypothesis Hg : gs !! i = Some g.
Hypothesis Hsym : symbol (store (w_mach w) !!! o) = ob_symbol ob.

(** The books of the other symbols keep their orders, amounts included. *)
Lemma submit_isolated w' g' j h :
  submitted i o w gs g w' g' -> gs !! j = Some h -> j <> i ->
  book_orders (store (w_mach w')) h = book_orders (store (w_mach w)) h.
Proof.
  intros [_ (_ & Hframe & _) _ _ _ _] Hh Hne.
  assert (exists obj, books (w_ex w) !! j = Some obj) as [obj Hj].
  { apply lookup_lt_is_Some. rewrite <- (ww_length _ _ Hw). by eapply lookup_lt_Some. }
  assert (Hsame : forall p, p ∈ c_asks h ++ c_bids h -> store (w_mach w') !!! p = store (w_mach w) !!! p).
  { intros p Hp. apply Hframe. intros Hin. destruct (book_symbol _ _ _ _ _ _ Hw Hj Hh Hp) as [_ Hs].
    apply (symbols_differ _ _ _ _ _ _ Hw Hob Hj Hne). rewrite <- Hs.
    apply elem_of_cons in Hin as [->|Hin]; [done|].
    by destruct (book_symbol _ _ _ _ _ _ Hw Hob Hg Hin). }
  unfold book_orders. f_equal; apply view_same; intros p Hp; apply Hsame, elem_of_app; auto.
Qed.

(** If nothing crossed before, nothing does after. *)
Lemma submit_uncrossed w' g' :
  submitted i o w gs g w' g' -> all_uncrossed w gs -> all_uncrossed w' (<[i := g']> gs).
Proof.
  unfold all_uncrossed. rewrite !Forall_lookup. intros Hsub Hu j h Hj.
  destruct (decide (j = i)) as [->|Hne].
  - rewrite list_lookup_insert_eq in Hj by (by eapply lookup_lt_Some). simplify_eq.
    destruct (su_result _ _ _ _ _ _ _ Hsub) as [(xs & ys & n & _ & Hrun)|(Ha & Hb & Hst)].
    + by eapply match_run_uncrossed.
    + unfold book_uncrossed. rewrite Ha, Hb, Hst. by apply (Hu i).
  - rewrite list_lookup_insert_ne in Hj by done.
    pose proof (submit_isolated w' g' j h Hsub Hj Hne) as [=Ha Hb].
    unfold book_uncrossed. rewrite Ha, Hb. by apply (Hu j).
Qed.

End Isolation.

(** ** One order *)

Record exchange_ok (w : World) (gs : list Contents) : Prop := {
  ex_wf : world_wf w gs;
  ex_counted : counted w;
  ex_uncrossed : all_uncrossed w gs
}.

(** From the books [gs], the order [o] went through the book of its symbol,
which is the one at [i] of [gs1], [gs] or [gs] with a new book. *)
Definition processed (o : nat) (w : World) (gs : list Contents) (w' : World) (gs' : list Contents) : Prop :=
  exists i w1 gs1 ob g g', gs1 !! i = Some g /\ gs' = <[i := g']> gs1 /\
    (gs1 = gs \/ gs1 = gs ++ [empty_contents]) /\
    world_wf w1 gs1 /\ store (w_mach w1) = store (w_mach w) /\
    (w_mm w1 = w_mm w /\ w_stats w1 = w_stats w /\
     (Forall (fun ob => 0 <= trades ob) (books (w_ex w)) ->
      Forall (fun ob => 0 <= trades ob) (books (w_ex w1)))) /\
    books (w_ex w) `prefix_of` books (w_ex w1) /\
    books (w_ex w1) !! i = Some ob /\ ob_symbol ob = symbol (store (w_mach w) !!! o) /\
    submitted i o w1 gs1 g w' g'.

Section SubmitLemmas.
Context `{Env}.

Lemma find_or_create_frame w gs name i w' gs' :
  book_of name w gs i w' gs' -> exchange_ok w gs -> exchange_ok w' gs'.
Proof.
  intros [Hwf Hgs _ Hm Hmm Hst Htr _ _ _] [_ [Hc1 Hc2 Hc3] Hu]. split; [done| |].
  - split; rewrite ?Hst, ?Hmm, ?Htr; done.
  - unfold all_uncrossed. rewrite Hm. destruct Hgs as [->| ->]; [done|].
    apply Forall_app. split; [done|]. apply Forall_singleton. unfold book_uncrossed, uncrossed. set_solver.
Qed.

(** An order that is in the store but in no heap is taken through its book. *)
Lemma submit_ok w gs name o is_ask shown :
  exchange_ok w gs -> symbol3 name = name ->
  (length (books (w_ex w)) < length (store (w_mach w)))%nat ->
  Z.of_nat (length (store (w_mach w))) < 2 ^ 29 ->
  (o < length (store (w_mach w)))%nat -> symbol (store (w_mach w) !!! o) = name ->
  (forall g, g ∈ gs -> o ∉ c_asks g ++ c_bids g) ->
  wp (submit name o is_ask shown)
    (fun _ w' => exists gs', exchange_ok w' gs' /\ processed o w gs w' gs') out_of_streams w.
Proof.
  intros Hok Hname Hlt Hmax Ho Hsym Hfresh. unfold submit. apply wp_bind.
  destruct (find_or_create_ok w gs name) as (i & w1 & gs1 & Hrun & Hbf);
    [apply Hok|done..|].
  pose proof (find_or_create_frame _ _ _ _ _ _ Hbf Hok) as Hok1.
  pose proof Hbf as [Hw1 Hgs1 Hidx Hm1 Hmm1 Hst1 Htr1 Hpre Hcounts _].
  destruct (find_index_book _ _ _ Hidx) as (ob & Hob & Hobs).
  destruct (world_contents _ _ _ _ Hw1 Hob) as [g Hg].
  eapply wp_val; [exact Hrun|]. apply wp_bind. eapply wp_val; [by eapply find_sym_id_run|].
  rewrite <- Hm1 in Ho, Hsym, Hmax.
  apply wp_bind. eapply wp_val.
  { unfold world_mach, zoom, load. rewrite (list_lookup_lookup_total_lt _ _ Ho). reflexivity. }
  apply wp_bind. eapply wp_val; [reflexivity|]. cbn [w_mach w_ex w_mm w_stats].
  set (w2 := mkWorld _ _ _ _).
  assert (Hw2 : world_wf w2 gs1) by by (destruct Hw1; split).
  assert (Hfr : o ∉ c_asks g ++ c_bids g).
  { assert (g ∈ gs \/ g = empty_contents) as [Hin| ->]; [|by apply Hfresh|apply not_elem_of_nil].
    apply list_elem_of_lookup_2 in Hg. destruct Hgs1 as [->| ->]; [by left|].
    apply elem_of_app in Hg as [?|?%list_elem_of_singleton]; auto. }
  eapply wp_mono; [apply (insert_and_match_ok w2 gs1 i o ob g); auto; cbn; congruence| |done].
  intros _ w' (g' & Hsub). exists (<[i := g']> gs1). split.
  - split; [by eapply su_wf| |].
    + eapply su_counted; [exact Hsub|]. destruct Hok1 as [_ [] _]. by split.
    + eapply (submit_uncrossed w2); try done; [cbn; congruence|]. apply Hok1.
  - exists i, w2, gs1, ob, g, g'. do 4 (split; [done|]). cbn. rewrite <- Hm1.
    split; [done|]. split; [by split; [|split]|].
    do 2 (split; [done|]). split; [congruence|done].
Qed.

Lemma symbol3_idem s : symbol3 (symbol3 s) = symbol3 s.
Proof.
  unfold symbol3. destruct s as [|a [|b [|c s]]]; try done. cbn. by destruct s.
Qed.

Lemma all_uncrossed_keys w m' gs :
  world_wf w gs -> same_keys (store (w_mach w)) (store m') -> all_uncrossed w gs ->
  all_uncrossed (mkWorld m' (w_ex w) (w_mm w) (w_stats w)) gs.
Proof.
  intros Hw Hk. unfold all_uncrossed. rewrite !Forall_lookup. intros Hu j h Hj. cbn.
  assert (exists obj, books (w_ex w) !! j = Some obj) as [obj Hobj].
  { apply lookup_lt_is_Some. rewrite <- (ww_length _ _ Hw). by eapply lookup_lt_Some. }
  destruct (ww_books _ _ Hw j obj h Hobj Hj) as [[[_ _ Hvx _] [_ _ Hvy _] _ _] _ _ _].
  apply (uncrossed_keys _ _ Hk); [done|done|]. by apply (Hu j).
Qed.

Lemma contents_old w gs g p :
  world_wf w gs -> g ∈ gs -> p ∈ c_asks g ++ c_bids g -> (p < length (store (w_mach w)))%nat.
Proof.
  intros Hw [j Hj]%list_elem_of_lookup Hp.
  assert (exists obj, books (w_ex w) !! j = Some obj) as [obj Hobj].
  { apply lookup_lt_is_Some. rewrite <- (ww_length _ _ Hw). by eapply lookup_lt_Some. }
  by eapply book_symbol.
Qed.

(** The state in which a new order has just been created. *)
Definition created (ord : Order) (w : World) : World :=
  mkWorld (set_store (store (w_mach w) ++ [ord]) (tick 1 (w_mach w))) (w_ex w) (w_mm w) (w_stats w).

(** The invariants of the exchange after any order, whatever its price, amount
and type; the order is the last of the store, and went through its book. *)
Lemma submit_new_ok w gs price amount type name is_ask shown :
  exchange_ok w gs -> symbol3 name = name ->
  Z.of_nat (length (store (w_mach w))) + 1 < 2 ^ 29 ->
  let w1 := created (new_order price amount type name (clock (clock_calls (w_mach w)))) w in
  wp (submit_new price amount type name is_ask shown)
    (fun _ w' => exists gs', exchange_ok w' gs' /\ processed (length (store (w_mach w))) w1 gs w' gs')
    out_of_streams w.
Proof.
  intros [Hw Hc Hu] Hname Hmax w1. unfold submit_new. apply wp_bind. eapply wp_val; [reflexivity|].
  change (mkWorld _ _ _ _) with w1.
  assert (Hk : same_keys (store (w_mach w)) (store (w_mach w1))) by apply same_keys_extend.
  assert (Hlen : length (store (w_mach w1)) = S (length (store (w_mach w))))
    by (cbn; rewrite length_app; simpl; lia).
  pose proof (ww_orders _ _ Hw). apply submit_ok; [|done|cbn [w_ex w1 created]; lia|lia|lia| |].
  - split; [by apply world_extend|by destruct Hc|by apply all_uncrossed_keys].
  - cbn. by rewrite lookup_total_app_r, Nat.sub_diag by lia.
  - intros g Hg Hin. pose proof (contents_old _ _ _ _ Hw Hg Hin). lia.
Qed.

End SubmitLemmas.

(** ** Amounts *)

(** Every resting order has between 1 and [hi] shares left. *)
Definition amounts_ok (hi : Z) (st : list Order) (gs : list Contents) : Prop :=
  Forall (fun g => Forall (tradable hi) (view st (c_asks g)) /\
                   Forall (tradable hi) (view st (c_bids g))) gs.

Lemma processed_amounts hi o w gs w' gs' :
  hi < 2 ^ 15 -> processed o w gs w' gs' -> tradable hi (store (w_mach w) !!! o) ->
  amounts_ok hi (store (w_mach w)) gs -> amounts_ok hi (store (w_mach w')) gs'.
Proof.
  intros Hhi (i & w1 & gs1 & ob & g & g' & Hg & -> & Hgs1 & Hw1 & Hst & _ & _ & Hob & Hsym & Hsub) Ho Hall.
  assert (Hall1 : amounts_ok hi (store (w_mach w)) gs1).
  { destruct Hgs1 as [->| ->]; [done|]. apply Forall_app. split; [done|].
    apply Forall_singleton. by split. }
  unfold amounts_ok in *. rewrite Forall_lookup in *. rewrite <- Hst in *. intros j h Hj.
  destruct (decide (j = i)) as [->|Hne].
  - rewrite list_lookup_insert_eq in Hj by (by eapply lookup_lt_Some). simplify_eq.
    destruct (Hall1 i g Hg) as [Ha Hb].
    destruct (su_result _ _ _ _ _ _ _ Hsub) as [(xs & ys & n & Hpush & Hrun)|(-> & -> & ->)]; [|done].
    destruct (pushed_tradable hi _ _ _ _ _ _ _ Hpush Ho Ha Hb) as [Ha' Hb'].
    by destruct (match_run_shares hi Hhi _ _ _ _ _ Hrun Ha' Hb') as (? & ? & _).
  - rewrite list_lookup_insert_ne in Hj by done.
    pose proof (submit_isolated w1 gs1 i o ob g Hw1 Hob Hg (eq_sym Hsym) w' g' j h Hsub Hj Hne) as [=Ha Hb].
    rewrite Ha, Hb. by apply (Hall1 j).
Qed.

(** ** Keys *)

(** The fields of an order that never change. *)
Definition order_key (o : Order) : Z * Z * string := (price o, type o, symbol o).

Lemma frame_keys ps st st' : store_frame ps st st' -> order_key <$> st' = order_key <$> st.
Proof.
  intros (Hl & _ & Ha). apply list_eq. intros p. rewrite !list_lookup_fmap.
  destruct (decide (p < length st)%nat) as [Hp|Hp].
  - rewrite (list_lookup_lookup_total_lt st p), (list_lookup_lookup_total_lt st' p) by lia. cbn.
    by destruct (Ha p) as [-> | [v ->]].
  - by rewrite !lookup_ge_None_2 by lia.
Qed.

Lemma processed_keys o w gs w' gs' :
  processed o w gs w' gs' ->
  order_key <$> store (w_mach w') = order_key <$> store (w_mach w).
Proof.
  intros (i & w1 & gs1 & ob & g & g' & _ & _ & _ & _ & Hst & _ & _ & _ & _ & [_ Hf _ _ _ _]).
  rewrite (frame_keys _ _ _ Hf). by rewrite Hst.
Qed.

(** ** Properties *)

(** C10: whatever the price, the amount and the type of a new order, taking it
through the exchange keeps every invariant of the exchange (ordered heaps, page
tables, one book per symbol, statistics that add up, nothing left to match), and
the books of the other symbols keep exactly the orders and amounts they had; the
process only ends early when no stream is left for the report. *)
Theorem submit_new_correct `{Env} w gs price amount type name is_ask shown :
  exchange_ok w gs -> symbol3 name = name -> Z.of_nat (length (store (w_mach w))) + 1 < 2 ^ 29 ->
  wp (submit_new price amount type name is_ask shown)
    (fun _ w' => exists gs', exchange_ok w' gs' /\
       forall j ob h, books (w_ex w) !! j = Some ob -> gs !! j = Some h -> ob_symbol ob <> name ->
         gs' !! j = Some h /\
         book_orders (store (w_mach w')) h = book_orders (store (w_mach w)) h)
    out_of_streams w.
Proof.
  intros Hok Hname Hmax.
  eapply wp_mono; [by apply (submit_new_ok w gs)| |done].
  intros _ w' (gs' & Hok' & Hproc). exists gs'. split; [done|].
  destruct Hproc as (i & w1 & gs1 & ob1 & g & g' & Hg & -> & Hgs1 & Hw1 & Hst & _ & Hpre & Hob & Hsym & Hsub).
  intros j ob h Hj Hh Hne.
  assert (Hh1 : gs1 !! j = Some h) by (destruct Hgs1 as [->| ->]; [done|by apply lookup_app_l_Some]).
  assert (Hj1 : books (w_ex w1) !! j = Some ob) by by eapply prefix_lookup_Some.
  assert (Hji : j <> i).
  { intros ->. rewrite Hob in Hj1. simplify_eq. apply Hne. rewrite Hsym. cbn.
    by rewrite lookup_total_app_r, Nat.sub_diag by lia. }
  split; [by rewrite list_lookup_insert_ne|].
  assert (Hsym1 : symbol (store (w_mach w1) !!! length (store (w_mach w))) = ob_symbol ob1) by by rewrite Hst.
  rewrite (submit_isolated w1 gs1 i _ ob1 g Hw1 Hob Hg Hsym1 w' g' j h Hsub Hh1 Hji).
  rewrite Hst. unfold book_orders. cbn.
  assert (Hold : forall p, p ∈ c_asks h ++ c_bids h -> (p < length (store (w_mach w)))%nat).
  { intros p Hp. eapply contents_old; [apply Hok|by eapply list_elem_of_lookup_2|done]. }
  f_equal; apply view_same; intros p Hp; apply lookup_total_app_l, Hold, elem_of_app; auto.
Qed.

(** One book with two asks, to which an order of another symbol is submitted. *)
Definition quiet_book : OrderBook :=
  mkOrderBook "AAA" (demo_heap min_cmp [0%nat; 1%nat]) (demo_heap max_cmp []) 0 empty_memory 0 0.
Definition quiet_world : World :=
  mkWorld demo_mach (mkExchange [quiet_book] 1 16) create_memory_manager zero_stats.
Definition quiet_contents : Contents := mkContents [0%nat; 1%nat] [] [].

Lemma quiet_ok : exchange_ok quiet_world [quiet_contents].
Proof.
  split; [|split; cbn; unfold OVERFLOW_PAGE_SIZE; [reflexivity|lia|lia]|].
  - split; cbn; try done; try lia; [|apply initial_mm_ok|apply NoDup_singleton].
    intros [|i] ob g Hi Hg; [|done]. injection Hi as <-. injection Hg as <-.
    split; [|apply empty_table_ok|repeat constructor|constructor].
    split; [exact demo_asks_ok| |by apply (bool_decide_unpack _)|simpl; lia].
    apply demo_heap_ok; [simpl; lia|constructor|]. intros j Hj. simpl in Hj. lia.
  - apply Forall_singleton. intros a b _ Hb. by apply not_elem_of_nil in Hb.
Qed.

Lemma submit_new_correct_witness :
  wp (@submit_new demo_env 10 5 0 "BBB" type (fun o => (price o, amount o)))
    (fun _ w' => exists gs', exchange_ok w' gs' /\
       forall j ob h, books (w_ex quiet_world) !! j = Some ob -> [quiet_contents] !! j = Some h ->
         ob_symbol ob <> "BBB"%string ->
         gs' !! j = Some h /\ book_orders (store (w_mach w')) h = book_orders demo_store h)
    (@out_of_streams demo_env) quiet_world.
Proof.
  refine (@submit_new_correct demo_env quiet_world [quiet_contents] 10 5 0 "BBB" type
    (fun o => (price o, amount o)) quiet_ok eq_refl _).
  simpl. lia.
Defined.
