(* ===== verification/Scan.v ===== *)
(** * Scan: the C library's text input, as the programs use it

[fgets] into a buffer, the conversions [%d] and [%[^,]] of [sscanf], [atoi] and
[strstr], on strings without the terminating byte; and the decimal form of an
integer, which [%d] reads back. *)
From Stdlib Require Import Ascii.
From S2P Require Import Prelude.

Definition char_code (c : ascii) : Z := Z.of_nat (nat_of_ascii c).
Definition is_space (c : ascii) : bool :=
  (char_code c =? 32) || ((9 <=? char_code c) && (char_code c <=? 13)).
Definition is_digit (c : ascii) : bool := (48 <=? char_code c) && (char_code c <=? 57).
Definition comma : ascii := ","%char.
Definition newline : ascii := "010"%char.
Definition nul : ascii := "000"%char.

Fixpoint skip_space (s : string) : string :=
  match s with
  | String c s' => if is_space c then skip_space s' else s
  | EmptyString => s
  end.

(** The value of the digits at the head of [s], after those of [v]. *)
Fixpoint scan_nat (v : Z) (s : string) : Z * string :=
  match s with
  | String c s' => if is_digit c then scan_nat (10 * v + (char_code c - 48)) s' else (v, s)
  | EmptyString => (v, s)
  end.

Definition starts_with_digit (s : string) : bool :=
  match s with String c _ => is_digit c | EmptyString => false end.

Definition scan_digits (s : string) : option (Z * string) :=
  if starts_with_digit s then Some (scan_nat 0 s) else None.

(** [%d]: [None] when nothing matches. The value is not yet cut to an [int]. *)
Definition scan_int (s : string) : option (Z * string) :=
  match skip_space s with
  | String "-" s' => '(v, r) ← scan_digits s'; Some (- v, r)
  | String "+" s' => scan_digits s'
  | s' => scan_digits s'
  end.

(** [atoi]: 0 when nothing matches. *)
Definition atoi (s : string) : Z := match scan_int s with Some (v, _) => v | None => 0 end.

(** [%[^,]]: the characters before the first comma, and the rest. *)
Fixpoint span_comma (s : string) : string * string :=
  match s with
  | String c s' => if Ascii.eqb c comma then (EmptyString, s)
                   else let '(a, b) := span_comma s' in (String c a, b)
  | EmptyString => (EmptyString, EmptyString)
  end.

(** At most [n] characters, up to a newline that is kept. *)
Fixpoint take_line (n : nat) (s : string) : string * string :=
  match n, s with
  | O, _ => (EmptyString, s)
  | _, EmptyString => (EmptyString, s)
  | S n', String c s' =>
      if Ascii.eqb c newline then (String c EmptyString, s')
      else let '(a, b) := take_line n' s' in (String c a, b)
  end.

(** What a C string function sees of a buffer: the bytes before the first NUL. *)
Fixpoint c_string (s : string) : string :=
  match s with
  | String c s' => if Ascii.eqb c nul then EmptyString else String c (c_string s')
  | EmptyString => EmptyString
  end.

(** [fgets(buf, size, fp)] on what is left to read: [None] at the end of the file. *)
Definition fgets (size : nat) (rest : string) : option (string * string) :=
  match rest with
  | EmptyString => None
  | _ => let '(l, r) := take_line (size - 1) rest in Some (c_string l, r)
  end.

(** [strstr(s, needle) != NULL]. *)
Fixpoint contains (needle s : string) : bool :=
  String.prefix needle s ||
  match s with String _ s' => contains needle s' | EmptyString => false end.

(** ** Decimal form *)

Definition digit (d : Z) : ascii := ascii_of_nat (48 + Z.to_nat d).

Fixpoint dec_digits (fuel : nat) (n : Z) (acc : string) : string :=
  match fuel with
  | O => acc
  | S fuel' =>
      let acc' := String (digit (n mod 10)) acc in
      if n <? 10 then acc' else dec_digits fuel' (n / 10) acc'
  end.

(** A number has no more decimal digits than bits. *)
Definition dec_nat (n : Z) : string := dec_digits (S (Z.to_nat (Z.log2 n))) n "".

Definition dec (n : Z) : string := if n <? 0 then String "-" (dec_nat (- n)) else dec_nat n.

Lemma digit_code d : 0 <= d < 10 -> char_code (digit d) = 48 + d.
Proof. intros. unfold char_code, digit. rewrite nat_ascii_embedding by lia. lia. Qed.

Lemma is_digit_digit d : 0 <= d < 10 -> is_digit (digit d) = true.
Proof. intros. unfold is_digit. rewrite digit_code by done. lia. Qed.

Lemma scan_nat_dec fuel n v acc :
  0 <= n < 10 ^ Z.of_nat fuel ->
  exists k, 0 <= k /\ scan_nat v (dec_digits fuel n acc) = scan_nat (v * 10 ^ k + n) acc.
Proof.
  revert n acc. induction fuel as [|fuel IH]; intros n acc Hn.
  { exists 0. split; [done|]. simpl in Hn. cbn [dec_digits]. f_equal. lia. }
  cbn [dec_digits]. pose proof (Z.mod_pos_bound n 10). pose proof (Z.div_mod n 10).
  assert (Hd : forall u, scan_nat u (String (digit (n mod 10)) acc) = scan_nat (10 * u + n mod 10) acc).
  { intros u. cbn [scan_nat]. rewrite is_digit_digit, digit_code by lia. f_equal. lia. }
  destruct (Z.ltb_spec n 10) as [Hlt|Hge].
  - exists 1. split; [done|]. rewrite Hd. f_equal. rewrite Z.mod_small by lia. lia.
  - destruct (IH (n / 10) (String (digit (n mod 10)) acc)) as (k & Hk & ->).
    { rewrite Nat2Z.inj_succ, Z.pow_succ_r in Hn by lia. split; [apply Z.div_pos; lia|].
      apply Z.div_lt_upper_bound; lia. }
    exists (k + 1). split; [lia|]. rewrite Hd. f_equal. rewrite Z.pow_add_r by lia. lia.
Qed.

Lemma dec_digits_app fuel n acc s : (dec_digits fuel n acc ++ s)%string = dec_digits fuel n (acc ++ s)%string.
Proof.
  revert n acc. induction fuel as [|fuel IH]; intros n acc; simpl; [done|].
  destruct (n <? 10); [done|]. by rewrite IH.
Qed.

Lemma dec_digits_head fuel n acc :
  0 <= n -> exists c s, dec_digits (S fuel) n acc = String c s /\ is_digit c = true.
Proof.
  revert n acc. induction fuel as [|fuel IH]; intros n acc Hn.
  - cbn. pose proof (Z.mod_pos_bound n 10). destruct (n <? 10); eexists _, _; (split; [done|]);
      by apply is_digit_digit; lia.
  - cbn [dec_digits]. pose proof (Z.mod_pos_bound n 10). destruct (n <? 10).
    + eexists _, _. split; [done|]. apply is_digit_digit. lia.
    + apply IH, Z.div_pos; lia.
Qed.

Lemma dec_fuel n : 0 <= n -> n < 10 ^ Z.of_nat (S (Z.to_nat (Z.log2 n))).
Proof.
  intros Hn. rewrite Nat2Z.inj_succ, Z2Nat.id by apply Z.log2_nonneg.
  destruct (decide (n = 0)) as [->|]; [done|].
  pose proof (Z.log2_spec n). pose proof (Z.log2_nonneg n).
  pose proof (Z.pow_le_mono_l 2 10 (Z.succ (Z.log2 n))). lia.
Qed.

(** A string that does not go on with a digit. *)
Lemma scan_nat_stop v s : starts_with_digit s = false -> scan_nat v s = (v, s).
Proof. destruct s as [|c s]; [done|]. simpl. by intros ->. Qed.

Lemma scan_digits_dec n s :
  0 <= n -> starts_with_digit s = false -> scan_digits (dec_nat n ++ s)%string = Some (n, s).
Proof.
  intros Hn Hs. unfold dec_nat. rewrite dec_digits_app. unfold scan_digits.
  destruct (dec_digits_head (Z.to_nat (Z.log2 n)) n ("" ++ s) Hn) as (c & t & Heq & Hc).
  replace (starts_with_digit _) with true by (by rewrite Heq).
  destruct (scan_nat_dec (S (Z.to_nat (Z.log2 n))) n 0 ("" ++ s)) as (k & _ & ->);
    [split; [done|by apply dec_fuel]|].
  by rewrite Z.mul_0_l, Z.add_0_l, scan_nat_stop.
Qed.

Lemma digit_not_space c : is_digit c = true -> is_space c = false.
Proof. unfold is_digit, is_space. lia. Qed.

(** [%d] reads the decimal form of any integer back. *)
Lemma scan_int_dec n s :
  starts_with_digit s = false -> scan_int (dec n ++ s)%string = Some (n, s).
Proof.
  intros Hs. unfold dec. destruct (Z.ltb_spec n 0) as [Hneg|Hpos].
  - unfold scan_int. simpl. rewrite scan_digits_dec by (done || lia). cbn. by rewrite Z.opp_involutive.
  - pose proof (scan_digits_dec n s Hpos Hs) as Hd. unfold dec_nat in *. rewrite dec_digits_app in *.
    destruct (dec_digits_head (Z.to_nat (Z.log2 n)) n ("" ++ s) Hpos) as (c & t & Heq & Hc).
    rewrite Heq in *. unfold scan_int. simpl. rewrite digit_not_space by done.
    destruct (ascii_dec c "-") as [->|Hm]; [done|]. destruct (ascii_dec c "+") as [->|Hp]; [done|].
    destruct c as [[] [] [] [] [] [] [] []]; done.
Qed.

Lemma take_line_length n s a b : take_line n s = (a, b) -> (String.length a + String.length b = String.length s)%nat.
Proof.
  revert s a b. induction n as [|n IH]; intros [|c s] a b Heq; simpl in Heq; simplify_eq; simpl; [done..|].
  destruct (Ascii.eqb c newline); simplify_eq; [done|].
  destruct (take_line n s) as [x y] eqn:Hxy. simplify_eq. simpl. by erewrite IH.
Qed.

(** Every successful [fgets] makes progress. *)
Lemma fgets_shorter size s l r :
  (1 < size)%nat -> fgets size s = Some (l, r) -> (String.length r < String.length s)%nat.
Proof.
  intros Hsize. unfold fgets. destruct s as [|c s]; [done|].
  destruct size as [|[|size]]; [lia..|]. simpl. destruct (Ascii.eqb c newline).
  - intros [= _ ->]. lia.
  - destruct (take_line size s) as [x y] eqn:Hxy. intros [= _ ->].
    apply take_line_length in Hxy. lia.
Qed.

(** The lines that repeated calls of [fgets] give. *)
Fixpoint read_lines (fuel size : nat) (s : string) : list string :=
  match fuel with
  | O => []
  | S fuel' =>
      match fgets size s with
      | None => []
      | Some (l, r) => l :: read_lines fuel' size r
      end
  end.

Definition file_lines (size : nat) (s : string) : list string := read_lines (S (String.length s)) size s.

Lemma read_lines_fuel fuel size s :
  (1 < size)%nat -> (String.length s < fuel)%nat -> read_lines fuel size s = file_lines size s.
Proof.
  intros Hsize. unfold file_lines. remember (S (String.length s)) as k eqn:Hk.
  assert (Hge : (String.length s < k)%nat) by lia. clear Hk. revert k s Hge.
  induction fuel as [|fuel IH]; intros [|k] s Hk Hlt; [lia..|]. cbn [read_lines].
  destruct (fgets size s) as [[l r]|] eqn:Hr; [|done]. apply fgets_shorter in Hr; [|done].
  f_equal. apply IH; lia.
Qed.

Lemma file_lines_step size s l r :
  (1 < size)%nat -> fgets size s = Some (l, r) -> file_lines size s = l :: file_lines size r.
Proof.
  intros Hsize Hr. unfold file_lines at 1. cbn [read_lines]. rewrite Hr. f_equal.
  apply read_lines_fuel; [done|]. by apply fgets_shorter in Hr.
Qed.

Lemma file_lines_end size s : fgets size s = None -> file_lines size s = [].
Proof. intros Hr. unfold file_lines. cbn [read_lines]. by rewrite Hr. Qed.
