(* ===== verification/Console.v ===== *)
(** * Console: what the manual modes read from the standard input

[scanf] and [getchar] as [memory_sim.c] and [no_memory_sim.c] call them, over
the text that is left to read and the local variables they store into. *)
From Stdlib Require Import Ascii.
From S2P Require Import Prelude Scan.

(** The local variables of a manual mode, [None] while unwritten, and what
is left of the standard input. *)
Record Console := mkConsole {
  c_input : string;
  l_order : option ascii;
  l_type : option string;
  l_symbol : option string;
  l_price : option Z;
  l_amount : option Z
}.

Definition set_input (s : string) (c : Console) : Console :=
  mkConsole s (l_order c) (l_type c) (l_symbol c) (l_price c) (l_amount c).

(** Non-blank characters up to a blank. *)
Fixpoint span_word (s : string) : string * string :=
  match s with
  | String c s' => if is_space c then (EmptyString, s)
                   else let '(a, b) := span_word s' in (String c a, b)
  | EmptyString => (EmptyString, EmptyString)
  end.

Section Input.
Context {W : Type}.

Abbreviation Manual := (Console * W)%type.

(** The rest of the program, next to its console. *)
Definition on_rest {A} (c : M W A) : M Manual A :=
  zoom snd (fun w s => (s.1, w)) c.
Definition console : M Manual Console := gets fst.
Definition set_console (c : Console) : M Manual unit := modify (fun s => (c, s.2)).

(** [while (getchar() != '\n');]: at the end of the input [getchar] returns
[EOF] again and again. *)
Definition skip_line_body (_ : unit) : M Manual (unit + unit) :=
  let! c := console in
  match c_input c with
  | EmptyString => ret (inl tt)
  | String x s => set_console (set_input s c) ;;!
                  if Ascii.eqb x newline then ret (inr tt) else ret (inl tt)
  end.
Definition skip_line (fuel : nat) : M Manual unit := loop fuel skip_line_body tt.

(** [scanf(" %c", &order)]: nothing is stored at the end of the input. *)
Definition scan_order : M Manual unit :=
  let! c := console in
  match skip_space (c_input c) with
  | EmptyString => set_console (set_input "" c)
  | String x s => set_console (mkConsole s (Some x) (l_type c) (l_symbol c) (l_price c) (l_amount c))
  end.

(** The conversions of [scanf("%s %s %d %d", ...)],
one at a time; each says whether it matched, the first failure ends the call. *)
Definition scan_word (size : nat) (store : string -> Console -> Console) : M Manual bool :=
  let! c := console in
  let '(word, rest) := span_word (skip_space (c_input c)) in
  if String.eqb word "" then set_console (set_input rest c) ;;! ret false else
  if (size <=? String.length word)%nat then undef else
  set_console (store (c_string word) (set_input rest c)) ;;! ret true.

Definition scan_number (store : Z -> Console -> Console) : M Manual bool :=
  let! c := console in
  match scan_int (c_input c) with
  | None => set_console (set_input (skip_space (c_input c)) c) ;;! ret false
  | Some (v, rest) =>
      if in_s32 v then set_console (store v (set_input rest c)) ;;! ret true else undef
  end.

(** ** What a line costs *)

Lemma skip_line_end fuel (c : Console) (w : W) :
  c_input c = "" -> skip_line fuel (c, w) = NoFuel (c, w).
Proof.
  intros Hc. unfold skip_line. induction fuel as [|fuel IH]; [done|]. cbn [loop].
  unfold skip_line_body at 1. unfold bind at 1. unfold bind at 1. unfold console, gets. cbn [fst].
  rewrite Hc. exact IH.
Qed.

(** The text after the first newline, if there is one. *)
Fixpoint after_newline (s : string) : option string :=
  match s with
  | EmptyString => None
  | String c s' => if Ascii.eqb c newline then Some s' else after_newline s'
  end.

Lemma skip_line_short fuel (c : Console) (w : W) :
  after_newline (c_input c) = None -> exists s, skip_line fuel (c, w) = NoFuel s.
Proof.
  unfold skip_line. revert c. induction fuel as [|fuel IH]; intros c Hc; [by eexists|]. cbn [loop].
  unfold skip_line_body at 1. unfold bind at 1. unfold bind at 1. unfold console, gets. cbn [fst].
  destruct (c_input c) as [|x s] eqn:Hs; cbn [after_newline] in Hc.
  - cbn [ret]. apply IH. by rewrite Hs.
  - unfold bind, set_console, modify. destruct (Ascii.eqb x newline); [done|]. cbn [ret snd].
    by apply IH.
Qed.

Lemma skip_line_run fuel (c : Console) (w : W) :
  (String.length (c_input c) < fuel)%nat ->
  skip_line fuel (c, w) =
    match after_newline (c_input c) with
    | Some s => Val tt (set_input s c, w)
    | None => NoFuel (set_input "" c, w)
    end.
Proof.
  unfold skip_line. revert c. induction fuel as [|fuel IH]; intros c Hlen; [lia|]. cbn [loop].
  destruct (c_input c) as [|x s] eqn:Hc; cbn [after_newline].
  - unfold skip_line_body at 1. unfold bind at 1. unfold bind at 1. unfold console, gets. cbn [fst].
    rewrite Hc. cbn [ret]. replace (set_input "" c) with c by (destruct c; cbn in Hc; by rewrite Hc).
    by apply (skip_line_end fuel).
  - unfold skip_line_body at 1. unfold bind at 1. unfold bind at 1. unfold console, gets. cbn [fst].
    rewrite Hc. unfold bind, set_console, modify. destruct (Ascii.eqb x newline); cbn [ret snd]; [done|].
    rewrite (IH (set_input s c)) by (cbn; simpl in Hlen; lia). cbn [c_input set_input].
    by destruct (after_newline s).
Qed.

End Input.
