(* ===== verification/MemorySim.v ===== *)
(** * MemorySim: the program [sw_sim/memory_sim.c]

The three modes of the paged simulator (random orders, orders typed by a user,
orders of a CSV file) and [main]. *)
From Stdlib Require Import Ascii.
From S2P Require Import Prelude HeapModel Machine Heap Book PageTable Mmu World Submit Scan Console.

(** ** Random orders *)

Section Automatic.
Context `{Env}.

Definition symbols : list string := ["AAA"; "BBB"; "CCC"; "DDD"; "EEE"; "FFF"].
Definition num_symbols : Z := 6.

(** One turn of the loop.  The arguments of [create_order] are evaluated in the
order they are written; C leaves the order open, and nothing below depends on
which call of [rand] gives which argument. *)
Definition automatic_order : M World unit :=
  let! k := world_mach (rand_range 0 (num_symbols - 1)) in
  let! symbol := lift (array_get symbols k) in
  let! price := world_mach (rand_range 1 MAX_PRICE) in
  let! amount := world_mach (rand_range 1 MAX_AMOUNT) in
  let! ty := world_mach (rand_range 0 1) in
  submit_new price amount ty symbol type (fun o => (Machine.price o, Machine.amount o)).

Definition automatic_execution (orders : Z) : M World unit :=
  for_each (seqZ 0 orders) (fun _ => automatic_order) ;;!
  print_sim_stats.

End Automatic.

(** ** Orders of a file *)

Section Csv.
Context `{Env}.

(** [sscanf(line, "%[^,],%[^,],%d,%d", type, symbol, &price, &amount)], with
its result compared to 4.  [None] is undefined behaviour: a field that does not
fit in [type[16]] or [symbol[8]], or a number that does not fit in an [int]. *)
Inductive scanned := Fields (type symbol : string) (price amount : Z) | Malformed.

Definition scan_amount (ty sym : string) (price : Z) (r : string) : option scanned :=
  match r with
  | String "," r =>
      match scan_int r with
      | Some (amount, _) => if in_s32 amount then Some (Fields ty sym price amount) else None
      | None => Some Malformed
      end
  | _ => Some Malformed
  end.

Definition scan_price (ty sym : string) (r : string) : option scanned :=
  match r with
  | String "," r =>
      match scan_int r with
      | Some (price, r) => if in_s32 price then scan_amount ty sym price r else None
      | None => Some Malformed
      end
  | _ => Some Malformed
  end.

Definition scan_fields (line : string) : option scanned :=
  let '(ty, r) := span_comma line in
  if String.eqb ty "" then Some Malformed else
  if (16 <=? String.length ty)%nat then None else
  match r with
  | String "," r =>
      let '(sym, r) := span_comma r in
      if String.eqb sym "" then Some Malformed else
      if (8 <=? String.length sym)%nat then None else scan_price ty sym r
  | _ => Some Malformed
  end.

(** [int is_ask = -1; if ... is_ask = 1; else if ... is_ask = 0;] *)
Definition csv_is_ask (ty : string) : Z :=
  if String.eqb ty "Ask" || String.eqb ty "ASK" then 1
  else if String.eqb ty "Bid" || String.eqb ty "BID" then 0 else -1.

(** The body of the reading loop for one line; whether it counts as an order. *)
Definition csv_line (line : string) : M World bool :=
  let! fields := lift (scan_fields line) in
  match fields with
  | Malformed => world_mach (printf "Skipping malformed line: %s" [Str line]) ;;! ret false
  | Fields ty symbol price amount =>
      let symbol := symbol3 symbol in
      let is_ask := csv_is_ask ty in
      if is_ask <? 0 then
        world_mach (printf "Skipping invalid type: %s\n" [Str ty]) ;;! ret false
      else
        submit_new price amount is_ask symbol (fun _ => is_ask) (fun _ => (price, amount)) ;;!
        ret true
  end.

(** One test of the loop and its body: what is left of the file, and [orders]. *)
Definition csv_body (st : string * Z) : M World ((string * Z) + Z) :=
  let '(rest, orders) := st in
  match fgets 256 rest with
  | None => ret (inr orders)
  | Some (line, rest) =>
      if orders <? MAX_ORDERS then
        let! counts := csv_line line in
        ret (inl (rest, if (counts : bool) then orders + 1 else orders))
      else ret (inr orders)
  end.

(** Whether the first line is read again as an order. *)
Definition no_header (line : string) : bool :=
  contains "ask" line || contains "bid" line || contains "Ask" line || contains "Bid" line.

(** The part after a successful [fopen], for a file that holds [content].  The
first [fgets] leaves [line] unwritten when the file is empty. *)
Definition csv_orders (content : string) : M World unit :=
  match fgets 256 content with
  | None => undef
  | Some (line, rest) =>
      let start := if no_header line then content else rest in
      let! _ := loop (S (String.length start)) csv_body (start, 0) in
      world_mach fclose ;;!
      print_sim_stats
  end.

(** [files name] is the content of the file [name], if it can be opened. *)
Definition csv_execution (files : string -> option string) (filename : string) : M World unit :=
  let failed := world_mach (printf "Error: could not open %s\n" [Str filename]) in
  match files filename with
  | None => failed
  | Some content =>
      let! fp := world_mach fopen in
      if (fp : bool) then csv_orders content else failed
  end.

End Csv.

(** ** Orders typed by a user *)

Section ManualMode.
Context `{Env}.

Abbreviation Manual := (Console * World)%type.

Definition scan_command : M Manual unit :=
  let! b := scan_word 16 (fun v c => mkConsole (c_input c) (l_order c) (Some v) (l_symbol c) (l_price c) (l_amount c)) in
  if negb b then ret tt else
  let! b := scan_word 8 (fun v c => mkConsole (c_input c) (l_order c) (l_type c) (Some v) (l_price c) (l_amount c)) in
  if negb b then ret tt else
  let! b := scan_number (fun v c => mkConsole (c_input c) (l_order c) (l_type c) (l_symbol c) (Some v) (l_amount c)) in
  if negb b then ret tt else
  let! _ := scan_number (fun v c => mkConsole (c_input c) (l_order c) (l_type c) (l_symbol c) (l_price c) (Some v)) in
  ret tt.

Definition manual_is_ask (ty : string) : Z :=
  if String.eqb ty "Ask" || String.eqb ty "ask" then 1
  else if String.eqb ty "Bid" || String.eqb ty "bid" then 0 else -1.

(** The answer [Y]: whether an order was submitted.  [symbol[3] = 0] on an
unwritten array leaves its other bytes unwritten. *)
Definition manual_order (fuel : nat) : M Manual bool :=
  on_rest (world_mach (printf "Format: (ask/bid) (symbol) (price) (amount)\n" [])) ;;!
  scan_command ;;!
  skip_line fuel ;;!
  let! c := console in
  set_console (mkConsole (c_input c) (l_order c) (l_type c) (symbol3 <$> l_symbol c) (l_price c) (l_amount c)) ;;!
  let! ty := lift (l_type c) in
  let is_ask := manual_is_ask ty in
  if is_ask <? 0 then
    on_rest (world_mach (printf "Please specify ask or bid\n" [])) ;;! ret false
  else
    let! price := lift (l_price c) in
    let! amount := lift (l_amount c) in
    let! symbol := lift (symbol3 <$> l_symbol c) in
    on_rest (submit_new price amount is_ask symbol (fun _ => is_ask) (fun _ => (price, amount))) ;;!
    ret true.

Definition manual_body (fuel : nat) (orders : Z) : M Manual (Z + Z) :=
  if orders >=? MAX_ORDERS then
    on_rest (world_mach (printf "Maximum number of orders received, ending simulation\n" [])) ;;!
    ret (inr orders)
  else
    on_rest (world_mach (printf "Would you like to submit an order? (Y/N)\n" [])) ;;!
    scan_order ;;!
    skip_line fuel ;;!
    let! c := console in
    let! order := lift (l_order c) in
    if Ascii.eqb order "Y" || Ascii.eqb order "y" then
      let! submitted := manual_order fuel in
      ret (inl (if (submitted : bool) then orders + 1 else orders))
    else if Ascii.eqb order "N" || Ascii.eqb order "n" then
      on_rest (world_mach (printf "Ending simulation\n" [])) ;;!
      ret (inr orders)
    else
      on_rest (world_mach (printf "Please submit Y or N\n" [])) ;;!
      ret (inl orders).

(** Every turn reads a character of the input, or never ends. *)
Definition manual_execution (input : string) : M World unit := fun w =>
  zoom (fun w => (mkConsole input None None None None None, w)) (fun s _ => s.2)
    (let! _ := loop (S (String.length input)) (manual_body (S (String.length input))) 0 in
     on_rest print_sim_stats) w.

(** ** [main] *)

(** The options of the command line, after the program's name.  [None]: the
value of the last option is missing, or is not an [int]. *)
Fixpoint parse_args (args : list string) (mode orders : Z) : option (Z * Z) :=
  match args with
  | [] => Some (mode, orders)
  | a :: args' =>
      if String.eqb a "--mode" then
        match args' with
        | v :: args'' => if in_s32 (atoi v) then parse_args args'' (atoi v) orders else None
        | [] => None
        end
      else if String.eqb a "--orders" then
        match args' with
        | v :: args'' => if in_s32 (atoi v) then parse_args args'' mode (atoi v) else None
        | [] => None
        end
      else parse_args args' mode orders
  end.

(** [args] is [argv[1]], ..., [argv[argc-1]]; the result is the exit status. *)
Definition main (files : string -> option string) (input : string) (args : list string) : M World Z :=
  let! p := lift (parse_args args DEFAULT_MODE DEFAULT_ORDERS) in
  let '(mode, orders) := p in
  if negb (mode =? 1) && negb (mode =? 0) && negb (mode =? 2) then
    world_mach (printf "Usage: mode must be either 1 (automatic) or 0 (manual) \n" []) ;;! ret 1
  else if orders <? 2 then
    world_mach (printf "Usage: At least 2 orders must be submitted \n" []) ;;! ret 1
  else if mode =? 1 then automatic_execution orders ;;! ret 0
  else if mode =? 0 then manual_execution input ;;! ret 0
  else
    match last args with
    | Some filename =>
        if 2 <? Z.of_nat (length args) + 1 then csv_execution files filename ;;! ret 0
        else world_mach (printf "Usage: supply a .csv file as the last arguement\n" []) ;;! ret 1
    | None => world_mach (printf "Usage: supply a .csv file as the last arguement\n" []) ;;! ret 1
    end.

End ManualMode.

(** ** The invariant through a whole run *)

(** All the lines of [print_sim_stats]. *)
Definition stats_report (w : World) : list line :=
  mkLine Stdout "\nPer-Symbol Breakdown:\n" [] ::
  ((fun ob => mkLine Stdout "%s: %d trades, %d open asks, %d open bids, %d pages used\n"
      [Str (ob_symbol ob); Int (trades ob); Int (size (asks ob)); Int (size (bids ob));
       Int (page_count (mem ob))]) <$> books (w_ex w)) ++
  [mkLine Stdout "\nOverflow:\n" [];
   mkLine Stdout "Accesses:       %d\n" [Int (overflow_accesses (w_stats w))];
   mkLine Stdout "Current usage:  %d/%d\n" [Int (cnt (overflow (w_mm w))); Int 8];
   mkLine Stdout "Maximum usage: %d/%d\n" [Int (overflow_max (w_stats w)); Int 8];
   mkLine Stdout "Penalty cycles: %d\n" [Int (overflow_accesses (w_stats w) * 5)];
   mkLine Stdout "\nTotals:\n" [];
   mkLine Stdout "Hard rejects: %d\n" [Int (hard_rejects (w_mm w))];
   mkLine Stdout "Trades:       %d\n" [Int (total_trades (w_stats w))];
   mkLine Stdout "Reads:        %d\n" [Int (total_reads (w_stats w))];
   mkLine Stdout "Writes:       %d\n" [Int (total_writes (w_stats w))];
   mkLine Stdout "Cycles:       %lld\n" [Int (total_cycles (w_stats w))]].

Definition print_lines (ls : list line) (w : World) : World :=
  mkWorld (emit ls (w_mach w)) (w_ex w) (w_mm w) (w_stats w).

(** The orders in all the heaps. *)
Definition sum_open (gs : list Contents) : Z := foldr Z.add 0 (open_orders <$> gs).

Lemma sum_open_app gs g : sum_open (gs ++ [g]) = sum_open gs + open_orders g.
Proof.
  unfold sum_open. rewrite fmap_app, foldr_app. induction gs as [|h gs IH]; cbn in *; [|rewrite IH]; lia.
Qed.

Lemma sum_open_pos gs : 0 <= sum_open gs.
Proof.
  unfold sum_open. induction gs as [|h gs IH]; [done|]. cbn [fmap list_fmap foldr].
  unfold open_orders at 1. lia.
Qed.

Lemma sum_open_insert gs i g g' :
  gs !! i = Some g -> sum_open (<[i := g']> gs) = sum_open gs - open_orders g + open_orders g'.
Proof.
  unfold sum_open. revert i. induction gs as [|h gs IH]; intros [|i] Hi; [done..| |].
  - cbn in Hi |- *. simplify_eq. lia.
  - specialize (IH i Hi). change (foldr Z.add 0 (open_orders <$> <[S i := g']> (h :: gs)))
      with (open_orders h + foldr Z.add 0 (open_orders <$> <[i := g']> gs)). rewrite IH. cbn. lia.
Qed.

Lemma emit_app ls1 ls2 m : emit ls2 (emit ls1 m) = emit (ls1 ++ ls2) m.
Proof. unfold emit. cbn. by rewrite app_assoc. Qed.

Section Runs.
Context `{EnvOk}.

Lemma print_books_run (f : OrderBook -> Z -> line) bs ls w :
  (forall ob n, line_stream (f ob n) = Stdout) -> Forall (fun ob => in_s32 (trades ob) = true) bs ->
  forall pre, books (w_ex w) = pre ++ bs ->
  for_each (seqZ (Z.of_nat (length pre)) (Z.of_nat (length bs))) (fun i =>
    let! ob := lift (array_get (books (w_ex w)) i) in
    let! n := int (trades ob) in
    world_mach (printf (line_format (f ob n)) (line_args (f ob n)))) (print_lines ls w) =
  Val tt (print_lines (ls ++ ((fun ob => f ob (trades ob)) <$> bs)) w).
Proof.
  intros Hf Hall. revert ls. induction Hall as [|ob bs Hob _ IH]; intros ls pre Hbs; [by rewrite app_nil_r|].
  rewrite seqZ_cons by (simpl; lia). cbn [for_each].
  run (rewrite array_get_nat, Hbs, lookup_app_r, Nat.sub_diag by lia;
       unfold bind, lift, int, ret; cbn; rewrite Hob; reflexivity).
  replace (Z.succ (Z.of_nat (length pre))) with (Z.of_nat (length (pre ++ [ob])))
    by (rewrite length_app; simpl; lia).
  replace (Z.pred (Z.of_nat (length (ob :: bs)))) with (Z.of_nat (length bs)) by (simpl; lia).
  assert (Hbs' : books (w_ex w) = (pre ++ [ob]) ++ bs) by by rewrite <- app_assoc.
  specialize (IH (ls ++ [f ob (trades ob)]) (pre ++ [ob]) Hbs'). rewrite <- app_assoc in IH.
  rewrite fmap_cons. change (?x :: ?l) with ([x] ++ l).
  rewrite <- IH. unfold print_lines. cbn [w_mach w_ex w_mm w_stats]. rewrite emit_app.
  destruct (f ob (trades ob)) as [s fm args] eqn:E.
  specialize (Hf ob (trades ob)). rewrite E in Hf. cbn in Hf. by subst.
Qed.

(** The counters after [n] orders. *)
Record accounted (n : Z) (w : World) (gs : list Contents) : Prop := {
  ac_trades : 0 <= total_trades (w_stats w) <= n - sum_open gs;
  ac_reads : 0 <= total_reads (w_stats w) <= 2 * (n + total_trades (w_stats w));
  ac_writes : 0 <= total_writes (w_stats w) <= n + total_trades (w_stats w);
  ac_overflow : 0 <= overflow_accesses (w_stats w) <= n;
  ac_rejects : 0 <= hard_rejects (w_mm w) <= n;
  ac_cycles : 0 <= total_cycles (w_stats w) <= 12 * (2 * n + total_trades (w_stats w));
  ac_books : Forall (fun ob => 0 <= trades ob) (books (w_ex w))
}.

Lemma accounted_init m : accounted 0 (init_world m) [].
Proof. by split. Qed.

Lemma accounted_created n ord w gs : accounted n w gs -> accounted n (created ord w) gs.
Proof. intros []. by split. Qed.

(** One more order. *)
Lemma accounted_next n o w gs w' gs' :
  accounted n w gs -> processed o w gs w' gs' -> accounted (n + 1) w' gs'.
Proof.
  intros [Ht Hr Hw Ho Hj Hc Hb] (i & w1 & gs1 & ob & g & g' & Hg & -> & Hgs1 & _ & _ &
    (Hmm & Hst & Hb1) & _ & _ & _ & [_ _ _ _ _ [Ht' Hr' Hw' Ho' Hj' Hc' Hb']]).
  assert (Hsum : sum_open gs1 = sum_open gs)
    by (destruct Hgs1 as [->| ->]; [done|rewrite sum_open_app; unfold open_orders; cbn; lia]).
  rewrite Hst, ?Hmm in *. split; auto; try lia.
  rewrite (sum_open_insert _ _ _ _ Hg). lia.
Qed.

(** As long as the product that is printed fits, so does everything else. *)
Definition fits (w : World) : Prop :=
  exists n gs, accounted n w gs /\ counted w /\ 5 * n < 2 ^ 31.

Lemma fits_books w : fits w -> Forall (fun ob => in_s32 (trades ob) = true) (books (w_ex w)).
Proof.
  intros (n & gs & [Ht _ _ _ _ _ Hb] & [Hc _ _] & Hn). pose proof (sum_open_pos gs).
  assert (Hsum : forall bs, Forall (fun ob => 0 <= trades ob) bs ->
    0 <= sum_trades bs /\ Forall (fun ob => trades ob <= sum_trades bs) bs).
  { unfold sum_trades. induction 1 as [|ob bs Hob _ [IH0 IH]]; [done|]. cbn. split; [lia|].
    constructor; [lia|]. eapply Forall_impl; [exact IH|]. cbv beta. lia. }
  destruct (Hsum _ Hb) as [_ Hle]. rewrite Forall_forall in *. intros ob Hin.
  specialize (Hb ob Hin). specialize (Hle ob Hin). apply in_s32_true. lia.
Qed.

Lemma print_sim_stats_run w gs :
  world_wf w gs -> fits w -> print_sim_stats w = Val tt (print_lines (stats_report w) w).
Proof.
  intros Hw Hfits. pose proof (fits_books w Hfits) as Hbooks.
  destruct Hfits as (n & gs' & [Ht Hr Hwr Ho Hj Hc _] & _ & Hn). pose proof (sum_open_pos gs').
  unfold print_sim_stats. run. run. cbn [w_ex]. rewrite (ww_cnt _ _ Hw).
  run (apply (print_books_run (fun ob n =>
    mkLine Stdout "%s: %d trades, %d open asks, %d open bids, %d pages used\n"
      [Str (ob_symbol ob); Int n; Int (size (asks ob)); Int (size (bids ob));
       Int (page_count (mem ob))]) (books (w_ex w)) [mkLine Stdout "\nPer-Symbol Breakdown:\n" []]
     w (fun _ _ => eq_refl) Hbooks []); done).
  run. run. cbn [w_mm w_stats print_lines].
  do 6 (run (apply int_val; unfold PAGE_WALK_CYCLES, OVERFLOW_PENALTY_CYCLES; lia)).
  run (apply long_long_val; lia).
  unfold world_mach, zoom, printf, fprintf, bind, gets. cbn [w_mm w_stats w_ex w_mach print_lines].
  rewrite !emit_app, <- !app_assoc. done.
Qed.

(** Everything the machine does but its store is outside the invariant. *)
Lemma exchange_ok_mach w gs m' :
  exchange_ok w gs -> store m' = store (w_mach w) ->
  exchange_ok (mkWorld m' (w_ex w) (w_mm w) (w_stats w)) gs.
Proof.
  intros [Hw [] Hu] Hst. split; [|by split|unfold all_uncrossed; cbn; by rewrite Hst].
  apply world_extend; [done|]. rewrite Hst. apply (same_keys_frame []), store_frame_refl.
Qed.

Lemma world_rand min max w :
  0 <= min <= max -> max < 2 ^ 30 ->
  exists v, world_mach (rand_range min max) w =
      Val v (mkWorld (next_rand (w_mach w)) (w_ex w) (w_mm w) (w_stats w)) /\ min <= v <= max.
Proof.
  intros Hmin Hmax. destruct (rand_range_run min max (w_mach w) Hmin Hmax) as (v & Hrun & Hv).
  exists v. split; [|done]. unfold world_mach, zoom. by rewrite Hrun.
Qed.

(** The invariant of the random mode after [n] orders. *)
Definition automatic_inv (n : nat) (w : World) : Prop :=
  exists gs, exchange_ok w gs /\ amounts_ok MAX_AMOUNT (store (w_mach w)) gs /\
    length (store (w_mach w)) = n /\ accounted (Z.of_nat n) w gs.

Lemma processed_length o w gs w' gs' :
  processed o w gs w' gs' -> length (store (w_mach w')) = length (store (w_mach w)).
Proof.
  intros (i & w1 & gs1 & ob & g & g' & _ & _ & _ & _ & Hst & _ & _ & _ & _ & [_ (Hl & _) _ _ _ _]).
  by rewrite Hl, Hst.
Qed.

Lemma submit_new_automatic n w price amount ty name :
  automatic_inv n w -> symbol3 name = name -> 1 <= amount <= MAX_AMOUNT -> Z.of_nat n + 1 < 2 ^ 29 ->
  wp (submit_new price amount ty name type (fun o => (Machine.price o, Machine.amount o)))
    (fun _ w' => automatic_inv (S n) w') out_of_streams w.
Proof.
  intros (gs & Hok & Ham & Hn & Hacc) Hname Hamt Hmax. unfold MAX_AMOUNT in *.
  eapply wp_mono; [apply (submit_new_ok w gs); [done|done|lia]| |done].
  intros _ w' (gs' & Hok' & Hproc). exists gs'. split; [done|].
  pose proof (processed_length _ _ _ _ _ Hproc) as Hlen. cbn in Hlen. rewrite length_app in Hlen.
  split; [|split; [simpl in Hlen; lia|]].
  2: { rewrite Nat2Z.inj_succ. exact (accounted_next _ _ _ _ _ _ (accounted_created _ _ _ _ Hacc) Hproc). }
  eapply processed_amounts; [|exact Hproc|..].
  - done.
  - cbn. rewrite lookup_total_app_r, Nat.sub_diag by lia. unfold tradable. cbn.
    rewrite s16_small by lia. unfold MAX_AMOUNT. lia.
  - unfold amounts_ok in *. rewrite Forall_forall in *. intros g Hg.
    assert (Hsame : forall p, p ∈ c_asks g ++ c_bids g ->
      (store (w_mach w) ++ [new_order price amount ty name (clock (clock_calls (w_mach w)))]) !!! p =
      store (w_mach w) !!! p).
    { intros p Hp. apply lookup_total_app_l. eapply contents_old; [apply Hok|done|done]. }
    cbn. rewrite (view_same (store (w_mach w)) _ (c_asks g)), (view_same (store (w_mach w)) _ (c_bids g))
      by (intros p Hp; apply Hsame, elem_of_app; auto).
    by apply Ham.
Qed.

Lemma automatic_order_ok n w :
  automatic_inv n w -> Z.of_nat n + 1 < 2 ^ 29 ->
  wp automatic_order (fun _ w' => automatic_inv (S n) w') out_of_streams w.
Proof.
  intros Hinv Hmax. unfold automatic_order.
  assert (Hmach : forall w, automatic_inv n w ->
    automatic_inv n (mkWorld (next_rand (w_mach w)) (w_ex w) (w_mm w) (w_stats w))).
  { intros w0 (gs & Hok & Ham & Hn & []). exists gs.
    split; [by apply exchange_ok_mach|]. split; [done|]. split; [done|by split]. }
  apply wp_bind. destruct (world_rand 0 (num_symbols - 1) w) as (k & Hrun & Hk); [done..|].
  eapply wp_val; [exact Hrun|]. apply Hmach in Hinv. unfold num_symbols in Hk.
  destruct (array_get_in symbols k) as (name & Hname & Hlook); [simpl; lia|].
  assert (Hsym3 : symbol3 name = name).
  { apply list_elem_of_lookup_2 in Hlook. unfold symbols in Hlook.
    repeat (apply elem_of_cons in Hlook as [->|Hlook]; [done|]). by apply not_elem_of_nil in Hlook. }
  apply wp_bind. eapply wp_lift; [exact Hname|].
  apply wp_bind. edestruct (world_rand 1 MAX_PRICE) as (price & Hrunp & Hp); [done..|].
  eapply wp_val; [exact Hrunp|]. apply Hmach in Hinv.
  apply wp_bind. edestruct (world_rand 1 MAX_AMOUNT) as (amount & Hruna & Ha); [done..|].
  eapply wp_val; [exact Hruna|]. apply Hmach in Hinv.
  apply wp_bind. edestruct (world_rand 0 1) as (ty & Hrunt & Ht); [done..|].
  eapply wp_val; [exact Hrunt|]. apply Hmach in Hinv. by apply submit_new_automatic.
Qed.

Lemma exchange_ok_init m : store m = [] -> exchange_ok (init_world m) [].
Proof.
  intros Hst. split; [|split; cbn; done|by constructor].
  split; cbn; try done; [lia|apply initial_mm_ok|by constructor].
Qed.

Lemma automatic_orders_ok n :
  0 <= n < 2 ^ 29 ->
  wp (for_each (seqZ 0 n) (fun _ => automatic_order)) (fun _ w' => automatic_inv (Z.to_nat n) w')
    out_of_streams (init_world init_mach).
Proof.
  intros Hn.
  eapply wp_mono; [apply (wp_for_each (fun xs w => (length xs <= Z.to_nat n)%nat /\
    automatic_inv (Z.to_nat n - length xs) w))| |done].
  - intros x xs w [Hlen Hinv]. cbn [length] in *.
    eapply wp_mono; [apply (automatic_order_ok _ w Hinv); lia| |done].
    intros u w' Hinv'. split; [lia|]. by replace (Z.to_nat n - length xs)%nat with
      (S (Z.to_nat n - S (length xs))) by lia.
  - rewrite length_seqZ. split; [done|]. exists []. rewrite Nat.sub_diag.
    split; [by apply exchange_ok_init|]. split; [constructor|]. split; [done|apply accounted_init].
  - intros u w' [_ Hinv]. cbn [length] in Hinv. by rewrite Nat.sub_0_r in Hinv.
Qed.

(** ** Reading a file *)

(** The order that a line of a file stands for. *)
Definition line_key (line : string) : option (Z * Z * string) :=
  match scan_fields line with
  | Some (Fields ty sym price amount) =>
      if csv_is_ask ty <? 0 then None else Some (s16 price, csv_is_ask ty, symbol3 sym)
  | _ => None
  end.

Definition csv_inv (keys : list (Z * Z * string)) (w : World) : Prop :=
  exists gs, exchange_ok w gs /\ accounted (Z.of_nat (length keys)) w gs /\
    order_key <$> store (w_mach w) = keys.

Lemma csv_line_ok keys line w :
  csv_inv keys w -> is_Some (scan_fields line) -> Z.of_nat (length keys) + 1 < 2 ^ 29 ->
  wp (csv_line line) (fun b w' => b = bool_decide (is_Some (line_key line)) /\
    csv_inv (keys ++ option_list (line_key line)) w') out_of_streams w.
Proof.
  intros (gs & Hok & Hacc & Hkeys) [f Hf] Hmax. unfold csv_line, line_key. apply wp_bind.
  eapply wp_lift; [exact Hf|]. rewrite Hf.
  assert (Hprint : forall ls, csv_inv keys (print_lines ls w)).
  { intros ls. exists gs. split; [by apply exchange_ok_mach|]. split; [destruct Hacc; by split|done]. }
  destruct f as [ty sym price amount|]; cbn beta iota.
  - destruct (Z.ltb_spec (csv_is_ask ty) 0) as [Hneg|Hpos]; apply wp_bind.
    + eapply wp_val; [reflexivity|]. apply wp_ret. cbn. rewrite app_nil_r. split; [done|apply Hprint].
    + eapply wp_mono; [apply (submit_new_ok w gs); [done|apply symbol3_idem|]| |done].
      { rewrite <- (length_fmap order_key), Hkeys. done. }
      intros _ w' (gs' & Hok' & Hproc). apply wp_ret. split; [done|].
      exists gs'. split; [done|]. split.
      { rewrite length_app. cbn [length option_list]. rewrite Nat2Z.inj_add.
        exact (accounted_next _ _ _ _ _ _ (accounted_created _ _ _ _ Hacc) Hproc). }
      rewrite (processed_keys _ _ _ _ _ Hproc). cbn.
      rewrite fmap_app, Hkeys. cbn. unfold order_key, new_order. cbn. by rewrite symbol3_idem.
  - apply wp_bind. eapply wp_val; [reflexivity|]. apply wp_ret. cbn. rewrite app_nil_r.
    split; [done|apply Hprint].
Qed.

(** The keys that a file stands for, at most [MAX_ORDERS] of them. *)
Definition file_keys (s : string) : list (Z * Z * string) := omap line_key (file_lines 256 s).

Lemma csv_loop_ok start w :
  csv_inv [] w -> Forall (fun l => is_Some (scan_fields l)) (file_lines 256 start) ->
  wp (loop (S (String.length start)) csv_body (start, 0))
    (fun n w' => csv_inv (take (Z.to_nat MAX_ORDERS) (file_keys start)) w' /\
       n = Z.of_nat (length (take (Z.to_nat MAX_ORDERS) (file_keys start))))
    out_of_streams w.
Proof.
  intros Hinv Hclean.
  apply (wp_loop (fun '(rest, orders) w =>
    exists keys, csv_inv keys w /\ orders = Z.of_nat (length keys) /\ orders <= MAX_ORDERS /\
      take (Z.to_nat MAX_ORDERS) (keys ++ file_keys rest) = take (Z.to_nat MAX_ORDERS) (file_keys start) /\
      Forall (fun l => is_Some (scan_fields l)) (file_lines 256 rest))
    (fun '(rest, _) _ => String.length rest)); [|lia|by exists []].
  intros [rest orders] w1 (keys & Hk & Hord & Hle & Htake & Hcl). cbn [csv_body].
  assert (Hfull : forall extra, orders = MAX_ORDERS ->
    take (Z.to_nat MAX_ORDERS) (keys ++ extra) = keys).
  { intros extra Heq. replace (Z.to_nat MAX_ORDERS) with (length keys) by lia. apply take_app_length. }
  destruct (fgets 256 rest) as [[line rest']|] eqn:Hr.
  - pose proof (file_lines_step 256 _ _ _ ltac:(lia) Hr) as Hlines.
    rewrite Hlines in Hcl. apply Forall_cons in Hcl as [Hline Hcl].
    unfold file_keys in Htake at 1. rewrite Hlines in Htake.
    destruct (Z.ltb_spec orders MAX_ORDERS) as [Hlt|Hge].
    + apply wp_bind. eapply wp_mono; [apply (csv_line_ok keys line); [done..|]| |done].
      { unfold MAX_ORDERS in Hlt. lia. }
      intros b w2 [-> Hk2]. apply wp_ret. split; [|by apply fgets_shorter in Hr; [|lia]].
      exists (keys ++ option_list (line_key line)). split; [done|].
      cbn [omap list_omap] in Htake. destruct (line_key line) as [k|] eqn:Hkey; cbn in *.
      * rewrite length_app. cbn. do 2 (split; [lia|]). split; [|done]. by rewrite <- app_assoc.
      * rewrite app_nil_r. by repeat split.
    + apply wp_ret. rewrite <- Htake, Hfull by lia. done.
  - apply wp_ret. unfold file_keys in Htake at 1. rewrite (file_lines_end _ _ Hr) in Htake.
    change (omap line_key []) with (@nil (Z * Z * string)) in Htake. rewrite app_nil_r, take_ge in Htake by lia. by rewrite <- Htake.
Qed.

End Runs.

(** A line of a file, as a user of the program writes it. *)
Definition csv_text (ty sym : string) (price amount : Z) : string :=
  ty ++ String comma (sym ++ String comma (dec price ++ String comma (dec amount ++ String newline ""))).

Fixpoint comma_free (s : string) : bool :=
  match s with
  | String c s' => negb (Ascii.eqb c comma) && comma_free s'
  | EmptyString => true
  end.

Lemma span_comma_app s r : comma_free s = true -> span_comma (s ++ String comma r) = (s, String comma r).
Proof.
  induction s as [|c s IH]; [done|]. 
  change (String c s ++ String comma r)%string with (String c (s ++ String comma r)%string).
  cbn [comma_free span_comma]. intros [Hc Hs]%andb_true_iff. apply negb_true_iff in Hc.
  by rewrite Hc, IH.
Qed.

(** The rows that follow are skipped, and the file is read from here. *)
Definition csv_start (content : string) : string :=
  match fgets 256 content with
  | Some (line, rest) => if no_header line then content else rest
  | None => ""
  end.

Section CsvRun.
Context `{EnvOk}.

Lemma csv_execution_run files name content :
  files name = Some content -> content <> ""%string ->
  Forall (fun l => is_Some (scan_fields l)) (file_lines 256 (csv_start content)) ->
  (0 < open_limit)%nat ->
  wp (csv_execution files name)
    (fun _ w' => exists w0 gs, w' = print_lines (stats_report w0) w0 /\ exchange_ok w0 gs /\
       order_key <$> store (w_mach w0) = take (Z.to_nat MAX_ORDERS) (file_keys (csv_start content)))
    out_of_streams (init_world init_mach).
Proof.
  intros Hf Hne Hclean Hlim. unfold csv_execution. rewrite Hf. apply wp_bind.
  eapply wp_val.
  { unfold world_mach, zoom, fopen. cbn [init_world w_mach open_files init_mach].
    apply Nat.ltb_lt in Hlim. rewrite Hlim. reflexivity. }
  cbn beta iota. unfold csv_orders, csv_start in *.
  destruct (fgets 256 content) as [[line rest]|] eqn:Hr.
  2: { destruct content as [|c s]; [done|]. unfold fgets in Hr. by destruct (take_line _ _). }
  set (start := if no_header line then content else rest) in *. apply wp_bind.
  eapply wp_mono; [apply csv_loop_ok; [|exact Hclean]| |done].
  { exists []. split; [by apply exchange_ok_mach; [apply exchange_ok_init|]|]. split; [by split|done]. }
  intros n w1 [(gs & Hok & Hacc & Hkeys) _]. apply wp_bind. eapply wp_val; [reflexivity|].
  match goal with |- wp print_sim_stats _ _ ?w => set (w0 := w) end.
  assert (Hok0 : exchange_ok w0 gs) by by apply exchange_ok_mach.
  assert (Hfits : fits w0).
  { eexists _, gs. split; [destruct Hacc; by split|]. split; [apply Hok0|].
    rewrite length_take. unfold MAX_ORDERS. lia. }
  eapply wp_val; [apply (print_sim_stats_run w0 gs); [apply Hok0|done]|]. by exists w0, gs.
Qed.

End CsvRun.

(** ** Properties *)

Section Properties.
Context `{EnvOk}.

(** C1: run on a file whose rows keep to the buffers and to the range of [int],
the CSV mode never meets undefined behaviour and always ends.  It ends with code
1 only when no stream is left; otherwise the orders it has made are those of the
well-formed rows, in their order (at most [MAX_ORDERS]), every invariant of the
exchange holds, no bid of any book reaches an ask, and the last lines printed
are the statistics of that state. *)
Theorem csv_execution_correct files name content :
  files name = Some content -> content <> ""%string ->
  Forall (fun l => is_Some (scan_fields l)) (file_lines 256 (csv_start content)) ->
  (0 < open_limit)%nat ->
  wp (csv_execution files name)
    (fun _ w' => exists w0 gs, w' = print_lines (stats_report w0) w0 /\ exchange_ok w0 gs /\
       order_key <$> store (w_mach w0) = take (Z.to_nat MAX_ORDERS) (file_keys (csv_start content)))
    out_of_streams (init_world init_mach).
Proof. apply csv_execution_run. Qed.

(** C3: for any clock and any values of [rand], and any number of orders for
which five times that number is an [int] (every order may be an access of the
overflow page, and [print_sim_stats] multiplies their number by 3 + 2), the
random mode never meets undefined behaviour, the overflow of a counter included,
and always ends; when it ends normally it has made exactly [orders] orders, every
invariant of the exchange holds, no bid of any book reaches an ask, every order
left has between 1 and [MAX_AMOUNT] shares, and the last lines printed are the
statistics of that state. *)
Theorem automatic_execution_correct orders :
  0 <= orders -> 5 * orders < 2 ^ 31 ->
  wp (automatic_execution orders)
    (fun _ w' => exists w0 gs, w' = print_lines (stats_report w0) w0 /\ exchange_ok w0 gs /\
       amounts_ok MAX_AMOUNT (store (w_mach w0)) gs /\
       Z.of_nat (length (store (w_mach w0))) = orders)
    out_of_streams (init_world init_mach).
Proof.
  intros Hpos Horders. unfold automatic_execution. apply wp_bind.
  eapply wp_mono; [apply automatic_orders_ok; lia| |done].
  intros _ w0 (gs & Hok & Ham & Hn & Hacc).
  eapply wp_val; [apply (print_sim_stats_run w0 gs); [apply Hok|]|].
  { eexists _, gs. split; [exact Hacc|]. split; [apply Hok|lia]. }
  exists w0, gs. do 3 (split; [done|]). lia.
Qed.

End Properties.

(** C40: a row written with [csv_text] is read back as the fields it was made
from, whatever the two numbers, as long as they are [int]s and the two words
have no comma and fit in their buffers. *)
Theorem scan_fields_csv_text ty sym price amount :
  comma_free ty = true -> comma_free sym = true ->
  (0 < String.length ty < 16)%nat -> (0 < String.length sym < 8)%nat ->
  in_s32 price = true -> in_s32 amount = true ->
  scan_fields (csv_text ty sym price amount) = Some (Fields ty sym price amount).
Proof.
  intros Hty Hsym Hlt Hls Hp Ha. unfold scan_fields, csv_text. rewrite span_comma_app by done.
  destruct (String.eqb_spec ty "") as [->|_]; [simpl in Hlt; lia|].
  rewrite (proj2 (Nat.leb_gt _ _)) by lia. rewrite span_comma_app by done.
  destruct (String.eqb_spec sym "") as [->|_]; [simpl in Hls; lia|].
  rewrite (proj2 (Nat.leb_gt _ _)) by lia. cbn [scan_price]. unfold comma at 1.
  rewrite scan_int_dec by done. rewrite Hp. unfold scan_amount, comma.
  rewrite scan_int_dec by done. by rewrite Ha.
Qed.

Lemma scan_fields_csv_text_witness :
  scan_fields (csv_text "Ask" "AAPL" 120 (-7)) = Some (Fields "Ask" "AAPL" 120 (-7)).
Proof. apply (scan_fields_csv_text "Ask" "AAPL" 120 (-7)); simpl; (lia || reflexivity). Defined.

(** A header, an ask, a bid that crosses it, and a row of an unknown type. *)
Definition demo_csv : string :=
  "type,symbol,price,amount" +:+ String newline
  (csv_text "Ask" "AAPL" 100 5 +:+ csv_text "Bid" "AAPL" 101 3 +:+ csv_text "Sell" "AAPL" 1 1).

Lemma csv_execution_correct_witness :
  wp (@csv_execution demo_env (fun _ => Some demo_csv) "orders.csv")
    (fun _ w' => exists w0 gs, w' = print_lines (stats_report w0) w0 /\ exchange_ok w0 gs /\
       order_key <$> store (w_mach w0) = take (Z.to_nat MAX_ORDERS) (file_keys (csv_start demo_csv)))
    (@out_of_streams demo_env) (init_world init_mach).
Proof.
  refine (@csv_execution_correct demo_env (fun _ => Some demo_csv) "orders.csv" demo_csv
    eq_refl _ _ _).
  - discriminate.
  - assert (Hlines : file_lines 256 (csv_start demo_csv) =
      [csv_text "Ask" "AAPL" 100 5; csv_text "Bid" "AAPL" 101 3; csv_text "Sell" "AAPL" 1 1])
      by (vm_compute; reflexivity).
    rewrite Hlines. repeat constructor; vm_compute; eexists; reflexivity.
  - simpl. lia.
Defined.

(** The two orders of the file, by their keys. *)
Example demo_csv_keys : file_keys (csv_start demo_csv) = [(100, 1, "AAP"%string); (101, 0, "AAP"%string)].
Proof. vm_compute. reflexivity. Qed.

Lemma automatic_execution_correct_witness :
  wp (@automatic_execution demo_env 100)
    (fun _ w' => exists w0 gs, w' = print_lines (stats_report w0) w0 /\ exchange_ok w0 gs /\
       amounts_ok MAX_AMOUNT (store (w_mach w0)) gs /\
       Z.of_nat (length (store (w_mach w0))) = 100)
    (@out_of_streams demo_env) (init_world init_mach).
Proof. apply (@automatic_execution_correct demo_env demo_env_ok 100); lia. Defined.

(** A row whose first field has sixteen characters or more is copied past
the end of [type[16]]: reading the row is undefined behaviour. *)
Theorem csv_long_field_overflows `{Env} ty rest w :
  comma_free ty = true -> (16 <= String.length ty)%nat ->
  csv_line (ty +:+ String comma rest) w = Undef.
Proof.
  intros Hty Hlen. unfold csv_line, bind.
  assert (Hnone : scan_fields (ty +:+ String comma rest) = None); [|by rewrite Hnone].
  unfold scan_fields. rewrite span_comma_app by done.
  destruct (String.eqb_spec ty "") as [->|_]; [simpl in Hlen; lia|].
  by rewrite (proj2 (Nat.leb_le _ _)) by lia.
Qed.

Lemma csv_long_field_overflows_witness :
  @csv_line demo_env ("AskAskAskAskAskAsk" +:+ String comma "AAPL,1,1") (init_world init_mach) = Undef.
Proof.
  apply (@csv_long_field_overflows demo_env "AskAskAskAskAskAsk" "AAPL,1,1" (init_world init_mach));
    [reflexivity|simpl; lia].
Defined.

(** The test for a header line does not know the upper-case types that the rows
may have: in a file written with [ASK] and [BID] the first order is lost. *)
Example upper_case_first_row_lost :
  file_keys (csv_start (csv_text "ASK" "AAPL" 100 5 +:+ csv_text "BID" "AAPL" 101 3)) =
    [(101, 0, "AAP"%string)] /\
  line_key (csv_text "ASK" "AAPL" 100 5) = Some (100, 1, "AAP"%string).
Proof. split; vm_compute; reflexivity. Qed.

(** Without a newline in what is typed, the manual mode never ends: after
the end of the input [getchar] is called for ever.  It does so for any fuel. *)
Theorem manual_mode_hangs `{Env} input fuel fuel' w :
  after_newline input = None ->
  exists s, loop fuel (manual_body fuel') 0 (mkConsole input None None None None None, w) = NoFuel s.
Proof.
  intros Hin. destruct fuel as [|fuel]; [by eexists|]. cbn [loop].
  assert (Hskip : forall s, after_newline s = None -> after_newline (skip_space s) = None).
  { induction s as [|c s IH]; [done|]. simpl. intros Hs.
    destruct (Ascii.eqb c newline) eqn:Hc; [done|]. destruct (is_space c); [auto|]. simpl. by rewrite Hc. }
  unfold bind at 1. unfold manual_body at 1. change (0 >=? MAX_ORDERS) with false. cbn iota.
  rewrite (bind_val _ _ _ tt (mkConsole input None None None None None,
    print_lines [mkLine Stdout "Would you like to submit an order? (Y/N)\n" []] w)) by done.
  set (w1 := print_lines _ w). specialize (Hskip input Hin).
  assert (exists c, scan_order (mkConsole input None None None None None, w1) = Val tt (c, w1) /\
    after_newline (c_input c) = None) as (c & Hscan & Hc).
  { unfold scan_order, bind, console, gets. cbn [fst c_input].
    destruct (skip_space input) as [|x s]; eexists; (split; [reflexivity|]); [done|].
    cbn in Hskip |- *. by destruct (Ascii.eqb x newline). }
  rewrite (bind_val _ _ _ tt (c, w1)) by done. unfold bind at 1. destruct (skip_line_short fuel' c w1 Hc) as [s ->]. by eexists.
Qed.

Lemma manual_mode_hangs_witness :
  exists s, loop 1000 (@manual_body demo_env 1000 : Z -> M (Console * World) _) 0
    (mkConsole "y" None None None None None, init_world init_mach) = NoFuel s.
Proof. apply (@manual_mode_hangs demo_env "y" 1000 1000 (init_world init_mach)). reflexivity. Defined.
