(* ===== verification/NoMemorySim.v ===== *)
(** * NoMemorySim: the program [sw_sim/no_memory_sim.c]

One pair of heaps, without pages: the random mode, the manual mode and
[main].  Here [check_for_trade] is called once per order, not until it fails. *)
From Stdlib Require Import Ascii.
From S2P Require Import Prelude HeapModel Machine Heap Book Scan Console.

(** [free_node_memory] of [no_memory_sim.c] does nothing. *)
#[export] Instance no_memory_sim_free_node_memory : NodeMemory unit := ret tt.

Abbreviation Sim := (BookW unit).

Definition init_sim (m : Mach) : Sim :=
  mkBookW m (create_heap 10 min_cmp) (create_heap 10 max_cmp) tt.

Section Automatic.
Context `{Env}.

Definition ask_submitted : string := "Ask Submitted; Price: $%d, Amount: %d, Timestamp: %d\n".
Definition bid_submitted : string := "Bid Submitted; Price: $%d, Amount: %d, Timestamp: %d\n".

(** [if(check_for_trade(asks, bids)) { trades++; }] *)
Definition count_check (trades : Z) : M Sim Z :=
  let! r := check_for_trade in
  ret (if negb (r =? 0) then trades + 1 else trades).

(** One turn of the loop, from [create_order] on: the new value of [trades]. *)
Definition submit_order (price amount ty trades : Z) : M Sim Z :=
  let! o := book_mach (create_order price amount ty "AAA") in
  let! ord := book_mach (load o) in
  let shown := [Int (Machine.price ord); Int (Machine.amount ord); Int (timestamp ord)] in
  if negb (type ord =? 0) then
    on_asks (push o) ;;!
    book_mach (printf ask_submitted shown) ;;!
    count_check trades
  else
    on_bids (push o) ;;!
    book_mach (printf bid_submitted shown) ;;!
    count_check trades.

Definition automatic_order (trades : Z) : M Sim Z :=
  let! price := book_mach (rand_range 1 MAX_PRICE) in
  let! amount := book_mach (rand_range 1 MAX_AMOUNT) in
  let! ty := book_mach (rand_range 0 1) in
  submit_order price amount ty trades.

Definition automatic_body (orders : Z) (st : Z * Z) : M Sim ((Z * Z) + Z) :=
  let '(i, trades) := st in
  if i <? orders then
    let! trades := automatic_order trades in
    ret (inl (i + 1, trades))
  else ret (inr trades).

Definition automatic_execution (orders : Z) : M Sim unit :=
  let! trades := loop (S (Z.to_nat orders)) (automatic_body orders) (0, 0) in
  book_mach (printf "Trades executed: %d\n" [Int trades]).

End Automatic.

Section ManualMode.
Context `{Env}.

Abbreviation Manual := (Console * Sim)%type.

(** [scanf("%s %d %d", type, &price, &amount)]. *)
Definition scan_command : M Manual unit :=
  let! b := scan_word 1000 (fun v c => mkConsole (c_input c) (l_order c) (Some v) (l_symbol c) (l_price c) (l_amount c)) in
  if negb b then ret tt else
  let! b := scan_number (fun v c => mkConsole (c_input c) (l_order c) (l_type c) (l_symbol c) (Some v) (l_amount c)) in
  if negb b then ret tt else
  let! _ := scan_number (fun v c => mkConsole (c_input c) (l_order c) (l_type c) (l_symbol c) (l_price c) (Some v)) in
  ret tt.

(** [order_list[orders] = create_order(...); push(...); orders++]. *)
Definition manual_push (ty : Z) : M Manual unit :=
  let! c := console in
  let! price := lift (l_price c) in
  let! amount := lift (l_amount c) in
  on_rest (let! o := book_mach (create_order price amount ty "AAA") in
           if negb (ty =? 0) then on_asks (push o) else on_bids (push o)).

(** The answer [Y]: the new values of [orders] and [trades]. *)
Definition manual_order (orders trades : Z) : M Manual (Z * Z) :=
  on_rest (book_mach (printf "Please submit an order in the format (ask/bid), (price), (amount)\n" [])) ;;!
  scan_command ;;!
  let! c := console in
  let! ty := lift (l_type c) in
  let! orders :=
    (if String.eqb ty "Ask" || String.eqb ty "ask" then manual_push 1 ;;! ret (orders + 1)
     else if String.eqb ty "Bid" || String.eqb ty "bid" then manual_push 0 ;;! ret (orders + 1)
     else on_rest (book_mach (printf "Please specify ask or bid\n" [])) ;;! ret orders) in
  let! trades := on_rest (count_check trades) in
  ret (orders, trades).

Definition manual_body (fuel : nat) (st : Z * Z) : M Manual ((Z * Z) + Z) :=
  let '(orders, trades) := st in
  if orders >=? 1000 then
    on_rest (book_mach (printf "Maximum number of orders received, ending simulation\n" [])) ;;!
    let! trades := on_rest (count_check trades) in
    ret (inr trades)
  else
    on_rest (book_mach (printf "Would you like to submit an order? (Y/N)\n" [])) ;;!
    scan_order ;;!
    skip_line fuel ;;!
    let! c := console in
    let! order := lift (l_order c) in
    if Ascii.eqb order "Y" then
      let! st := manual_order orders trades in
      let! trades := on_rest (count_check st.2) in
      ret (inl (st.1, trades))
    else if Ascii.eqb order "N" then
      on_rest (book_mach (printf "Ending simulation\n" [])) ;;!
      let! trades := on_rest (count_check trades) in
      ret (inr trades)
    else
      on_rest (book_mach (printf "Please submit Y or N\n" [])) ;;!
      let! trades := on_rest (count_check trades) in
      ret (inl (orders, trades)).

Definition manual_execution (input : string) : M Sim unit := fun s =>
  zoom (fun s => (mkConsole input None None None None None, s)) (fun x _ => x.2)
    (let! trades := loop (S (String.length input)) (manual_body (S (String.length input))) (0, 0) in
     on_rest (book_mach (printf "Trades executed: %d\n" [Int trades]))) s.

(** The same options as [memory_sim.c], two modes. *)
Fixpoint parse_args (args : list string) (mode orders : Z) : option (Z * Z) :=
  match args with
  | [] => Some (mode, orders)
  | a :: args' =>
      if String.eqb a "--mode" then
        match args' with
        | v :: args'' => if in_s32 (atoi v) then parse_args args'' (atoi v) orders else None
        | [] => None
        end
      else if String.eqb a "--orders" then
        match args' with
        | v :: args'' => if in_s32 (atoi v) then parse_args args'' mode (atoi v) else None
        | [] => None
        end
      else parse_args args' mode orders
  end.

Definition main (input : string) (args : list string) : M Sim Z :=
  let! p := lift (parse_args args DEFAULT_MODE DEFAULT_ORDERS) in
  let '(mode, orders) := p in
  if negb (mode =? 1) && negb (mode =? 0) then
    book_mach (printf "Usage: mode must be either 1 (automatic) or 0 (manual) \n" []) ;;! ret 1
  else if orders <? 2 then
    book_mach (printf "Usage: At least 2 orders must be submitted \n" []) ;;! ret 1
  else if negb (mode =? 0) then automatic_execution orders ;;! ret 0
  else manual_execution input ;;! ret 0.

End ManualMode.

(** ** The invariant of a run *)

(** After [n] orders: two ordered heaps without a common order, whose orders
all have shares left. *)
Definition sim_inv (n : nat) (s : Sim) : Prop :=
  exists xs ys, book_ok (store (b_mach s)) (b_asks s) (b_bids s) xs ys /\
    Forall (tradable MAX_AMOUNT) (view (store (b_mach s)) xs) /\
    Forall (tradable MAX_AMOUNT) (view (store (b_mach s)) ys) /\
    length (store (b_mach s)) = n.

Section Runs.
Context `{EnvOk}.

Lemma book_draw min max (s : Sim) :
  0 <= min <= max -> max < 2 ^ 30 ->
  exists v, book_mach (rand_range min max) s =
      Val v (mkBookW (next_rand (b_mach s)) (b_asks s) (b_bids s) (b_ext s)) /\ min <= v <= max.
Proof.
  intros Hmin Hmax. destruct (rand_range_run min max (b_mach s) Hmin Hmax) as (v & Hrun & Hv).
  exists v. split; [|done]. unfold book_mach, zoom. by rewrite Hrun.
Qed.

Lemma sim_inv_mach n (s : Sim) m' :
  sim_inv n s -> store m' = store (b_mach s) ->
  sim_inv n (mkBookW m' (b_asks s) (b_bids s) (b_ext s)).
Proof. intros (xs & ys & Hinv) Hst. exists xs, ys. cbn. by rewrite Hst. Qed.

Lemma count_check_ok n trades (s : Sim) :
  sim_inv n s ->
  wp (count_check trades) (fun t s' => sim_inv n s' /\ trades <= t <= trades + 1) no_exit s.
Proof.
  intros (xs & ys & Hok & Ha & Hb & Hn). destruct s as [m a b []]. cbn in *.
  destruct (check_for_trade_ok m a b tt xs ys Hok) as (r & m' & a' & b' & xs' & ys' & Hrun & Hok' & Hm).
  unfold count_check. apply wp_bind. eapply wp_val; [exact Hrun|]. apply wp_ret.
  split; [|destruct (negb _); lia]. exists xs', ys'. split; [done|].
  destruct (match_step_shares MAX_AMOUNT ltac:(done) _ _ _ _ _ (matched_step _ _ _ _ _ _ _ Hm) Ha Hb)
    as (Ha' & Hb' & _). destruct (traded_contents _ _ _ _ _ _ _ Hm) as (Hl & _). cbn. by rewrite Hl.
Qed.

(** An order that has just been created is in no heap. *)
Lemma sim_created n (s : Sim) ord xs ys :
  book_ok (store (b_mach s)) (b_asks s) (b_bids s) xs ys -> length (store (b_mach s)) = n ->
  let st := store (b_mach s) ++ [ord] in
  book_ok st (b_asks s) (b_bids s) xs ys /\ n ∉ xs ++ ys /\
  view st xs = view (store (b_mach s)) xs /\ view st ys = view (store (b_mach s)) ys /\
  (length (xs ++ ys) <= n)%nat.
Proof.
  intros Hok Hn st. pose proof Hok as [[_ _ Hvx _] [_ _ Hvy _] Hnd _].
  assert (Hv : valid (store (b_mach s)) (xs ++ ys)) by by apply Forall_app.
  assert (Hold : forall p, p ∈ xs ++ ys -> (p < n)%nat).
  { intros p Hp. unfold valid in Hv. rewrite Forall_forall in Hv. specialize (Hv p Hp). simpl in Hv. lia. }
  assert (Hsame : forall p, p ∈ xs ++ ys -> st !!! p = store (b_mach s) !!! p).
  { intros p Hp. apply lookup_total_app_l. specialize (Hold p Hp). lia. }
  split; [by apply (book_ok_keys _ _ (same_keys_extend _ ord))|].
  split; [intros Hin; specialize (Hold _ Hin); lia|].
  split; [apply view_same; intros p Hp; apply Hsame, elem_of_app; by left|].
  split; [apply view_same; intros p Hp; apply Hsame, elem_of_app; by right|].
  rewrite <- Hn. by apply nodup_valid_length.
Qed.

(** [push] of the newest order on its side. *)
Lemma push_new n (s : Sim) ord ty :
  sim_inv n s -> Z.of_nat n + 1 < 2 ^ 29 -> type ord = ty -> tradable MAX_AMOUNT ord ->
  let m1 := set_store (store (b_mach s) ++ [ord]) (tick 1 (b_mach s)) in
  exists s', (if negb (ty =? 0) then on_asks (push n) else on_bids (push n))
       (mkBookW m1 (b_asks s) (b_bids s) (b_ext s)) = Val tt s' /\ sim_inv (S n) s'.
Proof.
  intros (xs & ys & Hok & Ha & Hb & Hn) Hmax Hty Hord m1.
  destruct (sim_created n s ord xs ys Hok Hn) as (Hok1 & Hfresh & Hvx & Hvy & Hlen).
  assert (Hst : length (store m1) = S n) by (cbn; rewrite length_app; simpl; lia).
  assert (Hlook : store m1 !!! n = ord) by (cbn; rewrite <- Hn, lookup_total_app_r, Nat.sub_diag by lia; done).
  assert (Hin : forall xs' ys', pushed ty n xs ys xs' ys' ->
    Forall (tradable MAX_AMOUNT) (view (store m1) xs') /\ Forall (tradable MAX_AMOUNT) (view (store m1) ys')).
  { intros xs' ys' Hp. eapply pushed_tradable; [exact Hp|by rewrite Hlook|..]; cbn [store m1 set_store].
    - by rewrite Hvx.
    - by rewrite Hvy. }
  unfold pushed in Hin. destruct (ty =? 0); cbn [negb].
  - destruct (on_bids_push m1 (b_asks s) (b_bids s) (b_ext s) n xs ys) as (b' & ys' & Hrun & Hok' & Hp);
      [done|lia|done|lia|].
    eexists. split; [exact Hrun|]. destruct (Hin xs ys' (conj eq_refl Hp)). by exists xs, ys'.
  - destruct (on_asks_push m1 (b_asks s) (b_bids s) (b_ext s) n xs ys) as (a' & xs' & Hrun & Hok' & Hp);
      [done|lia|done|lia|].
    eexists. split; [exact Hrun|]. destruct (Hin xs' ys (conj Hp eq_refl)). by exists xs', ys.
Qed.

Lemma submit_order_ok n price amount ty trades (s : Sim) :
  sim_inv n s -> Z.of_nat n + 1 < 2 ^ 29 -> 1 <= amount <= MAX_AMOUNT ->
  wp (submit_order price amount ty trades)
    (fun t s' => sim_inv (S n) s' /\ trades <= t <= trades + 1) no_exit s.
Proof.
  intros Hinv Hmax Ha. unfold submit_order. apply wp_bind. eapply wp_val.
  { unfold book_mach, zoom. rewrite create_order_run. reflexivity. }
  assert (Hn : length (store (b_mach s)) = n) by (by destruct Hinv as (? & ? & _ & _ & _ & ?)).
  set (ord := new_order price amount ty "AAA" _). rewrite Hn.
  assert (Hord : tradable MAX_AMOUNT ord).
  { unfold tradable, MAX_AMOUNT in *. cbn. rewrite s16_small by lia. lia. }
  destruct (push_new n s ord ty Hinv Hmax eq_refl Hord) as (s2 & Hpush & Hinv2).
  apply wp_bind. eapply wp_val.
  { apply book_load. cbn. rewrite length_app. cbn. rewrite <- Hn. lia. }
  assert (Hlook : (store (b_mach s) ++ [ord]) !!! n = ord)
    by (by rewrite <- Hn, lookup_total_app_r, Nat.sub_diag by lia).
  cbn [store set_store]. rewrite Hlook. change (type ord) with ty.
  destruct (ty =? 0); cbn [negb] in *.
  - apply wp_bind. eapply wp_val; [exact Hpush|]. apply wp_bind. eapply wp_val; [reflexivity|].
    by apply count_check_ok, sim_inv_mach.
  - apply wp_bind. eapply wp_val; [exact Hpush|]. apply wp_bind. eapply wp_val; [reflexivity|].
    by apply count_check_ok, sim_inv_mach.
Qed.

Lemma no_memory_order_ok n trades (s : Sim) :
  sim_inv n s -> Z.of_nat n + 1 < 2 ^ 29 ->
  wp (automatic_order trades) (fun t s' => sim_inv (S n) s' /\ trades <= t <= trades + 1) no_exit s.
Proof.
  intros Hinv Hmax. unfold automatic_order.
  apply wp_bind. destruct (book_draw 1 MAX_PRICE s) as (price & Hrunp & Hp); [done..|].
  eapply wp_val; [exact Hrunp|]. eapply sim_inv_mach in Hinv; [|exact (eq_refl (store (next_rand _)))].
  apply wp_bind. edestruct (book_draw 1 MAX_AMOUNT) as (amount & Hruna & Ha); [done..|].
  eapply wp_val; [exact Hruna|]. eapply sim_inv_mach in Hinv; [|exact (eq_refl (store (next_rand _)))].
  apply wp_bind. edestruct (book_draw 0 1) as (ty & Hrunt & Ht); [done..|].
  eapply wp_val; [exact Hrunt|]. eapply sim_inv_mach in Hinv; [|exact (eq_refl (store (next_rand _)))].
  by apply submit_order_ok.
Qed.

Lemma sim_inv_init m : store m = [] -> sim_inv 0 (init_sim m).
Proof.
  intros Hst. exists [], []. cbn. rewrite Hst. split; [|done]. split; [..|constructor|simpl; lia].
  - split; [split; cbn; [by eexists|done|done|lia]|done|constructor|intros j Hj; simpl in Hj; lia].
  - split; [split; cbn; [by eexists|done|done|lia]|done|constructor|intros j Hj; simpl in Hj; lia].
Qed.

Lemma automatic_loop_ok orders :
  0 <= orders < 2 ^ 29 ->
  wp (loop (S (Z.to_nat orders)) (automatic_body orders) (0, 0))
    (fun trades s' => sim_inv (Z.to_nat orders) s' /\ 0 <= trades <= orders) no_exit (init_sim init_mach).
Proof.
  intros Horders.
  apply (wp_loop (fun '(i, trades) s => 0 <= i <= orders /\ 0 <= trades <= i /\ sim_inv (Z.to_nat i) s)
    (fun '(i, _) _ => Z.to_nat (orders - i))); [|lia|].
  - intros [i trades] s (Hi & Ht & Hinv). cbn [automatic_body].
    destruct (Z.ltb_spec i orders) as [Hlt|Hge].
    + apply wp_bind. eapply wp_mono; [by apply (no_memory_order_ok _ trades _ Hinv); lia| |done].
      intros t s' [Hinv' Ht']. apply wp_ret. split; [|lia]. split; [lia|]. split; [lia|].
      by replace (Z.to_nat (i + 1)) with (S (Z.to_nat i)) by lia.
    + apply wp_ret. replace orders with i by lia. done.
  - split; [lia|]. split; [lia|]. by apply sim_inv_init.
Qed.

End Runs.

(** ** Properties *)

(** C39: for any clock and any values of [rand], the random mode of the program
without pages never meets undefined behaviour and always ends normally; it has
then made exactly [orders] orders and counted at most one trade per order, both
heaps are well formed and every order left still has shares. *)
Theorem no_memory_execution_correct `{EnvOk} orders :
  0 <= orders < 2 ^ 29 ->
  wp (automatic_execution orders)
    (fun _ s' => sim_inv (Z.to_nat orders) s' /\
       exists trades out, 0 <= trades <= orders /\
         output (b_mach s') = out ++ [mkLine Stdout "Trades executed: %d\n" [Int trades]])
    no_exit (init_sim init_mach).
Proof.
  intros Horders. unfold automatic_execution. apply wp_bind.
  eapply wp_mono; [by apply automatic_loop_ok| |done].
  intros trades s' [Hinv Ht]. eapply wp_val; [reflexivity|]. cbn.
  split; [by apply sim_inv_mach|]. by eexists trades, _.
Qed.

Lemma no_memory_execution_correct_witness :
  wp (@automatic_execution demo_env 100)
    (fun _ s' => sim_inv (Z.to_nat 100) s' /\
       exists trades out, 0 <= trades <= 100 /\
         output (b_mach s') = out ++ [mkLine Stdout "Trades executed: %d\n" [Int trades]])
    no_exit (init_sim init_mach).
Proof. apply (@no_memory_execution_correct demo_env demo_env_ok 100). lia. Defined.

(** Three asks for one share at 10, then a bid for ten shares at 10. *)
Definition crossing_env : Env := {|
  clock := fun n => mkTimespec 0 (Z.of_nat n mod 1000000000);
  rand_value := fun n => default 0 ([9; 0; 1; 9; 0; 1; 9; 0; 1; 9; 9; 0] !! n);
  open_limit := 64
|}.

(** One call of [check_for_trade] per order is not enough: a run can end
with the best bid at or above the best ask. *)
Theorem one_check_per_order_is_not_enough :
  exists s' p q ask bid, @automatic_execution crossing_env 4 (init_sim init_mach) = Val tt s' /\
    0 < size (b_asks s') /\ 0 < size (b_bids s') /\
    array_get (data (b_asks s')) 0 = Some (Some p) /\ store (b_mach s') !! p = Some ask /\
    array_get (data (b_bids s')) 0 = Some (Some q) /\ store (b_mach s') !! q = Some bid /\
    price ask <= price bid.
Proof.
  eexists _, _, _, _, _. split; [vm_compute; reflexivity|]. cbn [b_asks b_bids b_mach size data store].
  split; [lia|]. split; [lia|]. do 4 (split; [reflexivity|]). simpl. lia.
Qed.
