(* ===== verification/HwParams.v ===== *)
(** * HwParams: the sizes of the device

The parameters of [hw/sys_def.svh] and [hw/HFT_SIM.sv] that the device behind the driver
([Hardware]) and the hardware clock by clock share. *)
From S2P Require Import Prelude.

(** The places of the FIFO of a lane, and of the trade log. *)
Definition FIFO_SZ : Z := 1210.
Definition TRADE_LOG_DEPTH : Z := 8704.
