(* ===== verification/Driver.v ===== *)
(** * Driver: the kernel module [sw/HFT_drivers.c]

The register map, the word formats, the [ioctl] handler and the life of the
module.  The device behind the registers, the kernel's answers and the calling
process's memory are parameters; [Hardware.v] gives a concrete device. *)
From S2P Require Import Prelude.

(** ** [HFT_drivers.h] *)

Definition HFT_NUM_LANES : Z := 8.

Record hft_disp_order := mkDispOrder { o_type : Z; o_price : Z; o_quantity : Z }.
Record hft_disp_push_req := mkPushReq { r_lane : Z; r_order : hft_disp_order }.
Record hft_disp_status := mkStatus { state : Z; ready_mask : Z; empty_mask : Z; full_mask : Z }.
Record hft_log_info := mkLogInfo {
  li_count : Z; li_overflow : Z; engine_idle_mask : Z; all_engines_idle : Z; trade_done : Z
}.
Record hft_log_entry := mkLogEntry { e_index : Z; e_word0 : Z; e_word1 : Z }.

(** The [_IO], [_IOW], [_IOR] and [_IOWR] macros of [linux/ioctl.h]: direction,
size, magic and number. *)
Definition IOC (dir size type nr : Z) : Z :=
  Z.lor (Z.shiftl dir 30) (Z.lor (Z.shiftl size 16) (Z.lor (Z.shiftl type 8) nr)).
Definition HFT_DRIVERS_MAGIC : Z := 104. (* 'h' *)
Definition sizeof_push_req : Z := 12.
Definition sizeof_status : Z := 16.
Definition sizeof_log_info : Z := 20.
Definition sizeof_log_entry : Z := 12.

Definition HFT_IOC_DISP_BEGIN_WRITE : Z := IOC 0 0 HFT_DRIVERS_MAGIC 1.
Definition HFT_IOC_DISP_BEGIN_DISPATCH : Z := IOC 0 0 HFT_DRIVERS_MAGIC 2.
Definition HFT_IOC_DISP_CLEAR_DONE : Z := IOC 0 0 HFT_DRIVERS_MAGIC 3.
Definition HFT_IOC_DISP_PUSH_ORDER : Z := IOC 1 sizeof_push_req HFT_DRIVERS_MAGIC 4.
Definition HFT_IOC_DISP_GET_STATUS : Z := IOC 2 sizeof_status HFT_DRIVERS_MAGIC 5.
Definition HFT_IOC_LOG_GET_INFO : Z := IOC 2 sizeof_log_info HFT_DRIVERS_MAGIC 6.
Definition HFT_IOC_LOG_READ_ENTRY : Z := IOC 3 sizeof_log_entry HFT_DRIVERS_MAGIC 7.
Definition HFT_IOC_LOG_CLEAR : Z := IOC 0 0 HFT_DRIVERS_MAGIC 8.

(** ** Registers and bits *)

Definition BIT (n : Z) : Z := Z.shiftl 1 n.
Definition REG_CONTROL : Z := 0x00.
Definition REG_STATUS : Z := 0x04.
Definition REG_PUSH_BASE : Z := 0x08.
Definition REG_PUSH (n : Z) : Z := REG_PUSH_BASE + 4 * n.
Definition REG_LOG_INFO : Z := 0x28.
Definition REG_LOG_CMD : Z := 0x2C.
Definition REG_LOG_DATA0 : Z := 0x30.
Definition REG_LOG_DATA1 : Z := 0x34.

Definition CTRL_BEGIN_WRITE : Z := BIT 0.
Definition CTRL_BEGIN_DISPATCH : Z := BIT 1.
Definition CTRL_CLEAR_DONE : Z := BIT 2.
Definition STATUS_STATE_MASK : Z := 0x00000003.
Definition STATUS_READY_MASK : Z := 0x000003FC.
Definition STATUS_EMPTY_MASK : Z := 0x0003FC00.
Definition STATUS_FULL_MASK : Z := 0x03FC0000.
Definition STATUS_READY_SHIFT : Z := 2.
Definition STATUS_EMPTY_SHIFT : Z := 10.
Definition STATUS_FULL_SHIFT : Z := 18.
Definition HFT_STATE_IDLE : Z := 0.
Definition HFT_STATE_WRITE : Z := 1.
Definition HFT_STATE_DISPATCH : Z := 2.
Definition HFT_STATE_DONE : Z := 3.
Definition LOG_INFO_OVERFLOW_BIT : Z := 0.
Definition LOG_INFO_DATA_VALID_BIT : Z := 1.
Definition LOG_INFO_COUNT_SHIFT : Z := 2.
Definition LOG_INFO_COUNT_MASK : Z := Z.shiftl 0x7FFF LOG_INFO_COUNT_SHIFT.
Definition LOG_INFO_ENGINE_IDLE_SHIFT : Z := 17.
Definition LOG_INFO_ENGINE_IDLE_MASK : Z := Z.shiftl 0xFF LOG_INFO_ENGINE_IDLE_SHIFT.
Definition LOG_INFO_ALL_ENGINES_IDLE_BIT : Z := 25.
Definition LOG_INFO_TRADE_DONE_BIT : Z := 26.

(** Error numbers of [linux/errno.h]. *)
Definition ENOENT : Z := 2.
Definition EINTR : Z := 4.
Definition EAGAIN : Z := 11.
Definition ENOMEM : Z := 12.
Definition EFAULT : Z := 14.
Definition EBUSY : Z := 16.
Definition ENODEV : Z := 19.
Definition EINVAL : Z := 22.
Definition ECONNRESET : Z := 104.
Definition ETIMEDOUT : Z := 110.

(** ** The device, the kernel and the caller *)

(** The device behind the registers: what a 32-bit read at an offset returns,
what a write does, and what a wait of some microseconds lets happen. *)
Class Device (D : Type) := {
  io_read : Z -> D -> Z * D;
  io_write : Z -> Z -> D -> D;
  io_delay : Z -> D -> D
}.

(** The kernel's answers while the module is set up, and the registers'
resource (start and size). *)
Class Kernel := {
  device_present : bool;
  misc_register_ret : Z;
  of_address_ret : Z;
  resource : Z * Z;
  mem_region_free : bool;
  iomap_ok : bool
}.

(** The memory that the argument of an [ioctl] points to, as the struct of each
command sees it, and whether it can be read and written. *)
Record User := mkUser {
  u_readable : bool;
  u_writable : bool;
  u_req : hft_disp_push_req;
  u_st : hft_disp_status;
  u_li : hft_log_info;
  u_le : hft_log_entry
}.

(** [struct hft_dev dev] and what the module has registered with the kernel.
[virtbase] says whether the registers are mapped; [region] is the memory region
the module holds; [klog] is the kernel log. *)
Record Dev (D : Type) := mkDev {
  device : D;
  user : User;
  res : Z * Z;
  virtbase : bool;
  lock : bool;
  registered : bool;
  region : option (Z * Z);
  klog : list (string * list Z)
}.
Arguments mkDev {D} _ _ _ _ _ _ _ _.
Arguments device {D} _.
Arguments user {D} _.
Arguments res {D} _.
Arguments virtbase {D} _.
Arguments lock {D} _.
Arguments registered {D} _.
Arguments region {D} _.
Arguments klog {D} _.

Definition set_st (v : hft_disp_status) (u : User) : User :=
  mkUser (u_readable u) (u_writable u) (u_req u) v (u_li u) (u_le u).
Definition set_li (v : hft_log_info) (u : User) : User :=
  mkUser (u_readable u) (u_writable u) (u_req u) (u_st u) v (u_le u).
Definition set_le (v : hft_log_entry) (u : User) : User :=
  mkUser (u_readable u) (u_writable u) (u_req u) (u_st u) (u_li u) v.

Section Driver.
Context {D : Type} `{Device D}.

Definition set_device (d : D) (s : Dev D) : Dev D :=
  mkDev d (user s) (res s) (virtbase s) (lock s) (registered s) (region s) (klog s).
Definition set_user (u : User) (s : Dev D) : Dev D :=
  mkDev (device s) u (res s) (virtbase s) (lock s) (registered s) (region s) (klog s).
Definition set_res (r : Z * Z) (s : Dev D) : Dev D :=
  mkDev (device s) (user s) r (virtbase s) (lock s) (registered s) (region s) (klog s).
Definition set_virtbase (b : bool) (s : Dev D) : Dev D :=
  mkDev (device s) (user s) (res s) b (lock s) (registered s) (region s) (klog s).
Definition set_lock (b : bool) (s : Dev D) : Dev D :=
  mkDev (device s) (user s) (res s) (virtbase s) b (registered s) (region s) (klog s).
Definition set_registered (b : bool) (s : Dev D) : Dev D :=
  mkDev (device s) (user s) (res s) (virtbase s) (lock s) b (region s) (klog s).
Definition set_region (r : option (Z * Z)) (s : Dev D) : Dev D :=
  mkDev (device s) (user s) (res s) (virtbase s) (lock s) (registered s) r (klog s).
Definition printk (fmt : string) (args : list Z) : M (Dev D) unit := modify (fun s =>
  mkDev (device s) (user s) (res s) (virtbase s) (lock s) (registered s) (region s)
        (klog s ++ [(fmt, args)])).

(** Accesses through [REG_ADDR]: without a mapping they are undefined. *)
Definition ioread32 (reg : Z) : M (Dev D) Z := fun s =>
  if virtbase s then
    let '(v, d) := io_read reg (device s) in Val (u32 v) (set_device d s)
  else Undef.
Definition iowrite32 (v reg : Z) : M (Dev D) unit := fun s =>
  if virtbase s then Val tt (set_device (io_write reg (u32 v) (device s)) s) else Undef.
Definition udelay (us : Z) : M (Dev D) unit :=
  modify (fun s => set_device (io_delay us (device s)) s).

(** A mutex that is taken is waited for: with nobody to release it, for ever. *)
Definition mutex_lock : M (Dev D) unit := fun s =>
  if lock s then NoFuel s else Val tt (set_lock true s).
Definition mutex_unlock : M (Dev D) unit := modify (set_lock false).

Definition copy_from_user {A} (f : User -> A) : M (Dev D) (option A) :=
  gets (fun s => if u_readable (user s) then Some (f (user s)) else None).
(** Whether the copy failed. *)
Definition copy_to_user (f : User -> User) : M (Dev D) bool := fun s =>
  if u_writable (user s) then Val false (set_user (f (user s)) s) else Val true s.

(** ** Helper functions *)

Definition hft_disp_pack_order_word (o : hft_disp_order) : Z :=
  Z.lor (Z.lor (u32 (Z.shiftl (Z.land (o_type o) 0x1) 31))
               (u32 (Z.shiftl (Z.land (o_price o) 0xFFFF) 15)))
        (Z.land (o_quantity o) 0x7FFF).

Definition hft_disp_push_order_hw (lane : Z) (o : hft_disp_order) : M (Dev D) Z :=
  if lane >=? 8 then ret (- EINVAL) else
  if (o_type o >? 1) || (o_quantity o >? 0x7FFF) then ret (- EINVAL) else
  let! raw := ioread32 REG_STATUS in
  if negb (Z.land raw STATUS_STATE_MASK =? HFT_STATE_WRITE) then ret (- EAGAIN) else
  let ready := Z.shiftr (Z.land raw STATUS_READY_MASK) STATUS_READY_SHIFT in
  if Z.land ready (BIT lane) =? 0 then ret (- EBUSY) else
  iowrite32 (hft_disp_pack_order_word o) (REG_PUSH lane) ;;!
  ret 0.

(** The [do ... while (--timeout_us)] loop: the last [LOG_INFO] read. *)
Definition wait_valid_body (timeout_us : Z) : M (Dev D) (Z + Z) :=
  let! info := ioread32 REG_LOG_INFO in
  if negb (Z.land info (BIT LOG_INFO_DATA_VALID_BIT) =? 0) then ret (inr info) else
  udelay 1 ;;!
  let timeout_us := timeout_us - 1 in
  if timeout_us =? 0 then ret (inr info) else ret (inl timeout_us).
Definition wait_valid : M (Dev D) Z := loop 1000 wait_valid_body 1000.

(** The result and the entry as it is when the function returns. *)
Definition hft_log_read_entry_hw (entry : hft_log_entry) : M (Dev D) (Z * hft_log_entry) :=
  let! status := ioread32 REG_STATUS in
  if negb (Z.land status STATUS_STATE_MASK =? HFT_STATE_DONE) then ret (- EAGAIN, entry) else
  let! info := ioread32 REG_LOG_INFO in
  let count := Z.shiftr (Z.land info LOG_INFO_COUNT_MASK) LOG_INFO_COUNT_SHIFT in
  if e_index entry >=? count then ret (- EINVAL, entry) else
  iowrite32 (Z.lor (BIT 1) (u32 (Z.shiftl (e_index entry) 2))) REG_LOG_CMD ;;!
  let! info := wait_valid in
  if Z.land info (BIT LOG_INFO_DATA_VALID_BIT) =? 0 then ret (- ETIMEDOUT, entry) else
  let! w0 := ioread32 REG_LOG_DATA0 in
  let! w1 := ioread32 REG_LOG_DATA1 in
  ret (0, mkLogEntry (e_index entry) w0 w1).

(** [!!(x & BIT(n))]. *)
Definition test_bit (x n : Z) : Z := if Z.land x (BIT n) =? 0 then 0 else 1.

(** ** The [ioctl] handler *)

Definition ioctl_push : M (Dev D) Z :=
  let! req := copy_from_user u_req in
  match req with
  | None => ret (- EFAULT)
  | Some req => hft_disp_push_order_hw (r_lane req) (r_order req)
  end.

Definition unpack_status (raw : Z) : hft_disp_status :=
  mkStatus (Z.land raw STATUS_STATE_MASK)
    (Z.shiftr (Z.land raw STATUS_READY_MASK) STATUS_READY_SHIFT)
    (Z.shiftr (Z.land raw STATUS_EMPTY_MASK) STATUS_EMPTY_SHIFT)
    (Z.shiftr (Z.land raw STATUS_FULL_MASK) STATUS_FULL_SHIFT).

Definition ioctl_get_status : M (Dev D) Z :=
  let! raw := ioread32 REG_STATUS in
  printk "HFT REG_STATUS raw=0x%08x\n" [raw] ;;!
  let! failed := copy_to_user (set_st (unpack_status raw)) in
  ret (if (failed : bool) then - EFAULT else 0).

Definition unpack_log_info (raw : Z) : hft_log_info :=
  mkLogInfo (Z.shiftr (Z.land raw LOG_INFO_COUNT_MASK) LOG_INFO_COUNT_SHIFT)
    (test_bit raw LOG_INFO_OVERFLOW_BIT)
    (Z.shiftr (Z.land raw LOG_INFO_ENGINE_IDLE_MASK) LOG_INFO_ENGINE_IDLE_SHIFT)
    (test_bit raw LOG_INFO_ALL_ENGINES_IDLE_BIT)
    (test_bit raw LOG_INFO_TRADE_DONE_BIT).

Definition ioctl_get_info : M (Dev D) Z :=
  let! raw := ioread32 REG_LOG_INFO in
  let! failed := copy_to_user (set_li (unpack_log_info raw)) in
  ret (if (failed : bool) then - EFAULT else 0).

Definition ioctl_read_entry : M (Dev D) Z :=
  let! le := copy_from_user u_le in
  match le with
  | None => ret (- EFAULT)
  | Some le =>
      let! r := hft_log_read_entry_hw le in
      if negb (r.1 =? 0) then ret r.1 else
      let! failed := copy_to_user (set_le r.2) in
      ret (if (failed : bool) then - EFAULT else 0)
  end.

Definition hft_ioctl (cmd : Z) : M (Dev D) Z :=
  mutex_lock ;;!
  let! r :=
    (if cmd =? HFT_IOC_DISP_BEGIN_WRITE then iowrite32 CTRL_BEGIN_WRITE REG_CONTROL ;;! ret 0
     else if cmd =? HFT_IOC_DISP_BEGIN_DISPATCH then iowrite32 CTRL_BEGIN_DISPATCH REG_CONTROL ;;! ret 0
     else if cmd =? HFT_IOC_DISP_CLEAR_DONE then iowrite32 CTRL_CLEAR_DONE REG_CONTROL ;;! ret 0
     else if cmd =? HFT_IOC_LOG_CLEAR then iowrite32 (BIT 0) REG_LOG_CMD ;;! ret 0
     else if cmd =? HFT_IOC_DISP_PUSH_ORDER then ioctl_push
     else if cmd =? HFT_IOC_DISP_GET_STATUS then ioctl_get_status
     else if cmd =? HFT_IOC_LOG_GET_INFO then ioctl_get_info
     else if cmd =? HFT_IOC_LOG_READ_ENTRY then ioctl_read_entry
     else ret (- EINVAL)) in
  mutex_unlock ;;!
  ret r.

(** ** Probe and remove *)

Context `{Kernel}.

Definition mutex_init : M (Dev D) unit := modify (set_lock false).
Definition misc_register : M (Dev D) Z := fun s =>
  if misc_register_ret =? 0 then Val 0 (set_registered true s) else Val misc_register_ret s.
(** Giving back what is not held is undefined. *)
Definition misc_deregister : M (Dev D) unit := fun s =>
  if registered s then Val tt (set_registered false s) else Undef.
Definition of_address_to_resource : M (Dev D) Z := fun s =>
  if of_address_ret =? 0 then Val 0 (set_res resource s) else Val of_address_ret s.
Definition request_mem_region (r : Z * Z) : M (Dev D) bool := fun s =>
  if mem_region_free then Val true (set_region (Some r) s) else Val false s.
Definition release_mem_region (r : Z * Z) : M (Dev D) unit := fun s =>
  if decide (region s = Some r) then Val tt (set_region None s) else Undef.
Definition of_iomap : M (Dev D) bool := fun s => Val iomap_ok (set_virtbase iomap_ok s).
Definition iounmap : M (Dev D) unit := fun s =>
  if virtbase s then Val tt (set_virtbase false s) else Undef.

(** The labels [out_deregister] and [out_release_mem]. *)
Definition out_deregister (r : Z) : M (Dev D) Z := misc_deregister ;;! ret r.
Definition out_release_mem (r : Z) : M (Dev D) Z :=
  let! rs := gets res in
  release_mem_region rs ;;!
  out_deregister r.

(** [hft_probe] up to and including [misc_register]. *)
Definition probe_register : M (Dev D) Z :=
  printk "hft_sim: probe called for %s\n" [] ;;!
  mutex_init ;;!
  misc_register.

Definition hft_probe : M (Dev D) Z :=
  let! r := probe_register in
  if negb (r =? 0) then printk "hft_sim: misc_register failed: %d\n" [r] ;;! ret r else
  let! r := of_address_to_resource in
  if negb (r =? 0) then
    printk "hft_sim: of_address_to_resource failed: %d\n" [r] ;;! out_deregister (- ENOENT)
  else
  let! rs := gets res in
  printk "hft_sim: resource start=%pa size=%lu\n" [rs.1; rs.2] ;;!
  let! ok := request_mem_region rs in
  if negb ok then
    printk "hft_sim: request_mem_region failed\n" [] ;;! out_deregister (- EBUSY)
  else
  let! ok := of_iomap in
  if negb ok then
    printk "hft_sim: of_iomap failed\n" [] ;;! out_release_mem (- ENOMEM)
  else
  printk "hft_sim: probe successful\n" [] ;;!
  ret 0.

Definition hft_remove : M (Dev D) Z :=
  iounmap ;;!
  let! rs := gets res in
  release_mem_region rs ;;!
  misc_deregister ;;!
  ret 0.

(** [platform_driver_probe] probes the device once, if there is one, and fails
with [-ENODEV] when no device is bound. *)
Definition platform_driver_probe : M (Dev D) Z :=
  if device_present then
    let! r := hft_probe in ret (if r =? 0 then 0 else - ENODEV)
  else ret (- ENODEV).
Definition hft_init : M (Dev D) Z :=
  printk "hft_sim: init\n" [] ;;!
  platform_driver_probe.
(** [platform_driver_unregister] removes the bound device. *)
Definition hft_exit : M (Dev D) unit :=
  let! _ := hft_remove in
  printk "hft_sim: exit\n" [].

End Driver.

(** ** Words *)

(** What the hardware makes of a pushed word: [DISPATCH_ORDER'(writedata)]. *)
Definition dispatch_order (w : Z) : hft_disp_order :=
  mkDispOrder (field w 31 1) (field w 15 16) (field w 0 15).

(** The word behind [STATUS]: [{6'd0, full, empty, ready, state}]. *)
Definition status_word (st : hft_disp_status) : Z :=
  full_mask st * 2 ^ 18 + empty_mask st * 2 ^ 10 + ready_mask st * 2 ^ 2 + state st.

(** The word behind [LOG_INFO]; [valid] is the data-valid bit. *)
Definition log_info_word (valid : Z) (li : hft_log_info) : Z :=
  trade_done li * 2 ^ 26 + all_engines_idle li * 2 ^ 25 + engine_idle_mask li * 2 ^ 17 +
  li_count li * 2 ^ 2 + valid * 2 + li_overflow li.

Definition order_ok (o : hft_disp_order) : Prop :=
  0 <= o_type o <= 1 /\ 0 <= o_price o < 2 ^ 16 /\ 0 <= o_quantity o < 2 ^ 15.

Definition status_ok (st : hft_disp_status) : Prop :=
  0 <= state st < 4 /\ 0 <= ready_mask st < 2 ^ 8 /\ 0 <= empty_mask st < 2 ^ 8 /\ 0 <= full_mask st < 2 ^ 8.

Definition log_info_ok (li : hft_log_info) : Prop :=
  0 <= li_count li < 2 ^ 15 /\ 0 <= li_overflow li <= 1 /\ 0 <= engine_idle_mask li < 2 ^ 8 /\
  0 <= all_engines_idle li <= 1 /\ 0 <= trade_done li <= 1.

Lemma pack_word_value o :
  order_ok o -> hft_disp_pack_order_word o = o_type o * 2 ^ 31 + o_price o * 2 ^ 15 + o_quantity o.
Proof.
  intros (Ht & Hp & Hq). unfold hft_disp_pack_order_word.
  change 0x1 with (Z.ones 1). change 0xFFFF with (Z.ones 16). change 0x7FFF with (Z.ones 15).
  rewrite !Z.land_ones, !Z.mod_small by lia.
  rewrite !u32_small by (rewrite Z.shiftl_mul_pow2; lia). rewrite <- Z.lor_assoc.
  rewrite (lor_disjoint (o_price o) (o_quantity o) 15) by lia. rewrite lor_disjoint; lia.
Qed.

Ltac word_arith := unfold field; rewrite ?Z.shiftr_div_pow2 by lia; Z.to_euclidean_division_equations; lia.

Lemma status_field raw :
  unpack_status raw = mkStatus (field raw 0 2) (field raw 2 8) (field raw 10 8) (field raw 18 8).
Proof.
  unfold unpack_status. f_equal.
  - change STATUS_STATE_MASK with (Z.ones 2). by rewrite low_field.
  - change STATUS_READY_MASK with (Z.shiftl (Z.ones 8) 2). by apply mask_field.
  - change STATUS_EMPTY_MASK with (Z.shiftl (Z.ones 8) 10). by apply mask_field.
  - change STATUS_FULL_MASK with (Z.shiftl (Z.ones 8) 18). by apply mask_field.
Qed.

Lemma test_bit_field x n : 0 <= n -> test_bit x n = field x n 1.
Proof.
  intros Hn. unfold test_bit, BIT, field. pose proof (land_bit x n Hn) as Hb.
  change (2 ^ 1) with 2. rewrite Z.shiftr_div_pow2, <- Z.testbit_spec' by done.
  destruct (Z.land x (Z.shiftl 1 n) =? 0); cbn in Hb; by rewrite <- Hb.
Qed.

Lemma log_info_field raw :
  unpack_log_info raw =
    mkLogInfo (field raw 2 15) (field raw 0 1) (field raw 17 8) (field raw 25 1) (field raw 26 1).
Proof.
  unfold unpack_log_info. rewrite !test_bit_field by done. f_equal.
  - change LOG_INFO_COUNT_MASK with (Z.shiftl (Z.ones 15) 2). by apply mask_field.
  - change LOG_INFO_ENGINE_IDLE_MASK with (Z.shiftl (Z.ones 8) 17). by apply mask_field.
Qed.

(** ** The handler *)

Section Handler.
Context {D : Type} `{Device D}.
Implicit Type s : Dev D.

(** The parts of the module's state that serving a request leaves alone. *)
Definition served s s' : Prop :=
  virtbase s' = virtbase s /\ lock s' = lock s /\ registered s' = registered s /\
  region s' = region s /\ res s' = res s.

#[export] Instance served_preorder : PreOrder served.
Proof. split; [by intros s|]. unfold served. intros s1 s2 s3. intuition congruence. Qed.

(** A computation that needs mapped registers, always returns, and leaves the
module's state alone. *)
Definition serves {A} (c : M (Dev D) A) : Prop :=
  forall s, virtbase s = true -> exists a s', c s = Val a s' /\ served s s'.

Lemma serves_ret {A} (a : A) : serves (ret a).
Proof. intros s _. by exists a, s. Qed.

Lemma serves_bind {A B} (c : M (Dev D) A) (k : A -> M (Dev D) B) :
  serves c -> (forall a, serves (k a)) -> serves (bind c k).
Proof.
  intros Hc Hk s Hv. destruct (Hc s Hv) as (a & s1 & Hrun & Hs1).
  destruct (Hk a s1) as (b & s2 & Hrun2 & Hs2); [destruct Hs1; congruence|].
  exists b, s2. rewrite (bind_val _ _ _ _ _ Hrun). split; [done|by etrans].
Qed.

Lemma serves_if {A} (b : bool) (c1 c2 : M (Dev D) A) :
  serves c1 -> serves c2 -> serves (if b then c1 else c2).
Proof. by destruct b. Qed.

Lemma serves_read reg : serves (ioread32 reg).
Proof.
  intros s Hv. unfold ioread32. rewrite Hv. destruct (io_read reg (device s)) as [v d].
  by exists (u32 v), (set_device d s).
Qed.

Lemma serves_write v reg : serves (iowrite32 v reg).
Proof. intros s Hv. unfold iowrite32. rewrite Hv. eexists tt, _. split; [reflexivity|done]. Qed.

Lemma serves_delay us : serves (udelay us).
Proof. intros s Hv. eexists tt, _. split; [reflexivity|done]. Qed.

Lemma serves_printk fmt args : serves (printk fmt args).
Proof. intros s Hv. eexists tt, _. split; [reflexivity|done]. Qed.

Lemma serves_from {A} (f : User -> A) : serves (copy_from_user f).
Proof. intros s Hv. eexists _, s. split; [reflexivity|done]. Qed.

Lemma serves_to f : serves (copy_to_user f).
Proof.
  intros s Hv. unfold copy_to_user. destruct (u_writable (user s)); by eexists _, _.
Qed.

Create HintDb serves discriminated.
#[local] Hint Resolve serves_ret serves_bind serves_if serves_read serves_write serves_delay
  serves_printk serves_from serves_to : serves.

Lemma serves_wait t fuel : 1 <= t -> (Z.to_nat t <= fuel)%nat -> serves (loop fuel wait_valid_body t).
Proof.
  revert t. induction fuel as [|fuel IH]; intros t Ht Hf; [lia|]. cbn [loop]. unfold wait_valid_body.
  intros s Hv. destruct (serves_read REG_LOG_INFO s Hv) as (info & s1 & Hr & Hs1).
  unfold bind at 1. rewrite (bind_val _ _ _ _ _ Hr).
  destruct (negb (Z.land info (BIT LOG_INFO_DATA_VALID_BIT) =? 0)); [by exists info, s1|].
  destruct (serves_delay 1 s1) as ([] & s2 & Hd & Hs2); [destruct Hs1; congruence|].
  rewrite (bind_val _ _ _ _ _ Hd). cbv zeta.
  assert (Hs : served s s2) by by etrans.
  destruct (Z.eqb_spec (t - 1) 0); [by exists info, s2|]. cbn [ret].
  destruct (IH (t - 1) ltac:(lia) ltac:(lia) s2) as (a & s3 & Hrun & Hs3); [destruct Hs; congruence|].
  exists a, s3. split; [done|by etrans].
Qed.

Lemma serves_wait_valid : serves wait_valid.
Proof. apply serves_wait; [done|]. by change (Z.to_nat 1000) with 1000%nat. Qed.
#[local] Hint Resolve serves_wait_valid : serves.

(** Goes through a straight-line or branching computation. *)
Ltac serve := repeat first
  [ progress cbv zeta | solve [auto with serves] | apply serves_if
  | apply serves_bind; [|intros ?] | case_match ].

Lemma serves_push lane o : serves (hft_disp_push_order_hw lane o).
Proof. unfold hft_disp_push_order_hw. serve. Qed.

Lemma serves_read_entry e : serves (hft_log_read_entry_hw e).
Proof. unfold hft_log_read_entry_hw. serve. Qed.
#[local] Hint Resolve serves_push serves_read_entry : serves.

(** The body of [hft_ioctl] between the lock and the unlock. *)
Lemma hft_ioctl_serves cmd s :
  virtbase s = true -> lock s = false ->
  exists r s', hft_ioctl cmd s = Val r s' /\ served s s'.
Proof.
  intros Hv Hl. unfold hft_ioctl. rewrite (bind_val _ _ _ tt (set_lock true s)) by (unfold mutex_lock; by rewrite Hl).
  match goal with |- exists r s', bind ?c _ _ = _ /\ _ => assert (Hc : serves c) end.
  { unfold ioctl_push, ioctl_get_status, ioctl_get_info, ioctl_read_entry.
    serve. }
  destruct (Hc (set_lock true s) Hv) as (r & s1 & Hrun & (? & ? & ? & ? & ?)).
  rewrite (bind_val _ _ _ _ _ Hrun). exists r, (set_lock false s1). split; [done|].
  unfold served. cbn in *. rewrite Hl. done.
Qed.

End Handler.

(** The packed word, cut into the fields of [DISPATCH_ORDER]. *)
Lemma pack_word_fields o :
  order_ok o ->
  0 <= hft_disp_pack_order_word o < 2 ^ 32 /\ dispatch_order (hft_disp_pack_order_word o) = o.
Proof.
  intros Ho. rewrite pack_word_value by done. destruct o as [t p q], Ho as (Ht & Hp & Hq).
  cbn in *. split; [lia|]. unfold dispatch_order. f_equal; word_arith.
Qed.

(** The status words, cut into their fields. *)
Lemma unpack_words st li valid :
  status_ok st -> log_info_ok li -> 0 <= valid <= 1 ->
  unpack_status (status_word st) = st /\ unpack_log_info (log_info_word valid li) = li.
Proof.
  intros (Hs & Hr & He & Hf) (Hc & Ho & Hi & Ha & Ht) Hv.
  rewrite status_field, log_info_field. destruct st, li. unfold status_word, log_info_word. cbn in *.
  split; f_equal; word_arith.
Qed.

(** [hft_disp_push_order_hw], run on any device. *)
Lemma push_order_hw_run {D : Type} `{Device D} lane o (s : Dev D) :
  virtbase s = true -> 0 <= lane ->
  let '(v, d) := io_read REG_STATUS (device s) in
  let st := unpack_status (u32 v) in
  hft_disp_push_order_hw lane o s =
    if (lane >=? 8) || (o_type o >? 1) || (o_quantity o >? 0x7FFF) then Val (- EINVAL) s
    else if negb (state st =? HFT_STATE_WRITE) then Val (- EAGAIN) (set_device d s)
    else if negb (Z.testbit (ready_mask st) lane) then Val (- EBUSY) (set_device d s)
    else Val 0 (set_device (io_write (REG_PUSH lane) (u32 (hft_disp_pack_order_word o)) d) s).
Proof.
  intros Hv Hlane. destruct (io_read REG_STATUS (device s)) as [v d] eqn:Hread. cbv zeta.
  unfold hft_disp_push_order_hw. destruct (lane >=? 8); [done|].
  destruct (o_type o >? 1); [done|]. destruct (o_quantity o >? 0x7FFF); [done|]. cbn [orb].
  rewrite (bind_val _ _ _ (u32 v) (set_device d s)) by (unfold ioread32; by rewrite Hv, Hread).
  cbn [unpack_status state ready_mask]. destruct (negb (_ =? HFT_STATE_WRITE)); [done|].
  unfold BIT. pose proof (land_bit (Z.shiftr (Z.land (u32 v) STATUS_READY_MASK) STATUS_READY_SHIFT) lane Hlane) as <-.
  rewrite negb_involutive. destruct (_ =? 0); [done|].
  rewrite (bind_val _ _ _ tt (set_device (io_write (REG_PUSH lane) (u32 (hft_disp_pack_order_word o)) d) s));
    [done|]. unfold iowrite32. cbn. by rewrite Hv.
Qed.

(** ** Properties *)

(** The eight commands are different numbers, so the [switch] of [hft_ioctl]
reaches every case. *)
Lemma ioctl_commands_distinct :
  NoDup [HFT_IOC_DISP_BEGIN_WRITE; HFT_IOC_DISP_BEGIN_DISPATCH; HFT_IOC_DISP_CLEAR_DONE;
         HFT_IOC_DISP_PUSH_ORDER; HFT_IOC_DISP_GET_STATUS; HFT_IOC_LOG_GET_INFO;
         HFT_IOC_LOG_READ_ENTRY; HFT_IOC_LOG_CLEAR].
Proof. apply (bool_decide_unpack _). vm_compute. exact I. Qed.

(** The word that the driver pushes for an order in range is 32 bits wide,
and the hardware's cast of it to a [DISPATCH_ORDER] gives the order back. *)
Theorem pack_order_word_roundtrip o :
  order_ok o ->
  0 <= hft_disp_pack_order_word o < 2 ^ 32 /\ dispatch_order (hft_disp_pack_order_word o) = o.
Proof. exact (pack_word_fields o). Qed.

Lemma pack_order_word_roundtrip_witness :
  0 <= hft_disp_pack_order_word (mkDispOrder 1 12345 777) < 2 ^ 32 /\
  dispatch_order (hft_disp_pack_order_word (mkDispOrder 1 12345 777)) = mkDispOrder 1 12345 777.
Proof. apply pack_order_word_roundtrip. unfold order_ok. cbn. lia. Defined.

(** The two status words are decoded as the hardware lays them out: every
field comes back, whatever the data-valid bit of [LOG_INFO]. *)
Theorem status_words_roundtrip st li valid :
  status_ok st -> log_info_ok li -> 0 <= valid <= 1 ->
  unpack_status (status_word st) = st /\ unpack_log_info (log_info_word valid li) = li.
Proof. exact (unpack_words st li valid). Qed.

Lemma status_words_roundtrip_witness :
  unpack_status (status_word (mkStatus 1 255 3 128)) = mkStatus 1 255 3 128 /\
  unpack_log_info (log_info_word 1 (mkLogInfo 8704 1 255 1 0)) = mkLogInfo 8704 1 255 1 0.
Proof.
  apply status_words_roundtrip; [unfold status_ok|unfold log_info_ok|]; cbn; lia.
Defined.

Section Properties.
Context {D : Type} `{Device D}.

(** C29: once the registers are mapped, every [ioctl] (any command, any
argument, any behaviour of the device) returns, gives the lock back, and leaves
the mapping and the registrations of the module as they were. *)
Theorem hft_ioctl_returns cmd (s : Dev D) :
  virtbase s = true -> lock s = false ->
  exists r s', hft_ioctl cmd s = Val r s' /\ lock s' = false /\ virtbase s' = true /\
    registered s' = registered s /\ region s' = region s.
Proof.
  intros Hv Hl. destruct (hft_ioctl_serves cmd s Hv Hl) as (r & s' & Hrun & (Hv' & Hl' & Hr & Hg & _)).
  exists r, s'. repeat split; congruence.
Qed.

(** Reading an entry of the log always ends, after at most 1000 polls.  The
result is 0, [-EAGAIN], [-EINVAL] or [-ETIMEDOUT]; the index of the entry is kept,
and its words change only when the result is 0. *)
Theorem log_read_entry_returns e (s : Dev D) :
  virtbase s = true ->
  exists r e' s', hft_log_read_entry_hw e s = Val (r, e') s' /\
    r ∈ [0; - EAGAIN; - EINVAL; - ETIMEDOUT] /\ e_index e' = e_index e /\ (r <> 0 -> e' = e).
Proof.
  intros Hv. unfold hft_log_read_entry_hw.
  destruct (serves_read REG_STATUS s Hv) as (status & s1 & Hr1 & Hs1). rewrite (bind_val _ _ _ _ _ Hr1).
  destruct (negb _); [eexists _, _, _; split; [reflexivity|set_solver]|].
  destruct (serves_read REG_LOG_INFO s1) as (info & s2 & Hr2 & Hs2); [destruct Hs1; congruence|].
  rewrite (bind_val _ _ _ _ _ Hr2). cbv zeta.
  destruct (_ >=? _); [eexists _, _, _; split; [reflexivity|set_solver]|].
  match goal with |- context [iowrite32 ?v ?r] =>
    destruct (serves_write v r s2) as ([] & s3 & Hw & Hs3); [destruct Hs1, Hs2; congruence|] end.
  rewrite (bind_val _ _ _ _ _ Hw).
  destruct (serves_wait_valid s3) as (info' & s4 & Hw4 & Hs4); [destruct Hs1, Hs2, Hs3; congruence|].
  rewrite (bind_val _ _ _ _ _ Hw4).
  destruct (_ =? 0); [eexists _, _, _; split; [reflexivity|set_solver]|].
  destruct (serves_read REG_LOG_DATA0 s4) as (w0 & s5 & Hr5 & Hs5);
    [destruct Hs1, Hs2, Hs3, Hs4; congruence|]. rewrite (bind_val _ _ _ _ _ Hr5).
  destruct (serves_read REG_LOG_DATA1 s5) as (w1 & s6 & Hr6 & Hs6);
    [destruct Hs1, Hs2, Hs3, Hs4, Hs5; congruence|]. rewrite (bind_val _ _ _ _ _ Hr6).
  eexists _, _, _. split; [reflexivity|]. split; [set_solver|]. split; [done|]. by intros ?.
Qed.

Context `{Kernel}.

(** The module holds nothing. *)
Definition released (s : Dev D) : Prop :=
  registered s = false /\ region s = None /\ virtbase s = false.

(** C30: probing is all or nothing: on success the device is registered, its
registers are held and mapped and the lock is free; on any failure everything
acquired so far has been given back.  Removing a probed device gives everything
back. *)
Theorem probe_all_or_nothing (s : Dev D) :
  released s ->
  exists r s', hft_probe s = Val r s' /\
    if r =? 0 then
      registered s' = true /\ region s' = Some (res s') /\ virtbase s' = true /\ lock s' = false /\
      exists s'', hft_remove s' = Val 0 s'' /\ released s''
    else released s'.
Proof.
  intros (Hr & Hg & Hv). destruct s as [d u rs vb l rg reg kl]. cbn in *. subst.
  unfold hft_probe, probe_register, bind, printk, modify, mutex_init, misc_register.
  destruct (Z.eqb_spec misc_register_ret 0) as [Hm|Hm]; cbn.
  2: { eexists _, _. destruct (Z.eqb_spec misc_register_ret 0); [done|]. cbn.
       split; [reflexivity|]. by replace (misc_register_ret =? 0) with false by lia. }
  unfold of_address_to_resource. destruct (Z.eqb_spec of_address_ret 0) as [Ha|Ha]; cbn.
  2: { destruct (Z.eqb_spec of_address_ret 0); [done|]. eexists _, _. split; [reflexivity|done]. }
  unfold request_mem_region. destruct mem_region_free; cbn.
  2: { eexists _, _. split; [reflexivity|done]. }
  unfold of_iomap. destruct iomap_ok; cbn.
  - eexists _, _. split; [reflexivity|]. cbn. do 4 (split; [done|]).
    unfold hft_remove, bind, iounmap, release_mem_region. cbn. rewrite decide_True by done.
    eexists. split; [reflexivity|done].
  - unfold out_release_mem, bind, release_mem_region. cbn. rewrite decide_True by done.
    eexists _, _. split; [reflexivity|done].
Qed.

(** The device is visible to processes before its registers are mapped: an
[ioctl] that comes right after [misc_register] dereferences the unmapped base. *)
Theorem ioctl_before_map cmd (s : Dev D) :
  released s -> misc_register_ret = 0 ->
  cmd ∈ [HFT_IOC_DISP_BEGIN_WRITE; HFT_IOC_DISP_BEGIN_DISPATCH; HFT_IOC_DISP_CLEAR_DONE;
         HFT_IOC_LOG_CLEAR; HFT_IOC_DISP_GET_STATUS; HFT_IOC_LOG_GET_INFO] ->
  exists s1, probe_register s = Val 0 s1 /\ registered s1 = true /\ hft_ioctl cmd s1 = Undef.
Proof.
  intros (Hr & Hg & Hv) Hm Hcmd. destruct s as [d u rs vb l rg reg kl]. cbn in *. subst.
  eexists. split; [unfold probe_register, bind, printk, modify, mutex_init, misc_register; cbn;
    rewrite Hm; reflexivity|]. split; [done|].
  repeat (apply elem_of_cons in Hcmd as [->|Hcmd]; [reflexivity|]). by apply not_elem_of_nil in Hcmd.
Qed.

End Properties.
