(* ===== verification/Hardware.v ===== *)
(** * Hardware: the device behind the driver's registers

The bus side of [hw/HFT_SIM.sv] with the dispatcher's state machine and FIFOs
([hw/dispatcher/]) and the trade log ([hw/trade_log/trade_log.sv]), one step per
register access; the engines that consume the orders are left out, except that
their status bits are part of the state.  It is the concrete device of the
driver's theorems. *)
From S2P Require Import Prelude HwParams Driver.

(** [hw_read] is the read of the log in flight: how many clock cycles remain
before [avl_log_data_shadow] is loaded with the entry. *)
Record Hw := mkHw {
  hw_state : Z;
  hw_fifos : list (list Z);
  hw_log : list Z;
  hw_overflow : Z;
  hw_idle : Z;
  hw_trade_done : Z;
  hw_shadow : Z;
  hw_valid : Z;
  hw_read : option (nat * Z)
}.

(** A vector of bits, the first one the lowest. *)
Fixpoint mask_of (bs : list bool) : Z :=
  match bs with
  | [] => 0
  | b :: bs' => 2 * mask_of bs' + Z.b2z b
  end.

Definition fifo_full (q : list Z) : bool := Z.of_nat (length q) =? FIFO_SZ.
Definition fifo_empty (q : list Z) : bool := bool_decide (q = []).
(** [sw_wr_ready[s] = (state == WRITE) && !fifo_full_i[s]]. *)
Definition wr_ready (h : Hw) (q : list Z) : bool := (hw_state h =? HFT_STATE_WRITE) && negb (fifo_full q).

Definition hw_status (h : Hw) : hft_disp_status :=
  mkStatus (hw_state h) (mask_of (wr_ready h <$> hw_fifos h))
    (mask_of (fifo_empty <$> hw_fifos h)) (mask_of (fifo_full <$> hw_fifos h)).

Definition hw_info (h : Hw) : hft_log_info :=
  mkLogInfo (Z.of_nat (length (hw_log h))) (hw_overflow h) (hw_idle h)
    (if hw_idle h =? 255 then 1 else 0) (hw_trade_done h).

(** A clock cycle of the registered read of the log. *)
Definition hw_tick (h : Hw) : Hw :=
  match hw_read h with
  | Some (S n, i) =>
      mkHw (hw_state h) (hw_fifos h) (hw_log h) (hw_overflow h) (hw_idle h) (hw_trade_done h)
           (hw_shadow h) (hw_valid h) (Some (n, i))
  | Some (O, i) =>
      mkHw (hw_state h) (hw_fifos h) (hw_log h) (hw_overflow h) (hw_idle h) (hw_trade_done h)
           (default 0 (hw_log h !! Z.to_nat i)) 1 None
  | None => h
  end.

(** [ADDR_CONTROL]: the pulses, seen by the state machine of the dispatcher;
[clear_done] also empties the FIFOs. *)
Definition hw_control (v : Z) (h : Hw) : Hw :=
  let go s fs := mkHw s fs (hw_log h) (hw_overflow h) (hw_idle h) (hw_trade_done h)
                      (hw_shadow h) (hw_valid h) (hw_read h) in
  if (hw_state h =? HFT_STATE_IDLE) && Z.testbit v 0 then go HFT_STATE_WRITE (hw_fifos h)
  else if (hw_state h =? HFT_STATE_WRITE) && Z.testbit v 1 then go HFT_STATE_DISPATCH (hw_fifos h)
  else if (hw_state h =? HFT_STATE_DONE) && Z.testbit v 2 then go HFT_STATE_IDLE ((fun _ => []) <$> hw_fifos h)
  else h.

(** [ADDR_PUSH0] to [ADDR_PUSH7]. *)
Definition hw_push (lane : nat) (v : Z) (h : Hw) : Hw :=
  match hw_fifos h !! lane with
  | Some q =>
      if wr_ready h q then
        mkHw (hw_state h) (<[lane := q ++ [v]]> (hw_fifos h)) (hw_log h) (hw_overflow h) (hw_idle h)
             (hw_trade_done h) (hw_shadow h) (hw_valid h) (hw_read h)
      else h
  | None => h
  end.

(** [ADDR_LOG_CMD]: bit 0 clears, bit 1 reads the entry of the other bits. *)
Definition hw_log_cmd (v : Z) (h : Hw) : Hw :=
  if Z.testbit v 0 then
    mkHw (hw_state h) (hw_fifos h) [] 0 (hw_idle h) (hw_trade_done h) 0 0 None
  else if Z.testbit v 1 then
    mkHw (hw_state h) (hw_fifos h) (hw_log h) (hw_overflow h) (hw_idle h) (hw_trade_done h)
         (hw_shadow h) 0 (Some (1%nat, field v 2 14))
  else h.

Definition hw_io_read (reg : Z) (h : Hw) : Z * Hw :=
  let h := hw_tick h in
  (if reg =? REG_STATUS then status_word (hw_status h)
   else if reg =? REG_LOG_INFO then log_info_word (hw_valid h) (hw_info h)
   else if reg =? REG_LOG_DATA0 then field (hw_shadow h) 0 32
   else if reg =? REG_LOG_DATA1 then field (hw_shadow h) 32 32
   else 0, h).

Definition hw_io_write (reg v : Z) (h : Hw) : Hw :=
  let h := hw_tick h in
  if reg =? REG_CONTROL then hw_control v h
  else if reg =? REG_LOG_CMD then hw_log_cmd v h
  else if (REG_PUSH 0 <=? reg) && (reg <=? REG_PUSH 7) then hw_push (Z.to_nat ((reg - REG_PUSH_BASE) / 4)) v h
  else h.

#[export] Instance hw_device : Device Hw := {
  io_read := hw_io_read;
  io_write := hw_io_write;
  io_delay := fun _ => hw_tick
}.

(** ** The status words *)

Record hw_ok (h : Hw) : Prop := {
  ok_state : 0 <= hw_state h < 4;
  ok_lanes : length (hw_fifos h) = 8%nat;
  ok_log : Z.of_nat (length (hw_log h)) <= TRADE_LOG_DEPTH;
  ok_overflow : 0 <= hw_overflow h <= 1;
  ok_idle : 0 <= hw_idle h < 2 ^ 8;
  ok_done : 0 <= hw_trade_done h <= 1;
  ok_valid : 0 <= hw_valid h <= 1
}.

Lemma mask_of_bound bs : 0 <= mask_of bs < 2 ^ Z.of_nat (length bs).
Proof.
  induction bs as [|b bs IH]; [simpl; lia|]. cbn [mask_of length].
  rewrite Nat2Z.inj_succ, Z.pow_succ_r by lia. destruct b; simpl; lia.
Qed.

Lemma mask_of_bit bs i : Z.testbit (mask_of bs) (Z.of_nat i) = default false (bs !! i).
Proof.
  revert i. induction bs as [|b bs IH]; intros i; [by rewrite Z.bits_0|]. cbn [mask_of].
  destruct i as [|i].
  - change (Z.of_nat 0) with 0. by rewrite Z.testbit_0_r || rewrite Z.add_b2z_double_bit0.
  - rewrite Nat2Z.inj_succ. rewrite Z.testbit_succ_r by lia. apply IH.
Qed.

Lemma hw_status_ok h : hw_ok h -> status_ok (hw_status h).
Proof.
  intros []. unfold status_ok, hw_status. cbn.
  assert (Hb : forall f : list Z -> bool, 0 <= mask_of (f <$> hw_fifos h) < 2 ^ 8).
  { intros f. pose proof (mask_of_bound (f <$> hw_fifos h)) as Hm.
    rewrite length_fmap in Hm. by replace (length (hw_fifos h)) with 8%nat in Hm. }
  do 3 (split; [auto|]). auto.
Qed.

Lemma hw_info_ok h : hw_ok h -> log_info_ok (hw_info h).
Proof.
  intros []. unfold log_info_ok, hw_info, TRADE_LOG_DEPTH in *. cbn.
  destruct (hw_idle h =? 255); lia.
Qed.

(** Register reads of the concrete device. *)
Lemma status_word_bound st : status_ok st -> u32 (status_word st) = status_word st.
Proof. intros (? & ? & ? & ?). apply u32_small. unfold status_word. lia. Qed.

Lemma log_info_word_bound v li : log_info_ok li -> 0 <= v <= 1 -> u32 (log_info_word v li) = log_info_word v li.
Proof. intros (? & ? & ? & ? & ?) ?. apply u32_small. unfold log_info_word. lia. Qed.

Lemma tick_same h :
  hw_state (hw_tick h) = hw_state h /\ hw_fifos (hw_tick h) = hw_fifos h /\
  hw_log (hw_tick h) = hw_log h /\ hw_overflow (hw_tick h) = hw_overflow h /\
  hw_idle (hw_tick h) = hw_idle h /\ hw_trade_done (hw_tick h) = hw_trade_done h.
Proof. unfold hw_tick. by destruct (hw_read h) as [[[|n] i]|]. Qed.

Lemma tick_ok h : hw_ok h -> hw_ok (hw_tick h).
Proof.
  intros []. destruct (tick_same h) as (Hs & Hf & Hl & Ho & Hi & Hd).
  split; rewrite ?Hs, ?Hf, ?Hl, ?Ho, ?Hi, ?Hd; try done.
  unfold hw_tick. destruct (hw_read h) as [[[|n] i]|]; cbn; lia.
Qed.

(** The device goes on, with the same orders and trades. *)
Definition steady (h h' : Hw) : Prop :=
  hw_ok h' /\ hw_state h' = hw_state h /\ hw_fifos h' = hw_fifos h /\ hw_log h' = hw_log h.

Lemma tick_steady h : hw_ok h -> steady h (hw_tick h).
Proof.
  intros Hok. destruct (tick_same h) as (Hs & Hf & Hl & _). split; [by apply tick_ok|]. done.
Qed.

#[export] Instance steady_trans : Transitive steady.
Proof. unfold steady. intros h1 h2 h3. intuition congruence. Qed.

Lemma read_status h : hw_ok h -> u32 (fst (io_read REG_STATUS h)) = status_word (hw_status (hw_tick h)).
Proof. intros Hok. apply status_word_bound, hw_status_ok, tick_ok, Hok. Qed.

Lemma read_info h :
  hw_ok h -> u32 (fst (io_read REG_LOG_INFO h)) = log_info_word (hw_valid (hw_tick h)) (hw_info (hw_tick h)).
Proof.
  intros Hok%tick_ok. apply log_info_word_bound; [by apply hw_info_ok|]. apply Hok.
Qed.

(** ** The driver on this device *)

Lemma hw_push_sound lane v h : hw_ok h -> hw_ok (hw_push lane v h).
Proof.
  intros []. unfold hw_push. case_match; [|by split]. destruct (wr_ready h l); [|by split].
  split; cbn; try done. by rewrite length_insert.
Qed.

(** A store to the push register of a lane with room. *)
Lemma write_push h lane w q :
  (lane < 8)%nat -> hw_state h = HFT_STATE_WRITE -> hw_fifos h !! lane = Some q -> fifo_full q = false ->
  let h' := hw_io_write (REG_PUSH (Z.of_nat lane)) w h in
  hw_fifos h' = <[lane := q ++ [w]]> (hw_fifos h) /\ hw_state h' = HFT_STATE_WRITE /\ (hw_ok h -> hw_ok h').
Proof.
  intros Hlane Hst Hq Hroom. cbv zeta. unfold hw_io_write, REG_PUSH, REG_PUSH_BASE.
  destruct (tick_same h) as (Hts & Htf & _).
  replace (_ =? REG_CONTROL) with false by (unfold REG_CONTROL; lia).
  replace (_ =? REG_LOG_CMD) with false by (unfold REG_LOG_CMD; lia).
  replace (_ && _) with true by (unfold REG_PUSH, REG_PUSH_BASE; lia).
  replace (Z.to_nat ((8 + 4 * Z.of_nat lane - 8) / 4)) with lane
    by (replace (8 + 4 * Z.of_nat lane - 8) with (Z.of_nat lane * 4) by lia; rewrite Z.div_mul by lia; lia).
  assert (Hrun : hw_push lane w (hw_tick h) =
    mkHw (hw_state (hw_tick h)) (<[lane := q ++ [w]]> (hw_fifos h)) (hw_log (hw_tick h)) (hw_overflow (hw_tick h))
         (hw_idle (hw_tick h)) (hw_trade_done (hw_tick h)) (hw_shadow (hw_tick h)) (hw_valid (hw_tick h))
         (hw_read (hw_tick h))).
  { unfold hw_push, wr_ready. by rewrite Htf, Hq, Hts, Hst, Hroom. }
  split; [by rewrite Hrun|]. split; [rewrite Hrun; cbn; by rewrite Hts|].
  intros Hok. by apply hw_push_sound, tick_ok.
Qed.

(** Pushing through the driver's helper, on a lane with room. *)
Lemma push_hw_takes (s : Dev Hw) lane o q :
  virtbase s = true -> hw_ok (device s) -> order_ok o -> (lane < 8)%nat ->
  hw_state (device s) = HFT_STATE_WRITE -> hw_fifos (device s) !! lane = Some q -> fifo_full q = false ->
  hft_disp_push_order_hw (Z.of_nat lane) o s =
    Val 0 (set_device (hw_io_write (REG_PUSH (Z.of_nat lane)) (hft_disp_pack_order_word o) (hw_tick (device s))) s).
Proof.
  intros Hv Hok Ho Hlane Hst Hq Hroom. destruct (pack_word_fields o Ho) as [Hw _].
  pose proof (push_order_hw_run (Z.of_nat lane) o s Hv ltac:(lia)) as Hp.
  pose proof (read_status (device s) Hok) as Hr. cbn [io_read hw_device fst] in Hr.
  destruct (io_read REG_STATUS (device s)) as [v d] eqn:Hread. cbn [io_read hw_device] in Hread.
  rewrite Hread in Hr. cbn [fst] in Hr. injection Hread as _ Hd'. rewrite Hp, Hr. clear Hp.
  destruct (unpack_words (hw_status (hw_tick (device s))) (hw_info (device s)) 0) as [-> _];
    [by apply hw_status_ok, tick_ok|by apply hw_info_ok|lia|].
  destruct Ho as (Ht & Hpr & Hqt). replace (_ || _ || _) with false by lia.
  destruct (tick_same (device s)) as (Hts & Htf & _).
  cbn [state ready_mask hw_status]. rewrite Hts, Hst, Htf, mask_of_bit, list_lookup_fmap, Hq.
  cbn [fmap option_fmap option_map default]. unfold wr_ready. rewrite Hts, Hst, Hroom. cbn.
  rewrite (u32_small (hft_disp_pack_order_word o)) by exact Hw. by subst d.
Qed.

(** The whole [ioctl]. *)
Lemma push_ioctl_hw (s : Dev Hw) lane o q :
  virtbase s = true -> lock s = false -> hw_ok (device s) -> order_ok o ->
  u_readable (user s) = true -> u_req (user s) = mkPushReq (Z.of_nat lane) o ->
  hw_state (device s) = HFT_STATE_WRITE -> hw_fifos (device s) !! lane = Some q ->
  fifo_full q = false ->
  exists s' w, hft_ioctl HFT_IOC_DISP_PUSH_ORDER s = Val 0 s' /\
    hw_fifos (device s') = <[lane := q ++ [w]]> (hw_fifos (device s)) /\ dispatch_order w = o /\
    hw_state (device s') = HFT_STATE_WRITE /\ hw_ok (device s') /\ virtbase s' = true /\ lock s' = false.
Proof.
  intros Hv Hl Hok Ho Hu Hreq Hst Hq Hroom.
  assert (Hlane : (lane < 8)%nat).
  { rewrite <- (ok_lanes _ Hok). by eapply lookup_lt_Some. }
  destruct (pack_word_fields o Ho) as [_ Hd]. set (w := hft_disp_pack_order_word o) in *.
  set (s1 := set_lock true s).
  pose proof (push_hw_takes s1 lane o q Hv Hok Ho Hlane Hst Hq Hroom) as Hpush. fold w in Hpush.
  eexists _, w. split.
  - change (hft_ioctl HFT_IOC_DISP_PUSH_ORDER s) with
      ((mutex_lock ;;! let! r := ioctl_push in mutex_unlock ;;! ret r) s).
    rewrite (bind_val _ _ _ tt s1) by (unfold mutex_lock; by rewrite Hl).
    rewrite (bind_val _ _ _ 0 (set_device (hw_io_write (REG_PUSH (Z.of_nat lane)) w (hw_tick (device s))) s1));
      [reflexivity|].
    unfold ioctl_push. rewrite (bind_val _ _ _ (Some (u_req (user s1))) s1)
      by (unfold copy_from_user, gets; cbn; by rewrite Hu).
    cbn [user s1 set_lock]. rewrite Hreq. exact Hpush.
  - cbn [device set_lock set_device s1 virtbase lock]. destruct (tick_same (device s)) as (Hts & Htf & _).
    destruct (write_push (hw_tick (device s)) lane w q Hlane) as (Hfs & Hst' & Hok');
      [by rewrite Hts|by rewrite Htf|done|].
    split; [by rewrite Hfs, Htf|]. split; [done|]. split; [done|]. split; [by apply Hok', tick_ok|]. done.
Qed.

(** C27: an order pushed with [ioctl] while the dispatcher is in WRITE and the
lane's FIFO has room is appended to that FIFO, and what the dispatcher will send
to the engine is the order that the caller gave. *)
Theorem pushed_order_reaches_its_fifo (s : Dev Hw) lane o q :
  virtbase s = true -> lock s = false -> hw_ok (device s) -> order_ok o ->
  u_readable (user s) = true -> u_req (user s) = mkPushReq (Z.of_nat lane) o ->
  hw_state (device s) = HFT_STATE_WRITE -> hw_fifos (device s) !! lane = Some q ->
  fifo_full q = false ->
  exists s' w, hft_ioctl HFT_IOC_DISP_PUSH_ORDER s = Val 0 s' /\
    hw_fifos (device s') = <[lane := q ++ [w]]> (hw_fifos (device s)) /\ dispatch_order w = o.
Proof.
  intros Hv Hl Hok Ho Hu Hreq Hst Hq Hroom.
  destruct (push_ioctl_hw s lane o q) as (s' & w & Hrun & Hfs & Hd & _); [done..|]. by exists s', w.
Qed.

Definition demo_user (r : hft_disp_push_req) (e : hft_log_entry) : User :=
  mkUser true true r (mkStatus 0 0 0 0) (mkLogInfo 0 0 0 0 0) e.
Definition demo_hw (st : Z) (log : list Z) : Hw :=
  mkHw st (replicate 8 []) log 0 255 0 0 0 None.
Definition demo_dev (u : User) (h : Hw) : Dev Hw := mkDev h u (0, 64) true false true (Some (0, 64)) [].

Lemma demo_hw_ok st log : 0 <= st < 4 -> (length log <= 10)%nat -> hw_ok (demo_hw st log).
Proof. intros. split; cbn; try done; unfold TRADE_LOG_DEPTH; lia. Qed.

Lemma pushed_order_reaches_its_fifo_witness :
  exists s' w, hft_ioctl HFT_IOC_DISP_PUSH_ORDER
      (demo_dev (demo_user (mkPushReq (Z.of_nat 3) (mkDispOrder 1 500 20)) (mkLogEntry 0 0 0)) (demo_hw 1 [])) =
        Val 0 s' /\
    hw_fifos (device s') = <[3%nat := [] ++ [w]]> (replicate 8 []) /\ dispatch_order w = mkDispOrder 1 500 20.
Proof.
  refine (pushed_order_reaches_its_fifo
    (demo_dev (demo_user (mkPushReq (Z.of_nat 3) (mkDispOrder 1 500 20)) (mkLogEntry 0 0 0)) (demo_hw 1 []))
    3 (mkDispOrder 1 500 20) [] eq_refl eq_refl _ _ eq_refl eq_refl eq_refl eq_refl eq_refl).
  - apply demo_hw_ok; simpl; lia.
  - unfold order_ok. cbn. lia.
Defined.

(** ** Reading the log *)

(** The command word for entry [i]. *)
Lemma read_command i :
  0 <= i < 2 ^ 14 ->
  let v := Z.lor (BIT 1) (u32 (Z.shiftl i 2)) in
  u32 v = v /\ Z.testbit v 0 = false /\ Z.testbit v 1 = true /\ field v 2 14 = i.
Proof.
  intros Hi v. assert (Hv : v = i * 2 ^ 2 + 2).
  { subst v. unfold BIT. rewrite u32_small by (rewrite Z.shiftl_mul_pow2; lia).
    rewrite Z.lor_comm. apply lor_disjoint; simpl; lia. }
  rewrite Hv. split; [apply u32_small; lia|].
  rewrite Z.bit0_odd, Z.odd_add, Z.odd_mul. change (2 ^ 2) with 4.
  split; [by rewrite andb_false_r|]. split.
  - apply Z.testbit_true; [done|]. change (2 ^ 1) with 2. word_arith.
  - word_arith.
Qed.

(** The log of a device waits in [hw_read] for two ticks. *)
Definition loading (h : Hw) (n : nat) (i : Z) : Prop := hw_read h = Some (n, i) /\ hw_valid h = 0.

Definition loaded (h : Hw) (w : Z) : Prop := hw_read h = None /\ hw_valid h = 1 /\ hw_shadow h = w.

Lemma tick_loading h i : loading h 1 i -> loading (hw_tick h) 0 i.
Proof. intros [Hr Hv]. unfold loading, hw_tick. by rewrite Hr. Qed.

Lemma tick_loaded h i w : loading h 0 i -> hw_log h !! Z.to_nat i = Some w -> loaded (hw_tick h) w.
Proof. intros [Hr Hv] Hw. unfold loaded, hw_tick. by rewrite Hr, Hw. Qed.

Lemma loaded_tick h w : loaded h w -> hw_tick h = h.
Proof. intros [Hr _]. unfold hw_tick. by rewrite Hr. Qed.

(** A register read of a mapped device, run. *)
Lemma ioread_run reg (s : Dev Hw) :
  virtbase s = true ->
  ioread32 reg s = Val (u32 (fst (io_read reg (device s)))) (set_device (hw_tick (device s)) s).
Proof. intros Hv. unfold ioread32. by rewrite Hv. Qed.

(** The data-valid bit of [LOG_INFO], as the driver tests it. *)
Lemma valid_bit h :
  hw_ok h ->
  (Z.land (u32 (fst (io_read REG_LOG_INFO h))) (BIT LOG_INFO_DATA_VALID_BIT) =? 0) = (hw_valid (hw_tick h) =? 0).
Proof.
  intros Hok. rewrite read_info by done. apply tick_ok in Hok. pose proof (hw_info_ok _ Hok) as Hi.
  set (li := hw_info (hw_tick h)) in *. pose proof (ok_valid _ Hok) as Hv.
  set (v := hw_valid (hw_tick h)) in *. destruct Hi as (Hc & Ho & Hid & Ha & Ht).
  assert (Hb : test_bit (log_info_word v li) 1 = v).
  { rewrite test_bit_field by done. unfold log_info_word. word_arith. }
  unfold test_bit in Hb. unfold LOG_INFO_DATA_VALID_BIT. destruct (_ =? 0); lia.
Qed.

Lemma data_words h w : loaded h w ->
  u32 (fst (io_read REG_LOG_DATA0 h)) = field w 0 32 /\ u32 (fst (io_read REG_LOG_DATA1 h)) = field w 32 32.
Proof.
  intros Hl. cbn [io_read hw_device]. unfold hw_io_read. rewrite (loaded_tick _ _ Hl).
  destruct Hl as (_ & _ & ->). cbn. split; apply u32_small, field_bound; lia.
Qed.

(** The polling loop on a device that has just taken a read command. *)
Lemma wait_valid_hw (s : Dev Hw) i w :
  virtbase s = true -> hw_ok (device s) -> loading (device s) 1 i ->
  hw_log (device s) !! Z.to_nat i = Some w ->
  exists info s', wait_valid s = Val info s' /\ virtbase s' = true /\ lock s' = lock s /\ user s' = user s /\
    steady (device s) (device s') /\ loaded (device s') w /\
    (Z.land info (BIT LOG_INFO_DATA_VALID_BIT) =? 0) = false.
Proof.
  intros Hv Hok Hload Hw. unfold wait_valid.
  set (h1 := hw_tick (device s)). set (h2 := hw_tick h1).
  pose proof (tick_loading _ _ Hload) as Hl1. fold h1 in Hl1.
  pose proof (tick_same (device s)) as (_ & _ & Hlog & _). fold h1 in Hlog.
  pose proof (tick_loaded h1 i w Hl1 ltac:(by rewrite Hlog)) as Hl2. fold h2 in Hl2.
  change (loop 1000 wait_valid_body 1000) with (loop (S (S 998)) wait_valid_body 1000).
  set (s2 := set_device h2 s).
  assert (Hbody1 : wait_valid_body 1000 s = Val (inl 999) s2).
  { unfold wait_valid_body. rewrite (bind_val _ _ _ _ _ (ioread_run _ _ Hv)). rewrite valid_bit by done.
    fold h1. destruct Hl1 as [_ ->]. done. }
  assert (Hok2 : hw_ok (device s2)) by by apply tick_ok, tick_ok.
  assert (Hbody2 : wait_valid_body 999 s2 =
    Val (inr (u32 (fst (io_read REG_LOG_INFO h2)))) (set_device (hw_tick h2) s2)).
  { unfold wait_valid_body. rewrite (bind_val _ _ _ _ _ (ioread_run REG_LOG_INFO s2 Hv)).
    rewrite valid_bit by done. change (device s2) with h2. rewrite (loaded_tick _ _ Hl2).
    destruct Hl2 as (_ & -> & _). done. }
  exists (u32 (fst (io_read REG_LOG_INFO h2))), (set_device (hw_tick h2) s2).
  assert (Hsteady : steady (device s) h2).
  { etrans; [by apply tick_steady|]. by apply tick_steady, tick_ok. }
  split; [|split; [done|]; split; [done|]; split; [done|]].
  - cbn [loop]. rewrite (bind_val _ _ _ _ _ Hbody1). cbn [loop].
    by rewrite (bind_val _ _ _ _ _ Hbody2).
  - cbn [device set_device]. rewrite (loaded_tick _ _ Hl2). split; [done|]. split; [done|].
    rewrite valid_bit by done. rewrite (loaded_tick _ _ Hl2). by destruct Hl2 as (_ & -> & _).
Qed.

(** The command that starts the read of an entry. *)
Lemma write_read_command (s : Dev Hw) i :
  virtbase s = true -> hw_ok (device s) -> 0 <= i < 2 ^ 14 ->
  exists h, iowrite32 (Z.lor (BIT 1) (u32 (Z.shiftl i 2))) REG_LOG_CMD s = Val tt (set_device h s) /\
    steady (device s) h /\ loading h 1 i.
Proof.
  intros Hv Hok Hi. destruct (read_command i Hi) as (Hu & Hb0 & Hb1 & Hfield).
  set (v := Z.lor (BIT 1) (u32 (Z.shiftl i 2))) in *. exists (io_write REG_LOG_CMD v (device s)).
  split; [unfold iowrite32; cbn; by rewrite Hv, Hu|].
  change (io_write REG_LOG_CMD v (device s)) with (hw_log_cmd v (hw_tick (device s))).
  destruct (tick_same (device s)) as (Hs & Hf & Hl & _). apply tick_ok in Hok.
  unfold hw_log_cmd. rewrite Hb0, Hb1. split; [|by split; cbn; rewrite ?Hfield].
  split; [destruct Hok; split; cbn; (done || lia)|]. done.
Qed.

(** The two reads before the command: the dispatcher is done, the entry exists. *)
Lemma read_checks (s : Dev Hw) :
  virtbase s = true -> hw_ok (device s) ->
  exists status info s1 s2, ioread32 REG_STATUS s = Val status s1 /\ ioread32 REG_LOG_INFO s1 = Val info s2 /\
    Z.land status STATUS_STATE_MASK = hw_state (device s) /\
    Z.shiftr (Z.land info LOG_INFO_COUNT_MASK) LOG_INFO_COUNT_SHIFT = Z.of_nat (length (hw_log (device s))) /\
    virtbase s2 = true /\ lock s2 = lock s /\ user s2 = user s /\ steady (device s) (device s2).
Proof.
  intros Hv Hok. pose proof (tick_steady _ Hok) as Hst1.
  assert (Hst2 : steady (device s) (hw_tick (hw_tick (device s)))) by (etrans; [done|]; by apply tick_steady, Hst1).
  eexists _, _, _, _. split; [by apply ioread_run|]. split; [by apply ioread_run|]. cbn [device set_device].
  rewrite read_status by done. rewrite read_info by apply Hst1.
  destruct (unpack_words (hw_status (hw_tick (device s))) (hw_info (hw_tick (hw_tick (device s))))
    (hw_valid (hw_tick (hw_tick (device s))))) as [Hu Hu2];
    [by apply hw_status_ok, Hst1|by apply hw_info_ok, Hst2|apply (proj1 Hst2)|].
  apply (f_equal state) in Hu. apply (f_equal li_count) in Hu2. cbn in Hu, Hu2. rewrite Hu, Hu2.
  destruct Hst1 as (_ & -> & _). split; [done|]. split; [|done]. by destruct Hst2 as (_ & _ & _ & ->).
Qed.

(** The dispatcher is done and the log has the entry: the entry is read. *)
Lemma read_entry_hw (s : Dev Hw) e w :
  virtbase s = true -> hw_ok (device s) -> hw_state (device s) = HFT_STATE_DONE ->
  0 <= e_index e -> hw_log (device s) !! Z.to_nat (e_index e) = Some w ->
  exists s', hft_log_read_entry_hw e s =
      Val (0, mkLogEntry (e_index e) (field w 0 32) (field w 32 32)) s' /\
    virtbase s' = true /\ lock s' = lock s /\ user s' = user s /\ steady (device s) (device s').
Proof.
  intros Hv Hok Hst Hi Hw. pose proof (lookup_lt_Some _ _ _ Hw) as Hlt.
  pose proof (ok_log _ Hok) as Hmax. unfold TRADE_LOG_DEPTH in Hmax.
  destruct (read_checks s Hv Hok) as (status & info & s1 & s2 & Hr1 & Hr2 & Hstate & Hcount & Hv2 & Hlk2 & Hu2 & Hsd2).
  unfold hft_log_read_entry_hw. rewrite (bind_val _ _ _ _ _ Hr1), Hstate, Hst, Z.eqb_refl. cbn [negb].
  rewrite (bind_val _ _ _ _ _ Hr2). cbv zeta. rewrite Hcount. replace (_ >=? _) with false by lia.
  destruct (write_read_command s2 (e_index e)) as (h3 & Hw3 & Hsd3 & Hload3); [done|apply Hsd2|lia|].
  rewrite (bind_val _ _ _ _ _ Hw3). assert (Hsd : steady (device s) h3) by by etrans.
  destruct (wait_valid_hw (set_device h3 s2) (e_index e) w)
    as (info' & s4 & Hrun4 & Hv4 & Hlk4 & Hu4 & Hsd4 & Hload & Hbit);
    [done|apply Hsd|done|cbn; by destruct Hsd as (_ & _ & _ & ->)|].
  rewrite (bind_val _ _ _ _ _ Hrun4), Hbit.
  destruct (data_words _ _ Hload) as [Hw0 Hw1]. pose proof (loaded_tick _ _ Hload) as Htick.
  rewrite (bind_val _ _ _ _ _ (ioread_run REG_LOG_DATA0 s4 Hv4)), Htick.
  rewrite (bind_val _ _ _ _ _ (ioread_run REG_LOG_DATA1 (set_device (device s4) s4) Hv4)).
  cbn [device set_device]. rewrite Hw0, Hw1, Htick. eexists. split; [reflexivity|]. cbn.
  split; [done|]. split; [by rewrite Hlk4|]. split; [by rewrite Hu4|]. by transitivity h3.
Qed.

(** The whole [ioctl]. *)
Lemma read_ioctl_hw (s : Dev Hw) w :
  virtbase s = true -> lock s = false -> hw_ok (device s) -> hw_state (device s) = HFT_STATE_DONE ->
  u_readable (user s) = true -> u_writable (user s) = true -> 0 <= e_index (u_le (user s)) ->
  hw_log (device s) !! Z.to_nat (e_index (u_le (user s))) = Some w ->
  exists s', hft_ioctl HFT_IOC_LOG_READ_ENTRY s = Val 0 s' /\ lock s' = false /\ virtbase s' = true /\
    steady (device s) (device s') /\
    u_le (user s') = mkLogEntry (e_index (u_le (user s))) (field w 0 32) (field w 32 32).
Proof.
  intros Hv Hl Hok Hst Hr Hwr Hi Hw. set (e := u_le (user s)) in *.
  change (hft_ioctl HFT_IOC_LOG_READ_ENTRY s) with
    ((mutex_lock ;;! let! r := ioctl_read_entry in mutex_unlock ;;! ret r) s).
  set (s1 := set_lock true s). rewrite (bind_val _ _ _ tt s1) by (unfold mutex_lock; by rewrite Hl).
  destruct (read_entry_hw s1 e w) as (s2 & Hrun & Hv2 & _ & Hu & Hsd); [done..|].
  erewrite bind_val.
  2: { unfold ioctl_read_entry. rewrite (bind_val _ _ _ (Some e) s1)
         by (unfold copy_from_user, gets; cbn; by rewrite Hr).
       rewrite (bind_val _ _ _ _ _ Hrun). cbn [fst snd negb Z.eqb].
       rewrite (bind_val _ _ _ false (set_user (set_le (mkLogEntry (e_index e) (field w 0 32) (field w 32 32)) (user s2)) s2))
         by (unfold copy_to_user; rewrite Hu; cbn; by rewrite Hwr).
       reflexivity. }
  eexists. split; [reflexivity|]. done.
Qed.

(** Reading the two status words through [ioctl]. *)
Lemma status_ioctl_hw (s : Dev Hw) :
  virtbase s = true -> lock s = false -> hw_ok (device s) -> u_writable (user s) = true ->
  exists s', hft_ioctl HFT_IOC_DISP_GET_STATUS s = Val 0 s' /\ lock s' = false /\ virtbase s' = true /\
    steady (device s) (device s') /\ u_st (user s') = hw_status (hw_tick (device s)).
Proof.
  intros Hv Hl Hok Hwr. pose proof (tick_steady _ Hok) as Hst.
  change (hft_ioctl HFT_IOC_DISP_GET_STATUS s) with
    ((mutex_lock ;;! let! r := ioctl_get_status in mutex_unlock ;;! ret r) s).
  set (s1 := set_lock true s). rewrite (bind_val _ _ _ tt s1) by (unfold mutex_lock; by rewrite Hl).
  erewrite bind_val.
  2: { unfold ioctl_get_status. rewrite (bind_val _ _ _ _ _ (ioread_run REG_STATUS s1 Hv)).
       erewrite bind_val; [|reflexivity]. erewrite bind_val; [|unfold copy_to_user; cbn; rewrite Hwr; reflexivity].
       reflexivity. }
  eexists. split; [reflexivity|]. split; [done|]. split; [done|]. split; [exact Hst|].
  change (unpack_status (u32 (fst (io_read REG_STATUS (device s)))) = hw_status (hw_tick (device s))).
  rewrite read_status by done.
  by apply (unpack_words _ (hw_info (device s)) 0); [apply hw_status_ok, Hst|apply hw_info_ok|].
Qed.

Lemma info_ioctl_hw (s : Dev Hw) :
  virtbase s = true -> lock s = false -> hw_ok (device s) -> u_writable (user s) = true ->
  exists s', hft_ioctl HFT_IOC_LOG_GET_INFO s = Val 0 s' /\ lock s' = false /\ virtbase s' = true /\
    steady (device s) (device s') /\ u_li (user s') = hw_info (hw_tick (device s)).
Proof.
  intros Hv Hl Hok Hwr. pose proof (tick_steady _ Hok) as Hst.
  change (hft_ioctl HFT_IOC_LOG_GET_INFO s) with
    ((mutex_lock ;;! let! r := ioctl_get_info in mutex_unlock ;;! ret r) s).
  set (s1 := set_lock true s). rewrite (bind_val _ _ _ tt s1) by (unfold mutex_lock; by rewrite Hl).
  erewrite bind_val.
  2: { unfold ioctl_get_info. rewrite (bind_val _ _ _ _ _ (ioread_run REG_LOG_INFO s1 Hv)).
       erewrite bind_val; [|unfold copy_to_user; cbn; rewrite Hwr; reflexivity]. reflexivity. }
  eexists. split; [reflexivity|]. split; [done|]. split; [done|]. split; [exact Hst|].
  change (unpack_log_info (u32 (fst (io_read REG_LOG_INFO (device s)))) = hw_info (hw_tick (device s))).
  rewrite read_info by done.
  by apply (unpack_words (hw_status (device s)) _ (hw_valid (hw_tick (device s))));
    [apply hw_status_ok|apply hw_info_ok, Hst|apply (proj1 Hst)].
Qed.

(** C28: once the dispatcher is done, reading an entry of the log with [ioctl]
returns 0 and hands the caller the two halves of that entry, within the driver's
1000 polls. *)
Theorem logged_trade_is_read (s : Dev Hw) e w :
  virtbase s = true -> lock s = false -> hw_ok (device s) -> hw_state (device s) = HFT_STATE_DONE ->
  u_readable (user s) = true -> u_writable (user s) = true -> u_le (user s) = e -> 0 <= e_index e ->
  hw_log (device s) !! Z.to_nat (e_index e) = Some w ->
  exists s', hft_ioctl HFT_IOC_LOG_READ_ENTRY s = Val 0 s' /\ lock s' = false /\
    u_le (user s') = mkLogEntry (e_index e) (field w 0 32) (field w 32 32).
Proof.
  intros Hv Hl Hok Hst Hr Hwr <- Hi Hw.
  destruct (read_ioctl_hw s w) as (s' & Hrun & Hlk & _ & _ & Hle); [done..|]. by exists s'.
Qed.

Lemma logged_trade_is_read_witness :
  exists s', hft_ioctl HFT_IOC_LOG_READ_ENTRY
      (demo_dev (demo_user (mkPushReq 0 (mkDispOrder 0 0 0)) (mkLogEntry 1 0 0)) (demo_hw 3 [7; 2 ^ 33 + 5])) =
        Val 0 s' /\ lock s' = false /\
    u_le (user s') = mkLogEntry 1 (field (2 ^ 33 + 5) 0 32) (field (2 ^ 33 + 5) 32 32).
Proof.
  refine (logged_trade_is_read
    (demo_dev (demo_user (mkPushReq 0 (mkDispOrder 0 0 0)) (mkLogEntry 1 0 0)) (demo_hw 3 [7; 2 ^ 33 + 5]))
    (mkLogEntry 1 0 0) (2 ^ 33 + 5) eq_refl eq_refl _ eq_refl eq_refl eq_refl eq_refl _ eq_refl).
  - apply demo_hw_ok; simpl; lia.
  - simpl. lia.
Defined.

(** ** Witnesses of the driver's properties, on this device *)

Lemma hft_ioctl_returns_witness :
  exists r s', hft_ioctl HFT_IOC_DISP_GET_STATUS
      (demo_dev (demo_user (mkPushReq 0 (mkDispOrder 0 0 0)) (mkLogEntry 1 0 0)) (demo_hw 1 [])) = Val r s' /\
    lock s' = false /\ virtbase s' = true /\ registered s' = true /\ region s' = Some (0, 64).
Proof.
  exact (hft_ioctl_returns HFT_IOC_DISP_GET_STATUS
    (demo_dev (demo_user (mkPushReq 0 (mkDispOrder 0 0 0)) (mkLogEntry 1 0 0)) (demo_hw 1 [])) eq_refl eq_refl).
Defined.

Lemma log_read_entry_returns_witness :
  exists r e' s', hft_log_read_entry_hw (mkLogEntry 0 0 0)
      (demo_dev (demo_user (mkPushReq 0 (mkDispOrder 0 0 0)) (mkLogEntry 1 0 0)) (demo_hw 3 [5])) = Val (r, e') s' /\
    r ∈ [0; - EAGAIN; - EINVAL; - ETIMEDOUT] /\ e_index e' = 0 /\ (r <> 0 -> e' = mkLogEntry 0 0 0).
Proof.
  exact (log_read_entry_returns (mkLogEntry 0 0 0)
    (demo_dev (demo_user (mkPushReq 0 (mkDispOrder 0 0 0)) (mkLogEntry 1 0 0)) (demo_hw 3 [5])) eq_refl).
Defined.

(** A kernel where mapping the registers fails. *)
Definition demo_kernel : Kernel := {|
  device_present := true; misc_register_ret := 0; of_address_ret := 0; resource := (0xFF200000, 64);
  mem_region_free := true; iomap_ok := false
|}.
Definition fresh_dev : Dev Hw :=
  mkDev (demo_hw 0 []) (demo_user (mkPushReq 0 (mkDispOrder 0 0 0)) (mkLogEntry 0 0 0)) (0, 0) false false false None [].

Lemma probe_all_or_nothing_witness :
  exists r s', @hft_probe Hw demo_kernel fresh_dev = Val r s' /\
    if r =? 0 then
      registered s' = true /\ region s' = Some (res s') /\ virtbase s' = true /\ lock s' = false /\
      exists s'', hft_remove s' = Val 0 s'' /\ released s''
    else released s'.
Proof.
  refine (@probe_all_or_nothing Hw demo_kernel fresh_dev _). by split.
Defined.

Lemma ioctl_before_map_witness :
  exists s1, @probe_register Hw demo_kernel fresh_dev = Val 0 s1 /\ registered s1 = true /\
    hft_ioctl HFT_IOC_DISP_GET_STATUS s1 = Undef.
Proof.
  refine (@ioctl_before_map Hw hw_device demo_kernel HFT_IOC_DISP_GET_STATUS fresh_dev _ eq_refl _).
  - by split.
  - apply (bool_decide_unpack _). vm_compute. exact I.
Defined.
