(* ===== verification/Harness.v ===== *)
(** * Harness: the test harness [sw/HFT_harness.c]

The user program that feeds the dispatcher from one CSV file per lane and dumps
the trade log: its helpers, in the order of the source, over an interface
[System] for what it asks of the kernel.  [HarnessMain.v] has [main];
[HarnessWait.v], [HarnessWrite.v] and [HarnessLog.v] prove the helpers correct
against the laws of the interface, and [HarnessDevice.v] runs them on the driver
and the hardware. *)
From Stdlib Require Import Ascii.
From S2P Require Import Prelude Scan Driver.

(** ** What the program asks of the kernel *)

(** A [struct timespec]: seconds and nanoseconds. *)
Definition timespec : Type := (Z * Z)%type.

(** The system calls and library calls on a world [W].  An [ioctl] gives the
kernel's result (the C library turns a negative one into -1 and [errno]) and the
memory of its argument; [sys_clock] is [None] when the call fails;
[sys_nanosleep] gives 0 or [errno] and the time that is left; [sys_stop] is
whether the handler of [SIGINT] has set [g_stop]. *)
Class System (W : Type) := {
  sys_ioctl : Z -> User -> W -> Z * User * W;
  sys_clock : W -> option timespec * W;
  sys_nanosleep : timespec -> W -> Z * timespec * W;
  sys_stop : W -> bool;
  sys_open_device : W -> bool;
  sys_read_file : string -> W -> Z + string;
  sys_create_file : string -> W -> Z;
  sys_calloc : Z -> W -> bool;
  sys_strerror : Z -> string
}.

Inductive harg := Num (z : Z) | Text (s : string).
Inductive hstream := Out | Err | Progress | Trades.
Record hline := mkHLine { hl_stream : hstream; hl_format : string; hl_args : list harg }.

(** An open CSV file: what it holds and what is left to read. *)
Record File := mkFile { f_content : string; f_rest : string }.

Record LaneCSVReader := mkReader { lane_csv : list (option File); lane_eof : list bool }.

Definition HFT_ALL_LANES_MASK : Z := BIT HFT_NUM_LANES - 1.
Definition HFT_ERR_RESET : Z := - ECONNRESET.
Definition lanes : list nat := seq 0 (Z.to_nat HFT_NUM_LANES).

(** The state of the program: the world, its reader, the descriptors and
buffers it holds, and what it has printed. *)
Record Proc (W : Type) := mkProc {
  world : W;
  csv : LaneCSVReader;
  fd_open : bool;
  progress_fp : bool;
  trades_fp : bool;
  logbuf : bool;
  printed : list hline
}.
Arguments mkProc {W} _ _ _ _ _ _ _.
Arguments world {W} _.
Arguments csv {W} _.
Arguments fd_open {W} _.
Arguments progress_fp {W} _.
Arguments trades_fp {W} _.
Arguments logbuf {W} _.
Arguments printed {W} _.

(** ** Rows *)

(** [%15[^,]]: at most [n] characters before a comma. *)
Fixpoint span_max (n : nat) (s : string) : string * string :=
  match n, s with
  | S n', String c s' =>
      if Ascii.eqb c comma then (EmptyString, s)
      else let '(a, b) := span_max n' s' in (String c a, b)
  | _, _ => (EmptyString, s)
  end.

(** What a line of a file is to [lane_csv_next_order]; a number that an
[unsigned] cannot hold makes the conversion undefined. *)
Inductive row := Row (o : hft_disp_order) | Blank | Invalid | Unrepresentable.

(** [%u] accepts a sign, and negates in [unsigned]. *)
Definition unsigned (v : Z) : option Z := if (- 2 ^ 32 <? v) && (v <? 2 ^ 32) then Some (u32 v) else None.

(** The checks after a [sscanf] that gave its three fields. *)
Definition check_row (type_s : string) (price_u qty_u : Z) : row :=
  let fields o_type :=
    if price_u >? 0xFFFF then Invalid else
    if qty_u >? 0x7FFF then Invalid else
    Row (mkDispOrder o_type (u16 price_u) (u16 qty_u)) in
  if String.eqb type_s "ASK" then fields 0
  else if String.eqb type_s "BID" then fields 1
  else Invalid.

(** The literal comma and the conversion [%u] of the format; a conversion that
does not match ends the [sscanf] short of its three fields. *)
Definition expect_comma (s : string) (k : string -> row) : row :=
  match s with
  | String c r => if Ascii.eqb c comma then k r else Invalid
  | EmptyString => Invalid
  end.
Definition scan_unsigned (s : string) (k : Z -> string -> row) : row :=
  match scan_int s with
  | None => Invalid
  | Some (v, r) => match unsigned v with None => Unrepresentable | Some u => k u r end
  end.

(** [sscanf(line, " %15[^,],%u,%u", ...)] and what follows it. *)
Definition scan_row (line : string) : row :=
  match span_max 15 (skip_space line) with
  | (EmptyString, _) => Invalid
  | (type_s, r) =>
      expect_comma r (fun r => scan_unsigned r (fun price_u r =>
      expect_comma r (fun r => scan_unsigned r (fun qty_u _ => check_row type_s price_u qty_u))))
  end.

Definition blank (line : string) : bool :=
  match line with
  | String c _ => (char_code c =? 10) || (char_code c =? 13)
  | EmptyString => false
  end || String.prefix "Type," line.

Definition parse_row (line : string) : row := if blank line then Blank else scan_row line.

Section Harness.
Context {W : Type} `{System W}.
Implicit Type s : Proc W.

Definition set_world (w : W) s : Proc W :=
  mkProc w (csv s) (fd_open s) (progress_fp s) (trades_fp s) (logbuf s) (printed s).
Definition set_csv (r : LaneCSVReader) s : Proc W :=
  mkProc (world s) r (fd_open s) (progress_fp s) (trades_fp s) (logbuf s) (printed s).
Definition set_fd (b : bool) s : Proc W :=
  mkProc (world s) (csv s) b (progress_fp s) (trades_fp s) (logbuf s) (printed s).
Definition set_progress (b : bool) s : Proc W :=
  mkProc (world s) (csv s) (fd_open s) b (trades_fp s) (logbuf s) (printed s).
Definition set_trades (b : bool) s : Proc W :=
  mkProc (world s) (csv s) (fd_open s) (progress_fp s) b (logbuf s) (printed s).
Definition set_logbuf (b : bool) s : Proc W :=
  mkProc (world s) (csv s) (fd_open s) (progress_fp s) (trades_fp s) b (printed s).
Definition print (f : hstream) (fmt : string) (args : list harg) : M (Proc W) unit := modify (fun s =>
  mkProc (world s) (csv s) (fd_open s) (progress_fp s) (trades_fp s) (logbuf s)
         (printed s ++ [mkHLine f fmt args])).

(** The loops that wait run on this much fuel. *)
Variable fuel : nat.

(** ** Time and sleep *)

Definition now_ms : M (Proc W) Z := fun s =>
  let '(ts, w) := sys_clock (world s) in
  Val match ts with
      | None => 0
      | Some (tv_sec, tv_nsec) => u64 (u64 tv_sec * 1000 + u64 tv_nsec / 1000000)
      end (set_world w s).

Definition nanosleep (ts : timespec) : M (Proc W) (Z * timespec) := fun s =>
  let '(err, rem, w) := sys_nanosleep ts (world s) in Val (err, rem) (set_world w s).

Definition sleep_body (ts : timespec) : M (Proc W) (timespec + Z) :=
  let! '(err, rem) := nanosleep ts in
  if err =? 0 then ret (inr 0) else
  if err =? EINTR then ret (inl rem) else ret (inr (- err)).

Definition sleep_ms (ms : Z) : M (Proc W) Z :=
  loop fuel sleep_body (u32 ms / 1000, u32 ms mod 1000 * 1000000).
Definition sleep_us (us : Z) : M (Proc W) Z :=
  loop fuel sleep_body (u32 us / 1000000, u32 us mod 1000000 * 1000).

(** [deadline] and its test, as the waiting functions write them. *)
Definition deadline_of (timeout_ms : Z) : M (Proc W) Z :=
  if timeout_ms <? 0 then ret 0 else let! t := now_ms in ret (u64 (t + timeout_ms)).
Definition past (timeout_ms deadline : Z) : M (Proc W) bool :=
  if timeout_ms >=? 0 then let! t := now_ms in ret (t >=? deadline) else ret false.

(** ** CSV helpers *)

Definition close_all_csvs : M (Proc W) unit := modify (fun s =>
  set_csv (mkReader (replicate 8 None) (replicate 8 false)) s).

Definition lane_file : list string :=
  ["AAPL.csv"; "BSX.csv"; "BUS.csv"; "MMM.csv"; "MSFT.csv"; "SBUX.csv"; "TUS.csv"; "WMT.csv"].

Definition open_csv (data_dir : string) (lane : nat) : M (Proc W) (option Z) :=
  let path := String.substring 0 511 (data_dir ++ "/" ++ lane_file !!! lane)%string in
  let! f := gets (fun s => sys_read_file path (world s)) in
  match f with
  | inl err =>
      modify (fun s => set_csv (mkReader (<[lane := None]> (lane_csv (csv s))) (lane_eof (csv s))) s) ;;!
      print Err "ERROR: cannot open lane %d CSV '%s': %s\n"
        [Num (Z.of_nat lane); Text path; Text (sys_strerror err)] ;;!
      close_all_csvs ;;!
      ret (Some (- ENOENT))
  | inr content =>
      modify (fun s => set_csv (mkReader (<[lane := Some (mkFile content content)]> (lane_csv (csv s)))
                                         (<[lane := false]> (lane_eof (csv s)))) s) ;;!
      ret None
  end.

Definition open_all_csvs (data_dir : string) : M (Proc W) Z :=
  let! r := for_return lanes (open_csv data_dir) in
  ret (default 0 r).

Definition rewind (f : File) : File := mkFile (f_content f) (f_content f).
Definition csv_rewind_all : M (Proc W) unit := modify (fun s =>
  set_csv (mkReader (option_map rewind <$> lane_csv (csv s)) (replicate 8 false)) s).

(** ** The dispatcher's states *)

(** [ioctl] on the open device: the kernel's result and the argument after it. *)
Definition ioctl (cmd : Z) (u : User) : M (Proc W) (Z * User) := fun s =>
  let '(r, u', w) := sys_ioctl cmd u (world s) in Val (r, u') (set_world w s).

(** Arguments on the stack: a request, a status, a log info and a log entry. *)
Definition user_of (r : hft_disp_push_req) (st : hft_disp_status) (li : hft_log_info) (le : hft_log_entry) : User :=
  mkUser true true r st li le.
Definition no_req : hft_disp_push_req := mkPushReq 0 (mkDispOrder 0 0 0).
Definition no_status : hft_disp_status := mkStatus 0 0 0 0.
Definition no_info : hft_log_info := mkLogInfo 0 0 0 0 0.
Definition no_entry : hft_log_entry := mkLogEntry 0 0 0.

Definition hft_disp_get_status (st : hft_disp_status) : M (Proc W) (Z * hft_disp_status) :=
  let! '(r, u) := ioctl HFT_IOC_DISP_GET_STATUS (user_of no_req st no_info no_entry) in
  ret (if r <? 0 then r else 0, u_st u).

Definition wait_state_body (want_state timeout_ms poll_ms deadline : Z) (abort_on_idle : bool) (_ : unit)
    : M (Proc W) (unit + Z) :=
  let! '(rc, st) := hft_disp_get_status no_status in
  if negb (rc =? 0) then ret (inr rc) else
  if state st =? want_state then ret (inr 0) else
  if abort_on_idle && (state st =? HFT_STATE_IDLE) && negb (want_state =? HFT_STATE_IDLE)
  then ret (inr HFT_ERR_RESET) else
  let! late := past timeout_ms deadline in
  if (late : bool) then ret (inr (- ETIMEDOUT)) else
  let! _ := sleep_ms poll_ms in
  ret (inl tt).

Definition hft_disp_wait_state (want_state timeout_ms poll_ms : Z) (abort_on_idle : bool) : M (Proc W) Z :=
  let poll_ms := if poll_ms <=? 0 then 1 else poll_ms in
  let! deadline := deadline_of timeout_ms in
  loop fuel (wait_state_body want_state timeout_ms poll_ms deadline abort_on_idle) tt.

Definition hft_transition_to_dispatch (timeout_ms : Z) : M (Proc W) Z :=
  let! rc := hft_disp_wait_state HFT_STATE_WRITE timeout_ms 1 false in
  if negb (rc =? 0) then ret rc else
  let! '(rc, _) := ioctl HFT_IOC_DISP_BEGIN_DISPATCH (user_of no_req no_status no_info no_entry) in
  if rc <? 0 then ret rc else
  hft_disp_wait_state HFT_STATE_DISPATCH timeout_ms 1 true.

Definition wait_dispatch_or_done_body (timeout_ms poll_ms deadline : Z) (_ : unit) : M (Proc W) (unit + Z) :=
  let! '(rc, st) := hft_disp_get_status no_status in
  if negb (rc =? 0) then ret (inr rc) else
  if (state st =? HFT_STATE_DISPATCH) || (state st =? HFT_STATE_DONE) then ret (inr 0) else
  if state st =? HFT_STATE_IDLE then ret (inr HFT_ERR_RESET) else
  let! late := past timeout_ms deadline in
  if (late : bool) then ret (inr (- ETIMEDOUT)) else
  let! _ := sleep_ms poll_ms in
  ret (inl tt).

Definition hft_disp_wait_dispatch_or_done (timeout_ms poll_ms : Z) : M (Proc W) Z :=
  let poll_ms := if poll_ms <=? 0 then 1 else poll_ms in
  let! deadline := deadline_of timeout_ms in
  loop fuel (wait_dispatch_or_done_body timeout_ms poll_ms deadline) tt.

Definition hft_transition_done_to_idle (timeout_ms : Z) : M (Proc W) Z :=
  let! rc := hft_disp_wait_state HFT_STATE_DONE timeout_ms 1 false in
  if negb (rc =? 0) then ret rc else
  let! '(rc, _) := ioctl HFT_IOC_DISP_CLEAR_DONE (user_of no_req no_status no_info no_entry) in
  if rc <? 0 then ret rc else
  hft_disp_wait_state HFT_STATE_IDLE timeout_ms 1 false.

Definition hft_all_fifos_full_mask (full_mask : Z) : bool :=
  Z.land full_mask HFT_ALL_LANES_MASK =? HFT_ALL_LANES_MASK.

(** ** Pushing orders into the FIFOs *)

Definition hft_disp_push_order (lane : Z) (o : hft_disp_order) : M (Proc W) Z :=
  let! '(r, _) := ioctl HFT_IOC_DISP_PUSH_ORDER (user_of (mkPushReq lane o) no_status no_info no_entry) in
  ret (if r <? 0 then r else 0).

Definition push_blocking_body (lane : Z) (o : hft_disp_order) (timeout_ms poll_us deadline : Z) (_ : unit)
    : M (Proc W) (unit + Z) :=
  let! rc := hft_disp_push_order lane o in
  if rc =? 0 then ret (inr 0) else
  if negb (rc =? - EAGAIN) && negb (rc =? - EBUSY) then ret (inr rc) else
  let! late := past timeout_ms deadline in
  if (late : bool) then ret (inr (- ETIMEDOUT)) else
  let! _ := sleep_us poll_us in
  ret (inl tt).

Definition hft_disp_push_order_blocking (lane : Z) (o : hft_disp_order) (timeout_ms poll_us : Z) : M (Proc W) Z :=
  let poll_us := if poll_us <=? 0 then 200 else poll_us in
  let! deadline := deadline_of timeout_ms in
  loop fuel (push_blocking_body lane o timeout_ms poll_us deadline) tt.

(** The result and, when it is 1, the order put in [*out]. *)
Definition set_lane (lane : nat) (f : File) : M (Proc W) unit := modify (fun s =>
  set_csv (mkReader (<[lane := Some f]> (lane_csv (csv s))) (lane_eof (csv s))) s).
Definition set_eof (lane : nat) : M (Proc W) unit := modify (fun s =>
  set_csv (mkReader (lane_csv (csv s)) (<[lane := true]> (lane_eof (csv s)))) s).

(** Reading from a stream that is not open is undefined. *)
Definition next_order_body (lane : nat) (_ : unit) : M (Proc W) (unit + (Z * option hft_disp_order)) :=
  let! r := gets csv in
  let! f := lift (mjoin (lane_csv r !! lane)) in
  match fgets 256 (f_rest f) with
  | None => set_eof lane ;;! ret (inr (0, None))
  | Some (line, rest) =>
      set_lane lane (mkFile (f_content f) rest) ;;!
      match parse_row line with
      | Blank => ret (inl tt)
      | Invalid => ret (inr (- EINVAL, None))
      | Unrepresentable => undef
      | Row o => ret (inr (1, Some o))
      end
  end.

Definition lane_csv_next_order (lane : nat) : M (Proc W) (Z * option hft_disp_order) :=
  if (8 <=? lane)%nat then ret (- EINVAL, None) else
  let! r := gets csv in
  if (lane_eof r !!! lane : bool) then ret (0, None) else
  let! f := lift (mjoin (lane_csv r !! lane)) in
  loop (S (String.length (f_rest f))) (next_order_body lane) tt.

(** One pass of the [for] over the lanes: the new [lane_done] ([inl]), or the
value that is returned ([inr]). *)
Fixpoint write_lanes (next_order : nat -> M (Proc W) (Z * option hft_disp_order)) (timeout_ms deadline : Z)
    (ls : list nat) (st : hft_disp_status) (lane_done : list bool) : M (Proc W) (list bool + Z) :=
  match ls with
  | [] => ret (inl lane_done)
  | lane :: ls' =>
      if (lane_done !!! lane : bool) then write_lanes next_order timeout_ms deadline ls' st lane_done else
      if negb (Z.land (full_mask st) (BIT (Z.of_nat lane)) =? 0)
      then write_lanes next_order timeout_ms deadline ls' st lane_done else
      let! '(have, out) := next_order lane in
      if have <? 0 then ret (inr have) else
      if have =? 0 then write_lanes next_order timeout_ms deadline ls' st (<[lane := true]> lane_done) else
      let! o := lift out in
      let! rc := hft_disp_push_order_blocking (Z.of_nat lane) o 2000 200 in
      if negb (rc =? 0) then ret (inr rc) else
      let! late := past timeout_ms deadline in
      if (late : bool) then ret (inr (- ETIMEDOUT)) else
      let! '(rc, st) := hft_disp_get_status st in
      if negb (rc =? 0) then ret (inr rc) else
      if hft_all_fifos_full_mask (full_mask st) then ret (inr 0) else
      write_lanes next_order timeout_ms deadline ls' st lane_done
  end.

Definition write_body (next_order : nat -> M (Proc W) (Z * option hft_disp_order)) (timeout_ms deadline : Z)
    (lane_done : list bool) : M (Proc W) (list bool + Z) :=
  if forallb id lane_done then ret (inr 0) else
  let! '(rc, st) := hft_disp_get_status no_status in
  if negb (rc =? 0) then ret (inr rc) else
  if hft_all_fifos_full_mask (full_mask st) then ret (inr 0) else
  if state st =? HFT_STATE_IDLE then ret (inr HFT_ERR_RESET) else
  if negb (state st =? HFT_STATE_WRITE) then ret (inr (- EAGAIN)) else
  write_lanes next_order timeout_ms deadline lanes st lane_done.

Definition hft_write_orders_round_robin (next_order : nat -> M (Proc W) (Z * option hft_disp_order))
    (timeout_ms : Z) : M (Proc W) Z :=
  let! deadline := deadline_of timeout_ms in
  loop fuel (write_body next_order timeout_ms deadline) (replicate 8 false).

(** ** Reading the trade log *)

Definition hft_log_get_info (li : hft_log_info) : M (Proc W) (Z * hft_log_info) :=
  let! '(r, u) := ioctl HFT_IOC_LOG_GET_INFO (user_of no_req no_status li no_entry) in
  ret (if r <? 0 then r else 0, u_li u).

(** The entries read so far, and the early return of an error. *)
Fixpoint read_entries (ixs : list Z) (entries : list hft_log_entry) : M (Proc W) (Z * list hft_log_entry) :=
  match ixs with
  | [] => ret (0, entries)
  | i :: ixs' =>
      let! '(r, u) := ioctl HFT_IOC_LOG_READ_ENTRY (user_of no_req no_status no_info (mkLogEntry i 0 0)) in
      if r <? 0 then ret (r, entries) else read_entries ixs' (entries ++ [u_le u])
  end.

(** The result, the entries ([out_count] is their number) and [out_overflow]. *)
Definition hft_log_read_all (max_entries : Z) : M (Proc W) (Z * list hft_log_entry * Z) :=
  let! '(rc, li) := hft_log_get_info no_info in
  if negb (rc =? 0) then ret (rc, [], 0) else
  let n := if li_count li >? max_entries then max_entries else li_count li in
  let! '(rc, entries) := read_entries (Z.of_nat <$> seq 0 (Z.to_nat n)) [] in
  ret (rc, entries, li_overflow li).

(** [fp] is whether the progress file is open. *)
Definition tee_printf (fp : bool) (fmt : string) (args : list harg) : M (Proc W) unit :=
  (if fp then print Progress fmt args else ret tt) ;;!
  print Out fmt args.

Definition print_lane_mask (fp : bool) (label : string) (mask : Z) : M (Proc W) unit :=
  tee_printf fp "%s:" [Text label] ;;!
  for_each lanes (fun lane =>
    tee_printf fp " %d=%c" [Num (Z.of_nat lane);
      Text (if negb (Z.land mask (BIT (Z.of_nat lane)) =? 0) then "1" else "0")]) ;;!
  tee_printf fp "\n" [].

Definition disp_state_str (state : Z) : string :=
  if state =? HFT_STATE_IDLE then "IDLE" else
  if state =? HFT_STATE_WRITE then "WRITE" else
  if state =? HFT_STATE_DISPATCH then "DISPATCH" else
  if state =? HFT_STATE_DONE then "DONE" else "UNKNOWN".

Definition hft_print_progress_snapshot (fp : bool) : M (Proc W) unit :=
  let! '(rc_st, st) := hft_disp_get_status no_status in
  let! '(rc_li, li) := hft_log_get_info no_info in
  (if rc_st =? 0 then
     tee_printf fp "[progress] Dispatcher state=%s (%u)\n" [Text (disp_state_str (state st)); Num (state st)] ;;!
     print_lane_mask fp "[progress] FIFO empty_mask" (empty_mask st) ;;!
     print_lane_mask fp "[progress] FIFO full_mask " (full_mask st) ;;!
     print_lane_mask fp "[progress] FIFO ready_mask" (ready_mask st)
   else tee_printf fp "[progress] Dispatcher status unavailable (rc=%d)\n" [Num rc_st]) ;;!
  if rc_li =? 0 then
    tee_printf fp "[progress] Trade log count=%u overflow=%u trade_done=%u\n"
      [Num (li_count li); Num (li_overflow li); Num (trade_done li)] ;;!
    tee_printf fp "[progress] Engines: all_idle=%u idle_mask=0x%08x\n"
      [Num (all_engines_idle li); Num (engine_idle_mask li)]
  else if rc_li =? - EAGAIN then
    tee_printf fp "[progress] Trade logger info not ready yet (rc=%d)\n" [Num rc_li]
  else tee_printf fp "[progress] Trade logger info unavailable (rc=%d)\n" [Num rc_li].

Definition print_period_ms : Z := 250.

(** The snapshot and the new [next_print_ms]. *)
Definition throttled_snapshot (fp : bool) (t next_print_ms : Z) : M (Proc W) Z :=
  if t >=? next_print_ms then
    (if fp then hft_print_progress_snapshot fp else ret tt) ;;!
    ret (u64 (t + print_period_ms))
  else ret next_print_ms.

(** The loop variable is [next_print_ms]; the result comes with [*out_final]. *)
Definition wait_trade_done_body (fp : bool) (timeout_ms poll_ms deadline : Z) (out_final : hft_log_info)
    (next_print_ms : Z) : M (Proc W) (Z + Z * hft_log_info) :=
  let! g_stop := gets (fun s => sys_stop (world s)) in
  if (g_stop : bool) then
    tee_printf fp "[progress] interrupted (SIGINT)\n" [] ;;! ret (inr (- EINTR, out_final))
  else
  let! '(rc_st, st) := hft_disp_get_status no_status in
  if negb (rc_st =? 0) then ret (inr (rc_st, out_final)) else
  if state st =? HFT_STATE_IDLE then ret (inr (HFT_ERR_RESET, out_final)) else
  let! '(rc, li) := hft_log_get_info no_info in
  let! t := now_ms in
  let! next_print_ms := throttled_snapshot fp t next_print_ms in
  if (rc =? 0) && negb (trade_done li =? 0) then ret (inr (0, li)) else
  if negb (rc =? 0) && negb (rc =? - EAGAIN) then ret (inr (rc, out_final)) else
  let! late := past timeout_ms deadline in
  if (late : bool) then ret (inr (- ETIMEDOUT, out_final)) else
  let! _ := sleep_ms poll_ms in
  ret (inl next_print_ms).

Definition hft_log_wait_trade_done (fp : bool) (timeout_ms poll_ms : Z) (out_final : hft_log_info)
    : M (Proc W) (Z * hft_log_info) :=
  let poll_ms := if poll_ms <=? 0 then 1 else poll_ms in
  let! deadline := deadline_of timeout_ms in
  loop fuel (wait_trade_done_body fp timeout_ms poll_ms deadline out_final) 0.

(** The fields that the dump shows of an entry: engine, quantity, dollars,
cents and timestamp. *)
Definition entry_fields (e : hft_log_entry) : Z * Z * Z * Z * Z :=
  let w1 := e_word1 e in
  let engine_id := Z.land (Z.shiftr w1 24) 0x7 in
  let quantity := Z.land (Z.shiftr w1 16) 0x7F in
  let price_cents := Z.land (Z.shiftr w1 0) 0xFFFF in
  (engine_id, quantity, price_cents / 100, price_cents mod 100, e_word0 e).

Definition dump_entry (i : nat) (e : hft_log_entry) : M (Proc W) unit :=
  let '(engine_id, quantity, dollars, cents, ts) := entry_fields e in
  print Trades "%u,0x%08x,0x%08x,%u,%u,%u.%02u,%u\n"
    [Num (Z.of_nat i); Num (e_word0 e); Num (e_word1 e); Num engine_id; Num quantity;
     Num dollars; Num cents; Num ts].

Definition hft_log_dump_entries (es : list hft_log_entry) : M (Proc W) unit :=
  for_each (zip (seq 0 (length es)) es) (fun p => dump_entry p.1 p.2).

End Harness.
