(* ===== verification/HarnessMain.v ===== *)
(** * HarnessMain: [main] of [sw/HFT_harness.c]

One pass of the outer loop from the rewinding of the files to the dump of the
log, with every way out of it; and the whole program. *)
From S2P Require Import Prelude Scan Driver Harness.

Section Main.
Context {W : Type} `{System W}.
Implicit Type s : Proc W.
Variable fuel : nat.

(** The end of a pass: [continue], a [return] or the [break] to the clean-up. *)
Inductive pass_end := Continue | Return (code : Z) | Break.

(** [close(fd)], [fclose(progress_fp)] if they are open. *)
Definition release_all : M (Proc W) unit :=
  close_all_csvs ;;!
  modify (set_progress false) ;;!
  modify (set_fd false).

(** [fopen(name, "w")]: 0 or [errno]. *)
Definition create_file (name : string) : M (Proc W) Z := gets (fun s => sys_create_file name (world s)).

Definition dump_path : string := "hft_trades.txt".

(** From the end of the wait for [trade_done] on. *)
Definition dump_trades (final_li : hft_log_info) : M (Proc W) pass_end :=
  print Out "Trading done.\n" [] ;;!
  print Out "Trade log count (trades recorded): %u\n" [Num (li_count final_li)] ;;!
  print Out "Trade log overflow: %u\n" [Num (li_overflow final_li)] ;;!
  let n := if li_count final_li >? 8704 then 8704 else li_count final_li in
  if n =? 0 then
    print Out "No trades recorded.\n" [] ;;! close_all_csvs ;;! ret (Return 0)
  else
  let! ok := gets (fun s => sys_calloc n (world s)) in
  if negb ok then
    print Err "ERROR: calloc failed\n" [] ;;! close_all_csvs ;;! ret (Return 1)
  else
  modify (set_logbuf true) ;;!
  let! '(rc, got, overflow) := hft_log_read_all n in
  if negb (rc =? 0) then
    print Err "ERROR: hft_log_read_all failed: %d\n" [Num rc] ;;!
    modify (set_logbuf false) ;;! close_all_csvs ;;! ret (Return 1)
  else
  print Out "Read back %u trade log entries (overflow=%u)\n" [Num (Z.of_nat (length got)); Num overflow] ;;!
  let! err := create_file dump_path in
  if negb (err =? 0) then
    print Err "ERROR: could not open hft_trades.txt for writing: %s\n" [Text (sys_strerror err)] ;;!
    modify (set_logbuf false) ;;! close_all_csvs ;;! ret (Return 1)
  else
  modify (set_trades true) ;;!
  print Trades "index,word0,word1,engine_id,quantity,price,timestamp\n" [] ;;!
  hft_log_dump_entries got ;;!
  modify (set_trades false) ;;!
  modify (set_logbuf false) ;;!
  ret Break.

(** From the wait for the dispatch on. *)
Definition trade_pass (st : hft_disp_status) : M (Proc W) pass_end :=
  let! rc := hft_disp_wait_dispatch_or_done fuel (-1) 1 in
  if rc =? HFT_ERR_RESET then print Out "Reset detected before dispatch. Restarting.\n" [] ;;! ret Continue else
  if negb (rc =? 0) then
    print Err "Error: wait for DISPATCH/DONE failed rc=%d\n" [Num rc] ;;! ret (Return 1)
  else
  let! '(rc, st) := hft_disp_get_status st in
  if negb (rc =? 0) then
    print Err "Error: get status after dispatch wait failed rc=%d\n" [Num rc] ;;!
    release_all ;;! ret (Return 1)
  else
  (if state st =? HFT_STATE_DISPATCH then print Out "Virtualized HFT Simulator has started.\n" []
   else print Out "Dispatcher already reached DONE before SW observed DISPATCH.\n" []) ;;!
  let! fp := gets progress_fp in
  let! '(rc, final_li) := hft_log_wait_trade_done fuel fp 600000 2 no_info in
  if rc =? HFT_ERR_RESET then print Out "Reset detected during dispatch. Restarting.\n" [] ;;! ret Continue else
  if rc =? - EINTR then
    print Err "Interrupted (Ctrl+C). Exiting cleanly.\n" [] ;;! close_all_csvs ;;! ret (Return 0)
  else
  if negb (rc =? 0) then
    print Err "ERROR: timed out / failed waiting for trade_done: %d\n" [Num rc] ;;!
    close_all_csvs ;;! ret (Return 1)
  else
  dump_trades final_li.

(** A pass of the outer loop. *)
Definition run_pass : M (Proc W) pass_end :=
  let! g_stop := gets (fun s => sys_stop (world s)) in
  if (g_stop : bool) then ret Break else
  csv_rewind_all ;;!
  let! '(rc, _) := ioctl HFT_IOC_LOG_CLEAR (user_of no_req no_status no_info no_entry) in
  if rc <? 0 then ret (Return rc) else
  let! rc := hft_disp_wait_state fuel HFT_STATE_WRITE (-1) 10 false in
  if rc =? HFT_ERR_RESET then print Out "Reset detected. Restarting.\n" [] ;;! ret Continue else
  if negb (rc =? 0) then print Err "Error: wait for WRITE failed rc=%d\n" [Num rc] ;;! ret (Return 1) else
  print Out "Writing Data to Order Dispatcher.\n" [] ;;!
  let! rc := hft_write_orders_round_robin fuel lane_csv_next_order 30000 in
  if rc =? HFT_ERR_RESET then print Out "Reset detected during write. Restarting.\n" [] ;;! ret Continue else
  if negb (rc =? 0) then
    print Err "ERROR: write_orders_round_robin failed: %d\n" [Num rc] ;;! ret (Return 1)
  else
  let! '(rc, st) := hft_disp_get_status no_status in
  if negb (rc =? 0) then
    print Err "Error: get status before dispatch failed rc=%d\n" [Num rc] ;;!
    release_all ;;! ret (Return 1)
  else
  print Err "Before DISPATCH: state=%u ready=0x%02x empty=0x%02x full=0x%02x\n"
    [Num (state st); Num (ready_mask st); Num (empty_mask st); Num (full_mask st)] ;;!
  trade_pass st.

Definition main_body (_ : unit) : M (Proc W) (unit + option Z) :=
  let! e := run_pass in
  ret match e with
      | Continue => inl tt
      | Return code => inr (Some code)
      | Break => inr None
      end.

Definition data_dir : string := "../data".

(** The value that [main] returns. *)
Definition main : M (Proc W) Z :=
  let! err := create_file "hft_progress.txt" in
  (if err =? 0 then modify (set_progress true)
   else print Err "WARNING: could not open hft_progress.txt for writing: %s\n" [Text (sys_strerror err)]) ;;!
  let! ok := gets (fun s => sys_open_device (world s)) in
  if negb ok then print Err "Error: could not open %s\n" [Text "/dev/hft_sim"] ;;! ret (-1) else
  modify (set_fd true) ;;!
  print Out "Starting HFT Simulator Harness.\n" [] ;;!
  let! rc := open_all_csvs data_dir in
  if negb (rc =? 0) then ret 1 else
  let! r := loop fuel main_body tt in
  match r with
  | Some code => ret code
  | None => release_all ;;! ret 0
  end.

End Main.

(** The program before its first statement. *)
Definition init_proc {W : Type} (w : W) : Proc W :=
  mkProc w (mkReader (replicate 8 None) (replicate 8 false)) false false false false [].
