(* ===== verification/HarnessWait.v ===== *)
(** * HarnessWait: the harness's timed waits

The laws of the clock and of [nanosleep], and what follows for every function of
the harness that polls the device under a timeout: it returns, in time, and its
result says what it saw. *)
From S2P Require Import Prelude Driver Harness.

(** ** The laws *)

(** Time is counted in nanoseconds and stands still at a far horizon, where the
milliseconds of [now_ms] still fit in 64 bits. *)
Definition NS_PER_MS : Z := 1000000.
Definition HORIZON : Z := 2 ^ 63 * NS_PER_MS.

Definition nanoseconds (ts : timespec) : Z := ts.1 * 1000000000 + ts.2.
Definition valid_timespec (ts : timespec) : Prop := 0 <= ts.1 /\ 0 <= ts.2 < 1000000000.

(** [elapsed] is the time of a world and [signals] a bound on the signals that
will still interrupt a sleep.  [clock_gettime] reads the time at the call; a
[nanosleep] that returns 0 has slept at least as long as asked, and one that is
interrupted reports at least what is left of that. *)
Class SystemLaws (W : Type) `{System W} := {
  elapsed : W -> Z;
  signals : W -> nat;
  elapsed_range : forall w, 0 <= elapsed w <= HORIZON;
  ioctl_law : forall cmd u w, let '(_, _, w') := sys_ioctl cmd u w in
    elapsed w <= elapsed w' /\ (signals w' <= signals w)%nat;
  clock_law : forall w, exists ts w', sys_clock w = (Some ts, w') /\ valid_timespec ts /\
    nanoseconds ts = elapsed w /\ elapsed w <= elapsed w' /\ (signals w' <= signals w)%nat;
  sleep_law : forall ts w, valid_timespec ts ->
    let '(err, rem, w') := sys_nanosleep ts w in
    (err = 0 /\ Z.min HORIZON (elapsed w + nanoseconds ts) <= elapsed w' /\ (signals w' <= signals w)%nat) \/
    (err = EINTR /\ valid_timespec rem /\ (signals w' < signals w)%nat /\
     Z.min HORIZON (elapsed w + nanoseconds ts) <= elapsed w' + nanoseconds rem)
}.

Section Wait.
Context {W : Type} `{SystemLaws W}.
Implicit Type s : Proc W.

(** Milliseconds since the clock's start. *)
Definition ms (w : W) : Z := elapsed w / NS_PER_MS.

(** [w'] is a world at least [k] nanoseconds after [w]. *)
Definition after (k : Z) (w w' : W) : Prop :=
  (signals w' <= signals w)%nat /\ Z.min HORIZON (elapsed w + k) <= elapsed w'.

Lemma after_refl w : after 0 w w.
Proof. split; [done|]. pose proof (elapsed_range w). lia. Qed.

Lemma after_then k w1 w2 w3 : 0 <= k -> after 0 w1 w2 -> after k w2 w3 -> after k w1 w3.
Proof.
  intros Hk (Hsig & He) (Hsig' & He'). split; [lia|].
  pose proof (elapsed_range w2). pose proof (elapsed_range w3). lia.
Qed.

Lemma after_weaken j k w1 w2 : j <= k -> after k w1 w2 -> after j w1 w2.
Proof. intros Hk (? & ?). split; [done|]. lia. Qed.

Lemma after_elapsed w w' : after 0 w w' -> elapsed w <= elapsed w'.
Proof. intros (_ & He). pose proof (elapsed_range w). lia. Qed.

Lemma ms_mono w w' : after 0 w w' -> ms w <= ms w'.
Proof. intros Hl%after_elapsed. by apply Z.div_le_mono. Qed.

(** [s'] is [s], at least [k] nanoseconds later. *)
Definition later (k : Z) s s' : Prop := s' = set_world (world s') s /\ after k (world s) (world s').

Lemma later_refl s : later 0 s s.
Proof. split; [by destruct s|]. apply after_refl. Qed.

Lemma later_then k s1 s2 s3 : 0 <= k -> later 0 s1 s2 -> later k s2 s3 -> later k s1 s3.
Proof.
  intros Hk (Hs & H1) (Hs' & H2). split; [etrans; [exact Hs'|]; by rewrite Hs at 1|].
  by eapply after_then.
Qed.

Lemma later_weaken j k s1 s2 : j <= k -> later k s1 s2 -> later j s1 s2.
Proof. intros Hk (? & ?). split; [done|]. by eapply after_weaken. Qed.

Lemma ms_range w : 0 <= ms w <= 2 ^ 63.
Proof.
  pose proof (elapsed_range w). unfold ms. split; [apply Z.div_pos; [lia|done]|].
  replace (2 ^ 63) with (HORIZON / NS_PER_MS) by done. apply Z.div_le_mono; [done|lia].
Qed.

(** ** Single calls *)

Lemma now_ms_run s : exists s', now_ms s = Val (ms (world s)) s' /\ later 0 s s'.
Proof.
  destruct (clock_law (world s)) as ([sec ns] & w' & Hc & (Hsec & Hns) & Heq & He & Hsig).
  exists (set_world w' s). unfold now_ms. rewrite Hc. unfold nanoseconds in Heq. cbn in *.
  split; [|split; [by destruct s|split; [done|pose proof (elapsed_range (world s)); cbn; lia]]].
  f_equal. unfold ms. pose proof (elapsed_range (world s)) as Hr. rewrite <- Heq in *.
  unfold HORIZON, NS_PER_MS in *.
  assert (Hms : 0 <= ns / 1000000 < 1000) by (Z.to_euclidean_division_equations; lia).
  unfold u64. rewrite (Z.mod_small sec), (Z.mod_small ns), Z.mod_small by lia.
  Z.to_euclidean_division_equations; lia.
Qed.

Lemma ioctl_run cmd u s :
  ioctl cmd u s = Val (sys_ioctl cmd u (world s)).1 (set_world (sys_ioctl cmd u (world s)).2 s) /\
  later 0 s (set_world (sys_ioctl cmd u (world s)).2 s).
Proof.
  pose proof (ioctl_law cmd u (world s)) as Hl. unfold ioctl.
  destruct (sys_ioctl cmd u (world s)) as [[r u'] w'] eqn:Hi. cbn. split; [done|].
  split; [by destruct s|]. cbn. pose proof (elapsed_range w'). split; [apply Hl|lia].
Qed.

(** A sleep, however often it is interrupted. *)
Lemma sleep_run fuel ts s :
  valid_timespec ts -> (signals (world s) < fuel)%nat ->
  wp (loop fuel sleep_body ts) (fun rc s' => rc = 0 /\ later (nanoseconds ts) s s') no_exit s.
Proof.
  intros Hts Hfuel.
  apply (wp_loop (fun rem s' => valid_timespec rem /\ (signals (world s') <= signals (world s))%nat /\
      s' = set_world (world s') s /\
      Z.min HORIZON (elapsed (world s) + nanoseconds ts) <= elapsed (world s') + nanoseconds rem)
    (fun _ s' => signals (world s'))); [|done|].
  - intros rem s1 (Hrem & Hsig & Hs1 & He). unfold sleep_body. apply wp_bind.
    pose proof (sleep_law rem (world s1) Hrem) as Hl. unfold nanosleep, wp.
    destruct (sys_nanosleep rem (world s1)) as [[err rem'] w'].
    assert (Hs' : forall w', set_world w' s1 = set_world w' s) by (intros; by rewrite Hs1).
    destruct Hl as [(-> & He' & Hsig')|(-> & Hrem' & Hsig' & He')]; cbn.
    + split; [done|]. rewrite Hs'. split; [by destruct s|]. cbn. split; [lia|].
      pose proof (elapsed_range w'). lia.
    + rewrite Hs'. split; [|lia]. split; [done|]. split; [lia|]. split; [done|]. lia.
  - split; [done|]. split; [done|]. split; [by destruct s|]. lia.
Qed.

Lemma sleep_ms_run fuel t s :
  0 <= t < 2 ^ 32 -> (signals (world s) < fuel)%nat ->
  wp (sleep_ms fuel t) (fun rc s' => rc = 0 /\ later (t * 1000000) s s') no_exit s.
Proof.
  intros Ht Hfuel. unfold sleep_ms. rewrite u32_small by done.
  pose proof (Z.mod_pos_bound t 1000). pose proof (Z.div_mod t 1000).
  pose proof (Z.div_pos t 1000).
  replace (t * 1000000) with (nanoseconds (t / 1000, t mod 1000 * 1000000)) by (unfold nanoseconds; cbn; lia).
  apply sleep_run; [unfold valid_timespec; cbn; lia|done].
Qed.

Lemma sleep_us_run fuel t s :
  0 <= t < 2 ^ 32 -> (signals (world s) < fuel)%nat ->
  wp (sleep_us fuel t) (fun rc s' => rc = 0 /\ later (t * 1000) s s') no_exit s.
Proof.
  intros Ht Hfuel. unfold sleep_us. rewrite u32_small by done.
  pose proof (Z.mod_pos_bound t 1000000). pose proof (Z.div_mod t 1000000).
  pose proof (Z.div_pos t 1000000).
  replace (t * 1000) with (nanoseconds (t / 1000000, t mod 1000000 * 1000)) by (unfold nanoseconds; cbn; lia).
  apply sleep_run; [unfold valid_timespec; cbn; lia|done].
Qed.

(** ** Polling under a deadline *)

Definition timeout_ok (timeout_ms : Z) (w : W) : Prop := 0 <= timeout_ms < 2 ^ 31 /\ ms w < 2 ^ 62.

Lemma deadline_run timeout_ms s :
  timeout_ok timeout_ms (world s) ->
  exists s', deadline_of timeout_ms s = Val (ms (world s) + timeout_ms) s' /\ later 0 s s'.
Proof.
  intros [Ht Hms]. unfold deadline_of. replace (timeout_ms <? 0) with false by lia.
  destruct (now_ms_run s) as (s' & Hrun & Hl). exists s'. rewrite (bind_val _ _ _ _ _ Hrun).
  split; [|done]. pose proof (ms_range (world s)). unfold ret, u64. rewrite Z.mod_small; [done|lia].
Qed.

Lemma past_run timeout_ms d s :
  0 <= timeout_ms -> exists s', past timeout_ms d s = Val (ms (world s) >=? d) s' /\ later 0 s s'.
Proof.
  intros Ht. unfold past. replace (timeout_ms >=? 0) with true by lia.
  destruct (now_ms_run s) as (s' & Hrun & Hl). exists s'. by rewrite (bind_val _ _ _ _ _ Hrun).
Qed.

(** From [w] to [w'] a clock reading was before the deadline [d], and a sleep of
[g] nanoseconds followed. *)
Definition polled (d g : Z) (w w' : W) : Prop :=
  exists w1, after 0 w w1 /\ ms w1 < d /\ after g w1 w'.

Lemma polled_after d g w w1 w2 : after 0 w w1 -> polled d g w1 w2 -> polled d g w w2.
Proof. intros Hl (w' & Hl' & Hp). exists w'. split; [|done]. by eapply after_then. Qed.

(** How often a loop that sleeps [g] nanoseconds can still go round. *)
Definition polls (g d : Z) (w : W) : nat := Z.to_nat ((d * NS_PER_MS - elapsed w + g - 1) / g).

Lemma polls_step g d w w' :
  0 < g -> d <= 2 ^ 63 -> polled d g w w' -> (polls g d w' < polls g d w)%nat.
Proof.
  intros Hg Hd (w1 & Hl%after_elapsed & Hms & (_ & He)).
  assert (Hlt : elapsed w1 < d * NS_PER_MS).
  { destruct (Z.lt_ge_cases (elapsed w1) (d * NS_PER_MS)) as [|Hge]; [done|].
    apply (Z.div_le_mono _ _ NS_PER_MS) in Hge; [|done]. rewrite Z.div_mul in Hge by done.
    unfold ms in Hms. lia. }
  set (x := d * NS_PER_MS - elapsed w). set (y := d * NS_PER_MS - elapsed w').
  assert (Hxy : 0 < x /\ (y <= 0 \/ y <= x - g)).
  { split; [lia|]. assert (d * NS_PER_MS <= HORIZON) by (unfold HORIZON, NS_PER_MS; lia). lia. }
  unfold polls. fold x y. clearbody x y. clear - Hg Hxy. destruct Hxy as [Hx Hy].
  assert (1 <= (x + g - 1) / g) by (apply Z.div_le_lower_bound; lia).
  assert ((y + g - 1) / g < (x + g - 1) / g); [|lia].
  destruct Hy as [Hy|Hy]; [assert ((y + g - 1) / g < 1) by (apply Z.div_lt_upper_bound; lia); lia|].
  apply (Z.lt_le_trans _ ((y + g - 1) / g + 1)); [lia|].
  rewrite <- (Z.div_add (y + g - 1) 1 g) by lia. apply Z.div_le_mono; lia.
Qed.

Lemma polls_bound g q t w w' :
  0 < g -> NS_PER_MS = q * g -> 0 <= t -> after 0 w w' ->
  (polls g (ms w + t) w' <= Z.to_nat (t * q))%nat.
Proof.
  intros Hg Hq Ht Hl%after_elapsed. unfold polls. set (e := elapsed w') in *.
  assert (Hms : ms w * NS_PER_MS <= elapsed w).
  { unfold ms. pose proof (Z.mul_div_le (elapsed w) NS_PER_MS ltac:(done)). lia. }
  set (y := (_ + g - 1) / g). enough (y < t * q + 1) by lia. subst y.
  apply Z.div_lt_upper_bound; [done|]. rewrite Hq in *. nia.
Qed.

(** A polling loop: every round that goes on has polled before the deadline. *)
Lemma poll_loop {L R} (I : L -> Proc W -> Prop) g d (body : L -> M (Proc W) (L + R)) Q X fuel l s :
  0 < g -> d <= 2 ^ 63 ->
  (forall l s, I l s ->
     wp (body l) (fun r s' => match r with
                             | inl l' => I l' s' /\ polled d g (world s) (world s')
                             | inr v => Q v s'
                             end) X s) ->
  (polls g d (world s) < fuel)%nat -> I l s -> wp (loop fuel body l) Q X s.
Proof.
  intros Hg Hd Hbody Hfuel HI. apply (wp_loop I (fun _ s => polls g d (world s))); [|done..].
  intros l1 s1 HI1. eapply wp_mono; [by apply Hbody| |done].
  intros [l2|v] s2; [|done]. intros [HI2 Hp]. split; [done|]. by apply polls_step.
Qed.

(** The end of a round: test the deadline, sleep, go round. *)
Lemma retry_ok {L R} timeout_ms d g (sleep : M (Proc W) Z) (x : L) (late : R) s :
  0 <= timeout_ms -> 0 < g ->
  (forall s', later 0 s s' -> wp sleep (fun rc s'' => rc = 0 /\ later g s' s'') no_exit s') ->
  wp (let! b := past timeout_ms d in
      if (b : bool) then ret (inr late) else let! _ := sleep in ret (inl x))
    (fun r s' => match r with
                 | inl l => l = x /\ polled d g (world s) (world s') /\ later 0 s s'
                 | inr v => v = late /\ d <= ms (world s') /\ later 0 s s'
                 end) no_exit s.
Proof.
  intros Ht Hg Hsleep. destruct (past_run timeout_ms d s Ht) as (s1 & Hrun & Hl).
  apply wp_bind. eapply wp_val; [exact Hrun|]. destruct (Z.geb_spec (ms (world s)) d) as [Hge|Hlt].
  - apply wp_ret. split; [done|]. split; [|done]. destruct Hl as [_ Hl%ms_mono]. lia.
  - apply wp_bind. eapply wp_mono; [by apply Hsleep| |done]. intros rc s2 [_ Hl2].
    apply wp_ret. split; [done|]. split.
    + exists (world s). split; [apply after_refl|]. split; [done|].
      destruct Hl, Hl2. eapply after_then; [lia|done..].
    + eapply later_then; [lia|done|]. eapply later_weaken; [|done]. lia.
Qed.

(** ** Status queries *)

(** What a status query in the world [w] is answered. *)
Definition status_answer (w : W) : Z * hft_disp_status * W :=
  let '(r, u, w') := sys_ioctl HFT_IOC_DISP_GET_STATUS (user_of no_req no_status no_info no_entry) w in
  (if r <? 0 then r else 0, u_st u, w').

Lemma get_status_run s :
  let '(rc, st, w') := status_answer (world s) in
  hft_disp_get_status no_status s = Val (rc, st) (set_world w' s) /\ rc <= 0 /\ later 0 s (set_world w' s).
Proof.
  unfold status_answer, hft_disp_get_status.
  destruct (ioctl_run HFT_IOC_DISP_GET_STATUS (user_of no_req no_status no_info no_entry) s) as [Hrun Hl].
  rewrite (bind_val _ _ _ _ _ Hrun).
  destruct (sys_ioctl _ _ (world s)) as [[r u] w']. cbn in *. split; [done|]. split; [|done].
  destruct (Z.ltb_spec r 0); lia.
Qed.

(** The world after [s] was left by a status query that answered [rc] and [st]. *)
Definition last_status s (rc : Z) (st : hft_disp_status) : Prop :=
  exists w, status_answer w = (rc, st, world s).

(** Runs a status query, leaving the cases of its result to be looked at. *)
Ltac status_step s1 rc st Hl :=
  apply wp_bind;
  let Hrun := fresh "Hrun" in let w := fresh "w" in let Hans := fresh "Hans" in
  match goal with |- wp _ _ _ ?s =>
    pose proof (get_status_run s) as Hrun; destruct (status_answer (world s)) as [[rc st] w] eqn:Hans;
    destruct Hrun as (Hrun & Hneg & Hl); eapply wp_val; [exact Hrun|]; clear Hrun;
    assert (Hlast : last_status (set_world w s) rc st) by (by exists (world s));
    set (s1 := set_world w s) in *; clearbody s1; clear Hans; cbv beta iota
  end.

(** ** Waiting for a state *)

Definition wait_outcome (want_state timeout_ms : Z) (abort_on_idle : bool) s (rc : Z) s' : Prop :=
  (rc = 0 /\ exists st, last_status s' 0 st /\ state st = want_state) \/
  (rc = HFT_ERR_RESET /\ abort_on_idle = true /\ want_state <> HFT_STATE_IDLE /\
   exists st, last_status s' 0 st /\ state st = HFT_STATE_IDLE) \/
  (rc < 0 /\ exists st, last_status s' rc st) \/
  (rc = - ETIMEDOUT /\ ms (world s) + timeout_ms <= ms (world s')).

Lemma sleep_poll_ms fuel p s :
  1 <= p < 2 ^ 31 -> (signals (world s) < fuel)%nat ->
  wp (sleep_ms fuel p) (fun rc s' => rc = 0 /\ later NS_PER_MS s s') no_exit s.
Proof.
  intros Hp Hf. eapply wp_mono; [apply sleep_ms_run; [lia|done]| |done].
  intros rc s' [Hrc Hl]. split; [done|]. eapply later_weaken; [|exact Hl]. unfold NS_PER_MS. lia.
Qed.

Lemma wait_state_body_ok fuel want timeout_ms p d abort s0 s :
  0 <= timeout_ms -> 1 <= p < 2 ^ 31 -> d = ms (world s0) + timeout_ms ->
  (signals (world s0) < fuel)%nat -> later 0 s0 s ->
  wp (wait_state_body fuel want timeout_ms p d abort tt)
    (fun r s' => match r with
                 | inl _ => later 0 s0 s' /\ polled d NS_PER_MS (world s) (world s')
                 | inr rc => later 0 s0 s' /\ wait_outcome want timeout_ms abort s0 rc s'
                 end) no_exit s.
Proof.
  intros Ht Hp -> Hf Hl0. unfold wait_state_body. status_step s1 rc st Hl1.
  assert (Hl : later 0 s0 s1) by (by eapply later_then).
  destruct (Z.eqb_spec rc 0) as [->|Hrc]; cbn [negb].
  2: { apply wp_ret. split; [done|]. right. right. left. split; [lia|]. by exists st. }
  destruct (Z.eqb_spec (state st) want) as [Hst|Hst].
  { apply wp_ret. split; [done|]. left. split; [done|]. by exists st. }
  destruct (abort && (state st =? HFT_STATE_IDLE) && negb (want =? HFT_STATE_IDLE)) eqn:Hidle.
  { apply andb_prop in Hidle as [[Ha Hi]%andb_prop Hw]. apply wp_ret. split; [done|].
    right. left. split; [done|]. split; [done|]. split; [by destruct (Z.eqb_spec want HFT_STATE_IDLE)|].
    exists st. split; [done|]. lia. }
  eapply wp_mono; [apply (retry_ok timeout_ms _ NS_PER_MS); [done..|]| |done].
  - intros s2 (_ & Hsig & _). apply sleep_poll_ms; [done|]. destruct Hl as (_ & Hsig1 & _). lia.
  - intros [[]|rc'] s2.
    + intros (_ & Hpolled & Hl2). split; [by eapply later_then|]. destruct Hl1. by eapply polled_after.
    + intros (-> & Hms & Hl2). split; [by eapply later_then|]. right. right. right. done.
Qed.

Lemma wait_state_run fuel want timeout_ms poll_ms abort s :
  timeout_ok timeout_ms (world s) -> poll_ms < 2 ^ 31 ->
  (signals (world s) < fuel)%nat -> (Z.to_nat timeout_ms < fuel)%nat ->
  wp (hft_disp_wait_state fuel want timeout_ms poll_ms abort)
    (fun rc s' => later 0 s s' /\ wait_outcome want timeout_ms abort s rc s') no_exit s.
Proof.
  intros Hok Hpoll Hf Hft. unfold hft_disp_wait_state. cbv zeta.
  set (p := if poll_ms <=? 0 then 1 else poll_ms). assert (Hp : 1 <= p < 2 ^ 31) by (subst p; destruct (Z.leb_spec poll_ms 0); lia).
  destruct (deadline_run timeout_ms s Hok) as (s1 & Hrun & Hl). destruct Hok as [Ht Hms].
  apply wp_bind. eapply wp_val; [exact Hrun|].
  pose proof (polls_bound NS_PER_MS 1 timeout_ms (world s) (world s1) eq_refl eq_refl ltac:(lia) (proj2 Hl)) as Hpolls.
  apply (poll_loop (fun _ s' => later 0 s s') NS_PER_MS (ms (world s) + timeout_ms));
    [done|pose proof (ms_range (world s)); lia| |rewrite Z.mul_1_r in Hpolls; lia|done].
  intros [] s2 Hl2. by apply wait_state_body_ok; [lia|..].
Qed.

(** ** Waiting for the dispatch *)

Definition dispatch_outcome (timeout_ms : Z) s (rc : Z) s' : Prop :=
  (rc = 0 /\ exists st, last_status s' 0 st /\ (state st = HFT_STATE_DISPATCH \/ state st = HFT_STATE_DONE)) \/
  (rc = HFT_ERR_RESET /\ exists st, last_status s' 0 st /\ state st = HFT_STATE_IDLE) \/
  (rc < 0 /\ exists st, last_status s' rc st) \/
  (rc = - ETIMEDOUT /\ ms (world s) + timeout_ms <= ms (world s')).

Lemma wait_dispatch_body_ok fuel timeout_ms p d s0 s :
  0 <= timeout_ms -> 1 <= p < 2 ^ 31 -> d = ms (world s0) + timeout_ms ->
  (signals (world s0) < fuel)%nat -> later 0 s0 s ->
  wp (wait_dispatch_or_done_body fuel timeout_ms p d tt)
    (fun r s' => match r with
                 | inl _ => later 0 s0 s' /\ polled d NS_PER_MS (world s) (world s')
                 | inr rc => later 0 s0 s' /\ dispatch_outcome timeout_ms s0 rc s'
                 end) no_exit s.
Proof.
  intros Ht Hp -> Hf Hl0. unfold wait_dispatch_or_done_body. status_step s1 rc st Hl1.
  assert (Hl : later 0 s0 s1) by (by eapply later_then).
  destruct (Z.eqb_spec rc 0) as [->|Hrc]; cbn [negb].
  2: { apply wp_ret. split; [done|]. right. right. left. split; [lia|]. by exists st. }
  destruct ((state st =? HFT_STATE_DISPATCH) || (state st =? HFT_STATE_DONE)) eqn:Hst.
  { apply wp_ret. split; [done|]. left. split; [done|]. exists st. split; [done|]. lia. }
  destruct (Z.eqb_spec (state st) HFT_STATE_IDLE) as [Hi|Hi].
  { apply wp_ret. split; [done|]. right. left. split; [done|]. by exists st. }
  eapply wp_mono; [apply (retry_ok timeout_ms _ NS_PER_MS); [done..|]| |done].
  - intros s2 (_ & Hsig & _). apply sleep_poll_ms; [done|]. destruct Hl as (_ & Hsig1 & _). lia.
  - intros [[]|rc'] s2.
    + intros (_ & Hpolled & Hl2). split; [by eapply later_then|]. destruct Hl1. by eapply polled_after.
    + intros (-> & Hms & Hl2). split; [by eapply later_then|]. right. right. right. done.
Qed.

Lemma wait_dispatch_run fuel timeout_ms poll_ms s :
  timeout_ok timeout_ms (world s) -> poll_ms < 2 ^ 31 ->
  (signals (world s) < fuel)%nat -> (Z.to_nat timeout_ms < fuel)%nat ->
  wp (hft_disp_wait_dispatch_or_done fuel timeout_ms poll_ms)
    (fun rc s' => later 0 s s' /\ dispatch_outcome timeout_ms s rc s') no_exit s.
Proof.
  intros Hok Hpoll Hf Hft. unfold hft_disp_wait_dispatch_or_done. cbv zeta.
  set (p := if poll_ms <=? 0 then 1 else poll_ms).
  assert (Hp : 1 <= p < 2 ^ 31) by (subst p; destruct (Z.leb_spec poll_ms 0); lia).
  destruct (deadline_run timeout_ms s Hok) as (s1 & Hrun & Hl). destruct Hok as [Ht Hms].
  apply wp_bind. eapply wp_val; [exact Hrun|].
  pose proof (polls_bound NS_PER_MS 1 timeout_ms (world s) (world s1) eq_refl eq_refl ltac:(lia) (proj2 Hl)) as Hpolls.
  apply (poll_loop (fun _ s' => later 0 s s') NS_PER_MS (ms (world s) + timeout_ms));
    [done|pose proof (ms_range (world s)); lia| |rewrite Z.mul_1_r in Hpolls; lia|done].
  intros [] s2 Hl2. by apply wait_dispatch_body_ok; [lia|..].
Qed.

(** ** Pushing an order *)

(** What a push in the world [w] is answered. *)
Definition push_answer (lane : Z) (o : hft_disp_order) (w : W) : Z * W :=
  let '(r, _, w') := sys_ioctl HFT_IOC_DISP_PUSH_ORDER (user_of (mkPushReq lane o) no_status no_info no_entry) w in
  (if r <? 0 then r else 0, w').

(** The orders refused for now, and the time passed between the attempts. *)
Inductive refused (lane : Z) (o : hft_disp_order) : W -> W -> Prop :=
| refused_time w w' : after 0 w w' -> refused lane o w w'
| refused_push w w1 rc w2 w' :
    refused lane o w w1 -> push_answer lane o w1 = (rc, w2) -> rc = - EAGAIN \/ rc = - EBUSY ->
    after 0 w2 w' -> refused lane o w w'.

Lemma push_run lane o s :
  let '(rc, w') := push_answer lane o (world s) in
  hft_disp_push_order lane o s = Val rc (set_world w' s) /\ rc <= 0 /\ later 0 s (set_world w' s).
Proof.
  unfold push_answer, hft_disp_push_order.
  destruct (ioctl_run HFT_IOC_DISP_PUSH_ORDER (user_of (mkPushReq lane o) no_status no_info no_entry) s) as [Hrun Hl].
  rewrite (bind_val _ _ _ _ _ Hrun).
  destruct (sys_ioctl _ _ (world s)) as [[r u] w']. cbn in *. split; [done|]. split; [|done].
  destruct (Z.ltb_spec r 0); lia.
Qed.

(** After refusals only, the order is taken, refused for good, or the time is
over. *)
Definition push_outcome (lane : Z) (o : hft_disp_order) (timeout_ms : Z) s (rc : Z) s' : Prop :=
  (exists w, refused lane o (world s) w /\ push_answer lane o w = (rc, world s') /\
     rc <> - EAGAIN /\ rc <> - EBUSY) \/
  (rc = - ETIMEDOUT /\ refused lane o (world s) (world s') /\ ms (world s) + timeout_ms <= ms (world s')).

Lemma push_body_ok fuel lane o timeout_ms p d s0 s :
  0 <= timeout_ms -> 1 <= p < 2 ^ 31 -> d = ms (world s0) + timeout_ms ->
  (signals (world s0) < fuel)%nat -> later 0 s0 s -> refused lane o (world s0) (world s) ->
  wp (push_blocking_body fuel lane o timeout_ms p d tt)
    (fun r s' => match r with
                 | inl _ => (later 0 s0 s' /\ refused lane o (world s0) (world s')) /\
                            polled d 1000 (world s) (world s')
                 | inr rc => later 0 s0 s' /\ push_outcome lane o timeout_ms s0 rc s'
                 end) no_exit s.
Proof.
  intros Ht Hp -> Hf Hl0 Href. unfold push_blocking_body. apply wp_bind.
  pose proof (push_run lane o s) as Hpush.
  destruct (push_answer lane o (world s)) as [rc w] eqn:Hans. destruct Hpush as (Hrun & Hneg & Hl1).
  eapply wp_val; [exact Hrun|]. clear Hrun.
  assert (Hl : later 0 s0 (set_world w s)) by (by eapply later_then).
  destruct (Z.eqb_spec rc 0) as [->|Hrc].
  { apply wp_ret. split; [done|]. left. exists (world s). done. }
  destruct (negb (rc =? - EAGAIN) && negb (rc =? - EBUSY)) eqn:Hhard.
  { apply wp_ret. split; [done|]. left. exists (world s). split; [done|]. split; [done|]. lia. }
  assert (Hagain : rc = - EAGAIN \/ rc = - EBUSY) by lia.
  eapply wp_mono; [apply (retry_ok timeout_ms _ 1000); [done..|]| |done].
  - intros s2 (_ & Hsig & _). eapply wp_mono; [apply sleep_us_run; [lia|]| |done].
    + destruct Hl as (_ & Hsig1 & _). lia.
    + intros rc' s3 [? Hl3]. split; [done|]. eapply later_weaken; [|exact Hl3]. lia.
  - intros [[]|rc'] s2.
    + intros (_ & Hpolled & Hl2). split; [|destruct Hl1; by eapply polled_after].
      split; [by eapply later_then|]. by eapply refused_push; [| | |apply Hl2].
    + intros (-> & Hms & Hl2). split; [by eapply later_then|]. right. split; [done|].
      split; [|done]. by eapply refused_push; [| | |apply Hl2].
Qed.

Lemma push_blocking_run fuel lane o timeout_ms poll_us s :
  timeout_ok timeout_ms (world s) -> poll_us < 2 ^ 31 ->
  (signals (world s) < fuel)%nat -> (Z.to_nat (timeout_ms * 1000) < fuel)%nat ->
  wp (hft_disp_push_order_blocking fuel lane o timeout_ms poll_us)
    (fun rc s' => later 0 s s' /\ push_outcome lane o timeout_ms s rc s') no_exit s.
Proof.
  intros Hok Hpoll Hf Hft. unfold hft_disp_push_order_blocking. cbv zeta.
  set (p := if poll_us <=? 0 then 200 else poll_us).
  assert (Hp : 1 <= p < 2 ^ 31) by (subst p; destruct (Z.leb_spec poll_us 0); lia).
  destruct (deadline_run timeout_ms s Hok) as (s1 & Hrun & Hl). destruct Hok as [Ht Hms].
  apply wp_bind. eapply wp_val; [exact Hrun|].
  pose proof (polls_bound 1000 1000 timeout_ms (world s) (world s1) eq_refl eq_refl ltac:(lia) (proj2 Hl)) as Hpolls.
  apply (poll_loop (fun _ s' => later 0 s s' /\ refused lane o (world s) (world s')) 1000 (ms (world s) + timeout_ms));
    [done|pose proof (ms_range (world s)); lia| |lia|split; [done|]; apply refused_time, Hl].
  intros [] s2 [Hl2 Href]. by apply push_body_ok; [lia|..].
Qed.

(** ** Waiting for the trades *)

(** [s'] is [s] later, with more printed. *)
Definition went_on s s' : Prop :=
  csv s' = csv s /\ fd_open s' = fd_open s /\ progress_fp s' = progress_fp s /\
  trades_fp s' = trades_fp s /\ logbuf s' = logbuf s /\ after 0 (world s) (world s').

#[local] Instance went_on_preorder : PreOrder went_on.
Proof.
  split; [intros s; unfold went_on; auto 10 using after_refl|].
  unfold went_on. intros s1 s2 s3 (? & ? & ? & ? & ? & Ha) (? & ? & ? & ? & ? & Hb).
  split_and!; [congruence..|]. by eapply after_then.
Qed.

Lemma later_went_on s s' : later 0 s s' -> went_on s s'.
Proof. intros [Hs Ha]. rewrite Hs. unfold went_on. cbn. by split_and!. Qed.

(** A computation that always returns and only lets time pass and prints. *)
Definition goes {A} (c : M (Proc W) A) : Prop := forall s, wp c (fun _ s' => went_on s s') no_exit s.

Lemma goes_ret {A} (a : A) : goes (ret a).
Proof. intros s. apply wp_ret. reflexivity. Qed.

Lemma goes_bind {A B} (c : M (Proc W) A) (k : A -> M (Proc W) B) : goes c -> (forall a, goes (k a)) -> goes (bind c k).
Proof.
  intros Hc Hk s. apply wp_bind. eapply wp_mono; [apply Hc| |done]. intros a s1 H1.
  eapply wp_mono; [apply Hk| |done]. intros b s2 H2. by transitivity s1.
Qed.

Lemma goes_if {A} (b : bool) (c1 c2 : M (Proc W) A) : goes c1 -> goes c2 -> goes (if b then c1 else c2).
Proof. by destruct b. Qed.

Lemma goes_print f fmt args : goes (print f fmt args).
Proof. intros s. red. unfold went_on. cbn. auto 10 using after_refl. Qed.

Lemma goes_ioctl cmd u : goes (ioctl cmd u).
Proof.
  intros s. destruct (ioctl_run cmd u s) as [Hrun Hl]. eapply wp_val; [exact Hrun|].
  by apply later_went_on.
Qed.

Lemma goes_now : goes now_ms.
Proof.
  intros s. destruct (now_ms_run s) as (s' & Hrun & Hl). eapply wp_val; [exact Hrun|].
  by apply later_went_on.
Qed.

Lemma goes_for_each {A} (xs : list A) (body : A -> M (Proc W) unit) :
  (forall x, goes (body x)) -> goes (for_each xs body).
Proof. intros Hb. induction xs as [|x xs IH]; [apply goes_ret|]. by apply goes_bind. Qed.

Create HintDb goes discriminated.
#[local] Hint Resolve goes_ret goes_bind goes_if goes_print goes_ioctl goes_now goes_for_each : goes.

Ltac go := repeat first
  [ progress cbv zeta | solve [auto with goes] | apply goes_if | apply goes_bind; [|intros ?]
  | apply goes_for_each; intros ? | case_match ].

Lemma goes_snapshot fp : goes (hft_print_progress_snapshot fp).
Proof.
  unfold hft_print_progress_snapshot, print_lane_mask, tee_printf, hft_disp_get_status, hft_log_get_info. go.
Qed.

Lemma goes_throttled fp t next_print_ms : goes (throttled_snapshot fp t next_print_ms).
Proof. unfold throttled_snapshot. pose proof goes_snapshot. go. Qed.

(** What a query of the log's state is answered. *)
Definition info_answer (w : W) : Z * hft_log_info * W :=
  let '(r, u, w') := sys_ioctl HFT_IOC_LOG_GET_INFO (user_of no_req no_status no_info no_entry) w in
  (if r <? 0 then r else 0, u_li u, w').

Lemma get_info_run s :
  let '(rc, li, w') := info_answer (world s) in
  hft_log_get_info no_info s = Val (rc, li) (set_world w' s) /\ rc <= 0 /\ later 0 s (set_world w' s).
Proof.
  unfold info_answer, hft_log_get_info.
  destruct (ioctl_run HFT_IOC_LOG_GET_INFO (user_of no_req no_status no_info no_entry) s) as [Hrun Hl].
  rewrite (bind_val _ _ _ _ _ Hrun).
  destruct (sys_ioctl _ _ (world s)) as [[r u] w']. cbn in *. split; [done|]. split; [|done].
  destruct (Z.ltb_spec r 0); lia.
Qed.

(** The result 0 comes with the log's state of an answer in which the trades are
done; any other leaves [out_final]. *)
Definition trade_outcome (timeout_ms : Z) (out_final : hft_log_info) s (r : Z * hft_log_info) s' : Prop :=
  let '(rc, li) := r in
  (rc = 0 /\ trade_done li <> 0 /\ exists w w', info_answer w = (0, li, w') /\
     after 0 (world s) w /\ after 0 w' (world s')) \/
  (rc <> 0 /\ li = out_final /\
    ((rc = - EINTR /\ sys_stop (world s') = true) \/
     (rc = HFT_ERR_RESET /\ exists st, last_status s' 0 st /\ state st = HFT_STATE_IDLE) \/
     (rc < 0 /\ exists st, last_status s' rc st) \/
     (rc <> - EAGAIN /\ exists w li w', info_answer w = (rc, li, w') /\ after 0 w' (world s')) \/
     (rc = - ETIMEDOUT /\ ms (world s) + timeout_ms <= ms (world s')))).

Lemma tee_run fp fmt args s :
  exists s', tee_printf fp fmt args s = Val tt s' /\ went_on s s' /\ world s' = world s.
Proof.
  unfold tee_printf. destruct fp; (eexists; split; [reflexivity|]; split; [|done]);
    unfold went_on; cbn; auto 10 using after_refl.
Qed.

Lemma trade_body_ok fuel fp timeout_ms p d out s0 next s :
  0 <= timeout_ms -> 1 <= p < 2 ^ 31 -> d = ms (world s0) + timeout_ms ->
  (signals (world s0) < fuel)%nat -> went_on s0 s ->
  wp (wait_trade_done_body fuel fp timeout_ms p d out next)
    (fun r s' => match r with
                 | inl _ => went_on s0 s' /\ polled d NS_PER_MS (world s) (world s')
                 | inr v => went_on s0 s' /\ trade_outcome timeout_ms out s0 v s'
                 end) no_exit s.
Proof.
  intros Ht Hp -> Hf Hg0. unfold wait_trade_done_body. apply wp_bind. eapply wp_val; [reflexivity|].
  destruct (sys_stop (world s)) eqn:Hstop.
  { destruct (tee_run fp "[progress] interrupted (SIGINT)\n" [] s) as (s1 & Hrun & Hg1 & Hw).
    apply wp_bind. eapply wp_val; [exact Hrun|]. apply wp_ret. split; [by etrans|].
    right. split; [done|]. split; [done|]. left. split; [done|]. by rewrite Hw. }
  status_step s1 rc st Hl1. assert (Hg1 : went_on s s1) by by apply later_went_on.
  destruct (Z.eqb_spec rc 0) as [->|Hrc]; cbn [negb].
  2: { apply wp_ret. split; [by etrans|]. right. split; [done|]. split; [done|].
       right. right. left. split; [lia|]. by exists st. }
  destruct (Z.eqb_spec (state st) HFT_STATE_IDLE) as [Hi|Hi].
  { apply wp_ret. split; [by etrans|]. right. split; [done|]. split; [done|].
    right. left. split; [done|]. by exists st. }
  clear Hlast w. apply wp_bind. pose proof (get_info_run s1) as Hinfo.
  destruct (info_answer (world s1)) as [[rc li] w] eqn:Hans. destruct Hinfo as (Hrun & Hneg' & Hl2).
  eapply wp_val; [exact Hrun|]. clear Hrun.
  assert (Hg2 : went_on s1 (set_world w s1)) by by apply later_went_on.
  set (s2 := set_world w s1) in *. assert (Hw2 : world s2 = w) by done. clearbody s2.
  apply wp_bind. eapply wp_mono; [apply goes_now| |done]. intros t s3 Hg3.
  apply wp_bind. eapply wp_mono; [apply goes_throttled| |done]. intros next' s4 Hg4.
  assert (Hafter : went_on s s4) by exact (transitivity Hg1 (transitivity Hg2 (transitivity Hg3 Hg4))).
  assert (Hans' : went_on s0 s4 /\ after 0 (world s0) (world s1) /\ after 0 w (world s4)).
  { split; [by etrans|]. split; [|rewrite <- Hw2; exact (proj2 (proj2 (proj2 (proj2 (proj2 (transitivity Hg3 Hg4))))))].
    exact (proj2 (proj2 (proj2 (proj2 (proj2 (transitivity Hg0 Hg1)))))). }
  clear Hg1 Hg2 Hg3 Hg4 Hw2 Hl1 Hl2. destruct Hans' as (Hg & Hbefore & Hlater).
  destruct ((rc =? 0) && negb (trade_done li =? 0)) eqn:Hdone.
  { apply wp_ret. split; [done|]. left. split; [done|]. split; [lia|].
    assert (rc = 0) as -> by lia. by exists (world s1), w. }
  destruct (negb (rc =? 0) && negb (rc =? - EAGAIN)) eqn:Hhard.
  { apply wp_ret. split; [done|]. right. split; [lia|]. split; [done|]. do 3 right. left.
    split; [lia|]. by exists (world s1), li, w. }
  eapply wp_mono; [apply (retry_ok timeout_ms _ NS_PER_MS); [done..|]| |done].
  - intros s5 (_ & Hsig & _). apply sleep_poll_ms; [done|].
    destruct Hg as (_ & _ & _ & _ & _ & Hsig1 & _). lia.
  - intros [next''|v] s5.
    + intros (_ & Hpolled & Hl5). apply later_went_on in Hl5. split; [by etrans|].
      eapply polled_after; [|done]. apply Hafter.
    + intros (-> & Hms & Hl5). apply later_went_on in Hl5. split; [by etrans|].
      right. split; [done|]. split; [done|]. by do 4 right.
Qed.

Lemma trade_done_run fuel fp timeout_ms poll_ms out s :
  timeout_ok timeout_ms (world s) -> poll_ms < 2 ^ 31 ->
  (signals (world s) < fuel)%nat -> (Z.to_nat timeout_ms < fuel)%nat ->
  wp (hft_log_wait_trade_done fuel fp timeout_ms poll_ms out)
    (fun r s' => went_on s s' /\ trade_outcome timeout_ms out s r s') no_exit s.
Proof.
  intros Hok Hpoll Hf Hft. unfold hft_log_wait_trade_done. cbv zeta.
  set (p := if poll_ms <=? 0 then 1 else poll_ms).
  assert (Hp : 1 <= p < 2 ^ 31) by (subst p; destruct (Z.leb_spec poll_ms 0); lia).
  destruct (deadline_run timeout_ms s Hok) as (s1 & Hrun & Hl). destruct Hok as [Ht Hms].
  apply wp_bind. eapply wp_val; [exact Hrun|].
  pose proof (polls_bound NS_PER_MS 1 timeout_ms (world s) (world s1) eq_refl eq_refl ltac:(lia) (proj2 Hl)) as Hpolls.
  apply (poll_loop (fun _ s' => went_on s s') NS_PER_MS (ms (world s) + timeout_ms));
    [done|pose proof (ms_range (world s)); lia| |rewrite Z.mul_1_r in Hpolls; lia|by apply later_went_on].
  intros next s2 Hl2. by apply trade_body_ok; [lia|..].
Qed.

(** ** Properties *)

(** Waiting for a state of the dispatcher under a timeout always ends,
however the device answers and however often signals interrupt its sleeps.  The
result 0 means that the last status was the wanted state; [HFT_ERR_RESET] that it
was IDLE when that was to be noticed; [-ETIMEDOUT] that the timeout is over; any
other is the error of the last query. *)
Theorem wait_state_correct fuel want timeout_ms poll_ms abort s :
  timeout_ok timeout_ms (world s) -> poll_ms < 2 ^ 31 ->
  (signals (world s) < fuel)%nat -> (Z.to_nat timeout_ms < fuel)%nat ->
  wp (hft_disp_wait_state fuel want timeout_ms poll_ms abort)
    (fun rc s' => later 0 s s' /\ wait_outcome want timeout_ms abort s rc s') no_exit s.
Proof. apply wait_state_run. Qed.

(** C37: a blocking push always ends.  It tries again only after [-EAGAIN] and
[-EBUSY], so an order is taken at most once, and it returns the first other
answer, or [-ETIMEDOUT] once the timeout is over. *)
Theorem push_blocking_correct fuel lane o timeout_ms poll_us s :
  timeout_ok timeout_ms (world s) -> poll_us < 2 ^ 31 ->
  (signals (world s) < fuel)%nat -> (Z.to_nat (timeout_ms * 1000) < fuel)%nat ->
  wp (hft_disp_push_order_blocking fuel lane o timeout_ms poll_us)
    (fun rc s' => later 0 s s' /\ push_outcome lane o timeout_ms s rc s') no_exit s.
Proof. apply push_blocking_run. Qed.

(** Waiting for the trades always ends, leaves the program's files alone and
fills [out_final] exactly when it returns 0, with an answer in which the trades
are done; otherwise the result says whether it was interrupted, reset, refused or
late. *)
Theorem trade_done_correct fuel fp timeout_ms poll_ms out s :
  timeout_ok timeout_ms (world s) -> poll_ms < 2 ^ 31 ->
  (signals (world s) < fuel)%nat -> (Z.to_nat timeout_ms < fuel)%nat ->
  wp (hft_log_wait_trade_done fuel fp timeout_ms poll_ms out)
    (fun r s' => went_on s s' /\ trade_outcome timeout_ms out s r s') no_exit s.
Proof. apply trade_done_run. Qed.

End Wait.
