(* ===== verification/HarnessWrite.v ===== *)
(** * HarnessWrite: filling the FIFOs from the CSV files

The rows of a lane's file as a source of orders, and the round-robin writer: in
any environment it never loses, repeats or reorders an order; while the
dispatcher stays in WRITE it ends with the files exhausted or the FIFOs full,
except that it spins when a file is exhausted before its FIFO is full and
another FIFO is full. *)
From S2P Require Import Prelude Scan Driver Harness HarnessWait.

(** ** A lane's file as a source *)

(** How a source ends: no more rows, a row that is refused, or one that cannot
be converted. *)
Inductive ending := Ended | Failed | Broken.

(** The orders of the lines up to the ending. *)
Fixpoint rows_of (lines : list string) : list hft_disp_order * ending :=
  match lines with
  | [] => ([], Ended)
  | line :: lines' =>
      match parse_row line with
      | Blank => rows_of lines'
      | Invalid => ([], Failed)
      | Unrepresentable => ([], Broken)
      | Row o => let '(os, e) := rows_of lines' in (o :: os, e)
      end
  end.

Lemma check_row_ok ty p q o : 0 <= p -> 0 <= q -> check_row ty p q = Row o -> order_ok o.
Proof.
  intros Hp Hq. unfold check_row.
  destruct (Z.gtb_spec p 0xFFFF); [by destruct (String.eqb ty "ASK"), (String.eqb ty "BID")|].
  destruct (Z.gtb_spec q 0x7FFF); [by destruct (String.eqb ty "ASK"), (String.eqb ty "BID")|].
  rewrite !u16_small by lia.
  destruct (String.eqb ty "ASK"), (String.eqb ty "BID"); intros [= <-]; unfold order_ok; cbn; lia.
Qed.

Lemma scan_unsigned_row s k o :
  scan_unsigned s k = Row o -> exists u r, 0 <= u /\ k u r = Row o.
Proof.
  unfold scan_unsigned, unsigned. destruct (scan_int s) as [[v r]|]; [|done].
  destruct (_ && _); [|done]. intros Hk. exists (u32 v), r. split; [|done]. apply u32_bound.
Qed.

Lemma expect_comma_row s k o : expect_comma s k = Row o -> exists r, k r = Row o.
Proof. destruct s as [|c r]; [done|]. cbn. destruct (Ascii.eqb c comma); [|done]. by exists r. Qed.

(** Every order that a row gives fits the driver's word. *)
Lemma parse_row_ok line o : parse_row line = Row o -> order_ok o.
Proof.
  unfold parse_row, scan_row. destruct (blank line); [done|].
  destruct (span_max 15 (skip_space line)) as [[|c ty] r]; [done|].
  intros (r1 & (p & r2 & Hp & (r3 & (q & r4 & Hq & Hrow)%scan_unsigned_row)%expect_comma_row)%scan_unsigned_row)%expect_comma_row.
  exact (check_row_ok _ _ _ _ Hp Hq Hrow).
Qed.

Lemma rows_ok lines : Forall order_ok (rows_of lines).1.
Proof.
  induction lines as [|line lines IH]; [constructor|]. cbn. destruct (parse_row line) eqn:Hrow; try done.
  destruct (rows_of lines). constructor; [by eapply parse_row_ok|done].
Qed.

Section Source.
Context {W : Type} `{System W}.
Implicit Type s : Proc W.

(** What [lane_csv_next_order] has still to give for a lane. *)
Definition csv_source s (lane : nat) : list hft_disp_order * ending :=
  if (lane_eof (csv s) !!! lane : bool) then ([], Ended) else
  match mjoin (lane_csv (csv s) !! lane) with
  | Some f => rows_of (file_lines 256 (f_rest f))
  | None => ([], Broken)
  end.

(** Nothing but the source of [lane] has changed. *)
Definition only_lane (lane : nat) s s' : Prop :=
  world s' = world s /\ forall j, j <> lane -> csv_source s' j = csv_source s j.

Definition reader_ok s : Prop := length (lane_csv (csv s)) = 8%nat /\ length (lane_eof (csv s)) = 8%nat.

Lemma reader_ok_lane s lane :
  reader_ok s -> (lane < 8)%nat -> exists x b, lane_csv (csv s) !! lane = Some x /\ lane_eof (csv s) !! lane = Some b.
Proof.
  intros [Hc He] Hl. destruct (lookup_lt_is_Some_2 (lane_csv (csv s)) lane) as [x Hx]; [lia|].
  destruct (lookup_lt_is_Some_2 (lane_eof (csv s)) lane) as [b Hb]; [lia|]. by exists x, b.
Qed.

(** A stream that is read on: only its own source can change. *)
Lemma set_lane_only lane f s : only_lane lane s (set_csv (mkReader (<[lane := Some f]> (lane_csv (csv s))) (lane_eof (csv s))) s).
Proof.
  split; [done|]. intros j Hj. unfold csv_source. cbn. by rewrite list_lookup_insert_ne.
Qed.

Lemma set_eof_only lane s : only_lane lane s (set_csv (mkReader (lane_csv (csv s)) (<[lane := true]> (lane_eof (csv s)))) s).
Proof.
  split; [done|]. intros j Hj. unfold csv_source. cbn. by rewrite list_lookup_total_insert_ne.
Qed.

#[local] Instance only_lane_preorder lane : PreOrder (only_lane lane).
Proof.
  split; [by intros s|]. unfold only_lane. intros s1 s2 s3 [Hw Hs] [Hw' Hs'].
  split; [congruence|]. intros j Hj. rewrite Hs', Hs; done.
Qed.

(** What a lane's source promises to its caller: in turn its orders, then 0, a
refusal, or undefined behaviour. *)
Definition gives (next_order : nat -> M (Proc W) (Z * option hft_disp_order))
    (source : Proc W -> nat -> list hft_disp_order * ending) (ok : Proc W -> Prop) (lane : nat) s : Prop :=
  match source s lane with
  | (o :: os, e) => exists s', next_order lane s = Val (1, Some o) s' /\ ok s' /\
      source s' lane = (os, e) /\ world s' = world s /\ forall j, j <> lane -> source s' j = source s j
  | ([], Ended) => exists s', next_order lane s = Val (0, None) s' /\ ok s' /\
      source s' lane = ([], Ended) /\ world s' = world s /\ forall j, j <> lane -> source s' j = source s j
  | ([], Failed) => exists rc s', rc < 0 /\ next_order lane s = Val (rc, None) s' /\ world s' = world s
  | ([], Broken) => next_order lane s = Undef
  end.

Lemma next_order_loop fuel lane f s :
  reader_ok s -> (lane < 8)%nat -> lane_csv (csv s) !! lane = Some (Some f) -> lane_eof (csv s) !! lane = Some false ->
  (String.length (f_rest f) < fuel)%nat ->
  gives (fun lane => loop fuel (next_order_body lane) tt) csv_source reader_ok lane s.
Proof.
  revert s f. induction fuel as [|fuel IH]; intros s f Hok Hlane Hf Heof Hfuel; [lia|].
  unfold gives. cbn [loop].
  assert (Hsrc : csv_source s lane = rows_of (file_lines 256 (f_rest f))).
  { unfold csv_source. rewrite (list_lookup_total_correct _ _ _ Heof), Hf. done. }
  assert (Hbody : next_order_body lane tt s =
    match fgets 256 (f_rest f) with
    | None => (set_eof lane ;;! ret (inr (0, None))) s
    | Some (line, rest) =>
        (set_lane lane (mkFile (f_content f) rest) ;;!
         match parse_row line with
         | Blank => ret (inl tt)
         | Invalid => ret (inr (- EINVAL, None))
         | Unrepresentable => undef
         | Row o => ret (inr (1, Some o))
         end) s
    end).
  { unfold next_order_body. rewrite (bind_val _ _ _ (csv s) s) by done.
    rewrite (bind_val _ _ _ f s) by (by rewrite Hf). by destruct (fgets 256 (f_rest f)) as [[]|]. }
  destruct (fgets 256 (f_rest f)) as [[line rest]|] eqn:Hget.
  - (* a line *)
    assert (Hlines := file_lines_step 256 _ _ _ ltac:(lia) Hget).
    apply fgets_shorter in Hget; [|lia]. rewrite Hsrc, Hlines. cbn [rows_of].
    set (s1 := set_csv (mkReader (<[lane := Some (mkFile (f_content f) rest)]> (lane_csv (csv s))) (lane_eof (csv s))) s).
    assert (Hlook : lane_csv (csv s1) !! lane = Some (Some (mkFile (f_content f) rest))).
    { cbn. apply list_lookup_insert_eq. destruct Hok. lia. }
    assert (Hok1 : reader_ok s1) by (destruct Hok; split; cbn; [by rewrite length_insert|done]).
    assert (Hsrc1 : csv_source s1 lane = rows_of (file_lines 256 rest)).
    { unfold csv_source. cbn. rewrite (list_lookup_total_correct _ _ _ Heof). cbn in Hlook. by rewrite Hlook. }
    destruct (set_lane_only lane (mkFile (f_content f) rest) s) as [Hw1 Hj1]. fold s1 in Hw1, Hj1.
    destruct (parse_row line) as [o| | |] eqn:Hrow.
    + destruct (rows_of (file_lines 256 rest)) as [os e] eqn:Hrest. exists s1.
      unfold bind at 1. rewrite Hbody. split; [done|]. done.
    + specialize (IH s1 _ Hok1 Hlane Hlook Heof ltac:(cbn; lia)). unfold gives in IH. rewrite Hsrc1 in IH.
      assert (Hstep : loop (S fuel) (next_order_body lane) tt s = loop fuel (next_order_body lane) tt s1).
      { cbn [loop]. unfold bind at 1. by rewrite Hbody. }
      cbn [loop] in Hstep. rewrite Hstep.
      destruct (rows_of (file_lines 256 rest)) as [[|o os] [| |]];
        [destruct IH as (s2 & ? & ? & ? & ? & Hj); exists s2; split_and!; [done..|congruence|intros; by rewrite Hj, Hj1]
        |destruct IH as (rc & s2 & ? & ? & ?); exists rc, s2; split_and!; [done..|congruence]
        |done
        |destruct IH as (s2 & ? & ? & ? & ? & Hj); exists s2; split_and!; [done..|congruence|intros; by rewrite Hj, Hj1]..].
    + exists (- EINVAL), s1. unfold bind at 1. rewrite Hbody. by split_and!.
    + unfold bind at 1. by rewrite Hbody.
  - rewrite Hsrc, (file_lines_end _ _ Hget). cbn [rows_of].
    set (s1 := set_csv (mkReader (lane_csv (csv s)) (<[lane := true]> (lane_eof (csv s)))) s).
    destruct (set_eof_only lane s) as [Hw1 Hj1]. exists s1. unfold bind at 1. rewrite Hbody.
    split; [done|]. split; [destruct Hok; split; cbn; [done|by rewrite length_insert]|]. split; [|done].
    unfold csv_source. cbn. rewrite list_lookup_total_insert_eq; [done|]. destruct Hok. lia.
Qed.

Lemma next_order_gives lane s :
  reader_ok s -> (lane < 8)%nat -> gives lane_csv_next_order csv_source reader_ok lane s.
Proof.
  intros Hok Hlane. destruct (reader_ok_lane s lane Hok Hlane) as (x & b & Hx & Hb).
  assert (Hrun : lane_csv_next_order lane s =
    if b then Val (0, None) s else
    match x with
    | Some f => loop (S (String.length (f_rest f))) (next_order_body lane) tt s
    | None => Undef
    end).
  { unfold lane_csv_next_order. destruct (Nat.leb_spec 8 lane); [lia|].
    rewrite (bind_val _ _ _ (csv s) s) by done. rewrite (list_lookup_total_correct _ _ _ Hb).
    destruct b; [done|]. unfold bind, lift. rewrite Hx. by destruct x. }
  destruct b; [|destruct x as [f|]].
  - unfold gives, csv_source. rewrite (list_lookup_total_correct _ _ _ Hb). exists s.
    split; [exact Hrun|]. split; [done|]. split; [|done]. by rewrite (list_lookup_total_correct _ _ _ Hb).
  - pose proof (next_order_loop (S (String.length (f_rest f))) lane f s Hok Hlane Hx Hb ltac:(lia)) as Hg.
    unfold gives in *. by rewrite Hrun.
  - unfold gives, csv_source. by rewrite (list_lookup_total_correct _ _ _ Hb), Hx, Hrun.
Qed.

Lemma source_frame w s lane : csv_source (set_world w s) lane = csv_source s lane.
Proof. done. Qed.

Lemma source_orders_ok s lane : Forall order_ok (csv_source s lane).1.
Proof.
  unfold csv_source. destruct (lane_eof (csv s) !!! lane); [constructor|].
  destruct (mjoin _); [apply rows_ok|constructor].
Qed.

End Source.

(** ** The writer in any environment *)

(** [history w lane] is the orders that the device has taken for a lane since the
start: a push that is answered 0 adds its order, and nothing else does. *)
Class HistoryLaws (W : Type) `{System W} := {
  history : W -> nat -> list hft_disp_order;
  history_ioctl : forall cmd u w, let '(r, _, w') := sys_ioctl cmd u w in
    forall j, history w' j = history w j ++
      (if (cmd =? HFT_IOC_DISP_PUSH_ORDER) && (0 <=? r) && (r_lane (u_req u) =? Z.of_nat j)
       then [r_order (u_req u)] else []);
  history_clock : forall w j, history (sys_clock w).2 j = history w j;
  history_sleep : forall ts w j, history (sys_nanosleep ts w).2 j = history w j
}.

Section Anywhere.
Context {W : Type} `{HistoryLaws W}.
Implicit Type s : Proc W.

Variable next_order : nat -> M (Proc W) (Z * option hft_disp_order).
Variable source : Proc W -> nat -> list hft_disp_order * ending.
Variable ok : Proc W -> Prop.
Hypothesis next_gives : forall lane s, ok s -> (lane < 8)%nat -> gives next_order source ok lane s.
Hypothesis source_world : forall w s lane, source (set_world w s) lane = source s lane.
Hypothesis ok_world : forall w s, ok s -> ok (set_world w s).
Variable fuel : nat.

(** [s'] is [s] in a world with the same history. *)
Definition idle s s' : Prop :=
  s' = set_world (world s') s /\ forall j, history (world s') j = history (world s) j.

#[local] Instance idle_preorder : PreOrder idle.
Proof.
  split; [intros s; split; [by destruct s|done]|].
  intros s1 s2 s3 [Hs Hh] [Hs' Hh']. split; [etrans; [exact Hs'|]; by rewrite Hs at 1|].
  intros j. by rewrite Hh', Hh.
Qed.

Definition idles {A} (c : M (Proc W) A) : Prop := forall s, always c (fun _ s' => idle s s') (idle s) False s.

Lemma idles_ret {A} (a : A) : idles (ret a).
Proof. intros s. apply always_ret. reflexivity. Qed.

Lemma idles_bind {A B} (c : M (Proc W) A) (k : A -> M (Proc W) B) : idles c -> (forall a, idles (k a)) -> idles (bind c k).
Proof.
  intros Hc Hk s. apply always_bind. eapply always_mono; [apply Hc| |done..]. intros a s1 H1.
  eapply always_mono; [apply Hk| | |done]; [intros b s2 H2|intros s2 H2]; by transitivity s1.
Qed.

Lemma idles_if {A} (b : bool) (c1 c2 : M (Proc W) A) : idles c1 -> idles c2 -> idles (if b then c1 else c2).
Proof. by destruct b. Qed.

Lemma idles_now : idles now_ms.
Proof.
  intros s. pose proof (history_clock (world s)) as Hh.
  destruct (sys_clock (world s)) as [ts w] eqn:Hc. eapply always_val; [unfold now_ms; rewrite Hc; reflexivity|]. by split; [by destruct s|].
Qed.

Lemma idles_nanosleep ts : idles (nanosleep ts).
Proof.
  intros s. pose proof (history_sleep ts (world s)) as Hh.
  destruct (sys_nanosleep ts (world s)) as [[err rem] w] eqn:Hc.
  eapply always_val; [unfold nanosleep; rewrite Hc; reflexivity|]. by split; [by destruct s|].
Qed.

Lemma idles_loop {L R} n (body : L -> M (Proc W) (L + R)) l : (forall l, idles (body l)) -> idles (loop n body l).
Proof.
  intros Hb s. apply (always_loop (fun _ s' => idle s s')); [done| |reflexivity].
  intros l' s1 Hs1. eapply always_mono; [apply Hb| | |done]; [intros [l''|v] s2 Hs2|intros s2 Hs2];
    by transitivity s1.
Qed.

Lemma idles_ioctl cmd u : (cmd =? HFT_IOC_DISP_PUSH_ORDER) = false -> idles (ioctl cmd u).
Proof.
  intros Hcmd s. pose proof (history_ioctl cmd u (world s)) as Hh.
  destruct (sys_ioctl cmd u (world s)) as [[r u'] w] eqn:Hc. eapply always_val; [unfold ioctl; rewrite Hc; reflexivity|].
  split; [by destruct s|]. intros j. cbn. rewrite Hh, Hcmd. cbn. by rewrite app_nil_r.
Qed.

Create HintDb idles discriminated.
#[local] Hint Resolve idles_ret idles_bind idles_if idles_now idles_nanosleep idles_loop idles_ioctl : idles.

Ltac idle_auto := repeat first
  [ progress cbv zeta | solve [auto with idles] | apply idles_if | apply idles_loop; intros ?
  | apply idles_bind; [|intros ?] | case_match ].

Lemma idles_status st : idles (hft_disp_get_status st).
Proof. unfold hft_disp_get_status. idle_auto. Qed.

Lemma idles_deadline t : idles (deadline_of t).
Proof. unfold deadline_of. idle_auto. Qed.

Lemma idles_past t d : idles (past t d).
Proof. unfold past. idle_auto. Qed.

Lemma idles_sleep_us t : idles (sleep_us fuel t).
Proof. unfold sleep_us, sleep_body. idle_auto. Qed.

(** [s'] is [s] after a push: the order is taken exactly if the result is 0. *)
Definition after_push (lane : nat) o s (rc : Z) s' : Prop :=
  s' = set_world (world s') s /\ forall j, history (world s') j =
    history (world s) j ++ (if (rc =? 0) && (j =? lane)%nat then [o] else []).

Lemma push_once lane o s :
  always (hft_disp_push_order (Z.of_nat lane) o) (after_push lane o s) (idle s) False s.
Proof.
  unfold hft_disp_push_order. set (u := user_of _ _ _ _).
  pose proof (history_ioctl HFT_IOC_DISP_PUSH_ORDER u (world s)) as Hh. apply always_bind.
  destruct (sys_ioctl _ u (world s)) as [[r u'] w] eqn:Hc. eapply always_val; [unfold ioctl; rewrite Hc; reflexivity|].
  apply always_ret. split; [by destruct s|]. intros j. cbn. rewrite Hh. cbn. f_equal.
  replace (Z.of_nat lane =? Z.of_nat j) with (j =? lane)%nat
    by (destruct (Nat.eqb_spec j lane), (Z.eqb_spec (Z.of_nat lane) (Z.of_nat j)); lia).
  rewrite Z.eqb_refl. cbn. destruct (Z.ltb_spec r 0), (Z.leb_spec 0 r); try lia; cbn.
  - by replace (r =? 0) with false by lia.
  - done.
Qed.

Lemma idle_push lane o s s1 rc s2 : idle s s1 -> after_push lane o s1 rc s2 -> after_push lane o s rc s2.
Proof.
  intros [Hs Hh] [Hs' Hh']. split; [etrans; [exact Hs'|]; by rewrite Hs at 1|].
  intros j. by rewrite Hh', Hh.
Qed.

Lemma push_blocking_once lane o t p s :
  always (hft_disp_push_order_blocking fuel (Z.of_nat lane) o t p) (after_push lane o s) (idle s) False s.
Proof.
  unfold hft_disp_push_order_blocking. cbv zeta. apply always_bind.
  eapply always_mono; [apply idles_deadline| |done..]. intros d s0 Hs0.
  apply (always_mono _ (after_push lane o s0) _ (idle s0) _ False);
    [|intros rc s' Hp; exact (idle_push _ _ _ _ _ _ Hs0 Hp)|intros s' Hs'; by transitivity s0|done].
  apply (always_loop (fun _ s' => idle s0 s')); [done| |reflexivity]. intros [] s1 Hs1.
  unfold push_blocking_body. apply always_bind.
  eapply always_mono; [apply push_once| |intros s' Hs'; by transitivity s1|done]. intros rc s2 Hp.
  apply (idle_push _ _ _ _ _ _ Hs1) in Hp. destruct (Z.eqb_spec rc 0) as [->|Hrc]; [by apply always_ret|].
  destruct (negb _ && negb _); [by apply always_ret|].
  assert (Hs2 : forall rc', rc' <> 0 -> after_push lane o s0 rc' s2).
  { intros rc' Hrc'. destruct Hp as [? Hh]. split; [done|]. intros j. rewrite Hh.
    by replace (rc =? 0) with false by lia; replace (rc' =? 0) with false by lia. }
  assert (Hidle : idle s0 s2).
  { destruct Hp as [? Hh]. split; [done|]. intros j. rewrite Hh. replace (rc =? 0) with false by lia. apply app_nil_r. }
  apply always_bind. eapply always_mono; [apply idles_past| |intros s' Hs'; by transitivity s2|done]. intros late s3 Hs3.
  assert (Hidle3 : idle s0 s3) by by transitivity s2. destruct late.
  - apply always_ret. destruct Hidle3 as [? Hh]. split; [done|]. intros j. rewrite Hh. cbn. by rewrite app_nil_r.
  - apply always_bind. eapply always_mono; [apply idles_sleep_us| |intros s' Hs'; by transitivity s3|done].
    intros ? s4 Hs4. apply always_ret. exact (transitivity Hidle3 Hs4).
Qed.

(** Every lane has been given, in order, the first [n] orders of its source, and
the source has the others left. *)
Definition kept s0 s : Prop :=
  ok s /\ forall j, (j < 8)%nat -> exists n,
    history (world s) j = history (world s0) j ++ take n (source s0 j).1 /\
    source s j = (drop n (source s0 j).1, (source s0 j).2).

Definition done_ok (lane_done : list bool) s : Prop :=
  length lane_done = 8%nat /\ forall j, lane_done !! j = Some true -> source s j = ([], Ended).

(** The last thing asked of the device is the status, and all FIFOs are full. *)
Definition last_full s : Prop :=
  exists r u u' w, sys_ioctl HFT_IOC_DISP_GET_STATUS u w = (r, u', world s) /\ 0 <= r /\
    hft_all_fifos_full_mask (full_mask (u_st u')) = true.

(** Every lane has been given, in order, the first orders of its source. *)
Definition begun s0 s : Prop :=
  forall j, (j < 8)%nat -> exists n, history (world s) j = history (world s0) j ++ take n (source s0 j).1.

(** When the writer returns [rc]. *)
Definition delivered s0 (rc : Z) s : Prop :=
  begun s0 s /\
  (rc = 0 -> kept s0 s /\ ((forall j, (j < 8)%nat -> source s j = ([], Ended)) \/ last_full s)).

Lemma kept_refl s : ok s -> kept s s.
Proof.
  intros Hok. split; [done|]. intros j Hj. exists 0%nat. cbn. rewrite app_nil_r.
  split; [done|]. by destruct (source s j).
Qed.

Lemma source_idle s s' j : s' = set_world (world s') s -> source s' j = source s j.
Proof. intros ->. apply source_world. Qed.

Lemma kept_idle s0 s s' : kept s0 s -> idle s s' -> kept s0 s'.
Proof.
  intros [Hok Hk] [Hs Hh]. split; [rewrite Hs; by apply ok_world|]. intros j Hj.
  destruct (Hk j Hj) as (n & Hn & Hsrc). exists n. by rewrite Hh, (source_idle _ _ _ Hs).
Qed.

Lemma done_idle lane_done s s' : done_ok lane_done s -> idle s s' -> done_ok lane_done s'.
Proof.
  intros [Hlen Hd] [Hs _]. split; [done|]. intros j Hj. rewrite (source_idle _ _ _ Hs). by apply Hd.
Qed.

Lemma kept_begun s0 s : kept s0 s -> begun s0 s.
Proof. intros [_ Hk] j Hj. destruct (Hk j Hj) as (n & Hn & _). by exists n. Qed.

Lemma begun_same s0 s s' : begun s0 s -> (forall j, history (world s') j = history (world s) j) -> begun s0 s'.
Proof. intros Hb Hh j Hj. rewrite Hh. by apply Hb. Qed.

Lemma begun_idle s0 s s' : begun s0 s -> idle s s' -> begun s0 s'.
Proof. intros Hb [_ Hh]. by eapply begun_same. Qed.

(** A row of some lane cannot be converted. *)
Definition broken s0 : Prop := exists j, (j < 8)%nat /\ (source s0 j).2 = Broken.

Lemma kept_delivered s0 s rc : kept s0 s -> rc <> 0 -> delivered s0 rc s.
Proof. intros Hk Hrc. split; [by apply kept_begun|done]. Qed.

(** An order is taken from a source and pushed. *)
Lemma kept_push s0 s s1 s2 lane o os e :
  kept s0 s -> (lane < 8)%nat -> source s lane = (o :: os, e) ->
  ok s1 -> source s1 lane = (os, e) -> world s1 = world s -> (forall j, j <> lane -> source s1 j = source s j) ->
  after_push lane o s1 0 s2 -> kept s0 s2.
Proof.
  intros [Hok Hk] Hlane Hsrc Hok1 Hsrc1 Hw1 Hj1 [Hs2 Hh2].
  split; [rewrite Hs2; by apply ok_world|]. intros j Hj. destruct (Hk j Hj) as (n & Hn & Hsj).
  rewrite Hh2, Hw1, Hn, (source_idle _ _ _ Hs2). cbn. destruct (Nat.eqb_spec j lane) as [->|Hne].
  - rewrite Hsrc in Hsj. rewrite Hsrc1. injection Hsj as Hdrop He. exists (S n).
    rewrite <- app_assoc, (take_S_r _ _ o); [|by rewrite <- (Nat.add_0_r n), <- lookup_drop, <- Hdrop].
    split; [done|]. rewrite He. f_equal. rewrite <- Nat.add_1_r, <- drop_drop, <- Hdrop. done.
  - exists n. rewrite app_nil_r, Hj1 by done. done.
Qed.

(** A lane found exhausted. *)
Lemma kept_exhausted s0 s s1 lane :
  kept s0 s -> source s lane = ([], Ended) -> ok s1 -> source s1 lane = ([], Ended) ->
  world s1 = world s -> (forall j, j <> lane -> source s1 j = source s j) -> kept s0 s1.
Proof.
  intros [_ Hk] Hsrc Hok1 Hsrc1 Hw1 Hj1. split; [done|]. intros j Hj.
  destruct (Hk j Hj) as (n & Hn & Hsj). exists n. rewrite Hw1. split; [done|].
  destruct (decide (j = lane)) as [->|Hne]; [congruence|]. by rewrite Hj1.
Qed.

(** An order is taken from a source and refused. *)
Lemma refused_delivered s0 s s1 s2 lane o rc :
  kept s0 s -> world s1 = world s -> after_push lane o s1 rc s2 -> rc <> 0 -> delivered s0 rc s2.
Proof.
  intros Hk Hw1 [_ Hh2] Hrc. split; [|done]. eapply begun_same; [by apply kept_begun|].
  intros j. rewrite Hh2, Hw1. replace (rc =? 0) with false by lia. by rewrite app_nil_r.
Qed.

Lemma get_status_last st s :
  always (hft_disp_get_status st) (fun r s' => idle s s' /\
    (r.1 = 0 -> hft_all_fifos_full_mask (full_mask r.2) = true -> last_full s')) (idle s) False s.
Proof.
  pose proof (idles_status st s) as Hi. unfold always in *.
  destruct (hft_disp_get_status st s) as [[rc st'] s'| | |] eqn:Hrun; try done.
  split; [done|]. cbn. intros -> Hfull. unfold hft_disp_get_status, ioctl, bind in Hrun. set (u := user_of _ _ _ _) in *.
  destruct (sys_ioctl _ u (world s)) as [[r u'] w] eqn:Hio. cbn in Hrun. injection Hrun as Hr Hst Hs'.
  exists r, u, u', (world s). rewrite <- Hs'. split; [exact Hio|].
  destruct (Z.ltb_spec r 0); [lia|]. split; [lia|]. by rewrite Hst.
Qed.

Lemma write_lanes_kept t d ls s0 s st lane_done :
  Forall (fun lane => (lane < 8)%nat) ls -> kept s0 s -> done_ok lane_done s ->
  always (write_lanes fuel next_order t d ls st lane_done)
    (fun r s' => match r with
                 | inl lane_done' => kept s0 s' /\ done_ok lane_done' s'
                 | inr rc => delivered s0 rc s'
                 end) (begun s0) (broken s0) s.
Proof.
  intros Hls. revert s st lane_done. induction Hls as [|lane ls Hlane Hls IH]; intros s st lane_done Hk Hd.
  { by apply always_ret. }
  cbn [write_lanes]. destruct (lane_done !!! lane) eqn:Hdone; [by apply IH|].
  destruct (negb _) eqn:Hfull; [by apply IH|]. clear Hfull.
  pose proof (next_gives lane s (proj1 Hk) Hlane) as Hg. unfold gives in Hg. apply always_bind.
  destruct (source s lane) as [[|o os] e] eqn:Hsrc; [destruct e|].
  - destruct Hg as (s1 & Hrun & Hok1 & Hsrc1 & Hw1 & Hj1). eapply always_val; [exact Hrun|]. cbv beta iota. cbn.
    apply IH; [by eapply kept_exhausted|]. destruct Hd as [Hlen Hd]. split; [by rewrite length_insert|].
    intros j. destruct (decide (j = lane)) as [->|Hne]; [done|]. rewrite list_lookup_insert_ne, Hj1 by done. apply Hd.
  - destruct Hg as (rc & s1 & Hrc & Hrun & Hw1). eapply always_val; [exact Hrun|]. cbv beta iota.
    replace (rc <? 0) with true by lia. apply always_ret. split; [|lia].
    eapply begun_same; [by apply kept_begun|]. by rewrite Hw1.
  - unfold always. rewrite Hg. exists lane. split; [done|]. destruct Hk as [_ Hk].
    destruct (Hk lane Hlane) as (n & _ & Hsj). rewrite Hsrc in Hsj. by injection Hsj as _ <-.
  - destruct Hg as (s1 & Hrun & Hok1 & Hsrc1 & Hw1 & Hj1). eapply always_val; [exact Hrun|]. cbv beta iota. cbn.
    apply always_bind. eapply always_val; [reflexivity|]. apply always_bind.
    eapply always_mono; [apply push_blocking_once| | |done].
    2: { intros s' [_ Hh]. eapply begun_same; [by apply kept_begun|]. intros j. by rewrite Hh, Hw1. }
    intros rc s2 Hp.
    destruct (Z.eqb_spec rc 0) as [->|Hrc]; cbn [negb]; [|by apply always_ret; eapply refused_delivered].
    assert (Hk2 : kept s0 s2) by by eapply kept_push.
    assert (Hd2 : done_ok lane_done s2).
    { destruct Hd as [Hlen Hd]. split; [done|]. intros j Hj. rewrite (source_idle _ _ _ (proj1 Hp)).
      destruct (decide (j = lane)) as [->|Hne]; [|rewrite Hj1 by done; by apply Hd].
      rewrite (list_lookup_total_correct _ _ _ Hj) in Hdone. done. }
    pose proof (begun_idle s0 s2) as Hb2. specialize (fun s' => Hb2 s' (kept_begun _ _ Hk2)).
    apply always_bind. eapply always_mono; [apply idles_past| |exact Hb2|done]. intros late s3 Hs3.
    assert (Hk3 : kept s0 s3) by by eapply kept_idle. assert (Hd3 : done_ok lane_done s3) by by eapply done_idle.
    destruct late; [by apply always_ret, kept_delivered|].
    apply always_bind. eapply always_mono; [apply get_status_last| |intros s'; by apply begun_idle, kept_begun|done].
    intros [rc st'] s4 [Hs4 Hlast].
    assert (Hk4 : kept s0 s4) by by eapply kept_idle. assert (Hd4 : done_ok lane_done s4) by by eapply done_idle.
    destruct (Z.eqb_spec rc 0) as [->|Hrc]; cbn [negb]; [|by apply always_ret, kept_delivered].
    destruct (hft_all_fifos_full_mask (full_mask st')) eqn:Hall; [|by apply IH].
    apply always_ret. split; [by apply kept_begun|]. intros _. split; [done|]. right. by apply Hlast.
Qed.

Lemma all_done lane_done s :
  done_ok lane_done s -> forallb id lane_done = true -> forall j, (j < 8)%nat -> source s j = ([], Ended).
Proof.
  intros [Hlen Hd] Hall j Hj. apply Hd. destruct (lookup_lt_is_Some_2 lane_done j) as [b Hb]; [lia|].
  rewrite forallb_forall in Hall. rewrite Hb. f_equal.
  apply (Hall b), list_elem_of_In, list_elem_of_lookup. by exists j.
Qed.

Lemma write_body_kept t d s0 s lane_done :
  kept s0 s -> done_ok lane_done s ->
  always (write_body fuel next_order t d lane_done)
    (fun r s' => match r with
                 | inl lane_done' => kept s0 s' /\ done_ok lane_done' s'
                 | inr rc => delivered s0 rc s'
                 end) (begun s0) (broken s0) s.
Proof.
  intros Hk Hd. unfold write_body. destruct (forallb id lane_done) eqn:Hall.
  { apply always_ret. split; [by apply kept_begun|]. intros _. split; [done|]. left. by eapply all_done. }
  apply always_bind. eapply always_mono; [apply get_status_last| |intros s'; by apply begun_idle, kept_begun|done].
  intros [rc st] s1 [Hs1 Hlast].
  assert (Hk1 : kept s0 s1) by by eapply kept_idle. assert (Hd1 : done_ok lane_done s1) by by eapply done_idle.
  destruct (Z.eqb_spec rc 0) as [->|Hrc]; cbn [negb]; [|by apply always_ret, kept_delivered].
  destruct (hft_all_fifos_full_mask (full_mask st)) eqn:Hfull.
  { apply always_ret. split; [by apply kept_begun|]. intros _. split; [done|]. right. by apply Hlast. }
  destruct (state st =? HFT_STATE_IDLE); [by apply always_ret, kept_delivered|].
  destruct (negb _); [by apply always_ret, kept_delivered|].
  apply write_lanes_kept; [|done..]. apply Forall_forall. intros lane Hl%elem_of_seq.
  change (Z.to_nat HFT_NUM_LANES) with 8%nat in Hl. lia.
Qed.

Lemma write_delivers t s :
  ok s -> always (hft_write_orders_round_robin fuel next_order t) (delivered s) (begun s) (broken s) s.
Proof.
  intros Hok. unfold hft_write_orders_round_robin. apply always_bind.
  eapply always_mono; [apply idles_deadline| |intros s'; by apply begun_idle, kept_begun, kept_refl|done].
  intros d s1 Hs1.
  apply (always_loop (fun lane_done s' => kept s s' /\ done_ok lane_done s')); [by intros l s' [? _]; apply kept_begun|..].
  - intros lane_done s2 [Hk Hd]. by apply write_body_kept.
  - split; [by eapply kept_idle; [apply kept_refl|]|]. split; [done|]. intros j.
    by intros [[=] _]%lookup_replicate_1.
Qed.

End Anywhere.

(** ** The writer while the dispatcher is in WRITE *)

(** A board whose dispatcher is in WRITE and stays there: the status and the
pushes tell the truth about the FIFOs, and time passes without a change. *)
Class FifoLaws (W : Type) `{System W} := {
  queue : W -> nat -> list hft_disp_order;
  capacity : nat;
  writing : W -> Prop;
  fifo_bound : forall w j, writing w -> (j < 8)%nat -> (length (queue w j) <= capacity)%nat;
  fifo_status : forall u w, writing w -> u_writable u = true ->
    let '(r, u', w') := sys_ioctl HFT_IOC_DISP_GET_STATUS u w in
    r = 0 /\ writing w' /\ (forall j, (j < 8)%nat -> queue w' j = queue w j) /\
    state (u_st u') = HFT_STATE_WRITE /\ 0 <= full_mask (u_st u') < 2 ^ 8 /\
    forall j, (j < 8)%nat -> Z.testbit (full_mask (u_st u')) (Z.of_nat j) = (length (queue w j) =? capacity)%nat;
  fifo_push : forall u w lane, writing w -> u_readable u = true -> (lane < 8)%nat ->
    r_lane (u_req u) = Z.of_nat lane -> order_ok (r_order (u_req u)) -> (length (queue w lane) < capacity)%nat ->
    let '(r, _, w') := sys_ioctl HFT_IOC_DISP_PUSH_ORDER u w in
    r = 0 /\ writing w' /\
    forall j, (j < 8)%nat -> queue w' j = queue w j ++ (if (j =? lane)%nat then [r_order (u_req u)] else []);
  fifo_clock : forall w, writing w ->
    writing (sys_clock w).2 /\ forall j, (j < 8)%nat -> queue (sys_clock w).2 j = queue w j
}.

(** A mask of eight bits is full when all its bits are set. *)
Lemma all_fifos_full m :
  0 <= m < 2 ^ 8 ->
  hft_all_fifos_full_mask m = true <-> forall j, (j < 8)%nat -> Z.testbit m (Z.of_nat j) = true.
Proof.
  intros Hm. unfold hft_all_fifos_full_mask. change HFT_ALL_LANES_MASK with (Z.ones 8).
  rewrite Z.land_ones, Z.mod_small by lia. rewrite Z.eqb_eq. split.
  - intros -> j Hj. apply Z.ones_spec_low. lia.
  - intros Hbits. apply Z.bits_inj'. intros i Hi. destruct (Z.lt_ge_cases i 8) as [Hlt|Hge].
    + rewrite Z.ones_spec_low by lia. rewrite <- (Z2Nat.id i) by done. apply Hbits. lia.
    + rewrite Z.ones_spec_high by lia. rewrite <- (Z.mod_small m (2 ^ 8)) by done.
      by apply Z.mod_pow2_bits_high.
Qed.

Section Writing.
Context {W : Type} `{FifoLaws W}.
Implicit Type s : Proc W.

Variable next_order : nat -> M (Proc W) (Z * option hft_disp_order).
Variable source : Proc W -> nat -> list hft_disp_order * ending.
Variable ok : Proc W -> Prop.
Hypothesis next_gives : forall lane s, ok s -> (lane < 8)%nat -> gives next_order source ok lane s.
Hypothesis source_world : forall w s lane, source (set_world w s) lane = source s lane.
Hypothesis ok_world : forall w s, ok s -> ok (set_world w s).
Hypothesis orders_ok : forall s lane, Forall order_ok (source s lane).1.

(** [s'] is [s] in a world with the same queues, still in WRITE. *)
Definition rests s s' : Prop :=
  s' = set_world (world s') s /\ writing (world s') /\
  forall j, (j < 8)%nat -> queue (world s') j = queue (world s) j.

Lemma now_rests s : writing (world s) -> exists t s', now_ms s = Val t s' /\ rests s s'.
Proof.
  intros Hw. destruct (fifo_clock (world s) Hw) as [Hw' Hq]. unfold now_ms.
  destruct (sys_clock (world s)) as [ts w]. eexists _, _. split; [reflexivity|].
  split; [by destruct s|]. done.
Qed.

Lemma deadline_rests t s : writing (world s) -> exists d s', deadline_of t s = Val d s' /\ rests s s'.
Proof.
  intros Hw. unfold deadline_of. destruct (t <? 0).
  - exists 0, s. split; [done|]. split; [by destruct s|]. done.
  - destruct (now_rests s Hw) as (t1 & s' & Hrun & Hs'). rewrite (bind_val _ _ _ _ _ Hrun). by eexists _, s'.
Qed.

Lemma past_rests t d s :
  writing (world s) -> exists b s', past t d s = Val b s' /\ rests s s' /\ (b = true -> 0 <= t).
Proof.
  intros Hw. unfold past. destruct (Z.geb_spec t 0).
  - destruct (now_rests s Hw) as (t1 & s' & Hrun & Hs'). rewrite (bind_val _ _ _ _ _ Hrun).
    eexists _, s'. split; [reflexivity|]. split; [done|]. lia.
  - exists false, s. split; [done|]. split; [|done]. split; [by destruct s|]. done.
Qed.

(** The full bits of a status, as the queues are now. *)
Definition status_ok_for (st : hft_disp_status) s : Prop :=
  state st = HFT_STATE_WRITE /\ 0 <= full_mask st < 2 ^ 8 /\
  forall j, (j < 8)%nat -> Z.testbit (full_mask st) (Z.of_nat j) = (length (queue (world s) j) =? capacity)%nat.

Lemma status_rests st0 s :
  writing (world s) ->
  exists st s', hft_disp_get_status st0 s = Val (0, st) s' /\ rests s s' /\ status_ok_for st s'.
Proof.
  intros Hw. unfold hft_disp_get_status, ioctl, bind. set (u := user_of _ _ _ _).
  pose proof (fifo_status u (world s) Hw eq_refl) as Hst.
  destruct (sys_ioctl _ u (world s)) as [[r u'] w]. destruct Hst as (-> & Hw' & Hq & Hstate & Hm & Hbits).
  eexists _, _. split; [reflexivity|]. split; [split; [by destruct s|]; done|].
  split; [done|]. split; [done|]. intros j Hj. cbn. rewrite Hq by done. by apply Hbits.
Qed.

(** Into a FIFO with room an order is pushed at once. *)
Lemma push_takes fuel lane o t p s :
  writing (world s) -> (lane < 8)%nat -> order_ok o -> (length (queue (world s) lane) < capacity)%nat ->
  exists s', hft_disp_push_order_blocking (S fuel) (Z.of_nat lane) o t p s = Val 0 s' /\
    s' = set_world (world s') s /\ writing (world s') /\
    forall j, (j < 8)%nat -> queue (world s') j = queue (world s) j ++ (if (j =? lane)%nat then [o] else []).
Proof.
  intros Hw Hlane Ho Hroom. unfold hft_disp_push_order_blocking. cbv zeta.
  destruct (deadline_rests t s Hw) as (d & s1 & Hrun & (Hs1 & Hw1 & Hq1)). rewrite (bind_val _ _ _ _ _ Hrun).
  set (u := user_of (mkPushReq (Z.of_nat lane) o) no_status no_info no_entry).
  pose proof (fifo_push u (world s1) lane Hw1 eq_refl Hlane eq_refl Ho) as Hp. rewrite Hq1 in Hp by done.
  specialize (Hp Hroom). destruct (sys_ioctl HFT_IOC_DISP_PUSH_ORDER u (world s1)) as [[r u'] w] eqn:Hio.
  destruct Hp as (-> & Hw2 & Hq2). exists (set_world w s1).
  split; [|split; [by rewrite Hs1; destruct s|]; split; [done|]; intros j Hj; cbn; by rewrite Hq2, Hq1].
  cbn [loop]. unfold push_blocking_body, hft_disp_push_order, ioctl, bind. fold u. by rewrite Hio.
Qed.

(** The lanes so far: the FIFO of each has got the first [n] orders of its source,
which has the others left; a lane marked done has none. *)
Definition filled s0 s (lane_done : list bool) : Prop :=
  ok s /\ writing (world s) /\ length lane_done = 8%nat /\
  forall j, (j < 8)%nat -> exists n,
    queue (world s) j = queue (world s0) j ++ take n (source s0 j).1 /\
    source s j = (drop n (source s0 j).1, Ended) /\
    (lane_done !!! j = true -> (length (source s0 j).1 <= n)%nat).

(** Every source is exhausted, or every FIFO is full. *)
Definition complete s : Prop :=
  (forall j, (j < 8)%nat -> source s j = ([], Ended)) \/
  (forall j, (j < 8)%nat -> length (queue (world s) j) = capacity).

Definition finished t s0 (rc : Z) s : Prop :=
  (exists lane_done, filled s0 s lane_done) /\ (rc = 0 /\ complete s \/ rc = - ETIMEDOUT /\ 0 <= t).

(** The work left: orders to push and lanes to find exhausted. *)
Definition lane_left s (lane_done : list bool) (j : nat) : nat :=
  length (source s j).1 + (if (lane_done !!! j : bool) then 0 else 1).
Definition left s (lane_done : list bool) : nat := sum_list_with (lane_left s lane_done) lanes.

Lemma filled_rests s0 s s' lane_done : filled s0 s lane_done -> rests s s' -> filled s0 s' lane_done.
Proof.
  intros (Hok & Hw & Hlen & Hf) (Hs & Hw' & Hq). split; [rewrite Hs; by apply ok_world|].
  split; [done|]. split; [done|]. intros j Hj. destruct (Hf j Hj) as (n & Hn & Hsrc & Hd).
  exists n. rewrite Hq by done. split; [done|]. split; [|done]. by rewrite Hs, source_world.
Qed.

Lemma lane_left_rests s s' lane_done j : rests s s' -> lane_left s' lane_done j = lane_left s lane_done j.
Proof. intros (Hs & _). unfold lane_left. by rewrite Hs, source_world. Qed.

Lemma lanes_below lane : lane ∈ lanes <-> (lane < 8)%nat.
Proof. unfold lanes. change (Z.to_nat HFT_NUM_LANES) with 8%nat. rewrite elem_of_seq. lia. Qed.

Lemma left_le s lane_done s' lane_done' :
  (forall j, (j < 8)%nat -> (lane_left s' lane_done' j <= lane_left s lane_done j)%nat) ->
  (left s' lane_done' <= left s lane_done)%nat.
Proof. intros Hle. apply sum_le. intros j Hj. apply Hle. by apply lanes_below. Qed.

Lemma left_rests s s' lane_done : rests s s' -> (left s' lane_done <= left s lane_done)%nat.
Proof. intros Hs. apply left_le. intros j _. by rewrite (lane_left_rests _ _ _ _ Hs). Qed.

Lemma left_lt s lane_done s' lane_done' lane :
  (forall j, (j < 8)%nat -> (lane_left s' lane_done' j <= lane_left s lane_done j)%nat) ->
  (lane < 8)%nat -> (lane_left s' lane_done' lane < lane_left s lane_done lane)%nat ->
  (left s' lane_done' < left s lane_done)%nat.
Proof.
  intros Hle Hlane Hlt. apply (sum_lt _ _ _ lane); [|by apply lanes_below|done].
  intros j Hj. apply Hle. by apply lanes_below.
Qed.

(** A lane that the source ends for is marked. *)
Lemma filled_exhausted s0 s s1 lane_done lane :
  filled s0 s lane_done -> (lane < 8)%nat -> source s lane = ([], Ended) -> lane_done !!! lane = false ->
  ok s1 -> source s1 lane = ([], Ended) -> world s1 = world s -> (forall j, j <> lane -> source s1 j = source s j) ->
  filled s0 s1 (<[lane := true]> lane_done) /\ (left s1 (<[lane := true]> lane_done) < left s lane_done)%nat.
Proof.
  intros (Hok & Hw & Hlen & Hf) Hlane Hsrc Hnot Hok1 Hsrc1 Hw1 Hj1.
  assert (Hother : forall j, j <> lane -> <[lane := true]> lane_done !!! j = lane_done !!! j)
    by (intros; by apply list_lookup_total_insert_ne).
  assert (Hthis : <[lane := true]> lane_done !!! lane = true) by (apply list_lookup_total_insert_eq; lia).
  split.
  - split; [done|]. rewrite Hw1. split; [done|]. split; [by rewrite length_insert|]. intros j Hj.
    destruct (Hf j Hj) as (n & Hn & Hsj & Hd). exists n. split; [done|].
    destruct (decide (j = lane)) as [->|Hne]; [|by rewrite Hj1, Hother].
    rewrite Hsrc1, Hthis. rewrite Hsrc in Hsj. split; [done|]. intros _.
    injection Hsj as Hdrop.
    apply (f_equal length) in Hdrop. rewrite length_drop in Hdrop. cbn in Hdrop. lia.
  - apply (left_lt _ _ _ _ lane); [|done|]; unfold lane_left.
    + intros j Hj. destruct (decide (j = lane)) as [->|Hne]; [rewrite Hsrc1, Hthis; cbn; lia|].
      by rewrite Hj1, Hother.
    + rewrite Hsrc1, Hthis, Hsrc, Hnot. cbn. lia.
Qed.

(** A lane whose next order is pushed. *)
Lemma filled_pushed s0 s s1 s2 lane_done lane o os e :
  filled s0 s lane_done -> (lane < 8)%nat -> source s lane = (o :: os, e) ->
  ok s1 -> source s1 lane = (os, e) -> world s1 = world s -> (forall j, j <> lane -> source s1 j = source s j) ->
  s2 = set_world (world s2) s1 -> writing (world s2) ->
  (forall j, (j < 8)%nat -> queue (world s2) j = queue (world s1) j ++ (if (j =? lane)%nat then [o] else [])) ->
  filled s0 s2 lane_done /\ (left s2 lane_done < left s lane_done)%nat.
Proof.
  intros (Hok & Hw & Hlen & Hf) Hlane Hsrc Hok1 Hsrc1 Hw1 Hj1 Hs2 Hw2 Hq2.
  assert (Hsrc2 : forall j, source s2 j = source s1 j) by (intros; by rewrite Hs2, source_world).
  split.
  - split; [rewrite Hs2; by apply ok_world|]. split; [done|]. split; [done|]. intros j Hj.
    destruct (Hf j Hj) as (n & Hn & Hsj & Hd). rewrite Hq2, Hw1, Hn, Hsrc2 by done.
    destruct (Nat.eqb_spec j lane) as [->|Hne]; [|exists n; by rewrite app_nil_r, Hj1].
    rewrite Hsrc in Hsj. injection Hsj as Hdrop He. exists (S n). rewrite Hsrc1.
    assert (Hlook : (source s0 lane).1 !! n = Some o) by (by rewrite <- (Nat.add_0_r n), <- lookup_drop, <- Hdrop).
    rewrite <- app_assoc, (take_S_r _ _ o) by done. split; [done|]. split.
    + rewrite He. f_equal. rewrite <- Nat.add_1_r, <- drop_drop, <- Hdrop. done.
    + intros Hdone. apply lookup_lt_Some in Hlook. specialize (Hd Hdone). lia.
  - apply (left_lt _ _ _ _ lane); [|done|]; unfold lane_left.
    + intros j Hj. rewrite Hsrc2. destruct (decide (j = lane)) as [->|Hne]; [rewrite Hsrc1, Hsrc; cbn; lia|].
      by rewrite Hj1.
    + rewrite Hsrc2, Hsrc1, Hsrc. cbn. lia.
Qed.

Lemma full_bit st s lane :
  status_ok_for st s -> (lane < 8)%nat ->
  negb (Z.land (full_mask st) (BIT (Z.of_nat lane)) =? 0) = (length (queue (world s) lane) =? capacity)%nat.
Proof. intros (_ & _ & Hb) Hlane. unfold BIT. rewrite land_bit by lia. by apply Hb. Qed.

Lemma status_same st s s' : world s' = world s -> status_ok_for st s -> status_ok_for st s'.
Proof. unfold status_ok_for. by intros ->. Qed.

(** All FIFOs full, as a status says it. *)
Lemma all_full_complete st s :
  status_ok_for st s -> hft_all_fifos_full_mask (full_mask st) = true -> complete s.
Proof.
  intros (_ & Hm & Hb) Hfull. right. intros j Hj. rewrite all_fifos_full in Hfull by done.
  specialize (Hfull j Hj). rewrite Hb in Hfull by done. by apply Nat.eqb_eq.
Qed.

Variable fuel : nat.

(** A lane that is skipped is one that has nothing to do. *)
Definition has_work (st : hft_disp_status) s (lane_done : list bool) (ls : list nat) : Prop :=
  exists lane, lane ∈ ls /\ lane_done !!! lane = false /\ length (queue (world s) lane) <> capacity.

Lemma has_work_cons st s lane_done lane ls :
  has_work st s lane_done (lane :: ls) ->
  lane_done !!! lane = true \/ length (queue (world s) lane) = capacity -> has_work st s lane_done ls.
Proof.
  intros (j & Hj & Hd & Hq) Hno. exists j. split; [|done].
  apply elem_of_cons in Hj as [->|]; [|done]. destruct Hno; congruence.
Qed.

Lemma write_lanes_fills t d ls s0 s st lane_done :
  Forall (fun lane => (lane < 8)%nat) ls -> filled s0 s lane_done -> status_ok_for st s ->
  wp (write_lanes (S fuel) next_order t d ls st lane_done)
    (fun r s' => match r with
                 | inl lane_done' => filled s0 s' lane_done' /\ (left s' lane_done' <= left s lane_done)%nat /\
                     (has_work st s lane_done ls -> (left s' lane_done' < left s lane_done)%nat)
                 | inr rc => finished t s0 rc s'
                 end) no_exit s.
Proof.
  intros Hls. revert s st lane_done. induction Hls as [|lane ls Hlane Hls IH]; intros s st lane_done Hf Hst.
  { apply wp_ret. split; [done|]. split; [done|]. by intros (j & []%not_elem_of_nil & _). }
  cbn [write_lanes]. destruct (lane_done !!! lane) eqn:Hdone.
  { eapply wp_mono; [by apply IH| |done]. intros [ld'|rc] s'; [|done]. intros (Hf' & Hle & Hlt).
    split; [done|]. split; [done|]. intros Hwork. apply Hlt. eapply has_work_cons; [done|]. by left. }
  rewrite (full_bit _ _ _ Hst Hlane). destruct (Nat.eqb_spec (length (queue (world s) lane)) capacity) as [Hq|Hq].
  { eapply wp_mono; [by apply IH| |done]. intros [ld'|rc] s'; [|done]. intros (Hf' & Hle & Hlt).
    split; [done|]. split; [done|]. intros Hwork. apply Hlt. eapply has_work_cons; [done|]. by right. }
  pose proof (next_gives lane s (proj1 Hf) Hlane) as Hg. unfold gives in Hg. apply wp_bind.
  destruct Hf as (Hok & Hw & Hlen & Hall). destruct (Hall lane Hlane) as (n & Hn & Hsrcn & _).
  assert (Hf : filled s0 s lane_done) by done. clear Hall.
  destruct (source s lane) as [[|o os] e] eqn:Hsrc; injection Hsrcn as Hdrop ->.
  - destruct Hg as (s1 & Hrun & Hok1 & Hsrc1 & Hw1 & Hj1). eapply wp_val; [exact Hrun|]. cbv beta iota. cbn.
    destruct (filled_exhausted s0 s s1 lane_done lane) as [Hf1 Hlt1]; [done..|].
    eapply wp_mono; [apply IH; [done|by eapply status_same]| |done].
    intros [ld'|rc] s'; [|done]. intros (Hf' & Hle & _). split; [done|]. split; [lia|]. intros _. lia.
  - destruct Hg as (s1 & Hrun & Hok1 & Hsrc1 & Hw1 & Hj1). eapply wp_val; [exact Hrun|]. cbv beta iota. cbn.
    apply wp_bind. eapply wp_val; [reflexivity|]. apply wp_bind.
    assert (Ho : order_ok o).
    { pose proof (orders_ok s lane) as Hos. rewrite Hsrc in Hos. by inversion Hos. }
    destruct (push_takes fuel lane o 2000 200 s1) as (s2 & Hrun2 & Hs2 & Hw2 & Hq2); [by rewrite Hw1|done..| |].
    { rewrite Hw1. pose proof (fifo_bound (world s) lane Hw Hlane). lia. }
    eapply wp_val; [exact Hrun2|]. cbn [negb Z.eqb].
    destruct (filled_pushed s0 s s1 s2 lane_done lane o os Ended) as [Hf2 Hlt2]; [done..|].
    apply wp_bind. destruct (past_rests t d s2 Hw2) as (late & s3 & Hrun3 & Hs3 & Hlate).
    eapply wp_val; [exact Hrun3|].
    pose proof (filled_rests _ _ _ _ Hf2 Hs3) as Hf3. destruct late.
    { apply wp_ret. split; [by exists lane_done|]. right. auto. }
    apply wp_bind. destruct (status_rests st s3) as (st' & s4 & Hrun4 & Hs4 & Hst4); [apply Hs3|].
    eapply wp_val; [exact Hrun4|]. cbn [negb Z.eqb].
    pose proof (filled_rests _ _ _ _ Hf3 Hs4) as Hf4.
    destruct (hft_all_fifos_full_mask (full_mask st')) eqn:Hfull.
    { apply wp_ret. split; [by exists lane_done|]. left. split; [done|]. by eapply all_full_complete. }
    eapply wp_mono; [by apply IH| |done]. intros [ld'|rc] s'; [|done]. intros (Hf' & Hle & _).
    pose proof (left_rests _ _ lane_done Hs3). pose proof (left_rests _ _ lane_done Hs4).
    split; [done|]. split; [lia|]. intros _. lia.
Qed.


(** Either every FIFO has room for all the orders of its source and one more, or
none has room for more than them. *)
Definition balanced s : Prop :=
  (forall j, (j < 8)%nat -> (length (queue (world s) j) + length (source s j).1 < capacity)%nat) \/
  (forall j, (j < 8)%nat -> (capacity <= length (queue (world s) j) + length (source s j).1)%nat).

(** Then a pass that is not the last one has work. *)
Lemma balanced_work s0 s st lane_done :
  balanced s0 -> filled s0 s lane_done -> status_ok_for st s -> forallb id lane_done = false ->
  hft_all_fifos_full_mask (full_mask st) = false -> has_work st s lane_done lanes.
Proof.
  intros Hbal (_ & Hw & Hlen & Hf) (_ & Hm & Hb) Hdone Hfull. destruct Hbal as [Hroom|Hmore].
  - assert (Hex : exists j, (j < 8)%nat /\ lane_done !!! j = false).
    { apply not_true_iff_false in Hdone. rewrite forallb_forall in Hdone.
      assert (Hno : ~ Forall (fun b => b = true) lane_done).
      { intros Hall. apply Hdone. intros b Hin%list_elem_of_In. rewrite Forall_forall in Hall. by apply (Hall b). }
      apply not_Forall_Exists in Hno; [|intros b; apply _]. apply Exists_exists in Hno as (b & Hin & Hb').
      apply list_elem_of_lookup in Hin as [j Hj]. exists j. split.
      - apply lookup_lt_Some in Hj. lia.
      - rewrite (list_lookup_total_correct _ _ _ Hj). by apply not_true_iff_false. }
    destruct Hex as (j & Hj & Hnot). exists j. split; [by apply lanes_below|]. split; [done|].
    destruct (Hf j Hj) as (n & -> & _). rewrite length_app, length_take. specialize (Hroom j Hj). lia.
  - assert (Hex : exists j, (j < 8)%nat /\ Z.testbit (full_mask st) (Z.of_nat j) = false).
    { apply not_true_iff_false in Hfull. rewrite all_fifos_full in Hfull by done.
      destruct (decide (Forall (fun j => Z.testbit (full_mask st) (Z.of_nat j) = true) lanes)) as [Hall|Hno].
      - destruct Hfull. intros j Hj. rewrite Forall_forall in Hall. by apply Hall, lanes_below.
      - apply not_Forall_Exists in Hno; [|intros j; apply _]. apply Exists_exists in Hno as (j & Hin & Hbit).
        exists j. split; [by apply lanes_below|]. by apply not_true_iff_false. }
    destruct Hex as (j & Hj & Hbit). exists j. rewrite Hb in Hbit by done. apply Nat.eqb_neq in Hbit.
    split; [by apply lanes_below|]. split; [|done].
    destruct (lane_done !!! j) eqn:Hd; [|done]. destruct (Hf j Hj) as (n & Hq & _ & Hn). specialize (Hn Hd).
    pose proof (fifo_bound (world s) j Hw Hj) as Hle. rewrite Hq, length_app, length_take in Hbit, Hle.
    specialize (Hmore j Hj). lia.
Qed.

Lemma write_body_fills t d s0 s lane_done :
  balanced s0 -> filled s0 s lane_done ->
  wp (write_body (S fuel) next_order t d lane_done)
    (fun r s' => match r with
                 | inl lane_done' => filled s0 s' lane_done' /\ (left s' lane_done' < left s lane_done)%nat
                 | inr rc => finished t s0 rc s'
                 end) no_exit s.
Proof.
  intros Hbal Hf. unfold write_body. destruct (forallb id lane_done) eqn:Hdone.
  { apply wp_ret. split; [by exists lane_done|]. left. split; [done|]. left. intros j Hj.
    destruct Hf as (_ & _ & Hlen & Hf). destruct (Hf j Hj) as (n & _ & -> & Hn). f_equal. apply drop_ge, Hn.
    destruct (lookup_lt_is_Some_2 lane_done j) as [b Hb]; [lia|]. rewrite (list_lookup_total_correct _ _ _ Hb).
    rewrite forallb_forall in Hdone. apply (Hdone b), list_elem_of_In, list_elem_of_lookup. by exists j. }
  apply wp_bind. destruct (status_rests no_status s) as (st & s1 & Hrun & Hs1 & Hst); [apply Hf|].
  eapply wp_val; [exact Hrun|]. cbn [negb Z.eqb]. pose proof (filled_rests _ _ _ _ Hf Hs1) as Hf1.
  destruct (hft_all_fifos_full_mask (full_mask st)) eqn:Hfull.
  { apply wp_ret. split; [by exists lane_done|]. left. split; [done|]. by eapply all_full_complete. }
  pose proof Hst as Hst'. destruct Hst as [Hstate Hst]. rewrite Hstate.
  change (HFT_STATE_WRITE =? HFT_STATE_IDLE) with false. rewrite Z.eqb_refl. cbn [negb].
  eapply wp_mono; [apply write_lanes_fills; [|exact Hf1|by split]| |done].
  { apply Forall_forall. intros lane. apply lanes_below. }
  intros [ld'|rc] s'; [|done]. intros (Hf' & _ & Hlt). split; [done|].
  pose proof (left_rests _ _ lane_done Hs1).
  specialize (Hlt (balanced_work _ _ _ _ Hbal Hf1 Hst' Hdone Hfull)). lia.
Qed.

Lemma write_fills t s :
  ok s -> writing (world s) -> balanced s -> (forall j, (j < 8)%nat -> (source s j).2 = Ended) ->
  (left s (replicate 8 false) < S fuel)%nat ->
  wp (hft_write_orders_round_robin (S fuel) next_order t) (finished t s) no_exit s.
Proof.
  intros Hok Hw Hbal Hend Hfuel. unfold hft_write_orders_round_robin. apply wp_bind.
  destruct (deadline_rests t s Hw) as (d & s1 & Hrun & Hs1). eapply wp_val; [exact Hrun|].
  apply (wp_loop (fun lane_done s' => filled s s' lane_done) (fun lane_done s' => left s' lane_done)).
  - intros lane_done s2 Hf2. by apply write_body_fills.
  - pose proof (left_rests _ _ (replicate 8 false) Hs1). lia.
  - eapply filled_rests; [|exact Hs1]. split; [done|]. split; [done|]. split; [done|]. intros j Hj. exists 0%nat.
    rewrite app_nil_r. split; [done|]. split; [by rewrite <- (Hend j Hj); destruct (source s j)|].
    by rewrite lookup_total_replicate_2.
Qed.

(** ** The writer that spins *)

(** Every lane is exhausted with room left, or full; some lane is the one, some
the other. *)
Definition stuck s0 s (lane_done : list bool) : Prop :=
  (forall j, (j < 8)%nat -> queue (world s) j = queue (world s0) j) /\ ok s /\ writing (world s) /\ length lane_done = 8%nat /\
  (exists j, (j < 8)%nat /\ length (queue (world s) j) = capacity) /\
  (exists j, (j < 8)%nat /\ length (queue (world s) j) <> capacity) /\
  forall j, (j < 8)%nat ->
    length (queue (world s) j) = capacity /\ lane_done !!! j = false \/
    length (queue (world s) j) <> capacity /\ source s j = ([], Ended).

Lemma stuck_rests s0 s s' lane_done : stuck s0 s lane_done -> rests s s' -> stuck s0 s' lane_done.
Proof.
  intros (Hsame & Hok & Hw & Hlen & (j1 & Hj1 & Hq1) & (j2 & Hj2 & Hq2) & Hall) (Hs & Hw' & Hq).
  split; [intros j Hj; rewrite Hq by done; by apply Hsame|].
  split; [rewrite Hs; by apply ok_world|]. split; [done|]. split; [done|].
  split; [exists j1; by rewrite Hq|]. split; [exists j2; by rewrite Hq|].
  intros j Hj. rewrite Hq, Hs, source_world by done. by apply Hall.
Qed.

(** A pass finds the exhausted lanes and skips the full ones. *)
Lemma write_lanes_stuck t d ls st s0 s lane_done :
  Forall (fun lane => (lane < 8)%nat) ls -> stuck s0 s lane_done -> status_ok_for st s ->
  exists lane_done' s', write_lanes (S fuel) next_order t d ls st lane_done s = Val (inl lane_done') s' /\
    stuck s0 s' lane_done'.
Proof.
  intros Hls. revert s lane_done. induction Hls as [|lane ls Hlane Hls IH]; intros s lane_done Hs Hst.
  { by exists lane_done, s. }
  cbn [write_lanes]. destruct (lane_done !!! lane) eqn:Hdone; [by apply IH|].
  rewrite (full_bit _ _ _ Hst Hlane). destruct (Nat.eqb_spec (length (queue (world s) lane)) capacity) as [Hq|Hq];
    [by apply IH|].
  pose proof Hs as (Hsame & Hok & Hw & Hlen & Hfull & Hroom & Hall).
  destruct (Hall lane Hlane) as [[? _]|[_ Hsrc]]; [done|].
  pose proof (next_gives lane s Hok Hlane) as Hg. unfold gives in Hg. rewrite Hsrc in Hg.
  destruct Hg as (s1 & Hrun & Hok1 & Hsrc1 & Hw1 & Hj1). rewrite (bind_val _ _ _ _ _ Hrun). cbn.
  apply IH; [|by eapply status_same]. split; [by rewrite Hw1|]. split; [done|]. rewrite Hw1. split; [done|].
  split; [by rewrite length_insert|]. split; [done|]. split; [done|]. intros j Hj.
  destruct (decide (j = lane)) as [->|Hne]; [by right|].
  rewrite list_lookup_total_insert_ne, Hj1 by done. by apply Hall.
Qed.

Lemma write_stuck t s :
  ok s -> writing (world s) ->
  (exists j, (j < 8)%nat /\ length (queue (world s) j) = capacity) ->
  (exists j, (j < 8)%nat /\ length (queue (world s) j) <> capacity) ->
  (forall j, (j < 8)%nat -> length (queue (world s) j) <> capacity -> source s j = ([], Ended)) ->
  exists s', hft_write_orders_round_robin (S fuel) next_order t s = NoFuel s' /\
    forall j, (j < 8)%nat -> queue (world s') j = queue (world s) j.
Proof.
  intros Hok Hw Hfull Hroom Hsrc. unfold hft_write_orders_round_robin.
  destruct (deadline_rests t s Hw) as (d & s1 & Hrun & Hs1). rewrite (bind_val _ _ _ _ _ Hrun).
  enough (exists ld s', loop (S fuel) (write_body (S fuel) next_order t d) (replicate 8 false) s1 = NoFuel s' /\
    stuck s s' ld) as (ld & s' & Hloop & Hsame & _) by by exists s'.
  apply (loop_forever (fun lane_done s' => stuck s s' lane_done)).
  - intros lane_done s2 Hs2. unfold write_body.
    replace (forallb id lane_done) with false.
    2: { symmetry. apply not_true_iff_false. rewrite forallb_forall. intros Hall.
         destruct Hs2 as (_ & _ & _ & Hlen & (j & Hj & Hq) & _ & Hlanes).
         destruct (Hlanes j Hj) as [[_ Hd]|[? _]]; [|done].
         destruct (lookup_lt_is_Some_2 lane_done j) as [b Hb]; [lia|].
         rewrite (list_lookup_total_correct _ _ _ Hb) in Hd. subst b.
         assert (id false = true); [|done]. apply Hall, list_elem_of_In, list_elem_of_lookup. by exists j. }
    destruct (status_rests no_status s2) as (st & s3 & Hrun3 & Hs3 & Hst); [apply Hs2|].
    rewrite (bind_val _ _ _ _ _ Hrun3). cbn [negb Z.eqb].
    pose proof (stuck_rests _ _ _ _ Hs2 Hs3) as Hs3'.
    replace (hft_all_fifos_full_mask (full_mask st)) with false.
    2: { symmetry. apply not_true_iff_false. destruct Hst as (_ & Hm & Hb). rewrite all_fifos_full by done.
         intros Hall. destruct Hs3' as (_ & _ & _ & _ & _ & (j & Hj & Hq) & _). specialize (Hall j Hj).
         rewrite Hb in Hall by done. by apply Nat.eqb_eq in Hall. }
    destruct Hst as [Hstate Hst]. rewrite Hstate. change (HFT_STATE_WRITE =? HFT_STATE_IDLE) with false.
    rewrite Z.eqb_refl. cbn [negb].
    apply write_lanes_stuck; [apply Forall_forall; intros lane; apply lanes_below|done|by split].
  - eapply stuck_rests; [|exact Hs1]. split; [done|]. split; [done|]. split; [done|]. split; [done|]. split; [done|]. split; [done|].
    intros j Hj. destruct (decide (length (queue (world s) j) = capacity)) as [Hq|Hq]; [left|right; auto].
    split; [done|]. by rewrite lookup_total_replicate_2.
Qed.

End Writing.

(** ** Properties *)

(** C25: in any environment (refusals, resets and time-outs at any point), however
far the writer has got and even if it never returns, what the device has taken for
a lane is, in order and each order once, a beginning of the rows of that lane's
file.  When the writer returns 0, the other rows are still unread, and either all
files are at their end or the last status said that all FIFOs were full.  There is
undefined behaviour only if a row of some file cannot be converted. *)
Theorem writer_keeps_order {W : Type} `{HistoryLaws W} fuel timeout_ms (s : Proc W) :
  reader_ok s ->
  always (hft_write_orders_round_robin fuel lane_csv_next_order timeout_ms)
    (delivered csv_source reader_ok s) (begun csv_source s) (broken csv_source s) s.
Proof.
  intros Hok. apply write_delivers; [|done|done|done]. intros. by apply next_order_gives.
Qed.

(** C26: if the dispatcher stays in WRITE, no file has a row that is refused, and
either every FIFO has room for all the rows of its lane and one more or no FIFO has
room for more than the rows of its lane, the writer ends: with 0 once every file is
exhausted or every FIFO is full, or with [-ETIMEDOUT] if it was given a timeout; the
FIFO of each lane has then got a beginning of the rows of its file. *)
Theorem writer_fills {W : Type} `{FifoLaws W} fuel timeout_ms (s : Proc W) :
  reader_ok s -> writing (world s) -> balanced csv_source s ->
  (forall j, (j < 8)%nat -> (csv_source s j).2 = Ended) ->
  (left csv_source s (replicate 8 false) < S fuel)%nat ->
  wp (hft_write_orders_round_robin (S fuel) lane_csv_next_order timeout_ms)
    (finished csv_source reader_ok timeout_ms s) no_exit s.
Proof.
  intros. apply write_fills; try done; [intros; by apply next_order_gives|apply source_orders_ok].
Qed.

(** C38: a FIFO that is full next to a file that is exhausted before its FIFO is
full makes the writer spin: it polls the status for ever, whatever its timeout, and
the FIFOs stay as they are. *)
Theorem writer_spins {W : Type} `{FifoLaws W} fuel timeout_ms (s : Proc W) :
  reader_ok s -> writing (world s) ->
  (exists j, (j < 8)%nat /\ length (queue (world s) j) = capacity) ->
  (exists j, (j < 8)%nat /\ length (queue (world s) j) <> capacity) ->
  (forall j, (j < 8)%nat -> length (queue (world s) j) <> capacity -> csv_source s j = ([], Ended)) ->
  exists s', hft_write_orders_round_robin (S fuel) lane_csv_next_order timeout_ms s = NoFuel s' /\
    forall j, (j < 8)%nat -> queue (world s') j = queue (world s) j.
Proof.
  intros. apply (write_stuck _ csv_source reader_ok); try done. intros; by apply next_order_gives.
Qed.
