(* ===== verification/HarnessLog.v ===== *)
(** * HarnessLog: reading the trade log and dumping it

What the harness makes of a log that the device holds still: the entries it
reads are the device's, in order, and the columns of the dump are the fields of
the hardware's [TRADE_LOG_ENTRY]. *)
From S2P Require Import Prelude Driver Harness.

(** A device with a log that can be read: the count is the truth and entry [i]
is handed out as its two halves. *)
Class LogLaws (W : Type) `{System W} := {
  trade_log : W -> list Z;
  readable : W -> Prop;
  log_info_law : forall u w, readable w -> u_writable u = true ->
    let '(r, u', w') := sys_ioctl HFT_IOC_LOG_GET_INFO u w in
    r = 0 /\ readable w' /\ trade_log w' = trade_log w /\ li_count (u_li u') = Z.of_nat (length (trade_log w));
  log_read_law : forall u w x, readable w -> u_readable u = true -> u_writable u = true ->
    0 <= e_index (u_le u) -> trade_log w !! Z.to_nat (e_index (u_le u)) = Some x ->
    let '(r, u', w') := sys_ioctl HFT_IOC_LOG_READ_ENTRY u w in
    r = 0 /\ readable w' /\ trade_log w' = trade_log w /\
    u_le u' = mkLogEntry (e_index (u_le u)) (field x 0 32) (field x 32 32)
}.

(** Entry [i] of a log, as the driver hands it out. *)
Definition entry_of (i : nat) (x : Z) : hft_log_entry := mkLogEntry (Z.of_nat i) (field x 0 32) (field x 32 32).
Definition entries_of (xs : list Z) : list hft_log_entry := imap entry_of xs.

Section Log.
Context {W : Type} `{LogLaws W}.
Implicit Type s : Proc W.

Lemma entries_of_snoc xs x : entries_of (xs ++ [x]) = entries_of xs ++ [entry_of (length xs) x].
Proof. unfold entries_of. rewrite imap_app. cbn. by rewrite Nat.add_0_r. Qed.

Lemma read_entries_run xs done s :
  readable (world s) -> (done ++ xs) `prefix_of` trade_log (world s) ->
  exists s', read_entries (Z.of_nat <$> seq (length done) (length xs)) (entries_of done) s =
      Val (0, entries_of (done ++ xs)) s' /\
    s' = set_world (world s') s /\ readable (world s') /\ trade_log (world s') = trade_log (world s).
Proof.
  revert done s. induction xs as [|x xs IH]; intros done s Hr Hpre.
  { exists s. rewrite app_nil_r. split; [done|]. by split; [destruct s|]. }
  cbn [length seq fmap list_fmap read_entries].
  set (u := user_of no_req no_status no_info (mkLogEntry (Z.of_nat (length done)) 0 0)).
  assert (Hx : trade_log (world s) !! length done = Some x).
  { destruct Hpre as [rest ->]. rewrite <- app_assoc. cbn. by rewrite list_lookup_middle. }
  pose proof (log_read_law u (world s) x Hr eq_refl eq_refl ltac:(cbn; lia)) as Hl.
  cbn [u u_le user_of e_index] in Hl. rewrite Nat2Z.id in Hl. specialize (Hl Hx).
  destruct (sys_ioctl HFT_IOC_LOG_READ_ENTRY u (world s)) as [[r u'] w] eqn:Hio.
  destruct Hl as (-> & Hr' & Hlog & Hle).
  rewrite (bind_val _ _ _ (0, u') (set_world w s)) by (unfold ioctl; by rewrite Hio). cbn [Z.ltb Z.compare].
  destruct (IH (done ++ [x]) (set_world w s)) as (s' & Hrun & Hs' & Hr2 & Hlog2);
    [done|cbn; by rewrite Hlog, <- app_assoc|].
  exists s'. rewrite Hle. rewrite entries_of_snoc, length_app, Nat.add_1_r, <- app_assoc in Hrun.
  split; [exact Hrun|]. split; [rewrite Hs'; by destruct s'|]. split; [done|]. by rewrite Hlog2.
Qed.

(** Reading everything: the first entries of the log, at most [max_entries]. *)
Lemma read_all_run max_entries s :
  readable (world s) -> 0 <= max_entries ->
  exists s' ovf, hft_log_read_all max_entries s =
      Val (0, entries_of (take (Z.to_nat max_entries) (trade_log (world s))), ovf) s' /\
    s' = set_world (world s') s /\ readable (world s') /\ trade_log (world s') = trade_log (world s).
Proof.
  intros Hr Hmax. unfold hft_log_read_all, hft_log_get_info. set (u := user_of no_req no_status no_info no_entry).
  pose proof (log_info_law u (world s) Hr eq_refl) as Hl.
  destruct (sys_ioctl HFT_IOC_LOG_GET_INFO u (world s)) as [[r u'] w] eqn:Hio. destruct Hl as (-> & Hr' & Hlog & Hc).
  erewrite bind_val; [|rewrite (bind_val _ _ _ (0, u') (set_world w s)) by (unfold ioctl; by rewrite Hio); reflexivity].
  cbn [Z.ltb Z.compare Z.eqb negb]. rewrite Hc.
  set (xs := take (Z.to_nat max_entries) (trade_log (world s))).
  assert (Hn : Z.to_nat (if Z.of_nat (length (trade_log (world s))) >? max_entries then max_entries
      else Z.of_nat (length (trade_log (world s)))) = length xs).
  { subst xs. rewrite length_take. destruct (Z.gtb_spec (Z.of_nat (length (trade_log (world s)))) max_entries); lia. }
  rewrite Hn. destruct (read_entries_run xs [] (set_world w s)) as (s' & Hrun & Hs' & Hr2 & Hlog2);
    [done|cbn; rewrite Hlog; apply prefix_take|].
  exists s', (li_overflow (u_li u')). cbn [length entries_of imap] in Hrun.
  rewrite (bind_val _ _ _ _ _ Hrun). split; [done|]. split; [rewrite Hs'; by destruct s'|].
  split; [done|]. by rewrite Hlog2.
Qed.

End Log.

(** The hardware's [TRADE_LOG_ENTRY] as a 64-bit word. *)
Definition log_word (engine_id amount price timestamp : Z) : Z :=
  engine_id * 2 ^ 56 + amount * 2 ^ 48 + price * 2 ^ 32 + timestamp.

Lemma dump_shows i engine_id amount price timestamp :
  0 <= engine_id < 8 -> 0 <= amount < 128 -> 0 <= price < 2 ^ 16 -> 0 <= timestamp < 2 ^ 32 ->
  entry_fields (entry_of i (log_word engine_id amount price timestamp)) =
    (engine_id, amount, price / 100, price mod 100, timestamp).
Proof.
  intros He Ha Hp Ht. unfold entry_fields, entry_of. cbn [e_word0 e_word1].
  change 0x7 with (Z.ones 3). change 0x7F with (Z.ones 7). change 0xFFFF with (Z.ones 16).
  rewrite !Z.land_ones, !Z.shiftr_div_pow2 by lia. unfold field. rewrite !Z.shiftr_div_pow2 by lia.
  unfold log_word. change (2 ^ 0) with 1. rewrite !Z.div_1_r.
  assert (Hw1 : ((engine_id * 2 ^ 56 + amount * 2 ^ 48 + price * 2 ^ 32 + timestamp) / 2 ^ 32) mod 2 ^ 32 =
    engine_id * 2 ^ 24 + amount * 2 ^ 16 + price) by (Z.to_euclidean_division_equations; lia).
  assert (Hw0 : (engine_id * 2 ^ 56 + amount * 2 ^ 48 + price * 2 ^ 32 + timestamp) mod 2 ^ 32 = timestamp)
    by (Z.to_euclidean_division_equations; lia).
  rewrite Hw1, Hw0.
  assert (((engine_id * 2 ^ 24 + amount * 2 ^ 16 + price) / 2 ^ 24) mod 2 ^ 3 = engine_id)
    as -> by (Z.to_euclidean_division_equations; lia).
  assert (((engine_id * 2 ^ 24 + amount * 2 ^ 16 + price) / 2 ^ 16) mod 2 ^ 7 = amount)
    as -> by (Z.to_euclidean_division_equations; lia).
  assert ((engine_id * 2 ^ 24 + amount * 2 ^ 16 + price) mod 2 ^ 16 = price)
    as -> by (Z.to_euclidean_division_equations; lia).
  done.
Qed.

(** ** Properties *)

(** With a readable log, reading everything returns 0 and the first
[max_entries] entries of the log, each with its index, in the log's order. *)
Theorem read_all_correct {W : Type} `{LogLaws W} max_entries (s : Proc W) :
  readable (world s) -> 0 <= max_entries ->
  exists s' ovf, hft_log_read_all max_entries s =
      Val (0, entries_of (take (Z.to_nat max_entries) (trade_log (world s))), ovf) s' /\
    s' = set_world (world s') s /\ readable (world s') /\ trade_log (world s') = trade_log (world s).
Proof. apply read_all_run. Qed.

(** The columns of a dumped entry are the fields of the hardware's
[TRADE_LOG_ENTRY], the price in dollars and cents, for the engine numbers and
amounts that the log can hold. *)
Theorem dump_shows_fields i engine_id amount price timestamp :
  0 <= engine_id < 8 -> 0 <= amount < 128 -> 0 <= price < 2 ^ 16 -> 0 <= timestamp < 2 ^ 32 ->
  entry_fields (entry_of i (log_word engine_id amount price timestamp)) =
    (engine_id, amount, price / 100, price mod 100, timestamp).
Proof. apply dump_shows. Qed.

Lemma dump_shows_fields_witness :
  entry_fields (entry_of 4 (log_word 5 100 12345 77)) = (5, 100, 12345 / 100, 12345 mod 100, 77).
Proof. apply dump_shows_fields; lia. Defined.
