(* ===== verification/HarnessDevice.v ===== *)
(** * HarnessDevice: the harness on the driver and the hardware

The kernel interface of the harness, implemented by the driver's [ioctl] on the
hardware of [Hardware.v], with a clock, pending signals and an operator who acts
on the board while the program sleeps.  The laws that the harness's theorems
assume are proved for it, so the theorems hold of the whole stack. *)
From S2P Require Import Prelude Scan HwParams Driver Hardware Harness HarnessMain HarnessWait HarnessWrite HarnessLog.

(** [b_taken] records the pushes that were answered 0; [b_operator] is what
happens to the hardware during each sleep to come. *)
Record Board := mkBoard {
  b_dev : Dev Hw;
  b_time : Z;
  b_signals : nat;
  b_stop : bool;
  b_files : list (string * string);
  b_taken : list (Z * hft_disp_order);
  b_operator : list (Hw -> Hw)
}.

Definition clamp (t : Z) : Z := Z.max 0 (Z.min HORIZON t).
Definition set_dev (d : Dev Hw) (b : Board) : Board :=
  mkBoard d (b_time b) (b_signals b) (b_stop b) (b_files b) (b_taken b) (b_operator b).
Definition take_push (cmd r : Z) (u : User) (b : Board) : Board :=
  mkBoard (b_dev b) (b_time b) (b_signals b) (b_stop b) (b_files b)
    (b_taken b ++ if (cmd =? HFT_IOC_DISP_PUSH_ORDER) && (0 <=? r)
                  then [(r_lane (u_req u), r_order (u_req u))] else []) (b_operator b).

(** An [ioctl] on the module; where the module is not set up there is no answer
to give but an error. *)
Definition board_ioctl (cmd : Z) (u : User) (b : Board) : Z * User * Board :=
  match hft_ioctl cmd (set_user u (b_dev b)) with
  | Val r d => (r, user d, take_push cmd r u (set_dev d b))
  | _ => (- EINVAL, u, b)
  end.

Definition board_clock (b : Board) : option timespec * Board :=
  (Some (clamp (b_time b) / 1000000000, clamp (b_time b) mod 1000000000), b).

(** A pending signal interrupts the sleep at once and sets [g_stop]. *)
Definition board_sleep (ts : timespec) (b : Board) : Z * timespec * Board :=
  match b_signals b with
  | S n => (EINTR, ts, mkBoard (b_dev b) (b_time b) n true (b_files b) (b_taken b) (b_operator b))
  | O =>
      let d := match b_operator b with
               | act :: _ => set_device (act (device (b_dev b))) (b_dev b)
               | [] => b_dev b
               end in
      (0, (0, 0), mkBoard d (clamp (b_time b) + nanoseconds ts) O (b_stop b) (b_files b) (b_taken b)
                          (tail (b_operator b)))
  end.

Definition find_file (name : string) (b : Board) : Z + string :=
  match list_find (fun p => p.1 = name) (b_files b) with
  | Some (_, p) => inr p.2
  | None => inl ENOENT
  end.

#[export] Instance board_system : System Board := {
  sys_ioctl := board_ioctl;
  sys_clock := board_clock;
  sys_nanosleep := board_sleep;
  sys_stop := b_stop;
  sys_open_device := fun b => registered (b_dev b);
  sys_read_file := find_file;
  sys_create_file := fun _ _ => 0;
  sys_calloc := fun _ _ => true;
  sys_strerror := fun _ => "No such file or directory"
}.

(** ** The laws of time *)

Lemma clamp_range t : 0 <= clamp t <= HORIZON.
Proof. unfold clamp. assert (0 <= HORIZON) by done. lia. Qed.

Lemma board_ioctl_time cmd u b :
  let '(_, _, b') := board_ioctl cmd u b in b_time b' = b_time b /\ b_signals b' = b_signals b.
Proof. unfold board_ioctl. by destruct (hft_ioctl cmd (set_user u (b_dev b))). Qed.

#[export] Program Instance board_laws : SystemLaws Board := {
  elapsed := fun b => clamp (b_time b);
  signals := b_signals
}.
Next Obligation. intros b. apply clamp_range. Qed.
Next Obligation.
  intros cmd u b. cbn. pose proof (board_ioctl_time cmd u b) as Hb.
  destruct (board_ioctl cmd u b) as [[r u'] b']. destruct Hb as [-> ->]. lia.
Qed.
Next Obligation.
  intros b. cbn. eexists _, b. split; [reflexivity|]. unfold valid_timespec, nanoseconds. cbn.
  pose proof (clamp_range (b_time b)). split; [Z.to_euclidean_division_equations; lia|].
  split; [Z.to_euclidean_division_equations; lia|]. lia.
Qed.
Next Obligation.
  intros ts b Hts. cbn. unfold board_sleep. destruct (b_signals b) as [|n] eqn:Hsig; cbn.
  - left. split; [done|]. split; [|lia]. pose proof (clamp_range (b_time b)).
    destruct Hts as [H1 H2]. unfold nanoseconds in *. unfold clamp at 2. lia.
  - right. pose proof (clamp_range (b_time b)). split_and!; [done..|lia|lia].
Qed.

(** ** The laws of the pushes *)

(** The orders taken for a lane. *)
Definition taken_for (lane : nat) (ps : list (Z * hft_disp_order)) : list hft_disp_order :=
  omap (fun p => if p.1 =? Z.of_nat lane then Some p.2 else None) ps.

#[export] Program Instance board_history : HistoryLaws Board := {
  history := fun b lane => taken_for lane (b_taken b)
}.
Next Obligation.
  intros cmd u b. cbn. unfold board_ioctl.
  destruct (hft_ioctl cmd (set_user u (b_dev b))) as [r d| | |]; cbn; intros j; unfold taken_for.
  - rewrite omap_app. f_equal. destruct ((cmd =? _) && (0 <=? r)); cbn; [|done].
    by destruct (r_lane (u_req u) =? Z.of_nat j).
  - rewrite Z.leb_antisym, andb_false_r. cbn. by rewrite app_nil_r.
  - rewrite Z.leb_antisym, andb_false_r. cbn. by rewrite app_nil_r.
  - rewrite Z.leb_antisym, andb_false_r. cbn. by rewrite app_nil_r.
Qed.
Next Obligation. done. Qed.
Next Obligation. intros ts b j. cbn. unfold board_sleep. by destruct (b_signals b). Qed.

(** ** The laws of the FIFOs and of the log *)

(** The module is set up, nobody holds its lock, and the device is sound. *)
Definition serving (b : Board) : Prop :=
  virtbase (b_dev b) = true /\ lock (b_dev b) = false /\ hw_ok (device (b_dev b)).

Definition in_write (b : Board) : Prop :=
  serving b /\ hw_state (device (b_dev b)) = HFT_STATE_WRITE /\
  Forall (fun q => Z.of_nat (length q) <= FIFO_SZ) (hw_fifos (device (b_dev b))).

Definition fifo_of (b : Board) (lane : nat) : list Z := default [] (hw_fifos (device (b_dev b)) !! lane).

Lemma serving_lane b lane : serving b -> (lane < 8)%nat -> hw_fifos (device (b_dev b)) !! lane = Some (fifo_of b lane).
Proof.
  intros (_ & _ & Hok) Hlane. unfold fifo_of. destruct (hw_fifos _ !! lane) eqn:Hq; [done|].
  apply lookup_ge_None in Hq. pose proof (ok_lanes _ Hok). lia.
Qed.

Lemma in_write_steady b d :
  in_write b -> virtbase d = true -> lock d = false -> steady (device (b_dev b)) (device d) -> in_write (set_dev d b).
Proof.
  intros (Hserv & Hst & Hall) Hv Hl (Hok & Hs & Hf & _). split; [done|]. cbn. by rewrite Hs, Hf.
Qed.

(** [mask_of] of the full bits, read bit by bit. *)
Lemma full_mask_bit h lane q :
  hw_fifos h !! lane = Some q -> Z.testbit (full_mask (hw_status h)) (Z.of_nat lane) = fifo_full q.
Proof. intros Hq. cbn. by rewrite mask_of_bit, list_lookup_fmap, Hq. Qed.

#[export] Program Instance board_fifos : FifoLaws Board := {
  queue := fun b lane => dispatch_order <$> fifo_of b lane;
  capacity := Z.to_nat FIFO_SZ;
  writing := in_write
}.
Next Obligation.
  intros b lane (Hserv & _ & Hall) Hlane. cbn. rewrite length_fmap.
  pose proof (serving_lane b lane Hserv Hlane) as Hq. rewrite Forall_lookup in Hall.
  specialize (Hall lane _ Hq). cbn in Hall. lia.
Qed.
Next Obligation.
  intros u b Hw Hu. cbn. unfold board_ioctl. pose proof Hw as ((Hv & Hl & Hok) & Hst & Hall).
  destruct (status_ioctl_hw (set_user u (b_dev b))) as (d & Hrun & Hl' & Hv' & Hsd & Hust); [done..|].
  rewrite Hrun. pose proof (in_write_steady b d Hw Hv' Hl' Hsd) as Hw'. split; [done|]. split; [exact Hw'|].
  cbn in Hsd. split; [|rewrite Hust].
  - intros j Hj. unfold fifo_of. cbn. by destruct Hsd as (_ & _ & -> & _).
  - cbn in Hust. cbn. destruct (tick_same (device (b_dev b))) as (Hts & Htf & _).
    pose proof (hw_status_ok _ (proj1 (tick_steady _ Hok))) as (_ & _ & _ & Hm). cbn in Hm.
    split; [by rewrite Hts|]. split; [exact Hm|]. intros j Hj. rewrite Htf, mask_of_bit, list_lookup_fmap.
    rewrite (serving_lane b j) by done. cbn. rewrite length_fmap. unfold fifo_full.
    destruct (Z.eqb_spec (Z.of_nat (length (fifo_of b j))) FIFO_SZ) as [Heq|Hne];
      destruct (Nat.eqb_spec (length (fifo_of b j)) (Z.to_nat FIFO_SZ)); unfold FIFO_SZ in *; lia || done.
Qed.
Next Obligation.
  intros u b lane Hw Hu Hlane Hreq Ho Hroom. cbn. unfold board_ioctl. pose proof Hw as (Hserv & Hst & Hall).
  pose proof Hserv as (Hv & Hl & Hok). pose proof (serving_lane b lane Hserv Hlane) as Hq.
  cbn in Hroom. rewrite length_fmap in Hroom. set (q := fifo_of b lane) in *.
  destruct (push_ioctl_hw (set_user u (b_dev b)) lane (r_order (u_req u)) q)
    as (d & w & Hrun & Hfs & Hd & Hst' & Hok' & Hv' & Hl'); [done..| | | | |].
  - cbn. rewrite <- Hreq. by destruct (u_req u).
  - exact Hst.
  - exact Hq.
  - unfold fifo_full. unfold FIFO_SZ in *. destruct (Z.eqb_spec (Z.of_nat (length q)) 1210); [lia|done].
  - rewrite Hrun. cbn in Hfs. split; [done|]. split.
    + split; [done|]. split; [done|]. cbn. rewrite Hfs. apply Forall_insert; [done|].
      rewrite length_app. cbn. unfold FIFO_SZ in *. lia.
    + intros j Hj. unfold fifo_of at 1. cbn. rewrite Hfs. destruct (Nat.eqb_spec j lane) as [->|Hne].
      * rewrite list_lookup_insert_eq by (by eapply lookup_lt_Some). cbn.
        rewrite fmap_app. cbn. by rewrite Hd.
      * rewrite list_lookup_insert_ne by done. by rewrite app_nil_r.
Qed.
Next Obligation. done. Qed.

Definition in_done (b : Board) : Prop := serving b /\ hw_state (device (b_dev b)) = HFT_STATE_DONE.

#[export] Program Instance board_log : LogLaws Board := {
  trade_log := fun b => hw_log (device (b_dev b));
  readable := in_done
}.
Next Obligation.
  intros u b ((Hv & Hl & Hok) & Hst) Hu. cbn. unfold board_ioctl.
  destruct (info_ioctl_hw (set_user u (b_dev b))) as (d & Hrun & Hl' & Hv' & (Hok' & Hs' & _ & Hlog') & Huli); [done..|].
  rewrite Hrun. cbn in *. split; [done|]. split; [split; [done|]; cbn; congruence|]. split; [done|]. rewrite Huli. cbn.
  by destruct (tick_same (device (b_dev b))) as (_ & _ & -> & _).
Qed.
Next Obligation.
  intros u b x ((Hv & Hl & Hok) & Hst) Hr Hu Hi Hx. cbn. unfold board_ioctl.
  destruct (read_ioctl_hw (set_user u (b_dev b)) x) as (d & Hrun & Hl' & Hv' & (Hok' & Hs' & _ & Hlog') & Hule); [done..|].
  rewrite Hrun. cbn in *. split; [done|]. split; [split; [done|]; cbn; congruence|]. done.
Qed.

(** ** A run of the whole program *)

Definition csv_line_of (s : string) : string := (s ++ String newline EmptyString)%string.
Definition demo_rows : string :=
  (csv_line_of "Type,Price,Quantity" ++ csv_line_of "BID,15301,20" ++ csv_line_of "ASK,1530,19")%string.
Definition demo_files : list (string * string) :=
  (fun f => ("../data/" ++ f, demo_rows)%string) <$> lane_file.

Definition demo_slot : User := demo_user (mkPushReq 0 (mkDispOrder 0 0 0)) (mkLogEntry 0 0 0).

(** The operator presses WRITE; then the trades are over, and two are logged. *)
Definition press_write (h : Hw) : Hw :=
  mkHw HFT_STATE_WRITE (hw_fifos h) (hw_log h) (hw_overflow h) (hw_idle h) 0 (hw_shadow h) (hw_valid h) (hw_read h).
Definition trades_over (h : Hw) : Hw :=
  mkHw HFT_STATE_DONE (replicate 8 []) [log_word 3 20 15301 7; log_word 0 19 1530 9] 0 255 1 0 0 None.
Definition demo_board (st : Z) (log : list Z) (sigs : nat) : Board :=
  mkBoard (demo_dev demo_slot (demo_hw st log)) 0 sigs false demo_files [] [press_write; trades_over].

(** The program feeds two rows per lane, waits for the trades and dumps them. *)
Example main_dumps_the_log :
  match main 50 (init_proc (demo_board HFT_STATE_IDLE [] 0)) with
  | Val code s =>
      code = 0 /\ fd_open s = false /\ progress_fp s = false /\ trades_fp s = false /\ logbuf s = false /\
      b_taken (world s) = ((fun lane => (Z.of_nat lane, mkDispOrder 1 15301 20)) <$> lanes) ++
                          ((fun lane => (Z.of_nat lane, mkDispOrder 0 1530 19)) <$> lanes) /\
      hl_args <$> List.filter (fun l => match hl_stream l with Trades => true | _ => false end) (printed s) =
        [ []; [Num 0; Num 7; Num (3 * 2 ^ 24 + 20 * 2 ^ 16 + 15301); Num 3; Num 20; Num 153; Num 1; Num 7];
          [Num 1; Num 9; Num (19 * 2 ^ 16 + 1530); Num 0; Num 19; Num 15; Num 30; Num 9] ]
  | _ => False
  end.
Proof. vm_compute. repeat split. Qed.

(** ** Witnesses of the harness's properties, on this board *)

Definition demo_proc (st : Z) (log : list Z) (sigs : nat) : Proc Board :=
  mkProc (demo_board st log sigs) (mkReader (replicate 8 (Some (mkFile demo_rows demo_rows))) (replicate 8 false))
    true false false false [].

Lemma demo_timeout st log sigs t : 0 <= t < 2 ^ 31 -> timeout_ok t (demo_board st log sigs).
Proof. intros Ht. split; [done|]. done. Qed.

Lemma wait_state_correct_witness :
  wp (hft_disp_wait_state 200 HFT_STATE_DISPATCH 100 1 true)
    (fun rc s' => later 0 (demo_proc 1 [] 3) s' /\
       wait_outcome HFT_STATE_DISPATCH 100 true (demo_proc 1 [] 3) rc s') no_exit (demo_proc 1 [] 3).
Proof.
  apply (wait_state_correct 200 HFT_STATE_DISPATCH 100 1 true (demo_proc 1 [] 3)).
  - by apply demo_timeout.
  - lia.
  - simpl. lia.
  - lia.
Defined.

Lemma push_blocking_correct_witness :
  wp (hft_disp_push_order_blocking 3000 2 (mkDispOrder 1 500 20) 2 200)
    (fun rc s' => later 0 (demo_proc 1 [] 3) s' /\
       push_outcome 2 (mkDispOrder 1 500 20) 2 (demo_proc 1 [] 3) rc s') no_exit (demo_proc 1 [] 3).
Proof.
  apply (push_blocking_correct 3000 2 (mkDispOrder 1 500 20) 2 200 (demo_proc 1 [] 3)).
  - by apply demo_timeout.
  - lia.
  - simpl. lia.
  - lia.
Defined.

Lemma trade_done_correct_witness :
  wp (hft_log_wait_trade_done 200 true 100 2 no_info)
    (fun r s' => went_on (demo_proc 1 [] 0) s' /\ trade_outcome 100 no_info (demo_proc 1 [] 0) r s') no_exit
    (demo_proc 1 [] 0).
Proof.
  apply (trade_done_correct 200 true 100 2 no_info (demo_proc 1 [] 0)).
  - by apply demo_timeout.
  - lia.
  - simpl. lia.
  - lia.
Defined.

Lemma demo_reader st log sigs : reader_ok (demo_proc st log sigs).
Proof. done. Qed.

Lemma demo_in_write : in_write (demo_board HFT_STATE_WRITE [] 0).
Proof.
  split; [split; [done|]; split; [done|]|].
  - apply demo_hw_ok; [done|simpl; lia].
  - split; [done|]. by apply Forall_replicate.
Qed.

Lemma writer_keeps_order_witness :
  always (hft_write_orders_round_robin 50 lane_csv_next_order 30000)
    (delivered csv_source reader_ok (demo_proc 1 [] 2)) (begun csv_source (demo_proc 1 [] 2))
    (broken csv_source (demo_proc 1 [] 2)) (demo_proc 1 [] 2).
Proof. exact (writer_keeps_order 50 30000 (demo_proc 1 [] 2) (demo_reader 1 [] 2)). Defined.

(** The same source on every lane. *)
Lemma demo_source st log sigs j :
  (j < 8)%nat -> csv_source (demo_proc st log sigs) j = ([mkDispOrder 1 15301 20; mkDispOrder 0 1530 19], Ended).
Proof. intros Hj. do 8 (destruct j as [|j]; [vm_compute; reflexivity|]). lia. Qed.

Lemma demo_queue st log sigs j : (j < 8)%nat -> queue (demo_board st log sigs) j = [].
Proof. intros Hj. do 8 (destruct j as [|j]; [reflexivity|]). lia. Qed.

Lemma writer_fills_witness :
  wp (hft_write_orders_round_robin 50 lane_csv_next_order 30000)
    (finished csv_source reader_ok 30000 (demo_proc 1 [] 0)) no_exit (demo_proc 1 [] 0).
Proof.
  apply (writer_fills 49 30000 (demo_proc 1 [] 0)).
  - apply demo_reader.
  - exact demo_in_write.
  - left. intros j Hj. rewrite demo_source by done. change (world _) with (demo_board 1 [] 0).
    rewrite demo_queue by done. apply (bool_decide_unpack _). vm_compute. exact I.
  - intros j Hj. by rewrite demo_source.
  - apply (bool_decide_unpack _). vm_compute. exact I.
Defined.

(** Lane 0 is full, the files of the other lanes are at their end. *)
Definition jammed_fifos : list (list Z) := replicate (Z.to_nat FIFO_SZ) 0 :: replicate 7 [].
Definition jammed_board : Board :=
  mkBoard (demo_dev demo_slot (mkHw HFT_STATE_WRITE jammed_fifos [] 0 255 0 0 0 None)) 0 0 false [] [] [].
Definition jammed_proc : Proc Board :=
  mkProc jammed_board
    (mkReader (replicate 8 (Some (mkFile demo_rows demo_rows))) (false :: replicate 7 true)) true false false false [].

Lemma jammed_queue j : (j < 8)%nat -> length (queue jammed_board j) = if decide (j = 0)%nat then capacity else 0%nat.
Proof. intros Hj. do 8 (destruct j as [|j]; [vm_compute; reflexivity|]). lia. Qed.

Lemma writer_spins_witness :
  exists s', hft_write_orders_round_robin 100000 lane_csv_next_order 30000 jammed_proc = NoFuel s' /\
    forall j, (j < 8)%nat -> queue (world s') j = queue (world jammed_proc) j.
Proof.
  change 100000%nat with (S (pred 100000)). apply (writer_spins (pred 100000) 30000 jammed_proc).
  - done.
  - split; [split; [done|]; split; [done|]|].
    + split; cbn; done || (unfold TRADE_LOG_DEPTH; lia) || lia.
    + split; [done|]. constructor; [by rewrite length_replicate|by apply Forall_replicate].
  - exists 0%nat. split; [lia|]. by rewrite jammed_queue by lia.
  - exists 1%nat. split; [lia|]. rewrite jammed_queue by lia. apply (bool_decide_unpack _). vm_compute. exact I.
  - intros j Hj. change (world jammed_proc) with jammed_board. rewrite jammed_queue by done.
    destruct (decide (j = 0)%nat) as [->|Hne]; [done|]. intros _.
    destruct j as [|j]; [done|]. do 7 (destruct j as [|j]; [reflexivity|]). lia.
Defined.

Lemma read_all_correct_witness :
  exists s' ovf, hft_log_read_all 8704 (demo_proc 3 [log_word 3 20 15301 7] 0) =
      Val (0, entries_of (take (Z.to_nat 8704) [log_word 3 20 15301 7]), ovf) s' /\
    s' = set_world (world s') (demo_proc 3 [log_word 3 20 15301 7] 0) /\ readable (world s') /\
    trade_log (world s') = [log_word 3 20 15301 7].
Proof.
  refine (read_all_correct 8704 (demo_proc 3 [log_word 3 20 15301 7] 0) _ _); [|lia].
  split; [split; [done|]; split; [done|]|done]. apply demo_hw_ok; [done|simpl; lia].
Defined.
