(* ===== verification/HwHeap.v ===== *)
(** * HwHeap: the heap state machine of an engine

[hw/heap_engine/heap_fsm.sv] clock by clock: its registers, what it drives in a
cycle and what a clock edge does to it.  The two tiers of its memory, the block RAM and
the port of the MMU, are in HwTiers; HwCommand proves that a command leaves them with
the array that the heaps of [sw_sim/heap.h] would have. *)
From S2P Require Import Prelude.

(** ** Nodes

A node is a word of 86 bits: type, price, amount, symbol, time stamp. *)
Definition NODE_WIDTH : Z := 86.
Definition order_type (n : Z) : Z := field n 85 1.
Definition order_price (n : Z) : Z := field n 69 16.
Definition order_amount (n : Z) : Z := field n 53 16.
Definition order_ts (n : Z) : Z := field n 0 32.

(** A concatenation whose low part has [n] bits. *)
Definition cat (hi n lo : Z) : Z := Z.lor (Z.shiftl hi n) lo.

(** A value of a wire of [n] bits. *)
Definition fits (n z : Z) : Prop := 0 <= z < 2 ^ n.

Definition with_amount (n new_amt : Z) : Z := cat (cat (field n 69 17) 16 new_amt) 53 (field n 0 53).

(** ** Commands and states *)

Inductive Kind := MAX_HEAP | MIN_HEAP.
Inductive Op := OP_PUSH | OP_POP | OP_PEEK | OP_UPDATE.

#[export] Instance Kind_eq_dec : EqDecision Kind.
Proof. solve_decision. Defined.
#[export] Instance Op_eq_dec : EqDecision Op.
Proof. solve_decision. Defined.

Definition HEAP_KIND (k : Kind) : Z := match k with MAX_HEAP => 0 | MIN_HEAP => 1 end.

Definition PRIVATE_NODES : Z := 64.
Definition MAX_NODES : Z := 1088.

(** [IDX_WIDTH] is 11. *)
Definition idx (z : Z) : Z := z mod 2 ^ 11.

Definition a_wins_fields (k : Kind) (ap at_ bp bt : Z) : bool :=
  if negb (ap =? bp) then match k with MAX_HEAP => ap >? bp | MIN_HEAP => ap <? bp end
  else at_ <? bt.

(** Node [a] sits closer to the root than node [b]. *)
Definition wins (k : Kind) (a b : Z) : bool :=
  a_wins_fields k (order_price a) (order_ts a) (order_price b) (order_ts b).

Inductive Hstate :=
| S_IDLE
| S_PUSH_LAUNCH | S_PUSH_RD_PARENT_ISSUE | S_PUSH_RD_PARENT_WAIT | S_PUSH_DECIDE
| S_PUSH_WR_DOWN_ISSUE | S_PUSH_WR_DOWN_WAIT | S_PUSH_WR_FINAL_ISSUE | S_PUSH_WR_FINAL_WAIT
| S_POP_LAUNCH | S_POP_RD_ROOT_ISSUE | S_POP_RD_ROOT_WAIT | S_POP_RD_LAST_ISSUE | S_POP_RD_LAST_WAIT
| S_POP_SIFT_RD_LEFT_ISSUE | S_POP_SIFT_RD_LEFT_WAIT | S_POP_SIFT_RD_RIGHT_ISSUE | S_POP_SIFT_RD_RIGHT_WAIT
| S_POP_SIFT_DECIDE | S_POP_SIFT_WR_UP_ISSUE | S_POP_SIFT_WR_UP_WAIT
| S_POP_SIFT_WR_FINAL_ISSUE | S_POP_SIFT_WR_FINAL_WAIT
| S_PEEK_RD_ISSUE | S_PEEK_RD_WAIT
| S_UPDATE_WR_ISSUE | S_UPDATE_WR_WAIT
| S_DONE.

#[export] Instance Hstate_eq_dec : EqDecision Hstate.
Proof. solve_decision. Defined.

(** The working registers, and the two flip-flops that time the block RAM. *)
Record Fsm := mkFsm {
  fsm_state : Hstate;
  heap_size : Z;
  target_idx : Z;
  parent_idx : Z;
  left_idx : Z;
  right_idx : Z;
  cur_node : Z;
  parent_node : Z;
  left_node : Z;
  right_node : Z;
  has_right : bool;
  node_cache : list Z;
  node_cache_valid : list bool;
  saved_op_data : Z;
  saved_op : Op;
  popped_root : Z;
  priv_re_d1 : bool;
  priv_we_d1 : bool
}.

Definition set_state (v : Hstate) (f : Fsm) : Fsm :=
  mkFsm v (heap_size f) (target_idx f) (parent_idx f) (left_idx f) (right_idx f) (cur_node f) (parent_node f)
    (left_node f) (right_node f) (has_right f) (node_cache f) (node_cache_valid f) (saved_op_data f)
    (saved_op f) (popped_root f) (priv_re_d1 f) (priv_we_d1 f).
Definition set_size (v : Z) (f : Fsm) : Fsm :=
  mkFsm (fsm_state f) v (target_idx f) (parent_idx f) (left_idx f) (right_idx f) (cur_node f) (parent_node f)
    (left_node f) (right_node f) (has_right f) (node_cache f) (node_cache_valid f) (saved_op_data f)
    (saved_op f) (popped_root f) (priv_re_d1 f) (priv_we_d1 f).
Definition set_target_idx (v : Z) (f : Fsm) : Fsm :=
  mkFsm (fsm_state f) (heap_size f) v (parent_idx f) (left_idx f) (right_idx f) (cur_node f) (parent_node f)
    (left_node f) (right_node f) (has_right f) (node_cache f) (node_cache_valid f) (saved_op_data f)
    (saved_op f) (popped_root f) (priv_re_d1 f) (priv_we_d1 f).
Definition set_parent_idx (v : Z) (f : Fsm) : Fsm :=
  mkFsm (fsm_state f) (heap_size f) (target_idx f) v (left_idx f) (right_idx f) (cur_node f) (parent_node f)
    (left_node f) (right_node f) (has_right f) (node_cache f) (node_cache_valid f) (saved_op_data f)
    (saved_op f) (popped_root f) (priv_re_d1 f) (priv_we_d1 f).
Definition set_left_idx (v : Z) (f : Fsm) : Fsm :=
  mkFsm (fsm_state f) (heap_size f) (target_idx f) (parent_idx f) v (right_idx f) (cur_node f)
    (parent_node f) (left_node f) (right_node f) (has_right f) (node_cache f) (node_cache_valid f)
    (saved_op_data f) (saved_op f) (popped_root f) (priv_re_d1 f) (priv_we_d1 f).
Definition set_right_idx (v : Z) (f : Fsm) : Fsm :=
  mkFsm (fsm_state f) (heap_size f) (target_idx f) (parent_idx f) (left_idx f) v (cur_node f) (parent_node f)
    (left_node f) (right_node f) (has_right f) (node_cache f) (node_cache_valid f) (saved_op_data f)
    (saved_op f) (popped_root f) (priv_re_d1 f) (priv_we_d1 f).
Definition set_cur_node (v : Z) (f : Fsm) : Fsm :=
  mkFsm (fsm_state f) (heap_size f) (target_idx f) (parent_idx f) (left_idx f) (right_idx f) v
    (parent_node f) (left_node f) (right_node f) (has_right f) (node_cache f) (node_cache_valid f)
    (saved_op_data f) (saved_op f) (popped_root f) (priv_re_d1 f) (priv_we_d1 f).
Definition set_parent_node (v : Z) (f : Fsm) : Fsm :=
  mkFsm (fsm_state f) (heap_size f) (target_idx f) (parent_idx f) (left_idx f) (right_idx f) (cur_node f) v
    (left_node f) (right_node f) (has_right f) (node_cache f) (node_cache_valid f) (saved_op_data f)
    (saved_op f) (popped_root f) (priv_re_d1 f) (priv_we_d1 f).
Definition set_left_node (v : Z) (f : Fsm) : Fsm :=
  mkFsm (fsm_state f) (heap_size f) (target_idx f) (parent_idx f) (left_idx f) (right_idx f) (cur_node f)
    (parent_node f) v (right_node f) (has_right f) (node_cache f) (node_cache_valid f) (saved_op_data f)
    (saved_op f) (popped_root f) (priv_re_d1 f) (priv_we_d1 f).
Definition set_right_node (v : Z) (f : Fsm) : Fsm :=
  mkFsm (fsm_state f) (heap_size f) (target_idx f) (parent_idx f) (left_idx f) (right_idx f) (cur_node f)
    (parent_node f) (left_node f) v (has_right f) (node_cache f) (node_cache_valid f) (saved_op_data f)
    (saved_op f) (popped_root f) (priv_re_d1 f) (priv_we_d1 f).
Definition set_has_right (v : bool) (f : Fsm) : Fsm :=
  mkFsm (fsm_state f) (heap_size f) (target_idx f) (parent_idx f) (left_idx f) (right_idx f) (cur_node f)
    (parent_node f) (left_node f) (right_node f) v (node_cache f) (node_cache_valid f) (saved_op_data f)
    (saved_op f) (popped_root f) (priv_re_d1 f) (priv_we_d1 f).
Definition set_node_cache (v : list Z) (f : Fsm) : Fsm :=
  mkFsm (fsm_state f) (heap_size f) (target_idx f) (parent_idx f) (left_idx f) (right_idx f) (cur_node f)
    (parent_node f) (left_node f) (right_node f) (has_right f) v (node_cache_valid f) (saved_op_data f)
    (saved_op f) (popped_root f) (priv_re_d1 f) (priv_we_d1 f).
Definition set_node_cache_valid (v : list bool) (f : Fsm) : Fsm :=
  mkFsm (fsm_state f) (heap_size f) (target_idx f) (parent_idx f) (left_idx f) (right_idx f) (cur_node f)
    (parent_node f) (left_node f) (right_node f) (has_right f) (node_cache f) v (saved_op_data f)
    (saved_op f) (popped_root f) (priv_re_d1 f) (priv_we_d1 f).
Definition set_saved_op_data (v : Z) (f : Fsm) : Fsm :=
  mkFsm (fsm_state f) (heap_size f) (target_idx f) (parent_idx f) (left_idx f) (right_idx f) (cur_node f)
    (parent_node f) (left_node f) (right_node f) (has_right f) (node_cache f) (node_cache_valid f) v
    (saved_op f) (popped_root f) (priv_re_d1 f) (priv_we_d1 f).
Definition set_saved_op (v : Op) (f : Fsm) : Fsm :=
  mkFsm (fsm_state f) (heap_size f) (target_idx f) (parent_idx f) (left_idx f) (right_idx f) (cur_node f)
    (parent_node f) (left_node f) (right_node f) (has_right f) (node_cache f) (node_cache_valid f)
    (saved_op_data f) v (popped_root f) (priv_re_d1 f) (priv_we_d1 f).
Definition set_popped_root (v : Z) (f : Fsm) : Fsm :=
  mkFsm (fsm_state f) (heap_size f) (target_idx f) (parent_idx f) (left_idx f) (right_idx f) (cur_node f)
    (parent_node f) (left_node f) (right_node f) (has_right f) (node_cache f) (node_cache_valid f)
    (saved_op_data f) (saved_op f) v (priv_re_d1 f) (priv_we_d1 f).
Definition set_priv_re_d1 (v : bool) (f : Fsm) : Fsm :=
  mkFsm (fsm_state f) (heap_size f) (target_idx f) (parent_idx f) (left_idx f) (right_idx f) (cur_node f)
    (parent_node f) (left_node f) (right_node f) (has_right f) (node_cache f) (node_cache_valid f)
    (saved_op_data f) (saved_op f) (popped_root f) v (priv_we_d1 f).
Definition set_priv_we_d1 (v : bool) (f : Fsm) : Fsm :=
  mkFsm (fsm_state f) (heap_size f) (target_idx f) (parent_idx f) (left_idx f) (right_idx f) (cur_node f)
    (parent_node f) (left_node f) (right_node f) (has_right f) (node_cache f) (node_cache_valid f)
    (saved_op_data f) (saved_op f) (popped_root f) (priv_re_d1 f) v.

Definition fsm_reset : Fsm :=
  mkFsm S_IDLE 0 0 0 0 0 0 0 0 0 false [0; 0; 0] [false; false; false] 0 OP_PUSH 0 false false.

(** ** What the machine drives *)

(** The command bus. *)
Record Cmd := mkCmd { cmd_valid : bool; cmd_op : Op; cmd_data_in : Z }.

(** What comes back from the memory tiers in a cycle. *)
Record Ins := mkIns {
  priv_rdata : Z;
  virt_req_ready : bool;
  virt_resp_valid : bool;
  virt_resp_data : Z;
  virt_resp_reject : bool
}.

(** The request of a cycle to either tier. *)
Record Port := mkPort {
  priv_we : bool;
  priv_re : bool;
  priv_addr : Z;
  priv_wdata : Z;
  virt_req_valid : bool;
  virt_req_va : Z;
  virt_req_wr : bool;
  virt_req_wdata : Z
}.

Inductive Best := BEST_CUR | BEST_LEFT | BEST_RIGHT.

#[export] Instance Best_eq_dec : EqDecision Best.
Proof. solve_decision. Defined.

Definition in_pop_sift (f : Fsm) : bool :=
  match fsm_state f with
  | S_POP_SIFT_RD_LEFT_ISSUE | S_POP_SIFT_RD_LEFT_WAIT | S_POP_SIFT_RD_RIGHT_ISSUE | S_POP_SIFT_RD_RIGHT_WAIT
  | S_POP_SIFT_DECIDE | S_POP_SIFT_WR_UP_ISSUE | S_POP_SIFT_WR_UP_WAIT => true
  | _ => false
  end.

Definition mem_do_read (f : Fsm) : bool :=
  match fsm_state f with
  | S_PUSH_RD_PARENT_ISSUE | S_POP_RD_ROOT_ISSUE | S_POP_RD_LAST_ISSUE | S_POP_SIFT_RD_LEFT_ISSUE
  | S_POP_SIFT_RD_RIGHT_ISSUE | S_PEEK_RD_ISSUE => true
  | _ => false
  end.

Definition mem_do_write (f : Fsm) : bool :=
  match fsm_state f with
  | S_PUSH_WR_DOWN_ISSUE | S_PUSH_WR_FINAL_ISSUE | S_POP_SIFT_WR_UP_ISSUE | S_POP_SIFT_WR_FINAL_ISSUE
  | S_UPDATE_WR_ISSUE => true
  | _ => false
  end.

Definition mem_idx (f : Fsm) : Z :=
  match fsm_state f with
  | S_PUSH_RD_PARENT_ISSUE => parent_idx f
  | S_PUSH_WR_DOWN_ISSUE | S_PUSH_WR_FINAL_ISSUE | S_POP_SIFT_WR_UP_ISSUE | S_POP_SIFT_WR_FINAL_ISSUE => target_idx f
  | S_POP_RD_LAST_ISSUE => idx (heap_size f - 1)
  | S_POP_SIFT_RD_LEFT_ISSUE => left_idx f
  | S_POP_SIFT_RD_RIGHT_ISSUE => right_idx f
  | _ => 0
  end.

Definition mem_target_priv (f : Fsm) : bool := mem_idx f <? PRIVATE_NODES.

(** The cache of the nodes 0, 1 and 2. *)
Definition cache_valid (f : Fsm) (i : Z) : bool :=
  (i <? 3) && default false (node_cache_valid f !! Z.to_nat i).
Definition cache_data (f : Fsm) (i : Z) : Z :=
  if i <? 3 then default 0 (node_cache f !! Z.to_nat i) else 0.

Definition mem_idx_cached (f : Fsm) : bool := cache_valid f (mem_idx f).
Definition mem_idx_cache_data (f : Fsm) : Z := cache_data f (mem_idx f).
Definition effective_read (f : Fsm) : bool := mem_do_read f && negb (mem_idx_cached f).

(** [if (i < 3) begin node_cache[i] <= v; node_cache_valid[i] <= 1; end] *)
Definition cache_node (i v : Z) (f : Fsm) : Fsm :=
  if i <? 3 then
    set_node_cache (<[Z.to_nat i := v]> (node_cache f))
      (set_node_cache_valid (<[Z.to_nat i := true]> (node_cache_valid f)) f)
  else f.

Section Fsm.
Variable k : Kind.
Variable ENGINE_ID : Z.

Definition make_va (i : Z) : Z :=
  let virt_idx := (i - PRIVATE_NODES) mod 2 ^ 10 in
  cat (cat (ENGINE_ID mod 2 ^ 3) 19 (HEAP_KIND k)) 10 virt_idx.

(** ** Comparators *)

Definition cmp0_result (f : Fsm) : bool :=
  if in_pop_sift f then wins k (left_node f) (cur_node f) else wins k (cur_node f) (parent_node f).
Definition cmp1_result (f : Fsm) : bool :=
  wins k (right_node f) (if cmp0_result f then left_node f else cur_node f).

Definition best (f : Fsm) : Best :=
  let b := if (left_idx f <? heap_size f) && cmp0_result f then BEST_LEFT else BEST_CUR in
  if has_right f && (right_idx f <? heap_size f) && cmp1_result f then BEST_RIGHT else b.

Definition best_node (f : Fsm) : Z := if decide (best f = BEST_LEFT) then left_node f else right_node f.

Definition mem_wdata (f : Fsm) : Z :=
  match fsm_state f with
  | S_PUSH_WR_DOWN_ISSUE => parent_node f
  | S_PUSH_WR_FINAL_ISSUE | S_POP_SIFT_WR_FINAL_ISSUE => cur_node f
  | S_POP_SIFT_WR_UP_ISSUE => best_node f
  | S_UPDATE_WR_ISSUE => saved_op_data f
  | _ => 0
  end.

Definition fsm_port (f : Fsm) : Port := {|
  priv_we := mem_do_write f && mem_target_priv f;
  priv_re := effective_read f && mem_target_priv f;
  priv_addr := mem_idx f mod 2 ^ 6;
  priv_wdata := mem_wdata f;
  virt_req_valid := (effective_read f || mem_do_write f) && negb (mem_target_priv f);
  virt_req_va := make_va (mem_idx f);
  virt_req_wr := mem_do_write f && negb (mem_target_priv f);
  virt_req_wdata := mem_wdata f
|}.

Definition update_keys_ok (c : Cmd) (f : Fsm) : bool :=
  (order_price (cmd_data_in c) =? order_price (cache_data f 0)) &&
  (order_ts (cmd_data_in c) =? order_ts (cache_data f 0)).

Definition cmd_ready (f : Fsm) : bool := bool_decide (fsm_state f = S_IDLE).
Definition cmd_done (f : Fsm) : bool := bool_decide (fsm_state f = S_DONE).
Definition size_out (f : Fsm) : Z := heap_size f.
Definition cmd_root_out (f : Fsm) : Z :=
  if decide (saved_op f = OP_PEEK) then if cache_valid f 0 then cache_data f 0 else 0
  else popped_root f.

(** ** The next state *)

(** The end of a read and of a write, in either tier. *)
Definition read_done (i : Ins) (f : Fsm) : bool := priv_re_d1 f || virt_resp_valid i.
Definition write_done (i : Ins) (f : Fsm) : bool := priv_we_d1 f || virt_resp_valid i.
Definition rdata (i : Ins) (f : Fsm) : Z := if priv_re_d1 f then priv_rdata i else virt_resp_data i.

(** From an ISSUE state: the tier takes the request. *)
Definition issued (i : Ins) (f : Fsm) (wait : Hstate) : Hstate :=
  if mem_target_priv f then wait else if virt_req_ready i then wait else fsm_state f.

Definition n_state (c : Cmd) (i : Ins) (f : Fsm) : Hstate :=
  match fsm_state f with
  | S_IDLE =>
      if cmd_valid c then
        match cmd_op c with
        | OP_PUSH => S_PUSH_LAUNCH
        | OP_POP => S_POP_LAUNCH
        | OP_PEEK => if cache_valid f 0 then S_DONE else S_PEEK_RD_ISSUE
        | OP_UPDATE => if cache_valid f 0 && update_keys_ok c f then S_UPDATE_WR_ISSUE else S_DONE
        end
      else S_IDLE
  | S_PUSH_LAUNCH => if heap_size f =? 0 then S_PUSH_WR_FINAL_ISSUE else S_PUSH_RD_PARENT_ISSUE
  | S_PUSH_RD_PARENT_ISSUE => if mem_idx_cached f then S_PUSH_DECIDE else issued i f S_PUSH_RD_PARENT_WAIT
  | S_PUSH_RD_PARENT_WAIT =>
      if read_done i f then S_PUSH_DECIDE else if virt_resp_reject i then S_PUSH_RD_PARENT_ISSUE else fsm_state f
  | S_PUSH_DECIDE => if cmp0_result f then S_PUSH_WR_DOWN_ISSUE else S_PUSH_WR_FINAL_ISSUE
  | S_PUSH_WR_DOWN_ISSUE => issued i f S_PUSH_WR_DOWN_WAIT
  | S_PUSH_WR_DOWN_WAIT =>
      if write_done i f then if parent_idx f =? 0 then S_PUSH_WR_FINAL_ISSUE else S_PUSH_RD_PARENT_ISSUE
      else if virt_resp_reject i then S_PUSH_WR_DOWN_ISSUE else fsm_state f
  | S_PUSH_WR_FINAL_ISSUE => issued i f S_PUSH_WR_FINAL_WAIT
  | S_PUSH_WR_FINAL_WAIT =>
      if write_done i f then S_DONE else if virt_resp_reject i then S_PUSH_WR_FINAL_ISSUE else fsm_state f
  | S_POP_LAUNCH =>
      if heap_size f =? 0 then S_DONE
      else if cache_valid f 0 then if heap_size f =? 1 then S_DONE else S_POP_RD_LAST_ISSUE
      else S_POP_RD_ROOT_ISSUE
  | S_POP_RD_ROOT_ISSUE => issued i f S_POP_RD_ROOT_WAIT
  | S_POP_RD_ROOT_WAIT =>
      if read_done i f then if heap_size f =? 1 then S_DONE else S_POP_RD_LAST_ISSUE
      else if virt_resp_reject i then S_POP_RD_ROOT_ISSUE else fsm_state f
  | S_POP_RD_LAST_ISSUE => if mem_idx_cached f then S_POP_SIFT_RD_LEFT_ISSUE else issued i f S_POP_RD_LAST_WAIT
  | S_POP_RD_LAST_WAIT =>
      if read_done i f then S_POP_SIFT_RD_LEFT_ISSUE
      else if virt_resp_reject i then S_POP_RD_LAST_ISSUE else fsm_state f
  | S_POP_SIFT_RD_LEFT_ISSUE =>
      if left_idx f >=? heap_size f then S_POP_SIFT_WR_FINAL_ISSUE
      else if mem_idx_cached f then S_POP_SIFT_RD_RIGHT_ISSUE else issued i f S_POP_SIFT_RD_LEFT_WAIT
  | S_POP_SIFT_RD_LEFT_WAIT =>
      if read_done i f then S_POP_SIFT_RD_RIGHT_ISSUE
      else if virt_resp_reject i then S_POP_SIFT_RD_LEFT_ISSUE else fsm_state f
  | S_POP_SIFT_RD_RIGHT_ISSUE =>
      if right_idx f >=? heap_size f then S_POP_SIFT_DECIDE
      else if mem_idx_cached f then S_POP_SIFT_DECIDE else issued i f S_POP_SIFT_RD_RIGHT_WAIT
  | S_POP_SIFT_RD_RIGHT_WAIT =>
      if read_done i f then S_POP_SIFT_DECIDE
      else if virt_resp_reject i then S_POP_SIFT_RD_RIGHT_ISSUE else fsm_state f
  | S_POP_SIFT_DECIDE =>
      if decide (best f = BEST_CUR) then S_POP_SIFT_WR_FINAL_ISSUE else S_POP_SIFT_WR_UP_ISSUE
  | S_POP_SIFT_WR_UP_ISSUE => issued i f S_POP_SIFT_WR_UP_WAIT
  | S_POP_SIFT_WR_UP_WAIT =>
      if write_done i f then S_POP_SIFT_RD_LEFT_ISSUE
      else if virt_resp_reject i then S_POP_SIFT_WR_UP_ISSUE else fsm_state f
  | S_POP_SIFT_WR_FINAL_ISSUE => issued i f S_POP_SIFT_WR_FINAL_WAIT
  | S_POP_SIFT_WR_FINAL_WAIT =>
      if write_done i f then S_DONE else if virt_resp_reject i then S_POP_SIFT_WR_FINAL_ISSUE else fsm_state f
  | S_PEEK_RD_ISSUE => issued i f S_PEEK_RD_WAIT
  | S_PEEK_RD_WAIT => if read_done i f then S_DONE else if virt_resp_reject i then S_PEEK_RD_ISSUE else fsm_state f
  | S_UPDATE_WR_ISSUE => issued i f S_UPDATE_WR_WAIT
  | S_UPDATE_WR_WAIT =>
      if write_done i f then S_DONE else if virt_resp_reject i then S_UPDATE_WR_ISSUE else fsm_state f
  | S_DONE => S_IDLE
  end.

(** ** The registers *)

(** The last leaf has been read: it takes the place of the root. *)
Definition take_last (v : Z) (f : Fsm) : Fsm :=
  let clear i (cond : bool) f :=
    if cond then set_node_cache_valid (<[i := false]> (node_cache_valid f)) f else f in
  clear 2%nat (heap_size f <=? 3) (clear 1%nat (heap_size f <=? 2) (clear 0%nat true
    (set_size (idx (heap_size f - 1)) (set_right_idx 2 (set_left_idx 1 (set_target_idx 0 (set_cur_node v f))))))).

Definition set_children (i : Z) (f : Fsm) : Fsm :=
  set_target_idx i (set_left_idx (idx (Z.shiftl i 1 + 1)) (set_right_idx (idx (Z.shiftl i 1 + 2)) f)).

Definition registers (c : Cmd) (i : Ins) (f : Fsm) : Fsm :=
  match fsm_state f with
  | S_IDLE =>
      if cmd_valid c then
        let f1 := set_saved_op (cmd_op c) (set_saved_op_data (cmd_data_in c) f) in
        match cmd_op c with
        | OP_PUSH =>
            set_cur_node (cmd_data_in c) (set_target_idx (heap_size f)
              (set_parent_idx (if heap_size f =? 0 then 0 else Z.shiftr (heap_size f - 1) 1) f1))
        | OP_POP =>
            set_target_idx 0 (if cache_valid f 0 then set_popped_root (cache_data f 0) f1 else f1)
        | _ => f1
        end
      else f
  | S_PUSH_RD_PARENT_ISSUE => if mem_idx_cached f then set_parent_node (mem_idx_cache_data f) f else f
  | S_PUSH_RD_PARENT_WAIT => if read_done i f then set_parent_node (rdata i f) f else f
  | S_PUSH_WR_DOWN_WAIT =>
      if write_done i f then
        set_target_idx (parent_idx f)
          (set_parent_idx (if parent_idx f =? 0 then 0 else Z.shiftr (parent_idx f - 1) 1)
            (cache_node (target_idx f) (parent_node f) f))
      else f
  | S_PUSH_WR_FINAL_WAIT =>
      if write_done i f then cache_node (target_idx f) (cur_node f) (set_size (idx (heap_size f + 1)) f) else f
  | S_POP_LAUNCH =>
      if (heap_size f =? 1) && cache_valid f 0 then set_size 0 (set_node_cache_valid [false; false; false] f) else f
  | S_POP_RD_ROOT_WAIT =>
      if read_done i f then
        let f1 := set_popped_root (rdata i f) f in
        if heap_size f =? 1 then set_size 0 (set_node_cache_valid [false; false; false] f1) else f1
      else f
  | S_POP_RD_LAST_ISSUE => if mem_idx_cached f then take_last (mem_idx_cache_data f) f else f
  | S_POP_RD_LAST_WAIT => if read_done i f then take_last (rdata i f) f else f
  | S_POP_SIFT_RD_LEFT_ISSUE =>
      if (left_idx f <? heap_size f) && mem_idx_cached f then set_left_node (mem_idx_cache_data f) f else f
  | S_POP_SIFT_RD_LEFT_WAIT => if read_done i f then set_left_node (rdata i f) f else f
  | S_POP_SIFT_RD_RIGHT_ISSUE =>
      if right_idx f >=? heap_size f then set_has_right false f
      else if mem_idx_cached f then set_right_node (mem_idx_cache_data f) (set_has_right true f) else f
  | S_POP_SIFT_RD_RIGHT_WAIT => if read_done i f then set_right_node (rdata i f) (set_has_right true f) else f
  | S_POP_SIFT_WR_UP_WAIT =>
      if write_done i f then
        set_children (if decide (best f = BEST_LEFT) then left_idx f else right_idx f)
          (cache_node (target_idx f) (best_node f) f)
      else f
  | S_POP_SIFT_WR_FINAL_WAIT => if write_done i f then cache_node (target_idx f) (cur_node f) f else f
  | S_PEEK_RD_WAIT => if read_done i f then cache_node 0 (rdata i f) f else f
  | S_UPDATE_WR_WAIT => if write_done i f then cache_node 0 (saved_op_data f) f else f
  | _ => f
  end.

(** A clock edge. *)
Definition fsm_clock (c : Cmd) (i : Ins) (f : Fsm) : Fsm :=
  set_state (n_state c i f)
    (set_priv_re_d1 (priv_re (fsm_port f)) (set_priv_we_d1 (priv_we (fsm_port f)) (registers c i f))).

End Fsm.

(** ** Fields of nodes *)

Lemma cat_testbit hi n lo i :
  0 <= n -> 0 <= lo < 2 ^ n -> 0 <= i -> Z.testbit (cat hi n lo) i = if i <? n then Z.testbit lo i else Z.testbit hi (i - n).
Proof.
  intros Hn Hlo Hi. unfold cat. rewrite Z.lor_spec, Z.shiftl_spec by done. destruct (Z.ltb_spec i n).
  - by rewrite Z.testbit_neg_r by lia.
  - rewrite <- (Z.mod_small lo (2 ^ n)) by done. by rewrite Z.mod_pow2_bits_high, orb_false_r by lia.
Qed.

(** A field of a concatenation lies in one of its parts. *)
Lemma field_cat_high hi n lo i m :
  0 <= n -> 0 <= lo < 2 ^ n -> n <= i -> 0 <= m -> field (cat hi n lo) i m = field hi (i - n) m.
Proof.
  intros. apply Z.bits_inj'. intros j Hj. rewrite !testbit_field, cat_testbit by lia.
  replace (j + i <? n) with false by lia. do 2 f_equal. lia.
Qed.

Lemma field_cat_low hi n lo i m :
  0 <= lo < 2 ^ n -> 0 <= i -> 0 <= m -> i + m <= n -> field (cat hi n lo) i m = field lo i m.
Proof.
  intros. apply Z.bits_inj'. intros j Hj. rewrite !testbit_field, cat_testbit by lia.
  destruct (Z.ltb_spec j m); [|done]. by replace (j + i <? n) with true by lia.
Qed.

Lemma field_whole v n : 0 <= v < 2 ^ n -> field v 0 n = v.
Proof. intros. unfold field. rewrite Z.shiftr_0_r. by apply Z.mod_small. Qed.

Lemma cat_bound hi n lo m : 0 <= n -> 0 <= m -> 0 <= lo < 2 ^ n -> 0 <= hi < 2 ^ m -> 0 <= cat hi n lo < 2 ^ (m + n).
Proof. intros. unfold cat. rewrite lor_disjoint, Z.pow_add_r by lia. nia. Qed.

(** A change of the amount changes nothing else. *)
Lemma with_amount_fields n v :
  0 <= v < 2 ^ 16 ->
  order_amount (with_amount n v) = v /\ order_price (with_amount n v) = order_price n /\
  order_ts (with_amount n v) = order_ts n /\ order_type (with_amount n v) = order_type n /\
  field (with_amount n v) 32 21 = field n 32 21.
Proof.
  intros Hv. pose proof (field_bound n 0 53 ltac:(lia)). unfold with_amount, order_amount, order_price, order_ts, order_type.
  repeat split.
  - rewrite field_cat_high, field_cat_low by lia. by apply field_whole.
  - rewrite !field_cat_high, field_field by lia. done.
  - rewrite field_cat_low, field_field by lia. done.
  - rewrite !field_cat_high, field_field by lia. done.
  - rewrite field_cat_low, field_field by lia. done.
Qed.

(** The amount does not matter to the order of the heaps. *)
Lemma wins_with_amount k n v m :
  0 <= v < 2 ^ 16 -> wins k (with_amount n v) m = wins k n m /\ wins k m (with_amount n v) = wins k m n.
Proof. intros Hv. destruct (with_amount_fields n v Hv) as (_ & Hp & Ht & _). unfold wins. by rewrite Hp, Ht. Qed.

(** ** Words of a width *)

Create HintDb typed discriminated.

Lemma fits_field w lo n : 0 <= n -> fits n (field w lo n).
Proof. apply field_bound. Qed.

Lemma fits_mod n z : 0 <= n -> fits n (z mod 2 ^ n).
Proof. intros. apply Z.mod_pos_bound. lia. Qed.

Lemma fits_zero n : 0 <= n -> fits n 0.
Proof. intros. split; [done|]. lia. Qed.

Lemma fits_cat hi n lo m : 0 <= n -> 0 <= m -> fits n lo -> fits m hi -> fits (m + n) (cat hi n lo).
Proof. apply cat_bound. Qed.

Lemma fits_if n (b : bool) x y : fits n x -> fits n y -> fits n (if b then x else y).
Proof. by destruct b. Qed.

Lemma fits_idx z : fits 11 (idx z).
Proof. by apply fits_mod. Qed.

(** The parent of a node that is not the root. *)
Lemma fits_parent n z : (z =? 0) = false -> fits n z -> fits n (Z.shiftr (z - 1) 1).
Proof.
  intros Hz%Z.eqb_neq [H0 Hlt]. rewrite Z.shiftr_div_pow2 by lia.
  split; [apply Z.div_pos; lia|]. apply Z.div_lt_upper_bound; lia.
Qed.

Lemma fits_default n o z : 0 <= n -> Forall (fits n) o -> fits n (default 0 (o !! z)).
Proof. intros Hn Ho. destruct (o !! z) eqn:E; cbn; [by eapply Forall_lookup_1|by apply fits_zero]. Qed.

Lemma fits_with_amount n v : fits 86 n -> fits 16 v -> fits 86 (with_amount n v).
Proof.
  intros Hn Hv. unfold with_amount. apply (fits_cat _ 53 _ 33); [done|done|by apply fits_field|].
  apply (fits_cat _ 16 _ 17); [done|done|done|by apply fits_field].
Qed.

#[export] Hint Resolve fits_if fits_idx fits_with_amount : typed.
#[export] Hint Extern 1 (fits _ (field _ _ _)) => apply fits_field; lia : typed.
#[export] Hint Extern 1 (fits _ (_ mod _)) => apply fits_mod; lia : typed.
#[export] Hint Extern 1 (fits _ (Zpos _)) => (split; [lia|reflexivity]) : typed.
#[export] Hint Extern 1 (fits _ 0) => apply fits_zero; lia : typed.
#[export] Hint Resolve fits_parent : typed.
#[export] Hint Extern 1 (fits _ (default 0 (_ !! _))) => apply fits_default; [lia|] : typed.
