(* ===== verification/HwTiers.v ===== *)
(** * HwTiers: the two tiers of an engine's memory

The block RAM and the multiplexer of [hw/heap_engine/symbol_engine.sv] between the
two heaps of an engine and its port of the MMU.  The MMU is a class: what it shows
in a cycle and what a clock edge does to it, with the laws that the engine relies
on.  A request that nobody waits for any more may be under way at any time, because
a sift asks for a child before it looks whether there is one. *)
From S2P Require Import Prelude HwHeap.

(** ** The port of the MMU *)

Record VReq := mkVReq { req_va : Z; req_wr : bool; req_wdata : Z }.

Class MmuPort (V : Type) := {
  mmu_req_ready : V -> VReq -> bool;
  mmu_resp_valid : V -> bool;
  mmu_resp_data : V -> Z;
  mmu_resp_reject : V -> bool;
  mmu_clock : option VReq -> V -> V
}.

(** The part of a virtual address that tells the nodes of one engine apart. *)
Definition va_key (va : Z) : Z := field va 0 11.

(** What a request leaves in the memory. *)
Definition served (r : VReq) (c : Z -> Z) : Z -> Z :=
  fun a => if req_wr r && (a =? va_key (req_va r)) then req_wdata r else c a.

(** The engine has at most one request under way.  [vm_free v c]: none, and the
memory holds [c]; [vm_busy v c r]: the request [r].  [vm_asks]: the requests that the
engine may make.  One of them within [vm_room] that is kept up is answered: [vm_rank] decreases with every cycle that does not bring the
answer closer, also when the MMU rejects it and it is made again. *)
Class MmuLaws (V : Type) `{MmuPort V} := {
  vm_free : V -> (Z -> Z) -> Prop;
  vm_busy : V -> (Z -> Z) -> VReq -> Prop;
  vm_rank : V -> nat;
  vm_room : Z -> Prop;
  vm_asks : VReq -> Prop;
  vm_free_silent v c : vm_free v c -> mmu_resp_valid v = false /\ mmu_resp_reject v = false;
  vm_free_clock v c : vm_free v c -> vm_free (mmu_clock None v) c;
  vm_take v c r : vm_free v c -> vm_asks r ->
    if mmu_req_ready v r then vm_busy (mmu_clock (Some r) v) c r else vm_free (mmu_clock (Some r) v) c;
  vm_take_rank v c r : vm_free v c -> vm_asks r -> vm_room (va_key (req_va r)) -> (vm_rank (mmu_clock (Some r) v) < vm_rank v)%nat;
  vm_wait v c r : vm_busy v c r ->
    if mmu_resp_valid v then
      vm_free (mmu_clock None v) (served r c) /\ (req_wr r = false -> mmu_resp_data v = c (va_key (req_va r)))
    else if mmu_resp_reject v then vm_free (mmu_clock None v) c
    else vm_busy (mmu_clock None v) c r;
  vm_wait_rank v c r : vm_busy v c r -> vm_room (va_key (req_va r)) -> mmu_resp_valid v = false ->
    (vm_rank (mmu_clock None v) < vm_rank v)%nat;
  vm_busy_ends v c r : vm_busy v c r -> mmu_resp_valid v = false -> mmu_resp_reject v = false ->
    (vm_rank (mmu_clock None v) < vm_rank v)%nat
}.

(** ** The tiers *)

Inductive Owner := MMU_IDLE | MMU_BID | MMU_ASK.

#[export] Instance Owner_eq_dec : EqDecision Owner.
Proof. solve_decision. Defined.

(** The block RAM of 128 nodes with its output register, the owner of the port and
the MMU. *)
Record Tiers (V : Type) := mkTiers { bram : list Z; bram_rdata : Z; mmu_owner : Owner; mmu : V }.
Arguments mkTiers {V} _ _ _ _.
Arguments bram {V} _.
Arguments bram_rdata {V} _.
Arguments mmu_owner {V} _.
Arguments mmu {V} _.

Definition idle_port : Port := mkPort false false 0 0 false 0 false 0.

Section Tiers.
Context {V : Type} `{MmuPort V}.

(** ** The block RAM: the asks are in the upper half *)

Definition ask_active (a : Port) : bool := priv_we a || priv_re a.
Definition bram_addr (b a : Port) : Z := if ask_active a then 64 + priv_addr a else priv_addr b.
Definition bram_wdata (b a : Port) : Z := if ask_active a then priv_wdata a else priv_wdata b.

Definition bram_next (b a : Port) (t : Tiers V) : list Z :=
  if priv_we b || priv_we a then <[Z.to_nat (bram_addr b a) := bram_wdata b a]> (bram t) else bram t.
Definition bram_rdata_next (b a : Port) (t : Tiers V) : Z :=
  if priv_re b || priv_re a then default 0 (bram t !! Z.to_nat (bram_addr b a)) else bram_rdata t.

(** ** The multiplexer *)

Definition bid_grant (b : Port) (t : Tiers V) : bool := bool_decide (mmu_owner t = MMU_IDLE) && virt_req_valid b.
Definition ask_grant (b a : Port) (t : Tiers V) : bool :=
  bool_decide (mmu_owner t = MMU_IDLE) && negb (virt_req_valid b) && virt_req_valid a.

Definition port_req (p : Port) : VReq := mkVReq (virt_req_va p) (virt_req_wr p) (virt_req_wdata p).

Definition mmu_req (b a : Port) (t : Tiers V) : option VReq :=
  if bid_grant b t then Some (port_req b) else if ask_grant b a t then Some (port_req a) else None.

Definition bid_virt_req_ready (b : Port) (t : Tiers V) : bool := bid_grant b t && mmu_req_ready (mmu t) (port_req b).
Definition ask_virt_req_ready (b a : Port) (t : Tiers V) : bool :=
  ask_grant b a t && mmu_req_ready (mmu t) (port_req a).

Definition mmu_owner_next (b a : Port) (t : Tiers V) : Owner :=
  match mmu_owner t with
  | MMU_IDLE =>
      if bid_virt_req_ready b t then MMU_BID else if ask_virt_req_ready b a t then MMU_ASK else MMU_IDLE
  | o => if mmu_resp_valid (mmu t) || mmu_resp_reject (mmu t) then MMU_IDLE else o
  end.

(** A clock edge with the requests of the bids and of the asks. *)
Definition tiers_clock (b a : Port) (t : Tiers V) : Tiers V :=
  mkTiers (bram_next b a t) (bram_rdata_next b a t) (mmu_owner_next b a t) (mmu_clock (mmu_req b a t) (mmu t)).

(** What the two heaps see. *)
Definition bid_ins (b : Port) (t : Tiers V) : Ins :=
  let own := bool_decide (mmu_owner t = MMU_BID) in
  mkIns (bram_rdata t) (bid_virt_req_ready b t) (own && mmu_resp_valid (mmu t)) (mmu_resp_data (mmu t))
    (own && mmu_resp_reject (mmu t)).
Definition ask_ins (b a : Port) (t : Tiers V) : Ins :=
  let own := bool_decide (mmu_owner t = MMU_ASK) in
  mkIns (bram_rdata t) (ask_virt_req_ready b a t) (own && mmu_resp_valid (mmu t)) (mmu_resp_data (mmu t))
    (own && mmu_resp_reject (mmu t)).

(** ** One heap alone

The controller of an engine gives a command to one heap at a time; the other one
drives the idle port. *)
Definition ports (k : Kind) (p : Port) : Port * Port :=
  match k with MAX_HEAP => (p, idle_port) | MIN_HEAP => (idle_port, p) end.

Definition lone_clock (k : Kind) (p : Port) (t : Tiers V) : Tiers V :=
  tiers_clock (fst (ports k p)) (snd (ports k p)) t.
Definition lone_ins (k : Kind) (p : Port) (t : Tiers V) : Ins :=
  match k with MAX_HEAP => bid_ins p t | MIN_HEAP => ask_ins idle_port p t end.
Definition owner_of (k : Kind) : Owner := match k with MAX_HEAP => MMU_BID | MIN_HEAP => MMU_ASK end.

Lemma lone_ins_spec k p t :
  lone_ins k p t = mkIns (bram_rdata t)
    (bool_decide (mmu_owner t = MMU_IDLE) && virt_req_valid p && mmu_req_ready (mmu t) (port_req p))
    (bool_decide (mmu_owner t = owner_of k) && mmu_resp_valid (mmu t)) (mmu_resp_data (mmu t))
    (bool_decide (mmu_owner t = owner_of k) && mmu_resp_reject (mmu t)).
Proof.
  destruct k; cbn; unfold bid_ins, ask_ins, bid_virt_req_ready, ask_virt_req_ready, bid_grant, ask_grant; cbn;
    by rewrite ?andb_true_r.
Qed.

(** The position of a private node in the block RAM. *)
Definition slot (k : Kind) (i : Z) : nat := Z.to_nat (64 * HEAP_KIND k + i).

Lemma lone_clock_spec k p t :
  lone_clock k p t = mkTiers
    (if priv_we p then <[slot k (priv_addr p) := priv_wdata p]> (bram t) else bram t)
    (if priv_re p then default 0 (bram t !! slot k (priv_addr p)) else bram_rdata t)
    (match mmu_owner t with
     | MMU_IDLE => if virt_req_valid p && mmu_req_ready (mmu t) (port_req p) then owner_of k else MMU_IDLE
     | o => if mmu_resp_valid (mmu t) || mmu_resp_reject (mmu t) then MMU_IDLE else o
     end)
    (mmu_clock (if bool_decide (mmu_owner t = MMU_IDLE) && virt_req_valid p then Some (port_req p) else None) (mmu t)).
Proof.
  unfold lone_clock, tiers_clock, bram_next, bram_rdata_next, mmu_owner_next, mmu_req, bid_virt_req_ready,
    ask_virt_req_ready, bid_grant, ask_grant, bram_addr, bram_wdata, ask_active, slot.
  destruct k; cbn -[Z.mul Z.add]; rewrite ?orb_false_r, ?andb_false_r, ?andb_true_r; cbn -[Z.mul Z.add];
    replace (64 * 0) with 0 by lia; replace (64 * 1) with 64 by lia; rewrite ?Z.add_0_l;
    destruct (mmu_owner t); cbn -[Z.mul Z.add]; destruct (priv_we p), (priv_re p), (virt_req_valid p);
    cbn -[Z.mul Z.add]; repeat case_match; done.
Qed.

End Tiers.
