(* ===== verification/HwAccess.v ===== *)
(** * HwAccess: one access of a heap to its memory

Every access of the heap machine is an ISSUE state that makes the request and a
WAIT state for its end ([Site]).  [access_leads] shows once for all of them that the
access ends, in either tier, whatever the MMU is still busy with, and what it leaves
in memory. *)
From S2P Require Import Prelude HwHeap HwTiers.

(** ** Addresses *)

Lemma cat_sum hi n lo : 0 <= n -> 0 <= lo < 2 ^ n -> cat hi n lo = hi * 2 ^ n + lo.
Proof. apply lor_disjoint. Qed.

Lemma HEAP_KIND_bound k : 0 <= HEAP_KIND k <= 1.
Proof. destruct k; simpl; lia. Qed.

(** The key of the page table of a node. *)
Definition node_key (k : Kind) (i : Z) : Z := 1024 * HEAP_KIND k + (i - 64) mod 1024.

Lemma make_va_key k e i : va_key (make_va k e i) = node_key k i.
Proof.
  unfold make_va, va_key, node_key, PRIVATE_NODES. change (2 ^ 10) with 1024.
  pose proof (Z.mod_pos_bound (i - 64) 1024 ltac:(lia)). pose proof (HEAP_KIND_bound k).
  rewrite (cat_sum (cat _ _ _) 10) by lia. rewrite (cat_sum _ 19) by lia.
  unfold field. rewrite Z.shiftr_0_r.
  replace ((_ * 2 ^ 19 + _) * 2 ^ 10 + _) with
    (1024 * HEAP_KIND k + (i - 64) mod 1024 + ((e mod 2 ^ 3) * 2 ^ 18) * 2 ^ 11) by (lia).
  rewrite Z_mod_plus_full, Z.mod_small by lia. done.
Qed.

Lemma node_key_inj k k' i j :
  64 <= i < MAX_NODES -> 64 <= j < MAX_NODES -> node_key k i = node_key k' j -> k = k' /\ i = j.
Proof.
  unfold node_key, MAX_NODES. intros Hi Hj. rewrite !(Z.mod_small (_ - 64)) by lia.
  destruct k, k'; simpl; intros; split; done || lia.
Qed.

Lemma slot_inj k k' i j : 0 <= i < 64 -> 0 <= j < 64 -> slot k i = slot k' j -> k = k' /\ i = j.
Proof. unfold slot. destruct k, k'; simpl; intros; split; done || lia. Qed.

(** ** What the tiers hold *)

Section Access.
Context {V : Type} `{MmuLaws V}.
Variable e : Z.
Implicit Types (t : Tiers V) (f : Fsm).

Definition view t (c : Z -> Z) (k : Kind) (i : Z) : Z :=
  if i <? 64 then bram t !!! slot k i else c (node_key k i).

(** A request under way that nobody waits for is a read. *)
Definition tiers_ok t (c : Z -> Z) : Prop :=
  length (bram t) = 128%nat /\
  match mmu_owner t with
  | MMU_IDLE => vm_free (mmu t) c
  | _ => exists r, req_wr r = false /\ vm_busy (mmu t) c r
  end.

(** The node [i] of the heap [k] is [w k i]. *)
Definition holds t (w : Kind -> Z -> Z) : Prop :=
  exists c, tiers_ok t c /\ forall k i, 0 <= i < MAX_NODES -> view t c k i = w k i.

(** The same while the heap [k] waits for the answer to [r]. *)
Definition waits t (w : Kind -> Z -> Z) (k : Kind) (r : VReq) : Prop :=
  exists c, length (bram t) = 128%nat /\ mmu_owner t = owner_of k /\ vm_busy (mmu t) c r /\
    forall k i, 0 <= i < MAX_NODES -> view t c k i = w k i.

Definition upd (w : Kind -> Z -> Z) (k : Kind) (i v : Z) : Kind -> Z -> Z :=
  fun k' j => if decide (k' = k /\ j = i) then v else w k' j.

Lemma holds_ext t w w' :
  (forall k i, 0 <= i < MAX_NODES -> w k i = w' k i) -> holds t w -> holds t w'.
Proof. intros Hw (c & Hok & Hv). exists c. split; [done|]. intros k i Hi. by rewrite Hv, Hw. Qed.

(** A cycle without a write: nothing changes. *)
Lemma tiers_quiet k p t c :
  tiers_ok t c -> priv_we p = false -> (virt_req_valid p = true -> virt_req_wr p = false /\ vm_asks (port_req p)) ->
  tiers_ok (lone_clock k p t) c /\ bram (lone_clock k p t) = bram t.
Proof.
  intros [Hlen Hmmu] Hwe Hrd. rewrite lone_clock_spec, Hwe. cbn. split; [|done]. split; [done|]. cbn.
  destruct (mmu_owner t) eqn:Hown; cbn.
  2,3: destruct Hmmu as (r & Hr & Hb); pose proof (vm_wait (mmu t) c r Hb) as Ht;
    destruct (mmu_resp_valid (mmu t)); cbn;
      [destruct Ht as [Ht _]; unfold served in Ht; by rewrite Hr in Ht
      |destruct (mmu_resp_reject (mmu t)); [done|by exists r]].
  destruct (virt_req_valid p) eqn:Hvalid; cbn; [|by apply vm_free_clock]. destruct (Hrd eq_refl) as [Hwr Hask].
  pose proof (vm_take (mmu t) c (port_req p) Hmmu Hask) as Ht.
  destruct (mmu_req_ready (mmu t) (port_req p)); [|done].
  destruct k; cbn; exists (port_req p); cbn; auto.
Qed.

Lemma holds_quiet k p t w :
  holds t w -> priv_we p = false -> (virt_req_valid p = true -> virt_req_wr p = false /\ vm_asks (port_req p)) ->
  holds (lone_clock k p t) w.
Proof.
  intros (c & Hok & Hv) Hwe Hrd. destruct (tiers_quiet k p t c Hok Hwe Hrd) as [Hok' Hb].
  exists c. split; [done|]. intros k' i Hi. unfold view. rewrite Hb. by apply Hv.
Qed.
(** A write to the block RAM. *)
Lemma holds_priv_write k p t w :
  holds t w -> priv_we p = true -> virt_req_valid p = false -> 0 <= priv_addr p < 64 ->
  holds (lone_clock k p t) (upd w k (priv_addr p) (priv_wdata p)).
Proof.
  intros (c & [Hlen Hmmu] & Hv) Hwe Hvalid Ha.
  set (q := mkPort false false 0 0 false 0 false 0).
  destruct (tiers_quiet k q t c ltac:(done) eq_refl ltac:(done)) as [[_ Hmmu'] _].
  exists c. revert Hmmu'. rewrite !lone_clock_spec, Hwe, Hvalid. cbn. intros Hmmu'. split.
  { split; cbn; [by rewrite length_insert|]. rewrite !andb_false_r in *. exact Hmmu'. }
  intros k' i Hi. specialize (Hv k' i Hi). unfold view, upd in *. cbn.
  clear Hmmu'. destruct (decide (k' = k /\ i = priv_addr p)) as [Hd|Hd]; destruct (i <? 64) eqn:Hi64; try done; try lia.
  - destruct Hd as [-> ->]. apply list_lookup_total_insert_eq. rewrite Hlen. unfold slot.
    pose proof (HEAP_KIND_bound k). lia.
  - rewrite list_lookup_total_insert_ne; [done|]. intros Hs. apply Hd.
    destruct (slot_inj k k' (priv_addr p) i) as [-> ->]; [lia|lia|..]; done.
Qed.

(** *** Requests to the MMU, cycle by cycle *)

(** The port is free: the request is taken, or the MMU is closer to taking it. *)
Lemma request_free k p t w r :
  holds t w -> mmu_owner t = MMU_IDLE -> priv_we p = false -> virt_req_valid p = true -> port_req p = r ->
  vm_asks r -> vm_room (va_key (req_va r)) ->
  (vm_rank (mmu (lone_clock k p t)) < vm_rank (mmu t))%nat /\
  if virt_req_ready (lone_ins k p t) then waits (lone_clock k p t) w k r
  else holds (lone_clock k p t) w /\ mmu_owner (lone_clock k p t) = MMU_IDLE.
Proof.
  intros (c & [Hlen Hf] & Hv) Hown Hwe Hvalid <- Hask Hroom. rewrite lone_ins_spec, lone_clock_spec, Hown, Hwe, Hvalid. cbn.
  rewrite Hown in Hf. split; [by eapply vm_take_rank|].
  pose proof (vm_take (mmu t) c (port_req p) Hf Hask) as Ht.
  destruct (mmu_req_ready (mmu t) (port_req p)).
  - exists c. done.
  - split; [|done]. exists c. done.
Qed.

(** The port is not free: the request is not taken, and the one under way is closer to
its end or ends. *)
Lemma request_stale k p t w :
  holds t w -> mmu_owner t <> MMU_IDLE -> priv_we p = false ->
  virt_req_ready (lone_ins k p t) = false /\ holds (lone_clock k p t) w /\
  (mmu_owner (lone_clock k p t) = MMU_IDLE \/
   mmu_owner (lone_clock k p t) <> MMU_IDLE /\ (vm_rank (mmu (lone_clock k p t)) < vm_rank (mmu t))%nat).
Proof.
  intros (c & Hok & Hv) Hown Hwe. split; [rewrite lone_ins_spec; cbn; by rewrite bool_decide_eq_false_2|].
  set (q := mkPort false (priv_re p) (priv_addr p) 0 false 0 false 0).
  assert (Hq : lone_clock k p t = lone_clock k q t).
  { rewrite !lone_clock_spec, Hwe. cbn. rewrite bool_decide_eq_false_2 by done. by destruct (mmu_owner t). }
  rewrite Hq. split; [apply holds_quiet; [by exists c|done|done]|].
  destruct Hok as [_ Hmmu]. rewrite lone_clock_spec. cbn. rewrite andb_false_r.
  destruct (mmu_owner t); [done|..]; destruct Hmmu as (r & _ & Hb).
  all: destruct (mmu_resp_valid (mmu t)) eqn:Hva; cbn; [by left|];
    destruct (mmu_resp_reject (mmu t)) eqn:Hrj; [by left|]; right; split; [done|]; by eapply vm_busy_ends.
Qed.

(** Waiting for the answer. *)
Lemma request_wait k p t w r i :
  waits t w k r -> priv_we p = false -> virt_req_valid p = false -> va_key (req_va r) = node_key k i ->
  64 <= i < MAX_NODES -> vm_room (va_key (req_va r)) ->
  let t' := lone_clock k p t in let ins := lone_ins k p t in
  if virt_resp_valid ins then
    holds t' (if req_wr r then upd w k i (req_wdata r) else w) /\ (req_wr r = false -> virt_resp_data ins = w k i)
  else (vm_rank (mmu t') < vm_rank (mmu t))%nat /\
    if virt_resp_reject ins then holds t' w /\ mmu_owner t' = MMU_IDLE else waits t' w k r.
Proof.
  intros (c & Hlen & Hown & Hb & Hv) Hwe Hvalid Hkey Hi Hroom. cbn zeta.
  pose proof (vm_wait (mmu t) c r Hb) as Hw. pose proof (vm_wait_rank (mmu t) c r Hb Hroom) as Hrank.
  rewrite lone_ins_spec, lone_clock_spec, Hown, Hwe, Hvalid. cbn. rewrite bool_decide_eq_true_2, andb_false_r by done. cbn.
  destruct (mmu_resp_valid (mmu t)) eqn:Hva; cbn.
  - destruct Hw as [Hf Hdata]. split.
    + exists (served r c). split; [split; [done|]; cbn; by destruct k|]. intros k' j Hj. specialize (Hv k' j Hj).
      unfold view, served, upd in *. cbn. rewrite Hkey.
      destruct (req_wr r); cbn; [|done]. case_decide as Hd; [destruct Hd as [-> ->]|].
      * replace (i <? 64) with false by lia. by rewrite Z.eqb_refl.
      * destruct (j <? 64) eqn:Hj64; [done|]. case_match eqn:Heq; [|done]. apply Z.eqb_eq in Heq.
        destruct Hd. apply node_key_inj in Heq as [-> ->]; [done|lia|lia].
    + intros Hr. rewrite Hdata, Hkey by done. rewrite <- Hv by (unfold MAX_NODES in *; lia). unfold view.
      by replace (i <? 64) with false by lia.
  - split; [auto|]. destruct (mmu_resp_reject (mmu t)); cbn.
    + split; [|by destruct k]. exists c. split; [split; [done|]; cbn; by destruct k|done].
    + exists c. repeat (split; [done|]). split; [by destruct k|]. done.
Qed.

(** ** Accesses *)

(** The requests for the node [i] are among those of the engine, and the MMU has room
for it. *)
Definition may_ask (k : Kind) (i : Z) : Prop := forall wr d, fits 86 d -> vm_asks (mkVReq (make_va k e i) wr d).
Definition roomy (k : Kind) (i : Z) : Prop := vm_room (node_key k i) /\ may_ask k i.

(** The MMU has room for the nodes below [cap]; a sift asks for children of nodes that
have none, so that the engine may ask for twice as many. *)
Record capacity (k : Kind) (cap : Z) : Prop := {
  cap_room i : 64 <= i < cap -> vm_room (node_key k i);
  cap_asks i : 64 <= i < 2 * cap -> may_ask k i
}.

Lemma cap_roomy k cap i : capacity k cap -> 64 <= i < cap -> roomy k i.
Proof. intros Hc Hi. split; [by apply (cap_room _ _ Hc)|apply (cap_asks _ _ Hc); lia]. Qed.


(** A machine without what every clock edge sets. *)
Definition core (f : Fsm) : Fsm := set_state S_IDLE (set_priv_re_d1 false (set_priv_we_d1 false f)).

Definition heap_clock (k : Kind) (c : Cmd) (f : Fsm) (t : Tiers V) : Fsm * Tiers V :=
  let p := fsm_port k e f in (fsm_clock k e c (lone_ins k p t) f, lone_clock k p t).

(** From here [P] is reached before the command ends, whatever is on the command bus
meanwhile. *)
Inductive leads (k : Kind) (P : Fsm -> Tiers V -> Prop) : Fsm -> Tiers V -> Prop :=
| leads_now f t : P f t -> leads k P f t
| leads_next f t :
    fsm_state f <> S_IDLE -> fsm_state f <> S_DONE ->
    (forall c, leads k P (fst (heap_clock k c f t)) (snd (heap_clock k c f t))) -> leads k P f t.

Lemma leads_weaken k (P Q : Fsm -> Tiers V -> Prop) f t :
  (forall f t, P f t -> Q f t) -> leads k P f t -> leads k Q f t.
Proof. intros HPQ. induction 1; [apply leads_now; auto|by apply leads_next]. Qed.

(** The access of the states [issue] and [wait] to the node [i], from a machine like
[f0]: a write of [d] when [wr], else a read; it ends in [nxt] with the registers
[reg v f0], [v] being what was read. *)
Record Site (k : Kind) (issue wait nxt : Hstate) (wr : bool) (i d : Z) (reg : Z -> Fsm -> Fsm) (f0 : Fsm) : Prop := {
  site_issue : issue <> S_IDLE /\ issue <> S_DONE;
  site_wait : wait <> S_IDLE /\ wait <> S_DONE;
  site_asks f : core f = core f0 -> fsm_state f = issue ->
    mem_do_write f = wr /\ mem_do_read f = negb wr /\ (wr = false -> mem_idx_cached f = false) /\
    mem_idx f = i /\ mem_wdata k f = d /\
    forall c ins, n_state k c ins f = issued ins f wait /\ core (registers k c ins f) = core f0;
  site_waits f : core f = core f0 -> fsm_state f = wait ->
    mem_do_write f = false /\ mem_do_read f = false /\
    forall c ins, let done := if wr then write_done ins f else read_done ins f in
      n_state k c ins f = (if done then nxt else if virt_resp_reject ins then issue else wait) /\
      core (registers k c ins f) = core (if done then reg (rdata ins f) f0 else f0)
}.

Lemma core_clock k c ins f : core (fsm_clock k e c ins f) = core (registers k c ins f).
Proof. done. Qed.

Lemma clock_state k c ins f : fsm_state (fsm_clock k e c ins f) = n_state k c ins f.
Proof. done. Qed.

Lemma clock_flags k c ins f :
  priv_re_d1 (fsm_clock k e c ins f) = priv_re (fsm_port k e f) /\
  priv_we_d1 (fsm_clock k e c ins f) = priv_we (fsm_port k e f).
Proof. done. Qed.
(** ** Every access ends *)

Section OneAccess.
Context (k : Kind) (issue wait nxt : Hstate) (wr : bool) (i d : Z) (reg : Z -> Fsm -> Fsm) (f0 : Fsm).
Hypothesis HS : Site k issue wait nxt wr i d reg f0.
Hypothesis Hword : fits 86 d.
Variable P : Fsm -> Tiers V -> Prop.
Variable w : Kind -> Z -> Z.

(** What a write of [d] leaves, or a read. *)
Definition after : Kind -> Z -> Z := if wr then upd w k i d else w.

(** After the access [P] is reached. *)
Hypothesis Hthen : forall f t v,
  fsm_state f = nxt -> core f = core (reg v f0) -> (wr = false -> v = w k i) -> holds t after -> leads k P f t.

Lemma issue_port f :
  core f = core f0 -> fsm_state f = issue ->
  fsm_port k e f = mkPort (wr && (i <? 64)) (negb wr && (i <? 64)) (i mod 2 ^ 6) (mem_wdata k f)
    (negb (i <? 64)) (make_va k e i) (wr && negb (i <? 64)) (mem_wdata k f).
Proof.
  intros Hc Hs. destruct (site_asks _ _ _ _ _ _ _ _ _ HS f Hc Hs) as (Hw & Hr & Hcached & Hi & _ & _).
  unfold fsm_port, effective_read, mem_target_priv, PRIVATE_NODES. rewrite Hw, Hr, Hi.
  destruct wr; [|rewrite Hcached by done]; done.
Qed.

Lemma wait_port f :
  core f = core f0 -> fsm_state f = wait ->
  priv_we (fsm_port k e f) = false /\ priv_re (fsm_port k e f) = false /\ virt_req_valid (fsm_port k e f) = false.
Proof.
  intros Hc Hs. destruct (site_waits _ _ _ _ _ _ _ _ _ HS f Hc Hs) as (Hw & Hr & _).
  unfold fsm_port, effective_read. rewrite Hw, Hr. done.
Qed.

(** One cycle in WAIT. *)
Lemma wait_clock f t :
  core f = core f0 -> fsm_state f = wait ->
  (forall c, leads k P (fst (heap_clock k c f t)) (snd (heap_clock k c f t))) -> leads k P f t.
Proof. intros _ Hs Hnext. apply leads_next; rewrite ?Hs; [apply HS..|done]. Qed.

Lemma issue_clock f t :
  core f = core f0 -> fsm_state f = issue ->
  (forall c, leads k P (fst (heap_clock k c f t)) (snd (heap_clock k c f t))) -> leads k P f t.
Proof. intros _ Hs Hnext. apply leads_next; rewrite ?Hs; [apply HS..|done]. Qed.

(** The block RAM answers in the next cycle. *)
Lemma private_leads f t :
  0 <= i < 64 -> core f = core f0 -> fsm_state f = issue -> holds t w -> leads k P f t.
Proof.
  intros Hi Hc Hs Ht. apply issue_clock; [done..|]. intros c. cbn [heap_clock fst snd].
  pose proof (issue_port f Hc Hs) as Hp.
  destruct (site_asks _ _ _ _ _ _ _ _ _ HS f Hc Hs) as (Hw & Hr & _ & Hidx & Hd & Hn).
  replace (i <? 64) with true in Hp by lia. rewrite andb_true_r, andb_true_r, andb_false_r in Hp.
  rewrite (Z.mod_small i) in Hp by lia. rewrite Hp.
  match goal with |- leads k P ?f1 ?t1 => set (f1' := f1); set (t1' := t1) end.
  assert (Hc1 : core f1' = core f0) by (unfold f1'; rewrite core_clock; apply Hn).
  assert (Hs1 : fsm_state f1' = wait).
  { unfold f1'. rewrite clock_state, (proj1 (Hn _ _)). unfold issued, mem_target_priv. rewrite Hidx.
    unfold PRIVATE_NODES. by replace (i <? 64) with true by lia. }
  assert (priv_re_d1 f1' = negb wr /\ priv_we_d1 f1' = wr) as [Hre Hwe].
  { unfold f1'. rewrite !(proj1 (clock_flags _ _ _ _)), !(proj2 (clock_flags _ _ _ _)), Hp. done. }
  clearbody f1'.
  assert (Ht1 : holds t1' after /\ (wr = false -> bram_rdata t1' = w k i)).
  { unfold after, t1'. destruct wr.
    - split; [|done]. rewrite <- Hd. by apply (holds_priv_write k (mkPort true false i _ _ _ _ _)).
    - split; [by apply holds_quiet|]. intros _. rewrite lone_clock_spec. cbn.
      destruct Ht as (c0 & [Hlen _] & Hv). rewrite <- Hv by (unfold MAX_NODES; lia). unfold view.
      replace (i <? 64) with true by lia. rewrite list_lookup_total_alt.
      destruct (bram t !! slot k i) eqn:Hl; [done|]. apply lookup_ge_None in Hl.
      pose proof (HEAP_KIND_bound k). unfold slot in Hl. lia. }
  destruct Ht1 as [Ht1 Hrd]. apply wait_clock; [done..|]. intros c'. cbn [heap_clock fst snd].
  destruct (wait_port f1' Hc1 Hs1) as (Hpwe & Hpre & Hpv).
  destruct (site_waits _ _ _ _ _ _ _ _ _ HS f1' Hc1 Hs1) as (_ & _ & Hn1).
  destruct (Hn1 c' (lone_ins k (fsm_port k e f1') t1')) as [Hnx Hreg].
  assert (Hdone : (if wr then write_done (lone_ins k (fsm_port k e f1') t1') f1'
                else read_done (lone_ins k (fsm_port k e f1') t1') f1') = true).
  { unfold read_done, write_done. rewrite Hre, Hwe. by destruct wr. }
  rewrite Hdone in Hnx, Hreg.
  apply (Hthen _ _ (rdata (lone_ins k (fsm_port k e f1') t1') f1')); [exact Hnx|exact Hreg|..].
  - intros Hw0. unfold rdata. rewrite Hre, Hw0, lone_ins_spec. cbn. by apply Hrd.
  - apply holds_quiet; [done..|]. by rewrite Hpv.
Qed.

(** A clock of the tiers with the request of the state ISSUE, and without one. *)
Lemma virtual_port f :
  64 <= i -> core f = core f0 -> fsm_state f = issue ->
  let p := fsm_port k e f in
  priv_we p = false /\ priv_re p = false /\ virt_req_valid p = true /\ port_req p = mkVReq (make_va k e i) wr d.
Proof.
  intros Hi Hc Hs. rewrite (issue_port f Hc Hs). replace (i <? 64) with false by lia. cbn.
  rewrite !andb_false_r. repeat (split; [done|]). unfold port_req. cbn. rewrite andb_true_r. f_equal.
  by apply (site_asks _ _ _ _ _ _ _ _ _ HS f Hc Hs).
Qed.

(** A machine in ISSUE whose request is not taken stays as it is; else it waits. *)
Lemma virtual_issue f t c :
  64 <= i -> core f = core f0 -> fsm_state f = issue ->
  let f1 := fst (heap_clock k c f t) in
  core f1 = core f0 /\ priv_re_d1 f1 = false /\ priv_we_d1 f1 = false /\
  fsm_state f1 = if virt_req_ready (lone_ins k (fsm_port k e f) t) then wait else issue.
Proof.
  intros Hi Hc Hs. cbn zeta. cbn [heap_clock fst].
  destruct (site_asks _ _ _ _ _ _ _ _ _ HS f Hc Hs) as (_ & _ & _ & Hidx & _ & Hn).
  destruct (virtual_port f Hi Hc Hs) as (Hpw & Hpr & _).
  split; [rewrite core_clock; apply Hn|].
  destruct (clock_flags k c (lone_ins k (fsm_port k e f) t) f) as [-> ->]. split; [done|]. split; [done|].
  rewrite clock_state, (proj1 (Hn _ _)). unfold issued, mem_target_priv, PRIVATE_NODES. rewrite Hidx.
  replace (i <? 64) with false by lia. by rewrite Hs.
Qed.

Lemma virtual_wait f t c :
  core f = core f0 -> fsm_state f = wait -> priv_re_d1 f = false -> priv_we_d1 f = false ->
  let f1 := fst (heap_clock k c f t) in
  let ins := lone_ins k (fsm_port k e f) t in
  priv_re_d1 f1 = false /\ priv_we_d1 f1 = false /\
  fsm_state f1 = (if virt_resp_valid ins then nxt else if virt_resp_reject ins then issue else wait) /\
  core f1 = core (if virt_resp_valid ins then reg (virt_resp_data ins) f0 else f0).
Proof.
  intros Hc Hs Hre Hwe. cbn zeta. cbn [heap_clock fst].
  destruct (wait_port f Hc Hs) as (Hpw & Hpr & _).
  destruct (clock_flags k c (lone_ins k (fsm_port k e f) t) f) as [-> ->]. split; [done|]. split; [done|].
  destruct (site_waits _ _ _ _ _ _ _ _ _ HS f Hc Hs) as (_ & _ & Hn).
  destruct (Hn c (lone_ins k (fsm_port k e f) t)) as [Hnx Hreg].
  rewrite clock_state, core_clock, Hnx, Hreg. unfold write_done, read_done, rdata. rewrite Hre, Hwe.
  by destruct wr.
Qed.

(** The MMU answers in its own time, after rejections if it likes. *)
Lemma virtual_rounds n :
  64 <= i < MAX_NODES -> roomy k i ->
  (forall f t, (vm_rank (mmu t) < n)%nat -> core f = core f0 -> fsm_state f = issue ->
     holds t w -> mmu_owner t = MMU_IDLE -> leads k P f t) /\
  (forall f t r, (vm_rank (mmu t) < n)%nat -> core f = core f0 -> fsm_state f = wait ->
     priv_re_d1 f = false -> priv_we_d1 f = false -> va_key (req_va r) = node_key k i ->
     req_wr r = wr -> req_wdata r = d -> waits t w k r -> leads k P f t).
Proof.
  intros Hi [Hroom Hask]. induction n as [|n [IHissue IHwait]]; [split; intros; lia|]. split.
  - intros f t Hn Hc Hs Ht Hown. apply issue_clock; [done..|]. intros c.
    destruct (virtual_port f ltac:(lia) Hc Hs) as (Hwe & _ & Hvalid & Hreq).
    destruct (virtual_issue f t c ltac:(lia) Hc Hs) as (Hc1 & Hre & Hwe1 & Hs1).
    destruct (request_free k (fsm_port k e f) t w _ Ht Hown Hwe Hvalid Hreq) as [Hrank Hnext].
    { by apply Hask. }
    { cbn. by rewrite make_va_key. }
    destruct (virt_req_ready _).
    + apply (IHwait _ _ (mkVReq (make_va k e i) wr d)); try done; [cbn [heap_clock snd]; lia|apply make_va_key].
    + destruct Hnext as [Hh Ho]. apply IHissue; try done. cbn [heap_clock snd]. lia.
  - intros f t r Hn Hc Hs Hre Hwe Hkey Hwr Hd Ht. apply wait_clock; [done..|]. intros c.
    destruct (wait_port f Hc Hs) as (Hpw & _ & Hpv).
    destruct (virtual_wait f t c Hc Hs Hre Hwe) as (Hre1 & Hwe1 & Hs1 & Hc1).
    pose proof (request_wait k (fsm_port k e f) t w r i Ht Hpw Hpv Hkey Hi ltac:(by rewrite Hkey)) as Hw. cbn zeta in Hw.
    destruct (virt_resp_valid _).
    + destruct Hw as [Hh Hdata]. eapply Hthen; [exact Hs1|exact Hc1|rewrite <- Hwr; exact Hdata|].
      unfold after. rewrite <- Hwr, <- Hd in *. destruct (req_wr r); exact Hh.
    + destruct Hw as [Hrank Hw]. destruct (virt_resp_reject _).
      * destruct Hw. apply IHissue; try done. cbn [heap_clock snd]. lia.
      * apply (IHwait _ _ r); try done. cbn [heap_clock snd]. lia.
Qed.

(** First a request that is still under way has to end. *)
Lemma virtual_leads f t :
  64 <= i < MAX_NODES -> roomy k i -> core f = core f0 -> fsm_state f = issue ->
  holds t w -> leads k P f t.
Proof.
  intros Hi Hroom. remember (vm_rank (mmu t)) as n eqn:Hn. revert f t Hn.
  induction n as [n IH] using lt_wf_ind. intros f t Hn Hc Hs Ht.
  destruct (decide (mmu_owner t = MMU_IDLE)) as [Hown|Hown].
  - apply (proj1 (virtual_rounds (S n) Hi Hroom)); [lia|done..].
  - apply issue_clock; [done..|]. intros c.
    destruct (virtual_port f ltac:(lia) Hc Hs) as (Hwe & _ & Hvalid & Hreq).
    destruct (virtual_issue f t c ltac:(lia) Hc Hs) as (Hc1 & Hre & Hwe1 & Hs1).
    destruct (request_stale k (fsm_port k e f) t w Ht Hown Hwe) as (Hready & Hh & Hend).
    rewrite Hready in Hs1. destruct Hend as [Ho|[Ho Hrank]].
    + apply (proj1 (virtual_rounds (S (vm_rank (mmu (snd (heap_clock k c f t))))) Hi Hroom)); [lia|done..].
    + eapply (IH (vm_rank (mmu (snd (heap_clock k c f t))))); [|done..]. cbn [heap_clock snd]. lia.
Qed.

Lemma access_leads f t :
  0 <= i < MAX_NODES -> (64 <= i -> roomy k i) -> core f = core f0 -> fsm_state f = issue ->
  holds t w -> leads k P f t.
Proof.
  intros Hi Hroom Hc Hs Ht. destruct (Z.lt_ge_cases i 64); [apply private_leads; [lia|done..]|]. apply virtual_leads; [lia|auto..].
Qed.
End OneAccess.
End Access.
