(* ===== verification/HwSites.v ===== *)
(** * HwSites: the accesses of the heap machine

Each pair of states of [heap_fsm.sv] that asks for a node and waits for it is a
[Site] of [HwAccess]; a read of a node of the top-three cache takes one cycle and no
access. *)
From S2P Require Import Prelude HwHeap HwTiers HwAccess.

#[local] Arguments Z.geb : simpl never.
#[local] Arguments Z.ltb : simpl never.
#[local] Arguments Z.leb : simpl never.
#[local] Arguments Z.eqb : simpl never.
#[local] Arguments Z.mul : simpl never.
#[local] Arguments Z.add : simpl never.
#[local] Arguments Z.sub : simpl never.

Section Sites.
Context {V : Type} `{MmuLaws V}.
Variable e : Z.
Variable k : Kind.
Implicit Types (f : Fsm) (t : Tiers V).

(** A machine that is known up to its state and flip-flops, and evaluation of a clock
edge on it. *)
Ltac machine Hc Hs :=
  match type of Hs with fsm_state ?f = _ => destruct f end; cbn in Hs; subst;
  match type of Hc with core _ = core ?g => destruct g end; cbn in Hc;
  injection Hc as -> -> -> -> -> -> -> -> -> -> -> -> -> -> ->;
  cbn in *; unfold mem_idx_cached, mem_do_write, mem_do_read, mem_wdata, mem_idx, cache_valid, cache_data in *; cbn in *.
Ltac edge :=
  repeat split; try done; unfold n_state, registers, read_done, write_done, rdata; cbn;
  unfold mem_idx_cached, mem_idx_cache_data, mem_idx, cache_node, take_last, set_children, best_node, best, cmp1_result,
    cmp0_result, in_pop_sift, cache_valid, cache_data; cbn;
  repeat match goal with
  | Hx : ?b = true |- context [?b] => rewrite Hx; cbn
  | Hx : ?b = false |- context [?b] => rewrite Hx; cbn
  end;
  repeat case_match; done.
Ltac site_solve := intros; split; [done|done|..]; intros f Hc Hs; machine Hc Hs; edge.
Ltac cached_solve := intros; intros f Hc Hs; machine Hc Hs; edge.

(** A read of a node of the cache. *)
Definition Cached (issue nxt : Hstate) (i : Z) (reg : Z -> Fsm -> Fsm) (f0 : Fsm) : Prop :=
  forall f, core f = core f0 -> fsm_state f = issue ->
    mem_do_write f = false /\ mem_idx f = i /\
    forall c ins, n_state k c ins f = nxt /\ core (registers k c ins f) = core (reg (cache_data f0 i) f0).

Lemma read_wdata f : mem_do_read f = true -> mem_wdata k f = 0.
Proof. unfold mem_do_read, mem_wdata. by destruct (fsm_state f). Qed.

(** A cycle in which the machine needs nothing from memory. *)
Lemma quiet_leads P f t w nxt g :
  fsm_state f <> S_IDLE -> fsm_state f <> S_DONE -> mem_do_write f = false ->
  (mem_do_read f = true -> 64 <= mem_idx f -> may_ask e k (mem_idx f)) ->
  (forall c ins, n_state k c ins f = nxt /\ core (registers k c ins f) = core g) -> holds t w ->
  (forall f' t', fsm_state f' = nxt -> core f' = core g -> holds t' w -> leads e k P f' t') -> leads e k P f t.
Proof.
  intros Hi Hd Hw Hask Hn Ht Hthen. apply leads_next; [done..|]. intros c. cbn [heap_clock fst snd].
  apply Hthen; [rewrite clock_state; apply Hn|rewrite core_clock; apply Hn|].
  apply holds_quiet; [done|unfold fsm_port; cbn; by rewrite Hw|].
  unfold fsm_port, effective_read, mem_target_priv, port_req, PRIVATE_NODES. cbn. rewrite Hw, orb_false_r.
  intros [[Hr _]%andb_true_iff Hv]%andb_true_iff. split; [done|]. rewrite read_wdata by done.
  apply Hask; [done|lia|by split].
Qed.

Lemma read_leads P issue wait nxt i reg f0 f t w :
  (cache_valid f0 i = false -> Site k issue wait nxt false i 0 reg f0) ->
  (cache_valid f0 i = true -> Cached issue nxt i reg f0) ->
  (cache_valid f0 i = true -> cache_data f0 i = w k i) ->
  issue <> S_IDLE -> issue <> S_DONE ->
  0 <= i < MAX_NODES -> (64 <= i -> roomy e k i) -> core f = core f0 -> fsm_state f = issue -> holds t w ->
  (forall f' t', fsm_state f' = nxt -> core f' = core (reg (w k i) f0) -> holds t' w -> leads e k P f' t') ->
  leads e k P f t.
Proof.
  intros Hsite Hcached Hdata Hni Hnd Hi Hroom Hc Hs Ht Hthen. destruct (cache_valid f0 i).
  - destruct (Hcached eq_refl f Hc Hs) as (Hw & Hidx & Hn). rewrite Hdata in Hn by done.
    eapply quiet_leads; rewrite ?Hs, ?Hidx; try done. intros _ H64. by apply Hroom.
  - eapply access_leads; [by apply Hsite|by split| |done..]. intros f' t' v Hs' Hc' Hv Hh.
    rewrite Hv in Hc' by done. by apply Hthen.
Qed.

Lemma cached_push_parent f0 :
  cache_valid f0 (parent_idx f0) = true ->
  Cached S_PUSH_RD_PARENT_ISSUE S_PUSH_DECIDE (parent_idx f0) set_parent_node f0.
Proof. cached_solve. Qed.

Lemma cached_last f0 :
  cache_valid f0 (idx (heap_size f0 - 1)) = true ->
  Cached S_POP_RD_LAST_ISSUE S_POP_SIFT_RD_LEFT_ISSUE (idx (heap_size f0 - 1)) take_last f0.
Proof. cached_solve. Qed.

Lemma cached_left f0 :
  left_idx f0 < heap_size f0 -> cache_valid f0 (left_idx f0) = true ->
  Cached S_POP_SIFT_RD_LEFT_ISSUE S_POP_SIFT_RD_RIGHT_ISSUE (left_idx f0) set_left_node f0.
Proof.
  intros Hlt. assert ((left_idx f0 <? heap_size f0) = true /\ (left_idx f0 >=? heap_size f0) = false) as [? ?] by lia.
  clear Hlt. cached_solve.
Qed.

Definition take_right (v : Z) f : Fsm := set_right_node v (set_has_right true f).

Lemma cached_right f0 :
  right_idx f0 < heap_size f0 -> cache_valid f0 (right_idx f0) = true ->
  Cached S_POP_SIFT_RD_RIGHT_ISSUE S_POP_SIFT_DECIDE (right_idx f0) take_right f0.
Proof.
  intros Hlt. assert ((right_idx f0 >=? heap_size f0) = false) by lia. clear Hlt. unfold take_right. cached_solve.
Qed.

Lemma site_push_parent f0 :
  cache_valid f0 (parent_idx f0) = false ->
  Site k S_PUSH_RD_PARENT_ISSUE S_PUSH_RD_PARENT_WAIT S_PUSH_DECIDE false (parent_idx f0) 0 set_parent_node f0.
Proof. site_solve. Qed.

(** The parent goes down into the hole. *)
Definition go_down f : Fsm :=
  set_target_idx (parent_idx f)
    (set_parent_idx (if parent_idx f =? 0 then 0 else Z.shiftr (parent_idx f - 1) 1)
      (cache_node (target_idx f) (parent_node f) f)).

Lemma site_push_down f0 :
  Site k S_PUSH_WR_DOWN_ISSUE S_PUSH_WR_DOWN_WAIT
    (if parent_idx f0 =? 0 then S_PUSH_WR_FINAL_ISSUE else S_PUSH_RD_PARENT_ISSUE) true
    (target_idx f0) (parent_node f0) (fun _ => go_down) f0.
Proof. unfold go_down, cache_node. site_solve. Qed.

Definition fill f : Fsm := cache_node (target_idx f) (cur_node f) f.

Lemma site_push_final f0 :
  Site k S_PUSH_WR_FINAL_ISSUE S_PUSH_WR_FINAL_WAIT S_DONE true (target_idx f0) (cur_node f0)
    (fun _ f => fill (set_size (idx (heap_size f + 1)) f)) f0.
Proof. unfold fill, cache_node. site_solve. Qed.

Definition empty_heap f : Fsm := set_size 0 (set_node_cache_valid [false; false; false] f).

Lemma site_pop_root f0 :
  cache_valid f0 0 = false ->
  Site k S_POP_RD_ROOT_ISSUE S_POP_RD_ROOT_WAIT
    (if heap_size f0 =? 1 then S_DONE else S_POP_RD_LAST_ISSUE) false 0 0
    (fun v f => if heap_size f =? 1 then empty_heap (set_popped_root v f) else set_popped_root v f) f0.
Proof. unfold empty_heap. site_solve. Qed.

Lemma site_pop_last f0 :
  cache_valid f0 (idx (heap_size f0 - 1)) = false ->
  Site k S_POP_RD_LAST_ISSUE S_POP_RD_LAST_WAIT S_POP_SIFT_RD_LEFT_ISSUE false (idx (heap_size f0 - 1)) 0 take_last f0.
Proof. site_solve. Qed.

Lemma site_left f0 :
  left_idx f0 < heap_size f0 -> cache_valid f0 (left_idx f0) = false ->
  Site k S_POP_SIFT_RD_LEFT_ISSUE S_POP_SIFT_RD_LEFT_WAIT S_POP_SIFT_RD_RIGHT_ISSUE false (left_idx f0) 0
    set_left_node f0.
Proof.
  intros Hlt. assert ((left_idx f0 <? heap_size f0) = true /\ (left_idx f0 >=? heap_size f0) = false) as [? ?] by lia.
  clear Hlt. site_solve.
Qed.

Lemma site_right f0 :
  right_idx f0 < heap_size f0 -> cache_valid f0 (right_idx f0) = false ->
  Site k S_POP_SIFT_RD_RIGHT_ISSUE S_POP_SIFT_RD_RIGHT_WAIT S_POP_SIFT_DECIDE false (right_idx f0) 0 take_right f0.
Proof.
  intros Hlt. assert ((right_idx f0 >=? heap_size f0) = false) by lia. clear Hlt. unfold take_right. site_solve.
Qed.

(** [best] in the states of the sift. *)
Definition sift_best f : Best := best k (set_state S_POP_SIFT_DECIDE f).
Definition sift_node f : Z := if decide (sift_best f = BEST_LEFT) then left_node f else right_node f.
Definition go_up f : Fsm :=
  set_children (if decide (sift_best f = BEST_LEFT) then left_idx f else right_idx f)
    (cache_node (target_idx f) (sift_node f) f).

Lemma site_up f0 :
  Site k S_POP_SIFT_WR_UP_ISSUE S_POP_SIFT_WR_UP_WAIT S_POP_SIFT_RD_LEFT_ISSUE true (target_idx f0) (sift_node f0)
    (fun _ => go_up) f0.
Proof.
  unfold go_up, sift_node, sift_best, best_node, cache_node, best, cmp1_result, cmp0_result, in_pop_sift.
  site_solve.
Qed.

Lemma site_pop_final f0 :
  Site k S_POP_SIFT_WR_FINAL_ISSUE S_POP_SIFT_WR_FINAL_WAIT S_DONE true (target_idx f0) (cur_node f0)
    (fun _ => fill) f0.
Proof. unfold fill, cache_node. site_solve. Qed.

Lemma site_peek f0 :
  cache_valid f0 0 = false ->
  Site k S_PEEK_RD_ISSUE S_PEEK_RD_WAIT S_DONE false 0 0 (cache_node 0) f0.
Proof. unfold cache_node. site_solve. Qed.

Lemma site_update f0 :
  Site k S_UPDATE_WR_ISSUE S_UPDATE_WR_WAIT S_DONE true 0 (saved_op_data f0)
    (fun _ f => cache_node 0 (saved_op_data f) f) f0.
Proof. unfold cache_node. site_solve. Qed.

End Sites.
