(* ===== verification/HwSift.v ===== *)
(** * HwSift: the sifts of the heap machine

The machine moves a hole instead of exchanging nodes: [hole_rep] says which list it
stands for when its node is put into the hole, and the two loops are [up] and [down]
of [HeapModel] on that list. *)
From S2P Require Import Prelude HeapModel HwHeap HwTiers HwAccess HwSites.

#[local] Arguments Nat.mul : simpl never.
#[local] Arguments Z.mul : simpl never.
#[local] Arguments Z.add : simpl never.

Section Sift.
Context {V : Type} `{MmuLaws V}.
Variable e : Z.
Variable k : Kind.
Implicit Types (f g : Fsm) (t : Tiers V) (w : Kind -> Z -> Z) (xs : list Z) (h j : nat) (i v : Z).

(** ** The lists that a machine stands for *)

Definition cache_sized g : Prop := length (node_cache g) = 3%nat /\ length (node_cache_valid g) = 3%nat.

(** At rest: the nodes are [xs], and the cache agrees with them. *)
Record heap_rep g w xs : Prop := {
  rep_size : heap_size g = Z.of_nat (length xs);
  rep_node j : (j < length xs)%nat -> w k (Z.of_nat j) = xs !!! j;
  rep_cached j : cache_valid g (Z.of_nat j) = true ->
    (j < length xs)%nat /\ cache_data g (Z.of_nat j) = xs !!! j;
  rep_arrays : cache_sized g;
  rep_words : Forall (fits 86) xs
}.

(** While it sifts: the nodes but the one at the hole [h], which is in [cur_node].
What the command will answer is [out]. *)
Record hole_rep g w xs h (out : Op * Z) : Prop := {
  hole_at : target_idx g = Z.of_nat h;
  hole_in : (h < length xs)%nat;
  hole_cur : cur_node g = xs !!! h;
  hole_node j : (j < length xs)%nat -> j <> h -> w k (Z.of_nat j) = xs !!! j;
  hole_cached j : cache_valid g (Z.of_nat j) = true ->
    (j < length xs)%nat /\ (j <> h -> cache_data g (Z.of_nat j) = xs !!! j);
  hole_arrays : cache_sized g;
  hole_words : Forall (fits 86) xs;
  hole_out : (saved_op g, popped_root g) = out
}.

(** The end of a command: the machine is at rest with [xs], and the other heap is as
in [w]. *)
Definition done_with w xs (out : Op * Z) f t : Prop :=
  fsm_state f = S_DONE /\ (saved_op f, popped_root f) = out /\
  exists w', holds t w' /\ heap_rep (core f) w' xs /\ forall k' i, k' <> k -> w' k' i = w k' i.

Definition same_other w w' : Prop := forall k' i, k' <> k -> w' k' i = w k' i.

Lemma same_other_upd w i v : same_other w (upd w k i v).
Proof. intros k' j Hk. unfold upd. by rewrite decide_False by tauto. Qed.

Lemma same_other_trans w1 w2 w3 : same_other w1 w2 -> same_other w2 w3 -> same_other w1 w3.
Proof. intros H1 H2 k' i Hk. by rewrite H2, H1. Qed.

(** ** The cache *)

Lemma cache_node_valid g i v j :
  cache_sized g -> 0 <= i ->
  cache_valid (cache_node i v g) (Z.of_nat j) = true -> Z.of_nat j = i \/ cache_valid g (Z.of_nat j) = true.
Proof.
  intros [_ Hlen] Hi. unfold cache_node. destruct (i <? 3) eqn:Hi3; [|by right].
  unfold cache_valid. cbn. destruct (decide (Z.of_nat j = i)); [by left|]. right.
  by rewrite list_lookup_insert_ne in H1 by lia.
Qed.

Lemma cache_node_data g i v j :
  cache_sized g -> 0 <= i -> cache_valid (cache_node i v g) (Z.of_nat j) = true ->
  cache_data (cache_node i v g) (Z.of_nat j) = if decide (Z.of_nat j = i) then v else cache_data g (Z.of_nat j).
Proof.
  intros [Hlen _] Hi. unfold cache_node. destruct (i <? 3) eqn:Hi3.
  - intros _. unfold cache_data. cbn. case_decide as Hj.
    + subst i. by rewrite Hi3, list_lookup_insert_eq by lia.
    + by rewrite list_lookup_insert_ne by lia.
  - intros Hv. rewrite decide_False; [done|]. unfold cache_valid in Hv. intros Hj. rewrite Hj, Hi3 in Hv. done.
Qed.

Lemma cache_node_sized g i v : cache_sized g -> cache_sized (cache_node i v g).
Proof. intros []. unfold cache_node. case_match; [split; cbn; by rewrite length_insert|done]. Qed.

(** ** The hole *)

Lemma upd_here w i v : upd w k i v k i = v.
Proof. unfold upd. by rewrite decide_True. Qed.

Lemma upd_there w (i v j : Z) : i <> j -> upd w k i v k j = w k j.
Proof. intros. unfold upd. by rewrite decide_False by intuition congruence. Qed.

(** The node goes into the hole. *)
Lemma hole_fill g w xs h out :
  hole_rep g w xs h out ->
  let g' := fill (set_size (Z.of_nat (length xs)) g) in
  heap_rep g' (upd w k (target_idx g) (cur_node g)) xs /\ (saved_op g', popped_root g') = out.
Proof.
  intros [Hat Hin Hcur Hnode Hcached Harr Hwords Hout]. cbv zeta. split.
  - split.
    + unfold fill, cache_node. cbn. by destruct (target_idx g <? 3).
    + intros j Hj. destruct (decide (j = h)) as [->|Hne].
      * rewrite Hat, upd_here. done.
      * rewrite upd_there by lia. by apply Hnode.
    + intros j Hv. unfold fill in *. rewrite cache_node_data; cbn; [|done|lia|done].
      apply cache_node_valid in Hv; [|done|cbn; lia]. cbn in Hv. case_decide as Hd.
      * replace j with h by lia. done.
      * destruct Hv as [Hv|Hv]; [done|]. apply Hcached in Hv as [? Hv]. split; [done|]. apply Hv. lia.
    + by apply cache_node_sized.
    + done.
  - unfold fill, cache_node. cbn. by destruct (target_idx g <? 3).
Qed.

(** The node at [p] goes into the hole, which moves to [p]. *)
Lemma hole_move g w xs h p out g' :
  hole_rep g w xs h out -> (p < length xs)%nat -> p <> h ->
  let v := xs !!! p in
  target_idx g' = Z.of_nat p -> cur_node g' = cur_node g ->
  node_cache g' = node_cache (cache_node (target_idx g) v g) ->
  node_cache_valid g' = node_cache_valid (cache_node (target_idx g) v g) ->
  (saved_op g', popped_root g') = (saved_op g, popped_root g) ->
  hole_rep g' (upd w k (target_idx g) v) (exchange xs h p) p out.
Proof.
  intros [Hat Hin Hcur Hnode Hcached Harr Hwords Hout] Hp Hne v Ht Hc Hca Hva Ho.
  assert (Hv : forall j, cache_valid g' (Z.of_nat j) = cache_valid (cache_node (target_idx g) v g) (Z.of_nat j))
    by (intros; unfold cache_valid; by rewrite Hva).
  assert (Hd : forall j, cache_data g' (Z.of_nat j) = cache_data (cache_node (target_idx g) v g) (Z.of_nat j))
    by (intros; unfold cache_data; by rewrite Hca).
  split; rewrite ?exchange_length; try done.
  - rewrite Hc, Hcur, exchange_lookup by done. by rewrite decide_False, decide_True.
  - intros j Hj Hjp. rewrite exchange_lookup by done. case_decide as Hjh.
    + subst j. rewrite Hat, upd_here. done.
    + rewrite decide_False, upd_there by lia. by apply Hnode.
  - intros j. rewrite Hv, Hd. intros Hvj. rewrite cache_node_data by (done || lia).
    apply cache_node_valid in Hvj; [|done|lia]. rewrite Hat in *. split.
    + destruct Hvj as [?|?%Hcached]; [lia|tauto].
    + intros Hjp. rewrite exchange_lookup by (done || lia). case_decide as Hjh.
      * replace j with h by lia. by rewrite decide_True.
      * rewrite !decide_False by lia. destruct Hvj as [?|[_ Hx]%Hcached]; [done|]. apply Hx. lia.
  - destruct Harr. unfold cache_sized. rewrite Hca, Hva. by apply cache_node_sized.
  - by rewrite exchange_perm.
  - by rewrite Ho.
Qed.

(** ** The loops *)

Variable cap : Z.
Hypothesis Hcap : cap <= 1024.
Hypothesis Hroom : capacity e k cap.
Variable w0 : Kind -> Z -> Z.
Variable out : Op * Z.

Lemma core_fill f : core (fill f) = fill (core f).
Proof. unfold fill, cache_node. cbn. by destruct (target_idx f <? 3). Qed.

Lemma word_at xs j : Forall (fits 86) xs -> (j < length xs)%nat -> fits 86 (xs !!! j).
Proof. intros Hw Hj. by apply (Forall_lookup_total_1 _ _ j) in Hw. Qed.

Lemma hole_word g w xs h : hole_rep g w xs h out -> fits 86 (cur_node g).
Proof. intros Hr. rewrite (hole_cur _ _ _ _ _ Hr). apply word_at; apply Hr. Qed.

(** A rest of the machine that is known up to the flip-flops. *)
Ltac same_rep := match goal with Hrep : hole_rep _ _ _ _ _ |- _ => destruct Hrep; split; assumption end.

Lemma idx_small i : 0 <= i < 2048 -> idx i = i.
Proof. apply Z.mod_small. Qed.

(** The end of a sift: the node goes into the hole. *)
Lemma final_leads (issue wait : Hstate) (reg : Fsm -> Fsm) xs h f t w :
  Site k issue wait S_DONE true (target_idx f) (cur_node f) (fun _ f => fill (reg f)) f ->
  core (reg f) = set_size (Z.of_nat (length xs)) (core f) ->
  fsm_state f = issue -> hole_rep (core f) w xs h out -> Z.of_nat (length xs) <= cap -> holds t w ->
  same_other w0 w -> leads e k (done_with w0 xs out) f t.
Proof.
  intros Hsite Hreg Hs Hrep Hlen Ht Hother.
  pose proof (hole_at _ _ _ _ _ Hrep) as Hat. pose proof (hole_in _ _ _ _ _ Hrep) as Hin. cbn in Hat.
  eapply (access_leads e k _ _ _ true _ _ _ f Hsite); [exact (hole_word _ _ _ _ Hrep)| |unfold MAX_NODES; lia|intros; apply (cap_roomy _ _ _ _ Hroom); lia|done..].
  intros f' t' _ Hs' Hc' _ Ht'. apply leads_now. rewrite core_fill, Hreg in Hc'.
  destruct (hole_fill _ _ _ _ _ Hrep) as [Hheap Hout]. rewrite <- Hc' in Hheap, Hout.
  split; [done|]. split; [exact Hout|]. eexists. split; [exact Ht'|]. split; [exact Hheap|].
  eapply same_other_trans; [exact Hother|apply same_other_upd].
Qed.

(** The machine is pushing the node at [h] up. *)
Record push_rep g w xs h : Prop := {
  push_hole : hole_rep g w xs h out;
  push_parent : parent_idx g = Z.of_nat (parent h);
  push_size : heap_size g + 1 = Z.of_nat (length xs)
}.

Lemma push_final_leads xs h f t w :
  fsm_state f = S_PUSH_WR_FINAL_ISSUE -> hole_rep (core f) w xs h out -> heap_size f + 1 = Z.of_nat (length xs) ->
  Z.of_nat (length xs) <= cap -> holds t w -> same_other w0 w -> leads e k (done_with w0 xs out) f t.
Proof.
  intros Hs Hrep Hsize Hlen.
  eapply (final_leads _ _ (fun f => set_size (idx (heap_size f + 1)) f) xs h); [apply site_push_final| |done..].
  rewrite idx_small by lia. by rewrite Hsize.
Qed.

(** The parent is read and compared. *)
Lemma push_compare P xs h f t w :
  (0 < h)%nat -> fsm_state f = S_PUSH_RD_PARENT_ISSUE -> push_rep (core f) w xs h ->
  Z.of_nat (length xs) <= cap -> holds t w ->
  (forall f' t', push_rep (core f') w xs h -> parent_node f' = xs !!! parent h -> holds t' w ->
     fsm_state f' = (if wins k (xs !!! h) (xs !!! parent h) then S_PUSH_WR_DOWN_ISSUE else S_PUSH_WR_FINAL_ISSUE) ->
     leads e k P f' t') ->
  leads e k P f t.
Proof.
  intros Hh Hs Hrep Hlen Ht Hthen. pose proof (parent_lt h Hh) as Hp.
  pose proof (push_hole _ _ _ _ Hrep) as Hhole. pose proof (push_parent _ _ _ _ Hrep) as Hpar. cbn in Hpar.
  pose proof (hole_in _ _ _ _ _ Hhole) as Hin.
  assert (Hnode : w k (parent_idx f) = xs !!! parent h) by (rewrite Hpar; apply (hole_node _ _ _ _ _ Hhole); lia).
  eapply (read_leads e k _ _ _ _ (parent_idx f) set_parent_node f f t w);
    [apply site_push_parent|apply cached_push_parent| |done|done|unfold MAX_NODES; lia|intros; apply (cap_roomy _ _ _ _ Hroom); lia|done..|].
  { intros Hv. rewrite Hnode, Hpar in *. apply (hole_cached _ _ _ _ _ Hhole (parent h) Hv). lia. }
  intros f1 t1 Hs1 Hc1 Ht1. rewrite Hnode in Hc1.
  assert (Hrep1 : push_rep (core f1) w xs h).
  { rewrite Hc1. destruct Hrep as [[]]. split; [split; assumption|assumption..]. }
  assert (Hpn : parent_node f1 = xs !!! parent h) by exact (f_equal parent_node Hc1).
  eapply (quiet_leads e k _ f1 t1 w _ f1);
    [by rewrite Hs1|by rewrite Hs1|unfold mem_do_write; by rewrite Hs1|unfold mem_do_read; by rewrite Hs1| |done|].
  { intros c ins. unfold n_state, registers. rewrite Hs1. split; reflexivity. }
  intros f2 t2 Hs2 Hc2 Ht2. apply Hthen; [by rewrite Hc2| |done|].
  - rewrite <- Hpn. exact (f_equal parent_node Hc2).
  - rewrite Hs2. unfold cmp0_result, in_pop_sift. rewrite Hs1, Hpn.
    by rewrite <- (hole_cur _ _ _ _ _ (push_hole _ _ _ _ Hrep1)).
Qed.

(** The parent goes down. *)
Lemma push_down P xs h f t w :
  (0 < h)%nat -> fsm_state f = S_PUSH_WR_DOWN_ISSUE -> push_rep (core f) w xs h -> parent_node f = xs !!! parent h ->
  Z.of_nat (length xs) <= cap -> holds t w ->
  (forall f' t' w', push_rep (core f') w' (exchange xs h (parent h)) (parent h) -> holds t' w' -> same_other w w' ->
     fsm_state f' = (if decide (parent h = 0%nat) then S_PUSH_WR_FINAL_ISSUE else S_PUSH_RD_PARENT_ISSUE) ->
     leads e k P f' t') ->
  leads e k P f t.
Proof.
  intros Hh Hs [Hrep Hpar Hsize] Hpn Hlen Ht Hthen. pose proof (parent_lt h Hh) as Hp. cbn in Hpar, Hsize.
  pose proof (hole_in _ _ _ _ _ Hrep) as Hin. pose proof (hole_at _ _ _ _ _ Hrep) as Hat. cbn in Hat.
  eapply (access_leads e k _ _ _ true _ _ _ f (site_push_down k f));
    [rewrite Hpn; apply word_at; [exact (hole_words _ _ _ _ _ Hrep)|lia]| |unfold MAX_NODES; lia|intros; apply (cap_roomy _ _ _ _ Hroom); lia|done..].
  intros f' t' _ Hs' Hc' _ Ht'. apply (Hthen f' t' (upd w k (target_idx f) (parent_node f))); [|done|apply same_other_upd|].
  - rewrite Hc'. split; [|cbn|].
    + rewrite Hpn. apply (hole_move (core f)); try done; [lia|lia|..]; rewrite <- ?Hpn; unfold go_down, cache_node; cbn;
        by destruct (target_idx f <? 3).
    + rewrite Hpar. unfold parent at 3.
      destruct (Z.eqb_spec (Z.of_nat (parent h)) 0) as [H0'|H0']; [by replace (parent h) with 0%nat by lia|].
      rewrite Z.shiftr_div_pow2 by lia. rewrite Nat2Z.inj_div. f_equal; lia.
    + rewrite exchange_length, <- Hsize. unfold go_down, cache_node. cbn. by destruct (target_idx f <? 3).
  - rewrite Hs', Hpar. case_decide as Hd; [by rewrite Hd|]. by replace (Z.of_nat (parent h) =? 0) with false by lia.
Qed.

Lemma push_loop_leads fuel : forall xs h f t w,
  (h < fuel)%nat -> (0 < h)%nat -> fsm_state f = S_PUSH_RD_PARENT_ISSUE -> push_rep (core f) w xs h ->
  Z.of_nat (length xs) <= cap -> holds t w -> same_other w0 w ->
  leads e k (done_with w0 (up (wins k) fuel xs h) out) f t.
Proof.
  induction fuel as [|fuel IH]; intros xs h f t w Hf Hh Hs Hrep Hlen Ht Hother; [lia|].
  pose proof (parent_lt h Hh) as Hp. eapply push_compare; [exact Hh|exact Hs|exact Hrep|exact Hlen|exact Ht|].
  clear dependent f. clear dependent t.
  intros f t Hrep Hpn Ht Hs. cbn [up]. rewrite decide_False by lia.
  destruct (wins k (xs !!! h) (xs !!! parent h));
    [|eapply push_final_leads; [exact Hs|apply Hrep|apply Hrep|exact Hlen|exact Ht|exact Hother]].
  eapply push_down; [exact Hh|exact Hs|exact Hrep|exact Hpn|exact Hlen|exact Ht|].
  clear dependent f. clear dependent t.
  intros f t w' Hrep Ht Hother' Hs. pose proof (same_other_trans _ _ _ Hother Hother') as Hother2.
  case_decide as Hd.
  - replace (up _ _ _ _) with (exchange xs h (parent h)) by (destruct fuel; [lia|]; cbn [up]; by rewrite decide_True).
    eapply push_final_leads; [exact Hs|apply Hrep|apply Hrep|by rewrite exchange_length|exact Ht|exact Hother2].
  - eapply IH; [lia|lia|exact Hs|exact Hrep|by rewrite exchange_length|exact Ht|exact Hother2].
Qed.

(** *** Down *)

(** The machine is letting the node at [h] sink. *)
Record sift_rep g w xs h : Prop := {
  sift_hole : hole_rep g w xs h out;
  sift_left : left_idx g = Z.of_nat (2 * h + 1);
  sift_right : right_idx g = Z.of_nat (2 * h + 2);
  sift_size : heap_size g = Z.of_nat (length xs)
}.

(** Both children have been read. *)
Record kids_rep g xs h : Prop := {
  kids_left : left_node g = xs !!! (2 * h + 1)%nat;
  kids_has : has_right g = bool_decide (2 * h + 2 < length xs)%nat;
  kids_right : (2 * h + 2 < length xs)%nat -> right_node g = xs !!! (2 * h + 2)%nat
}.

Lemma sift_final_leads xs h f t w :
  fsm_state f = S_POP_SIFT_WR_FINAL_ISSUE -> sift_rep (core f) w xs h ->
  Z.of_nat (length xs) <= cap -> holds t w -> same_other w0 w -> leads e k (done_with w0 xs out) f t.
Proof.
  intros Hs Hrep Hlen. eapply (final_leads _ _ (fun f => f) xs h); [apply site_pop_final| |done|apply Hrep|done].
  pose proof (sift_size _ _ _ _ Hrep) as Hsize. cbn in Hsize. rewrite <- Hsize. done.
Qed.

(** The left child is read, which exists. *)
Lemma sift_read_left P xs h f t w :
  (2 * h + 1 < length xs)%nat -> fsm_state f = S_POP_SIFT_RD_LEFT_ISSUE -> sift_rep (core f) w xs h ->
  Z.of_nat (length xs) <= cap -> holds t w ->
  (forall f' t', fsm_state f' = S_POP_SIFT_RD_RIGHT_ISSUE -> sift_rep (core f') w xs h ->
     left_node f' = xs !!! (2 * h + 1)%nat -> holds t' w -> leads e k P f' t') ->
  leads e k P f t.
Proof.
  intros Hl Hs Hrep Hlen Ht Hthen. pose proof (sift_hole _ _ _ _ Hrep) as Hhole.
  pose proof (sift_left _ _ _ _ Hrep) as Hleft. pose proof (sift_size _ _ _ _ Hrep) as Hsize. cbn in Hleft, Hsize.
  assert (Hnode : w k (left_idx f) = xs !!! (2 * h + 1)%nat)
    by (rewrite Hleft; apply (hole_node _ _ _ _ _ Hhole); lia).
  eapply (read_leads e k _ _ _ _ (left_idx f) set_left_node f f t w);
    [apply site_left; lia|apply cached_left; lia| |done|done|unfold MAX_NODES; lia|intros; apply (cap_roomy _ _ _ _ Hroom); lia|done..|].
  { intros Hv. rewrite Hnode, Hleft in *. apply (hole_cached _ _ _ _ _ Hhole _ Hv). lia. }
  intros f1 t1 Hs1 Hc1 Ht1. rewrite Hnode in Hc1. apply Hthen; [done| |exact (f_equal left_node Hc1)|done].
  rewrite Hc1. destruct Hrep as [[]]. split; [split; assumption|assumption..].
Qed.

(** The right child is read, or there is none. *)
Lemma sift_read_right P xs h f t w :
  (2 * h + 1 < length xs)%nat -> fsm_state f = S_POP_SIFT_RD_RIGHT_ISSUE -> sift_rep (core f) w xs h -> left_node f = xs !!! (2 * h + 1)%nat ->
  Z.of_nat (length xs) <= cap -> holds t w ->
  (forall f' t', fsm_state f' = S_POP_SIFT_DECIDE -> sift_rep (core f') w xs h -> kids_rep (core f') xs h ->
     holds t' w -> leads e k P f' t') ->
  leads e k P f t.
Proof.
  intros Hl Hs Hrep Hln Hlen Ht Hthen. pose proof (sift_hole _ _ _ _ Hrep) as Hhole.
  pose proof (sift_right _ _ _ _ Hrep) as Hright. pose proof (sift_size _ _ _ _ Hrep) as Hsize. cbn in Hright, Hsize.
  destruct (decide (2 * h + 2 < length xs)%nat) as [Hr|Hr].
  - assert (Hnode : w k (right_idx f) = xs !!! (2 * h + 2)%nat)
      by (rewrite Hright; apply (hole_node _ _ _ _ _ Hhole); lia).
    eapply (read_leads e k _ _ _ _ (right_idx f) take_right f f t w);
      [apply site_right; lia|apply cached_right; lia| |done|done|unfold MAX_NODES; lia|intros; apply (cap_roomy _ _ _ _ Hroom); lia|done..|].
    { intros Hv. rewrite Hnode, Hright in *. apply (hole_cached _ _ _ _ _ Hhole _ Hv). lia. }
    intros f1 t1 Hs1 Hc1 Ht1. rewrite Hnode in Hc1. apply Hthen; [done|rewrite Hc1..|done].
    + destruct Hrep as [[]]. split; [split; assumption|assumption..].
    + split; cbn; [done|by rewrite bool_decide_eq_true_2|done].
  - eapply (quiet_leads e k _ f t w S_POP_SIFT_DECIDE (set_has_right false f));
      [by rewrite Hs|by rewrite Hs|unfold mem_do_write; by rewrite Hs| | |done|].
    { intros _. unfold mem_idx. rewrite Hs. intros. apply (cap_asks _ _ _ Hroom). lia. }
    { intros c ins. unfold n_state, registers. rewrite Hs. by replace (right_idx f >=? heap_size f) with true by lia. }
    intros f1 t1 Hs1 Hc1 Ht1. apply Hthen; [done|rewrite Hc1..|done].
    + destruct Hrep as [[]]. split; [split; assumption|assumption..].
    + split; cbn; [done|by rewrite bool_decide_eq_false_2|lia].
Qed.

(** The comparators choose the child that the list model chooses. *)
Lemma sift_best_of xs h f w :
  (2 * h + 1 < length xs)%nat -> sift_rep (core f) w xs h -> kids_rep (core f) xs h ->
  best_of (wins k) xs h = match sift_best k f with
    | BEST_CUR => h | BEST_LEFT => (2 * h + 1)%nat | BEST_RIGHT => (2 * h + 2)%nat end.
Proof.
  intros Hl [Hhole Hleft Hright Hsize] [Hln Hhas Hrn]. pose proof (hole_cur _ _ _ _ _ Hhole) as Hcur. cbn in *.
  unfold sift_best, best, cmp1_result, cmp0_result, in_pop_sift, best_of. cbn.
  rewrite Hhas, Hln, Hcur, Hleft, Hright, Hsize, (decide_True (P := (2 * h + 1 < length xs)%nat)) by done.
  rewrite (proj2 (Z.ltb_lt (Z.of_nat (2 * h + 1)) (Z.of_nat (length xs)))) by lia. cbn.
  destruct (decide (2 * h + 2 < length xs)%nat) as [Hr|Hr].
  - rewrite bool_decide_eq_true_2, Hrn, (proj2 (Z.ltb_lt (Z.of_nat (2 * h + 2)) _)) by (done || lia). cbn.
    by repeat case_match.
  - rewrite bool_decide_eq_false_2 by done. cbn. by repeat case_match.
Qed.

(** The better child goes up. *)
Lemma sift_up P xs h f t w :
  let b := best_of (wins k) xs h in
  b <> h -> fsm_state f = S_POP_SIFT_WR_UP_ISSUE -> (2 * h + 1 < length xs)%nat ->
  sift_rep (core f) w xs h -> kids_rep (core f) xs h -> Z.of_nat (length xs) < cap -> holds t w ->
  (forall f' t' w', fsm_state f' = S_POP_SIFT_RD_LEFT_ISSUE -> sift_rep (core f') w' (exchange xs h b) b ->
     holds t' w' -> same_other w w' -> leads e k P f' t') ->
  leads e k P f t.
Proof.
  intros b Hb Hs Hl Hrep Hkids Hlen Ht Hthen. pose proof (sift_best_of xs h f w Hl Hrep Hkids) as Hbest. fold b in Hbest.
  pose proof (best_of_cases (wins k) xs h) as Hcases. fold b in Hcases.
  destruct Hrep as [Hhole Hleft Hright Hsize]. destruct Hkids as [Hln Hhas Hrn].
  pose proof (hole_in _ _ _ _ _ Hhole) as Hin. pose proof (hole_at _ _ _ _ _ Hhole) as Hat. cbn in *.
  assert (Hnode : sift_node k f = xs !!! b /\ (if decide (sift_best k f = BEST_LEFT) then left_idx f else right_idx f) = Z.of_nat b /\ (b < length xs)%nat).
  { unfold sift_node. destruct (sift_best k f); [done|..].
    - rewrite !decide_True by done. rewrite Hbest at 1. split; [done|]. split; [congruence|lia].
    - rewrite !decide_False by done. split; [rewrite Hbest; apply Hrn; lia|]. split; [congruence|lia]. }
  destruct Hnode as (Hnode & Hchild & Hblen).
  eapply (access_leads e k _ _ _ true _ _ _ f (site_up k f));
    [rewrite Hnode; apply word_at; [exact (hole_words _ _ _ _ _ Hhole)|lia]| |unfold MAX_NODES; lia|intros; apply (cap_roomy _ _ _ _ Hroom); lia|done..].
  intros f' t' _ Hs' Hc' _ Ht'. apply (Hthen f' t' (upd w k (target_idx f) (sift_node k f))); [done| |done|apply same_other_upd].
  rewrite Hc'. unfold go_up. rewrite Hchild, Hnode. split.
  - apply (hole_move (core f)); try done; unfold set_children, cache_node; cbn; by destruct (target_idx f <? 3).
  - cbn. rewrite Z.shiftl_mul_pow2, idx_small by lia. lia.
  - cbn. rewrite Z.shiftl_mul_pow2, idx_small by lia. lia.
  - rewrite exchange_length, <- Hsize. unfold set_children, cache_node. cbn. by destruct (target_idx f <? 3).
Qed.
(** No left child: the machine leaves the loop. *)
Lemma sift_bottom P xs h f t w :
  (length xs <= 2 * h + 1)%nat -> fsm_state f = S_POP_SIFT_RD_LEFT_ISSUE -> sift_rep (core f) w xs h ->
  Z.of_nat (length xs) <= cap -> holds t w ->
  (forall f' t', fsm_state f' = S_POP_SIFT_WR_FINAL_ISSUE -> sift_rep (core f') w xs h -> holds t' w ->
     leads e k P f' t') ->
  leads e k P f t.
Proof.
  intros Hl Hs Hrep Hlen Ht Hthen. pose proof (sift_left _ _ _ _ Hrep) as Hleft. pose proof (sift_size _ _ _ _ Hrep) as Hsize.
  pose proof (hole_in _ _ _ _ _ (sift_hole _ _ _ _ Hrep)) as Hin. cbn in Hleft, Hsize.
  eapply (quiet_leads e k _ f t w S_POP_SIFT_WR_FINAL_ISSUE f);
    [by rewrite Hs|by rewrite Hs|unfold mem_do_write; by rewrite Hs| | |done|].
  - intros _. unfold mem_idx. rewrite Hs. intros. apply (cap_asks _ _ _ Hroom). lia.
  - intros c ins. unfold n_state, registers. rewrite Hs. replace (left_idx f >=? heap_size f) with true by lia.
    by replace (left_idx f <? heap_size f) with false by lia.
  - intros f1 t1 Hs1 Hc1 Ht1. apply Hthen; [done|by rewrite Hc1|done].
Qed.

(** The decision. *)
Lemma sift_decide P xs h f t w :
  (2 * h + 1 < length xs)%nat -> fsm_state f = S_POP_SIFT_DECIDE -> sift_rep (core f) w xs h -> kids_rep (core f) xs h ->
  holds t w ->
  (forall f' t', sift_rep (core f') w xs h -> kids_rep (core f') xs h -> holds t' w ->
     fsm_state f' = (if decide (best_of (wins k) xs h = h) then S_POP_SIFT_WR_FINAL_ISSUE else S_POP_SIFT_WR_UP_ISSUE) ->
     leads e k P f' t') ->
  leads e k P f t.
Proof.
  intros Hl Hs Hrep Hkids Ht Hthen. pose proof (sift_best_of xs h f w Hl Hrep Hkids) as Hbest.
  eapply (quiet_leads e k _ f t w _ f); [by rewrite Hs|by rewrite Hs|unfold mem_do_write; by rewrite Hs|unfold mem_do_read; by rewrite Hs| |done|].
  - intros c ins. unfold n_state, registers. rewrite Hs. split; reflexivity.
  - intros f1 t1 Hs1 Hc1 Ht1. apply Hthen; [by rewrite Hc1|by rewrite Hc1|done|]. rewrite Hs1, Hbest.
    replace (best k f) with (sift_best k f) by (unfold sift_best, best, cmp1_result, cmp0_result, in_pop_sift; by rewrite Hs).
    destruct (sift_best k f); [by rewrite !decide_True|rewrite !decide_False by (done || lia); done..].
Qed.

Lemma sift_loop_leads fuel : forall xs h f t w,
  (length xs - h < fuel)%nat -> fsm_state f = S_POP_SIFT_RD_LEFT_ISSUE -> sift_rep (core f) w xs h ->
  Z.of_nat (length xs) < cap -> holds t w -> same_other w0 w ->
  leads e k (done_with w0 (down (wins k) fuel xs h) out) f t.
Proof.
  induction fuel as [|fuel IH]; intros xs h f t w Hf Hs Hrep Hlen Ht Hother; [lia|].
  pose proof (hole_in _ _ _ _ _ (sift_hole _ _ _ _ Hrep)) as Hin. cbn [down]. rewrite decide_True by done.
  assert (Hle : Z.of_nat (length xs) <= cap) by lia.
  destruct (le_lt_dec (length xs) (2 * h + 1)) as [Hl|Hl].
  { assert (best_of (wins k) xs h = h) as -> by (pose proof (best_of_cases (wins k) xs h); lia).
    rewrite decide_True by done. eapply sift_bottom; [exact Hl|exact Hs|exact Hrep|exact Hle|exact Ht|].
    intros f1 t1 Hs1 Hrep1 Ht1. by eapply sift_final_leads. }
  eapply sift_read_left; [exact Hl|exact Hs|exact Hrep|exact Hle|exact Ht|]. clear dependent f. clear dependent t.
  intros f t Hs Hrep Hln Ht. eapply sift_read_right; [exact Hl|exact Hs|exact Hrep|exact Hln|exact Hle|exact Ht|].
  clear dependent f. clear dependent t. intros f t Hs Hrep Hkids Ht.
  eapply sift_decide; [exact Hl|exact Hs|exact Hrep|exact Hkids|exact Ht|]. clear dependent f. clear dependent t.
  intros f t Hrep Hkids Ht Hs. case_decide as Hb; [by eapply sift_final_leads|].
  eapply sift_up; [exact Hb|exact Hs|exact Hl|exact Hrep|exact Hkids|exact Hlen|exact Ht|].
  clear dependent f. clear dependent t. intros f t w' Hs Hrep Ht Hother'.
  pose proof (best_of_cases (wins k) xs h) as Hcases.
  eapply IH; [rewrite exchange_length; lia|exact Hs|exact Hrep|by rewrite exchange_length|exact Ht|].
  by eapply same_other_trans.
Qed.
End Sift.
