(* ===== verification/HwCommand.v ===== *)
(** * HwCommand: the commands of the heap machine

What each command does, from the idle state to [S_DONE]: [OP_PUSH] and [OP_POP]
compute [push_heap] and [pop_heap] of [HeapModel], [OP_PEEK] shows the root and
[OP_UPDATE] replaces it, when its price and time stamp stay. *)
From S2P Require Import Prelude HeapModel HwHeap HwTiers HwAccess HwSites HwSift.

#[local] Arguments Nat.mul : simpl never.

Section Commands.
Context {V : Type} `{MmuLaws V}.
Variable e : Z.
Variable k : Kind.
Variable cap : Z.
Hypothesis Hcap : cap <= 1024.
Hypothesis Hroom : capacity e k cap.
Implicit Types (f g : Fsm) (t : Tiers V) (w : Kind -> Z -> Z) (xs : list Z) (h j : nat) (i v : Z).

(** The clock edge that takes a command. *)
Lemma idle_clock P c f t w g st :
  fsm_state f = S_IDLE -> holds t w -> (forall ins, n_state k c ins f = st /\ core (registers k c ins f) = core g) ->
  (forall f' t', fsm_state f' = st -> core f' = core g -> holds t' w -> leads e k P f' t') ->
  leads e k P (fst (heap_clock e k c f t)) (snd (heap_clock e k c f t)).
Proof.
  intros Hs Ht Hn Hthen. cbn [heap_clock fst snd]. apply Hthen; [rewrite clock_state; apply Hn|rewrite core_clock; apply Hn|].
  apply holds_quiet; [done|..]; unfold fsm_port, effective_read, mem_do_write, mem_do_read; cbn; by rewrite Hs.
Qed.

(** ** PUSH *)

Definition pushing v f : Fsm :=
  set_cur_node v (set_target_idx (heap_size f)
    (set_parent_idx (if heap_size f =? 0 then 0 else Z.shiftr (heap_size f - 1) 1)
      (set_saved_op OP_PUSH (set_saved_op_data v f)))).

Lemma pushing_hole f w xs v :
  fits 86 v -> heap_rep k (core f) w xs ->
  hole_rep k (core (pushing v f)) w (xs ++ [v]) (length xs) (OP_PUSH, popped_root f).
Proof.
  intros Hword [Hsize Hnode Hcached Harr Hwords]. cbn in Hsize. split; cbn; try done.
  - rewrite length_app. simpl. lia.
  - by rewrite lookup_total_app_r, Nat.sub_diag by lia.
  - intros j Hj Hne. rewrite length_app in Hj. simpl in Hj. rewrite lookup_total_app_l by lia. apply Hnode. lia.
  - intros j Hv. destruct (Hcached j Hv) as [Hj Hd]. rewrite length_app. simpl. split; [lia|]. intros _.
    by rewrite lookup_total_app_l by lia.
  - apply Forall_app. by split; [|apply Forall_singleton].
Qed.

Lemma push_leads f t w xs v :
  fsm_state f = S_IDLE -> heap_rep k (core f) w xs -> holds t w -> Z.of_nat (length xs) < cap -> fits 86 v ->
  let c := mkCmd true OP_PUSH v in
  leads e k (done_with k w (push_heap (wins k) xs v) (OP_PUSH, popped_root f))
    (fst (heap_clock e k c f t)) (snd (heap_clock e k c f t)).
Proof.
  intros Hs Hrep Ht Hlen Hword c. pose proof (rep_size _ _ _ _ Hrep) as Hsize. cbn in Hsize.
  apply (idle_clock _ c f t w (pushing v f) S_PUSH_LAUNCH Hs Ht).
  { intros ins. unfold n_state, registers. rewrite Hs. done. }
  intros f1 t1 Hs1 Hc1 Ht1.
  assert (Hsize1 : heap_size f1 = Z.of_nat (length xs)) by (rewrite <- Hsize; exact (f_equal heap_size Hc1)).
  eapply (quiet_leads e k _ f1 t1 w _ f1); [by rewrite Hs1|by rewrite Hs1|unfold mem_do_write; by rewrite Hs1|unfold mem_do_read; by rewrite Hs1| |done|].
  { intros c' ins. unfold n_state, registers. rewrite Hs1, Hsize1. split; reflexivity. }
  intros f2 t2 Hs2 Hc2 Ht2. rewrite Hc1 in Hc2.
  assert (Hhole : hole_rep k (core f2) w (xs ++ [v]) (length xs) (OP_PUSH, popped_root f)).
  { rewrite Hc2. by apply pushing_hole. }
  assert (Hsize2 : heap_size f2 + 1 = Z.of_nat (length (xs ++ [v]))).
  { rewrite length_app. change (heap_size (core f2) + 1 = Z.of_nat (length xs + 1)). rewrite Hc2. cbn. lia. }
  assert (Hcap' : Z.of_nat (length (xs ++ [v])) <= cap) by (rewrite length_app; simpl; lia).
  unfold push_heap. destruct xs as [|x xs].
  - cbn [up length]. rewrite decide_True by done. eapply push_final_leads; try done.
  - replace (Z.of_nat (length (x :: xs)) =? 0) with false in Hs2 by (simpl; lia).
    eapply push_loop_leads; [exact Hcap|exact Hroom|lia|simpl; lia|exact Hs2| |exact Hcap'|exact Ht2|done].
    split; [exact Hhole| |exact Hsize2].
    rewrite Hc2. cbn. rewrite Hsize. unfold parent. replace (Z.of_nat (length (x :: xs)) =? 0) with false by (simpl; lia).
    rewrite Z.shiftr_div_pow2, Nat2Z.inj_div by lia. f_equal; simpl; lia.
Qed.
(** ** POP *)

Definition popping f : Fsm :=
  let f1 := set_saved_op OP_POP (set_saved_op_data 0 f) in
  set_target_idx 0 (if cache_valid f 0 then set_popped_root (cache_data f 0) f1 else f1).

Ltac take_last_cases f := unfold take_last; destruct (heap_size f <=? 3), (heap_size f <=? 2).

(** What [take_last] leaves of the cache: nothing of the root, nor of the last leaf. *)
Lemma take_last_cache f v j :
  cache_sized f -> cache_valid (take_last v f) (Z.of_nat j) = true ->
  (0 < j)%nat /\ (j = 1%nat -> 2 < heap_size f) /\ (j = 2%nat -> 3 < heap_size f) /\ (j < 3)%nat /\
  cache_valid f (Z.of_nat j) = true /\ cache_data (take_last v f) (Z.of_nat j) = cache_data f (Z.of_nat j).
Proof.
  intros [_ Hlen] Hvalid. assert (Hj : (j < 3)%nat) by (unfold cache_valid in Hvalid; lia).
  revert Hvalid. unfold take_last, cache_valid, cache_data.
  destruct (node_cache_valid f) as [|a [|b [|c [|? ?]]]] eqn:Hv; try done.
  destruct (Z.leb_spec (heap_size f) 3), (Z.leb_spec (heap_size f) 2); cbn; rewrite ?Hv; cbn;
    destruct j as [|[|[|j]]]; cbn; try done; intros; repeat split; try done; lia.
Qed.

(** The machine has read the root and the last leaf. *)
Lemma take_last_rep f w xs :
  heap_rep k (core f) w xs -> (1 < length xs)%nat -> Z.of_nat (length xs) <= cap ->
  sift_rep k (saved_op f, popped_root f) (core (take_last (xs !!! (length xs - 1)%nat) f)) w (pop_rest xs) 0.
Proof.
  intros [Hsize Hnode Hcached Harr Hwords] Hlen Hmax. cbn in Hsize. set (v := xs !!! _).
  assert (Hrest : length (pop_rest xs) = (length xs - 1)%nat) by apply pop_rest_length.
  assert (Hlook : forall j, (0 < j < length xs - 1)%nat -> pop_rest xs !!! j = xs !!! j).
  { intros j Hj. unfold pop_rest. rewrite list_lookup_total_insert_ne by lia.
    rewrite !list_lookup_total_alt, lookup_take_lt by lia. done. }
  split.
  2-4: take_last_cases f; cbn; rewrite ?Hrest, ?Hsize, ?idx_small; lia.
  split.
  - by take_last_cases f.
  - lia.
  - replace (cur_node _) with v by (by take_last_cases f).
    unfold pop_rest. by rewrite list_lookup_total_insert_eq by (rewrite length_take; lia).
  - intros j Hj Hne. rewrite Hlook by lia. apply Hnode. lia.
  - intros j Hv. destruct (take_last_cache f v j Harr Hv) as (Hj0 & Hj1 & Hj2 & Hj3 & Hvf & Hd).
    destruct (Hcached j Hvf) as [Hj Hdata]. change (cache_data (core f)) with (cache_data f) in Hdata.
    assert (j < length xs - 1)%nat by lia. split; [lia|]. intros _. rewrite Hlook by lia.
    rewrite <- Hdata. exact Hd.
  - destruct Harr as [Ha Hb]. unfold cache_sized. take_last_cases f; cbn; rewrite ?length_insert; done.
  - unfold pop_rest. apply Forall_insert; [by apply Forall_take|]. apply word_at; [done|lia].
  - by take_last_cases f.
Qed.

Lemma empty_rep f w : cache_sized f -> heap_rep k (core (empty_heap f)) w [].
Proof.
  intros [Ha Hb]. split; cbn; [done|simpl; lia| |by split|done].
  intros j. unfold cache_valid. cbn. intros [_ Hv]%andb_true_iff. by destruct (Z.to_nat (Z.of_nat j)) as [|[|[|?]]].
Qed.

(** The last leaf is read and the sift runs. *)
Lemma pop_tail_leads f t w xs :
  fsm_state f = S_POP_RD_LAST_ISSUE -> heap_rep k (core f) w xs -> (1 < length xs)%nat -> Z.of_nat (length xs) <= cap ->
  holds t w -> leads e k (done_with k w (pop_heap (wins k) xs) (saved_op f, popped_root f)) f t.
Proof.
  intros Hs Hrep Hlen Hmax Ht. pose proof (rep_size _ _ _ _ Hrep) as Hsize. cbn in Hsize.
  assert (Hidx : idx (heap_size f - 1) = Z.of_nat (length xs - 1)) by (rewrite Hsize, idx_small; lia).
  assert (Hnode : w k (idx (heap_size f - 1)) = xs !!! (length xs - 1)%nat) by (rewrite Hidx; apply Hrep; lia).
  eapply (read_leads e k _ _ _ _ (idx (heap_size f - 1)) take_last f f t w);
    [apply site_pop_last|apply cached_last| |done|done|unfold MAX_NODES; lia|intros; apply (cap_roomy _ _ _ _ Hroom); lia|done..|].
  { intros Hv. rewrite Hnode, Hidx in *. apply (rep_cached _ _ _ _ Hrep _ Hv). }
  intros f1 t1 Hs1 Hc1 Ht1. rewrite Hnode in Hc1. unfold pop_heap.
  pose proof (pop_rest_length xs) as Hrest.
  eapply sift_loop_leads; [exact Hcap|exact Hroom|lia|exact Hs1| |lia|exact Ht1|done].
  rewrite Hc1. by apply take_last_rep.
Qed.
(** A heap of one node becomes empty. *)
Lemma pop_heap_one xs : length xs = 1%nat -> pop_heap (wins k) xs = [].
Proof. destruct xs as [|x [|y xs]]; done. Qed.

(** What a command does to the registers before anything is read. *)
Lemma popping_rep f w xs : heap_rep k (core f) w xs -> heap_rep k (core (popping f)) w xs.
Proof. intros []. unfold popping. destruct (cache_valid f 0); split; assumption. Qed.

Lemma popping_fields f :
  saved_op (popping f) = OP_POP /\ heap_size (popping f) = heap_size f /\
  (forall j : Z, cache_valid (popping f) j = cache_valid f j) /\
  popped_root (popping f) = if cache_valid f 0 then cache_data f 0 else popped_root f.
Proof. unfold popping. by destruct (cache_valid f 0) eqn:Hv. Qed.

(** From LAUNCH with the root in the cache: it is in [popped_root] already. *)
Lemma pop_cached_leads f t w xs :
  fsm_state f = S_POP_LAUNCH -> heap_rep k (core f) w xs -> xs <> [] -> Z.of_nat (length xs) <= cap -> holds t w ->
  cache_valid f 0 = true -> leads e k (done_with k w (pop_heap (wins k) xs) (saved_op f, popped_root f)) f t.
Proof.
  intros Hs Hrep Hne Hlen Ht Hv. pose proof (rep_size _ _ _ _ Hrep) as Hsize. cbn in Hsize.
  assert (0 < length xs)%nat by (destruct xs; [done|simpl; lia]).
  destruct (decide (length xs = 1%nat)) as [Hone|Hmore].
  - eapply (quiet_leads e k _ f t w S_DONE (empty_heap f));
      [by rewrite Hs|by rewrite Hs|unfold mem_do_write; by rewrite Hs|unfold mem_do_read; by rewrite Hs| |done|].
    { intros c ins. unfold n_state, registers. rewrite Hs, Hv, Hsize, Hone. done. }
    intros f1 t1 Hs1 Hc1 Ht1. apply leads_now. split; [done|].
    split; [exact (f_equal (fun g => (saved_op g, popped_root g)) Hc1)|].
    exists w. rewrite Hc1, pop_heap_one by done. split; [done|]. split; [|done]. apply empty_rep, Hrep.
  - eapply (quiet_leads e k _ f t w S_POP_RD_LAST_ISSUE f);
      [by rewrite Hs|by rewrite Hs|unfold mem_do_write; by rewrite Hs|unfold mem_do_read; by rewrite Hs| |done|].
    { intros c ins. unfold n_state, registers. rewrite Hs, Hv, Hsize.
      replace (Z.of_nat (length xs) =? 0) with false by lia.
      by replace (Z.of_nat (length xs) =? 1) with false by lia. }
    intros f1 t1 Hs1 Hc1 Ht1.
    change (saved_op f, popped_root f) with (saved_op (core f), popped_root (core f)). rewrite <- Hc1.
    change (saved_op (core f1), popped_root (core f1)) with (saved_op f1, popped_root f1). apply pop_tail_leads; try done; [by rewrite Hc1|lia].
Qed.

(** From LAUNCH with a cold cache: the root is read first. *)
Lemma pop_cold_leads f t w xs :
  fsm_state f = S_POP_LAUNCH -> heap_rep k (core f) w xs -> xs <> [] -> Z.of_nat (length xs) <= cap -> holds t w ->
  cache_valid f 0 = false -> leads e k (done_with k w (pop_heap (wins k) xs) (saved_op f, xs !!! 0%nat)) f t.
Proof.
  intros Hs Hrep Hne Hlen Ht Hv. pose proof (rep_size _ _ _ _ Hrep) as Hsize. cbn in Hsize.
  assert (0 < length xs)%nat by (destruct xs; [done|simpl; lia]).
  assert (Hnode : w k 0 = xs !!! 0%nat) by (apply (rep_node _ _ _ _ Hrep 0); lia).
  eapply (quiet_leads e k _ f t w S_POP_RD_ROOT_ISSUE f);
    [by rewrite Hs|by rewrite Hs|unfold mem_do_write; by rewrite Hs|unfold mem_do_read; by rewrite Hs| |done|].
  { intros c ins. unfold n_state, registers. rewrite Hs, Hv, Hsize, andb_false_r.
    by replace (Z.of_nat (length xs) =? 0) with false by lia. }
  intros f1 t1 Hs1 Hc1 Ht1. assert (Hsize1 : heap_size f1 = Z.of_nat (length xs)).
  { rewrite <- Hsize. exact (f_equal heap_size Hc1). }
  assert (Hv1 : cache_valid f1 0 = false) by (rewrite <- Hv; exact (f_equal (fun g => cache_valid g 0) Hc1)).
  assert (Hop : saved_op f1 = saved_op f) by exact (f_equal saved_op Hc1).
  eapply (access_leads e k _ _ _ false _ _ _ f1 (site_pop_root k f1 Hv1));
    [by split| |unfold MAX_NODES; lia|intros; lia|done..].
  intros f2 t2 v Hs2 Hc2 Hval Ht2. rewrite Hval, Hnode in Hc2 by done. rewrite Hsize1 in Hs2, Hc2.
  destruct (decide (length xs = 1%nat)) as [Hone|Hmore].
  - rewrite Hone in Hs2, Hc2. cbn in Hs2. apply leads_now. split; [done|].
    split; [rewrite <- Hop; exact (f_equal (fun g => (saved_op g, popped_root g)) Hc2)|].
    exists w. rewrite Hc2, pop_heap_one by done. split; [done|]. split; [|done]. apply empty_rep.
    assert (Harr : cache_sized (core f1)) by (rewrite Hc1; apply Hrep). exact Harr.
  - replace (Z.of_nat (length xs) =? 1) with false in Hs2, Hc2 by lia.
    assert (Hout : (saved_op f, xs !!! 0%nat) = (saved_op f2, popped_root f2)).
    { rewrite <- Hop. symmetry. exact (f_equal (fun g => (saved_op g, popped_root g)) Hc2). }
    rewrite Hout. apply pop_tail_leads; try done; [|lia]. rewrite Hc2.
    assert (Hrep1 : heap_rep k (core f1) w xs) by by rewrite Hc1.
    destruct Hrep1. split; assumption.
Qed.

Lemma pop_leads f t w xs v :
  fsm_state f = S_IDLE -> heap_rep k (core f) w xs -> holds t w -> Z.of_nat (length xs) <= cap -> xs <> [] ->
  let c := mkCmd true OP_POP v in
  leads e k (done_with k w (pop_heap (wins k) xs) (OP_POP, xs !!! 0%nat))
    (fst (heap_clock e k c f t)) (snd (heap_clock e k c f t)).
Proof.
  intros Hs Hrep Ht Hlen Hne c. set (g := set_saved_op_data v (popping f)).
  apply (idle_clock _ c f t w g S_POP_LAUNCH Hs Ht).
  { intros ins. unfold n_state, registers, g, popping. rewrite Hs. by destruct (cache_valid f 0). }
  intros f1 t1 Hs1 Hc1 Ht1. destruct (popping_fields f) as (Hop & _ & Hcv & Hroot).
  assert (Hrep1 : heap_rep k (core f1) w xs).
  { rewrite Hc1. unfold g. apply popping_rep in Hrep. destruct Hrep. split; assumption. }
  assert (Hop1 : saved_op f1 = OP_POP) by (rewrite <- Hop; exact (f_equal saved_op Hc1)).
  assert (Hv1 : cache_valid f1 0 = cache_valid f 0) by (rewrite <- Hcv; exact (f_equal (fun g => cache_valid g 0) Hc1)).
  rewrite <- Hop1. destruct (cache_valid f 0) eqn:Hv.
  - assert (Hr1 : popped_root f1 = xs !!! 0%nat).
    { transitivity (cache_data f 0); [rewrite <- Hroot; exact (f_equal popped_root Hc1)|].
      by apply (rep_cached _ _ _ _ Hrep 0%nat). }
    rewrite <- Hr1. by apply pop_cached_leads.
  - by apply pop_cold_leads.
Qed.

(** ** PEEK and UPDATE *)

Lemma cached_root_valid g v : cache_sized g -> cache_valid (cache_node 0 v g) 0 = true /\ cache_data (cache_node 0 v g) 0 = v.
Proof.
  intros [Ha Hb]. unfold cache_valid, cache_data. cbn. by destruct (node_cache g), (node_cache_valid g).
Qed.

(** The root is written into the cache. *)
Lemma cached_root_rep g w w' xs v :
  heap_rep k g w xs -> xs <> [] -> fits 86 v -> (forall j : Z, w' k j = if decide (j = 0) then v else w k j) ->
  heap_rep k (cache_node 0 v g) w' (<[0%nat := v]> xs).
Proof.
  intros [Hsize Hnode Hcached Harr Hwords] Hne Hword Hw. assert (0 < length xs)%nat by (destruct xs; [done|simpl; lia]). split.
  - by rewrite length_insert.
  - intros j. rewrite length_insert, Hw. intros Hj. case_decide as Hj0.
    + replace j with 0%nat by lia. by rewrite list_lookup_total_insert_eq.
    + rewrite list_lookup_total_insert_ne by lia. by apply Hnode.
  - intros j Hv. rewrite length_insert, cache_node_data by (done || lia).
    apply cache_node_valid in Hv; [|done|lia]. case_decide as Hj0.
    + replace j with 0%nat by lia. by rewrite list_lookup_total_insert_eq.
    + rewrite list_lookup_total_insert_ne by lia. destruct Hv as [Hv|Hv]; [done|]. by apply Hcached.
  - by apply cache_node_sized.
  - by apply Forall_insert.
Qed.

Lemma peek_leads f t w xs v :
  fsm_state f = S_IDLE -> heap_rep k (core f) w xs -> holds t w -> Z.of_nat (length xs) <= cap -> xs <> [] ->
  let c := mkCmd true OP_PEEK v in
  leads e k (fun f' t' => done_with k w xs (OP_PEEK, popped_root f) f' t' /\
                cache_valid f' 0 = true /\ cmd_root_out f' = xs !!! 0%nat)
    (fst (heap_clock e k c f t)) (snd (heap_clock e k c f t)).
Proof.
  intros Hs Hrep Ht Hlen Hne c. set (g := set_saved_op OP_PEEK (set_saved_op_data v f)).
  assert (0 < length xs)%nat by (destruct xs; [done|simpl; lia]).
  assert (Hnode : w k 0 = xs !!! 0%nat) by (apply (rep_node _ _ _ _ Hrep 0); lia).
  assert (Hrepg : heap_rep k (core g) w xs) by (destruct Hrep; split; assumption).
  assert (Hend : forall f' t', fsm_state f' = S_DONE -> heap_rep k (core f') w xs -> holds t' w ->
    (saved_op f', popped_root f') = (OP_PEEK, popped_root f) -> cache_valid f' 0 = true ->
    done_with k w xs (OP_PEEK, popped_root f) f' t' /\ cache_valid f' 0 = true /\ cmd_root_out f' = xs !!! 0%nat).
  { intros f' t' Hs' Hrep' Ht' Hout Hv. split; [by split; [|split; [|exists w]]|]. split; [done|].
    unfold cmd_root_out. injection Hout as -> _. rewrite decide_True, Hv by done.
    by apply (rep_cached _ _ _ _ Hrep' 0%nat). }
  destruct (cache_valid f 0) eqn:Hv.
  - apply (idle_clock _ c f t w g S_DONE Hs Ht).
    { intros ins. unfold n_state, registers. rewrite Hs. cbn [c cmd_valid cmd_op]. by rewrite ?Hv. }
    intros f1 t1 Hs1 Hc1 Ht1. apply leads_now, Hend; [done|by rewrite Hc1|done|..].
    + exact (f_equal (fun g => (saved_op g, popped_root g)) Hc1).
    + rewrite <- Hv. exact (f_equal (fun g => cache_valid g 0) Hc1).
  - apply (idle_clock _ c f t w g S_PEEK_RD_ISSUE Hs Ht).
    { intros ins. unfold n_state, registers. rewrite Hs. cbn [c cmd_valid cmd_op]. by rewrite ?Hv. }
    intros f1 t1 Hs1 Hc1 Ht1.
    assert (Hv1 : cache_valid f1 0 = false) by (rewrite <- Hv; exact (f_equal (fun g => cache_valid g 0) Hc1)).
    eapply (access_leads e k _ _ _ false _ _ _ f1 (site_peek k f1 Hv1)); [by split| |unfold MAX_NODES; lia|intros; lia|done..].
    intros f2 t2 v' Hs2 Hc2 Hval Ht2. rewrite Hval, Hnode in Hc2 by done.
    assert (Hc2' : core f2 = cache_node 0 (xs !!! 0%nat) (core g)) by (rewrite <- Hc1; exact Hc2).
    apply leads_now, Hend; [done|rewrite Hc2'|done|..].
    + replace xs with (<[0%nat := xs !!! 0%nat]> xs) at 2 by (destruct xs; done).
      apply (cached_root_rep _ w); [done|done|apply word_at; [apply Hrepg|done]|]. intros j. case_decide; [by subst|done].
    + exact (f_equal (fun g => (saved_op g, popped_root g)) Hc2').
    + change (cache_valid (core f2) 0 = true). rewrite Hc2'. apply cached_root_valid, Hrepg.
Qed.
Lemma update_leads f t w xs v :
  fsm_state f = S_IDLE -> heap_rep k (core f) w xs -> holds t w -> xs <> [] ->
  cache_valid f 0 = true -> fits 86 v -> order_price v = order_price (xs !!! 0%nat) -> order_ts v = order_ts (xs !!! 0%nat) ->
  let c := mkCmd true OP_UPDATE v in
  leads e k (done_with k w (<[0%nat := v]> xs) (OP_UPDATE, popped_root f))
    (fst (heap_clock e k c f t)) (snd (heap_clock e k c f t)).
Proof.
  intros Hs Hrep Ht Hne Hv Hword Hp Hts c. set (g := set_saved_op OP_UPDATE (set_saved_op_data v f)).
  assert (Hrepg : heap_rep k (core g) w xs) by (destruct Hrep; split; assumption).
  destruct (rep_cached _ _ _ _ Hrep 0%nat Hv) as [_ Hroot]. change (cache_data f 0 = xs !!! 0%nat) in Hroot.
  apply (idle_clock _ c f t w g S_UPDATE_WR_ISSUE Hs Ht).
  { intros ins. unfold n_state, registers, update_keys_ok. rewrite Hs. cbn [c cmd_valid cmd_op cmd_data_in].
    rewrite Hv, Hroot, Hp, Hts, !Z.eqb_refl. done. }
  intros f1 t1 Hs1 Hc1 Ht1.
  assert (Hd : saved_op_data f1 = v) by exact (f_equal saved_op_data Hc1).
  eapply (access_leads e k _ _ _ true _ _ _ f1 (site_update k f1)); [by rewrite Hd| |unfold MAX_NODES; lia|intros; lia|done..].
  intros f2 t2 v' Hs2 Hc2 _ Ht2. unfold after in Ht2. rewrite Hd in Hc2, Ht2.
  assert (Hc2' : core f2 = cache_node 0 v (core g)) by (rewrite <- Hc1; exact Hc2).
  apply leads_now. split; [done|]. split; [exact (f_equal (fun g => (saved_op g, popped_root g)) Hc2')|].
  exists (upd w k 0 v). split; [done|]. split; [|apply same_other_upd].
  rewrite Hc2'. apply (cached_root_rep _ w); [done..|]. intros j. unfold upd. repeat case_decide; tauto || lia.
Unshelve. exact 0. Qed.

(** An update that would move the root is refused, and so is one with a cold cache. *)
Lemma update_refused f t w xs v :
  fsm_state f = S_IDLE -> heap_rep k (core f) w xs -> holds t w ->
  cache_valid f 0 && update_keys_ok (mkCmd true OP_UPDATE v) f = false ->
  let c := mkCmd true OP_UPDATE v in
  leads e k (done_with k w xs (OP_UPDATE, popped_root f))
    (fst (heap_clock e k c f t)) (snd (heap_clock e k c f t)).
Proof.
  intros Hs Hrep Ht Hv c. set (g := set_saved_op OP_UPDATE (set_saved_op_data v f)).
  apply (idle_clock _ c f t w g S_DONE Hs Ht).
  { intros ins. unfold n_state, registers. rewrite Hs. cbn [c cmd_valid cmd_op]. fold c in Hv. by rewrite Hv. }
  intros f1 t1 Hs1 Hc1 Ht1. apply leads_now. split; [done|].
  split; [exact (f_equal (fun g => (saved_op g, popped_root g)) Hc1)|]. exists w. split; [done|]. split; [|done].
  rewrite Hc1. destruct Hrep. split; assumption.
Qed.

(** Popping an empty heap changes nothing. *)
Lemma pop_empty_leads f t w v :
  fsm_state f = S_IDLE -> heap_rep k (core f) w [] -> holds t w ->
  let c := mkCmd true OP_POP v in
  leads e k (done_with k w [] (OP_POP, popped_root f))
    (fst (heap_clock e k c f t)) (snd (heap_clock e k c f t)).
Proof.
  intros Hs Hrep Ht c. set (g := set_saved_op_data v (popping f)).
  apply (idle_clock _ c f t w g S_POP_LAUNCH Hs Ht).
  { intros ins. unfold n_state, registers, g, popping. rewrite Hs. by destruct (cache_valid f 0). }
  intros f1 t1 Hs1 Hc1 Ht1. destruct (popping_fields f) as (Hop & Hsz & _ & Hroot).
  assert (Hrep1 : heap_rep k (core f1) w []).
  { rewrite Hc1. unfold g. apply popping_rep in Hrep. destruct Hrep. split; assumption. }
  assert (Hv : cache_valid f 0 = false).
  { destruct (cache_valid f 0) eqn:Hv; [|done]. destruct (rep_cached _ _ _ _ Hrep 0%nat Hv) as [Hn _]. simpl in Hn. lia. }
  assert (Hsize1 : heap_size f1 = 0) by exact (rep_size _ _ _ _ Hrep1). rewrite Hv in Hroot.
  eapply (quiet_leads e k _ f1 t1 w S_DONE f1);
    [by rewrite Hs1|by rewrite Hs1|unfold mem_do_write; by rewrite Hs1|unfold mem_do_read; by rewrite Hs1| |done|].
  { intros c' ins. unfold n_state, registers. by rewrite Hs1, Hsize1. }
  intros f2 t2 Hs2 Hc2 Ht2. apply leads_now. split; [done|]. split.
  - rewrite <- Hroot, <- Hop. rewrite Hc1 in Hc2. exact (f_equal (fun g => (saved_op g, popped_root g)) Hc2).
  - exists w. rewrite Hc2. done.
Qed.
End Commands.
