(* ===== verification/HwEngine.v ===== *)
(** * HwEngine: an engine of the exchange

[hw/heap_engine/symbol_engine.sv]: the trade controller of one symbol over a heap of
bids and a heap of asks, clock by clock, and the reference definition of what it does
with an order ([place], [settle]). *)
From S2P Require Import Prelude HeapModel HwHeap HwTiers.

(** ** The controller *)

Inductive Tstate :=
| T_IDLE
| T_PUSH_ISSUE | T_PUSH_WAIT
| T_PEEK_BID_ISSUE | T_PEEK_BID_WAIT
| T_PEEK_ASK_ISSUE | T_PEEK_ASK_WAIT
| T_DECIDE
| T_POP_BID_ISSUE | T_POP_BID_WAIT
| T_POP_ASK_ISSUE | T_POP_ASK_WAIT
| T_UPDATE_BID_ISSUE | T_UPDATE_BID_WAIT
| T_UPDATE_ASK_ISSUE | T_UPDATE_ASK_WAIT
| T_EMIT_TRADE.

#[export] Instance Tstate_eq_dec : EqDecision Tstate.
Proof. solve_decision. Defined.

Record Ctrl := mkCtrl {
  tstate : Tstate;
  pending_order : Z;
  pending_is_ask : bool;
  bid_root_snap : Z;
  ask_root_snap : Z;
  trade_event_data : Z;
  trade_event_pending : bool;
  latched_partial_bid : bool;
  latched_partial_ask : bool
}.

Definition ctrl_reset : Ctrl := mkCtrl T_IDLE 0 false 0 0 0 false false false.

(** What enters the engine in a cycle, the memory port apart. *)
Record EngineIn := mkEngineIn {
  now_ts : Z;
  order_in_valid : bool;
  order_in_data : Z;
  trade_out_ready : bool
}.

Record Engine (V : Type) := mkEngine { ctrl : Ctrl; bid : Fsm; ask : Fsm; tiers : Tiers V }.
Arguments mkEngine {V} _ _ _ _.
Arguments ctrl {V} _.
Arguments bid {V} _.
Arguments ask {V} _.
Arguments tiers {V} _.

(** The parameter [SYMBOL]: three letters of 7 bits. *)
Definition letters (a b c : Z) : Z := cat (cat a 7 b) 7 c.
Definition SYMBOL (e : Z) : Z :=
  if e =? 0 then letters 65 80 76
  else if e =? 1 then letters 66 83 88
  else if e =? 2 then letters 66 85 83
  else if e =? 3 then letters 77 77 77
  else if e =? 4 then letters 83 70 84
  else if e =? 5 then letters 66 85 88
  else if e =? 6 then letters 84 85 83
  else if e =? 7 then letters 87 77 84
  else 0.

(** The node of a dispatched order. *)
Definition order_node (e : Z) (i : EngineIn) : Z :=
  let d := order_in_data i in
  cat (cat (cat (cat (field d 31 1) 16 (field d 15 16)) 16 (field d 0 15)) 21 (SYMBOL e)) 32 (now_ts i).

Section Engine.
Context {V : Type} `{MmuPort V}.
Variable e : Z.

Definition bid_size (E : Engine V) : Z := size_out (bid E).
Definition ask_size (E : Engine V) : Z := size_out (ask E).

(** *** The command buses *)

Definition bid_remains (c : Ctrl) : Z :=
  with_amount (bid_root_snap c) ((order_amount (bid_root_snap c) - order_amount (ask_root_snap c)) mod 2 ^ 16).
Definition ask_remains (c : Ctrl) : Z :=
  with_amount (ask_root_snap c) ((order_amount (ask_root_snap c) - order_amount (bid_root_snap c)) mod 2 ^ 16).

Definition no_cmd : Cmd := mkCmd false OP_PEEK 0.

Definition bid_cmd (c : Ctrl) : Cmd :=
  match tstate c with
  | T_PUSH_ISSUE => if pending_is_ask c then no_cmd else mkCmd true OP_PUSH (pending_order c)
  | T_PUSH_WAIT => if pending_is_ask c then no_cmd else mkCmd true OP_PEEK 0
  | T_PEEK_BID_ISSUE | T_PEEK_BID_WAIT => mkCmd true OP_PEEK 0
  | T_POP_BID_ISSUE | T_POP_BID_WAIT => mkCmd true OP_POP 0
  | T_UPDATE_BID_ISSUE | T_UPDATE_BID_WAIT => mkCmd true OP_UPDATE (bid_remains c)
  | _ => no_cmd
  end.

Definition ask_cmd (c : Ctrl) : Cmd :=
  match tstate c with
  | T_PUSH_ISSUE => if pending_is_ask c then mkCmd true OP_PUSH (pending_order c) else no_cmd
  | T_PUSH_WAIT => if pending_is_ask c then mkCmd true OP_PEEK 0 else no_cmd
  | T_PEEK_ASK_ISSUE | T_PEEK_ASK_WAIT => mkCmd true OP_PEEK 0
  | T_POP_ASK_ISSUE | T_POP_ASK_WAIT => mkCmd true OP_POP 0
  | T_UPDATE_ASK_ISSUE | T_UPDATE_ASK_WAIT => mkCmd true OP_UPDATE (ask_remains c)
  | _ => no_cmd
  end.

(** *** The decision *)

Definition both_stand (E : Engine V) : bool := (bid_size E >? 0) && (ask_size E >? 0).

Definition trade_match (E : Engine V) : bool :=
  both_stand E && (order_price (bid_root_snap (ctrl E)) >=? order_price (ask_root_snap (ctrl E))).
Definition partial_bid_remains (E : Engine V) : bool :=
  trade_match E && (order_amount (bid_root_snap (ctrl E)) >? order_amount (ask_root_snap (ctrl E))).
Definition partial_ask_remains (E : Engine V) : bool :=
  trade_match E && (order_amount (ask_root_snap (ctrl E)) >? order_amount (bid_root_snap (ctrl E))).

Definition tn_state (i : EngineIn) (E : Engine V) : Tstate :=
  let c := ctrl E in
  let bid_cmd_done := cmd_done (bid E) in
  let ask_cmd_done := cmd_done (ask E) in
  let again := if both_stand E then T_PEEK_BID_ISSUE else T_IDLE in
  match tstate c with
  | T_IDLE => if order_in_valid i then T_PUSH_ISSUE else T_IDLE
  | T_PUSH_ISSUE => T_PUSH_WAIT
  | T_PUSH_WAIT =>
      if (pending_is_ask c && ask_cmd_done) || (negb (pending_is_ask c) && bid_cmd_done) then again else T_PUSH_WAIT
  | T_PEEK_BID_ISSUE => T_PEEK_BID_WAIT
  | T_PEEK_BID_WAIT => if bid_cmd_done then T_PEEK_ASK_ISSUE else T_PEEK_BID_WAIT
  | T_PEEK_ASK_ISSUE => T_PEEK_ASK_WAIT
  | T_PEEK_ASK_WAIT => if ask_cmd_done then T_DECIDE else T_PEEK_ASK_WAIT
  | T_DECIDE =>
      if negb (trade_match E) then T_IDLE
      else if partial_bid_remains E then T_POP_ASK_ISSUE
      else T_POP_BID_ISSUE
  | T_POP_BID_ISSUE => T_POP_BID_WAIT
  | T_POP_BID_WAIT =>
      if bid_cmd_done then if latched_partial_ask c then T_UPDATE_ASK_ISSUE else T_POP_ASK_ISSUE else T_POP_BID_WAIT
  | T_POP_ASK_ISSUE => T_POP_ASK_WAIT
  | T_POP_ASK_WAIT =>
      if ask_cmd_done then if latched_partial_bid c then T_UPDATE_BID_ISSUE else T_EMIT_TRADE else T_POP_ASK_WAIT
  | T_UPDATE_BID_ISSUE => T_UPDATE_BID_WAIT
  | T_UPDATE_BID_WAIT => if bid_cmd_done then T_EMIT_TRADE else T_UPDATE_BID_WAIT
  | T_UPDATE_ASK_ISSUE => T_UPDATE_ASK_WAIT
  | T_UPDATE_ASK_WAIT => if ask_cmd_done then T_EMIT_TRADE else T_UPDATE_ASK_WAIT
  | T_EMIT_TRADE => if trade_out_ready i then again else T_EMIT_TRADE
  end.

Definition min_amount (c : Ctrl) : Z :=
  if order_amount (bid_root_snap c) <? order_amount (ask_root_snap c)
  then order_amount (bid_root_snap c) else order_amount (ask_root_snap c).

Definition ctrl_clock (i : EngineIn) (E : Engine V) : Ctrl :=
  let c := ctrl E in
  let takes := bool_decide (tstate c = T_IDLE) && order_in_valid i in
  let decides := bool_decide (tstate c = T_DECIDE) && trade_match E in
  mkCtrl (tn_state i E)
    (if takes then order_node e i else pending_order c)
    (if takes then negb (Z.testbit (order_in_data i) 31) else pending_is_ask c)
    (if bool_decide (tstate c = T_PEEK_BID_WAIT) && cmd_done (bid E) then cmd_root_out (bid E) else bid_root_snap c)
    (if bool_decide (tstate c = T_PEEK_ASK_WAIT) && cmd_done (ask E) then cmd_root_out (ask E) else ask_root_snap c)
    (if decides then with_amount (bid_root_snap c) (min_amount c) else trade_event_data c)
    (if decides then true
     else if bool_decide (tstate c = T_EMIT_TRADE) && trade_out_ready i then false else trade_event_pending c)
    (if decides then partial_bid_remains E else latched_partial_bid c)
    (if decides then partial_ask_remains E else latched_partial_ask c).

(** A clock edge of the engine. *)
Definition engine_clock (i : EngineIn) (E : Engine V) : Engine V :=
  let bp := fsm_port MAX_HEAP e (bid E) in
  let ap := fsm_port MIN_HEAP e (ask E) in
  mkEngine (ctrl_clock i E)
    (fsm_clock MAX_HEAP e (bid_cmd (ctrl E)) (bid_ins bp (tiers E)) (bid E))
    (fsm_clock MIN_HEAP e (ask_cmd (ctrl E)) (ask_ins bp ap (tiers E)) (ask E))
    (tiers_clock bp ap (tiers E)).

Definition order_in_ready (E : Engine V) : bool := bool_decide (tstate (ctrl E) = T_IDLE).
Definition trade_out_valid (E : Engine V) : bool :=
  bool_decide (tstate (ctrl E) = T_EMIT_TRADE) && trade_event_pending (ctrl E).
Definition trade_out_data (E : Engine V) : Z := trade_event_data (ctrl E).
Definition engine_idle (E : Engine V) : bool := bool_decide (tstate (ctrl E) = T_IDLE).

(** The trade that leaves the engine in a cycle. *)
Definition trade_out (i : EngineIn) (E : Engine V) : list Z :=
  if trade_out_valid E && trade_out_ready i then [trade_out_data E] else [].

End Engine.

(** ** The reference definition *)

(** The arrays of the bids and asks with the order of a node added. *)
Definition place (is_ask : bool) (n : Z) (bids asks : list Z) : list Z * list Z :=
  if is_ask then (bids, push_heap (wins MIN_HEAP) asks n) else (push_heap (wins MAX_HEAP) bids n, asks).

(** What a side keeps when [q] of its best order is sold. *)
Definition keep (k : Kind) (q : Z) (xs : list Z) : list Z :=
  let n := xs !!! 0%nat in
  if order_amount n =? q then pop_heap (wins k) xs else <[0%nat := with_amount n (order_amount n - q)]> xs.

Definition crosses (bids asks : list Z) : bool :=
  negb (bool_decide (bids = [])) && negb (bool_decide (asks = [])) &&
  (order_price (bids !!! 0%nat) >=? order_price (asks !!! 0%nat)).

(** The best bid and the best ask trade until they no longer cross: the trades, and what
is left. *)
Fixpoint settle (fuel : nat) (bids asks : list Z) : list Z * list Z * list Z :=
  match fuel with
  | O => ([], bids, asks)
  | S fuel' =>
      if crosses bids asks then
        let b := bids !!! 0%nat in
        let a := asks !!! 0%nat in
        let q := order_amount b `min` order_amount a in
        let '(ts, bids', asks') := settle fuel' (keep MAX_HEAP q bids) (keep MIN_HEAP q asks) in
        (with_amount b q :: ts, bids', asks')
      else ([], bids, asks)
  end.

(** ** The width of a node *)

Lemma symbol_typed e : fits 21 (SYMBOL e).
Proof. unfold SYMBOL. repeat (apply fits_if; [by split|]). by split. Qed.

Lemma order_node_typed e i : fits 32 (now_ts i) -> fits 86 (order_node e i).
Proof.
  intros Hn. unfold order_node. cbv zeta.
  apply (fits_cat _ 32 _ 54); [done|done|done|]. apply (fits_cat _ 21 _ 33); [done|done|apply symbol_typed|].
  apply (fits_cat _ 16 _ 17); [done|done| |].
  - destruct (field_bound (order_in_data i) 0 15 ltac:(lia)). split; lia.
  - apply (fits_cat _ 16 _ 1); [done|done|by apply fits_field..].
Qed.
