(* ===== verification/HwRun.v ===== *)
(** * HwRun: the commands of the controller of an engine

A command of [symbol_engine.sv] to one heap, from the cycle that issues it to the one
after [cmd_done], while the other heap rests: [run_command] lifts what the heap
machine does alone to the engine. *)
From S2P Require Import Prelude HeapModel HwHeap HwTiers HwAccess HwSites HwSift HwCommand.
From S2P Require Import HwEngine.

(** ** One heap of an engine *)

Definition opp (k : Kind) : Kind := match k with MAX_HEAP => MIN_HEAP | MIN_HEAP => MAX_HEAP end.

Section Run.
Context {V : Type} `{MmuLaws V}.
Variable e : Z.
Implicit Types (E : Engine V) (f : Fsm) (t : Tiers V) (w : Kind -> Z -> Z) (k : Kind).

Definition side k E : Fsm := match k with MAX_HEAP => bid E | MIN_HEAP => ask E end.
Definition side_cmd k (c : Ctrl) : Cmd := match k with MAX_HEAP => bid_cmd c | MIN_HEAP => ask_cmd c end.

(** A port without a request. *)
Definition quiet (p : Port) : Prop := priv_we p = false /\ priv_re p = false /\ virt_req_valid p = false.

Lemma quiet_idle k f : fsm_state f = S_IDLE -> quiet (fsm_port k e f).
Proof. intros Hs. unfold quiet, fsm_port, effective_read, mem_do_write, mem_do_read. cbn. by rewrite Hs. Qed.

Lemma tiers_clock_lone k p q t :
  quiet q ->
  tiers_clock (match k with MAX_HEAP => p | MIN_HEAP => q end) (match k with MAX_HEAP => q | MIN_HEAP => p end) t =
    lone_clock k p t.
Proof.
  intros (Hwe & Hre & Hv). destruct k; unfold lone_clock, tiers_clock, bram_next, bram_rdata_next, mmu_owner_next, mmu_req,
    bid_virt_req_ready, ask_virt_req_ready, bid_grant, ask_grant, bram_addr, bram_wdata, ask_active, ports; cbn;
    rewrite ?Hwe, ?Hre, ?Hv, ?andb_false_r; cbn; [done|].
  f_equal; destruct (priv_we p), (priv_re p); done.
Qed.

Lemma ins_lone k p q t :
  quiet q ->
  match k with MAX_HEAP => bid_ins p t | MIN_HEAP => ask_ins q p t end = lone_ins k p t.
Proof.
  intros (_ & _ & Hv). destruct k; [done|]. unfold lone_ins, ask_ins, ask_virt_req_ready, ask_grant. by rewrite Hv.
Qed.

(** While the other heap rests, a clock edge of the engine is one of the heap. *)
Lemma engine_side k i E :
  fsm_state (side (opp k) E) = S_IDLE ->
  (side k (engine_clock e i E), tiers (engine_clock e i E)) = heap_clock e k (side_cmd k (ctrl E)) (side k E) (tiers E).
Proof.
  intros Hs. apply (quiet_idle (opp k)) in Hs.
  pose proof (tiers_clock_lone k (fsm_port k e (side k E)) _ (tiers E) Hs) as Ht.
  pose proof (ins_lone k (fsm_port k e (side k E)) _ (tiers E) Hs) as Hi.
  unfold heap_clock. destruct k; cbn [opp side side_cmd] in *; cbn zeta; rewrite <- Hi, <- Ht; reflexivity.
Qed.

Lemma engine_rests k i E :
  fsm_state (side k E) = S_IDLE -> cmd_valid (side_cmd k (ctrl E)) = false ->
  fsm_state (side k (engine_clock e i E)) = S_IDLE /\ core (side k (engine_clock e i E)) = core (side k E).
Proof.
  intros Hs Hc. destruct k; cbn [side side_cmd engine_clock bid ask] in *; rewrite clock_state, core_clock; unfold n_state, registers; by rewrite Hs, Hc.
Qed.

(** After [S_DONE] the heap is idle. *)
Lemma engine_done k i E :
  fsm_state (side k E) = S_DONE ->
  fsm_state (side k (engine_clock e i E)) = S_IDLE /\ core (side k (engine_clock e i E)) = core (side k E).
Proof. intros Hs. destruct k; cbn [side side_cmd engine_clock bid ask] in *; rewrite clock_state, core_clock; unfold n_state, registers; by rewrite Hs. Qed.

(** ** Books *)

Definition Books : Type := Kind -> list Z.
Definition set_side (bk : Books) k (xs : list Z) : Books := fun k' => if decide (k' = k) then xs else bk k'.

(** The engine rests with the books [bk]. *)
Record books E w (bk : Books) : Prop := {
  books_idle k : fsm_state (side k E) = S_IDLE;
  books_rep k : heap_rep k (core (side k E)) w (bk k);
  books_mem : holds (tiers E) w
}.

Lemma heap_rep_other k g w w' xs : (forall i, w' k i = w k i) -> heap_rep k g w xs -> heap_rep k g w' xs.
Proof. intros Hw [Hs Hn Hc Ha Hf]. split; try done. intros j Hj. rewrite Hw. by apply Hn. Qed.

Lemma opp_ne k k' : k' <> k -> k' = opp k.
Proof. by destruct k, k'. Qed.

Lemma opp_neq k : opp k <> k.
Proof. by destruct k. Qed.

(** ** Runs *)

Variable ins : nat -> EngineIn.

(** From the cycle [n] in the state [E], the trades [log] having left the engine, it comes
to [Q], and takes no order before. *)
Inductive eleads (Q : nat -> Engine V -> list Z -> Prop) : nat -> Engine V -> list Z -> Prop :=
| eleads_now n E log : Q n E log -> eleads Q n E log
| eleads_next n E log :
    tstate (ctrl E) <> T_IDLE -> eleads Q (S n) (engine_clock e (ins n) E) (log ++ trade_out (ins n) E) -> eleads Q n E log.

Lemma trade_out_none i E : tstate (ctrl E) <> T_EMIT_TRADE -> trade_out i E = [].
Proof. intros Ht. unfold trade_out, trade_out_valid. by rewrite bool_decide_eq_false_2. Qed.

Definition set_tstate (s : Tstate) (c : Ctrl) : Ctrl :=
  mkCtrl s (pending_order c) (pending_is_ask c) (bid_root_snap c) (ask_root_snap c) (trade_event_data c)
    (trade_event_pending c) (latched_partial_bid c) (latched_partial_ask c).

(** In [c], the state [wait] waits for the heap [k]. *)
Record Waits k (c : Ctrl) : Prop := {
  waits_emit : tstate c <> T_EMIT_TRADE;
  waits_busy : tstate c <> T_IDLE;
  waits_other : cmd_valid (side_cmd (opp k) c) = false;
  waits_stays i E : ctrl E = c -> cmd_done (side k E) = false -> ctrl_clock e i E = c
}.

(** Until the heap is done, only the heap moves. *)
Lemma wait_leads k c P Q f t :
  Waits k c -> leads e k P f t -> (forall f t, P f t -> fsm_state f = S_DONE) ->
  forall n E log g, side k E = f -> tiers E = t -> ctrl E = c ->
  fsm_state (side (opp k) E) = S_IDLE -> core (side (opp k) E) = g ->
  (forall n' E', ctrl E' = c -> P (side k E') (tiers E') ->
     fsm_state (side (opp k) E') = S_IDLE -> core (side (opp k) E') = g -> eleads Q n' E' log) ->
  eleads Q n E log.
Proof.
  intros Hw Hl Hdone. induction Hl as [f t HP|f t Hni Hnd _ IH]; intros n E log g <- <- Hc Hs Hg Hthen; [by apply Hthen|].
  apply eleads_next; [rewrite Hc; apply Hw|]. rewrite trade_out_none, app_nil_r by (rewrite Hc; apply Hw).
  pose proof (engine_side k (ins n) E Hs) as Hside. destruct (engine_rests (opp k) (ins n) E Hs) as [Hs' Hg'].
  { rewrite Hc. apply Hw. }
  eapply (IH (side_cmd k (ctrl E))); [by rewrite <- Hside|by rewrite <- Hside| |exact Hs'|by rewrite Hg'|exact Hthen].
  apply (waits_stays _ _ Hw); [done|]. unfold cmd_done. by rewrite bool_decide_eq_false_2.
Qed.
Lemma set_side_here bk k xs : set_side bk k xs k = xs.
Proof. unfold set_side. by rewrite decide_True. Qed.

Lemma set_side_other bk k xs : set_side bk k xs (opp k) = bk (opp k).
Proof. unfold set_side. by rewrite decide_False by apply opp_neq. Qed.

Lemma side_cases (P : Kind -> Prop) k : P k -> P (opp k) -> forall j, P j.
Proof. intros Hk Ho j. destruct (decide (j = k)) as [->|Hj]; [done|]. by rewrite (opp_ne k j). Qed.

(** What the cycle after [S_DONE] finds: [E'] is the engine in [S_DONE], [E2] the next. *)
Record finished k (c : Ctrl) (bk : Books) (out : Op * Z) (X : Fsm -> Prop) E0 E' E2 w' : Prop := {
  fin_ctrl : ctrl E' = c;
  fin_done : cmd_done (side k E') = true;
  fin_out : (saved_op (side k E'), popped_root (side k E')) = out;
  fin_extra : X (side k E');
  fin_size j : heap_size (side j E') = Z.of_nat (length (bk j));
  fin_core j : core (side j E2) = core (side j E');
  fin_other : core (side (opp k) E') = core (side (opp k) E0);
  fin_books : books E2 w' bk
}.

(** A command of the controller from the state that issues it. *)
Lemma run_command k c w bk xs out X Q n E log :
  books E w bk -> tstate (ctrl E) <> T_EMIT_TRADE /\ tstate (ctrl E) <> T_IDLE -> cmd_valid (side_cmd (opp k) (ctrl E)) = false ->
  (forall i, ctrl_clock e i E = c) -> Waits k c ->
  leads e k (fun f t => done_with k w xs out f t /\ X f)
    (fst (heap_clock e k (side_cmd k (ctrl E)) (side k E) (tiers E)))
    (snd (heap_clock e k (side_cmd k (ctrl E)) (side k E) (tiers E))) ->
  (forall n' E' E2 w', finished k c (set_side bk k xs) out X E E' E2 w' -> ctrl E2 = ctrl_clock e (ins n') E' ->
     eleads Q (S n') E2 log) ->
  eleads Q n E log.
Proof.
  intros [Hidle Hrep Hmem] [Hemit Hbusy] Hcmd Hclock Hwaits Hl Hthen.
  apply eleads_next; [done|]. rewrite trade_out_none, app_nil_r by done.
  pose proof (engine_side k (ins n) E (Hidle (opp k))) as Hside.
  destruct (engine_rests (opp k) (ins n) E (Hidle (opp k)) Hcmd) as [Hs Hg].
  rewrite <- Hside in Hl. cbn [fst snd] in Hl.
  eapply (wait_leads k c _ Q _ _ Hwaits Hl);
    [by intros f t [[? _] _]|done|done|apply Hclock|exact Hs|reflexivity|].
  intros n' E' Hc [(Hdone & Hout & w' & Ht & Hr & Hsame) HX] Hs' Hg'. rewrite Hg in Hg'.
  assert (Hrep' : forall j, heap_rep j (core (side j E')) w' (set_side bk k xs j)).
  { apply (side_cases _ k); [by rewrite set_side_here|]. rewrite set_side_other, Hg'.
    apply (heap_rep_other _ _ w); [|apply Hrep]. intros i. apply Hsame, opp_neq. }
  apply eleads_next; [rewrite Hc; apply Hwaits|]. rewrite trade_out_none, app_nil_r by (rewrite Hc; apply Hwaits).
  pose proof (engine_side k (ins n') E' Hs') as Hside'.
  destruct (engine_done k (ins n') E' Hdone) as [Hs2 Hg2].
  destruct (engine_rests (opp k) (ins n') E' Hs') as [Hs3 Hg3]; [rewrite Hc; apply Hwaits|].
  assert (Hcore : forall j, core (side j (engine_clock e (ins n') E')) = core (side j E')) by by apply (side_cases _ k).
  apply (Hthen n' E' _ w'); [|done]. split; try done.
  - unfold cmd_done. by rewrite bool_decide_eq_true_2.
  - intros j. exact (rep_size _ _ _ _ (Hrep' j)).
  - split; [by apply (side_cases _ k)|intros j; rewrite Hcore; apply Hrep'|].
    apply (f_equal snd) in Hside'. cbn [snd] in Hside'. rewrite Hside'. cbn [heap_clock snd].
    apply holds_quiet; [done|..]; unfold fsm_port, effective_read, mem_do_write, mem_do_read; cbn; by rewrite Hdone.
Qed.
Lemma books_ext E w bk bk' : (forall j, bk j = bk' j) -> books E w bk -> books E w bk'.
Proof. intros Hb [Hi Hr Hm]. split; [done| |done]. intros j. rewrite <- Hb. apply Hr. Qed.

(** A cycle in which both heaps rest. *)
Lemma quiet_books w bk i E :
  books E w bk -> (forall k, cmd_valid (side_cmd k (ctrl E)) = false) ->
  books (engine_clock e i E) w bk /\ forall j, core (side j (engine_clock e i E)) = core (side j E).
Proof.
  intros [Hidle Hrep Hmem] Hcmd.
  assert (Hrest : forall j, fsm_state (side j (engine_clock e i E)) = S_IDLE /\
                            core (side j (engine_clock e i E)) = core (side j E))
    by (intros j; by apply engine_rests).
  split; [|intros j; apply Hrest]. split; [intros j; apply Hrest|intros j; rewrite (proj2 (Hrest j)); apply Hrep|].
  pose proof (engine_side MAX_HEAP i E (Hidle MIN_HEAP)) as Hside. apply (f_equal snd) in Hside. cbn [snd] in Hside.
  rewrite Hside. cbn [heap_clock snd]. pose proof (Hidle MAX_HEAP) as Hs.
  apply holds_quiet; [done|..]; unfold fsm_port, effective_read, mem_do_write, mem_do_read; cbn [priv_we virt_req_valid virt_req_wr]; by rewrite Hs.
Qed.

Lemma quiet_step Q w bk n E log :
  books E w bk -> tstate (ctrl E) <> T_IDLE -> (forall k, cmd_valid (side_cmd k (ctrl E)) = false) ->
  (forall E2, ctrl E2 = ctrl_clock e (ins n) E -> books E2 w bk -> (forall j, core (side j E2) = core (side j E)) ->
     eleads Q (S n) E2 (log ++ trade_out (ins n) E)) ->
  eleads Q n E log.
Proof.
  intros Hb Hbusy Hcmd Hthen. apply eleads_next; [done|]. destruct (quiet_books w bk (ins n) E Hb Hcmd) as [Hb2 Hcore]. by apply Hthen.
Qed.
End Run.
