(* ===== verification/HwSettle.v ===== *)
(** * HwSettle: an engine settles its book

The trade controller, phase by phase: the order is pushed, the roots are looked at, the
better one of each side trades, and the trade leaves the engine; until the book no
longer crosses. *)
From S2P Require Import Prelude HeapModel HwHeap HwTiers HwAccess HwSites HwSift HwCommand.
From S2P Require Import HwEngine HwRun.

Lemma nonempty_size (xs : list Z) : (Z.of_nat (length xs) >? 0) = bool_decide (xs <> []).
Proof. destruct xs; [done|]. rewrite bool_decide_eq_true_2 by done. apply Z.gtb_lt. simpl. lia. Qed.

Section Settle.
Context {V : Type} `{MmuLaws V}.
Variable e : Z.
Variable ins : nat -> EngineIn.
Variable cap : Z.
Hypothesis Hcap : cap <= 1024.
Hypothesis Hroom : forall k, capacity e k cap.
Implicit Types (E : Engine V) (f : Fsm) (t : Tiers V) (w : Kind -> Z -> Z) (k : Kind) (bk : Books).

(** The controller in a state that is known, and its waiting for a heap. *)
Ltac ctrl_step := unfold ctrl_clock, tn_state; repeat match goal with Hx : ctrl _ = _ |- _ => rewrite Hx end; cbn.
Ltac waits_solve := split; [done|done|done|let E := fresh in let Hc := fresh in let Hd := fresh in intros ? E Hc Hd; cbn in Hd; ctrl_step; rewrite Hd; reflexivity].

Definition next_state bk : Tstate :=
  if bool_decide (bk MAX_HEAP <> []) && bool_decide (bk MIN_HEAP <> []) then T_PEEK_BID_ISSUE else T_IDLE.

Lemma stand_next E bk :
  (forall j, heap_size (side j E) = Z.of_nat (length (bk j))) ->
  (if both_stand E then T_PEEK_BID_ISSUE else T_IDLE) = next_state bk.
Proof.
  intros Hs. unfold both_stand, bid_size, ask_size, size_out, next_state.
  pose proof (Hs MAX_HEAP) as Hb. pose proof (Hs MIN_HEAP) as Ha. cbn in Hb, Ha. rewrite Hb, Ha.
  by rewrite !nonempty_size.
Qed.
(** ** The order is pushed *)

Lemma push_phase Q n E log w bk k v bs as_ ted tep lb la :
  books E w bk -> ctrl E = mkCtrl T_PUSH_ISSUE v (bool_decide (k = MIN_HEAP)) bs as_ ted tep lb la ->
  Z.of_nat (length (bk k)) < cap -> fits 86 v ->
  (forall n' E2 w', let bk' := set_side bk k (push_heap (wins k) (bk k) v) in
     books E2 w' bk' ->
     ctrl E2 = mkCtrl (next_state bk') v (bool_decide (k = MIN_HEAP)) bs as_ ted tep lb la -> eleads e ins Q n' E2 log) ->
  eleads e ins Q n E log.
Proof.
  intros Hb Hc Hlen Hword Hthen. pose proof Hb as [Hidle Hrep Hmem].
  apply (run_command e ins k (mkCtrl T_PUSH_WAIT v (bool_decide (k = MIN_HEAP)) bs as_ ted tep lb la) w bk
    (push_heap (wins k) (bk k) v) (OP_PUSH, popped_root (side k E)) (fun _ => True));
    [done|by rewrite Hc; split|by rewrite Hc; destruct k|intros; by ctrl_step|destruct k; waits_solve|..].
  - assert (Hcmd : side_cmd k (ctrl E) = mkCmd true OP_PUSH v) by (rewrite Hc; by destruct k). rewrite Hcmd.
    eapply leads_weaken; [|apply (push_leads e k cap Hcap (Hroom k)); done]. done.
  - intros n' E' E2 w' [Hc' Hd _ _ Hsize Hcore _ Hbooks] HE2. eapply Hthen; [exact Hbooks|].
    rewrite HE2. ctrl_step. rewrite (stand_next _ _ Hsize).
    destruct k; cbn in Hd |- *; rewrite Hd; done.
Qed.
(** ** The roots are looked at *)

(** The roots of both heaps are in their caches. *)
Definition warm E : Prop := forall k, cache_valid (side k E) 0 = true.

Lemma set_side_same bk k : forall j, set_side bk k (bk k) j = bk j.
Proof. intros j. unfold set_side. by case_decide; subst. Qed.

Lemma peek_phase Q n E log w bk v ia bs as_ ted tep lb la :
  books E w bk -> ctrl E = mkCtrl T_PEEK_BID_ISSUE v ia bs as_ ted tep lb la ->
  (forall k, bk k <> [] /\ Z.of_nat (length (bk k)) <= cap) ->
  (forall n' E2 w', books E2 w' bk -> warm E2 ->
     ctrl E2 = mkCtrl T_DECIDE v ia (bk MAX_HEAP !!! 0%nat) (bk MIN_HEAP !!! 0%nat) ted tep lb la ->
     eleads e ins Q n' E2 log) ->
  eleads e ins Q n E log.
Proof.
  intros Hb Hc Hbk Hthen. pose proof Hb as [Hidle Hrep Hmem].
  set (X k f := cache_valid f 0 = true /\ cmd_root_out f = bk k !!! 0%nat).
  assert (Hpeek : forall k E w, books E w bk -> side_cmd k (ctrl E) = mkCmd true OP_PEEK 0 ->
    leads e k (fun f t => done_with k w (bk k) (OP_PEEK, popped_root (side k E)) f t /\ X k f)
      (fst (heap_clock e k (side_cmd k (ctrl E)) (side k E) (tiers E)))
      (snd (heap_clock e k (side_cmd k (ctrl E)) (side k E) (tiers E)))).
  { intros k E0 w0 [Hi0 Hr0 Hm0] ->. apply (peek_leads e k cap); [apply Hi0|apply Hr0|exact Hm0|apply Hbk..]. }
  apply (run_command e ins MAX_HEAP (mkCtrl T_PEEK_BID_WAIT v ia bs as_ ted tep lb la) w bk (bk MAX_HEAP)
    (OP_PEEK, popped_root (side MAX_HEAP E)) (X MAX_HEAP));
    [done|by rewrite Hc; split|by rewrite Hc|intros; by ctrl_step|waits_solve|apply Hpeek; [done|by rewrite Hc]|].
  intros n1 E1' E1 w1 [Hc1' Hd1 _ [Hv1 Hr1] Hsize1 Hcore1 _ Hb1] Hc1. cbn in Hd1, Hr1.
  apply (books_ext _ _ _ bk) in Hb1; [|apply set_side_same].
  assert (Hc1'' : ctrl E1 = mkCtrl T_PEEK_ASK_ISSUE v ia (bk MAX_HEAP !!! 0%nat) as_ ted tep lb la).
  { rewrite Hc1. ctrl_step. by rewrite Hd1, Hr1. }
  clear Hc1. apply (run_command e ins MIN_HEAP (mkCtrl T_PEEK_ASK_WAIT v ia (bk MAX_HEAP !!! 0%nat) as_ ted tep lb la) w1 bk
    (bk MIN_HEAP) (OP_PEEK, popped_root (side MIN_HEAP E1)) (X MIN_HEAP));
    [done|by rewrite Hc1''; split|by rewrite Hc1''|intros; by ctrl_step|waits_solve|apply Hpeek; [done|by rewrite Hc1'']|].
  intros n2 E2' E2 w2 [Hc2' Hd2 _ [Hv2 Hr2] Hsize2 Hcore2 Hother Hb2] Hc2. cbn in Hd2, Hr2.
  apply (books_ext _ _ _ bk) in Hb2; [|apply set_side_same].
  apply (Hthen _ E2 w2); [done| |rewrite Hc2; ctrl_step; by rewrite Hd2, Hr2].
  intros k. change (cache_valid (core (side k E2)) 0 = true). rewrite Hcore2. destruct k; [|exact Hv2].
  change (side MAX_HEAP E2') with (side (opp MIN_HEAP) E2'). rewrite Hother. cbn [opp]. rewrite Hcore1. exact Hv1.
Qed.
(** ** A trade *)

Definition pop_issue k : Tstate := match k with MAX_HEAP => T_POP_BID_ISSUE | MIN_HEAP => T_POP_ASK_ISSUE end.
Definition pop_wait k : Tstate := match k with MAX_HEAP => T_POP_BID_WAIT | MIN_HEAP => T_POP_ASK_WAIT end.
Definition update_issue k : Tstate := match k with MAX_HEAP => T_UPDATE_BID_ISSUE | MIN_HEAP => T_UPDATE_ASK_ISSUE end.
Definition update_wait k : Tstate := match k with MAX_HEAP => T_UPDATE_BID_WAIT | MIN_HEAP => T_UPDATE_ASK_WAIT end.
Definition after_pop k (lb la : bool) : Tstate :=
  match k with
  | MAX_HEAP => if la then T_UPDATE_ASK_ISSUE else T_POP_ASK_ISSUE
  | MIN_HEAP => if lb then T_UPDATE_BID_ISSUE else T_EMIT_TRADE
  end.

Lemma pop_phase Q n E log w bk k v ia b a ted tep lb la :
  books E w bk -> ctrl E = mkCtrl (pop_issue k) v ia b a ted tep lb la ->
  bk k <> [] -> Z.of_nat (length (bk k)) <= cap ->
  (forall n' E2 w', books E2 w' (set_side bk k (pop_heap (wins k) (bk k))) ->
     core (side (opp k) E2) = core (side (opp k) E) ->
     ctrl E2 = mkCtrl (after_pop k lb la) v ia b a ted tep lb la -> eleads e ins Q n' E2 log) ->
  eleads e ins Q n E log.
Proof.
  intros Hb Hc Hne Hlen Hthen. pose proof Hb as [Hidle Hrep Hmem].
  apply (run_command e ins k (mkCtrl (pop_wait k) v ia b a ted tep lb la) w bk (pop_heap (wins k) (bk k))
    (OP_POP, bk k !!! 0%nat) (fun _ => True));
    [done|rewrite Hc; by destruct k|by rewrite Hc; destruct k|intros; destruct k; by ctrl_step|destruct k; waits_solve|..].
  - assert (Hcmd : side_cmd k (ctrl E) = mkCmd true OP_POP 0) by (rewrite Hc; by destruct k). rewrite Hcmd.
    eapply leads_weaken; [|apply (pop_leads e k cap Hcap (Hroom k)); done]. done.
  - intros n' E' E2 w' [Hc' Hd _ _ _ Hcore Hother Hbooks] HE2. eapply Hthen; [exact Hbooks|by rewrite Hcore|].
    rewrite HE2. destruct k; cbn in Hd; ctrl_step; by rewrite Hd.
Qed.

(** What the controller writes over the root of [k]. *)
Definition remains k (c : Ctrl) : Z := match k with MAX_HEAP => bid_remains c | MIN_HEAP => ask_remains c end.

Lemma update_phase Q n E log w bk k v ia b a ted tep lb la :
  books E w bk -> ctrl E = mkCtrl (update_issue k) v ia b a ted tep lb la ->
  bk k <> [] -> cache_valid (side k E) 0 = true ->
  let r := remains k (ctrl E) in
  fits 86 r -> order_price r = order_price (bk k !!! 0%nat) -> order_ts r = order_ts (bk k !!! 0%nat) ->
  (forall n' E2 w', books E2 w' (set_side bk k (<[0%nat := r]> (bk k))) ->
     ctrl E2 = mkCtrl T_EMIT_TRADE v ia b a ted tep lb la -> eleads e ins Q n' E2 log) ->
  eleads e ins Q n E log.
Proof.
  intros Hb Hc Hne Hv r Hword Hp Hts Hthen. pose proof Hb as [Hidle Hrep Hmem].
  apply (run_command e ins k (mkCtrl (update_wait k) v ia b a ted tep lb la) w bk (<[0%nat := r]> (bk k))
    (OP_UPDATE, popped_root (side k E)) (fun _ => True));
    [done|rewrite Hc; by destruct k|by rewrite Hc; destruct k|intros; destruct k; by ctrl_step|destruct k; waits_solve|..].
  - assert (Hcmd : side_cmd k (ctrl E) = mkCmd true OP_UPDATE r) by (unfold r; rewrite Hc; by destruct k). rewrite Hcmd.
    eapply leads_weaken; [|apply (update_leads e k); done]. done.
  - intros n' E' E2 w' [Hc' Hd _ _ _ Hcore Hother Hbooks] HE2. eapply Hthen; [exact Hbooks|].
    rewrite HE2. destruct k; cbn in Hd; ctrl_step; by rewrite Hd.
Qed.
(** *** The best orders trade *)

Section Trade.
Variables (v b a : Z) (ia : bool).
Hypothesis Hwb : 0 <= order_amount b < 2 ^ 16.
Hypothesis Hwa : 0 <= order_amount a < 2 ^ 16.

Definition sold : Z := order_amount b `min` order_amount a.
Definition root k : Z := match k with MAX_HEAP => b | MIN_HEAP => a end.

(** The controller between the decision and the end of the trade. *)
Definition in_trade (s : Tstate) (lb la : bool) : Ctrl := mkCtrl s v ia b a (with_amount b sold) true lb la.

(** The book has the two orders at its roots. *)
Definition at_roots bk : Prop := forall k, bk k <> [] /\ Z.of_nat (length (bk k)) <= cap /\ bk k !!! 0%nat = root k.

(** The state that shows the trade is reached, with the book that is left. *)
Definition shows Q bk (log : list Z) : Prop := forall n E w bk' lb la,
  books E w bk' -> ctrl E = in_trade T_EMIT_TRADE lb la -> (forall k, bk' k = keep k sold (bk k)) -> eleads e ins Q n E log.

Lemma trade_exact Q n E log w bk :
  books E w bk -> ctrl E = in_trade T_POP_BID_ISSUE false false -> at_roots bk -> order_amount b = order_amount a ->
  shows Q bk log -> eleads e ins Q n E log.
Proof.
  intros Hb Hc Hbk Heq Hthen. destruct (Hbk MAX_HEAP) as (Hne1 & Hl1 & Hr1), (Hbk MIN_HEAP) as (Hne2 & Hl2 & Hr2).
  eapply (pop_phase Q n E log w bk MAX_HEAP); [exact Hb|exact Hc|done|done|].
  intros n1 E1 w1 Hb1 _ Hc1. cbn [after_pop] in Hc1.
  eapply (pop_phase Q n1 E1 log w1 _ MIN_HEAP); [exact Hb1|exact Hc1|done|done|].
  intros n2 E2 w2 Hb2 _ Hc2. eapply Hthen; [exact Hb2|exact Hc2|].
  intros k. unfold keep, sold. rewrite (proj2 (proj2 (Hbk k))), <- Heq, Z.min_id.
  destruct k; cbn; [by rewrite Z.eqb_refl|by rewrite <- Heq, Z.eqb_refl].
Qed.

(** What is left of the larger order. *)
Lemma remains_sold k s lb la :
  order_amount (root (opp k)) < order_amount (root k) ->
  remains k (in_trade s lb la) = with_amount (root k) (order_amount (root k) - sold).
Proof.
  intros Hlt. assert (Hq : sold = order_amount (root (opp k))) by (unfold sold; destruct k; cbn in *; lia).
  rewrite Hq. unfold remains, bid_remains, ask_remains. destruct k; cbn in *; rewrite Z.mod_small by lia; done.
Qed.

(** The order of the side [k] is the larger one. *)
Lemma trade_partial Q n E log w bk k :
  books E w bk -> warm E ->
  ctrl E = in_trade (pop_issue (opp k)) (bool_decide (k = MAX_HEAP)) (bool_decide (k = MIN_HEAP)) -> at_roots bk ->
  order_amount (root (opp k)) < order_amount (root k) -> shows Q bk log -> eleads e ins Q n E log.
Proof.
  intros Hb Hwarm Hc Hbk Hlt Hthen. destruct (Hbk k) as (Hne1 & Hl1 & Hr1), (Hbk (opp k)) as (Hne2 & Hl2 & Hr2).
  assert (Hq : sold = order_amount (root (opp k))) by (unfold sold; destruct k; cbn in *; lia).
  assert (Hw : 0 <= order_amount (root k) - sold < 2 ^ 16) by (rewrite Hq; destruct k; cbn in *; lia).
  eapply (pop_phase Q n E log w bk (opp k)); [exact Hb|exact Hc|done|done|].
  intros n1 E1 w1 Hb1 Hcore1 Hc1. replace (opp (opp k)) with k in Hcore1 by by destruct k.
  assert (Hc1' : ctrl E1 = in_trade (update_issue k) (bool_decide (k = MAX_HEAP)) (bool_decide (k = MIN_HEAP)))
    by (rewrite Hc1; by destruct k).
  clear Hc1. set (bk1 := set_side bk (opp k) _) in Hb1.
  assert (Hk1 : bk1 k = bk k) by (unfold bk1; by destruct k).
  destruct (with_amount_fields (root k) (order_amount (root k) - sold) Hw) as (_ & Hp & Hts & _).
  pose proof (remains_sold k (update_issue k) (bool_decide (k = MAX_HEAP)) (bool_decide (k = MIN_HEAP)) Hlt) as Hrem.
  rewrite <- Hc1' in Hrem.
  eapply (update_phase Q n1 E1 log w1 bk1 k); [exact Hb1|exact Hc1'|by rewrite Hk1| | |by rewrite Hk1, Hr1, Hrem..|].
  - change (cache_valid (core (side k E1)) 0 = true). rewrite Hcore1. apply Hwarm.
  - rewrite Hrem. apply fits_with_amount; [|done]. rewrite <- Hr1. apply word_at; [apply (rep_words _ _ _ _ (books_rep _ _ _ Hb k))|].
    by destruct (bk k); [|simpl; lia].
  - intros n2 E2 w2 Hb2 Hc2. eapply Hthen; [exact Hb2|exact Hc2|]. rewrite Hrem, Hk1.
    apply (side_cases _ k).
    + rewrite set_side_here. unfold keep. rewrite Hr1. by replace (order_amount (root k) =? sold) with false by lia.
    + rewrite set_side_other. unfold bk1. rewrite set_side_here. unfold keep. by rewrite Hr2, Hq, Z.eqb_refl.
Qed.
(** The decision. *)
Lemma decide_phase Q n E log w bk ted tep lb la :
  books E w bk -> warm E -> ctrl E = mkCtrl T_DECIDE v ia b a ted tep lb la -> at_roots bk ->
  (order_price b < order_price a -> forall n E2 w', books E2 w' bk -> tstate (ctrl E2) = T_IDLE -> eleads e ins Q n E2 log) ->
  (order_price a <= order_price b -> shows Q bk log) -> eleads e ins Q n E log.
Proof.
  intros Hb Hwarm Hc Hbk Hno Hyes. destruct (Hbk MAX_HEAP) as (Hne1 & _), (Hbk MIN_HEAP) as (Hne2 & _).
  assert (Hstand : both_stand E = true).
  { unfold both_stand, bid_size, ask_size, size_out. pose proof (rep_size _ _ _ _ (books_rep _ _ _ Hb MAX_HEAP)) as Hs1.
    pose proof (rep_size _ _ _ _ (books_rep _ _ _ Hb MIN_HEAP)) as Hs2. cbn in Hs1, Hs2.
    by rewrite Hs1, Hs2, !nonempty_size, !bool_decide_eq_true_2. }
  eapply (quiet_step e ins Q w bk n E log Hb); [by rewrite Hc|intros k; rewrite Hc; by destruct k|].
  intros E2 Hc2 Hb2 Hcore. rewrite trade_out_none, app_nil_r by by rewrite Hc.
  assert (Hwarm2 : warm E2).
  { intros k. change (cache_valid (core (side k E2)) 0 = true). rewrite Hcore. apply Hwarm. }
  assert (Hm : trade_match E = (order_price b >=? order_price a)) by (unfold trade_match; by rewrite Hstand, Hc).
  assert (Hpb : partial_bid_remains E = trade_match E && (order_amount b >? order_amount a))
    by (unfold partial_bid_remains; by rewrite Hc).
  assert (Hpa : partial_ask_remains E = trade_match E && (order_amount a >? order_amount b))
    by (unfold partial_ask_remains; by rewrite Hc).
  assert (Hmin : min_amount (ctrl E) = sold).
  { unfold min_amount, sold. rewrite Hc. cbn. destruct (Z.ltb_spec (order_amount b) (order_amount a)); lia. }
  unfold ctrl_clock, tn_state in Hc2. rewrite Hpb, Hpa, Hm, Hmin, Hc in Hc2. cbn in Hc2.
  destruct (order_price b >=? order_price a) eqn:Hge; cbn in Hc2.
  2: { apply (Hno ltac:(lia) (S n) E2 w Hb2). by rewrite Hc2. }
  specialize (Hyes ltac:(lia)).
  destruct (Z.lt_trichotomy (order_amount b) (order_amount a)) as [Hlt|[Heq|Hlt]].
  - replace (order_amount b >? order_amount a) with false in Hc2 by lia.
    replace (order_amount a >? order_amount b) with true in Hc2 by lia. by apply (trade_partial Q (S n) E2 log w bk MIN_HEAP).
  - replace (order_amount b >? order_amount a) with false in Hc2 by lia.
    replace (order_amount a >? order_amount b) with false in Hc2 by lia. by apply (trade_exact Q (S n) E2 log w bk).
  - replace (order_amount b >? order_amount a) with true in Hc2 by lia.
    replace (order_amount a >? order_amount b) with false in Hc2 by lia. by apply (trade_partial Q (S n) E2 log w bk MAX_HEAP).
Qed.
End Trade.

(** ** The trade leaves the engine *)

Lemma emit_phase Q n E log w bk v ia b a d lb la m :
  trade_out_ready (ins (n + m)) = true ->
  books E w bk -> ctrl E = mkCtrl T_EMIT_TRADE v ia b a d true lb la ->
  (forall n' E2 w' s, books E2 w' bk -> ctrl E2 = mkCtrl (next_state bk) v ia b a d s lb la ->
     eleads e ins Q n' E2 (log ++ [d])) ->
  eleads e ins Q n E log.
Proof.
  revert n E. induction m as [|m IH]; intros n E Hready Hb Hc Hthen.
  all: assert (Hnext : (if both_stand E then T_PEEK_BID_ISSUE else T_IDLE) = next_state bk)
    by (apply stand_next; intros j; apply (rep_size _ _ _ _ (books_rep _ _ _ Hb j))).
  all: eapply (quiet_step e ins Q w bk n E log Hb); [by rewrite Hc|intros k; rewrite Hc; by destruct k|].
  all: assert (Hout : trade_out (ins n) E = if trade_out_ready (ins n) then [d] else [])
    by (unfold trade_out, trade_out_valid, trade_out_data; rewrite Hc; by destruct (trade_out_ready (ins n))).
  all: intros E2 Hc2 Hb2 _; rewrite Hout.
  all: assert (Hc3 : ctrl E2 = mkCtrl (if trade_out_ready (ins n) then next_state bk else T_EMIT_TRADE) v ia b a d
      (negb (trade_out_ready (ins n))) lb la)
    by (rewrite Hc2; unfold ctrl_clock, tn_state; rewrite Hc, Hnext; by destruct (trade_out_ready (ins n))).
  - rewrite Nat.add_0_r in Hready. rewrite Hready in *. by eapply Hthen.
  - destruct (trade_out_ready (ins n)) eqn:Hr; [by eapply Hthen|]. rewrite app_nil_r.
    apply IH; [by rewrite Nat.add_succ_comm|done|exact Hc3|exact Hthen].
Qed.

(** ** Until nothing crosses *)

Hypothesis Hready : forall n, exists m, trade_out_ready (ins (n + m)) = true.

Lemma keep_length k q xs :
  xs <> [] -> (length (keep k q xs) <= length xs)%nat /\
              (order_amount (xs !!! 0%nat) = q -> (length (keep k q xs) < length xs)%nat).
Proof.
  intros Hne. assert (0 < length xs)%nat by (destruct xs; [done|simpl; lia]). unfold keep.
  destruct (Z.eqb_spec (order_amount (xs !!! 0%nat)) q).
  - unfold pop_heap. rewrite down_length, pop_rest_length. lia.
  - rewrite length_insert. lia.
Qed.

(** The engine is idle with the books [bids], [asks], and the trades [log] have left. *)
Definition settled (bids asks log : list Z) : nat -> Engine V -> list Z -> Prop := fun _ E log' =>
  log' = log /\ tstate (ctrl E) = T_IDLE /\
  exists w, books E w (fun k => match k with MAX_HEAP => bids | MIN_HEAP => asks end).

Lemma settled_books E w bk log n :
  books E w bk -> tstate (ctrl E) = T_IDLE -> settled (bk MAX_HEAP) (bk MIN_HEAP) log n E log.
Proof. intros Hb Hs. split; [done|]. split; [done|]. exists w. eapply books_ext; [|exact Hb]. by intros []. Qed.

Lemma amount_bound n : 0 <= order_amount n < 2 ^ 16.
Proof. apply field_bound. lia. Qed.

Lemma settle_leads fuel : forall n E log w bk ts bids asks v ia bs as_ ted tep lb la,
  (length (bk MAX_HEAP) + length (bk MIN_HEAP) <= fuel)%nat ->
  settle fuel (bk MAX_HEAP) (bk MIN_HEAP) = (ts, bids, asks) ->
  books E w bk -> (forall k, Z.of_nat (length (bk k)) <= cap) ->
  ctrl E = mkCtrl (next_state bk) v ia bs as_ ted tep lb la ->
  eleads e ins (settled bids asks (log ++ ts)) n E log.
Proof.
  induction fuel as [|fuel IH]; intros n E log w bk ts bids asks v ia bs as_ ted tep lb la Hf Hset Hb Hlen Hc.
  { cbn in Hset. injection Hset as <- <- <-. apply eleads_now. rewrite app_nil_r. eapply settled_books; [exact Hb|].
    rewrite Hc. cbn. unfold next_state. destruct (bk MAX_HEAP); [done|simpl in Hf; lia]. }
  cbn [settle] in Hset. unfold crosses in Hset.
  destruct (decide (bk MAX_HEAP = [])) as [H1|H1]; [|destruct (decide (bk MIN_HEAP = [])) as [H2|H2]].
  1-2: apply eleads_now; rewrite ?H1, ?H2, ?andb_false_r in Hset; cbn in Hset; injection Hset as <- <- <-; rewrite app_nil_r;
    rewrite <- ?H1, <- ?H2; (eapply settled_books; [exact Hb|]); rewrite Hc; unfold next_state; rewrite ?H1, ?H2; cbn;
    by rewrite ?andb_false_r.
  rewrite !bool_decide_eq_false_2 in Hset by done. cbn [negb andb] in Hset.
  unfold next_state in Hc. rewrite !bool_decide_eq_true_2 in Hc by done. cbn [andb] in Hc.
  eapply peek_phase; [exact Hb|exact Hc|intros []; done|]. clear n E w Hb Hc.
  intros n E w Hb Hwarm Hc. set (b := bk MAX_HEAP !!! 0%nat) in *. set (a := bk MIN_HEAP !!! 0%nat) in *.
  eapply (decide_phase v b a ia (amount_bound b) (amount_bound a)); [exact Hb|exact Hwarm|exact Hc|by intros []|..].
  - intros Hlt n2 E2 w2 Hb2 Hs2. replace (order_price b >=? order_price a) with false in Hset by lia.
    injection Hset as <- <- <-. rewrite app_nil_r. apply eleads_now. by eapply settled_books.
  - intros Hge n2 E2 w2 bk2 lb2 la2 Hb2 Hc2 Hbk2. replace (order_price b >=? order_price a) with true in Hset by lia.
    destruct (settle fuel _ _) as [[ts' bids'] asks'] eqn:Hset2. injection Hset as <- <- <-.
    destruct (Hready n2) as [m Hm]. eapply (emit_phase _ n2 E2 log w2 bk2); [exact Hm|exact Hb2|exact Hc2|].
    intros n3 E3 w3 s Hb3 Hc3. rewrite (cons_middle _ log ts'), app_assoc.
    pose proof (keep_length MAX_HEAP (sold b a) _ H1) as [Hk1 Hk1'].
    pose proof (keep_length MIN_HEAP (sold b a) _ H2) as [Hk2 Hk2'].
    eapply (IH n3 E3 _ w3 bk2); [|rewrite !Hbk2; exact Hset2|exact Hb3| |exact Hc3].
    + rewrite !Hbk2. unfold sold in *. fold b in Hk1'. fold a in Hk2'. lia.
    + intros k. rewrite Hbk2. specialize (Hlen k). destruct k; lia.
Qed.
End Settle.
