(* ===== verification/HwOrder.v ===== *)
(** * HwOrder: the engine implements the matching rule

An order that an engine takes is placed and settled ([place], [settle]) clock by
clock; and this is a run of the matching rule [match_run], the one that the simulators
implement. *)
From S2P Require Import Prelude HeapModel Machine Heap Book.
From S2P Require Import HwHeap HwTiers HwAccess HwSites HwSift HwCommand HwEngine HwRun HwSettle.

(** ** Nodes as orders *)

Definition letter (z : Z) : Ascii.ascii := Ascii.ascii_of_nat (Z.to_nat z).

(** The order that a node stands for, with the type as the simulators write it. *)
Definition node_order (n : Z) : Order :=
  mkOrder (order_price n) (order_ts n) (order_amount n) (1 - order_type n)
    (String (letter (field n 46 7)) (String (letter (field n 39 7)) (String (letter (field n 32 7)) EmptyString))).

Lemma node_order_amount n v :
  0 <= v < 2 ^ 16 -> node_order (with_amount n v) = Machine.set_amount v (node_order n).
Proof.
  intros Hv. destruct (with_amount_fields n v Hv) as (Ha & Hp & Ht & Hty & Hs). unfold node_order, Machine.set_amount.
  cbn. rewrite Ha, Hp, Ht, Hty.
  assert (Hf : forall i, 0 <= i <= 14 -> field (with_amount n v) (32 + i) 7 = field n (32 + i) 7).
  { intros i Hi. rewrite <- !(field_field _ 32 21 i 7), Hs by lia. done. }
  pose proof (Hf 14 ltac:(lia) : field _ 46 7 = field _ 46 7) as H1.
  pose proof (Hf 7 ltac:(lia) : field _ 39 7 = field _ 39 7) as H2.
  pose proof (Hf 0 ltac:(lia) : field _ 32 7 = field _ 32 7) as H3. by rewrite H1, H2, H3.
Qed.

(** Price-time priority among nodes. *)
Definition node_le (k : Kind) (a b : Z) : Prop := wins k b a = false.

Lemma node_le_keys k a b :
  node_le k a b <-> match k with
    | MAX_HEAP => bid_le (node_order a) (node_order b) | MIN_HEAP => ask_le (node_order a) (node_order b) end.
Proof.
  unfold node_le, wins, a_wins_fields, bid_le, ask_le. cbn.
  destruct k, (Z.eqb_spec (order_price b) (order_price a)); cbn; lia.
Qed.

#[export] Instance node_le_preorder k : PreOrder (node_le k).
Proof.
  split; [intros a|intros a b c]; rewrite ?node_le_keys; destruct k; unfold bid_le, ask_le; cbn; lia.
Qed.

Lemma wins_le k a b : wins k a b = true -> node_le k a b.
Proof.
  unfold node_le, wins, a_wins_fields. destruct k, (Z.eqb_spec (order_price a) (order_price b)),
    (Z.eqb_spec (order_price b) (order_price a)); cbn; lia.
Qed.

(** ** Ordered books of the engine *)

(** A side of a book: a heap of orders whose amounts are those of dispatched orders. *)
Record side_ok (k : Kind) (xs : list Z) : Prop := {
  side_order : heap_order (node_le k) xs;
  side_amounts : Forall (fun n => order_amount n < 2 ^ 15) xs
}.

Lemma push_side_ok k xs n : side_ok k xs -> order_amount n < 2 ^ 15 -> side_ok k (push_heap (wins k) xs n).
Proof.
  intros [Ho Ha] Hn. split.
  - apply push_heap_order; [apply node_le_preorder|apply wins_le|done|done].
  - rewrite push_heap_perm. by apply Forall_cons.
Qed.

(** A change of the root's amount keeps the order. *)
Lemma update_order k xs v :
  0 <= v < 2 ^ 16 -> heap_order (node_le k) xs -> heap_order (node_le k) (<[0%nat := with_amount (xs !!! 0%nat) v]> xs).
Proof.
  intros Hv Ho j Hj. rewrite length_insert in Hj. pose proof (parent_lt j ltac:(lia)) as Hp. specialize (Ho j Hj).
  rewrite (list_lookup_total_insert_ne _ 0 j) by lia. unfold node_le in *.
  destruct (decide (parent j = 0%nat)) as [H0|H0].
  - rewrite H0 in *. rewrite list_lookup_total_insert_eq by lia. by rewrite (proj2 (wins_with_amount _ _ _ _ Hv)).
  - by rewrite list_lookup_total_insert_ne by lia.
Qed.

Lemma keep_ok k q xs :
  side_ok k xs -> xs <> [] -> 0 <= q <= order_amount (xs !!! 0%nat) -> side_ok k (keep k q xs).
Proof.
  intros [Ho Ha] Hne Hq. pose proof (amount_bound (xs !!! 0%nat)) as Hb. unfold keep.
  destruct (Z.eqb_spec (order_amount (xs !!! 0%nat)) q) as [Heq|Hlt].
  - split; [apply pop_heap_order; [apply node_le_preorder|apply wins_le|done|done]|].
    pose proof (pop_heap_perm (wins k) xs Hne) as Hp. rewrite Hp in Ha. by apply Forall_cons_1 in Ha as [_ Ha].
  - assert (Hv : 0 <= order_amount (xs !!! 0%nat) - q < 2 ^ 16) by lia.
    split; [by apply update_order|]. apply Forall_insert; [done|]. rewrite (proj1 (with_amount_fields _ _ Hv)).
    pose proof (Forall_lookup_total_1 _ _ 0%nat Ha) as Hr. cbn in Hr. destruct xs; [done|]. cbn in *. specialize (Hr ltac:(lia)). lia.
Qed.

(** What the rule says of one side. *)
Lemma keep_remainder k q xs :
  side_ok k xs -> xs <> [] -> 0 <= q <= order_amount (xs !!! 0%nat) ->
  map node_order (keep k q xs) ≡ₚ remainder (node_order (xs !!! 0%nat)) q (map node_order (tail xs)).
Proof.
  intros [_ Ha] Hne Hq. pose proof (amount_bound (xs !!! 0%nat)) as Hb. unfold keep, remainder. cbn [amount node_order].
  destruct (Z.eqb_spec (order_amount (xs !!! 0%nat)) q) as [Heq|Hlt].
  - pose proof (pop_heap_perm (wins k) xs Hne) as Hp. destruct xs as [|x xs]; [done|]. cbn [tail].
    change ((x :: xs) !!! 0%nat) with x in Hp. apply Permutation_cons_inv in Hp. by rewrite Hp at 2.
  - destruct xs as [|x xs]; [done|]. cbn in *. apply Forall_cons in Ha as [Hx _].
    rewrite node_order_amount by lia. by rewrite s16_small by lia.
Qed.

(** The root is the best order. *)
Lemma root_best_node k xs x : side_ok k xs -> x ∈ xs -> node_le k (xs !!! 0%nat) x.
Proof.
  intros [Ho _] Hx. apply list_elem_of_lookup in Hx as [j Hj].
  rewrite <- (list_lookup_total_correct _ _ _ Hj). apply heap_order_root; [apply node_le_preorder|done|].
  by eapply lookup_lt_Some.
Qed.

(** ** Settling is a run of the rule *)

Lemma crosses_spec bids asks :
  crosses bids asks = true <->
  bids <> [] /\ asks <> [] /\ order_price (asks !!! 0%nat) <= order_price (bids !!! 0%nat).
Proof. unfold crosses. destruct bids, asks; cbn; rewrite ?bool_decide_eq_false_2 by done; cbn; intuition (done || lia). Qed.

(** Nothing crosses when the roots do not. *)
Lemma roots_apart_step bids asks :
  side_ok MAX_HEAP bids -> side_ok MIN_HEAP asks -> crosses bids asks = false ->
  match_step (map node_order asks) (map node_order bids) 0 (map node_order asks) (map node_order bids).
Proof.
  intros Hb Ha Hc. constructor. intros oa ob Hoa Hob.
  apply list_elem_of_fmap in Hoa as (a & -> & Hina). apply list_elem_of_fmap in Hob as (b & -> & Hinb).
  pose proof (root_best_node _ _ _ Hb Hinb) as Hrb. pose proof (root_best_node _ _ _ Ha Hina) as Hra.
  apply node_le_keys in Hrb, Hra. unfold bid_le, ask_le in *. cbn in *.
  assert (Hn : ~ crosses bids asks = true) by by rewrite Hc. rewrite crosses_spec in Hn.
  assert (bids <> [] /\ asks <> []) as [? ?] by (by destruct bids, asks; set_solver).
  assert (order_price (bids !!! 0%nat) < order_price (asks !!! 0%nat)) by tauto || (apply Z.nle_gt; tauto). lia.
Qed.

(** One trade is one step of the rule. *)
Lemma keep_step bids asks :
  side_ok MAX_HEAP bids -> side_ok MIN_HEAP asks -> crosses bids asks = true ->
  let q := order_amount (bids !!! 0%nat) `min` order_amount (asks !!! 0%nat) in
  match_step (map node_order asks) (map node_order bids) 1
    (map node_order (keep MIN_HEAP q asks)) (map node_order (keep MAX_HEAP q bids)).
Proof.
  intros Hb Ha Hc q. apply crosses_spec in Hc as (Hnb & Hna & Hp).
  pose proof (amount_bound (bids !!! 0%nat)). pose proof (amount_bound (asks !!! 0%nat)).
  assert (Hq : q = amount (node_order (asks !!! 0%nat)) `min` amount (node_order (bids !!! 0%nat))) by (cbn; lia).
  assert (Hsplit : forall xs : list Z, xs <> [] -> map node_order xs ≡ₚ node_order (xs !!! 0%nat) :: map node_order (tail xs))
    by (by intros [|x xs]).
  eapply (match_trade _ _ (node_order (asks !!! 0%nat)) (node_order (bids !!! 0%nat))); [by apply Hsplit|by apply Hsplit|..].
  - intros x (n & -> & Hn)%list_elem_of_fmap. apply (node_le_keys MIN_HEAP). by apply root_best_node.
  - intros x (n & -> & Hn)%list_elem_of_fmap. apply (node_le_keys MAX_HEAP). by apply root_best_node.
  - exact Hp.
  - rewrite <- Hq. apply keep_remainder; [done|done|lia].
  - rewrite <- Hq. apply keep_remainder; [done|done|lia].
Qed.

Lemma settle_run fuel : forall bids asks ts bids' asks',
  (length bids + length asks <= fuel)%nat -> side_ok MAX_HEAP bids -> side_ok MIN_HEAP asks ->
  settle fuel bids asks = (ts, bids', asks') ->
  match_run (map node_order asks) (map node_order bids) (length ts) (map node_order asks') (map node_order bids') /\
  side_ok MAX_HEAP bids' /\ side_ok MIN_HEAP asks'.
Proof.
  induction fuel as [|fuel IH]; intros bids asks ts bids' asks' Hf Hb Ha Hset.
  { cbn in Hset. injection Hset as <- <- <-. destruct bids; [|simpl in Hf; lia]. destruct asks; [|simpl in Hf; lia].
    split; [|done]. apply run_done, roots_apart_step; done. }
  cbn [settle] in Hset. destruct (crosses bids asks) eqn:Hc.
  - set (q := order_amount (bids !!! 0%nat) `min` order_amount (asks !!! 0%nat)) in *.
    destruct (settle fuel _ _) as [[ts1 b1] a1] eqn:Hset1. injection Hset as <- <- <-.
    pose proof (keep_step bids asks Hb Ha Hc) as Hstep. fold q in Hstep. cbn zeta in Hstep.
    apply crosses_spec in Hc as (Hnb & Hna & Hp).
    pose proof (amount_bound (bids !!! 0%nat)). pose proof (amount_bound (asks !!! 0%nat)).
    pose proof (keep_length MAX_HEAP q bids Hnb). pose proof (keep_length MIN_HEAP q asks Hna).
    destruct (IH (keep MAX_HEAP q bids) (keep MIN_HEAP q asks) ts1 b1 a1) as [Hrun Hok]; [lia|..|done|].
    + apply keep_ok; [done|done|lia].
    + apply keep_ok; [done|done|lia].
    + split; [|done]. cbn [length]. by eapply run_trade.
  - injection Hset as <- <- <-. split; [|done]. by apply run_done, roots_apart_step.
Qed.

(** ** The engine *)

(** What an order adds to the book. *)
Definition placed (is_ask : bool) (o : Z) (bids asks bids1 asks1 : list Z) : Prop :=
  if is_ask then bids1 = bids /\ asks1 ≡ₚ o :: asks else bids1 ≡ₚ o :: bids /\ asks1 = asks.

Lemma place_placed is_ask o bids asks :
  placed is_ask o bids asks (fst (place is_ask o bids asks)) (snd (place is_ask o bids asks)).
Proof. unfold place, placed. destruct is_ask; cbn; (split; [done || apply push_heap_perm|done || apply push_heap_perm]). Qed.

(** The fields of the node of a dispatched order; the time stamp is a word. *)
Lemma order_node_fields e i :
  0 <= now_ts i < 2 ^ 32 -> 0 <= e < 8 ->
  let n := order_node e i in
  order_type n = field (order_in_data i) 31 1 /\ order_price n = field (order_in_data i) 15 16 /\
  order_amount n = field (order_in_data i) 0 15 /\ order_ts n = now_ts i.
Proof.
  intros Ht He. unfold order_node, order_type, order_price, order_amount, order_ts. set (d := order_in_data i).
  pose proof (field_bound d 15 16 ltac:(lia)) as Hp. pose proof (field_bound d 0 15 ltac:(lia)) as Ha.
  pose proof (field_bound d 31 1 ltac:(lia)) as Hty.
  assert (Hs : 0 <= SYMBOL e < 2 ^ 21).
  { assert (He' : e = 0 \/ e = 1 \/ e = 2 \/ e = 3 \/ e = 4 \/ e = 5 \/ e = 6 \/ e = 7) by lia.
    destruct He' as [-> | [-> | [-> | [-> | [-> | [-> | [-> | ->]]]]]]]; vm_compute; split; congruence. }
  cbn zeta. repeat split.
  - rewrite !field_cat_high by lia. by apply field_whole.
  - rewrite !field_cat_high, field_cat_low by lia. apply (field_whole _ 16 Hp).
  - rewrite !field_cat_high, field_cat_low by lia. apply (field_whole _ 16). lia.
  - rewrite field_cat_low by lia. by apply field_whole.
Qed.

Section Order.
Context {V : Type} `{MmuLaws V}.
Variable e : Z.
Variable ins : nat -> EngineIn.
Variable cap : Z.
Hypothesis He : 0 <= e < 8.
Hypothesis Hcap : cap <= 1024.
Hypothesis Hroom : forall k, capacity e k cap.
Hypothesis Hready : forall n, exists m, trade_out_ready (ins (n + m)) = true.
Hypothesis Hclock : forall n, 0 <= now_ts (ins n) < 2 ^ 32.

Definition book_of (bids asks : list Z) : Books := fun k => match k with MAX_HEAP => bids | MIN_HEAP => asks end.

(** Both heaps as they are after a reset. *)
Lemma fresh_books c t w : holds t w -> books (mkEngine c fsm_reset fsm_reset t) w (book_of [] []).
Proof.
  intros Ht. split; [by intros []| |exact Ht]. intros k.
  assert (Hr : heap_rep k (core fsm_reset) w []).
  { split; cbn; [done|simpl; lia| |done|done]. intros j. unfold cache_valid. cbn.
    intros [_ Hv]%andb_true_iff. by destruct (Z.to_nat (Z.of_nat j)) as [|[|[|?]]]. }
  by destruct k.
Qed.

(** From the cycle after the one that takes an order to its last trade. *)
Lemma order_leads n (E : Engine V) w bids asks log ts bids2 asks2 :
  books E w (book_of bids asks) -> tstate (ctrl E) = T_IDLE -> order_in_valid (ins n) = true ->
  Z.of_nat (length bids) < cap -> Z.of_nat (length asks) < cap ->
  let is_ask := negb (Z.testbit (order_in_data (ins n)) 31) in
  let bk1 := place is_ask (order_node e (ins n)) bids asks in
  settle (length (fst bk1) + length (snd bk1)) (fst bk1) (snd bk1) = (ts, bids2, asks2) ->
  eleads e ins (settled bids2 asks2 (log ++ ts)) (S n) (engine_clock e (ins n) E) log.
Proof.
  intros Hb Hs Hv Hlb Hla is_ask bk1 Hset.
  destruct (quiet_books e w _ (ins n) E Hb) as [Hb2 _]; [intros k; destruct k; cbn; unfold bid_cmd, ask_cmd; by rewrite Hs|].
  pose proof (eq_refl : ctrl (engine_clock e (ins n) E) = ctrl_clock e (ins n) E) as Hc2.
  set (E2 := engine_clock e (ins n) E) in *. clearbody E2.
  set (k := if is_ask then MIN_HEAP else MAX_HEAP).
  assert (Hk : is_ask = bool_decide (k = MIN_HEAP)) by (unfold k; by destruct is_ask).
  unfold ctrl_clock, tn_state in Hc2. rewrite Hs, Hv in Hc2. cbn [andb] in Hc2.
  eapply (push_phase e ins cap Hcap Hroom _ (S n) E2 log w (book_of bids asks) k (order_node e (ins n))); [exact Hb2| | |apply order_node_typed, Hclock|].
  - rewrite Hc2. rewrite <- Hk. reflexivity.
  - unfold k. by destruct is_ask.
  - intros n3 E3 w3 bk3 Hb3 Hc3.
    assert (Hbk3 : bk3 MAX_HEAP = fst bk1 /\ bk3 MIN_HEAP = snd bk1) by (unfold bk3, bk1, place, k; by destruct is_ask).
    destruct Hbk3 as [Hm1 Hm2]. eapply (settle_leads e ins cap Hcap Hroom Hready _ n3 E3 log w3 bk3); [| |exact Hb3| |exact Hc3].
    + rewrite Hm1, Hm2. apply le_n.
    + rewrite Hm1, Hm2. exact Hset.
    + intros []; rewrite ?Hm1, ?Hm2; unfold bk1, place; destruct is_ask; cbn [fst snd]; rewrite ?push_heap_perm; simpl; lia.
Qed.

(** The rule places the order, then lets the sides trade. *)
Lemma order_settles i bids asks :
  0 <= now_ts i < 2 ^ 32 -> side_ok MAX_HEAP bids -> side_ok MIN_HEAP asks ->
  let bk1 := place (negb (Z.testbit (order_in_data i) 31)) (order_node e i) bids asks in
  exists ts bids2 asks2, settle (length (fst bk1) + length (snd bk1)) (fst bk1) (snd bk1) = (ts, bids2, asks2) /\
    match_run (map node_order (snd bk1)) (map node_order (fst bk1)) (length ts) (map node_order asks2) (map node_order bids2) /\
    side_ok MAX_HEAP bids2 /\ side_ok MIN_HEAP asks2.
Proof.
  intros Ht Hob Hoa bk1. destruct (settle (length (fst bk1) + length (snd bk1)) (fst bk1) (snd bk1)) as [[ts bids2] asks2] eqn:Hset.
  assert (Ho : order_amount (order_node e i) < 2 ^ 15).
  { destruct (order_node_fields e i Ht He) as (_ & _ & Ha & _). rewrite Ha. apply field_bound. lia. }
  assert (Hside : side_ok MAX_HEAP (fst bk1) /\ side_ok MIN_HEAP (snd bk1)).
  { unfold bk1, place. destruct (negb _); cbn [fst snd]; split; done || by apply push_side_ok. }
  exists ts, bids2, asks2. split; [done|]. exact (settle_run _ _ _ _ _ _ (le_n _) (proj1 Hside) (proj2 Hside) Hset).
Qed.

(** C8: an engine that takes an order while it rests comes back to rest, clock by clock
and whatever time the MMU and the receiver of trades take, before it takes another one,
with its book settled by the
matching rule of the exchange: the order has been added to its side, the best bid and
the best ask have traded as long as they crossed, one trade leaves for each step of the
rule, and both sides are heaps again. *)
Theorem engine_implements_matching n (E : Engine V) w bids asks log :
  books E w (book_of bids asks) -> tstate (ctrl E) = T_IDLE -> order_in_valid (ins n) = true ->
  side_ok MAX_HEAP bids -> side_ok MIN_HEAP asks ->
  Z.of_nat (length bids) < cap -> Z.of_nat (length asks) < cap ->
  exists bids1 asks1 ts bids2 asks2,
    placed (negb (Z.testbit (order_in_data (ins n)) 31)) (order_node e (ins n)) bids asks bids1 asks1 /\
    match_run (map node_order asks1) (map node_order bids1) (length ts) (map node_order asks2) (map node_order bids2) /\
    side_ok MAX_HEAP bids2 /\ side_ok MIN_HEAP asks2 /\
    eleads e ins (settled bids2 asks2 (log ++ ts)) (S n) (engine_clock e (ins n) E) log.
Proof.
  intros Hb Hs Hv Hob Hoa Hlb Hla.
  destruct (order_settles (ins n) bids asks (Hclock n) Hob Hoa) as (ts & bids2 & asks2 & Hset & Hrun & Hok).
  eexists _, _, ts, bids2, asks2. split; [apply place_placed|]. split; [exact Hrun|]. split; [apply Hok|]. split; [apply Hok|].
  by eapply order_leads.
Qed.
End Order.
