(* ===== verification/HwHistory.v ===== *)
(** * HwHistory: what an engine has done by a cycle

A run of an engine with the orders that it has taken and the trades that have left it.
At every cycle the trades are a beginning of those that the reference rule makes of the
orders ([engine_history]), and all of them when the engine rests; and if its trades are
received, it comes to rest before it takes the next order ([engine_rests_again]). *)
From Stdlib Require Import Sorted.
From S2P Require Import Prelude HeapModel Machine Heap Book.
From S2P Require Import HwHeap HwTiers HwAccess HwSites HwSift HwCommand HwEngine HwRun HwSettle HwOrder.

(** ** The reference *)

(** An order as the engine takes it: is it an ask, and its node. *)
Definition taken (e : Z) (i : EngineIn) : bool * Z := (negb (Z.testbit (order_in_data i) 31), order_node e i).

Definition trade_one (o : bool * Z) (s : list Z * list Z * list Z) : list Z * list Z * list Z :=
  let '(log, bids, asks) := s in
  let bk := place (fst o) (snd o) bids asks in
  let '(ts, bids', asks') := settle (length (fst bk) + length (snd bk)) (fst bk) (snd bk) in
  (log ++ ts, bids', asks').

(** The trades of a list of orders from an empty book on, and the book that they leave. *)
Definition trade_all (os : list (bool * Z)) : list Z * list Z * list Z :=
  fold_left (fun s o => trade_one o s) os ([], [], []).

Lemma trade_all_snoc os o : trade_all (os ++ [o]) = trade_one o (trade_all os).
Proof. unfold trade_all. by rewrite fold_left_app. Qed.

Lemma keep_shorter k q xs : (length (keep k q xs) <= length xs)%nat.
Proof.
  unfold keep. destruct (_ =? _); [|by rewrite length_insert]. destruct (decide (xs = [])) as [->|Hne]; [done|].
  pose proof (pop_heap_perm (wins k) xs Hne) as Hp. apply Permutation_length in Hp. simpl in Hp. lia.
Qed.

Lemma settle_shorter fuel : forall bids asks ts bids' asks',
  settle fuel bids asks = (ts, bids', asks') -> (length bids' <= length bids)%nat /\ (length asks' <= length asks)%nat.
Proof.
  induction fuel as [|fuel IH]; intros bids asks ts bids' asks'; cbn [settle]; [by intros [= <- <- <-]|].
  destruct (crosses bids asks); [|by intros [= <- <- <-]].
  destruct (settle fuel _ _) as [[ts1 b1] a1] eqn:Hs. intros [= <- <- <-]. apply IH in Hs as [Hb Ha].
  pose proof (keep_shorter MAX_HEAP (order_amount (bids !!! 0%nat) `min` order_amount (asks !!! 0%nat)) bids).
  pose proof (keep_shorter MIN_HEAP (order_amount (bids !!! 0%nat) `min` order_amount (asks !!! 0%nat)) asks). lia.
Qed.

Lemma place_longer is_ask n bids asks :
  (length (fst (place is_ask n bids asks)) <= S (length bids))%nat /\
  (length (snd (place is_ask n bids asks)) <= S (length asks))%nat.
Proof. unfold place. destruct is_ask; cbn [fst snd]; rewrite push_heap_perm; simpl; lia. Qed.

(** Every trade takes an order off a side. *)
Lemma settle_few fuel : forall bids asks ts bids' asks',
  settle fuel bids asks = (ts, bids', asks') -> (length ts + length bids' + length asks' <= length bids + length asks)%nat.
Proof.
  induction fuel as [|fuel IH]; intros bids asks ts bids' asks'; cbn [settle]; [intros [= <- <- <-]; simpl; lia|].
  destruct (crosses bids asks) eqn:Hc; [|intros [= <- <- <-]; simpl; lia].
  destruct (settle fuel _ _) as [[ts1 b1] a1] eqn:Hs. intros [= <- <- <-]. apply IH in Hs. cbn [length].
  apply crosses_spec in Hc as (Hb & Ha & _). set (q := order_amount (bids !!! 0%nat) `min` order_amount (asks !!! 0%nat)) in *.
  pose proof (keep_length MAX_HEAP q bids Hb) as [H1 H2]. pose proof (keep_length MIN_HEAP q asks Ha) as [H3 H4].
  destruct (Z.min_spec (order_amount (bids !!! 0%nat)) (order_amount (asks !!! 0%nat))) as [[_ Hq]|[_ Hq]]; fold q in Hq;
    [specialize (H2 (eq_sym Hq))|specialize (H4 (eq_sym Hq))]; lia.
Qed.

Lemma trade_all_few os :
  let '(log, bids, asks) := trade_all os in (length log + length bids + length asks <= length os)%nat.
Proof.
  induction os as [|o os IH] using rev_ind; [simpl; lia|]. rewrite trade_all_snoc. destruct (trade_all os) as [[log bids] asks].
  unfold trade_one. destruct (settle _ _ _) as [[ts b] a] eqn:Hs. apply settle_few in Hs. rewrite !length_app.
  unfold place in Hs. destruct (fst o); cbn [fst snd length] in *; rewrite push_heap_perm in Hs; simpl in *; lia.
Qed.

(** ** A run *)

Section Run.
Context {V : Type} `{MmuPort V}.
Variables (e : Z) (ins : nat -> EngineIn) (E0 : Engine V).

Fixpoint engine_at (n : nat) : Engine V :=
  match n with O => E0 | S m => engine_clock e (ins m) (engine_at m) end.

(** The engine takes an order in the cycle [n]. *)
Definition takes_at (n : nat) : bool := order_in_ready (engine_at n) && order_in_valid (ins n).

(** The orders that it has taken and the trades that have left it before the cycle [n]. *)
Fixpoint orders_at (n : nat) : list (bool * Z) :=
  match n with O => [] | S m => orders_at m ++ (if takes_at m then [taken e (ins m)] else []) end.
Fixpoint trades_at (n : nat) : list Z :=
  match n with O => [] | S m => trades_at m ++ trade_out (ins m) (engine_at m) end.

Lemma busy_not_ready n : tstate (ctrl (engine_at n)) <> T_IDLE -> takes_at n = false.
Proof. intros Hs. unfold takes_at, order_in_ready. by rewrite bool_decide_eq_false_2. Qed.

Lemma trades_grow n n' : (n <= n')%nat -> trades_at n `prefix_of` trades_at n'.
Proof. induction 1 as [|n' _ IH]; [done|]. cbn. by apply prefix_app_r. Qed.

Lemma orders_still n n' :
  (n <= n')%nat -> (forall j, (n <= j < n')%nat -> tstate (ctrl (engine_at j)) <> T_IDLE) -> orders_at n' = orders_at n.
Proof.
  induction 1 as [|n' Hle IH]; intros Hb; [done|]. cbn. rewrite busy_not_ready by (apply Hb; lia). rewrite app_nil_r. apply IH.
  intros j Hj. apply Hb. lia.
Qed.

(** The run is where it leads. *)
Lemma eleads_at Q n :
  eleads e ins Q n (engine_at n) (trades_at n) ->
  exists n', (n <= n')%nat /\ Q n' (engine_at n') (trades_at n') /\
    forall j, (n <= j < n')%nat -> tstate (ctrl (engine_at j)) <> T_IDLE.
Proof.
  intros Hl. remember (engine_at n) as E eqn:HE. remember (trades_at n) as log eqn:Hlog.
  induction Hl as [n E log HQ|n E log Hb _ IH]; subst.
  - exists n. split; [lia|]. split; [done|]. lia.
  - destruct IH as (n' & Hn' & HQ & Hbusy); [done|done|]. exists n'. split; [lia|]. split; [done|].
    intros j Hj. destruct (decide (j = n)) as [->|Hne]; [done|apply Hbusy; lia].
Qed.
End Run.

(** The same inputs, the same run. *)
Lemma same_run {V} `{MmuPort V} e (ins ins' : nat -> EngineIn) (E0 : Engine V) n :
  (forall j, (j < n)%nat -> ins' j = ins j) ->
  engine_at e ins' E0 n = engine_at e ins E0 n /\ orders_at e ins' E0 n = orders_at e ins E0 n /\
  trades_at e ins' E0 n = trades_at e ins E0 n.
Proof.
  induction n as [|n IH]; intros Hi; [done|]. destruct IH as (H1 & H2 & H3); [intros j Hj; apply Hi; lia|].
  cbn. unfold takes_at. by rewrite H1, H2, H3, Hi by lia.
Qed.

(** ** From rest to rest *)

Section History.
Context {V : Type} `{MmuLaws V}.
Variable e : Z.
Variable cap : Z.
Variable E0 : Engine V.
Hypothesis He : 0 <= e < 8.
Hypothesis Hcap : cap <= 1024.
Hypothesis Hroom : forall k, capacity e k cap.
Hypothesis Hstart : tstate (ctrl E0) = T_IDLE /\ exists w, books E0 w (book_of [] []).

(** The engine rests with the book that the reference rule leaves. *)
Record rests_with (E : Engine V) (os : list (bool * Z)) (log bids asks : list Z) : Prop := {
  rw_idle : tstate (ctrl E) = T_IDLE;
  rw_books : exists w, books E w (book_of bids asks);
  rw_bids : side_ok MAX_HEAP bids;
  rw_asks : side_ok MIN_HEAP asks;
  rw_all : trade_all os = (log, bids, asks);
  rw_few : (length bids <= length os /\ length asks <= length os)%nat;
  rw_apart : uncrossed (map node_order asks) (map node_order bids)
}.

Section Stream.
Variable ins : nat -> EngineIn.
Hypothesis Hclock : forall n, 0 <= now_ts (ins n) < 2 ^ 32.

Definition rest_at (n : nat) : Prop :=
  exists bids asks, rests_with (engine_at e ins E0 n) (orders_at e ins E0 n) (trades_at e ins E0 n) bids asks.

Lemma rest_start : rest_at 0.
Proof.
  destruct Hstart as [Hs Hb]. exists [], []. split; try done; try (split; [intros j Hj; simpl in Hj; lia|constructor]).
  intros oa ob Ha. by apply elem_of_nil in Ha.
Qed.

(** Without an order it goes on resting. *)
Lemma rest_quiet n : rest_at n -> order_in_valid (ins n) = false -> rest_at (S n).
Proof.
  intros (bids & asks & [Hs [w Hb] Hob Hoa Hall Hfew Hun]) Hv. exists bids, asks. unfold trades_at, orders_at; fold (trades_at e ins E0); fold (orders_at e ins E0).
  unfold takes_at. rewrite Hv, andb_false_r, app_nil_r, trade_out_none, app_nil_r by by rewrite Hs.
  destruct (quiet_books e w _ (ins n) _ Hb) as [Hb2 _]; [intros []; cbn; unfold bid_cmd, ask_cmd; by rewrite Hs|].
  split; try done; [|by exists w]. cbn. unfold tn_state. by rewrite Hs, Hv.
Qed.

Hypothesis Hready : forall n, exists m, trade_out_ready (ins (n + m)) = true.

(** With one it comes back to rest. *)
Lemma rest_order n :
  rest_at n -> order_in_valid (ins n) = true -> Z.of_nat (length (orders_at e ins E0 n)) < cap ->
  exists n', (n < n')%nat /\ rest_at n' /\ forall j, (n < j < n')%nat -> tstate (ctrl (engine_at e ins E0 j)) <> T_IDLE.
Proof.
  intros (bids & asks & [Hs [w Hb] Hob Hoa Hall Hfew Hun]) Hv Hlen.
  destruct (order_settles e He (ins n) bids asks (Hclock n) Hob Hoa) as (ts & bids2 & asks2 & Hset & Hrun & Hob2 & Hoa2).
  pose proof (order_leads e ins cap Hcap Hroom Hready Hclock n _ w bids asks (trades_at e ins E0 n) ts bids2 asks2
    Hb Hs Hv ltac:(lia) ltac:(lia) Hset) as Hl.
  assert (Htrades : trades_at e ins E0 (S n) = trades_at e ins E0 n) by (cbn; by rewrite trade_out_none, app_nil_r by by rewrite Hs).
  assert (Horders : orders_at e ins E0 (S n) = orders_at e ins E0 n ++ [taken e (ins n)]).
  { cbn. unfold takes_at, order_in_ready. by rewrite Hs, Hv. }
  change (engine_clock e (ins n) (engine_at e ins E0 n)) with (engine_at e ins E0 (S n)) in Hl. rewrite <- Htrades in Hl at 2.
  destruct (eleads_at e ins E0 _ (S n) Hl) as (n' & Hn' & (Hlog & Hidle & w2 & Hb2) & Hbusy). exists n'. split; [lia|].
  split; [|intros j Hj; apply Hbusy; lia]. exists bids2, asks2. rewrite (orders_still e ins E0 (S n) n' Hn' Hbusy), Horders, Hlog.
  destruct (settle_shorter _ _ _ _ _ _ Hset) as [Hl1 Hl2].
  destruct (place_longer (negb (Z.testbit (order_in_data (ins n)) 31)) (order_node e (ins n)) bids asks) as [Hp1 Hp2].
  split; try done.
  - by exists w2.
  - rewrite trade_all_snoc, Hall. unfold trade_one. cbn [taken fst snd]. by rewrite Hset.
  - rewrite length_app. simpl. lia.
  - by eapply match_run_uncrossed.
Qed.

Lemma orders_grow n n' : (n <= n')%nat -> (length (orders_at e ins E0 n) <= length (orders_at e ins E0 n'))%nat.
Proof. induction 1 as [|n' _ IH]; [done|]. cbn. rewrite length_app. lia. Qed.

(** The last rest before a cycle, and the next one. *)
Lemma rest_around N : Z.of_nat (length (orders_at e ins E0 N)) <= cap -> forall d k,
  (k + d = N)%nat -> rest_at k ->
  rest_at N \/ exists n', (N < n')%nat /\ rest_at n' /\ forall j, (N <= j < n')%nat -> tstate (ctrl (engine_at e ins E0 j)) <> T_IDLE.
Proof.
  intros HN d. induction d as [d IH] using lt_wf_ind. intros k Hk Hr. destruct d as [|d]; [left; by replace N with k by lia|].
  destruct (order_in_valid (ins k)) eqn:Hv; [|by apply (IH d ltac:(lia) (S k)); [lia|apply rest_quiet]].
  assert (Hlen : (length (orders_at e ins E0 k) < length (orders_at e ins E0 (S k)))%nat).
  { destruct Hr as (? & ? & [Hs _ _ _ _ _ _]). cbn. unfold takes_at, order_in_ready. rewrite Hs, Hv, length_app. simpl. lia. }
  pose proof (orders_grow (S k) N ltac:(lia)). destruct (rest_order k Hr Hv ltac:(lia)) as (n' & Hn' & Hr' & Hbusy).
  destruct (decide (n' <= N)%nat) as [Hle|Hgt]; [apply (IH (N - n')%nat ltac:(lia) n'); [lia|done]|].
  right. exists n'. split; [lia|]. split; [done|]. intros j Hj. apply Hbusy. lia.
Qed.

(** It comes to rest before it takes the next order. *)
Lemma engine_rests_again N :
  Z.of_nat (length (orders_at e ins E0 N)) <= cap ->
  exists n', (N <= n')%nat /\ rest_at n' /\ orders_at e ins E0 n' = orders_at e ins E0 N.
Proof.
  intros HN. destruct (rest_around N HN N 0 eq_refl rest_start) as [Hr|(n' & Hn' & Hr & Hbusy)]; [by exists N|].
  exists n'. split; [lia|]. split; [done|]. apply orders_still; [lia|]. intros j Hj. apply Hbusy. lia.
Qed.

Lemma history_if_ready N :
  Z.of_nat (length (orders_at e ins E0 N)) <= cap ->
  trades_at e ins E0 N `prefix_of` fst (fst (trade_all (orders_at e ins E0 N))) /\
  (tstate (ctrl (engine_at e ins E0 N)) = T_IDLE -> rest_at N).
Proof.
  intros HN. destruct (rest_around N HN N 0 eq_refl rest_start) as [Hr|(n' & Hn' & Hr & Hbusy)].
  - split; [|done]. destruct Hr as (bids & asks & [_ _ _ _ -> _ _]). done.
  - split; [|intros Hs; by destruct (Hbusy N ltac:(lia))]. destruct Hr as (bids & asks & [_ _ _ _ Hall _ _]).
    rewrite (orders_still e ins E0 N n' ltac:(lia)) in Hall by (intros j Hj; apply Hbusy; lia).
    rewrite Hall. cbn. apply trades_grow. lia.
Qed.
End Stream.

(** Whatever the receiver of the trades does. *)
Lemma engine_history ins N :
  (forall n, 0 <= now_ts (ins n) < 2 ^ 32) -> Z.of_nat (length (orders_at e ins E0 N)) <= cap ->
  trades_at e ins E0 N `prefix_of` fst (fst (trade_all (orders_at e ins E0 N))) /\
  (tstate (ctrl (engine_at e ins E0 N)) = T_IDLE -> rest_at ins N).
Proof.
  intros Hclock HN. set (ins' n := if (n <? N)%nat then ins n else mkEngineIn 0 false 0 true).
  assert (Hi : forall j, (j < N)%nat -> ins' j = ins j) by (intros j Hj; unfold ins'; by rewrite (proj2 (Nat.ltb_lt j N) Hj)).
  destruct (same_run e ins ins' E0 N Hi) as (HE & Ho & Ht).
  destruct (history_if_ready ins') with (N := N) as [Hp Hr].
  - intros n. unfold ins'. destruct (n <? N)%nat; [done|]. cbn. lia.
  - intros n. exists N. unfold ins'. by rewrite (proj2 (Nat.ltb_ge (n + N) N)) by lia.
  - by rewrite Ho.
  - unfold rest_at in *. rewrite HE, Ho, Ht in *. done.
Qed.
End History.
