(* ===== verification/HwDemo.v ===== *)
(** * HwDemo: an engine on a slow memory

A memory behind the MMU's port that refuses some requests and takes its time for the
others, and engines that run on it: the concrete inputs at which the theorems on the
engines are used. *)
From S2P Require Import Prelude HeapModel Machine Heap Book.
From S2P Require Import HwHeap HwTiers HwAccess HwSites HwSift HwCommand HwEngine HwRun HwSettle HwOrder.

(** ** A slow memory

A request is under way for two cycles; the first [refusals] of them are rejected. *)
Record Slow := mkSlow { cells : Z -> Z; under_way : option (VReq * nat); refusals : nat }.

Definition slow_ends (v : Slow) : bool := match under_way v with Some (_, O) => true | _ => false end.

#[export] Instance slow_port : MmuPort Slow := {|
  mmu_req_ready v _ := true;
  mmu_resp_valid v := slow_ends v && (refusals v =? 0)%nat;
  mmu_resp_reject v := slow_ends v && negb (refusals v =? 0)%nat;
  mmu_resp_data v := match under_way v with Some (r, _) => cells v (va_key (req_va r)) | None => 0 end;
  mmu_clock r v :=
    match under_way v with
    | Some (r, S n) => mkSlow (cells v) (Some (r, n)) (refusals v)
    | Some (r, O) =>
        match refusals v with
        | O => mkSlow (served r (cells v)) None O
        | S m => mkSlow (cells v) None m
        end
    | None => mkSlow (cells v) (match r with Some r => Some (r, 1%nat) | None => None end) (refusals v)
    end
|}.

Definition slow_rank (v : Slow) : nat := (3 * refusals v + match under_way v with Some (_, n) => n | None => 2 end)%nat.

#[export] Program Instance slow_laws : MmuLaws Slow := {|
  vm_free v c := under_way v = None /\ forall a, cells v a = c a;
  vm_busy v c r := (exists n, (n <= 1)%nat /\ under_way v = Some (r, n)) /\ forall a, cells v a = c a;
  vm_rank := slow_rank;
  vm_room _ := True;
  vm_asks _ := True
|}.
Next Obligation. intros [m u n] c [Hu Hc]. cbn in *. by rewrite Hu. Qed.
Next Obligation. intros [m u n] c [Hu Hc]. cbn in *. rewrite Hu. done. Qed.
Next Obligation. intros [m u n] c r [Hu Hc] _. cbn in *. rewrite Hu. cbn. split; [by exists 1%nat|done]. Qed.
Next Obligation. intros [m u n] c r [Hu Hc] _ _. unfold slow_rank. cbn in *. rewrite Hu. cbn. lia. Qed.
Next Obligation.
  intros [m u n] c r [(j & Hj & Hu) Hc]. cbn in *. subst u. destruct j as [|j]; cbn.
  - destruct n as [|n]; cbn; [|done]. split; [split; [done|]|intros _; apply Hc].
    intros a. unfold served. by rewrite Hc.
  - split; [exists j; split; [lia|done]|done].
Qed.
Next Obligation.
  intros [m u n] c r [(j & Hj & Hu) Hc] _. unfold slow_rank. cbn in *. subst u. destruct j as [|j]; cbn; [|lia].
  destruct n as [|n]; cbn; [done|lia].
Qed.
Next Obligation.
  intros [m u n] c r [(j & Hj & Hu) Hc]. unfold slow_rank. cbn in *. subst u. destruct j as [|j]; cbn; [|lia].
  by destruct n as [|n].
Qed.

(** ** An engine *)

Definition slow_tiers (n : nat) : Tiers Slow := mkTiers (replicate 128 0) 0 MMU_IDLE (mkSlow (fun _ => 0) None n).
Definition slow_engine (n : nat) : Engine Slow := mkEngine ctrl_reset fsm_reset fsm_reset (slow_tiers n).

(** A dispatched order. *)
Definition order_word (ty price quantity : Z) : Z := ty * 2 ^ 31 + price * 2 ^ 15 + quantity.

(** Bid 5 at 101, ask 3 at 100, ask 7 at 99, one at a time; the cycle is the time stamp. *)
Definition demo_orders (n : nat) : option Z :=
  match n with
  | 0%nat => Some (order_word 1 101 5)
  | 10%nat => Some (order_word 0 100 3)
  | 60%nat => Some (order_word 0 99 7)
  | _ => None
  end.
Definition demo_ins (n : nat) : EngineIn :=
  mkEngineIn (Z.of_nat n mod 2 ^ 32) (match demo_orders n with Some _ => true | None => false end)
    (default 0 (demo_orders n)) (Nat.odd n).

(** The engine after [m] cycles from the [n]-th, and the trades that have left it. *)
Fixpoint engine_run {V} `{MmuPort V} (e : Z) (ins : nat -> EngineIn) (m n : nat) (E : Engine V) : Engine V * list Z :=
  match m with
  | O => (E, [])
  | S m' => let '(E', ts) := engine_run e ins m' (S n) (engine_clock e (ins n) E) in (E', trade_out (ins n) E ++ ts)
  end.

Example demo_trades :
  let '(E, ts) := engine_run 2 demo_ins 120 0 (slow_engine 1) in
  tstate (ctrl E) = T_IDLE /\ bid_size E = 0 /\ ask_size E = 1 /\
  map (fun n => (order_price n, order_amount n)) ts = [(101, 3); (101, 2)].
Proof. vm_compute. repeat split. Qed.

Lemma slow_books n : exists w, books (slow_engine n) w (book_of [] []).
Proof.
  exists (view (slow_tiers n) (fun _ => 0)). apply fresh_books. exists (fun _ => 0). split; [|done]. split; [done|]. cbn. done.
Qed.

Lemma engine_implements_matching_witness :
  exists w, books (slow_engine 1) w (book_of [] []) /\
  exists bids1 asks1 ts bids2 asks2,
    placed false (order_node 2 (demo_ins 0)) [] [] bids1 asks1 /\
    match_run (map node_order asks1) (map node_order bids1) (length ts) (map node_order asks2) (map node_order bids2) /\
    side_ok MAX_HEAP bids2 /\ side_ok MIN_HEAP asks2 /\
    eleads 2 demo_ins (settled bids2 asks2 ([] ++ ts)) 1 (engine_clock 2 (demo_ins 0) (slow_engine 1)) [].
Proof.
  destruct (slow_books 1) as [w Hw]. exists w. split; [exact Hw|].
  refine (engine_implements_matching 2 demo_ins 1024 _ _ _ _ _ 0 (slow_engine 1) w [] [] [] Hw eq_refl eq_refl _ _ _ _).
  - lia.
  - lia.
  - intros k. split; [intros i Hi; exact I|intros i Hi wr d _; exact I].
  - intros n. destruct (Nat.odd n) eqn:Hn; [exists 0%nat; cbn; by rewrite Nat.add_0_r|exists 1%nat].
    cbn. rewrite Nat.add_1_r, Nat.odd_succ. by rewrite <- Nat.negb_odd, Hn.
  - intros n. cbn. apply Z.mod_pos_bound. lia.
  - split; [intros j Hj; simpl in Hj; lia|constructor].
  - split; [intros j Hj; simpl in Hj; lia|constructor].
  - simpl. lia.
  - simpl. lia.
Defined.
