(* ===== verification/HwSame.v ===== *)
(** * HwSame: the heap machine and the heaps of the simulators

The commands of the machine in one statement, and its equivalence with the C heap of
[sw_sim/heap.h]: on the same orders both compute the same array, position by position,
although one exchanges pointers and the other moves a hole through two tiers of
memory. *)
From S2P Require Import Prelude HeapModel Machine Heap Book.
From S2P Require Import HwHeap HwTiers HwAccess HwSites HwSift HwCommand HwEngine HwRun HwSettle HwOrder HwDemo.

(** What a command makes of the nodes. *)
Definition command_result (k : Kind) (op : Op) (v : Z) (f : Fsm) (xs : list Z) : list Z :=
  match op with
  | OP_PUSH => push_heap (wins k) xs v
  | OP_POP => pop_heap (wins k) xs
  | OP_PEEK => xs
  | OP_UPDATE => if cache_valid f 0 && update_keys_ok (mkCmd true OP_UPDATE v) f then <[0%nat := v]> xs else xs
  end.

Section Commands.
Context {V : Type} `{MmuLaws V}.
Variable e : Z.
Variable k : Kind.
Variable cap : Z.
Hypothesis Hcap : cap <= 1024.
Hypothesis Hroom : capacity e k cap.

(** C24: every command of an idle heap machine ends, whatever the command bus shows
meanwhile and however often the MMU rejects a request: the nodes are then those of the
reference definition of the command, the cache agrees with them, the other heap of the
engine is as it was, and after [OP_POP] or [OP_PEEK] of a heap that is not empty
[cmd_root_out] shows the root. *)
Theorem heap_command_correct op v f (t : Tiers V) w xs :
  fsm_state f = S_IDLE -> heap_rep k (core f) w xs -> holds t w -> Z.of_nat (length xs) <= cap ->
  (op = OP_PUSH -> Z.of_nat (length xs) < cap) -> (op = OP_PEEK -> xs <> []) -> fits 86 v ->
  let next := heap_clock e k (mkCmd true op v) f t in
  leads e k (fun f' t' =>
      (exists r, done_with k w (command_result k op v f xs) (op, r) f' t') /\
      (op = OP_POP \/ op = OP_PEEK -> xs <> [] -> cmd_root_out f' = xs !!! 0%nat))
    (fst next) (snd next).
Proof.
  intros Hs Hrep Ht Hlen Hpush Hpeek Hword. destruct op; cbn [command_result].
  - eapply leads_weaken; [|by apply (push_leads e k cap Hcap Hroom); auto].
    intros f' t' Hd. split; [by eexists|]. by intros [?|?].
  - destruct (decide (xs = [])) as [->|Hne].
    + eapply leads_weaken; [|by apply pop_empty_leads]. intros f' t' Hd. split; [by eexists|done].
    + eapply leads_weaken; [|by apply (pop_leads e k cap Hcap Hroom)]. intros f' t' Hd. split; [by eexists|].
      intros _ _. destruct Hd as (_ & Hout & _). injection Hout as Hop Hr. unfold cmd_root_out. by rewrite Hop, decide_False.
  - eapply leads_weaken; [|by apply (peek_leads e k cap); auto]. intros f' t' (Hd & _ & Hr). split; [by eexists|done].
  - destruct (cache_valid f 0 && _) eqn:Hk.
    + apply andb_true_iff in Hk as [Hv Hk]. apply andb_true_iff in Hk as [Hp Hts]. cbn [cmd_data_in] in Hp, Hts.
      destruct (rep_cached _ _ _ _ Hrep 0%nat Hv) as [Hn Hroot]. change (cache_data f 0 = xs !!! 0%nat) in Hroot.
      rewrite Hroot in Hp, Hts.
      eapply leads_weaken; [|apply update_leads; [done|done|done| |done|done|lia|lia]]; [|by intros ->; simpl in Hn; lia].
      intros f' t' Hd. split; [by eexists|]. by intros [?|?].
    + eapply leads_weaken; [|by apply update_refused]. intros f' t' Hd. split; [by eexists|]. by intros [?|?].
Qed.
End Commands.

Lemma heap_command_correct_witness :
  exists w, holds (slow_tiers 2) w /\
  leads 2 MAX_HEAP (fun f' t' =>
      (exists r, done_with MAX_HEAP w (push_heap (wins MAX_HEAP) [] 5) (OP_PUSH, r) f' t') /\
      (OP_PUSH = OP_POP \/ OP_PUSH = OP_PEEK -> ([] : list Z) <> [] -> cmd_root_out f' = ([] : list Z) !!! 0%nat))
    (fst (heap_clock 2 MAX_HEAP (mkCmd true OP_PUSH 5) fsm_reset (slow_tiers 2)))
    (snd (heap_clock 2 MAX_HEAP (mkCmd true OP_PUSH 5) fsm_reset (slow_tiers 2))).
Proof.
  destruct (slow_books 2) as [w Hw]. exists w. pose proof (books_mem _ _ _ Hw) as Hm. split; [exact Hm|].
  refine (heap_command_correct 2 MAX_HEAP 1024 _ _ OP_PUSH 5 fsm_reset (slow_tiers 2) w [] eq_refl _ Hm _ _ _ _).
  - lia.
  - split; [intros i Hi; exact I|intros i Hi wr d _; exact I].
  - exact (books_rep _ _ _ Hw MAX_HEAP).
  - simpl. lia.
  - intros _. simpl. lia.
  - discriminate.
  - by split.
Defined.

(** ** Equivalence with the C heap *)

Definition c_pick (k : Kind) : Order -> Order -> bool := match k with MAX_HEAP => max_pick | MIN_HEAP => min_pick end.
Definition c_cmp (k : Kind) : HeapCmpFunc := match k with MAX_HEAP => max_cmp | MIN_HEAP => min_cmp end.

(** A node and a pointer that stand for orders of the same price and time. *)
Definition same_key (st : list Order) (n : Z) (p : nat) : Prop :=
  order_price n = price (st !!! p) /\ order_ts n = timestamp (st !!! p).

(** No two orders of a list have the same price and time. *)
Definition distinct_keys (ns : list Z) : Prop := NoDup (map (fun n => (order_price n, order_ts n)) ns).

Lemma keys_agree k st ns ps :
  Forall2 (same_key st) ns ps -> distinct_keys ns -> NoDup ps ->
  agree (wins k) (better (c_pick k) st) (same_key st) ns ps.
Proof.
  intros HR Hd Hp. split; [done|]. intros i j Hi Hj Hij. pose proof (Forall2_length _ _ _ HR) as Hlen.
  pose proof (Forall2_total (same_key st) ns ps i HR Hi) as [Hpi Hti].
  pose proof (Forall2_total (same_key st) ns ps j HR Hj) as [Hpj Htj].
  assert (Hne : ps !!! i <> ps !!! j).
  { intros Heq. apply Hij. apply (NoDup_lookup _ i j (ps !!! i) Hp); [|rewrite Heq]; apply list_lookup_lookup_total_lt; lia. }
  assert (Hkeys : ~ (order_price (ns !!! i) = order_price (ns !!! j) /\ order_ts (ns !!! i) = order_ts (ns !!! j))).
  { intros [H1 H2]. apply Hij. apply (NoDup_lookup _ i j (order_price (ns !!! i), order_ts (ns !!! i)) Hd).
    - by rewrite list_lookup_fmap, list_lookup_lookup_total_lt.
    - rewrite list_lookup_fmap, list_lookup_lookup_total_lt by done. cbn. by rewrite H1, H2. }
  unfold better. replace (Nat.eqb _ _) with false by (symmetry; by apply Nat.eqb_neq). rewrite orb_false_r.
  unfold wins, a_wins_fields. destruct k; unfold c_pick, max_pick, min_pick; rewrite <- Hpi, <- Hti, <- Hpj, <- Htj;
    repeat case_match; try done; lia.
Qed.

(** A C heap and a heap machine with the same orders in the same places. *)
Record twins (k : Kind) (st : list Order) (h : Heap) (ps : list nat) (f : Fsm) (w : Kind -> Z -> Z) (ns : list Z) : Prop := {
  twin_heap : Heap.heap_rep h ps;
  twin_cmp : cmp h = c_cmp k;
  twin_valid : valid st ps;
  twin_machine : heap_rep k (core f) w ns;
  twin_same : Forall2 (same_key st) ns ps;
  twin_keys : distinct_keys ns;
  twin_nodup : NoDup ps
}.

Section Equivalence.
Context `{Env} {W : Type} `{NodeMemory W}.
Context {V : Type} `{MmuLaws V}.
Variable e : Z.
Variable k : Kind.
Variable cap : Z.
Hypothesis Hcap : cap <= 1024.
Hypothesis Hroom : capacity e k cap.

#[local] Instance c_comparator : Comparator (c_cmp k) (c_pick k).
Proof. destruct k; apply _. Qed.

Lemma twins_length st h ps f w ns : twins k st h ps f w ns -> length ps = length ns.
Proof. intros Ht. symmetry. apply (Forall2_length _ _ _ (twin_same _ _ _ _ _ _ _ Ht)). Qed.

Lemma snoc_keys st ns ps v p :
  Forall2 (same_key st) ns ps -> NoDup ps -> same_key st v p -> p ∉ ps -> distinct_keys (ns ++ [v]) ->
  agree (wins k) (better (c_pick k) st) (same_key st) (ns ++ [v]) (ps ++ [p]).
Proof.
  intros HR Hp Hv Hnin Hd. apply keys_agree; [|done|].
  { apply Forall2_app; [done|]. constructor; [done|constructor]. }
  apply NoDup_app. split; [done|]. split; [set_solver|apply NoDup_singleton].
Qed.

(** C9: the heap machine of an engine and the heap of the simulators are the same
heap.  When they hold the same orders in the same places, no two of the same price and
time, then after the same order is pushed into both, or after the best one is taken
from both, they hold the same orders in the same places again, and the order taken is
the same. *)
Theorem machine_equals_heap_h m h (x : W) ps f (t : Tiers V) w ns :
  twins k (store m) h ps f w ns -> fsm_state f = S_IDLE -> holds t w -> Z.of_nat (length ns) < cap ->
  (forall v p, same_key (store m) v p -> p ∉ ps -> (p < length (store m))%nat -> distinct_keys (ns ++ [v]) -> fits 86 v ->
    exists h' ps' ns', push p (mkHW m h x) = Val tt (mkHW m h' x) /\ Heap.heap_rep h' ps' /\
      Forall2 (same_key (store m)) ns' ps' /\
      let next := heap_clock e k (mkCmd true OP_PUSH v) f t in
      leads e k (fun f' t' => exists r, done_with k w ns' (OP_PUSH, r) f' t') (fst next) (snd next)) /\
  (ns <> [] ->
    exists q h' ps' ns', pop (mkHW m h x) = Val q (mkHW (tick 1 m) h' x) /\ Heap.heap_rep h' ps' /\
      Forall2 (same_key (store m)) ns' ps' /\ same_key (store m) (ns !!! 0%nat) q /\
      let next := heap_clock e k (mkCmd true OP_POP 0) f t in
      leads e k (fun f' t' => done_with k w ns' (OP_POP, ns !!! 0%nat) f' t') (fst next) (snd next)).
Proof.
  intros Htw Hs Ht Hlen. pose proof (twins_length _ _ _ _ _ _ Htw) as Hl. destruct Htw as [Hh Hc Hv Hm HR Hd Hn]. split.
  - intros v p Hvp Hp Hin Hkeys Hword.
    destruct (push_refines (c := c_cmp k) (pick := c_pick k) m h x ps p) as (h' & Hrun & Hrep & _); [done..|lia|].
    exists h', (push_heap (better (c_pick k) (store m)) ps p), (push_heap (wins k) ns v).
    split; [exact Hrun|]. split; [exact Hrep|]. split.
    + apply (agree_elements (wins k) (better (c_pick k) (store m))), agree_push. by apply snoc_keys.
    + eapply leads_weaken; [|by apply (push_leads e k cap Hcap Hroom)]. intros f' t' Hdone. by eexists.
  - intros Hne. assert (Hps : ps <> []) by (intros ->; destruct ns; [done|simpl in Hl; lia]).
    destruct (pop_refines (c := c_cmp k) (pick := c_pick k) m h x ps) as (h' & Hrun & Hrep & _); [done..|lia|].
    exists (ps !!! 0%nat), h', (pop_heap (better (c_pick k) (store m)) ps), (pop_heap (wins k) ns).
    split; [exact Hrun|]. split; [exact Hrep|]. split; [|split].
    + apply (agree_elements (wins k) (better (c_pick k) (store m))), agree_pop. by apply keys_agree.
    + apply Forall2_total; [done|]. destruct ns; [done|simpl; lia].
    + apply (pop_leads e k cap Hcap Hroom); try done. lia.
Qed.
End Equivalence.

(** One bid of price and time 0 in both heaps: the word 0 in the cold memory, the
pointer 0 in the array. *)
Definition twin_mach : Mach := set_store [mkOrder 0 0 4 0 "AAA"] init_mach.
Definition twin_fsm : Fsm := set_size 1 fsm_reset.

Lemma twin_fsm_rep w : w MAX_HEAP 0 = 0 -> heap_rep MAX_HEAP (core twin_fsm) w [0].
Proof.
  intros Hw. split; cbn; [done| | |done|by apply Forall_singleton].
  - intros j Hj. by replace j with 0%nat by lia.
  - intros j. unfold cache_valid. cbn.
    intros [_ Hv]%andb_true_iff. by destruct (Z.to_nat (Z.of_nat j)) as [|[|[|?]]].
Qed.

Lemma machine_equals_heap_h_witness :
  exists w, holds (slow_tiers 1) w /\
  (forall v p, same_key (store twin_mach) v p -> p ∉ [0%nat] -> (p < length (store twin_mach))%nat ->
    distinct_keys ([0] ++ [v]) -> fits 86 v ->
    exists h' ps' ns', @push unit p (mkHW twin_mach (demo_heap max_cmp [0%nat]) tt) = Val tt (mkHW twin_mach h' tt) /\
      Heap.heap_rep h' ps' /\ Forall2 (same_key (store twin_mach)) ns' ps' /\
      let next := heap_clock 2 MAX_HEAP (mkCmd true OP_PUSH v) twin_fsm (slow_tiers 1) in
      leads 2 MAX_HEAP (fun f' t' => exists r, done_with MAX_HEAP w ns' (OP_PUSH, r) f' t') (fst next) (snd next)) /\
  ([0] <> [] ->
    exists q h' ps' ns', @pop demo_env unit (ret tt) (mkHW twin_mach (demo_heap max_cmp [0%nat]) tt) =
        Val q (mkHW (tick 1 twin_mach) h' tt) /\
      Heap.heap_rep h' ps' /\ Forall2 (same_key (store twin_mach)) ns' ps' /\
      same_key (store twin_mach) ([0] !!! 0%nat) q /\
      let next := heap_clock 2 MAX_HEAP (mkCmd true OP_POP 0) twin_fsm (slow_tiers 1) in
      leads 2 MAX_HEAP (fun f' t' => done_with MAX_HEAP w ns' (OP_POP, [0] !!! 0%nat) f' t') (fst next) (snd next)).
Proof.
  exists (view (slow_tiers 1) (fun _ => 0)).
  assert (Hw : holds (slow_tiers 1) (view (slow_tiers 1) (fun _ => 0))).
  { exists (fun _ => 0). split; [|done]. split; [done|]. cbn. done. }
  split; [exact Hw|].
  refine (@machine_equals_heap_h demo_env unit (ret tt) _ _ _ 2 MAX_HEAP 1024 _ _ twin_mach
    (demo_heap max_cmp [0%nat]) tt [0%nat] twin_fsm (slow_tiers 1) _ [0] _ eq_refl Hw _).
  - lia.
  - split; [intros i Hi; exact I|intros i Hi wr d _; exact I].
  - split; [|done|by repeat constructor| |by repeat constructor|apply NoDup_singleton|apply NoDup_singleton].
    + apply (ok_rep _ _ _ _ _ (demo_heap_ok max_cmp bid_le (store twin_mach) [0%nat] ltac:(simpl; lia)
        ltac:(repeat constructor) ltac:(intros j Hj; simpl in Hj; lia))).
    + by apply twin_fsm_rep.
  - simpl. lia.
Defined.
