(* ===== verification/HwRing.v ===== *)
(** * HwRing: the queues of the MMU

The modules [fifo] of [hw/mmu/mmu.sv] and [dual_write_fifo] and [tracking_fifo] of
[hw/mmu/arbiter.sv]: rings with two pointers and a count, which hold the list between
the pointers ([ring_rep]). *)
From S2P Require Import Prelude.

(** A memory with one word changed. *)
Definition ram_set {A} (m : Z -> A) (a : Z) (x : A) : Z -> A := fun b => if b =? a then x else m b.

Lemma ram_set_eq {A} (m : Z -> A) a x : ram_set m a x a = x.
Proof. unfold ram_set. by rewrite Z.eqb_refl. Qed.

Lemma ram_set_ne {A} (m : Z -> A) a x b : b <> a -> ram_set m a x b = m b.
Proof. intros. unfold ram_set. by rewrite (proj2 (Z.eqb_neq b a)). Qed.

Record Ring (A : Type) := mkRing { rmem : Z -> A; wr_ptr : Z; rd_ptr : Z; rcount : Z }.
Arguments mkRing {A} _ _ _ _.
Arguments rmem {A} _.
Arguments wr_ptr {A} _.
Arguments rd_ptr {A} _.
Arguments rcount {A} _.

Section Ring.
Context {A : Type}.
Implicit Types (q : Ring A) (x : A) (l : list A).

Definition ring_reset (junk : Z -> A) : Ring A := mkRing junk 0 0 0.

Definition ring_empty q : bool := rcount q =? 0.
Definition rd_data q : A := rmem q (rd_ptr q).

Definition next_ptr (d p : Z) : Z := if p =? d - 1 then 0 else p + 1.

Definition ring_write (d : Z) x q : Ring A :=
  mkRing (ram_set (rmem q) (wr_ptr q) x) (next_ptr d (wr_ptr q)) (rd_ptr q) (rcount q + 1).
Definition ring_read (d : Z) q : Ring A := mkRing (rmem q) (wr_ptr q) (next_ptr d (rd_ptr q)) (rcount q - 1).

(** A clock edge of a ring of [d] words. *)
Definition ring_clock (d : Z) (wr_en : bool) (wr_data : A) (rd_en : bool) q : Ring A :=
  let do_write := wr_en && negb (rcount q =? d) in
  let do_read := rd_en && negb (ring_empty q) in
  let q1 := if do_write then ring_write d wr_data q else q in
  if do_read then ring_read d q1 else q1.

Definition fifo_clock : bool -> A -> bool -> Ring A -> Ring A := ring_clock 8.
Definition tracking_fifo_clock : bool -> A -> bool -> Ring A -> Ring A := ring_clock 8.

Definition dual_write_fifo_clock (wr0_en : bool) (wr0_data : A) (wr1_en : bool) (wr1_data : A) (rd_en : bool) q : Ring A :=
  let do_wr0 := wr0_en && (rcount q <? 4) in
  let do_wr1 := wr1_en && (rcount q + (if do_wr0 then 1 else 0) <? 4) in
  let do_read := rd_en && negb (ring_empty q) in
  let q1 := if do_wr0 then ring_write 4 wr0_data q else q in
  let q2 := if do_wr1 then ring_write 4 wr1_data q1 else q1 in
  if do_read then ring_read 4 q2 else q2.

(** ** The list in a ring *)

Record ring_rep (d : Z) q l : Prop := {
  ring_depth : 0 < d;
  ring_rd : 0 <= rd_ptr q < d;
  ring_wr : wr_ptr q = (rd_ptr q + Z.of_nat (length l)) mod d;
  ring_size : rcount q = Z.of_nat (length l);
  ring_room : Z.of_nat (length l) <= d;
  ring_words j x : l !! j = Some x -> rmem q ((rd_ptr q + Z.of_nat j) mod d) = x
}.

Lemma next_ptr_mod d p : 0 < d -> 0 <= p < d -> next_ptr d p = (p + 1) mod d.
Proof.
  intros Hd Hp. unfold next_ptr. destruct (Z.eqb_spec p (d - 1)) as [->|].
  - by replace (d - 1 + 1) with d by lia; rewrite Z_mod_same_full.
  - by rewrite Z.mod_small by lia.
Qed.

Lemma ring_reset_rep d junk : 0 < d -> ring_rep d (ring_reset junk) [].
Proof. intros Hd. split; cbn; try lia; [|done]. by rewrite Z.mod_0_l by lia. Qed.

(** Positions less than [d] apart are different. *)
Lemma ring_apart d p i j : 0 < d -> 0 <= i < j -> j < d -> (p + i) mod d <> (p + j) mod d.
Proof.
  intros Hd Hi Hj Heq. pose proof (Z.div_mod (p + i) d ltac:(lia)) as H1. pose proof (Z.div_mod (p + j) d ltac:(lia)) as H2.
  rewrite Heq in H1. clear Heq. set (a := (p + i) / d) in *. set (b := (p + j) / d) in *.
  assert (Hq : d * (b - a) = j - i) by (rewrite Z.mul_sub_distr_l; lia).
  assert (0 < b - a) by (apply (Z.mul_pos_cancel_l d); lia).
  assert (d * 1 <= d * (b - a)) by (apply Z.mul_le_mono_nonneg_l; lia). lia.
Qed.

Lemma ring_write_rep d q l x :
  ring_rep d q l -> Z.of_nat (length l) < d -> ring_rep d (ring_write d x q) (l ++ [x]).
Proof.
  intros [Hd Hrd Hwr Hsize Hroom Hw] Hlt. split; cbn; rewrite ?length_app; simpl; try lia.
  - rewrite next_ptr_mod by (try lia; rewrite Hwr; by apply Z.mod_pos_bound). rewrite Hwr, Zplus_mod_idemp_l. f_equal. lia.
  - intros j y Hj. apply lookup_app_Some in Hj as [Hj|[Hge Hj]].
    + pose proof (lookup_lt_Some _ _ _ Hj). rewrite ram_set_ne; [by apply Hw|]. rewrite Hwr. apply ring_apart; lia.
    + apply list_lookup_singleton_Some in Hj as [Hj <-]. replace (Z.of_nat j) with (Z.of_nat (length l)) by lia.
      rewrite <- Hwr. apply ram_set_eq.
Qed.

Lemma ring_read_rep d q l x : ring_rep d q (x :: l) -> rd_data q = x /\ ring_rep d (ring_read d q) l.
Proof.
  intros [Hd Hrd Hwr Hsize Hroom Hw]. simpl in *. split.
  - specialize (Hw 0%nat x eq_refl). rewrite Z.add_0_r, Z.mod_small in Hw by lia. done.
  - split; cbn; try lia.
    + rewrite next_ptr_mod by lia. by apply Z.mod_pos_bound.
    + rewrite Hwr, next_ptr_mod, Zplus_mod_idemp_l by lia. f_equal. lia.
    + intros j y Hj. rewrite next_ptr_mod, Zplus_mod_idemp_l by lia.
      specialize (Hw (S j) y Hj). replace (rd_ptr q + 1 + Z.of_nat j) with (rd_ptr q + Z.of_nat (S j)) by lia. done.
Qed.

(** ** Clock edges on lists *)

Lemma ring_empty_rep d q l : ring_rep d q l -> ring_empty q = bool_decide (l = []).
Proof. intros Hr. unfold ring_empty. rewrite (ring_size _ _ _ Hr). by destruct l. Qed.

(** A read drops the first word, a write with room adds one at the end. *)
Lemma ring_clock_rep d q l wr_en x rd_en :
  ring_rep d q l ->
  ring_rep d (ring_clock d wr_en x rd_en q)
    ((if rd_en : bool then tail l else l) ++ (if wr_en && (Z.of_nat (length l) <? d) then [x] else [])).
Proof.
  intros Hr. pose proof (ring_room _ _ _ Hr) as Hroom. unfold ring_clock. rewrite (ring_empty_rep _ _ _ Hr), (ring_size _ _ _ Hr).
  replace (negb (Z.of_nat (length l) =? d)) with (Z.of_nat (length l) <? d) by lia.
  assert (Hw : ring_rep d (if wr_en && (Z.of_nat (length l) <? d) then ring_write d x q else q)
    (l ++ (if wr_en && (Z.of_nat (length l) <? d) then [x] else []))).
  { destruct wr_en, (Z.ltb_spec (Z.of_nat (length l)) d); cbn; rewrite ?app_nil_r; try done. by apply ring_write_rep. }
  destruct l as [|y l]; cbn [bool_decide]; [rewrite bool_decide_eq_true_2, andb_false_r by done; by destruct rd_en|].
  rewrite bool_decide_eq_false_2, andb_true_r by done. destruct rd_en; [|done]. by apply (ring_read_rep d _ _ y).
Qed.

Lemma dual_clock_rep q l wr0 x0 wr1 x1 rd_en :
  ring_rep 4 q l ->
  let adds0 := wr0 && (Z.of_nat (length l) <? 4) in
  let adds1 := wr1 && (Z.of_nat (length l) + (if adds0 then 1 else 0) <? 4) in
  ring_rep 4 (dual_write_fifo_clock wr0 x0 wr1 x1 rd_en q)
    ((if rd_en : bool then tail l else l) ++ (if adds0 then [x0] else []) ++ (if adds1 then [x1] else [])).
Proof.
  intros Hr adds0 adds1. unfold dual_write_fifo_clock. rewrite (ring_empty_rep _ _ _ Hr), (ring_size _ _ _ Hr). fold adds0. fold adds1.
  assert (H0 : ring_rep 4 (if adds0 then ring_write 4 x0 q else q) (l ++ (if adds0 then [x0] else []))).
  { destruct adds0 eqn:Ha; [|by rewrite app_nil_r]. apply ring_write_rep; [done|]. unfold adds0 in Ha. lia. }
  assert (H1 : ring_rep 4 (let q1 := if adds0 then ring_write 4 x0 q else q in if adds1 then ring_write 4 x1 q1 else q1)
    (l ++ (if adds0 then [x0] else []) ++ (if adds1 then [x1] else []))).
  { cbv zeta. rewrite app_assoc. destruct adds1 eqn:Ha; [|by rewrite app_nil_r]. apply ring_write_rep; [done|].
    rewrite length_app. unfold adds1 in Ha. destruct adds0; simpl; lia. }
  cbv zeta in H1. cbv zeta.
  destruct l as [|y l]; [rewrite bool_decide_eq_true_2, andb_false_r by done; by destruct rd_en|].
  rewrite bool_decide_eq_false_2, andb_true_r by done. destruct rd_en; [|done]. by apply (ring_read_rep 4 _ _ y).
Qed.

(** *** The list of a ring as a function *)

Definition ring_list (d : Z) q : list A := map (fun j => rmem q ((rd_ptr q + j) mod d)) (seqZ 0 (rcount q)).

Lemma ring_list_rep d q l : ring_rep d q l -> ring_list d q = l.
Proof.
  intros Hr. apply list_eq. intros j. unfold ring_list. rewrite list_lookup_fmap, (ring_size _ _ _ Hr).
  destruct (l !! j) as [x|] eqn:Hj.
  - pose proof (lookup_lt_Some _ _ _ Hj). rewrite lookup_seqZ_lt by lia. simpl. f_equal. by apply (ring_words _ _ _ Hr).
  - apply lookup_ge_None in Hj. by rewrite lookup_seqZ_ge by lia.
Qed.
End Ring.
