(* ===== verification/HwWalk.v ===== *)
(** * HwWalk: the page-table walker

[hw/mmu/HPTW.sv]: it looks the key of an address up in the page table, asks the
allocator for a slot when there is none, and gives the physical address and the bank
of the slot.  A slot is a visible page and a node of that page. *)
From S2P Require Import Prelude HwHeap HwTiers HwAccess.

Inductive Wstate := W_IDLE | W_LOOKUP | W_ALLOCATE | W_DONE | W_FAULT.

#[export] Instance Wstate_eq_dec : EqDecision Wstate.
Proof. solve_decision. Defined.

Record Walker := mkWalker {
  wk_state : Wstate;
  latched_key : Z;
  pa_reg : Z;
  pa_valid_reg : bool;
  bank_id_reg : Z;
  fault_reg : bool
}.

Definition walker_reset : Walker := mkWalker W_IDLE 0 0 false 0 false.

Definition pt_key (va : Z) : Z := cat (field va 29 3) 11 (field va 0 11).

(** An entry of the page table: valid, page, node. *)
Definition lookup_valid_bit (pt_rdata : Z) : bool := Z.testbit pt_rdata 14.
Definition lookup_page_idx (pt_rdata : Z) : Z := field pt_rdata 6 8.
Definition lookup_node_idx (pt_rdata : Z) : Z := field pt_rdata 0 6.
Definition pt_wdata (page node : Z) : Z := cat (cat 1 8 page) 6 node.

Definition computed_pa (page node : Z) : Z := cat (cat (cat ((page + 16) mod 2 ^ 8) 3 0) 6 node) 4 0.
Definition computed_bank_id (page : Z) : Z :=
  if page <? 60 then 0 else if page <? 120 then 1 else if page <? 180 then 2 else 3.

(** What the walker gets in a cycle: a request, the word of the page table, a slot. *)
Record WalkIns := mkWalkIns {
  va_valid : bool;
  va : Z;
  pt_rdata : Z;
  alloc_avail : bool;
  alloc_page_in : Z;
  alloc_node_in : Z
}.

Definition wk_busy (w : Walker) : bool := negb (bool_decide (wk_state w = W_IDLE)).

Definition pt_raddr (va_valid : bool) (va : Z) (w : Walker) : Z :=
  if bool_decide (wk_state w = W_IDLE) && va_valid then pt_key va else latched_key w.

(** The walker takes a slot, and writes the page table. *)
Definition alloc (avail : bool) (w : Walker) : bool := bool_decide (wk_state w = W_ALLOCATE) && avail.

Definition wn_state (i : WalkIns) (w : Walker) : Wstate :=
  match wk_state w with
  | W_IDLE => if va_valid i then W_LOOKUP else W_IDLE
  | W_LOOKUP => if lookup_valid_bit (pt_rdata i) then W_DONE else W_ALLOCATE
  | W_ALLOCATE => if alloc_avail i then W_DONE else W_FAULT
  | W_DONE => W_IDLE
  | W_FAULT => W_IDLE
  end.

Definition selected_page (i : WalkIns) (w : Walker) : Z :=
  if bool_decide (wk_state w = W_LOOKUP) then lookup_page_idx (pt_rdata i) else alloc_page_in i.
Definition selected_node (i : WalkIns) (w : Walker) : Z :=
  if bool_decide (wk_state w = W_LOOKUP) then lookup_node_idx (pt_rdata i) else alloc_node_in i.

Definition walker_clock (i : WalkIns) (w : Walker) : Walker :=
  let n := wn_state i w in
  let ends := bool_decide (n = W_DONE) in
  mkWalker n
    (if bool_decide (wk_state w = W_IDLE) && va_valid i then pt_key (va i) else latched_key w)
    (if ends then computed_pa (selected_page i w) (selected_node i w) else pa_reg w)
    ends
    (if ends then computed_bank_id (selected_page i w) else bank_id_reg w)
    (bool_decide (n = W_FAULT)).

(** ** Addresses *)

Lemma pt_wdata_fields page node :
  0 <= page < 256 -> 0 <= node < 64 ->
  lookup_valid_bit (pt_wdata page node) = true /\ lookup_page_idx (pt_wdata page node) = page /\
  lookup_node_idx (pt_wdata page node) = node.
Proof.
  intros Hp Hn. unfold lookup_valid_bit, lookup_page_idx, lookup_node_idx, pt_wdata. repeat split.
  - rewrite !cat_testbit by lia. done.
  - rewrite field_cat_high, field_cat_low by lia. apply (field_whole page 8). lia.
  - rewrite field_cat_low by lia. apply (field_whole node 6). lia.
Qed.

Lemma computed_pa_fields page node :
  0 <= page < 240 -> 0 <= node < 64 ->
  field (computed_pa page node) 13 19 = page + 16 /\ field (computed_pa page node) 4 6 = node.
Proof.
  intros Hp Hn. unfold computed_pa. rewrite (Z.mod_small (page + 16)) by lia.
  pose proof (cat_bound (page + 16) 3 0 8 ltac:(lia) ltac:(lia) ltac:(lia) ltac:(lia)) as Hc. split.
  - rewrite !field_cat_high by lia. apply (field_whole (page + 16) 19). lia.
  - rewrite field_cat_high, field_cat_low by lia. apply (field_whole node 6). lia.
Qed.

Lemma computed_bank_div page : 0 <= page < 240 -> computed_bank_id page = page / 60.
Proof.
  intros Hp. unfold computed_bank_id. pose proof (Z.div_mod page 60 ltac:(lia)). pose proof (Z.mod_pos_bound page 60 ltac:(lia)).
  destruct (Z.ltb_spec page 60), (Z.ltb_spec page 120), (Z.ltb_spec page 180); lia.
Qed.

(** The key of a node's address: the engine above the key among its nodes. *)
Lemma pt_key_sum va : pt_key va = 2048 * field va 29 3 + va_key va.
Proof. unfold pt_key, va_key. rewrite cat_sum by (lia || apply field_bound; lia). lia. Qed.

Lemma make_va_engine k e i : field (make_va k e i) 29 3 = e mod 8.
Proof.
  unfold make_va. cbv zeta. pose proof (Z.mod_pos_bound (i - PRIVATE_NODES) (2 ^ 10) ltac:(lia)).
  pose proof (HEAP_KIND_bound k). rewrite !field_cat_high by lia. change (29 - 10 - 19) with 0.
  change (2 ^ 3) with 8. apply field_whole. by apply Z.mod_pos_bound.
Qed.
