(* ===== verification/HwBank.v ===== *)
(** * HwBank: a memory bank

[hw/mmu/mem_bank.sv]: a node of 86 bits is three words of one of 60 block RAMs, which
are written, or read and put together, one per clock edge. *)
From S2P Require Import Prelude HwHeap HwRing HwWalk.

Inductive Bstate := B_IDLE | PHASE_0 | PHASE_1 | PHASE_2 | DONE_READ.

#[export] Instance Bstate_eq_dec : EqDecision Bstate.
Proof. solve_decision. Defined.

Record Bank := mkBank {
  bank_state : Bstate;
  latched_is_write : bool;
  latched_page : Z;
  latched_node : Z;
  latched_wdata : Z;
  read_assemble : Z;
  brams : Z -> Z -> Z;
  bram_out : Z -> Z;
  mem_rdata : Z;
  mem_rdata_valid : bool;
  mem_wdone : bool
}.

(** The block RAMs start out as zeros. *)
Definition bank_reset : Bank :=
  mkBank B_IDLE false 0 0 0 0 (fun _ _ => 0) (fun _ => 0) 0 false false.

Record MemPort := mkMemPort { mem_addr : Z; mem_we : bool; mem_re : bool; mem_wdata : Z }.

Definition mem_busy (b : Bank) : bool := negb (bool_decide (bank_state b = B_IDLE)).

Definition FIRST_PAGE_FOR_BANK (BANK_ID : Z) : Z := 16 + BANK_ID * 60.

Definition local_page_idx (BANK_ID addr : Z) : Z :=
  (field (field addr 13 19) 0 6 - field (FIRST_PAGE_FOR_BANK BANK_ID) 0 6) mod 2 ^ 6.
Definition node_idx (addr : Z) : Z := field addr 4 6.

Definition bn_state (p : MemPort) (b : Bank) : Bstate :=
  match bank_state b with
  | B_IDLE => if mem_re p || mem_we p then PHASE_0 else B_IDLE
  | PHASE_0 => PHASE_1
  | PHASE_1 => PHASE_2
  | PHASE_2 => if latched_is_write b then B_IDLE else DONE_READ
  | DONE_READ => B_IDLE
  end.

(** The word of the node that a phase works on. *)
Definition phase_word (s : Bstate) : option Z :=
  match s with PHASE_0 => Some 0 | PHASE_1 => Some 1 | PHASE_2 => Some 2 | _ => None end.

Definition bram_word_addr (b : Bank) (i : Z) : Z := cat (latched_node b) 2 i.
Definition bram_word (n i : Z) : Z :=
  if i =? 0 then field n 0 32 else if i =? 1 then field n 32 32 else field n 64 22.

Definition brams_next (b : Bank) : Z -> Z -> Z :=
  match phase_word (bank_state b) with
  | Some i =>
      if latched_is_write b then
        ram_set (brams b) (latched_page b)
          (ram_set (brams b (latched_page b)) (bram_word_addr b i) (bram_word (latched_wdata b) i))
      else brams b
  | None => brams b
  end.

Definition bram_out_next (b : Bank) : Z -> Z :=
  match phase_word (bank_state b) with
  | Some i =>
      if latched_is_write b then bram_out b
      else ram_set (bram_out b) (latched_page b) (brams b (latched_page b) (bram_word_addr b i))
  | None => bram_out b
  end.

Definition active_rdata (b : Bank) : Z := bram_out b (latched_page b).

Definition assemble_next (b : Bank) : Z :=
  let r := read_assemble b in
  if latched_is_write b then r
  else match bank_state b with
       | PHASE_1 => cat (field r 32 54) 32 (active_rdata b)
       | PHASE_2 => cat (cat (field r 64 22) 32 (active_rdata b)) 32 (field r 0 32)
       | DONE_READ => cat (field (active_rdata b) 0 22) 64 (field r 0 64)
       | _ => r
       end.

Definition bank_clock (BANK_ID : Z) (p : MemPort) (b : Bank) : Bank :=
  let takes := bool_decide (bank_state b = B_IDLE) && (mem_re p || mem_we p) in
  let reads := bool_decide (bank_state b = DONE_READ) && negb (latched_is_write b) in
  mkBank (bn_state p b)
    (if takes then mem_we p else latched_is_write b)
    (if takes then local_page_idx BANK_ID (mem_addr p) else latched_page b)
    (if takes then node_idx (mem_addr p) else latched_node b)
    (if takes then mem_wdata p else latched_wdata b)
    (assemble_next b) (brams_next b) (bram_out_next b)
    (if reads then cat (field (active_rdata b) 0 22) 64 (field (read_assemble b) 0 64) else mem_rdata b)
    reads
    (bool_decide (bank_state b = PHASE_2) && latched_is_write b).

(** ** Words of a node *)

Lemma bram_word_bound n i : 0 <= bram_word n i < 2 ^ 32.
Proof.
  unfold bram_word. pose proof (field_bound n 0 32 ltac:(lia)). pose proof (field_bound n 32 32 ltac:(lia)).
  pose proof (field_bound n 64 22 ltac:(lia)). destruct (i =? 0), (i =? 1); lia.
Qed.

(** A node is its three words. *)
Lemma cat_words n :
  fits 86 n -> cat (field (bram_word n 2) 0 22) 64 (cat (bram_word n 1) 32 (bram_word n 0)) = n.
Proof.
  intros Hn. change (bram_word n 2) with (field n 64 22). change (bram_word n 1) with (field n 32 32).
  change (bram_word n 0) with (field n 0 32).
  pose proof (field_bound n 0 32 ltac:(lia)) as H0. pose proof (field_bound n 32 32 ltac:(lia)) as H1.
  pose proof (cat_bound (field n 32 32) 32 (field n 0 32) 32 ltac:(lia) ltac:(lia) H0 H1) as Hc.
  change (32 + 32) with 64 in Hc. rewrite field_field by lia.
  apply Z.bits_inj'. intros i Hi. rewrite !cat_testbit by lia.
  destruct (Z.ltb_spec i 64); [destruct (Z.ltb_spec i 32)|]; rewrite testbit_field by lia.
  - replace (i <? 32) with true by lia. cbn [andb]. by rewrite Z.add_0_r.
  - replace (i - 32 <? 32) with true by lia. cbn [andb]. f_equal. lia.
  - destruct (Z.ltb_spec (i - 64) 22); cbn; [f_equal; lia|].
    rewrite <- (Z.mod_small n (2 ^ 86)) by done. by rewrite Z.mod_pow2_bits_high by lia.
Qed.

(** The words of the reset memory are those of the node 0. *)
Lemma bram_word_zero i : bram_word 0 i = 0.
Proof. unfold bram_word. by destruct (i =? 0), (i =? 1). Qed.

(** The page of a slot within its bank. *)
Lemma local_page page node :
  0 <= page < 240 -> 0 <= node < 64 ->
  local_page_idx (page / 60) (computed_pa page node) = page mod 60 /\ node_idx (computed_pa page node) = node.
Proof.
  intros Hp Hn. unfold local_page_idx, node_idx, FIRST_PAGE_FOR_BANK.
  destruct (computed_pa_fields page node Hp Hn) as [-> ->]. split; [|done].
  unfold field. rewrite !Z.shiftr_0_r. change (2 ^ 6) with 64.
  pose proof (Z.div_mod page 60 ltac:(lia)). pose proof (Z.mod_pos_bound page 60 ltac:(lia)).
  rewrite <- Zminus_mod. replace (page + 16 - (16 + page / 60 * 60)) with (page mod 60) by lia.
  apply Z.mod_small. lia.
Qed.
