(* ===== verification/HwMmu.v ===== *)
(** * HwMmu: the MMU of the engines

[hw/mmu/mmu.sv] and [hw/mmu/arbiter.sv] with the four banks of [hw/mmu/mem_bank.sv],
clock by clock: eight clients, two queues of requests with a page-table walker each,
an allocator with 16 partitions, the page table, and per bank a queue, the addresses
under way and a response buffer. *)
From S2P Require Import Prelude HwHeap HwTiers HwAccess HwRing HwWalk HwBank.

(** ** The arbiter *)

(** An entry of the queue of a bank. *)
Record BankReq := mkBankReq { br_req : VReq; br_pa : Z }.

(** What a walker gives to the arbiter. *)
Record Walked := mkWalked { ptw_valid : bool; ptw_req : VReq; ptw_pa : Z; ptw_bank_id : Z }.

Record Lane := mkLane {
  queue : Ring BankReq;
  va_fifo : Ring Z;
  resp_buf_data : Z;
  resp_buf_va : Z;
  resp_buf_valid : bool
}.

Definition no_req : VReq := mkVReq 0 false 0.
Definition lane_reset : Lane :=
  mkLane (ring_reset (fun _ => mkBankReq no_req 0)) (ring_reset (fun _ => 0)) 0 0 false.

Definition lane_full (l : Lane) : bool := rcount (queue l) =? 4.
Definition lane_almost_full (l : Lane) : bool := rcount (queue l) =? 3.

Definition same_bank_collision (w0 w1 : Walked) : bool :=
  ptw_valid w0 && ptw_valid w1 && (ptw_bank_id w0 =? ptw_bank_id w1).

Definition ptw0_can_enqueue (lanes : Z -> Lane) (rr_priority : bool) (w0 w1 : Walked) : bool :=
  let l := lanes (ptw_bank_id w0) in
  if same_bank_collision w0 w1 then
    if lane_full l then false else if lane_almost_full l then negb rr_priority else true
  else ptw_valid w0 && negb (lane_full l).

Definition ptw1_can_enqueue (lanes : Z -> Lane) (rr_priority : bool) (w0 w1 : Walked) : bool :=
  if same_bank_collision w0 w1 then
    let l := lanes (ptw_bank_id w0) in
    if lane_full l then false else if lane_almost_full l then rr_priority else true
  else ptw_valid w1 && negb (lane_full (lanes (ptw_bank_id w1))).

Definition rr_priority_next (lanes : Z -> Lane) (rr_priority : bool) (w0 w1 : Walked) : bool :=
  if same_bank_collision w0 w1 && lane_almost_full (lanes (ptw_bank_id w0)) then negb rr_priority else rr_priority.

Definition walked_entry (w : Walked) : BankReq := mkBankReq (ptw_req w) (ptw_pa w).

(** The lane gives its first request to the bank. *)
Definition dispatch (l : Lane) (b : Bank) : bool :=
  negb (ring_empty (queue l)) && negb (mem_busy b) && negb (resp_buf_valid l) && negb (rcount (va_fifo l) =? 8).

Definition lane_port (l : Lane) (b : Bank) : MemPort :=
  let e := rd_data (queue l) in
  mkMemPort (br_pa e) (dispatch l b && req_wr (br_req e)) (dispatch l b && negb (req_wr (br_req e))) (req_wdata (br_req e)).

Definition va_pop (l : Lane) (b : Bank) : bool := (mem_rdata_valid b || mem_wdone b) && negb (resp_buf_valid l).

Definition lane_clock (wr0 : bool) (e0 : BankReq) (wr1 : bool) (e1 : BankReq) (b : Bank) (l : Lane) : Lane :=
  mkLane (dual_write_fifo_clock wr0 e0 wr1 e1 (dispatch l b) (queue l))
    (tracking_fifo_clock (dispatch l b) (req_va (br_req (rd_data (queue l)))) (va_pop l b) (va_fifo l))
    (if va_pop l b then (if mem_rdata_valid b then mem_rdata b else 0) else resp_buf_data l)
    (if va_pop l b then rd_data (va_fifo l) else resp_buf_va l)
    (va_pop l b).

(** ** The MMU and its banks *)

(** The write pointers of the partitions. *)
Record Partitions := mkPartitions {
  partition_page_off : Z -> Z;
  partition_node_off : Z -> Z;
  partition_full : Z -> bool
}.

Definition advance (p : Z) (a : Partitions) : Partitions :=
  if partition_node_off a p =? 63 then
    mkPartitions
      (if partition_page_off a p =? 14 then partition_page_off a
       else ram_set (partition_page_off a) p (partition_page_off a p + 1))
      (ram_set (partition_node_off a) p 0)
      (if partition_page_off a p =? 14 then ram_set (partition_full a) p true else partition_full a)
  else mkPartitions (partition_page_off a) (ram_set (partition_node_off a) p (partition_node_off a p + 1)) (partition_full a).

Record Mmu := mkMmu {
  rr_pointer : Z;
  in_fifo0 : Ring VReq;
  in_fifo1 : Ring VReq;
  ptw0 : Walker;
  ptw1 : Walker;
  ptw0_pipe : VReq;
  ptw1_pipe : VReq;
  partitions : Partitions;
  page_table : Z -> Z;
  ptw0_pt_rdata : Z;
  ptw1_pt_rdata : Z;
  lanes : Z -> Lane;
  rr_priority : bool;
  banks : Z -> Bank
}.

Definition mmu_reset : Mmu :=
  mkMmu 0 (ring_reset (fun _ => no_req)) (ring_reset (fun _ => no_req)) walker_reset walker_reset no_req no_req
    (mkPartitions (fun _ => 0) (fun _ => 0) (fun _ => false)) (fun _ => 0) 0 0
    (fun _ => lane_reset) false (fun _ => bank_reset).

(** *** Accepting requests *)

(** The first two clients with a request, from the pointer on. *)
Definition winner_step (reqs : Z -> option VReq) (w : option Z * option Z) (i : Z) : option Z * option Z :=
  match reqs i, w with
  | Some _, (None, s) => (Some i, s)
  | Some _, (f, None) => (f, Some i)
  | _, _ => w
  end.
Definition winners (reqs : Z -> option VReq) (rr : Z) : option Z * option Z :=
  foldl (winner_step reqs) (None, None) (map (fun i => (rr + i) mod 8) (seqZ 0 8)).

Definition first_to_fifo1 (m : Mmu) : bool := rcount (in_fifo1 m) <? rcount (in_fifo0 m).

(** *** Walking *)

Definition ptw0_va_valid_in (m : Mmu) : bool := negb (ring_empty (in_fifo0 m)) && negb (wk_busy (ptw0 m)).
Definition ptw1_va_valid_in (m : Mmu) : bool := negb (ring_empty (in_fifo1 m)) && negb (wk_busy (ptw1 m)).

Definition partition_of (va : Z) : Z := cat (field va 29 3) 1 (field va 10 1).
Definition alloc_page_avail (a : Partitions) (p : Z) : Z := (p * 15 + partition_page_off a p) mod 2 ^ 8.
Definition alloc_node_avail (a : Partitions) (p : Z) : Z := partition_node_off a p.

Definition walk_ins (valid : bool) (va rdata : Z) (a : Partitions) (p : Z) : WalkIns :=
  mkWalkIns valid va rdata (negb (partition_full a p)) (alloc_page_avail a p) (alloc_node_avail a p).

Definition ptw0_partition (m : Mmu) : Z := partition_of (req_va (ptw0_pipe m)).
Definition ptw1_partition (m : Mmu) : Z := partition_of (req_va (ptw1_pipe m)).

Definition ptw0_ins (m : Mmu) : WalkIns :=
  walk_ins (ptw0_va_valid_in m) (req_va (rd_data (in_fifo0 m))) (ptw0_pt_rdata m) (partitions m) (ptw0_partition m).
Definition ptw1_ins (m : Mmu) : WalkIns :=
  walk_ins (ptw1_va_valid_in m) (req_va (rd_data (in_fifo1 m))) (ptw1_pt_rdata m) (partitions m) (ptw1_partition m).

Definition ptw0_alloc (m : Mmu) : bool := alloc (alloc_avail (ptw0_ins m)) (ptw0 m).
Definition ptw1_alloc (m : Mmu) : bool := alloc (alloc_avail (ptw1_ins m)) (ptw1 m).
Definition same_alloc_collision (m : Mmu) : bool :=
  ptw0_alloc m && ptw1_alloc m && (ptw0_partition m =? ptw1_partition m).
Definition ptw1_alloc_eff (m : Mmu) : bool := ptw1_alloc m && negb (same_alloc_collision m).

Definition partitions_next (m : Mmu) : Partitions :=
  let a0 := if ptw0_alloc m then advance (ptw0_partition m) (partitions m) else partitions m in
  if ptw1_alloc_eff m then advance (ptw1_partition m) a0 else a0.

Definition ptw0_pt_raddr (m : Mmu) : Z := pt_raddr (va_valid (ptw0_ins m)) (va (ptw0_ins m)) (ptw0 m).
Definition ptw1_pt_raddr (m : Mmu) : Z := pt_raddr (va_valid (ptw1_ins m)) (va (ptw1_ins m)) (ptw1 m).

Definition slot_entry (i : WalkIns) : Z := pt_wdata (alloc_page_in i) (alloc_node_in i).

Definition page_table_next (m : Mmu) : Z -> Z :=
  let t0 := if ptw0_alloc m && (ptw0_pt_raddr m =? latched_key (ptw0 m))
            then ram_set (page_table m) (ptw0_pt_raddr m) (slot_entry (ptw0_ins m)) else page_table m in
  if ptw1_alloc_eff m && (ptw1_pt_raddr m =? latched_key (ptw1 m))
  then ram_set t0 (ptw1_pt_raddr m) (slot_entry (ptw1_ins m)) else t0.

(** *** To the banks *)

Definition walked0 (m : Mmu) : Walked :=
  mkWalked (pa_valid_reg (ptw0 m)) (ptw0_pipe m) (pa_reg (ptw0 m)) (bank_id_reg (ptw0 m)).
Definition walked1 (m : Mmu) : Walked :=
  mkWalked (pa_valid_reg (ptw1 m) && negb (same_alloc_collision m)) (ptw1_pipe m) (pa_reg (ptw1 m)) (bank_id_reg (ptw1 m)).

Definition ptw0_accept (m : Mmu) : bool := ptw0_can_enqueue (lanes m) (rr_priority m) (walked0 m) (walked1 m).
Definition ptw1_accept (m : Mmu) : bool := ptw1_can_enqueue (lanes m) (rr_priority m) (walked0 m) (walked1 m).
Definition requeue_to_0 (m : Mmu) : bool := ptw_valid (walked0 m) && negb (ptw0_accept m).
Definition requeue_to_1 (m : Mmu) : bool := ptw_valid (walked1 m) && negb (ptw1_accept m).

(** Four modules, each computed once. *)
Definition four {A} (f : Z -> A) : Z -> A :=
  let a0 := f 0 in let a1 := f 1 in let a2 := f 2 in let a3 := f 3 in
  fun b => if b =? 0 then a0 else if b =? 1 then a1 else if b =? 2 then a2 else if b =? 3 then a3 else f b.

Definition lanes_next (m : Mmu) : Z -> Lane := four (fun b =>
  lane_clock (ptw0_accept m && (ptw_bank_id (walked0 m) =? b)) (walked_entry (walked0 m))
    (ptw1_accept m && (ptw_bank_id (walked1 m) =? b)) (walked_entry (walked1 m)) (banks m b) (lanes m b)).
Definition banks_next (m : Mmu) : Z -> Bank := four (fun b => bank_clock b (lane_port (lanes m b) (banks m b)) (banks m b)).

(** *** The queues of requests *)

Definition fifo_in_full (q : Ring VReq) : bool := rcount q >=? 7.

Definition accept_first (reqs : Z -> option VReq) (m : Mmu) : bool :=
  let space := if first_to_fifo1 m then negb (fifo_in_full (in_fifo1 m)) && negb (requeue_to_1 m)
               else negb (fifo_in_full (in_fifo0 m)) && negb (requeue_to_0 m) in
  bool_decide (is_Some (fst (winners reqs (rr_pointer m)))) && space.
Definition accept_second (reqs : Z -> option VReq) (m : Mmu) : bool :=
  let space := if first_to_fifo1 m then negb (fifo_in_full (in_fifo0 m)) && negb (requeue_to_0 m)
               else negb (fifo_in_full (in_fifo1 m)) && negb (requeue_to_1 m) in
  bool_decide (is_Some (snd (winners reqs (rr_pointer m)))) && space && accept_first reqs m.

Definition req_ready (reqs : Z -> option VReq) (m : Mmu) (i : Z) : bool :=
  accept_first reqs m && bool_decide (fst (winners reqs (rr_pointer m)) = Some i) ||
  accept_second reqs m && bool_decide (snd (winners reqs (rr_pointer m)) = Some i).

Definition rr_pointer_next (reqs : Z -> option VReq) (m : Mmu) : Z :=
  let '(f, s) := winners reqs (rr_pointer m) in
  if accept_first reqs m && accept_second reqs m then (default 0 s + 1) mod 8
  else if accept_first reqs m then (default 0 f + 1) mod 8
  else rr_pointer m.

Definition entry_of (reqs : Z -> option VReq) (w : option Z) : VReq := default no_req (reqs (default 0 w)).

(** What is written to the two queues. *)
Definition fifo_in_wr0 (reqs : Z -> option VReq) (m : Mmu) : option VReq :=
  let w0 := if requeue_to_0 m then Some (ptw0_pipe m) else None in
  let w1 := if accept_first reqs m && negb (first_to_fifo1 m) && negb (requeue_to_0 m)
            then Some (entry_of reqs (fst (winners reqs (rr_pointer m)))) else w0 in
  if accept_second reqs m && first_to_fifo1 m && negb (requeue_to_0 m)
  then Some (entry_of reqs (snd (winners reqs (rr_pointer m)))) else w1.
Definition fifo_in_wr1 (reqs : Z -> option VReq) (m : Mmu) : option VReq :=
  let w0 := if requeue_to_1 m then Some (ptw1_pipe m) else None in
  let w1 := if accept_first reqs m && first_to_fifo1 m && negb (requeue_to_1 m)
            then Some (entry_of reqs (fst (winners reqs (rr_pointer m)))) else w0 in
  if accept_second reqs m && negb (first_to_fifo1 m) && negb (requeue_to_1 m)
  then Some (entry_of reqs (snd (winners reqs (rr_pointer m)))) else w1.

Definition in_fifo_clock (w : option VReq) (rd_en : bool) (q : Ring VReq) : Ring VReq :=
  fifo_clock (bool_decide (is_Some w)) (default no_req w) rd_en q.

(** A clock edge of the MMU and the banks. *)
Definition mmu_next (reqs : Z -> option VReq) (m : Mmu) : Mmu :=
  mkMmu (rr_pointer_next reqs m)
    (in_fifo_clock (fifo_in_wr0 reqs m) (ptw0_va_valid_in m) (in_fifo0 m))
    (in_fifo_clock (fifo_in_wr1 reqs m) (ptw1_va_valid_in m) (in_fifo1 m))
    (walker_clock (ptw0_ins m) (ptw0 m)) (walker_clock (ptw1_ins m) (ptw1 m))
    (if ptw0_va_valid_in m then rd_data (in_fifo0 m) else ptw0_pipe m)
    (if ptw1_va_valid_in m then rd_data (in_fifo1 m) else ptw1_pipe m)
    (partitions_next m) (page_table_next m)
    (page_table m (ptw0_pt_raddr m)) (page_table m (ptw1_pt_raddr m))
    (lanes_next m) (rr_priority_next (lanes m) (rr_priority m) (walked0 m) (walked1 m)) (banks_next m).

(** *** Responses *)

Definition answers (m : Mmu) (i b : Z) : bool :=
  resp_buf_valid (lanes m b) && (field (resp_buf_va (lanes m b)) 29 3 =? i).
Definition resp_valid (m : Mmu) (i : Z) : bool := existsb (answers m i) (seqZ 0 4).
Definition resp_data (m : Mmu) (i : Z) : Z :=
  foldl (fun d b => if answers m i b then resp_buf_data (lanes m b) else d) 0 (seqZ 0 4).
Definition resp_reject (m : Mmu) (i : Z) : bool :=
  fault_reg (ptw0 m) && (field (req_va (ptw0_pipe m)) 29 3 =? i) ||
  (fault_reg (ptw1 m) || same_alloc_collision m) && (field (req_va (ptw1_pipe m)) 29 3 =? i).

Lemma four_eq {A} (f : Z -> A) b : four f b = f b.
Proof.
  unfold four. destruct (Z.eqb_spec b 0) as [->|]; [done|]. destruct (Z.eqb_spec b 1) as [->|]; [done|].
  destruct (Z.eqb_spec b 2) as [->|]; [done|]. by destruct (Z.eqb_spec b 3) as [->|].
Qed.
