(* ===== verification/HwSlots.v ===== *)
(** * HwSlots: the slots that the allocator gives to one client

What the page table, the write pointers of the partitions and the banks hold for the
two heaps of one client: the keys that have a slot in the order in which they got it,
and the words of their nodes. *)
From S2P Require Import Prelude HwHeap HwTiers HwAccess HwRing HwWalk HwBank HwMmu.

#[local] Ltac Zify.zify_post_hook ::= Z.to_euclidean_division_equations.

(** The heap of a request and the key within it. *)
Definition half (r : VReq) : Z := va_key (req_va r) / 1024.
Definition low (r : VReq) : Z := va_key (req_va r) mod 1024.

Lemma half_low r : 0 <= half r <= 1 /\ 0 <= low r < 1024 /\ va_key (req_va r) = 1024 * half r + low r.
Proof.
  unfold half, low, va_key. pose proof (field_bound (req_va r) 0 11 ltac:(lia)) as Hk.
  pose proof (Z.div_mod (field (req_va r) 0 11) 1024 ltac:(lia)).
  pose proof (Z.mod_pos_bound (field (req_va r) 0 11) 1024 ltac:(lia)). lia.
Qed.

(** The write pointer moves to the next slot. *)
Lemma advance_pointers a p n :
  partition_node_off a p = Z.of_nat n mod 64 -> partition_page_off a p = (Z.of_nat n / 64) `min` 14 ->
  partition_full a p = bool_decide (960 <= n)%nat -> (n < 960)%nat ->
  let a' := advance p a in
  partition_node_off a' p = Z.of_nat (S n) mod 64 /\ partition_page_off a' p = (Z.of_nat (S n) / 64) `min` 14 /\
  partition_full a' p = bool_decide (960 <= S n)%nat /\
  forall q, q <> p -> partition_node_off a' q = partition_node_off a q /\
    partition_page_off a' q = partition_page_off a q /\ partition_full a' q = partition_full a q.
Proof.
  intros Hn Hp Hf Hlen a'. unfold a', advance. rewrite Hn, Hp. rewrite bool_decide_eq_false_2 in Hf by lia.
  destruct (Z.eqb_spec (Z.of_nat n mod 64) 63) as [H63|H63]; [destruct (Z.eqb_spec ((Z.of_nat n / 64) `min` 14) 14) as [H14|H14]|]; cbn;
    rewrite ?ram_set_eq, ?Hf, ?Hp; repeat split; intros; rewrite ?ram_set_ne by done; try done; try lia;
    try (rewrite bool_decide_eq_true_2; [done|lia]); try (rewrite bool_decide_eq_false_2; [done|lia]).
Qed.

Section Slots.
Variable e : Z.
Hypothesis He : 0 <= e < 8.

(** The requests of the client [e]: nodes of 86 bits at keys for which a partition has
slots. *)
Record asks (r : VReq) : Prop := {
  asks_client : field (req_va r) 29 3 = e;
  asks_low : low r < 960;
  asks_word : fits 86 (req_wdata r)
}.

(** ** Slots *)

Definition page_of (h : Z) (j : nat) : Z := (2 * e + h) * 15 + Z.of_nat j / 64.
Definition node_of (j : nat) : Z := Z.of_nat j mod 64.

Lemma slot_same h j h' j' :
  0 <= h <= 1 -> 0 <= h' <= 1 -> (j < 960)%nat -> (j' < 960)%nat ->
  page_of h j = page_of h' j' -> node_of j = node_of j' -> h = h' /\ j = j'.
Proof. unfold page_of, node_of. intros. split; lia. Qed.

(** The keys [ks h] of the heap [h] have slots. *)
Record allocated (ks : Z -> list Z) (a : Partitions) (pt : Z -> Z) : Prop := {
  al_nodup h : 0 <= h <= 1 -> NoDup (ks h);
  al_range h x : 0 <= h <= 1 -> x ∈ ks h -> 0 <= x < 1024;
  al_len h : 0 <= h <= 1 -> (length (ks h) <= 960)%nat;
  al_node h : 0 <= h <= 1 -> partition_node_off a (2 * e + h) = Z.of_nat (length (ks h)) mod 64;
  al_page h : 0 <= h <= 1 -> partition_page_off a (2 * e + h) = (Z.of_nat (length (ks h)) / 64) `min` 14;
  al_full h : 0 <= h <= 1 -> partition_full a (2 * e + h) = bool_decide (960 <= length (ks h))%nat;
  al_hit h j x : 0 <= h <= 1 -> ks h !! j = Some x ->
    pt (2048 * e + 1024 * h + x) = pt_wdata (page_of h j) (node_of j);
  al_miss h x : 0 <= h <= 1 -> 0 <= x < 1024 -> x ∉ ks h -> lookup_valid_bit (pt (2048 * e + 1024 * h + x)) = false
}.

(** The keys are those that a partition has slots for. *)
Definition within (ks : Z -> list Z) : Prop := forall h x, 0 <= h <= 1 -> x ∈ ks h -> x < 960.

(** So there is a slot for each of them. *)
Lemma room_for ks a pt h x :
  allocated ks a pt -> within ks -> 0 <= h <= 1 -> 0 <= x < 960 -> x ∉ ks h -> (length (ks h) < 960)%nat.
Proof.
  intros Ha Hw Hh Hx Hn. replace 960%nat with (length (seqZ 0 960)) by (by rewrite length_seqZ).
  apply (submseteq_length (x :: ks h) (seqZ 0 960)), NoDup_submseteq.
  - apply NoDup_cons. split; [done|by apply (al_nodup _ _ _ Ha)].
  - intros y Hy. apply elem_of_seqZ. apply elem_of_cons in Hy as [->|Hy]; [lia|].
    pose proof (al_range _ _ _ Ha h y Hh Hy). specialize (Hw h y Hh Hy). lia.
Qed.

(** The slot that the allocator offers. *)
Lemma offered ks a pt h :
  allocated ks a pt -> 0 <= h <= 1 -> (length (ks h) < 960)%nat ->
  partition_full a (2 * e + h) = false /\ alloc_page_avail a (2 * e + h) = page_of h (length (ks h)) /\
  alloc_node_avail a (2 * e + h) = node_of (length (ks h)).
Proof.
  intros Ha Hh Hlen. unfold alloc_page_avail, alloc_node_avail, page_of, node_of.
  rewrite (al_full _ _ _ Ha), (al_page _ _ _ Ha), (al_node _ _ _ Ha) by done.
  rewrite bool_decide_eq_false_2 by lia. split; [done|]. split; [|done]. change (2 ^ 8) with 256.
  rewrite Z.mod_small; lia.
Qed.

Definition add_key (ks : Z -> list Z) (h x : Z) : Z -> list Z := ram_set ks h (ks h ++ [x]).

Lemma add_key_same ks h x : add_key ks h x h = ks h ++ [x].
Proof. apply ram_set_eq. Qed.
Lemma add_key_other ks h x h' : h' <> h -> add_key ks h x h' = ks h'.
Proof. apply ram_set_ne. Qed.

(** A key gets the slot that is offered. *)
Lemma allocate_key ks a pt h x :
  allocated ks a pt -> 0 <= h <= 1 -> 0 <= x < 1024 -> x ∉ ks h -> (length (ks h) < 960)%nat ->
  allocated (add_key ks h x) (advance (2 * e + h) a)
    (ram_set pt (2048 * e + 1024 * h + x) (pt_wdata (page_of h (length (ks h))) (node_of (length (ks h))))).
Proof.
  intros Ha Hh Hx Hn Hroom.
  destruct (advance_pointers a (2 * e + h) (length (ks h)) (al_node _ _ _ Ha h Hh) (al_page _ _ _ Ha h Hh)
    (al_full _ _ _ Ha h Hh) Hroom) as (Hnode & Hpage & Hfull & Hother).
  assert (Hlen : length (add_key ks h x h) = S (length (ks h))) by (rewrite add_key_same, length_app; simpl; lia).
  split.
  - intros h' Hh'. destruct (decide (h' = h)) as [->|Hne]; [|by rewrite add_key_other; [apply (al_nodup _ _ _ Ha)|]].
    rewrite add_key_same. apply NoDup_app. split; [by apply (al_nodup _ _ _ Ha)|].
    split; [|apply NoDup_singleton]. by intros y Hy ->%list_elem_of_singleton.
  - intros h' y Hh'. destruct (decide (h' = h)) as [->|Hne]; [|by rewrite add_key_other; [apply (al_range _ _ _ Ha)|]].
    rewrite add_key_same. intros [Hy| ->%list_elem_of_singleton]%elem_of_app; [by apply (al_range _ _ _ Ha h)|lia].
  - intros h' Hh'. destruct (decide (h' = h)) as [->|Hne]; [by rewrite Hlen|by rewrite add_key_other; [apply (al_len _ _ _ Ha)|]].
  - intros h' Hh'. destruct (decide (h' = h)) as [->|Hne]; [by rewrite Hlen|].
    rewrite add_key_other, (proj1 (Hother (2 * e + h') ltac:(lia))) by done. by apply (al_node _ _ _ Ha).
  - intros h' Hh'. destruct (decide (h' = h)) as [->|Hne]; [by rewrite Hlen|].
    rewrite add_key_other, (proj1 (proj2 (Hother (2 * e + h') ltac:(lia)))) by done. by apply (al_page _ _ _ Ha).
  - intros h' Hh'. destruct (decide (h' = h)) as [->|Hne]; [by rewrite Hlen|].
    rewrite add_key_other, (proj2 (proj2 (Hother (2 * e + h') ltac:(lia)))) by done. by apply (al_full _ _ _ Ha).
  - intros h' j y Hh'. destruct (decide (h' = h)) as [->|Hne].
    + rewrite add_key_same. intros [Hy|[Hge Hy]]%lookup_app_Some.
      * rewrite ram_set_ne; [by apply (al_hit _ _ _ Ha)|]. intros Heq. apply Hn.
        replace x with y by lia. by eapply list_elem_of_lookup_2.
      * apply list_lookup_singleton_Some in Hy as [Hj <-]. rewrite ram_set_eq. by replace j with (length (ks h)) by lia.
    + rewrite add_key_other by done. intros Hy.
      pose proof (al_range _ _ _ Ha h' y Hh' ltac:(by eapply list_elem_of_lookup_2)).
      rewrite ram_set_ne by lia. by apply (al_hit _ _ _ Ha).
  - intros h' y Hh' Hy. destruct (decide (h' = h)) as [->|Hne].
    + rewrite add_key_same. intros Hin. rewrite ram_set_ne; [apply (al_miss _ _ _ Ha); [done..|]; set_solver|].
      intros Heq. apply Hin. replace y with x by lia. set_solver.
    + rewrite add_key_other by done. intros Hin. rewrite ram_set_ne by lia. by apply (al_miss _ _ _ Ha).
Qed.

Lemma within_add ks h x : within ks -> x < 960 -> within (add_key ks h x).
Proof.
  intros Hw Hx h' y Hh'. destruct (decide (h' = h)) as [->|Hne]; [|rewrite add_key_other by done; by apply Hw].
  rewrite add_key_same. intros [Hy| ->%list_elem_of_singleton]%elem_of_app; [by apply (Hw h)|done].
Qed.
End Slots.
