(* ===== verification/HwStore.v ===== *)
(** * HwStore: the nodes in the banks

The block RAMs of the banks hold the nodes of the keys that have a slot, three words
each; a write changes one word of one slot at a time ([stored_write]), and a read puts
the three words together again ([assembled]). *)
From S2P Require Import Prelude HwHeap HwTiers HwAccess HwRing HwWalk HwBank HwMmu HwSlots.

(** The block RAMs of all banks. *)
Definition Rams : Type := Z -> Z -> Z -> Z.
Definition rams (m : Mmu) : Rams := fun b => brams (banks m b).

(** The word [i] of the slot of a page and a node. *)
Definition word_at (R : Rams) (page node i : Z) : Z := R (page / 60) (page mod 60) (cat node 2 i).

(** The words of the nodes of [c]. *)
Definition words_of (c : Z -> Z) (a i : Z) : Z := bram_word (c a) i.

(** The same when [n] words of the request [r] are written. *)
Definition mixed (c : Z -> Z) (r : VReq) (n a i : Z) : Z :=
  if req_wr r && (a =? va_key (req_va r)) && (i <? n) then bram_word (req_wdata r) i else bram_word (c a) i.

(** A write of a bank. *)
Definition write_word (R : Rams) (page node i d : Z) : Rams :=
  ram_set R (page / 60) (ram_set (R (page / 60)) (page mod 60) (ram_set (R (page / 60) (page mod 60)) (cat node 2 i) d)).

Lemma word_addr_inj n i n' i' :
  0 <= i < 3 -> 0 <= i' < 3 -> cat n 2 i = cat n' 2 i' -> n = n' /\ i = i'.
Proof. intros Hi Hi'. rewrite !cat_sum by lia. change (2 ^ 2) with 4. lia. Qed.

Lemma write_word_same R page node i d : word_at (write_word R page node i d) page node i = d.
Proof. unfold word_at, write_word. by rewrite !ram_set_eq. Qed.

Lemma write_word_other R page node i d page' node' i' :
  0 <= i < 3 -> 0 <= i' < 3 -> (page', node', i') <> (page, node, i) ->
  word_at (write_word R page node i d) page' node' i' = word_at R page' node' i'.
Proof.
  intros Hi Hi' Hne. unfold word_at, write_word.
  destruct (decide (page' / 60 = page / 60)) as [Hd|Hd]; [rewrite Hd, ram_set_eq|by rewrite ram_set_ne].
  destruct (decide (page' mod 60 = page mod 60)) as [Hm|Hm]; [rewrite Hm, ram_set_eq|by rewrite ram_set_ne].
  apply ram_set_ne. intros [-> ->]%word_addr_inj; [|done..]. apply Hne. f_equal. f_equal.
  rewrite (Z.div_mod page' 60), (Z.div_mod page 60) by lia. by rewrite Hd, Hm.
Qed.

Section Store.
Variable e : Z.
Hypothesis He : 0 <= e < 8.

(** The key [1024 h + x], when it has a slot, has the words [w] there; slots that no
key has, and keys that have no slot, are zeros. *)
Record stored (ks : Z -> list Z) (R : Rams) (w : Z -> Z -> Z) : Prop := {
  st_key h j x i : 0 <= h <= 1 -> ks h !! j = Some x -> 0 <= i < 3 ->
    word_at R (page_of e h j) (node_of j) i = w (1024 * h + x) i;
  st_spare h j i : 0 <= h <= 1 -> (length (ks h) <= j < 960)%nat -> 0 <= i < 3 ->
    word_at R (page_of e h j) (node_of j) i = 0;
  st_none h x i : 0 <= h <= 1 -> 0 <= x < 1024 -> x ∉ ks h -> 0 <= i < 3 -> w (1024 * h + x) i = 0
}.

Lemma stored_ext ks R R' w w' :
  (forall b p a, R' b p a = R b p a) -> (forall a i, 0 <= i < 3 -> w' a i = w a i) -> stored ks R w -> stored ks R' w'.
Proof.
  intros HR Hw [Hk Hs Hn]. split; unfold word_at in *; intros; rewrite ?HR, ?Hw by done; eauto.
Qed.

(** A key gets a slot. *)
Lemma stored_add ks R w h x :
  0 <= h <= 1 -> 0 <= x < 1024 -> x ∉ ks h -> (length (ks h) < 960)%nat ->
  stored ks R w -> stored (add_key ks h x) R w.
Proof.
  intros Hh Hx Hin Hlen [Hk Hs Hn]. split.
  - intros h' j y i Hh'. destruct (decide (h' = h)) as [->|Hne]; [|rewrite add_key_other by done; by apply Hk].
    rewrite add_key_same. intros [Hy|[Hge Hy]]%lookup_app_Some Hi; [by apply Hk|].
    apply list_lookup_singleton_Some in Hy as [Hj <-]. rewrite Hs, Hn by (done || lia). done.
  - intros h' j i Hh'. destruct (decide (h' = h)) as [->|Hne]; [|rewrite add_key_other by done; by apply Hs].
    rewrite add_key_same, length_app. simpl. intros Hj Hi. apply Hs; [done|lia|done].
  - intros h' y i Hh' Hy. destruct (decide (h' = h)) as [->|Hne]; [|rewrite add_key_other by done; by apply Hn].
    rewrite add_key_same. intros Hny. apply Hn; [done..|]. set_solver.
Qed.

(** A word of a node is written. *)
Lemma stored_write ks a pt R c r n j :
  allocated e ks a pt -> 0 <= n < 3 -> req_wr r = true -> ks (half r) !! j = Some (low r) ->
  stored ks R (mixed c r n) ->
  stored ks (write_word R (page_of e (half r) j) (node_of j) n (bram_word (req_wdata r) n)) (mixed c r (n + 1)).
Proof.
  intros Ha Hn Hwr Hj [Hk Hs Hz]. pose proof (half_low r) as (Hh & Hl & Hkey).
  pose proof (al_len _ _ _ _ Ha (half r) Hh) as Hb. pose proof (lookup_lt_Some _ _ _ Hj) as Hlt.
  assert (Hmix : forall a' i, (a', i) <> (va_key (req_va r), n) -> mixed c r (n + 1) a' i = mixed c r n a' i).
  { intros a' i Hne. unfold mixed. rewrite Hwr. cbn [andb]. destruct (Z.eqb_spec a' (va_key (req_va r))) as [->|]; [|done].
    cbn [andb]. destruct (decide (i = n)) as [->|]; [done|]. by replace (i <? n + 1) with (i <? n) by lia. }
  split.
  - intros h j' x i Hh' Hj' Hi. pose proof (al_len _ _ _ _ Ha h Hh'). pose proof (lookup_lt_Some _ _ _ Hj').
    pose proof (al_range _ _ _ _ Ha h x Hh' ltac:(by eapply list_elem_of_lookup_2)).
    destruct (decide (1024 * h + x = va_key (req_va r) /\ i = n)) as [[Heq ->]|Hne].
    + assert (h = half r /\ x = low r) as [-> ->] by lia.
      assert (j' = j) as -> by (by eapply NoDup_lookup; [apply (al_nodup _ _ _ _ Ha (half r) Hh)|..]).
      rewrite write_word_same. unfold mixed. rewrite Hwr, Heq, Z.eqb_refl. by replace (n <? n + 1) with true by lia.
    + rewrite write_word_other; [rewrite Hmix; [by apply Hk|]|done|done|].
      * intros [= ? ?]. tauto.
      * intros [= Hp Hnode ->]. destruct (slot_same e He h j' (half r) j Hh' Hh ltac:(lia) ltac:(lia) Hp Hnode) as [-> ->].
        apply Hne. rewrite Hj in Hj'. injection Hj' as <-. split; [lia|done].
  - intros h j' i Hh' Hj' Hi. rewrite write_word_other; [by apply Hs|done|done|]. intros [= Hp Hnode ->].
    destruct (slot_same e He h j' (half r) j Hh' Hh ltac:(lia) ltac:(lia) Hp Hnode) as [-> ->]. lia.
  - intros h x i Hh' Hx Hin Hi. rewrite Hmix; [by apply Hz|]. intros [= Heq ->].
    assert (h = half r /\ x = low r) as [-> ->] by lia. apply Hin. by eapply list_elem_of_lookup_2.
Qed.

(** Nothing is written yet, or nothing will be; everything is. *)
Lemma mixed_start ks R c r : stored ks R (words_of c) -> stored ks R (mixed c r 0).
Proof.
  apply stored_ext; [done|]. intros a i Hi. unfold mixed, words_of. replace (i <? 0) with false by lia. by rewrite andb_false_r.
Qed.

Lemma mixed_read ks R c r n n' : req_wr r = false -> stored ks R (mixed c r n) -> stored ks R (mixed c r n').
Proof. intros Hr. apply stored_ext; [done|]. intros a i Hi. unfold mixed. by rewrite Hr. Qed.

Lemma mixed_end ks R c r : stored ks R (mixed c r 3) -> stored ks R (words_of (served r c)).
Proof.
  apply stored_ext; [done|]. intros a i Hi. unfold mixed, words_of, served. replace (i <? 3) with true by lia.
  rewrite andb_true_r. by destruct (req_wr r && (a =? va_key (req_va r))).
Qed.

(** What a read finds. *)
Lemma stored_word ks R c r n j i :
  req_wr r = false -> ks (half r) !! j = Some (low r) -> 0 <= i < 3 -> stored ks R (mixed c r n) ->
  word_at R (page_of e (half r) j) (node_of j) i = bram_word (c (va_key (req_va r))) i.
Proof.
  intros Hr Hj Hi Hs. pose proof (half_low r) as (Hh & _ & ->).
  rewrite (st_key _ _ _ Hs _ _ _ _ Hh Hj Hi). unfold mixed. by rewrite Hr.
Qed.

(** Before the first request. *)
Lemma stored_reset : stored (fun _ => []) (rams mmu_reset) (words_of (fun _ => 0)).
Proof. split; intros; [done|done|apply bram_word_zero]. Qed.
End Store.
