(* ===== verification/HwGuard.v ===== *)
(** * HwGuard: who works on which slot

Whatever the eight clients ask for, together and as often as they like: no two entries of
the page table are the same, and no request reaches a slot outside the pages of its engine
and side of the book ([guarded]).  As long as the two walkers have not wanted a slot of
the same partition in the same cycle, every slot has one owner for good ([owned]); when
they do, two nodes get one slot ([collision_shares_slot]). *)
From S2P Require Import Prelude HwHeap HwTiers HwAccess HwRing HwWalk HwBank HwMmu HwSlots.

#[local] Ltac Zify.zify_post_hook ::= Z.to_euclidean_division_equations.
#[local] Arguments lookup_valid_bit : simpl never.
#[local] Arguments lookup_page_idx : simpl never.
#[local] Arguments lookup_node_idx : simpl never.
#[local] Arguments computed_pa : simpl never.
#[local] Arguments computed_bank_id : simpl never.
#[local] Arguments pt_key : simpl never.
#[local] Arguments pt_wdata : simpl never.
#[local] Arguments partition_of : simpl never.
#[local] Arguments alloc_page_avail : simpl never.
#[local] Arguments alloc_node_avail : simpl never.

(** ** Keys *)

Lemma pt_key_bound va : 0 <= pt_key va < 2 ^ 14.
Proof.
  unfold pt_key. apply (cat_bound _ 11 _ 3); [lia|lia|apply field_bound; lia..].
Qed.

Lemma partition_key va : partition_of va = pt_key va / 1024.
Proof.
  unfold partition_of, pt_key. pose proof (field_bound va 29 3 ltac:(lia)). pose proof (field_bound va 0 11 ltac:(lia)) as Hk.
  assert (Hbit : field va 10 1 = field va 0 11 / 1024).
  { rewrite !field_div in * by lia. change (2 ^ 10) with 1024. change (2 ^ 1) with 2. change (2 ^ 11) with 2048.
    change (2 ^ 0) with 1. rewrite Z.div_1_r. lia. }
  rewrite Hbit, !cat_sum by lia. lia.
Qed.

Lemma partition_bound va : 0 <= partition_of va < 16.
Proof. rewrite partition_key. pose proof (pt_key_bound va). lia. Qed.

(** ** The page table *)

(** The slot [j] of the partition [p]. *)
Definition slot_word (p : Z) (j : nat) : Z := pt_wdata (15 * p + Z.of_nat j / 64) (Z.of_nat j mod 64).

Lemma slot_word_fields p j :
  0 <= p < 16 -> (j < 960)%nat ->
  lookup_valid_bit (slot_word p j) = true /\ lookup_page_idx (slot_word p j) = 15 * p + Z.of_nat j / 64 /\
  lookup_node_idx (slot_word p j) = Z.of_nat j mod 64.
Proof. intros Hp Hj. apply pt_wdata_fields; lia. Qed.

Lemma slot_word_inj p j p' j' :
  0 <= p < 16 -> 0 <= p' < 16 -> (j < 960)%nat -> (j' < 960)%nat -> slot_word p j = slot_word p' j' -> p = p' /\ j = j'.
Proof.
  intros Hp Hp' Hj Hj' Heq. destruct (slot_word_fields p j Hp Hj) as (_ & H1 & H2).
  destruct (slot_word_fields p' j' Hp' Hj') as (_ & H3 & H4). rewrite Heq in H1, H2. lia.
Qed.

(** [n p] slots of the partition [p] are taken; every valid entry is one of them, and no
two entries are the same. *)
Record table_ok (n : Z -> nat) (a : Partitions) (pt : Z -> Z) : Prop := {
  tb_node p : 0 <= p < 16 -> partition_node_off a p = Z.of_nat (n p) mod 64;
  tb_page p : 0 <= p < 16 -> partition_page_off a p = (Z.of_nat (n p) / 64) `min` 14;
  tb_full p : 0 <= p < 16 -> partition_full a p = bool_decide (960 <= n p)%nat;
  tb_count p : 0 <= p < 16 -> (n p <= 960)%nat;
  tb_slot k : 0 <= k < 2 ^ 14 -> lookup_valid_bit (pt k) = true ->
    exists j, (j < n (k / 1024)%Z)%nat /\ pt k = slot_word (k / 1024) j;
  tb_once k k' : 0 <= k < 2 ^ 14 -> 0 <= k' < 2 ^ 14 ->
    lookup_valid_bit (pt k) = true -> pt k = pt k' -> k = k'
}.

Lemma table_ext n n' a pt : (forall p, n' p = n p) -> table_ok n a pt -> table_ok n' a pt.
Proof.
  intros Hn [H1 H2 H3 H4 H5 H6]. split; try done; intros; rewrite ?Hn in *; auto.
Qed.

(** What the allocator offers of a partition that is not full. *)
Lemma table_offers n a pt p :
  table_ok n a pt -> 0 <= p < 16 -> partition_full a p = false ->
  (n p < 960)%nat /\ alloc_page_avail a p = 15 * p + Z.of_nat (n p) / 64 /\ alloc_node_avail a p = Z.of_nat (n p) mod 64.
Proof.
  intros Ht Hp Hfull. rewrite (tb_full _ _ _ Ht) in Hfull by done. apply bool_decide_eq_false in Hfull.
  unfold alloc_page_avail, alloc_node_avail. rewrite (tb_page _ _ _ Ht), (tb_node _ _ _ Ht) by done.
  split; [lia|]. split; [|done]. change (2 ^ 8) with 256. rewrite Z.mod_small; lia.
Qed.

(** A walker takes a slot. *)
Lemma table_add n a pt k :
  table_ok n a pt -> 0 <= k < 2 ^ 14 -> partition_full a (k / 1024) = false ->
  let p := k / 1024 in
  table_ok (ram_set n p (S (n p))) (advance p a) (ram_set pt k (pt_wdata (alloc_page_avail a p) (alloc_node_avail a p))).
Proof.
  intros Ht Hk Hfull p. assert (Hp : 0 <= p < 16) by (unfold p; lia).
  destruct (table_offers _ _ _ p Ht Hp Hfull) as (Hn & -> & ->). fold (slot_word p (n p)).
  destruct (advance_pointers a p (n p) (tb_node _ _ _ Ht p Hp) (tb_page _ _ _ Ht p Hp) (tb_full _ _ _ Ht p Hp) Hn)
    as (Hnode & Hpage & Hfull' & Hother). destruct (slot_word_fields p (n p) Hp Hn) as (Hv & _).
  assert (Hnew : forall k', 0 <= k' < 2 ^ 14 -> lookup_valid_bit (pt k') = true -> pt k' <> slot_word p (n p)).
  { intros k' Hk' Hv' Heq. destruct (tb_slot _ _ _ Ht k' Hk' Hv') as (j & Hj & Hs). rewrite Heq in Hs.
    pose proof (tb_count _ _ _ Ht (k' / 1024) ltac:(lia)). apply slot_word_inj in Hs as [Hq Hjn]; [|lia..]. rewrite <- Hq in Hj. lia. }
  split.
  - intros q Hq. destruct (decide (q = p)) as [->|Hne]; [by rewrite ram_set_eq|].
    rewrite ram_set_ne, (proj1 (Hother q Hne)) by done. by apply (tb_node _ _ _ Ht).
  - intros q Hq. destruct (decide (q = p)) as [->|Hne]; [by rewrite ram_set_eq|].
    rewrite ram_set_ne, (proj1 (proj2 (Hother q Hne))) by done. by apply (tb_page _ _ _ Ht).
  - intros q Hq. destruct (decide (q = p)) as [->|Hne]; [by rewrite ram_set_eq|].
    rewrite ram_set_ne, (proj2 (proj2 (Hother q Hne))) by done. by apply (tb_full _ _ _ Ht).
  - intros q Hq. destruct (decide (q = p)) as [->|Hne]; [rewrite ram_set_eq; lia|].
    rewrite ram_set_ne by done. by apply (tb_count _ _ _ Ht).
  - intros k' Hk'. destruct (decide (k' = k)) as [->|Hne].
    + fold p. rewrite !ram_set_eq. intros _. exists (n p). split; [lia|done].
    + rewrite (ram_set_ne pt) by done. intros Hv'. destruct (tb_slot _ _ _ Ht k' Hk' Hv') as (j & Hj & Hs). exists j.
      split; [|done]. destruct (decide (k' / 1024 = p)) as [Hq|Hq]; [rewrite Hq in *; rewrite ram_set_eq; lia|by rewrite ram_set_ne].
  - intros k1 k2 H1 H2. destruct (decide (k1 = k)) as [->|Hn1], (decide (k2 = k)) as [->|Hn2];
      rewrite ?ram_set_eq, ?(ram_set_ne pt) by done; try done.
    + intros Hv1 Heq. rewrite Heq in Hv1. symmetry in Heq. by apply Hnew in Heq.
    + intros Hv1 Heq. by apply Hnew in Heq.
    + by apply (tb_once _ _ _ Ht).
Qed.

(** ** Slots of a partition

[Owns k j]: the slot [j] of its partition is for the key [k]. *)

Abbreviation Owns := (Z -> nat -> Prop).

Definition in_part (own : Owns) (va pa b : Z) : Prop :=
  exists j, (j < 960)%nat /\ own (pt_key va) j /\
    let page := 15 * partition_of va + Z.of_nat j / 64 in
    pa = computed_pa page (Z.of_nat j mod 64) /\ b = page / 60.

(** What a walker knows: its request is for [va], [rdata] has come from the page table. *)
Record walker_ok (own : Owns) (w : Walker) (va rdata : Z) : Prop := {
  wo_valid : pa_valid_reg w = bool_decide (wk_state w = W_DONE);
  wo_key : wk_state w = W_LOOKUP \/ wk_state w = W_ALLOCATE -> latched_key w = pt_key va;
  wo_word : wk_state w = W_LOOKUP -> lookup_valid_bit rdata = true ->
    exists j, (j < 960)%nat /\ own (pt_key va) j /\ rdata = slot_word (partition_of va) j;
  wo_pa : wk_state w = W_DONE -> in_part own va (pa_reg w) (bank_id_reg w)
}.

(** The entries of the page table are for their keys. *)
Definition entries_own (own : Owns) (pt : Z -> Z) : Prop :=
  forall k, 0 <= k < 2 ^ 14 -> lookup_valid_bit (pt k) = true ->
  exists j, (j < 960)%nat /\ own k j /\ pt k = slot_word (k / 1024) j.

Lemma slot_in_part (own : Owns) va j :
  (j < 960)%nat -> own (pt_key va) j ->
  let page := 15 * partition_of va + Z.of_nat j / 64 in
  in_part own va (computed_pa page (Z.of_nat j mod 64)) (computed_bank_id page).
Proof.
  intros Hj Ho page. exists j. do 2 (split; [done|]). split; [done|]. apply computed_bank_div.
  pose proof (partition_bound va). unfold page. lia.
Qed.

Lemma walker_keeps n a pt (own own' : Owns) w i v :
  table_ok n a pt -> entries_own own' pt -> (forall k j, own k j -> own' k j) ->
  (alloc (alloc_avail i) w = true -> own' (pt_key v) (n (partition_of v))) ->
  walker_ok own w v (pt_rdata i) -> (va_valid i = true -> wk_state w = W_IDLE) ->
  alloc_avail i = negb (partition_full a (partition_of v)) ->
  alloc_page_in i = alloc_page_avail a (partition_of v) -> alloc_node_in i = alloc_node_avail a (partition_of v) ->
  walker_ok own' (walker_clock i w) (if va_valid i then va i else v) (pt (pt_raddr (va_valid i) (va i) w)).
Proof.
  intros Ht Hown Hmore Hnew [Hvalid Hkey Hword Hpa] Hidle Havail Hpage Hnode. pose proof (partition_bound v) as Hp.
  assert (Hbusy : wk_state w <> W_IDLE -> va_valid i = false) by (destruct (va_valid i); [intros []; auto|done]).
  unfold walker_clock, pt_raddr, wn_state, selected_page, selected_node.
  destruct (wk_state w) eqn:Hs; cbn; [|destruct (lookup_valid_bit (pt_rdata i)) eqn:Hv|destruct (alloc_avail i) eqn:Ha| |].
  2-7: rewrite (Hbusy ltac:(done)); clear Hbusy Hidle.
  - destruct (va_valid i); cbn; split; cbn; try (by intros [?|?]); try done.
    intros _. rewrite bool_decide_eq_true_2 by done. cbn [andb]. intros Hv. rewrite partition_key. by apply Hown; [apply pt_key_bound|].
  - split; cbn; try (by intros [?|?]); try done. intros _. destruct (Hword eq_refl eq_refl) as (j & Hj & Ho & ->).
    destruct (slot_word_fields _ j Hp Hj) as (_ & -> & ->).
    rewrite !bool_decide_eq_true_2 by done. apply slot_in_part; [done|by apply Hmore].
  - split; cbn; try done. intros _. apply Hkey. by left.
  - split; cbn; try (by intros [?|?]); try done. intros _. symmetry in Havail. apply negb_true_iff in Havail.
    destruct (table_offers _ _ _ _ Ht Hp Havail) as (Hn & Hpg & Hnd). rewrite Hpage, Hnode, Hpg, Hnd.
    rewrite bool_decide_eq_true_2, bool_decide_eq_false_2 by done. apply slot_in_part; [done|].
    apply Hnew. unfold alloc. by rewrite Hs, bool_decide_eq_true_2.
  - split; cbn; try (by intros [?|?]); done.
  - split; cbn; try (by intros [?|?]); done.
  - split; cbn; try (by intros [?|?]); done.
Qed.

(** ** The lanes *)

Lemma ptw0_accept_valid L rr w0 w1 : ptw0_can_enqueue L rr w0 w1 = true -> ptw_valid w0 = true.
Proof.
  unfold ptw0_can_enqueue, same_bank_collision. destruct (ptw_valid w0); [done|]. cbn. done.
Qed.

Lemma ptw1_accept_valid L rr w0 w1 : ptw1_can_enqueue L rr w0 w1 = true -> ptw_valid w1 = true.
Proof.
  unfold ptw1_can_enqueue, same_bank_collision. destruct (ptw_valid w1); [done|]. by rewrite andb_false_r.
Qed.

Definition entry_ok (own : Owns) (b : Z) (x : BankReq) : Prop := in_part own (req_va (br_req x)) (br_pa x) b.

Definition lane_ok (own : Owns) (b : Z) (l : Lane) : Prop := exists qs, ring_rep 4 (queue l) qs /\ Forall (entry_ok own b) qs.

Lemma lane_keeps (own own' : Owns) b l wr0 e0 wr1 e1 bk :
  (forall k j, own k j -> own' k j) ->
  lane_ok own b l -> (wr0 = true -> entry_ok own b e0) -> (wr1 = true -> entry_ok own b e1) ->
  lane_ok own' b (lane_clock wr0 e0 wr1 e1 bk l).
Proof.
  intros Hmore (qs & Hq & Hf) H0 H1.
  assert (Hx : forall x, entry_ok own b x -> entry_ok own' b x).
  { intros x (j & Hj & Ho & Hpa). exists j. split; [done|]. split; [by apply Hmore|done]. }
  apply (Forall_impl _ (entry_ok own' b)) in Hf; [|done]. eexists. split; [by apply dual_clock_rep|]. apply Forall_app. split.
  - destruct (dispatch l bk); [|done]. by destruct qs; [|apply Forall_cons in Hf as [_ Hf]].
  - apply Forall_app. split.
    + destruct wr0; cbn; [|done]. destruct (_ <? _); [by apply Forall_singleton, Hx, H0|done].
    + destruct wr1; cbn; [|done]. destruct (_ <? _); [by apply Forall_singleton, Hx, H1|done].
Qed.

(** ** The invariants *)

Lemma alloc_spec avail w : alloc avail w = true <-> wk_state w = W_ALLOCATE /\ avail = true.
Proof. unfold alloc. rewrite andb_true_iff, bool_decide_eq_true. done. Qed.

Lemma alloc_raddr valid v avail w : alloc avail w = true -> pt_raddr valid v w = latched_key w.
Proof. intros [Hs _]%alloc_spec. unfold pt_raddr. by rewrite Hs. Qed.

(** A walker that takes a slot takes that of its request. *)
Lemma alloc_key own avail w v rdata : walker_ok own w v rdata -> alloc avail w = true -> latched_key w = pt_key v.
Proof. intros Hw [Hs _]%alloc_spec. apply (wo_key _ _ _ _ Hw). by right. Qed.

(** How many slots are taken after a clock edge. *)
Definition counts_next (m : Mmu) (n : Z -> nat) : Z -> nat :=
  let n0 := if ptw0_alloc m then ram_set n (ptw0_partition m) (S (n (ptw0_partition m))) else n in
  if ptw1_alloc_eff m then ram_set n0 (ptw1_partition m) (S (n0 (ptw1_partition m))) else n0.

(** Two slots that are taken in the same cycle are of different partitions. *)
Lemma second_apart m :
  ptw1_alloc_eff m = true -> ptw0_alloc m = true -> ptw0_partition m <> ptw1_partition m.
Proof.
  unfold ptw1_alloc_eff, same_alloc_collision. intros [H1 Hc]%andb_true_iff H0. rewrite H0, H1 in Hc.
  by apply negb_true_iff, Z.eqb_neq in Hc.
Qed.

Record walkers_ok (own : Owns) (m : Mmu) : Prop := {
  wk_first : walker_ok own (ptw0 m) (req_va (ptw0_pipe m)) (ptw0_pt_rdata m);
  wk_second : walker_ok own (ptw1 m) (req_va (ptw1_pipe m)) (ptw1_pt_rdata m)
}.

Lemma table_next_ok own n m :
  table_ok n (partitions m) (page_table m) -> walkers_ok own m ->
  table_ok (counts_next m n) (partitions_next m) (page_table_next m).
Proof.
  intros Ht [Hw0 Hw1].
  set (n0 := if ptw0_alloc m then ram_set n (ptw0_partition m) (S (n (ptw0_partition m))) else n).
  assert (H0 : table_ok n0 (if ptw0_alloc m then advance (ptw0_partition m) (partitions m) else partitions m)
    (if ptw0_alloc m && (ptw0_pt_raddr m =? latched_key (ptw0 m))
     then ram_set (page_table m) (ptw0_pt_raddr m) (slot_entry (ptw0_ins m)) else page_table m)).
  { unfold n0. destruct (ptw0_alloc m) eqn:Ha; cbn [andb]; [|done]. unfold ptw0_pt_raddr. rewrite (alloc_raddr _ _ _ _ Ha), Z.eqb_refl.
    pose proof (alloc_key _ _ _ _ _ Hw0 Ha) as Hk. rewrite Hk. unfold ptw0_partition in *. rewrite partition_key in *.
    apply alloc_spec in Ha as [_ Ha]. cbn in Ha. apply negb_true_iff in Ha. unfold ptw0_partition in Ha. rewrite partition_key in Ha.
    pose proof (table_add n _ _ _ Ht (pt_key_bound (req_va (ptw0_pipe m))) Ha) as Hadd. unfold slot_entry. cbn.
    unfold ptw0_partition. rewrite partition_key. exact Hadd. }
  unfold counts_next, partitions_next, page_table_next. fold n0. cbv zeta.
  destruct (ptw1_alloc_eff m) eqn:Ha; cbn [andb]; [|exact H0]. pose proof (second_apart m Ha) as Hc.
  unfold ptw1_alloc_eff in Ha. apply andb_true_iff in Ha as [Ha _].
  unfold ptw1_pt_raddr. rewrite (alloc_raddr _ _ _ _ Ha), Z.eqb_refl. pose proof (alloc_key _ _ _ _ _ Hw1 Ha) as Hk. rewrite Hk.
  assert (Hp1 : ptw1_partition m = pt_key (req_va (ptw1_pipe m)) / 1024) by apply partition_key.
  assert (Hsame : forall a0, a0 = (if ptw0_alloc m then advance (ptw0_partition m) (partitions m) else partitions m) ->
    partition_full a0 (ptw1_partition m) = partition_full (partitions m) (ptw1_partition m) /\
    alloc_page_avail a0 (ptw1_partition m) = alloc_page_avail (partitions m) (ptw1_partition m) /\
    alloc_node_avail a0 (ptw1_partition m) = alloc_node_avail (partitions m) (ptw1_partition m)).
  { intros a0 ->. destruct (ptw0_alloc m); [|done]. specialize (Hc eq_refl). unfold alloc_page_avail, alloc_node_avail, advance.
    repeat case_match; cbn; by rewrite ?ram_set_ne by congruence. }
  set (a0 := if ptw0_alloc m then advance _ _ else partitions m) in *. destruct (Hsame a0 eq_refl) as (Hf1 & Hpg & Hnd).
  apply alloc_spec in Ha as [_ Ha]. cbn in Ha. apply negb_true_iff in Ha. rewrite <- Hf1, Hp1 in Ha.
  pose proof (table_add n0 _ _ _ H0 (pt_key_bound (req_va (ptw1_pipe m))) Ha) as Hadd. cbv zeta in Hadd.
  unfold slot_entry. cbn. rewrite <- Hpg, <- Hnd, Hp1. exact Hadd.
Qed.

Lemma valid_idle (q : Ring VReq) w : negb (ring_empty q) && negb (wk_busy w) = true -> wk_state w = W_IDLE.
Proof. intros [_ Hv]%andb_true_iff. unfold wk_busy in Hv. rewrite negb_involutive in Hv. by apply bool_decide_eq_true in Hv. Qed.

(** The walkers and the lanes go on, when the slots that are taken are for their keys. *)
Section Next.
Variables (own own' : Owns) (n : Z -> nat) (m : Mmu) (reqs : Z -> option VReq).
Hypothesis Ht : table_ok n (partitions m) (page_table m).
Hypothesis Hown : entries_own own' (page_table m).
Hypothesis Hmore : forall k j, own k j -> own' k j.
Hypothesis Hnew0 : ptw0_alloc m = true -> own' (pt_key (req_va (ptw0_pipe m))) (n (ptw0_partition m)).
Hypothesis Hnew1 : ptw1_alloc m = true -> own' (pt_key (req_va (ptw1_pipe m))) (n (ptw1_partition m)).
Hypothesis Hw : walkers_ok own m.

Lemma walkers_next : walkers_ok own' (mmu_next reqs m).
Proof.
  destruct Hw as [Hw0 Hw1]. split.
  - pose proof (walker_keeps n _ _ own own' (ptw0 m) (ptw0_ins m) _ Ht Hown Hmore Hnew0 Hw0 (valid_idle _ _) eq_refl eq_refl eq_refl) as Hk.
    cbn [mmu_next ptw0 ptw0_pipe ptw0_pt_rdata]. unfold ptw0_pt_raddr.
    cbn [va_valid va ptw0_ins walk_ins] in *. by destruct (ptw0_va_valid_in m).
  - pose proof (walker_keeps n _ _ own own' (ptw1 m) (ptw1_ins m) _ Ht Hown Hmore Hnew1 Hw1 (valid_idle _ _) eq_refl eq_refl eq_refl) as Hk.
    cbn [mmu_next ptw1 ptw1_pipe ptw1_pt_rdata]. unfold ptw1_pt_raddr.
    cbn [va_valid va ptw1_ins walk_ins] in *. by destruct (ptw1_va_valid_in m).
Qed.

Lemma lane_next_ok b : lane_ok own b (lanes m b) -> lane_ok own' b (lanes (mmu_next reqs m) b).
Proof.
  destruct Hw as [Hw0 Hw1]. intros Hl. cbn [mmu_next lanes]. unfold lanes_next. rewrite four_eq. eapply lane_keeps; [exact Hmore|exact Hl|..].
  - intros [Ha Hb]%andb_true_iff. apply ptw0_accept_valid in Ha. apply Z.eqb_eq in Hb. cbn in Ha, Hb. subst b.
    rewrite (wo_valid _ _ _ _ Hw0) in Ha. by apply bool_decide_eq_true, (wo_pa _ _ _ _ Hw0) in Ha.
  - intros [Ha Hb]%andb_true_iff. apply ptw1_accept_valid in Ha. apply Z.eqb_eq in Hb. cbn in Ha, Hb. subst b.
    apply andb_true_iff in Ha as [Ha _]. rewrite (wo_valid _ _ _ _ Hw1) in Ha. by apply bool_decide_eq_true, (wo_pa _ _ _ _ Hw1) in Ha.
Qed.
End Next.

(** *** Whatever the clients ask for *)

(** Any requests, cycle after cycle. *)
Inductive mmu_reach : Mmu -> Prop :=
| reach_reset : mmu_reach mmu_reset
| reach_next reqs m : mmu_reach m -> mmu_reach (mmu_next reqs m).

Definition anybody : Owns := fun _ _ => True.

Record guarded (m : Mmu) : Prop := {
  gd_table : exists n, table_ok n (partitions m) (page_table m);
  gd_walkers : walkers_ok anybody m;
  gd_lanes b : lane_ok anybody b (lanes m b)
}.

Lemma table_reset : table_ok (fun _ => 0%nat) (partitions mmu_reset) (page_table mmu_reset).
Proof. split; cbn; intros; try done; lia. Qed.

Lemma walkers_reset own : walkers_ok own mmu_reset.
Proof. by split; split; cbn; try by intros [?|?]. Qed.

Lemma lanes_reset own b : lane_ok own b (lanes mmu_reset b).
Proof. exists []. split; [by apply ring_reset_rep|constructor]. Qed.

Lemma table_anybody n a pt : table_ok n a pt -> entries_own anybody pt.
Proof.
  intros Ht k Hk Hv. destruct (tb_slot _ _ _ Ht k Hk Hv) as (j & Hj & Hs). exists j.
  pose proof (tb_count _ _ _ Ht (k / 1024) ltac:(lia)). split; [lia|done].
Qed.

Lemma guarded_next reqs m : guarded m -> guarded (mmu_next reqs m).
Proof.
  intros [[n Ht] Hw Hl]. pose proof (table_anybody _ _ _ Ht) as Ho. split.
  - eexists. by eapply table_next_ok.
  - by eapply walkers_next.
  - intros b. by eapply lane_next_ok.
Qed.

Lemma reach_guarded m : mmu_reach m -> guarded m.
Proof.
  induction 1 as [|reqs m _ IH]; [|by apply guarded_next].
  split; [eexists; apply table_reset|apply walkers_reset|apply lanes_reset].
Qed.

(** *** Owners of slots *)

(** The keys that have taken the slots of a partition, in their order. *)
Definition Owners : Type := Z -> list Z.

Definition owner (os : Owners) : Owns := fun k j => os (k / 1024) !! j = Some k.

Definition take_slot (va : Z) (os : Owners) : Owners := ram_set os (partition_of va) (os (partition_of va) ++ [pt_key va]).

Definition owners_next (m : Mmu) (os : Owners) : Owners :=
  let os0 := if ptw0_alloc m then take_slot (req_va (ptw0_pipe m)) os else os in
  if ptw1_alloc_eff m then take_slot (req_va (ptw1_pipe m)) os0 else os0.

Record owned (os : Owners) (m : Mmu) : Prop := {
  ow_table : table_ok (fun p => length (os p)) (partitions m) (page_table m);
  ow_entries : entries_own (owner os) (page_table m);
  ow_walkers : walkers_ok (owner os) m;
  ow_lanes b : lane_ok (owner os) b (lanes m b)
}.

Lemma take_slot_prefix va os p : os p `prefix_of` take_slot va os p.
Proof.
  unfold take_slot. destruct (decide (p = partition_of va)) as [->|Hne]; [rewrite ram_set_eq; by apply prefix_app_r|by rewrite ram_set_ne].
Qed.

Lemma owners_prefix m os p : os p `prefix_of` owners_next m os p.
Proof.
  unfold owners_next. destruct (ptw1_alloc_eff m), (ptw0_alloc m); try done; try apply take_slot_prefix.
  etrans; apply take_slot_prefix.
Qed.

Lemma owner_more (os os' : Owners) k j : (forall p, os p `prefix_of` os' p) -> owner os k j -> owner os' k j.
Proof. intros Hp Ho. by eapply prefix_lookup_Some. Qed.

Lemma owner_new os va : owner (take_slot va os) (pt_key va) (length (os (partition_of va))).
Proof. unfold owner, take_slot. rewrite <- partition_key, ram_set_eq. by apply list_lookup_middle. Qed.

Lemma owners_count m os p : length (owners_next m os p) = counts_next m (fun p => length (os p)) p.
Proof.
  unfold owners_next, counts_next, take_slot, ram_set.
  fold (ptw0_partition m) (ptw1_partition m).
  destruct (ptw1_alloc_eff m), (ptw0_alloc m); repeat case_match; rewrite ?length_app; cbn [length]; lia.
Qed.

Lemma entries_take os pt va :
  entries_own (owner os) pt -> (length (os (partition_of va)) < 960)%nat ->
  entries_own (owner (take_slot va os)) (ram_set pt (pt_key va) (slot_word (partition_of va) (length (os (partition_of va))))).
Proof.
  intros Ho Hn k Hk. destruct (decide (k = pt_key va)) as [->|Hne].
  - rewrite ram_set_eq. intros _. exists (length (os (partition_of va))). split; [done|]. split; [apply owner_new|by rewrite partition_key].
  - rewrite ram_set_ne by done. intros Hv. destruct (Ho k Hk Hv) as (j & Hj & Hown & Hs). exists j. split; [done|]. split; [|done].
    eapply owner_more; [|exact Hown]. apply take_slot_prefix.
Qed.

(** What a walker that takes a slot writes. *)
Lemma taken_entry n a pt own w va i valid v rdata :
  table_ok n a pt -> walker_ok own w va rdata -> alloc (alloc_avail i) w = true ->
  alloc_avail i = negb (partition_full a (partition_of va)) ->
  alloc_page_in i = alloc_page_avail a (partition_of va) -> alloc_node_in i = alloc_node_avail a (partition_of va) ->
  pt_raddr valid v w = pt_key va /\ latched_key w = pt_key va /\ (n (partition_of va) < 960)%nat /\
  slot_entry i = slot_word (partition_of va) (n (partition_of va)).
Proof.
  intros Ht Hw Ha Havail Hpage Hnode. rewrite (alloc_raddr _ _ _ _ Ha). pose proof (alloc_key _ _ _ _ _ Hw Ha) as ->.
  apply alloc_spec in Ha as [_ Ha]. rewrite Havail in Ha. apply negb_true_iff in Ha.
  destruct (table_offers _ _ _ _ Ht (partition_bound va) Ha) as (Hn & Hp & Hd). do 3 (split; [done|]).
  unfold slot_entry, slot_word. by rewrite Hpage, Hnode, Hp, Hd.
Qed.

Lemma entries_next os m : owned os m -> entries_own (owner (owners_next m os)) (page_table_next m).
Proof.
  intros [Ht Ho [Hw0 Hw1] _]. unfold owners_next, page_table_next. cbv zeta.
  set (os0 := if ptw0_alloc m then take_slot (req_va (ptw0_pipe m)) os else os).
  set (t0 := if ptw0_alloc m && _ then _ else page_table m).
  assert (H0 : entries_own (owner os0) t0).
  { unfold os0, t0. destruct (ptw0_alloc m) eqn:Ha; [|done]. cbn [andb].
    destruct (taken_entry _ _ _ _ _ _ (ptw0_ins m) (va_valid (ptw0_ins m)) (va (ptw0_ins m)) _ Ht Hw0 Ha eq_refl eq_refl eq_refl)
      as (Hr & Hk & Hn & He). unfold ptw0_pt_raddr. rewrite Hr, Hk, Z.eqb_refl, He. by apply entries_take. }
  destruct (ptw1_alloc_eff m) eqn:He1; [|done]. pose proof (second_apart m He1) as Hc.
  unfold ptw1_alloc_eff in He1. apply andb_true_iff in He1 as [Ha _].
  destruct (taken_entry _ _ _ _ _ _ (ptw1_ins m) (va_valid (ptw1_ins m)) (va (ptw1_ins m)) _ Ht Hw1 Ha eq_refl eq_refl eq_refl)
    as (Hr & Hk & Hn & He). cbn [andb]. unfold ptw1_pt_raddr. rewrite Hr, Hk, Z.eqb_refl, He.
  assert (Hos : os0 (partition_of (req_va (ptw1_pipe m))) = os (partition_of (req_va (ptw1_pipe m)))).
  { unfold os0, take_slot. destruct (ptw0_alloc m); [|done]. apply ram_set_ne. symmetry. by apply Hc. }
  rewrite <- Hos in *. by apply entries_take.
Qed.

(** As long as the walkers do not meet, the owners stay the owners. *)
Lemma owned_next reqs os m :
  owned os m -> same_alloc_collision m = false -> owned (owners_next m os) (mmu_next reqs m).
Proof.
  intros Hos Hcol. pose proof Hos as [Ht Ho Hw Hl].
  assert (Hmore : forall k j, owner os k j -> owner (owners_next m os) k j).
  { intros k j. apply owner_more. apply owners_prefix. }
  assert (Ho' : entries_own (owner (owners_next m os)) (page_table m)).
  { intros k Hk Hv. destruct (Ho k Hk Hv) as (j & Hj & Hown & Hs). exists j. split; [done|]. split; [by apply Hmore|done]. }
  assert (Hnew0 : ptw0_alloc m = true -> owner (owners_next m os) (pt_key (req_va (ptw0_pipe m))) (length (os (ptw0_partition m)))).
  { intros Ha. unfold owners_next. rewrite Ha. pose proof (owner_new os (req_va (ptw0_pipe m))) as Hn.
    destruct (ptw1_alloc_eff m); [|exact Hn]. eapply owner_more; [|exact Hn]. apply take_slot_prefix. }
  assert (Hnew1 : ptw1_alloc m = true -> owner (owners_next m os) (pt_key (req_va (ptw1_pipe m))) (length (os (ptw1_partition m)))).
  { intros Ha. assert (He : ptw1_alloc_eff m = true) by (unfold ptw1_alloc_eff; by rewrite Ha, Hcol).
    unfold owners_next. rewrite He. pose proof (second_apart m He) as Hc.
    set (os0 := if ptw0_alloc m then _ else os). assert (Hos0 : os0 (ptw1_partition m) = os (ptw1_partition m)).
    { unfold os0, take_slot. destruct (ptw0_alloc m); [|done]. apply ram_set_ne. symmetry. by apply Hc. }
    rewrite <- Hos0. apply owner_new. }
  split.
  - eapply table_ext; [exact (owners_count m os)|]. by eapply table_next_ok.
  - by apply entries_next.
  - by eapply (walkers_next (owner os) _ (fun p => length (os p))).
  - intros b. by eapply (lane_next_ok (owner os) _).
Qed.

(** *** Runs *)

Section Run.
Variable reqs : nat -> Z -> option VReq.

Fixpoint mmu_at (n : nat) : Mmu := match n with O => mmu_reset | S k => mmu_next (reqs k) (mmu_at k) end.

Lemma mmu_at_reach n : mmu_reach (mmu_at n).
Proof. induction n as [|n IH]; [constructor|by constructor]. Qed.

Fixpoint owners_at (n : nat) : Owners := match n with O => fun _ => [] | S k => owners_next (mmu_at k) (owners_at k) end.

Lemma owners_grow n n' p : (n' <= n)%nat -> owners_at n' p `prefix_of` owners_at n p.
Proof. induction 1 as [|n _ IH]; [done|]. etrans; [exact IH|apply owners_prefix]. Qed.

Lemma owned_at n : (forall k, (k < n)%nat -> same_alloc_collision (mmu_at k) = false) -> owned (owners_at n) (mmu_at n).
Proof.
  induction n as [|n IH]; intros Hc.
  - split; [apply table_reset|intros k _; done|apply walkers_reset|apply lanes_reset].
  - cbn [mmu_at owners_at]. apply owned_next; [apply IH; auto|apply Hc; lia].
Qed.
End Run.

(** ** What the banks work on *)

(** The request that the bank [b] takes in a cycle, and the page and the node that it
works on. *)
Definition at_bank (b : Z) (m : Mmu) : option VReq :=
  let p := lane_port (lanes m b) (banks m b) in
  if mem_we p || mem_re p then Some (br_req (rd_data (queue (lanes m b)))) else None.
Definition bank_slot (b : Z) (m : Mmu) : Z * Z :=
  let p := lane_port (lanes m b) (banks m b) in (local_page_idx b (mem_addr p), node_idx (mem_addr p)).

Lemma at_bank_slot own b m r :
  lane_ok own b (lanes m b) -> at_bank b m = Some r ->
  exists j, (j < 960)%nat /\ own (pt_key (req_va r)) j /\
    let page := 15 * partition_of (req_va r) + Z.of_nat j / 64 in
    b = page / 60 /\ bank_slot b m = (page mod 60, Z.of_nat j mod 64).
Proof.
  intros (qs & Hq & Hf) Hr. unfold at_bank in Hr. cbn [lane_port mem_we mem_re] in Hr.
  assert (Hd : dispatch (lanes m b) (banks m b) = true) by (by destruct (dispatch _ _)).
  rewrite Hd in Hr. unfold dispatch in Hd. rewrite (ring_empty_rep _ _ _ Hq) in Hd. destruct qs as [|x qs]; [done|].
  destruct (ring_read_rep _ _ _ _ Hq) as [Hx _]. rewrite Hx in Hr.
  assert (r = br_req x) as -> by (by destruct (req_wr (br_req x)); injection Hr).
  apply Forall_cons in Hf as [(j & Hj & Ho & Hpa & Hb) _]. exists j. do 2 (split; [done|]). split; [done|].
  unfold bank_slot. cbn [lane_port mem_addr]. rewrite Hx, Hpa, Hb. pose proof (partition_bound (req_va (br_req x))).
  destruct (local_page (15 * partition_of (req_va (br_req x)) + Z.of_nat j / 64) (Z.of_nat j mod 64)) as [-> ->]; [lia|lia|done].
Qed.

Lemma bank_in_part own b m r :
  lane_ok own b (lanes m b) -> at_bank b m = Some r ->
  let p := partition_of (req_va r) in
  exists page node, 15 * p <= page < 15 * p + 15 /\ 0 <= node < 64 /\ page / 60 = b /\ bank_slot b m = (page mod 60, node).
Proof.
  intros Hl Hr. destruct (at_bank_slot own b m r Hl Hr) as (j & Hj & _ & Hb & ->). cbv zeta.
  exists (15 * partition_of (req_va r) + Z.of_nat j / 64), (Z.of_nat j mod 64).
  split; [lia|]. split; [lia|]. split; [by symmetry|done].
Qed.

(** As long as the walkers do not meet, requests that use one slot, at any times, are for
one node. *)
Lemma slot_one_node reqs n n' b r r' :
  (forall k, (k < n)%nat -> same_alloc_collision (mmu_at reqs k) = false) -> (n' <= n)%nat ->
  at_bank b (mmu_at reqs n) = Some r -> at_bank b (mmu_at reqs n') = Some r' ->
  bank_slot b (mmu_at reqs n) = bank_slot b (mmu_at reqs n') -> pt_key (req_va r) = pt_key (req_va r').
Proof.
  intros Hc Hle Hr Hr' Hs.
  destruct (at_bank_slot _ b _ r (ow_lanes _ _ (owned_at reqs n Hc) b) Hr) as (j & Hj & Ho & Hb & Hbs).
  destruct (at_bank_slot _ b _ r' (ow_lanes _ _ (owned_at reqs n' ltac:(intros; apply Hc; lia)) b) Hr') as (j' & Hj' & Ho' & Hb' & Hbs').
  cbv zeta in *. rewrite Hbs, Hbs' in Hs. injection Hs as Hp Hn. rewrite Hb in Hb'.
  apply (owner_more _ (owners_at reqs n)) in Ho'; [|intros p; by apply owners_grow]. unfold owner in *.
  pose proof (partition_bound (req_va r)). pose proof (partition_bound (req_va r')). rewrite <- partition_key in *.
  assert (j = j' /\ partition_of (req_va r) = partition_of (req_va r')) as [-> He] by lia. rewrite He in *. congruence.
Qed.

(** Every client asks for its first bid. *)
Definition all_ask : Z -> option VReq := fun i => Some (mkVReq (make_va MAX_HEAP i 64) true i).

(** ** Two slots wanted at once

Two clients that ask for two nodes of the same engine and side in the same cycle: both
walkers come to the allocator together, the second one is told that its request is
rejected, and in the next cycle both requests are given to the same bank at the same
address. *)
Definition both_ask : Z -> option VReq := fun i =>
  if i =? 0 then Some (mkVReq (make_va MAX_HEAP 0 64) true 1)
  else if i =? 1 then Some (mkVReq (make_va MAX_HEAP 0 65) true 2) else None.

Example collision_shares_slot :
  let m1 := mmu_next both_ask mmu_reset in
  let m3 := mmu_next (fun _ => None) (mmu_next (fun _ => None) m1) in
  let m4 := mmu_next (fun _ => None) m3 in
  same_alloc_collision m3 = true /\ resp_reject m3 0 = true /\
  ptw0_accept m4 = true /\ ptw1_accept m4 = true /\
  ptw_pa (walked0 m4) = ptw_pa (walked1 m4) /\ ptw_bank_id (walked0 m4) = ptw_bank_id (walked1 m4) /\
  req_va (ptw_req (walked0 m4)) <> req_va (ptw_req (walked1 m4)).
Proof. vm_compute. repeat split. discriminate. Qed.
