(* ===== verification/HwFlow.v ===== *)
(** * HwFlow: the MMU loses no request

Whatever the eight clients ask for, together and as often as they like: a request that
the MMU has taken is in exactly one place on its way, until it is answered or rejected
([mmu_conserves]); only one whose walker wants a slot of a partition in the same cycle as
the other one is told that it is rejected and stays on its way.  No queue is ever written when it is full, and a request that finds
no room in the lane of its bank goes back to its queue. *)
From S2P Require Import Prelude HwHeap HwTiers HwAccess HwRing HwWalk HwBank HwMmu HwSlots HwGuard.

#[local] Arguments lookup_valid_bit : simpl never.
#[local] Arguments computed_pa : simpl never.
#[local] Arguments computed_bank_id : simpl never.

(** ** Where requests are, by their addresses *)

Definition in_walker (w : Walker) (pipe : VReq) : list Z := if wk_busy w then [req_va pipe] else [].
Definition in_buffer (l : Lane) : list Z := if resp_buf_valid l then [resp_buf_va l] else [].
Definition lane_vas (l : Lane) : list Z :=
  map (fun x => req_va (br_req x)) (ring_list 4 (queue l)) ++ ring_list 8 (va_fifo l) ++ in_buffer l.

Definition each_lane (f : Z -> list Z) : list Z := f 0 ++ f 1 ++ f 2 ++ f 3.

Definition under_way (m : Mmu) : list Z :=
  map req_va (ring_list 8 (in_fifo0 m)) ++ in_walker (ptw0 m) (ptw0_pipe m) ++
  map req_va (ring_list 8 (in_fifo1 m)) ++ in_walker (ptw1 m) (ptw1_pipe m) ++
  each_lane (fun b => lane_vas (lanes m b)).

(** What is taken, answered and rejected in a cycle. *)
Definition accepted (reqs : Z -> option VReq) (m : Mmu) : list Z :=
  (if accept_first reqs m then [req_va (entry_of reqs (fst (winners reqs (rr_pointer m))))] else []) ++
  (if accept_second reqs m then [req_va (entry_of reqs (snd (winners reqs (rr_pointer m))))] else []).
Definition answered (m : Mmu) : list Z := each_lane (fun b => in_buffer (lanes m b)).
Definition faulted (w : Walker) (pipe : VReq) : list Z := if fault_reg w then [req_va pipe] else [].
Definition failed (m : Mmu) : list Z := faulted (ptw0 m) (ptw0_pipe m) ++ faulted (ptw1 m) (ptw1_pipe m).

(** The second walker is told that its request is rejected, when both walkers want a slot of
one partition. *)
Definition collided (m : Mmu) : list Z := if same_alloc_collision m then [req_va (ptw1_pipe m)] else [].

(** The requests that [resp_reject] is raised for. *)
Definition rejected (m : Mmu) : list Z := failed m ++ collided m.

(** The client of an address. *)
Definition client (va : Z) : Z := field va 29 3.

(** ** The lanes *)

(** The addresses under way in a bank: one when it works, or shows that it is done. *)
Definition bank_flow (vs : list Z) (l : Lane) (b : Bank) : Prop :=
  match bank_state b with
  | B_IDLE =>
      if mem_rdata_valid b || mem_wdone b then (exists v, vs = [v]) /\ resp_buf_valid l = false else vs = []
  | st => (exists v, vs = [v]) /\ mem_rdata_valid b = false /\ mem_wdone b = false /\
      (st = DONE_READ -> latched_is_write b = false)
  end.

Record lane_flow (qs : list BankReq) (vs : list Z) (l : Lane) (b : Bank) : Prop := {
  lf_queue : ring_rep 4 (queue l) qs;
  lf_vas : ring_rep 8 (va_fifo l) vs;
  lf_bank : bank_flow vs l b
}.

Lemma lane_vas_spec qs vs l b :
  lane_flow qs vs l b -> lane_vas l = map (fun x => req_va (br_req x)) qs ++ vs ++ in_buffer l.
Proof. intros [Hq Hv _]. unfold lane_vas. by rewrite (ring_list_rep _ _ _ Hq), (ring_list_rep _ _ _ Hv). Qed.

(** A bank is given something exactly when its lane gives its first request. *)
Lemma port_dispatch l b : mem_re (lane_port l b) || mem_we (lane_port l b) = dispatch l b.
Proof. cbn. by destruct (dispatch l b), (req_wr (br_req (rd_data (queue l)))). Qed.

Lemma bank_state_next i l b :
  bank_state (bank_clock i (lane_port l b) b) =
    match bank_state b with
    | B_IDLE => if dispatch l b then PHASE_0 else B_IDLE
    | PHASE_0 => PHASE_1 | PHASE_1 => PHASE_2
    | PHASE_2 => if latched_is_write b then B_IDLE else DONE_READ | DONE_READ => B_IDLE
    end.
Proof. cbn -[lane_port]. unfold bn_state. by rewrite port_dispatch. Qed.

Lemma dispatch_idle l b : dispatch l b = true -> bank_state b = B_IDLE /\ resp_buf_valid l = false.
Proof.
  unfold dispatch, mem_busy. intros [[[_ Hb]%andb_true_iff Hv]%andb_true_iff _]%andb_true_iff.
  rewrite negb_involutive in Hb. split; [by apply bool_decide_eq_true in Hb|by apply negb_true_iff].
Qed.

Lemma dispatch_busy l b : bank_state b <> B_IDLE -> dispatch l b = false.
Proof. intros Hs. destruct (dispatch l b) eqn:Hd; [|done]. by apply dispatch_idle in Hd as [? _]. Qed.

(** The bank and the addresses under way. *)
Lemma bank_next vs l b i (e0 e1 : BankReq) wr0 wr1 :
  ring_rep 8 (va_fifo l) vs -> bank_flow vs l b ->
  let l' := lane_clock wr0 e0 wr1 e1 b l in
  let given := if dispatch l b then [req_va (br_req (rd_data (queue l)))] else [] in
  exists vs', ring_rep 8 (va_fifo l') vs' /\ bank_flow vs' l' (bank_clock i (lane_port l b) b) /\
    vs' ++ in_buffer l' ≡ₚ given ++ vs.
Proof.
  intros Hr Hb l' given. pose proof (ring_clock_rep 8 _ _ (dispatch l b) (req_va (br_req (rd_data (queue l)))) (va_pop l b) Hr) as Hr'.
  eexists. split; [exact Hr'|]. unfold bank_flow. rewrite bank_state_next.
  unfold in_buffer, l'. cbn [lane_clock resp_buf_valid resp_buf_va]. unfold bank_flow in Hb.
  destruct (bank_state b) eqn:Hs.
  1: destruct (mem_rdata_valid b || mem_wdone b) eqn:Hout.
  3-6: destruct Hb as ([v ->] & H1 & H2 & Hw); assert (Hpop : va_pop l b = false) by (unfold va_pop; by rewrite H1, H2);
    unfold given; rewrite Hpop, dispatch_busy by (by rewrite Hs); cbn; rewrite Hs; (split; [|done]).
  - destruct Hb as [[v ->] Hv]. destruct (ring_read_rep _ _ _ _ Hr) as [Hrd _].
    assert (Hpop : va_pop l b = true) by (unfold va_pop; by rewrite Hout, Hv). rewrite Hpop, Hrd. cbn [tail length].
    unfold given. destruct (dispatch l b); cbn; rewrite Hs; (split; [|done]); [|done]. split; [by eexists|done].
  - subst vs. assert (Hpop : va_pop l b = false) by (unfold va_pop; by rewrite Hout). rewrite Hpop. cbn [tail length].
    unfold given. destruct (dispatch l b); cbn; rewrite Hs; (split; [|done]); [|done]. split; [by eexists|done].
  - split; [by eexists|done].
  - split; [by eexists|done].
  - destruct (latched_is_write b) eqn:Hlw; cbn; (split; [by eexists|done]).
  - rewrite Hw by done. split; [by eexists|done].
Qed.

(** *** What the arbiter lets in finds room *)

Lemma lane_full_spec l qs : ring_rep 4 (queue l) qs -> lane_full l = (Z.of_nat (length qs) =? 4).
Proof. intros Hq. unfold lane_full. by rewrite (ring_size _ _ _ Hq). Qed.

Lemma lane_almost_spec l qs : ring_rep 4 (queue l) qs -> lane_almost_full l = (Z.of_nat (length qs) =? 3).
Proof. intros Hq. unfold lane_almost_full. by rewrite (ring_size _ _ _ Hq). Qed.

Lemma enqueue_room L rr w0 w1 b qs :
  ring_rep 4 (queue (L b)) qs ->
  let a0 := ptw0_can_enqueue L rr w0 w1 && (ptw_bank_id w0 =? b) in
  let a1 := ptw1_can_enqueue L rr w0 w1 && (ptw_bank_id w1 =? b) in
  a0 && (Z.of_nat (length qs) <? 4) = a0 /\ a1 && (Z.of_nat (length qs) + (if a0 then 1 else 0) <? 4) = a1.
Proof.
  intros Hq a0 a1. pose proof (ring_room _ _ _ Hq) as Hroom.
  assert (H0 : a0 = true -> ptw_bank_id w0 = b /\ ptw_valid w0 = true /\ Z.of_nat (length qs) < 4 /\
    (same_bank_collision w0 w1 = true -> Z.of_nat (length qs) = 3 -> rr = false)).
  { intros [Ha Hb]%andb_true_iff. apply Z.eqb_eq in Hb. pose proof (ptw0_accept_valid _ _ _ _ Ha) as Hv.
    unfold ptw0_can_enqueue in Ha. rewrite Hb, (lane_full_spec _ _ Hq), (lane_almost_spec _ _ Hq), Hv in Ha.
    do 2 (split; [done|]). destruct (same_bank_collision w0 w1); [|split; [lia|done]].
    destruct (Z.eqb_spec (Z.of_nat (length qs)) 4), (Z.eqb_spec (Z.of_nat (length qs)) 3); try done;
      (split; [lia|intros _ ?; try lia]). by destruct rr. }
  assert (H1 : a1 = true -> ptw_bank_id w1 = b /\ ptw_valid w1 = true /\ Z.of_nat (length qs) < 4 /\
    (same_bank_collision w0 w1 = true -> ptw_bank_id w0 = b -> Z.of_nat (length qs) = 3 -> rr = true)).
  { intros [Ha Hb]%andb_true_iff. apply Z.eqb_eq in Hb. pose proof (ptw1_accept_valid _ _ _ _ Ha) as Hv.
    unfold ptw1_can_enqueue in Ha. do 2 (split; [done|]). destruct (same_bank_collision w0 w1) eqn:Hc.
    - assert (Hs : ptw_bank_id w0 = b) by (unfold same_bank_collision in Hc; rewrite <- Hb; lia).
      rewrite Hs, (lane_full_spec _ _ Hq), (lane_almost_spec _ _ Hq) in Ha.
      destruct (Z.eqb_spec (Z.of_nat (length qs)) 4), (Z.eqb_spec (Z.of_nat (length qs)) 3); try done; (split; [lia|intros; done || lia]).
    - rewrite Hb, (lane_full_spec _ _ Hq), Hv in Ha. split; [lia|done]. }
  split.
  - destruct a0; [|done]. destruct (H0 eq_refl) as (_ & _ & ? & _). cbn. lia.
  - destruct a1; [|done]. destruct (H1 eq_refl) as (Hb1 & Hv1 & ? & Hr1). cbn. destruct a0; [|lia].
    destruct (H0 eq_refl) as (Hb0 & Hv0 & _ & Hr0).
    assert (Hc : same_bank_collision w0 w1 = true) by (unfold same_bank_collision; rewrite Hv0, Hv1; lia).
    destruct (decide (Z.of_nat (length qs) = 3)) as [H3|]; [|lia]. specialize (Hr0 Hc H3). specialize (Hr1 Hc Hb0 H3). congruence.
Qed.

(** ** A lane and its bank *)

Definition br_va (x : BankReq) : Z := req_va (br_req x).

Lemma lane_next qs vs l b i wr0 e0 wr1 e1 :
  lane_flow qs vs l b ->
  wr0 && (Z.of_nat (length qs) <? 4) = wr0 -> wr1 && (Z.of_nat (length qs) + (if wr0 then 1 else 0) <? 4) = wr1 ->
  exists qs' vs', lane_flow qs' vs' (lane_clock wr0 e0 wr1 e1 b l) (bank_clock i (lane_port l b) b) /\
    lane_vas (lane_clock wr0 e0 wr1 e1 b l) ++ in_buffer l ≡ₚ
      lane_vas l ++ (if wr0 then [br_va e0] else []) ++ (if wr1 then [br_va e1] else []).
Proof.
  intros Hl Hw0 Hw1. pose proof Hl as [Hq Hv Hb].
  pose proof (dual_clock_rep _ _ wr0 e0 wr1 e1 (dispatch l b) Hq) as Hq'. cbv zeta in Hq'. rewrite Hw0, Hw1 in Hq'.
  destruct (bank_next vs l b i e0 e1 wr0 wr1 Hv Hb) as (vs' & Hv' & Hb' & Hp).
  eexists _, vs'. assert (Hl' : lane_flow _ vs' (lane_clock wr0 e0 wr1 e1 b l) (bank_clock i (lane_port l b) b))
    by (split; [exact Hq'|exact Hv'|exact Hb']).
  split; [exact Hl'|]. rewrite (lane_vas_spec _ _ _ _ Hl'), (lane_vas_spec _ _ _ _ Hl). fold br_va. rewrite !map_app, Hp.
  assert (Hnew : forall (w : bool) e, map br_va (if w then [e] else []) = if w then [br_va e] else []) by (by intros []).
  rewrite !Hnew. set (n0 := if wr0 then [br_va e0] else []). set (n1 := if wr1 then [br_va e1] else []).
  assert (Hd : map br_va (if dispatch l b then tail qs else qs) ++
      (if dispatch l b then [br_va (rd_data (queue l))] else []) ≡ₚ map br_va qs).
  { destruct (dispatch l b) eqn:Hd; [|by rewrite app_nil_r]. unfold dispatch in Hd. rewrite (ring_empty_rep _ _ _ Hq) in Hd.
    destruct qs as [|x qs]; [done|]. destruct (ring_read_rep _ _ _ _ Hq) as [-> _]. cbn. solve_Permutation. }
  rewrite <- Hd. fold (br_va (rd_data (queue l))). solve_Permutation.
Qed.

(** ** A queue of requests and its walker *)

Definition wr_list (w : option VReq) : list Z := from_option (fun r => [req_va r]) [] w.

(** What leaves a walker in a cycle. *)
Definition leaves (w : Walker) (pipe : VReq) : list Z :=
  match wk_state w with W_DONE | W_FAULT => [req_va pipe] | _ => [] end.

Record queue_flow (l : list VReq) (q : Ring VReq) (w : Walker) : Prop := {
  qf_queue : ring_rep 8 q l;
  qf_room : (length l + (if wk_busy w then 1 else 0) <= 8)%nat;
  qf_valid : pa_valid_reg w = bool_decide (wk_state w = W_DONE);
  qf_fault : fault_reg w = bool_decide (wk_state w = W_FAULT);
  qf_bank : 0 <= bank_id_reg w < 4
}.

Lemma computed_bank_bound p : 0 <= computed_bank_id p < 4.
Proof. unfold computed_bank_id. repeat case_match; lia. Qed.

(** Does the walker take the first request? *)
Definition takes (q : Ring VReq) (w : Walker) : bool := negb (ring_empty q) && negb (wk_busy w).

Lemma busy_bound w : ((if wk_busy w then 1 else 0) <= 1)%nat.
Proof. destruct (wk_busy w); lia. Qed.

(** A walker that takes no request. *)
Lemma busy_next w i :
  va_valid i = false ->
  ((if wk_busy (walker_clock i w) then 1 else 0) <= (if wk_busy w then 1 else 0))%nat /\
  (wk_state w = W_DONE -> wk_busy (walker_clock i w) = false).
Proof.
  intros Hi. unfold wk_busy. cbn [walker_clock wk_state]. unfold wn_state. rewrite Hi.
  destruct (wk_state w); (split; [|done]); [done|..];
    match goal with |- (_ <= ?n)%nat => change n with 1%nat end; destruct (negb (bool_decide _)); lia.
Qed.

Lemma fifo_walker_next l q w pipe i wr :
  queue_flow l q w -> va_valid i = takes q w ->
  (is_Some wr -> (length l <= 6)%nat \/ wk_state w = W_DONE) ->
  let pipe' := if takes q w then rd_data q else pipe in
  exists l', queue_flow l' (in_fifo_clock wr (takes q w) q) (walker_clock i w) /\
    map req_va l' ++ in_walker (walker_clock i w) pipe' ++ leaves w pipe ≡ₚ
      map req_va l ++ in_walker w pipe ++ wr_list wr.
Proof.
  intros [Hq Hroom Hvalid Hfault Hbank] Hi Hwr pipe'.
  assert (Hlen : is_Some wr -> (length l < 8)%nat).
  { intros Hs. destruct (Hwr Hs) as [?|Hd]; [lia|]. unfold wk_busy in Hroom. rewrite Hd in Hroom. simpl in Hroom. lia. }
  assert (Hnew : (if bool_decide (is_Some wr) && (Z.of_nat (length l) <? 8) then [default no_req wr] else []) = from_option (fun r => [r]) [] wr).
  { destruct wr as [r|]; [|done]. cbn. rewrite (proj2 (Z.ltb_lt _ _)); [done|]. specialize (Hlen ltac:(by eexists)). lia. }
  pose proof (ring_clock_rep 8 q l (bool_decide (is_Some wr)) (default no_req wr) (takes q w) Hq) as Hq'. rewrite Hnew in Hq'.
  assert (Hmap : map req_va (from_option (fun r => [r]) [] wr) = wr_list wr) by (by destruct wr).
  assert (Htail : takes q w = true -> wk_state w = W_IDLE /\ exists x l0, l = x :: l0 /\ rd_data q = x).
  { intros Ht. split; [by apply (valid_idle q)|]. unfold takes in Ht. rewrite (ring_empty_rep _ _ _ Hq) in Ht.
    destruct l as [|x l0]; [done|]. exists x, l0. split; [done|]. by apply (ring_read_rep _ _ _ _ Hq). }
  eexists. split.
  - split; [exact Hq'|..]; [|done|done|].
    + rewrite length_app. assert (Hn : (length (from_option (fun r => [r]) [] wr) <= 1)%nat) by (destruct wr; simpl; lia).
      pose proof (busy_bound (walker_clock i w)) as Hb1. destruct (takes q w) eqn:Ht.
      * destruct (Htail eq_refl) as (Hs & x & l0 & -> & _). simpl in Hroom |- *.
        destruct wr; [|simpl; lia]. destruct (Hwr ltac:(by eexists)) as [?|?]; [simpl in *; lia|congruence].
      * destruct (busy_next w i Hi) as [Hb2 Hb3]. destruct wr as [r|]; [|simpl; lia].
        destruct (Hwr ltac:(by eexists)) as [?|Hd]; [simpl; lia|]. rewrite (Hb3 Hd). specialize (Hlen ltac:(by eexists)). simpl. lia.
    + cbn [walker_clock bank_id_reg]. destruct (bool_decide (wn_state i w = W_DONE)); [apply computed_bank_bound|done].
  - rewrite map_app, Hmap. unfold in_walker, leaves, wk_busy, pipe'. cbn [walker_clock wk_state]. unfold wn_state. rewrite Hi.
    destruct (takes q w) eqn:Ht.
    + destruct (Htail eq_refl) as (Hs & x & l0 & -> & ->). rewrite Hs. cbn. solve_Permutation.
    + destruct (wk_state w) eqn:Hs; cbn; [|destruct (lookup_valid_bit (pt_rdata i))|destruct (alloc_avail i)| |]; cbn; solve_Permutation.
Qed.

(** ** What is written to the queues *)

Definition requeued (b : bool) (pipe : VReq) : list Z := if b then [req_va pipe] else [].

Lemma accept_first_room reqs m :
  accept_first reqs m = true ->
  if first_to_fifo1 m then rcount (in_fifo1 m) < 7 /\ requeue_to_1 m = false
  else rcount (in_fifo0 m) < 7 /\ requeue_to_0 m = false.
Proof.
  unfold accept_first, fifo_in_full. intros [_ Hs]%andb_true_iff.
  destruct (first_to_fifo1 m); apply andb_true_iff in Hs as [Hs ?%negb_true_iff]; split; done || lia.
Qed.

Lemma accept_second_room reqs m :
  accept_second reqs m = true ->
  accept_first reqs m = true /\
  if first_to_fifo1 m then rcount (in_fifo0 m) < 7 /\ requeue_to_0 m = false
  else rcount (in_fifo1 m) < 7 /\ requeue_to_1 m = false.
Proof.
  unfold accept_second, fifo_in_full. intros [[_ Hs]%andb_true_iff Hf]%andb_true_iff. split; [done|].
  destruct (first_to_fifo1 m); apply andb_true_iff in Hs as [Hs ?%negb_true_iff]; split; done || lia.
Qed.

(** Each write has its place; nothing is written over. *)
Lemma written reqs m :
  wr_list (fifo_in_wr0 reqs m) ++ wr_list (fifo_in_wr1 reqs m) ≡ₚ
  requeued (requeue_to_0 m) (ptw0_pipe m) ++ requeued (requeue_to_1 m) (ptw1_pipe m) ++ accepted reqs m.
Proof.
  pose proof (accept_first_room reqs m) as H1. pose proof (accept_second_room reqs m) as H2.
  unfold fifo_in_wr0, fifo_in_wr1, accepted, requeued.
  destruct (accept_second reqs m); [destruct (H2 eq_refl) as [Ha H2']; rewrite Ha in *|destruct (accept_first reqs m)];
    destruct (first_to_fifo1 m); try (destruct (H1 eq_refl) as [_ Hq1]; rewrite Hq1); try (destruct H2' as [_ Hq2]; rewrite Hq2);
    try destruct (requeue_to_0 m); try destruct (requeue_to_1 m); cbn; solve_Permutation.
Qed.

Lemma written_room0 reqs m :
  is_Some (fifo_in_wr0 reqs m) -> rcount (in_fifo0 m) < 7 \/ requeue_to_0 m = true.
Proof.
  pose proof (accept_first_room reqs m) as H1. pose proof (accept_second_room reqs m) as H2. unfold fifo_in_wr0.
  destruct (requeue_to_0 m); [by right|]. destruct (accept_second reqs m), (first_to_fifo1 m) eqn:Hf; cbn; rewrite ?andb_false_r, ?andb_true_r; cbn;
    rewrite ?andb_false_r, ?andb_true_r; cbn; try (by intros [? ?]); try (left; by apply H2).
  all: destruct (accept_first reqs m); cbn; [left; by apply H1|by intros [? ?]].
Qed.

Lemma written_room1 reqs m :
  is_Some (fifo_in_wr1 reqs m) -> rcount (in_fifo1 m) < 7 \/ requeue_to_1 m = true.
Proof.
  pose proof (accept_first_room reqs m) as H1. pose proof (accept_second_room reqs m) as H2. unfold fifo_in_wr1.
  destruct (requeue_to_1 m); [by right|]. destruct (accept_second reqs m), (first_to_fifo1 m) eqn:Hf; cbn; rewrite ?andb_false_r, ?andb_true_r; cbn;
    rewrite ?andb_false_r, ?andb_true_r; cbn; try (by intros [? ?]); try (left; by apply H2).
  all: destruct (accept_first reqs m); cbn; [left; by apply H1|by intros [? ?]].
Qed.

(** ** The invariant *)

Record flowing (m : Mmu) : Prop := {
  fl_queue0 : exists l, queue_flow l (in_fifo0 m) (ptw0 m);
  fl_queue1 : exists l, queue_flow l (in_fifo1 m) (ptw1 m);
  fl_lanes b : exists qs vs, lane_flow qs vs (lanes m b) (banks m b)
}.

Lemma flowing_reset : flowing mmu_reset.
Proof.
  assert (Hq : exists l, queue_flow l (ring_reset (fun _ => no_req)) walker_reset).
  { exists []. split; [by apply ring_reset_rep|vm_compute; lia|done|done|done]. }
  split; [exact Hq|exact Hq|].
  - intros b. exists [], []. split; cbn; try done; by apply ring_reset_rep.
Qed.

(** What a walker that is done gives to its lane. *)
Definition given (accept : bool) (pipe : VReq) : list Z := if accept then [req_va pipe] else [].

Lemma leaves_done l q w pipe valid accept :
  queue_flow l q w -> (wk_state w = W_DONE -> valid = true) -> (valid = true -> wk_state w = W_DONE) -> (accept = true -> valid = true) ->
  leaves w pipe ≡ₚ requeued (valid && negb accept) pipe ++ given accept pipe ++ faulted w pipe.
Proof.
  intros Hq Hv Hv' Ha. unfold leaves, requeued, given, faulted. rewrite (qf_fault _ _ _ Hq).
  destruct valid.
  - rewrite (Hv' eq_refl). by destruct accept.
  - destruct accept; [by specialize (Ha eq_refl)|]. destruct (wk_state w) eqn:Hs; [done..| |done]. by specialize (Hv eq_refl).
Qed.

(** *** The walkers *)

Lemma collision_allocates m : wk_state (ptw1 m) = W_DONE -> same_alloc_collision m = false.
Proof.
  intros Hs. unfold same_alloc_collision. assert (Ha : ptw1_alloc m = false) by (unfold ptw1_alloc, alloc; by rewrite Hs).
  by rewrite Ha, andb_false_r.
Qed.

Lemma walker0_flow reqs m :
  flowing m ->
  exists l', queue_flow l' (in_fifo0 (mmu_next reqs m)) (ptw0 (mmu_next reqs m)) /\
    map req_va (ring_list 8 (in_fifo0 (mmu_next reqs m))) ++ in_walker (ptw0 (mmu_next reqs m)) (ptw0_pipe (mmu_next reqs m)) ++
      requeued (requeue_to_0 m) (ptw0_pipe m) ++ given (ptw0_accept m) (ptw0_pipe m) ++ faulted (ptw0 m) (ptw0_pipe m) ≡ₚ
    map req_va (ring_list 8 (in_fifo0 m)) ++ in_walker (ptw0 m) (ptw0_pipe m) ++ wr_list (fifo_in_wr0 reqs m).
Proof.
  intros [[l Hq] _ _]. pose proof (qf_queue _ _ _ Hq) as Hr. pose proof (qf_valid _ _ _ Hq) as Hv.
  destruct (fifo_walker_next l (in_fifo0 m) (ptw0 m) (ptw0_pipe m) (ptw0_ins m) (fifo_in_wr0 reqs m) Hq eq_refl) as (l' & Hq' & Hp).
  { intros Hs. destruct (written_room0 reqs m Hs) as [Hlt|Hd]; [left; rewrite (ring_size _ _ _ Hr) in Hlt; lia|right].
    unfold requeue_to_0 in Hd. apply andb_true_iff in Hd as [Hd _]. cbn in Hd. rewrite Hv in Hd. by apply bool_decide_eq_true in Hd. }
  exists l'. split; [exact Hq'|]. rewrite (ring_list_rep _ _ _ Hr), (ring_list_rep _ _ _ (qf_queue _ _ _ Hq' : ring_rep 8 (in_fifo0 (mmu_next reqs m)) l')).
  etrans; [|exact Hp]. apply Permutation_app; [done|]. apply Permutation_app; [done|].
  unfold requeue_to_0. rewrite <- (leaves_done l (in_fifo0 m) (ptw0 m) (ptw0_pipe m) (ptw_valid (walked0 m)) (ptw0_accept m) Hq); [done|..].
  - cbn. rewrite Hv. apply bool_decide_eq_true.
  - cbn. rewrite Hv. apply bool_decide_eq_true.
  - apply ptw0_accept_valid.
Qed.

Lemma walker1_flow reqs m :
  flowing m ->
  exists l', queue_flow l' (in_fifo1 (mmu_next reqs m)) (ptw1 (mmu_next reqs m)) /\
    map req_va (ring_list 8 (in_fifo1 (mmu_next reqs m))) ++ in_walker (ptw1 (mmu_next reqs m)) (ptw1_pipe (mmu_next reqs m)) ++
      requeued (requeue_to_1 m) (ptw1_pipe m) ++ given (ptw1_accept m) (ptw1_pipe m) ++ faulted (ptw1 m) (ptw1_pipe m) ≡ₚ
    map req_va (ring_list 8 (in_fifo1 m)) ++ in_walker (ptw1 m) (ptw1_pipe m) ++ wr_list (fifo_in_wr1 reqs m).
Proof.
  intros [_ [l Hq] _]. pose proof (qf_queue _ _ _ Hq) as Hr. pose proof (qf_valid _ _ _ Hq) as Hv.
  assert (Hv' : ptw_valid (walked1 m) = true -> wk_state (ptw1 m) = W_DONE).
  { cbn. intros [Hd _]%andb_true_iff. rewrite Hv in Hd. by apply bool_decide_eq_true in Hd. }
  destruct (fifo_walker_next l (in_fifo1 m) (ptw1 m) (ptw1_pipe m) (ptw1_ins m) (fifo_in_wr1 reqs m) Hq eq_refl) as (l' & Hq' & Hp).
  { intros Hs. destruct (written_room1 reqs m Hs) as [Hlt|Hd]; [left; rewrite (ring_size _ _ _ Hr) in Hlt; lia|right].
    unfold requeue_to_1 in Hd. apply andb_true_iff in Hd as [Hd _]. by apply Hv'. }
  exists l'. split; [exact Hq'|]. rewrite (ring_list_rep _ _ _ Hr), (ring_list_rep _ _ _ (qf_queue _ _ _ Hq' : ring_rep 8 (in_fifo1 (mmu_next reqs m)) l')).
  etrans; [|exact Hp]. apply Permutation_app; [done|]. apply Permutation_app; [done|].
  unfold requeue_to_1. rewrite <- (leaves_done l (in_fifo1 m) (ptw1 m) (ptw1_pipe m) (ptw_valid (walked1 m)) (ptw1_accept m) Hq); [done|..].
  - intros Hs. cbn. rewrite Hv, Hs, (collision_allocates m Hs). done.
  - exact Hv'.
  - apply ptw1_accept_valid.
Qed.

(** *** The lanes *)

Lemma lanes_flow reqs m b :
  flowing m ->
  let a0 := ptw0_accept m && (bank_id_reg (ptw0 m) =? b) in
  let a1 := ptw1_accept m && (bank_id_reg (ptw1 m) =? b) in
  exists qs vs, lane_flow qs vs (lanes (mmu_next reqs m) b) (banks (mmu_next reqs m) b) /\
    lane_vas (lanes (mmu_next reqs m) b) ++ in_buffer (lanes m b) ≡ₚ
      lane_vas (lanes m b) ++ given a0 (ptw0_pipe m) ++ given a1 (ptw1_pipe m).
Proof.
  intros [_ _ Hl] a0 a1. destruct (Hl b) as (qs & vs & Hlf). cbn [mmu_next lanes banks]. unfold lanes_next, banks_next. rewrite !four_eq.
  destruct (enqueue_room (lanes m) (rr_priority m) (walked0 m) (walked1 m) b qs (lf_queue _ _ _ _ Hlf)) as [H0 H1].
  exact (lane_next qs vs _ _ b a0 (walked_entry (walked0 m)) a1 (walked_entry (walked1 m)) Hlf H0 H1).
Qed.

Lemma each_lane_given f accept bank pipe :
  0 <= bank < 4 ->
  (forall b, f b = given (accept && (bank =? b)) pipe) -> each_lane f ≡ₚ given accept pipe.
Proof.
  intros Hb Hf. unfold each_lane. rewrite !Hf. destruct accept; [|done]. cbn [andb].
  assert (Hc : bank = 0 \/ bank = 1 \/ bank = 2 \/ bank = 3) by lia. destruct Hc as [->|[->|[->| ->]]]; done.
Qed.

Lemma each_lane_app f g : each_lane (fun b => f b ++ g b) ≡ₚ each_lane f ++ each_lane g.
Proof. unfold each_lane. solve_Permutation. Qed.

Lemma each_lane_perm f g : (forall b, f b ≡ₚ g b) -> each_lane f ≡ₚ each_lane g.
Proof. intros Hf. unfold each_lane. by rewrite !Hf. Qed.

Lemma all_lanes_flow reqs m :
  flowing m ->
  each_lane (fun b => lane_vas (lanes (mmu_next reqs m) b)) ++ each_lane (fun b => in_buffer (lanes m b)) ≡ₚ
  each_lane (fun b => lane_vas (lanes m b)) ++ given (ptw0_accept m) (ptw0_pipe m) ++ given (ptw1_accept m) (ptw1_pipe m).
Proof.
  intros Hm. pose proof Hm as [[l0 Hq0] [l1 Hq1] _]. rewrite <- each_lane_app.
  set (f0 := fun b => given (ptw0_accept m && (bank_id_reg (ptw0 m) =? b)) (ptw0_pipe m)).
  set (f1 := fun b => given (ptw1_accept m && (bank_id_reg (ptw1 m) =? b)) (ptw1_pipe m)).
  rewrite (each_lane_perm _ (fun b => lane_vas (lanes m b) ++ (f0 b ++ f1 b))).
  - rewrite !each_lane_app. rewrite (each_lane_given f0 _ _ _ (qf_bank _ _ _ Hq0) (fun _ => eq_refl)).
    by rewrite (each_lane_given f1 _ _ _ (qf_bank _ _ _ Hq1) (fun _ => eq_refl)).
  - intros b. by destruct (lanes_flow reqs m b Hm) as (_ & _ & _ & Hp).
Qed.

Lemma flowing_next reqs m : flowing m -> flowing (mmu_next reqs m).
Proof.
  intros Hm. split.
  - destruct (walker0_flow reqs m Hm) as (l & Hq & _). by exists l.
  - destruct (walker1_flow reqs m Hm) as (l & Hq & _). by exists l.
  - intros b. destruct (lanes_flow reqs m b Hm) as (qs & vs & Hl & _). by exists qs, vs.
Qed.

Lemma reach_flowing m : mmu_reach m -> flowing m.
Proof. induction 1; [apply flowing_reset|by apply flowing_next]. Qed.

(** Nothing is lost in a clock edge. *)
Lemma flow_conserves reqs m :
  flowing m -> under_way (mmu_next reqs m) ++ answered m ++ failed m ≡ₚ under_way m ++ accepted reqs m.
Proof.
  intros Hm. pose proof (all_lanes_flow reqs m Hm) as Hl. fold (answered m) in Hl.
  destruct (walker0_flow reqs m Hm) as (_ & _ & H0). destruct (walker1_flow reqs m Hm) as (_ & _ & H1).
  pose proof (written reqs m) as Hw. unfold under_way, failed.
  set (g0 := given (ptw0_accept m) (ptw0_pipe m)) in *. set (g1 := given (ptw1_accept m) (ptw1_pipe m)) in *.
  set (r0 := requeued (requeue_to_0 m) (ptw0_pipe m)) in *. set (r1 := requeued (requeue_to_1 m) (ptw1_pipe m)) in *.
  apply (Permutation_app_inv_r (r0 ++ r1 ++ g0 ++ g1)).
  pose proof (Permutation_app H0 (Permutation_app H1 Hl)) as Hsum.
  etrans; [|etrans; [exact Hsum|]]; [solve_Permutation|].
  trans ((wr_list (fifo_in_wr0 reqs m) ++ wr_list (fifo_in_wr1 reqs m)) ++
    map req_va (ring_list 8 (in_fifo0 m)) ++ in_walker (ptw0 m) (ptw0_pipe m) ++
    map req_va (ring_list 8 (in_fifo1 m)) ++ in_walker (ptw1 m) (ptw1_pipe m) ++
    each_lane (fun b => lane_vas (lanes m b)) ++ g0 ++ g1); [solve_Permutation|].
  rewrite Hw. solve_Permutation.
Qed.

(** *** The wires *)

Lemma resp_valid_answered m i : resp_valid m i = existsb (fun va => client va =? i) (answered m).
Proof.
  unfold resp_valid, answered, each_lane, answers, in_buffer, client. change (seqZ 0 4) with [0;1;2;3]. cbn [existsb].
  destruct (resp_buf_valid (lanes m 0)), (resp_buf_valid (lanes m 1)), (resp_buf_valid (lanes m 2)), (resp_buf_valid (lanes m 3)); done.
Qed.

Lemma fault_collision q m : queue_flow q (in_fifo1 m) (ptw1 m) -> fault_reg (ptw1 m) = true -> same_alloc_collision m = false.
Proof.
  intros Hq Hf. rewrite (qf_fault _ _ _ Hq) in Hf. apply bool_decide_eq_true in Hf.
  unfold same_alloc_collision, ptw1_alloc, alloc. by rewrite Hf, andb_false_r.
Qed.

Lemma resp_reject_rejected m i : flowing m -> resp_reject m i = existsb (fun va => client va =? i) (rejected m).
Proof.
  intros [_ [q Hq] _]. pose proof (fault_collision q m Hq) as Hf. unfold resp_reject, rejected, failed, faulted, collided, client.
  destruct (fault_reg (ptw0 m)), (fault_reg (ptw1 m)); [rewrite Hf by done| |rewrite Hf by done|];
    destruct (same_alloc_collision m); cbn; rewrite ?orb_false_r; done.
Qed.

(** Walkers that want a slot of one partition have requests of one engine. *)
Lemma apart_no_collision m : NoDup (map client (under_way m)) -> collided m = [].
Proof.
  intros Hn. unfold collided. destruct (same_alloc_collision m) eqn:Hc; [|done]. exfalso. unfold same_alloc_collision in Hc.
  apply andb_true_iff in Hc as [[[H0 _]%alloc_spec [H1 _]%alloc_spec]%andb_true_iff Hp%Z.eqb_eq].
  assert (He : client (req_va (ptw0_pipe m)) = client (req_va (ptw1_pipe m))).
  { unfold ptw0_partition, ptw1_partition, partition_of in Hp. unfold client.
    pose proof (field_bound (req_va (ptw0_pipe m)) 10 1 ltac:(lia)). pose proof (field_bound (req_va (ptw1_pipe m)) 10 1 ltac:(lia)).
    rewrite !cat_sum in Hp by lia. lia. }
  unfold under_way, in_walker, wk_busy in Hn. rewrite H0, H1, !bool_decide_eq_false_2, !map_app in Hn by done.
  cbn [negb map] in Hn. rewrite He in Hn.
  apply NoDup_app in Hn as (_ & _ & Hn). apply NoDup_cons in Hn as [Hn _]. apply Hn. set_solver.
Qed.

(** C20: in every state that the MMU can reach, whatever the clients ask for: the requests
on their way after a clock edge, with those that were answered or rejected in the cycle,
are those that were on their way before and those that were taken, and once more the one
that was told it is rejected because both walkers wanted a slot of one partition.  So none
is lost, made twice or written over in a full queue, and every request that is taken is
answered or rejected exactly once, but for one that meets such a collision: it is told that
it is rejected and stays on its way.  There is none while no two requests of one engine are
on their way.  The wires of a client show an answer or a rejection exactly when the
request is one of its engine. *)
Theorem mmu_conserves reqs m :
  mmu_reach m ->
  under_way (mmu_next reqs m) ++ answered m ++ rejected m ≡ₚ under_way m ++ accepted reqs m ++ collided m /\
  (forall i, resp_valid m i = existsb (fun va => client va =? i) (answered m)) /\
  (forall i, resp_reject m i = existsb (fun va => client va =? i) (rejected m)) /\
  (NoDup (map client (under_way m)) -> collided m = []).
Proof.
  intros Hm. apply reach_flowing in Hm. split; [|split; [|split]].
  - unfold rejected. rewrite !app_assoc, <- (app_assoc _ (answered m)), flow_conserves by done. done.
  - apply resp_valid_answered.
  - intros i. by apply resp_reject_rejected.
  - apply apart_no_collision.
Qed.

(** All clients ask twice, and after some cycles the first one is answered. *)
Lemma mmu_conserves_witness :
  let m := Nat.iter 8 (mmu_next (fun _ => None)) (mmu_next all_ask (mmu_next all_ask mmu_reset)) in
  mmu_reach m /\ answered m <> [] /\
  under_way (mmu_next all_ask m) ++ answered m ++ rejected m ≡ₚ under_way m ++ accepted all_ask m ++ collided m.
Proof.
  intros m. assert (Hr : mmu_reach m) by (repeat apply reach_next; apply reach_reset). split; [exact Hr|].
  split; [vm_compute; done|]. exact (proj1 (mmu_conserves all_ask m Hr)).
Defined.

(** The collision of HwGuard: the request is rejected and under way. *)
Example collided_goes_on :
  let m := mmu_next (fun _ => None) (mmu_next (fun _ => None) (mmu_next both_ask mmu_reset)) in
  collided m = [make_va MAX_HEAP 0 65] /\ resp_reject m 0 = true /\
  make_va MAX_HEAP 0 65 ∈ under_way (mmu_next (fun _ => None) m).
Proof. vm_compute. repeat split. set_solver. Qed.
