(* ===== verification/HwTurn.v ===== *)
(** * HwTurn: one of eight, in turn

The searches of the hardware that start at a pointer and go round eight modules: the
first ones found are the first of a list ([asking]), and one that is not found comes closer
to its turn when the pointer moves on. *)
From S2P Require Import Prelude.

(** The modules in the order of the search, and those that ask. *)
Definition turns (rr : Z) : list Z := map (fun i => (rr + i) mod 8) (seqZ 0 8).
Definition asking (P : Z -> bool) (rr : Z) : list Z := filter (fun i => P i) (turns rr).

(** How many clients come before [e]. *)
Definition before (rr e : Z) : Z := (e - rr) mod 8.

Lemma turns_lookup rr n : (n < 8)%nat -> turns rr !! n = Some ((rr + Z.of_nat n) mod 8).
Proof. intros Hn. unfold turns. by rewrite list_lookup_fmap, lookup_seqZ_lt by lia. Qed.

Lemma turns_before rr e : 0 <= e < 8 -> turns rr !! Z.to_nat (before rr e) = Some e.
Proof.
  intros He. pose proof (Z.mod_pos_bound (e - rr) 8 ltac:(lia)). unfold before. rewrite turns_lookup by lia. f_equal.
  rewrite Z2Nat.id, Zplus_mod_idemp_r by lia. replace (rr + (e - rr)) with e by lia. by apply Z.mod_small.
Qed.

Lemma turns_position rr n e : 0 <= e < 8 -> turns rr !! n = Some e -> Z.of_nat n = before rr e.
Proof.
  intros He Hn. assert (Hlt : (n < 8)%nat) by (apply lookup_lt_Some in Hn; done).
  rewrite turns_lookup in Hn by done. injection Hn as <-. unfold before. rewrite Zminus_mod_idemp_l.
  replace (rr + Z.of_nat n - rr) with (Z.of_nat n) by lia. rewrite Z.mod_small; lia.
Qed.

Lemma turns_range rr e : e ∈ turns rr -> 0 <= e < 8.
Proof. intros (i & -> & _)%list_elem_of_fmap. apply Z.mod_pos_bound. lia. Qed.

Lemma turns_nodup rr : NoDup (turns rr).
Proof.
  apply NoDup_alt. intros i j x Hi Hj. assert (Hx : 0 <= x < 8) by (eapply turns_range, list_elem_of_lookup_2, Hi).
  apply turns_position in Hi, Hj; lia.
Qed.

Lemma asking_nodup P rr : NoDup (asking P rr).
Proof. apply NoDup_filter, turns_nodup. Qed.

Lemma asking_spec P rr e : 0 <= e < 8 -> e ∈ asking P rr <-> P e.
Proof.
  intros He. unfold asking. rewrite list_elem_of_filter. split; [by intros [? _]|]. intros Hs. split; [done|].
  eapply list_elem_of_lookup_2, turns_before, He.
Qed.

Lemma asking_range P rr e : e ∈ asking P rr -> 0 <= e < 8.
Proof. intros [_ He]%list_elem_of_filter. by apply turns_range in He. Qed.

(** *** A turn comes closer *)

(** What is kept of a list is kept in order. *)
Lemma filter_order {A} (P : A -> Prop) `{!forall x, Decision (P x)} (l : list A) i j x y :
  filter P l !! i = Some x -> filter P l !! j = Some y -> (i < j)%nat ->
  exists a b, (a < b)%nat /\ l !! a = Some x /\ l !! b = Some y.
Proof.
  revert i j. induction l as [|z l IH]; intros i j; [done|]. rewrite filter_cons. case_decide as Hz.
  - destruct j as [|j]; [lia|]. destruct i as [|i]; cbn.
    + intros [= ->] Hy _. apply list_elem_of_lookup_2, list_elem_of_filter in Hy as [_ Hy].
      apply list_elem_of_lookup in Hy as [b Hb]. exists 0%nat, (S b). split; [lia|done].
    + intros Hx Hy Hij. destruct (IH i j Hx Hy ltac:(lia)) as (a & b & Hab & Ha & Hb). exists (S a), (S b). split; [lia|done].
  - intros Hx Hy Hij. destruct (IH i j Hx Hy Hij) as (a & b & Hab & Ha & Hb). exists (S a), (S b). split; [lia|done].
Qed.

(** Behind a module [s] that is found earlier, [e] is closer to its turn. *)
Lemma turn_closer P rr i j s e :
  asking P rr !! i = Some s -> asking P rr !! j = Some e -> (i < j)%nat -> before ((s + 1) mod 8) e < before rr e.
Proof.
  intros Hs He Hij. assert (Hsr : 0 <= s < 8) by (eapply asking_range, list_elem_of_lookup_2, Hs).
  assert (Her : 0 <= e < 8) by (eapply asking_range, list_elem_of_lookup_2, He).
  destruct (filter_order _ _ _ _ _ _ Hs He Hij) as (a & b & Hab & Ha & Hb).
  apply turns_position in Ha, Hb; [|done..]. unfold before in *.
  rewrite Zminus_mod_idemp_r. replace (e - (s + 1)) with ((e - rr) - ((s - rr) + 1)) by lia.
  rewrite (Zminus_mod (e - rr)), <- (Zplus_mod_idemp_l (s - rr)).
  pose proof (Z.mod_pos_bound (e - rr) 8 ltac:(lia)). pose proof (Z.mod_pos_bound (s - rr) 8 ltac:(lia)).
  rewrite (Z.mod_small ((s - rr) mod 8 + 1)), Z.mod_small by lia. lia.
Qed.

(** One that asks is the first, or the first one comes before it. *)
Lemma turn_first (P : Z -> bool) rr e :
  0 <= e < 8 -> P e ->
  exists s, asking P rr !! 0%nat = Some s /\ (s = e \/ before ((s + 1) mod 8) e < before rr e).
Proof.
  intros He Hp. apply (asking_spec P rr e He), list_elem_of_lookup in Hp as [n Hn].
  destruct (asking P rr !! 0%nat) as [s|] eqn:Hs.
  2: { destruct (asking P rr); done. }
  exists s. split; [done|]. destruct n as [|n]; [left; congruence|right]. by eapply turn_closer; [exact Hs|exact Hn|lia].
Qed.

(** One that asks is among the first two, or it comes after the second. *)
Lemma turn_comes (P : Z -> bool) rr e :
  0 <= e < 8 -> P e ->
  asking P rr !! 0%nat = Some e \/ asking P rr !! 1%nat = Some e \/
  exists f s, asking P rr !! 0%nat = Some f /\ asking P rr !! 1%nat = Some s /\ before ((s + 1) mod 8) e < before rr e.
Proof.
  intros He Hp. apply (asking_spec P rr e He), list_elem_of_lookup in Hp as [[|[|n]] Hn]; [by left|by right; left|].
  right. right. destruct (asking P rr !! 0%nat) as [f|] eqn:Hf; [|destruct (asking P rr); done].
  destruct (asking P rr !! 1%nat) as [s|] eqn:Hs; [|destruct (asking P rr) as [|? [|]]; done].
  exists f, s. split; [done|]. split; [done|]. by eapply turn_closer; [exact Hs|exact Hn|lia].
Qed.

Lemma find_asking (P : Z -> bool) rr : List.find P (turns rr) = asking P rr !! 0%nat.
Proof.
  unfold asking. induction (turns rr) as [|i l IH]; [done|]. cbn [List.find]. rewrite filter_cons.
  destruct (P i) eqn:Hi; [by rewrite decide_True|]. by rewrite decide_False by auto.
Qed.

Lemma exists_asking (P : Z -> bool) rr : existsb P (turns rr) = bool_decide (is_Some (asking P rr !! 0%nat)).
Proof.
  unfold asking. induction (turns rr) as [|i l IH]; [done|]. cbn [existsb]. rewrite filter_cons.
  destruct (P i) eqn:Hi; [by rewrite decide_True|]. by rewrite decide_False by auto.
Qed.
