(* ===== verification/HwShared.v ===== *)
(** * HwShared: what eight clients share

The page table and the allocator when eight clients use them: the keys of each client have
slots of its own, and what one walker does for its client leaves those of the others
alone.  A client is told by the address, so that nothing is assumed of the others. *)
From S2P Require Import Prelude HwHeap HwTiers HwAccess HwRing HwWalk HwBank HwMmu HwSlots HwFlow.

#[local] Ltac Zify.zify_post_hook ::= Z.to_euclidean_division_equations.
#[local] Arguments lookup_valid_bit : simpl never.
#[local] Arguments lookup_page_idx : simpl never.
#[local] Arguments lookup_node_idx : simpl never.
#[local] Arguments computed_pa : simpl never.
#[local] Arguments computed_bank_id : simpl never.
#[local] Arguments pt_key : simpl never.
#[local] Arguments pt_wdata : simpl never.
#[local] Arguments partition_of : simpl never.
#[local] Arguments alloc_page_avail : simpl never.
#[local] Arguments alloc_node_avail : simpl never.

Definition of_client (r : VReq) : Z := client (req_va r).

Lemma client_range va : 0 <= client va < 8.
Proof. apply (field_bound va 29 3). lia. Qed.

Lemma req_key r : pt_key (req_va r) = 2048 * of_client r + 1024 * half r + low r.
Proof. rewrite pt_key_sum. pose proof (half_low r) as (_ & _ & ->). unfold of_client, client. lia. Qed.

Lemma req_partition r : partition_of (req_va r) = 2 * of_client r + half r.
Proof.
  unfold partition_of. fold (client (req_va r)). fold (of_client r). pose proof (half_low r) as (Hh & _).
  replace (field (req_va r) 10 1) with (half r); [rewrite cat_sum by lia; lia|].
  unfold half, va_key in *. rewrite field_div in * by lia. rewrite field_div by lia. change (2 ^ 10) with 1024.
  change (2 ^ 1) with 2. change (2 ^ 11) with 2048 in *. change (2 ^ 0) with 1 in *. rewrite Z.div_1_r in *. lia.
Qed.

(** ** Keys with slots *)

Definition Keys : Type := Z -> Z -> list Z.

Definition all_allocated (ks : Keys) (a : Partitions) (pt : Z -> Z) : Prop :=
  forall e, 0 <= e < 8 -> allocated e (ks e) a pt.

(** The keys of the request's half of its client. *)
Definition keys_of (ks : Keys) (r : VReq) : list Z := ks (of_client r) (half r).

Definition take_key (r : VReq) (ks : Keys) : Keys :=
  fun e => if e =? of_client r then add_key (ks e) (half r) (low r) else ks e.

Lemma take_key_same r ks : take_key r ks (of_client r) = add_key (ks (of_client r)) (half r) (low r).
Proof. unfold take_key. by rewrite Z.eqb_refl. Qed.

Lemma take_key_other r ks e : e <> of_client r -> take_key r ks e = ks e.
Proof. intros He. unfold take_key. by rewrite (proj2 (Z.eqb_neq _ _)). Qed.

Lemma advance_other p a q :
  q <> p ->
  partition_node_off (advance p a) q = partition_node_off a q /\ partition_page_off (advance p a) q = partition_page_off a q /\
  partition_full (advance p a) q = partition_full a q.
Proof. intros Hq. unfold advance. repeat case_match; cbn; by rewrite ?ram_set_ne. Qed.

(** What another client has is left alone. *)
Lemma allocated_other e ks a pt p k x :
  0 <= e < 8 -> allocated e ks a pt -> p / 2 <> e -> k / 2048 <> e -> allocated e ks (advance p a) (ram_set pt k x).
Proof.
  intros He [Hnd Hrange Hlen Hnode Hpage Hfull Hhit Hmiss] Hp Hk.
  assert (Ho : forall h, 0 <= h <= 1 -> 2 * e + h <> p) by (intros; lia).
  split; try done.
  - intros h Hh. rewrite (proj1 (advance_other p a _ (Ho h Hh))). by apply Hnode.
  - intros h Hh. rewrite (proj1 (proj2 (advance_other p a _ (Ho h Hh)))). by apply Hpage.
  - intros h Hh. rewrite (proj2 (proj2 (advance_other p a _ (Ho h Hh)))). by apply Hfull.
  - intros h j y Hh Hj. pose proof (Hrange h y Hh ltac:(by eapply list_elem_of_lookup_2)).
    rewrite ram_set_ne by lia. by apply Hhit.
  - intros h y Hh Hy Hin. rewrite ram_set_ne by lia. by apply Hmiss.
Qed.

(** A request gets the slot that its partition offers. *)
Lemma take_allocated ks a pt r :
  all_allocated ks a pt -> low r ∉ keys_of ks r -> partition_full a (partition_of (req_va r)) = false ->
  let p := partition_of (req_va r) in
  alloc_page_avail a p = page_of (of_client r) (half r) (length (keys_of ks r)) /\
  alloc_node_avail a p = node_of (length (keys_of ks r)) /\ (length (keys_of ks r) < 960)%nat /\
  all_allocated (take_key r ks) (advance p a)
    (ram_set pt (pt_key (req_va r)) (pt_wdata (alloc_page_avail a p) (alloc_node_avail a p))).
Proof.
  intros Ha Hin Hfull p. pose proof (client_range (req_va r)) as He. fold (of_client r) in He.
  pose proof (half_low r) as (Hh & Hl & _). assert (Hp : p = 2 * of_client r + half r) by apply req_partition.
  fold p in Hfull. rewrite Hp, (al_full _ _ _ _ (Ha _ He) _ Hh) in Hfull. apply bool_decide_eq_false in Hfull.
  fold (keys_of ks r) in Hfull.
  destruct (offered (of_client r) He _ _ _ _ (Ha _ He) Hh ltac:(unfold keys_of in *; lia)) as (_ & Hpage & Hnode). rewrite <- Hp in *.
  split; [done|]. split; [done|]. split; [lia|]. rewrite Hpage, Hnode, req_key. intros e' He'.
  destruct (decide (e' = of_client r)) as [->|Hne].
  - rewrite take_key_same, Hp. apply allocate_key; [done|by apply Ha|done|lia|done|unfold keys_of in *; lia].
  - rewrite take_key_other by done. apply allocated_other; [done|by apply Ha|lia|lia].
Qed.

(** ** Slots of requests *)

Definition req_page (r : VReq) (j : nat) : Z := page_of (of_client r) (half r) j.

(** The request has the slot at the address [pa] of the bank [b]. *)
Definition has_slot (ks : Keys) (r : VReq) (pa b : Z) : Prop :=
  exists j, keys_of ks r !! j = Some (low r) /\ pa = computed_pa (req_page r j) (node_of j) /\ b = req_page r j / 60.

(** More keys have slots. *)
Definition more (ks ks' : Keys) : Prop := forall e h, exists l, ks' e h = ks e h ++ l.

#[export] Instance more_refl : Reflexive more.
Proof. intros ks e h. exists []. by rewrite app_nil_r. Qed.

#[export] Instance more_trans : Transitive more.
Proof. intros k1 k2 k3 H1 H2 e h. destruct (H1 e h) as [l1 Hl1], (H2 e h) as [l2 Hl2]. exists (l1 ++ l2). by rewrite Hl2, Hl1, app_assoc. Qed.

Lemma more_take r ks : more ks (take_key r ks).
Proof.
  intros e h. unfold take_key. destruct (e =? of_client r); [|exists []; by rewrite app_nil_r].
  destruct (decide (h = half r)) as [->|Hne]; [exists [low r]; apply add_key_same|exists []].
  by rewrite add_key_other, app_nil_r.
Qed.

Lemma more_lookup ks ks' r j : more ks ks' -> keys_of ks r !! j = Some (low r) -> keys_of ks' r !! j = Some (low r).
Proof. intros Hm Hj. unfold keys_of in *. destruct (Hm (of_client r) (half r)) as [l ->]. by apply lookup_app_l_Some. Qed.

Lemma more_slot ks ks' r pa b : more ks ks' -> has_slot ks r pa b -> has_slot ks' r pa b.
Proof. intros Hm (j & Hj & Hpa). exists j. split; [by eapply more_lookup|done]. Qed.

Lemma slot_range ks a pt r j :
  all_allocated ks a pt -> keys_of ks r !! j = Some (low r) ->
  0 <= req_page r j < 240 /\ 0 <= node_of j < 64 /\ req_page r j / 60 = of_client r / 2 /\ (j < 960)%nat.
Proof.
  intros Ha Hj. pose proof (client_range (req_va r)) as He. fold (of_client r) in He. pose proof (half_low r) as (Hh & _).
  pose proof (al_len _ _ _ _ (Ha _ He) _ Hh) as Hb. pose proof (lookup_lt_Some _ _ _ Hj).
  unfold keys_of, req_page in *. unfold page_of, node_of. lia.
Qed.

(** A bank serves two clients. *)
Lemma slot_bank ks a pt r pa b : all_allocated ks a pt -> has_slot ks r pa b -> b = of_client r / 2.
Proof. intros Ha (j & Hj & _ & ->). by destruct (slot_range _ _ _ _ _ Ha Hj) as (_ & _ & ? & _). Qed.

(** ** A walker *)

(** The walker [w] works on [r], and [rdata] has come from the page table [pt]. *)
Record walks (ks : Keys) (pt : Z -> Z) (w : Walker) (r : VReq) (rdata : Z) : Prop := {
  wl_lookup : wk_state w = W_LOOKUP -> latched_key w = pt_key (req_va r) /\ rdata = pt (pt_key (req_va r));
  wl_alloc : wk_state w = W_ALLOCATE -> latched_key w = pt_key (req_va r) /\ low r ∉ keys_of ks r;
  wl_done : wk_state w = W_DONE -> has_slot ks r (pa_reg w) (bank_id_reg w);
  wl_fault : wk_state w = W_FAULT -> low r ∉ keys_of ks r /\ (960 <= length (keys_of ks r))%nat
}.

(** What a walker takes from the allocator and writes to the page table. *)
Definition keys_after (take : bool) (r : VReq) (ks : Keys) : Keys := if take then take_key r ks else ks.
Definition parts_after (take : bool) (r : VReq) (a : Partitions) : Partitions :=
  if take then advance (partition_of (req_va r)) a else a.
Definition table_after (take : bool) (r : VReq) (a : Partitions) (pt : Z -> Z) : Z -> Z :=
  if take then ram_set pt (pt_key (req_va r))
    (pt_wdata (alloc_page_avail a (partition_of (req_va r))) (alloc_node_avail a (partition_of (req_va r))))
  else pt.

(** What a walker gets when its request is [r]. *)
Record walk_of (a : Partitions) (w : Walker) (r : VReq) (rdata : Z) (i : WalkIns) : Prop := {
  wi_idle : va_valid i = true -> wk_state w = W_IDLE;
  wi_rdata : pt_rdata i = rdata;
  wi_avail : alloc_avail i = negb (partition_full a (partition_of (req_va r)));
  wi_page : alloc_page_in i = alloc_page_avail a (partition_of (req_va r));
  wi_node : alloc_node_in i = alloc_node_avail a (partition_of (req_va r))
}.

(** It finds the slot of its key. *)
Lemma walk_hit ks a pt r :
  all_allocated ks a pt -> low r ∈ keys_of ks r ->
  let x := pt (pt_key (req_va r)) in
  lookup_valid_bit x = true /\ has_slot ks r (computed_pa (lookup_page_idx x) (lookup_node_idx x)) (computed_bank_id (lookup_page_idx x)).
Proof.
  intros Ha Hin x. apply list_elem_of_lookup in Hin as [j Hj]. destruct (slot_range _ _ _ _ _ Ha Hj) as (Hp & Hn & _ & _).
  pose proof (client_range (req_va r)) as He. fold (of_client r) in He. pose proof (half_low r) as (Hh & _).
  pose proof (al_hit _ _ _ _ (Ha _ He) _ _ _ Hh Hj) as Hx. rewrite <- req_key in Hx. fold x in Hx.
  destruct (pt_wdata_fields (page_of (of_client r) (half r) j) (node_of j)) as (Hv & Hpage & Hnode); [unfold req_page in *; lia|lia|].
  rewrite Hx, Hv, Hpage, Hnode. split; [done|]. exists j. split; [done|]. split; [done|]. by apply computed_bank_div.
Qed.

Lemma walk_miss ks a pt r :
  all_allocated ks a pt -> low r ∉ keys_of ks r -> lookup_valid_bit (pt (pt_key (req_va r))) = false.
Proof.
  intros Ha Hin. pose proof (client_range (req_va r)) as He. fold (of_client r) in He. pose proof (half_low r) as (Hh & Hl & _).
  rewrite req_key. by apply (al_miss _ _ _ _ (Ha _ He)).
Qed.

(** A clock edge of a walker. *)
Lemma walks_step ks a pt w r rdata i :
  all_allocated ks a pt -> walks ks pt w r rdata -> walk_of a w r rdata i ->
  let take := alloc (alloc_avail i) w in
  forall r', (va_valid i = true -> va i = req_va r') -> (va_valid i = false -> r' = r) ->
  walks (keys_after take r ks) (table_after take r a pt) (walker_clock i w) r' (pt (pt_raddr (va_valid i) (va i) w)) /\
  all_allocated (keys_after take r ks) (parts_after take r a) (table_after take r a pt).
Proof.
  intros Ha [Hl Hal Hd Hfl] [Hidle Hrd Hav Hpg Hnd] take r' Hva Hr'. unfold take, alloc, pt_raddr. destruct (wk_state w) eqn:Hs; cbn [andb].
  all: rewrite ?(bool_decide_eq_false_2 (_ = W_ALLOCATE)), ?(bool_decide_eq_true_2 (_ = W_ALLOCATE)) by done; cbn [andb keys_after table_after parts_after].
  2-5: destruct (va_valid i) eqn:Hv; [by specialize (Hidle eq_refl)|]; rewrite (Hr' eq_refl); clear Hva Hr' Hidle.
  - split; [|done]. unfold walker_clock, wn_state. rewrite Hs. destruct (va_valid i) eqn:Hv; [rewrite (Hva eq_refl)|]; by split.
  - split; [|done]. destruct (Hl eq_refl) as [Hkey Hx]. unfold walker_clock, wn_state. rewrite Hs, Hrd, Hx.
    destruct (decide (low r ∈ keys_of ks r)) as [Hin|Hin].
    + destruct (walk_hit _ _ _ _ Ha Hin) as [Hvb Hslot]. rewrite Hvb. split; try done.
      intros _. cbn. unfold selected_page, selected_node. rewrite Hs, Hrd, Hx. exact Hslot.
    + rewrite (walk_miss _ _ _ _ Ha Hin). by split.
  - destruct (Hal eq_refl) as [Hkey Hin]. unfold walker_clock, wn_state. rewrite Hs, Hav.
    destruct (partition_full a (partition_of (req_va r))) eqn:Hfull; cbn [negb keys_after table_after parts_after].
    + split; [|done]. split; try done. intros _. split; [done|]. rewrite req_partition in Hfull.
      pose proof (client_range (req_va r)) as He. fold (of_client r) in He. pose proof (half_low r) as (Hh & _).
      rewrite (al_full _ _ _ _ (Ha _ He) _ Hh) in Hfull. by apply bool_decide_eq_true in Hfull.
    + destruct (take_allocated ks a pt r Ha Hin Hfull) as (Hpage & Hnode & Hlen & Ha'). cbv zeta in Ha'. split; [|done].
      assert (Hj : keys_of (take_key r ks) r !! length (keys_of ks r) = Some (low r)).
      { unfold keys_of. rewrite take_key_same, add_key_same. by apply list_lookup_middle. }
      destruct (slot_range _ _ _ _ _ Ha' Hj) as (Hrg & _). split; try done. intros _. cbn.
      unfold selected_page, selected_node. rewrite Hs, Hpg, Hnd, Hpage, Hnode. exists (length (keys_of ks r)).
      split; [done|]. split; [done|]. by apply computed_bank_div.
  - split; [|done]. unfold walker_clock, wn_state. rewrite Hs. by split.
  - split; [|done]. unfold walker_clock, wn_state. rewrite Hs. by split.
Qed.
