(* ===== verification/HwCrowd.v ===== *)
(** * HwCrowd: eight clients with one request each

The invariant of the MMU when no client asks while a request of its own is under way
([crowd]).  Then the two requests whose turn it is are always taken, the lanes of the
banks never fill up, and no two walkers want a slot of the same client. *)
From S2P Require Import Prelude HwHeap HwTiers HwAccess HwRing HwTurn HwWalk HwBank HwMmu HwSlots HwGuard HwFlow HwShared.

#[local] Arguments lookup_valid_bit : simpl never.
#[local] Arguments computed_pa : simpl never.
#[local] Arguments computed_bank_id : simpl never.
#[local] Arguments pt_key : simpl never.
#[local] Arguments partition_of : simpl never.
#[local] Arguments client : simpl never.

(** ** The two sides *)

Inductive Side := First | Second.

#[export] Instance Side_eq_dec : EqDecision Side.
Proof. solve_decision. Defined.

Definition other (s : Side) : Side := match s with First => Second | Second => First end.

Definition sfifo (s : Side) (m : Mmu) : Ring VReq := match s with First => in_fifo0 m | Second => in_fifo1 m end.
Definition sptw (s : Side) (m : Mmu) : Walker := match s with First => ptw0 m | Second => ptw1 m end.
Definition spipe (s : Side) (m : Mmu) : VReq := match s with First => ptw0_pipe m | Second => ptw1_pipe m end.
Definition srdata (s : Side) (m : Mmu) : Z := match s with First => ptw0_pt_rdata m | Second => ptw1_pt_rdata m end.
Definition sins (s : Side) (m : Mmu) : WalkIns := match s with First => ptw0_ins m | Second => ptw1_ins m end.
Definition svalid (s : Side) (m : Mmu) : bool := match s with First => ptw0_va_valid_in m | Second => ptw1_va_valid_in m end.
Definition salloc (s : Side) (m : Mmu) : bool := match s with First => ptw0_alloc m | Second => ptw1_alloc m end.
Definition swrite (s : Side) (reqs : Z -> option VReq) (m : Mmu) : option VReq :=
  match s with First => fifo_in_wr0 reqs m | Second => fifo_in_wr1 reqs m end.

(** The requests in a queue, and the one that a walker works on. *)
Definition squeue (s : Side) (m : Mmu) : list VReq := ring_list 8 (sfifo s m).
Definition swalk (s : Side) (m : Mmu) : list VReq := if wk_busy (sptw s m) then [spipe s m] else [].

Lemma side_fifo s reqs m : sfifo s (mmu_next reqs m) = in_fifo_clock (swrite s reqs m) (svalid s m) (sfifo s m).
Proof. by destruct s. Qed.
Lemma side_ptw s reqs m : sptw s (mmu_next reqs m) = walker_clock (sins s m) (sptw s m).
Proof. by destruct s. Qed.
Lemma side_pipe s reqs m : spipe s (mmu_next reqs m) = if svalid s m then rd_data (sfifo s m) else spipe s m.
Proof. by destruct s. Qed.
Lemma side_rdata s reqs m :
  srdata s (mmu_next reqs m) = page_table m (pt_raddr (va_valid (sins s m)) (va (sins s m)) (sptw s m)).
Proof. by destruct s. Qed.
Lemma side_takes s m : svalid s m = negb (ring_empty (sfifo s m)) && negb (wk_busy (sptw s m)).
Proof. by destruct s. Qed.
Lemma side_va s m : va_valid (sins s m) = svalid s m /\ va (sins s m) = req_va (rd_data (sfifo s m)).
Proof. by destruct s. Qed.
Lemma side_alloc s m : salloc s m = alloc (alloc_avail (sins s m)) (sptw s m).
Proof. by destruct s. Qed.

Lemma side_walk_of s m : walk_of (partitions m) (sptw s m) (spipe s m) (srdata s m) (sins s m).
Proof. destruct s; split; try done; apply valid_idle. Qed.

(** ** Whose turn it is *)

Definition wants (reqs : Z -> option VReq) (i : Z) : bool := bool_decide (is_Some (reqs i)).

Lemma winner_steps reqs l f s :
  foldl (winner_step reqs) (f, s) l =
    match f, s with
    | None, None => (filter (fun i => wants reqs i) l !! 0%nat, filter (fun i => wants reqs i) l !! 1%nat)
    | None, Some y => (filter (fun i => wants reqs i) l !! 0%nat, Some y)
    | Some x, None => (Some x, filter (fun i => wants reqs i) l !! 0%nat)
    | Some x, Some y => (Some x, Some y)
    end.
Proof.
  revert f s. induction l as [|i l IH]; intros f s; [by destruct f, s|]. cbn [foldl]. rewrite filter_cons.
  assert (Hstep : winner_step reqs (f, s) i =
    if wants reqs i then match f, s with None, s => (Some i, s) | f, None => (f, Some i) | _, _ => (f, s) end else (f, s)).
  { unfold winner_step, wants. by destruct (reqs i), f, s. }
  rewrite Hstep. destruct (wants reqs i); [rewrite decide_True by done|rewrite decide_False by auto]; [|by rewrite IH].
  destruct f, s; rewrite IH; done.
Qed.

Lemma winners_asking reqs rr : winners reqs rr = (asking (wants reqs) rr !! 0%nat, asking (wants reqs) rr !! 1%nat).
Proof. apply (winner_steps reqs (turns rr) None None). Qed.

(** No client asks for another one, or while its last request is under way. *)
Definition polite (reqs : Z -> option VReq) (m : Mmu) : Prop :=
  forall i r, reqs i = Some r -> of_client r = i /\ i ∉ map client (under_way m).

(** Who asks has nothing under way, so that there is room. *)
Lemma asking_apart reqs m rr : polite reqs m ->
  NoDup (map client (under_way m)) -> NoDup (asking (wants reqs) rr ++ map client (under_way m)).
Proof.
  intros Hp Hn. apply NoDup_app. split; [apply asking_nodup|]. split; [|done]. intros i Hi.
  pose proof (asking_range _ _ _ Hi) as Hr. apply (asking_spec (wants reqs) rr i Hr) in Hi. apply bool_decide_unpack in Hi as [r Hr'].
  by apply (Hp i r).
Qed.

Lemma eight_clients l : NoDup l -> Forall (fun i => 0 <= i < 8) l -> (length l <= 8)%nat.
Proof.
  intros Hn Hf. replace 8%nat with (length (seqZ 0 8)) by done. apply submseteq_length, NoDup_submseteq; [done|].
  intros i Hi. apply elem_of_seqZ. rewrite Forall_forall in Hf. specialize (Hf i Hi). lia.
Qed.

Lemma asking_room reqs m rr : polite reqs m -> NoDup (map client (under_way m)) ->
  (length (asking (wants reqs) rr) + length (under_way m) <= 8)%nat.
Proof.
  intros Hp Hn. pose proof (eight_clients _ (asking_apart reqs m rr Hp Hn)) as Hl.
  rewrite length_app, length_map in Hl. apply Hl. apply Forall_app. split; apply Forall_forall.
  - apply asking_range.
  - intros i (va & -> & _)%list_elem_of_fmap. apply client_range.
Qed.

Lemma queues_under_way m : (length (squeue First m) + length (squeue Second m) <= length (under_way m))%nat.
Proof. unfold under_way, squeue, sfifo. rewrite !length_app, !length_map. lia. Qed.

(** Two requests at different places are of different clients. *)
Lemma apart m v w l : NoDup (map client (under_way m)) -> under_way m ≡ₚ v :: w :: l -> client v <> client w.
Proof.
  intros Hn Hp. rewrite Hp in Hn. cbn in Hn. apply NoDup_cons in Hn as [Hv _]. intros Heq. apply Hv. rewrite Heq. left.
Qed.

(** ** A lane and its bank *)

(** The bank works on the slot of [r]. *)
Record works (ks : Keys) (b : Z) (bk : Bank) (r : VReq) (j : nat) : Prop := {
  ws_slot : keys_of ks r !! j = Some (low r);
  ws_bank : req_page r j / 60 = b;
  ws_write : latched_is_write bk = req_wr r;
  ws_page : latched_page bk = req_page r j mod 60;
  ws_node : latched_node bk = node_of j;
  ws_wdata : latched_wdata bk = req_wdata r
}.

Record lane_work (ks : Keys) (b : Z) (l : Lane) (bk : Bank) : Prop := {
  lw_flow : exists vs, lane_flow (ring_list 4 (queue l)) vs l bk;
  lw_entries : Forall (fun x => has_slot ks (br_req x) (br_pa x) b) (ring_list 4 (queue l));
  lw_works : bank_state bk <> B_IDLE -> exists r j, ring_list 8 (va_fifo l) = [req_va r] /\ works ks b bk r j
}.

Lemma works_more ks ks' b bk r j : more ks ks' -> works ks b bk r j -> works ks' b bk r j.
Proof. intros Hm [Hj ? ? ? ? ?]. split; try done. by eapply more_lookup. Qed.

Lemma lane_more ks ks' b l bk : more ks ks' -> lane_work ks b l bk -> lane_work ks' b l bk.
Proof.
  intros Hm [Hf He Hw]. split; [done| |].
  - eapply Forall_impl; [exact He|]. intros x Hx. exact (more_slot _ _ _ _ _ Hm Hx).
  - intros Hs. destruct (Hw Hs) as (r & j & Hv & Hr). exists r, j. split; [done|]. exact (works_more _ _ _ _ _ _ Hm Hr).
Qed.

Section LaneNext.
Variables (ks : Keys) (b : Z) (l : Lane) (bk : Bank).
Variables (wr0 wr1 : bool) (e0 e1 : BankReq).
Hypothesis Hl : lane_work ks b l bk.
Hypothesis Hroom0 : wr0 && (Z.of_nat (length (ring_list 4 (queue l))) <? 4) = wr0.
Hypothesis Hroom1 : wr1 && (Z.of_nat (length (ring_list 4 (queue l))) + (if wr0 then 1 else 0) <? 4) = wr1.

Let l' := lane_clock wr0 e0 wr1 e1 bk l.
Let bk' := bank_clock b (lane_port l bk) bk.

Lemma lane_queue_next :
  ring_list 4 (queue l') =
    (if dispatch l bk then tail (ring_list 4 (queue l)) else ring_list 4 (queue l)) ++
    (if wr0 then [e0] else []) ++ (if wr1 then [e1] else []).
Proof.
  destruct (lw_flow _ _ _ _ Hl) as [vs [Hq _ _]].
  pose proof (dual_clock_rep _ _ wr0 e0 wr1 e1 (dispatch l bk) Hq) as Hq'. cbv zeta in Hq'. rewrite Hroom0, Hroom1 in Hq'.
  exact (ring_list_rep _ _ _ Hq').
Qed.

(** The addresses under way in the bank. *)
Lemma lane_vas_next :
  ring_list 8 (va_fifo l') =
    if dispatch l bk then [req_va (br_req (rd_data (queue l)))]
    else if va_pop l bk then [] else ring_list 8 (va_fifo l).
Proof.
  destruct (lw_flow _ _ _ _ Hl) as [vs [_ Hv Hb]]. rewrite (ring_list_rep _ _ _ Hv).
  pose proof (ring_clock_rep 8 _ _ (dispatch l bk) (req_va (br_req (rd_data (queue l)))) (va_pop l bk) Hv) as Hv'.
  apply ring_list_rep in Hv'. unfold l'. cbn [lane_clock va_fifo]. unfold tracking_fifo_clock. rewrite Hv'. clear Hv'.
  unfold bank_flow in Hb. destruct (dispatch l bk) eqn:Hd.
  - apply dispatch_idle in Hd as [Hs Hbuf]. rewrite Hs in Hb. unfold va_pop. rewrite Hbuf.
    destruct (mem_rdata_valid bk || mem_wdone bk); [destruct Hb as [[v ->] _]; done|by subst].
  - rewrite andb_false_l, app_nil_r. destruct (va_pop l bk) eqn:Hp; [|done]. unfold va_pop in Hp. apply andb_true_iff in Hp as [Ho _].
    destruct (bank_state bk); [rewrite Ho in Hb; by destruct Hb as [[v ->] _]|..];
      destruct Hb as (_ & H1 & H2 & _); by rewrite H1, H2 in Ho.
Qed.

(** The request that a lane gives to its bank. *)
Lemma dispatch_head :
  dispatch l bk = true -> exists x qs, ring_list 4 (queue l) = x :: qs /\ rd_data (queue l) = x /\ bank_state bk = B_IDLE.
Proof.
  intros Hd. destruct (lw_flow _ _ _ _ Hl) as [vs [Hq _ _]]. pose proof (dispatch_idle _ _ Hd) as [Hs _].
  unfold dispatch in Hd. rewrite (ring_empty_rep _ _ _ Hq) in Hd. destruct (ring_list 4 (queue l)) as [|x qs]; [done|].
  exists x, qs. split; [done|]. split; [|done]. by apply (ring_read_rep _ _ _ _ Hq).
Qed.

Lemma bank_takes a pt : all_allocated ks a pt ->
  dispatch l bk = true -> exists j, works ks b bk' (br_req (rd_data (queue l))) j.
Proof.
  intros Ha Hd. destruct (dispatch_head Hd) as (x & qs & Hq & Hx & Hs). pose proof (lw_entries _ _ _ _ Hl) as He.
  rewrite Hq in He. apply Forall_cons in He as [(j & Hj & Hpa & Hb) _]. destruct (slot_range _ _ _ _ _ Ha Hj) as (Hp & Hn & _).
  exists j. rewrite Hx. destruct (local_page _ _ Hp Hn) as [Hlp Hln]. rewrite <- Hb in Hlp.
  assert (Htakes : bool_decide (bank_state bk = B_IDLE) && (mem_re (lane_port l bk) || mem_we (lane_port l bk)) = true).
  { rewrite port_dispatch, Hd, Hs. done. }
  unfold bk', bank_clock. cbv zeta. rewrite Htakes.
  split; try done; cbn [latched_is_write latched_page latched_node latched_wdata lane_port mem_we mem_addr mem_wdata];
    rewrite Hx, ?Hd, ?Hpa; done.
Qed.

Lemma bank_keeps r j : bank_state bk <> B_IDLE -> works ks b bk r j -> works ks b bk' r j.
Proof.
  intros Hs [? ? ? ? ? ?]. unfold bk', bank_clock. cbv zeta. rewrite bool_decide_eq_false_2 by done. by split.
Qed.

Lemma busy_no_pop : bank_state bk <> B_IDLE -> va_pop l bk = false /\ dispatch l bk = false.
Proof.
  intros Hs. destruct (lw_flow _ _ _ _ Hl) as [vs [_ _ Hb]]. split; [|by apply dispatch_busy]. unfold va_pop, bank_flow in *.
  destruct (bank_state bk); [done|..]; destruct Hb as (_ & -> & -> & _); done.
Qed.

Lemma lane_work_next a pt : all_allocated ks a pt ->
  (wr0 = true -> has_slot ks (br_req e0) (br_pa e0) b) -> (wr1 = true -> has_slot ks (br_req e1) (br_pa e1) b) ->
  lane_work ks b l' bk'.
Proof.
  intros Ha H0 H1. split.
  - destruct (lw_flow _ _ _ _ Hl) as [vs Hf]. destruct (lane_next _ _ _ _ b wr0 e0 wr1 e1 Hf Hroom0 Hroom1) as (qs' & vs' & Hf' & _).
    exists vs'. rewrite <- (ring_list_rep _ _ _ (lf_queue _ _ _ _ Hf')) in Hf'. exact Hf'.
  - rewrite lane_queue_next. pose proof (lw_entries _ _ _ _ Hl) as He. apply Forall_app. split.
    + destruct (dispatch l bk); [|done]. by destruct (ring_list 4 (queue l)); [|apply Forall_cons in He as [_ ?]].
    + apply Forall_app. split.
      * destruct wr0; [by apply Forall_singleton, H0|constructor].
      * destruct wr1; [by apply Forall_singleton, H1|constructor].
  - intros Hs. rewrite lane_vas_next. destruct (dispatch l bk) eqn:Hd.
    + destruct (bank_takes a pt Ha Hd) as [j Hj]. by exists (br_req (rd_data (queue l))), j.
    + assert (Hne : bank_state bk <> B_IDLE).
      { intros Hi. apply Hs. unfold bk'. by rewrite bank_state_next, Hi, Hd. }
      destruct (busy_no_pop Hne) as [-> _]. destruct (lw_works _ _ _ _ Hl Hne) as (r & j & Hv & Hw). exists r, j.
      split; [done|by apply bank_keeps].
Qed.
End LaneNext.

(** ** The invariant *)

Record crowd (ks : Keys) (m : Mmu) : Prop := {
  cr_flow : flowing m;
  cr_alloc : all_allocated ks (partitions m) (page_table m);
  cr_walks s : walks ks (page_table m) (sptw s m) (spipe s m) (srdata s m);
  cr_lane b : lane_work ks b (lanes m b) (banks m b);
  cr_once : NoDup (map client (under_way m))
}.

Lemma under_way_sides s m :
  under_way m ≡ₚ map req_va (squeue s m) ++ map req_va (swalk s m) ++ map req_va (squeue (other s) m) ++
    map req_va (swalk (other s) m) ++ each_lane (fun b => lane_vas (lanes m b)).
Proof.
  assert (Hw : forall s, map req_va (swalk s m) = in_walker (sptw s m) (spipe s m))
    by (intros s'; unfold swalk, in_walker; by destruct (wk_busy _)).
  rewrite !Hw. unfold under_way, squeue. destruct s; cbn [other sfifo sptw spipe]; [done|solve_Permutation].
Qed.

Lemma under_way_lane b m : 0 <= b < 4 -> exists rest, under_way m ≡ₚ lane_vas (lanes m b) ++ rest.
Proof.
  intros Hb. pose proof (under_way_sides First m) as Hu. unfold each_lane in Hu. set (f := fun b => lane_vas (lanes m b)) in *.
  rewrite 3!app_assoc in Hu. set (p := _ ++ map req_va (swalk (other First) m)) in Hu.
  assert (Hc : b = 0 \/ b = 1 \/ b = 2 \/ b = 3) by lia. change (lane_vas (lanes m b)) with (f b).
  destruct Hc as [->|[->|[->| ->]]];
    [exists (p ++ f 1 ++ f 2 ++ f 3)|exists (p ++ f 0 ++ f 2 ++ f 3)|exists (p ++ f 0 ++ f 1 ++ f 3)|exists (p ++ f 0 ++ f 1 ++ f 2)];
    rewrite Hu; solve_Permutation.
Qed.

Lemma queue_rep s m : flowing m -> queue_flow (squeue s m) (sfifo s m) (sptw s m).
Proof.
  intros [[l0 H0] [l1 H1] _]. unfold squeue.
  destruct s; cbn [sfifo sptw]; [by rewrite (ring_list_rep _ _ _ (qf_queue _ _ _ H0))|by rewrite (ring_list_rep _ _ _ (qf_queue _ _ _ H1))].
Qed.

Section Crowd.
Variables (ks : Keys) (m : Mmu).
Hypothesis Hm : crowd ks m.

(** A walker that takes a request takes the first of its queue. *)
Lemma svalid_spec s :
  svalid s m = true -> wk_state (sptw s m) = W_IDLE /\ exists l, squeue s m = rd_data (sfifo s m) :: l.
Proof.
  intros Hv. split; [destruct s; by eapply valid_idle|]. rewrite side_takes in Hv.
  pose proof (qf_queue _ _ _ (queue_rep s m (cr_flow _ _ Hm))) as Hr. rewrite (ring_empty_rep _ _ _ Hr) in Hv.
  destruct (squeue s m) as [|x l]; [done|]. exists l. by rewrite (proj1 (ring_read_rep _ _ _ _ Hr)).
Qed.

Lemma salloc_busy s : salloc s m = true -> wk_state (sptw s m) = W_ALLOCATE /\ swalk s m = [spipe s m].
Proof. rewrite side_alloc. intros [Hs _]%alloc_spec. split; [done|]. unfold swalk, wk_busy. by rewrite Hs. Qed.

(** The request of the other walker is of another client. *)
Lemma other_client s r :
  (wk_busy (sptw s m) = true /\ r = spipe s m) \/ (svalid s m = true /\ r = rd_data (sfifo s m)) ->
  salloc (other s) m = true -> of_client (spipe (other s) m) <> of_client r.
Proof.
  intros Hr Ha. apply salloc_busy in Ha as [_ Ho]. pose proof (under_way_sides s m) as Hu. rewrite Ho in Hu.
  destruct Hr as [[Hb ->]|[Hv ->]].
  - unfold swalk in Hu. rewrite Hb in Hu. eapply (apart m _ _ (map req_va (squeue s m) ++ map req_va (squeue (other s) m) ++
      each_lane (fun b => lane_vas (lanes m b)))); [apply Hm|]. rewrite Hu. cbn. solve_Permutation.
  - destruct (svalid_spec s Hv) as [_ [l Hl]]. rewrite Hl in Hu.
    eapply (apart m _ _ (map req_va l ++ map req_va (swalk s m) ++ map req_va (squeue (other s) m) ++
      each_lane (fun b => lane_vas (lanes m b)))); [apply Hm|]. rewrite Hu. cbn. solve_Permutation.
Qed.

Lemma no_collision : same_alloc_collision m = false.
Proof.
  unfold same_alloc_collision. destruct (ptw0_alloc m) eqn:H0; [|done]. destruct (ptw1_alloc m) eqn:H1; [|done].
  apply Z.eqb_neq. unfold ptw0_partition, ptw1_partition. rewrite !req_partition.
  pose proof (half_low (ptw0_pipe m)) as (? & _). pose proof (half_low (ptw1_pipe m)) as (? & _).
  destruct (salloc_busy First H0) as [Hs _]. cbn in Hs.
  assert (Hb : wk_busy (ptw0 m) = true) by (unfold wk_busy; by rewrite Hs).
  pose proof (other_client First (ptw0_pipe m) ltac:(by left) H1) as Hc. cbn in Hc. lia.
Qed.

(** *** The lanes have room *)

Lemma lane_length b : (length (ring_list 4 (queue (lanes m b))) <= 2)%nat.
Proof.
  set (qs := ring_list 4 (queue (lanes m b))). pose proof (lw_entries _ _ _ _ (cr_lane _ _ Hm b)) as He. fold qs in He.
  assert (Hc : Forall (fun x => of_client (br_req x) / 2 = b) qs).
  { eapply Forall_impl; [exact He|]. intros x Hx. symmetry. exact (slot_bank _ _ _ _ _ _ (cr_alloc _ _ Hm) Hx). }
  destruct (decide (0 <= b < 4)) as [Hb|Hb].
  - destruct (under_way_lane b m Hb) as [rest Hu]. pose proof (cr_once _ _ Hm) as Hn. rewrite Hu in Hn. unfold lane_vas in Hn.
    rewrite !map_app in Hn. fold qs in Hn. do 2 apply NoDup_app in Hn as [Hn _].
    rewrite map_map in Hn. rewrite <- (length_map (fun x => client (req_va (br_req x))) qs).
    apply (submseteq_length _ [2 * b; 2 * b + 1]), NoDup_submseteq; [exact Hn|].
    intros i (x & -> & Hx)%list_elem_of_fmap. rewrite Forall_forall in Hc. specialize (Hc x Hx). unfold of_client in Hc.
    pose proof (Z.div_mod (client (req_va (br_req x))) 2 ltac:(lia)). pose proof (Z.mod_pos_bound (client (req_va (br_req x))) 2 ltac:(lia)).
    set_solver by lia.
  - destruct qs as [|x qs]; [simpl; lia|]. apply Forall_cons in Hc as [Hx _]. pose proof (client_range (req_va (br_req x))).
    unfold of_client in Hx. assert (0 <= client (req_va (br_req x)) / 2 < 4) by (split; [apply Z.div_pos; lia|apply Z.div_lt_upper_bound; lia]). lia.
Qed.

Lemma lane_room b : lane_full (lanes m b) = false /\ lane_almost_full (lanes m b) = false.
Proof.
  destruct (lw_flow _ _ _ _ (cr_lane _ _ Hm b)) as [vs [Hq _ _]]. pose proof (lane_length b).
  rewrite (lane_full_spec _ _ Hq), (lane_almost_spec _ _ Hq). lia.
Qed.

(** A walker that is done is relieved at once. *)
Lemma walkers_accepted :
  ptw0_accept m = bool_decide (wk_state (ptw0 m) = W_DONE) /\ ptw1_accept m = bool_decide (wk_state (ptw1 m) = W_DONE) /\
  requeue_to_0 m = false /\ requeue_to_1 m = false.
Proof.
  pose proof (qf_valid _ _ _ (queue_rep First m (cr_flow _ _ Hm))) as H0.
  pose proof (qf_valid _ _ _ (queue_rep Second m (cr_flow _ _ Hm))) as H1. cbn in H0, H1.
  assert (Ha : ptw0_accept m = ptw_valid (walked0 m) /\ ptw1_accept m = ptw_valid (walked1 m)).
  { unfold ptw0_accept, ptw1_accept, ptw0_can_enqueue, ptw1_can_enqueue.
    destruct (lane_room (ptw_bank_id (walked0 m))) as [-> ->]. destruct (lane_room (ptw_bank_id (walked1 m))) as [-> _].
    unfold same_bank_collision. rewrite !andb_true_r. destruct (ptw_valid (walked0 m)), (ptw_valid (walked1 m)), (_ =? _); done. }
  destruct Ha as [Ha0 Ha1]. unfold requeue_to_0, requeue_to_1. rewrite Ha0, Ha1, !andb_negb_r.
  cbn. by rewrite H0, H1, no_collision, andb_true_r.
Qed.

(** *** Who asks first is taken *)

Lemma first_accepted reqs : polite reqs m ->
  let asks := asking (wants reqs) (rr_pointer m) in
  accept_first reqs m = bool_decide (is_Some (asks !! 0%nat)) /\ accept_second reqs m = bool_decide (is_Some (asks !! 1%nat)).
Proof.
  intros Hp asks. destruct walkers_accepted as (_ & _ & Hq0 & Hq1).
  pose proof (asking_room reqs m (rr_pointer m) Hp (cr_once _ _ Hm)) as Hroom. fold asks in Hroom. pose proof (queues_under_way m) as Hq.
  pose proof (ring_size _ _ _ (qf_queue _ _ _ (queue_rep First m (cr_flow _ _ Hm)))) as Hn0.
  pose proof (ring_size _ _ _ (qf_queue _ _ _ (queue_rep Second m (cr_flow _ _ Hm)))) as Hn1. cbn [sfifo] in Hn0, Hn1.
  assert (H1 : accept_first reqs m = bool_decide (is_Some (asks !! 0%nat))).
  { unfold accept_first, fifo_in_full, first_to_fifo1. rewrite winners_asking, Hq0, Hq1, Hn0, Hn1. cbn [fst negb]. fold asks.
    destruct asks as [|a l]; [done|]. rewrite bool_decide_eq_true_2 by by eexists. cbn in Hroom.
    destruct (Z.ltb_spec (Z.of_nat (length (squeue Second m))) (Z.of_nat (length (squeue First m)))); lia. }
  split; [done|]. unfold accept_second. rewrite H1. unfold fifo_in_full, first_to_fifo1. rewrite winners_asking, Hq0, Hq1, Hn0, Hn1.
  cbn [snd negb]. fold asks. destruct asks as [|a [|a' l]]; [done..|]. rewrite !bool_decide_eq_true_2 by by eexists. cbn in Hroom.
  destruct (Z.ltb_spec (Z.of_nat (length (squeue Second m))) (Z.of_nat (length (squeue First m)))); lia.
Qed.

(** The side that gets the first request, which has the shorter queue. *)
Definition target : Side := if first_to_fifo1 m then Second else First.

(** What is written to a queue. *)
Lemma side_write s reqs : polite reqs m ->
  let asks := asking (wants reqs) (rr_pointer m) in
  swrite s reqs m = (if decide (s = target) then asks !! 0%nat else asks !! 1%nat) ≫= reqs.
Proof.
  intros Hp asks. destruct (first_accepted reqs Hp) as [H1 H2]. fold asks in H1, H2. destruct walkers_accepted as (_ & _ & Hq0 & Hq1).
  assert (Hsome : forall n i, asks !! n = Some i -> is_Some (reqs i)).
  { intros n i Hi. apply list_elem_of_lookup_2 in Hi. pose proof (asking_range _ _ _ Hi) as Hr.
    apply (asking_spec _ _ _ Hr) in Hi. by apply bool_decide_unpack in Hi. }
  pose proof (Hsome 0%nat) as Hs0. pose proof (Hsome 1%nat) as Hs1. clear Hsome.
  unfold swrite, fifo_in_wr0, fifo_in_wr1, entry_of, target. rewrite winners_asking, H1, H2, Hq0, Hq1. cbn [fst snd]. fold asks.
  assert (Hnone : asks !! 0%nat = None -> asks !! 1%nat = None) by (by destruct asks).
  destruct (asks !! 0%nat) as [i0|]; [destruct (Hs0 i0 eq_refl) as [r0 Hr0]|rewrite Hnone by done];
    (destruct (asks !! 1%nat) as [i1|]; [destruct (Hs1 i1 eq_refl) as [r1 Hr1]|]);
    destruct s, (first_to_fifo1 m); cbn; rewrite ?Hr0, ?Hr1; done.
Qed.

(** The queue after a clock edge. *)
Lemma side_queue s reqs : polite reqs m ->
  squeue s (mmu_next reqs m) =
    (if svalid s m then tail (squeue s m) else squeue s m) ++ from_option (fun r => [r]) [] (swrite s reqs m).
Proof.
  intros Hp. pose proof (qf_queue _ _ _ (queue_rep s m (cr_flow _ _ Hm))) as Hq.
  pose proof (ring_clock_rep 8 _ _ (bool_decide (is_Some (swrite s reqs m))) (default no_req (swrite s reqs m)) (svalid s m) Hq) as Hq'.
  unfold squeue at 1. rewrite side_fifo. apply ring_list_rep in Hq'. unfold in_fifo_clock, fifo_clock. rewrite Hq'. f_equal.
  destruct (swrite s reqs m) as [r|] eqn:Hw; [|done]. cbn. rewrite (proj2 (Z.ltb_lt _ _)); [done|].
  rewrite side_write in Hw by done. cbv zeta in Hw.
  pose proof (asking_room reqs m (rr_pointer m) Hp (cr_once _ _ Hm)) as Hroom. pose proof (queues_under_way m).
  assert (Ha : asking (wants reqs) (rr_pointer m) <> []) by (intros Hn; rewrite Hn in Hw; by destruct (decide (s = target))).
  destruct (asking _ _); [done|]. cbn in Hroom. destruct s; lia.
Qed.

(** The pointer moves behind the last one that is taken. *)
Lemma pointer_next reqs : polite reqs m ->
  let asks := asking (wants reqs) (rr_pointer m) in
  rr_pointer (mmu_next reqs m) =
    match asks with [] => rr_pointer m | [f] => (f + 1) mod 8 | _ :: s :: _ => (s + 1) mod 8 end.
Proof.
  intros Hp asks. destruct (first_accepted reqs Hp) as [H1 H2]. fold asks in H1, H2. cbn [mmu_next rr_pointer].
  unfold rr_pointer_next. rewrite winners_asking, H1, H2. fold asks. by destruct asks as [|f [|s l]].
Qed.

Lemma ready_spec reqs i : polite reqs m ->
  let asks := asking (wants reqs) (rr_pointer m) in
  req_ready reqs m i = bool_decide (asks !! 0%nat = Some i) || bool_decide (asks !! 1%nat = Some i).
Proof.
  intros Hp asks. destruct (first_accepted reqs Hp) as [H1 H2]. fold asks in H1, H2.
  unfold req_ready. rewrite winners_asking, H1, H2. cbn [fst snd]. fold asks.
  destruct asks as [|f [|s l]]; cbn; rewrite ?(bool_decide_eq_false_2 (None = Some _)) by done; done.
Qed.
End Crowd.

(** ** A clock edge *)

Lemma keys_after_other take r ks e : (take = true -> of_client r <> e) -> keys_after take r ks e = ks e.
Proof. intros He. destruct take; [|done]. apply take_key_other. intros ->. by apply He. Qed.

Lemma parts_after_other take r a q :
  (take = true -> partition_of (req_va r) <> q) ->
  alloc_page_avail (parts_after take r a) q = alloc_page_avail a q /\
  alloc_node_avail (parts_after take r a) q = alloc_node_avail a q /\
  partition_full (parts_after take r a) q = partition_full a q.
Proof.
  intros Hq. destruct take; [|done]. cbn. unfold alloc_page_avail, alloc_node_avail.
  destruct (advance_other (partition_of (req_va r)) a q) as (-> & -> & ->); [|done]. intros ->. by apply Hq.
Qed.

Lemma table_after_other take r a pt r' :
  (take = true -> of_client r <> of_client r') -> table_after take r a pt (pt_key (req_va r')) = pt (pt_key (req_va r')).
Proof.
  intros Hr. destruct take; [|done]. cbn. apply ram_set_ne. rewrite !req_key. specialize (Hr eq_refl).
  pose proof (half_low r) as (? & ? & _). pose proof (half_low r') as (? & ? & _). lia.
Qed.

(** What a walker knows depends on the keys of its client only. *)
Lemma walks_same ks ks' pt pt' w r rdata :
  ks' (of_client r) = ks (of_client r) -> pt' (pt_key (req_va r)) = pt (pt_key (req_va r)) ->
  walks ks pt w r rdata -> walks ks' pt' w r rdata.
Proof.
  intros Hk Ht [Hl Ha Hd Hf]. assert (Hkeys : keys_of ks' r = keys_of ks r) by (unfold keys_of; by rewrite Hk).
  split; rewrite ?Hkeys, ?Ht; try done. intros Hs. unfold has_slot. rewrite Hkeys. by apply Hd.
Qed.

Lemma walks_idle ks pt w r rdata : wk_state w = W_IDLE -> walks ks pt w r rdata.
Proof. intros Hs. split; rewrite Hs; done. Qed.

(** The keys after a clock edge. *)
Definition keys_next (ks : Keys) (m : Mmu) : Keys :=
  keys_after (salloc Second m) (spipe Second m) (keys_after (salloc First m) (spipe First m) ks).

Lemma more_next ks m : more ks (keys_next ks m).
Proof.
  unfold keys_next. trans (keys_after (salloc First m) (spipe First m) ks).
  - destruct (salloc First m); [apply more_take|done].
  - destruct (salloc Second m); [apply more_take|done].
Qed.

Section Next.
Variables (ks : Keys) (m : Mmu) (reqs : Z -> option VReq).
Hypothesis Hm : crowd ks m.
Hypothesis Hp : polite reqs m.

Lemma busy_alloc s : salloc s m = true -> wk_busy (sptw s m) = true.
Proof. intros Ha. destruct (salloc_busy m s Ha) as [Hs _]. unfold wk_busy. by rewrite Hs. Qed.

Lemma both_alloc : salloc First m = true -> salloc Second m = true -> of_client (spipe First m) <> of_client (spipe Second m).
Proof.
  intros H0 H1. intros Heq. apply (other_client ks m Hm First (spipe First m) ltac:(left; by split; [apply busy_alloc|]) H1).
  by rewrite Heq.
Qed.

Lemma partitions_step :
  partitions_next m = parts_after (salloc Second m) (spipe Second m) (parts_after (salloc First m) (spipe First m) (partitions m)).
Proof. unfold partitions_next, ptw1_alloc_eff. rewrite (no_collision _ _ Hm), andb_true_r. done. Qed.

Lemma table_step :
  page_table_next m = table_after (salloc Second m) (spipe Second m) (partitions m)
    (table_after (salloc First m) (spipe First m) (partitions m) (page_table m)).
Proof.
  assert (Hkey : forall s, salloc s m = true ->
    pt_raddr (va_valid (sins s m)) (va (sins s m)) (sptw s m) = latched_key (sptw s m) /\
    latched_key (sptw s m) = pt_key (req_va (spipe s m))).
  { intros s Ha. split; [rewrite side_alloc in Ha; by eapply alloc_raddr|].
    apply (wl_alloc _ _ _ _ _ (cr_walks _ _ Hm s)). by apply (salloc_busy m s). }
  pose proof (Hkey First) as H0. pose proof (Hkey Second) as H1. cbn [salloc sins sptw spipe] in H0, H1.
  unfold page_table_next, ptw1_alloc_eff. rewrite (no_collision _ _ Hm), andb_true_r. unfold ptw0_pt_raddr, ptw1_pt_raddr. cbn [salloc spipe].
  destruct (ptw0_alloc m); [destruct (H0 eq_refl) as [-> ->]; rewrite Z.eqb_refl|];
    (destruct (ptw1_alloc m); [destruct (H1 eq_refl) as [-> ->]; rewrite Z.eqb_refl|]); done.
Qed.

Lemma first_step s :
  all_allocated (keys_after (salloc s m) (spipe s m) ks) (parts_after (salloc s m) (spipe s m) (partitions m))
    (table_after (salloc s m) (spipe s m) (partitions m) (page_table m)) /\
  walks (keys_after (salloc s m) (spipe s m) ks) (table_after (salloc s m) (spipe s m) (partitions m) (page_table m))
    (sptw s (mmu_next reqs m)) (spipe s (mmu_next reqs m)) (srdata s (mmu_next reqs m)).
Proof.
  rewrite side_ptw, side_rdata, side_pipe, side_alloc. destruct (side_va s m) as [Hv Hva].
  destruct (walks_step _ _ _ _ _ _ _ (cr_alloc _ _ Hm) (cr_walks _ _ Hm s) (side_walk_of s m)
    (if svalid s m then rd_data (sfifo s m) else spipe s m)) as [Hw Ha]; [|by rewrite Hv; destruct (svalid s m)|done].
  by rewrite Hv, Hva; destruct (svalid s m).
Qed.

Lemma alloc_next : all_allocated (keys_next ks m) (partitions (mmu_next reqs m)) (page_table (mmu_next reqs m)).
Proof.
  cbn [mmu_next partitions page_table]. rewrite partitions_step, table_step. unfold keys_next.
  destruct (first_step First) as [Ha _]. destruct (salloc Second m) eqn:H1; [|done]. cbn [keys_after parts_after table_after].
  set (r := spipe Second m) in *. set (p := partition_of (req_va r)).
  assert (Hne : salloc First m = true -> partition_of (req_va (spipe First m)) <> p).
  { intros H0. pose proof (both_alloc H0 H1). fold r in H. unfold p. rewrite !req_partition.
    pose proof (half_low r) as (? & _). pose proof (half_low (spipe First m)) as (? & _). lia. }
  destruct (parts_after_other _ _ (partitions m) p Hne) as (Hpg & Hnd & Hfull).
  destruct (salloc_busy m Second H1) as [Hs _]. destruct (wl_alloc _ _ _ _ _ (cr_walks _ _ Hm Second) Hs) as [_ Hin].
  assert (Hk : keys_of (keys_after (salloc First m) (spipe First m) ks) r = keys_of ks r).
  { unfold keys_of. rewrite keys_after_other; [done|]. intros H0. exact (both_alloc H0 H1). }
  destruct (take_allocated _ _ _ r Ha) as (_ & _ & _ & Ha'); [by rewrite Hk| |].
  - fold p. rewrite Hfull. rewrite side_alloc in H1. apply alloc_spec in H1 as [_ Hav].
    rewrite (wi_avail _ _ _ _ _ (side_walk_of Second m)) in Hav. by apply negb_true_iff in Hav.
  - cbv zeta in Ha'. fold p in Ha'. rewrite Hpg, Hnd in Ha'. exact Ha'.
Qed.

(** The other walker leaves the request of this side alone. *)
Lemma other_side s :
  wk_state (sptw s (mmu_next reqs m)) <> W_IDLE -> salloc (other s) m = true ->
  of_client (spipe (other s) m) <> of_client (spipe s (mmu_next reqs m)).
Proof.
  intros Hb Ha. apply (other_client ks m Hm s); [|done]. rewrite side_pipe. destruct (svalid s m) eqn:Hv; [by right|left].
  split; [|done]. unfold wk_busy. apply negb_true_iff, bool_decide_eq_false. intros Hi. apply Hb. rewrite side_ptw.
  unfold walker_clock, wn_state. cbn. rewrite Hi. by rewrite (proj1 (side_va s m)), Hv.
Qed.

Lemma walks_next s :
  walks (keys_next ks m) (page_table (mmu_next reqs m)) (sptw s (mmu_next reqs m)) (spipe s (mmu_next reqs m)) (srdata s (mmu_next reqs m)).
Proof.
  destruct (decide (wk_state (sptw s (mmu_next reqs m)) = W_IDLE)) as [Hi|Hb]; [by apply walks_idle|].
  pose proof (other_side s Hb) as Ho. destruct (first_step s) as [_ Hw]. eapply walks_same; [..|exact Hw].
  - unfold keys_next. destruct s; cbn [other] in Ho; [by apply keys_after_other|].
    destruct (salloc Second m); cbn [keys_after]; [|by apply keys_after_other].
    unfold take_key. by destruct (_ =? _); [|apply keys_after_other]; rewrite ?(keys_after_other (salloc First m)).
  - cbn [mmu_next page_table]. rewrite table_step. destruct s; cbn [other] in Ho; [by apply table_after_other|].
    destruct (salloc Second m); cbn [table_after]; [|by apply table_after_other].
    unfold ram_set. destruct (_ =? _); [done|by apply table_after_other].
Qed.

(** The walkers that are done give their requests to their lanes. *)
Definition enters0 (b : Z) : bool := ptw0_accept m && (bank_id_reg (ptw0 m) =? b).
Definition enters1 (b : Z) : bool := ptw1_accept m && (bank_id_reg (ptw1 m) =? b).

Lemma enters_room b :
  enters0 b && (Z.of_nat (length (ring_list 4 (queue (lanes m b)))) <? 4) = enters0 b /\
  enters1 b && (Z.of_nat (length (ring_list 4 (queue (lanes m b)))) + (if enters0 b then 1 else 0) <? 4) = enters1 b.
Proof. pose proof (lane_length ks m Hm b). destruct (enters0 b), (enters1 b); split; cbn; lia. Qed.

Lemma lane_step b :
  lanes (mmu_next reqs m) b =
    lane_clock (enters0 b) (walked_entry (walked0 m)) (enters1 b) (walked_entry (walked1 m)) (banks m b) (lanes m b) /\
  banks (mmu_next reqs m) b = bank_clock b (lane_port (lanes m b) (banks m b)) (banks m b).
Proof. cbn [mmu_next lanes banks]. unfold lanes_next, banks_next. by rewrite !four_eq. Qed.

Lemma enters_slot b :
  (enters0 b = true -> has_slot ks (ptw0_pipe m) (pa_reg (ptw0 m)) b) /\
  (enters1 b = true -> has_slot ks (ptw1_pipe m) (pa_reg (ptw1 m)) b).
Proof.
  destruct (walkers_accepted ks m Hm) as (H0 & H1 & _). unfold enters0, enters1. rewrite H0, H1.
  split; intros [Hs%bool_decide_eq_true <-%Z.eqb_eq]%andb_true_iff.
  - exact (wl_done _ _ _ _ _ (cr_walks _ _ Hm First) Hs).
  - exact (wl_done _ _ _ _ _ (cr_walks _ _ Hm Second) Hs).
Qed.

Lemma lane_after b : lane_work (keys_next ks m) b (lanes (mmu_next reqs m) b) (banks (mmu_next reqs m) b).
Proof.
  destruct (lane_step b) as [-> ->]. destruct (enters_room b) as [Hr0 Hr1]. destruct (enters_slot b) as [Hs0 Hs1].
  eapply lane_more; [apply more_next|]. exact (lane_work_next ks b (lanes m b) (banks m b) (enters0 b) (enters1 b)
    (walked_entry (walked0 m)) (walked_entry (walked1 m)) (cr_lane _ _ Hm b) Hr0 Hr1 (partitions m) (page_table m) (cr_alloc _ _ Hm) Hs0 Hs1).
Qed.

(** *** Still one request each *)

Lemma accepted_clients : map client (accepted reqs m) = take 2 (asking (wants reqs) (rr_pointer m)).
Proof.
  destruct (first_accepted ks m Hm reqs Hp) as [H1 H2]. set (asks := asking (wants reqs) (rr_pointer m)) in *.
  assert (Hentry : forall n i, asks !! n = Some i -> client (req_va (entry_of reqs (Some i))) = i).
  { intros n i Hi. apply list_elem_of_lookup_2 in Hi. pose proof (asking_range _ _ _ Hi) as Hr.
    apply (asking_spec _ _ _ Hr) in Hi. apply bool_decide_unpack in Hi as [r Hr']. unfold entry_of. cbn. rewrite Hr'. by apply (Hp i r). }
  unfold accepted. rewrite H1, H2, winners_asking. fold asks. cbn [fst snd].
  destruct asks as [|i [|j l]] eqn:Ha; cbn; [done|by rewrite (Hentry 0%nat i eq_refl)|].
  by rewrite (Hentry 0%nat i eq_refl), (Hentry 1%nat j eq_refl).
Qed.

Lemma conserves_clients :
  let asks := asking (wants reqs) (rr_pointer m) in
  map client (under_way (mmu_next reqs m)) ++ map client (answered m) ++ map client (failed m) ≡ₚ
    map client (under_way m) ++ take 2 asks /\
  NoDup (map client (under_way m) ++ take 2 asks).
Proof.
  intros asks. pose proof (flow_conserves reqs m (cr_flow _ _ Hm)) as Hc. apply (Permutation_map client) in Hc. rewrite !map_app in Hc.
  rewrite accepted_clients in Hc. split; [exact Hc|]. pose proof (asking_apart reqs m (rr_pointer m) Hp (cr_once _ _ Hm)) as Hn. fold asks in Hn.
  rewrite <- (take_drop 2 asks) in Hn. apply (NoDup_app (map client (under_way m) ++ take 2 asks) (drop 2 asks)).
  eapply NoDup_Permutation_proper; [|exact Hn]. solve_Permutation.
Qed.

Lemma once_next : NoDup (map client (under_way (mmu_next reqs m))).
Proof. destruct conserves_clients as [Hc Hn]. rewrite <- Hc in Hn. by apply NoDup_app in Hn as [Hn _]. Qed.

Lemma crowd_next : crowd (keys_next ks m) (mmu_next reqs m).
Proof. split; [by apply flowing_next, Hm|apply alloc_next|apply walks_next|apply lane_after|apply once_next]. Qed.
End Next.

Lemma crowd_reset : crowd (fun _ _ => []) mmu_reset.
Proof.
  split.
  - apply flowing_reset.
  - intros e He. split; cbn; intros; try (by rewrite lookup_nil in *); try set_solver; try constructor; try done. lia.
  - intros []; by apply walks_idle.
  - intros b. split; [exists []; split; by try apply ring_reset_rep|constructor|done].
  - constructor.
Qed.

(** ** The engines do not meet in memory *)

Lemma polite_crowd reqs n :
  (forall k, (k < n)%nat -> polite (reqs k) (mmu_at reqs k)) -> exists ks, crowd ks (mmu_at reqs n).
Proof.
  induction n as [|n IH]; intros Hp; [eexists; exact crowd_reset|]. destruct IH as [ks Hks]; [auto|].
  eexists. by apply crowd_next; [|apply Hp; lia].
Qed.

(** C19: whatever the eight clients ask for, together and as often as they like: in every
state that the MMU reaches, no two keys have the same valid entry of the page table, and a
bank only ever works on a slot of its own pages that belongs to the engine and the side of
the book of its request.  And as long as no client asks for the nodes of another one, or
while a request of its own is under way, as the engines do, no two nodes ever share a slot:
two requests that a bank works on at one page and node, at whatever times, are for the
same node.  Clients that ask for two nodes at a time can make two nodes share one, when
both walkers take a slot in the same cycle. *)
Theorem mmu_protects reqs n :
  (forall k k', 0 <= k < 2 ^ 14 -> 0 <= k' < 2 ^ 14 -> lookup_valid_bit (page_table (mmu_at reqs n) k) = true ->
     page_table (mmu_at reqs n) k = page_table (mmu_at reqs n) k' -> k = k') /\
  (forall b r, at_bank b (mmu_at reqs n) = Some r ->
     let p := partition_of (req_va r) in
     exists page node, 15 * p <= page < 15 * p + 15 /\ 0 <= node < 64 /\ page / 60 = b /\
       bank_slot b (mmu_at reqs n) = (page mod 60, node)) /\
  ((forall k, (k < n)%nat -> polite (reqs k) (mmu_at reqs k)) ->
   forall n' b r r', (n' <= n)%nat -> at_bank b (mmu_at reqs n) = Some r -> at_bank b (mmu_at reqs n') = Some r' ->
     bank_slot b (mmu_at reqs n) = bank_slot b (mmu_at reqs n') -> pt_key (req_va r) = pt_key (req_va r')).
Proof.
  destruct (reach_guarded _ (mmu_at_reach reqs n)) as [[c Ht] _ Hl]. split; [apply (tb_once _ _ _ Ht)|]. split.
  - intros b r. by apply bank_in_part with (own := anybody).
  - intros Hp n' b r r'. apply slot_one_node. intros k Hk. destruct (polite_crowd reqs k) as [ks Hks]; [intros; apply Hp; lia|].
    exact (no_collision ks _ Hks).
Qed.

(** The clients 0 and 1 write their first bid, and then the client 0 reads it. *)
Definition two_ask (n : nat) : Z -> option VReq := fun i =>
  if Nat.eqb n 0 && ((i =? 0) || (i =? 1)) then Some (mkVReq (make_va MAX_HEAP i 64) true 5)
  else if Nat.eqb n 14 && (i =? 0) then Some (mkVReq (make_va MAX_HEAP i 64) false 0) else None.

Lemma two_polite n : polite (two_ask n) (mmu_at two_ask n).
Proof.
  intros i r Hr. unfold two_ask at 1 in Hr. destruct (Nat.eqb_spec n 0) as [->|]; [|destruct (Nat.eqb_spec n 14) as [->|]; [|done]].
  - destruct (Z.eqb_spec i 0) as [->|]; [|destruct (Z.eqb_spec i 1) as [->|]; [|done]]; injection Hr as <-;
      (split; [done|apply not_elem_of_nil]).
  - destruct (Z.eqb_spec i 0) as [->|]; [|done]. injection Hr as <-. split; [done|].
    vm_compute. intros Hin. apply list_elem_of_singleton in Hin. discriminate.
Qed.

(** The bank 0 works on the slot for both. *)
Lemma mmu_protects_witness :
  (forall k, (k < 18)%nat -> polite (two_ask k) (mmu_at two_ask k)) /\
  at_bank 0 (mmu_at two_ask 18) = Some (mkVReq 0 false 0) /\ at_bank 0 (mmu_at two_ask 5) = Some (mkVReq 0 true 5) /\
  bank_slot 0 (mmu_at two_ask 18) = bank_slot 0 (mmu_at two_ask 5) /\
  forall n' b r r', (n' <= 18)%nat -> at_bank b (mmu_at two_ask 18) = Some r -> at_bank b (mmu_at two_ask n') = Some r' ->
    bank_slot b (mmu_at two_ask 18) = bank_slot b (mmu_at two_ask n') -> pt_key (req_va r) = pt_key (req_va r').
Proof.
  split; [intros k _; exact (two_polite k)|]. do 3 (split; [vm_compute; reflexivity|]).
  exact (proj2 (proj2 (mmu_protects two_ask 18)) (fun k _ => two_polite k)).
Defined.
