(* ===== verification/HwPlaces.v ===== *)
(** * HwPlaces: where a request is

The places of the MMU that hold a request ([Place]), the request that each of them
holds, and how long it takes from there to the answer, at most ([distance]).  When no
client asks twice, the place of a client's request is the only one with an address of
that client ([place_unique]). *)
From S2P Require Import Prelude HwHeap HwTiers HwAccess HwRing HwTurn HwWalk HwBank HwMmu HwSlots HwGuard HwFlow HwShared HwCrowd.

#[local] Arguments client : simpl never.

(** In a queue of requests, with a walker, in the queue of a bank, in the bank, in the
response buffer. *)
Inductive Place :=
| AtQueue (s : Side) (p : nat)
| AtWalker (s : Side)
| AtLane (b : Z) (p : nat)
| AtBank (b : Z) (p : nat)
| AtBuffer (b : Z).

#[export] Instance Place_eq_dec : EqDecision Place.
Proof. solve_decision. Defined.

Definition bank_queue (m : Mmu) (b : Z) : list BankReq := ring_list 4 (queue (lanes m b)).
Definition bank_vas (m : Mmu) (b : Z) : list Z := ring_list 8 (va_fifo (lanes m b)).

(** The address that a place holds. *)
Definition place_va (m : Mmu) (x : Place) : Z :=
  match x with
  | AtQueue s p => default 0 (map req_va (squeue s m) !! p)
  | AtWalker s => req_va (spipe s m)
  | AtLane b p => default 0 (map br_va (bank_queue m b) !! p)
  | AtBank b p => default 0 (bank_vas m b !! p)
  | AtBuffer b => resp_buf_va (lanes m b)
  end.

Definition when {A} (b : bool) (x : A) : list A := if b then [x] else [].

Definition side_places (s : Side) (m : Mmu) : list Place :=
  map (AtQueue s) (seq 0 (length (squeue s m))) ++ when (wk_busy (sptw s m)) (AtWalker s).
Definition lane_places (b : Z) (m : Mmu) : list Place :=
  map (AtLane b) (seq 0 (length (bank_queue m b))) ++ map (AtBank b) (seq 0 (length (bank_vas m b))) ++
  when (resp_buf_valid (lanes m b)) (AtBuffer b).

Definition places (m : Mmu) : list Place :=
  side_places First m ++ side_places Second m ++ lane_places 0 m ++ lane_places 1 m ++ lane_places 2 m ++ lane_places 3 m.

Lemma map_positions {A} (d : A) (l : list A) : map (fun p => default d (l !! p)) (seq 0 (length l)) = l.
Proof.
  apply list_eq. intros j. rewrite list_lookup_fmap. destruct (l !! j) as [x|] eqn:Hj.
  - pose proof (lookup_lt_Some _ _ _ Hj). rewrite lookup_seq_lt by done. cbn. by rewrite Hj.
  - apply lookup_ge_None in Hj. by rewrite lookup_seq_ge.
Qed.

Lemma side_places_va s m :
  map (place_va m) (side_places s m) = map req_va (squeue s m) ++ in_walker (sptw s m) (spipe s m).
Proof.
  unfold side_places, in_walker, when. rewrite map_app, map_map. cbn [place_va].
  rewrite <- (length_map req_va (squeue s m)), map_positions. by destruct (wk_busy _).
Qed.

Lemma lane_places_va b m : map (place_va m) (lane_places b m) = lane_vas (lanes m b).
Proof.
  unfold lane_places, lane_vas, in_buffer, when. rewrite !map_app, !map_map. cbn [place_va].
  rewrite <- (length_map br_va (bank_queue m b)), !map_positions. by destruct (resp_buf_valid _).
Qed.

Lemma places_va m : map (place_va m) (places m) = under_way m.
Proof. unfold places, under_way. rewrite !map_app, !side_places_va, !lane_places_va. unfold each_lane. by rewrite <- !app_assoc. Qed.

(** ** Which places hold a request *)

Lemma elem_of_when {A} (b : bool) (x y : A) : x ∈ when b y <-> b = true /\ x = y.
Proof. destruct b; cbn; set_solver. Qed.

Lemma elem_of_positions {A} (f : nat -> A) n x : x ∈ map f (seq 0 n) <-> exists p, x = f p /\ (p < n)%nat.
Proof. rewrite list_elem_of_fmap. split; intros (p & -> & Hp); exists p; (split; [done|]); [apply elem_of_seq in Hp; lia|apply elem_of_seq; lia]. Qed.

Lemma place_side s m x : x ∈ side_places s m -> x ∈ places m.
Proof. unfold places. rewrite !elem_of_app. destruct s; auto. Qed.

Lemma place_lane b m x : 0 <= b < 4 -> x ∈ lane_places b m -> x ∈ places m.
Proof.
  intros Hb. unfold places. rewrite !elem_of_app. assert (Hc : b = 0 \/ b = 1 \/ b = 2 \/ b = 3) by lia.
  destruct Hc as [->|[->|[->| ->]]]; auto 10.
Qed.

Lemma place_queue s p r m : squeue s m !! p = Some r -> AtQueue s p ∈ places m /\ place_va m (AtQueue s p) = req_va r.
Proof.
  intros Hp. split; [|cbn; by rewrite list_lookup_fmap, Hp]. apply (place_side s), elem_of_app. left.
  apply elem_of_positions. exists p. split; [done|by eapply lookup_lt_Some].
Qed.

Lemma place_walker s m : wk_busy (sptw s m) = true -> AtWalker s ∈ places m.
Proof. intros Hb. apply (place_side s), elem_of_app. right. by apply elem_of_when. Qed.

Lemma place_in_lane b p x m :
  0 <= b < 4 -> bank_queue m b !! p = Some x -> AtLane b p ∈ places m /\ place_va m (AtLane b p) = req_va (br_req x).
Proof.
  intros Hb Hp. split; [|cbn; by rewrite list_lookup_fmap, Hp]. apply (place_lane b); [done|]. unfold lane_places. rewrite !elem_of_app. left.
  apply elem_of_positions. exists p. split; [done|by eapply lookup_lt_Some].
Qed.

Lemma place_bank b p v m : 0 <= b < 4 -> bank_vas m b !! p = Some v -> AtBank b p ∈ places m /\ place_va m (AtBank b p) = v.
Proof.
  intros Hb Hp. split; [|cbn; by rewrite Hp]. apply (place_lane b); [done|]. unfold lane_places. rewrite !elem_of_app. right. left.
  apply elem_of_positions. exists p. split; [done|by eapply lookup_lt_Some].
Qed.

Lemma place_buffer b m : 0 <= b < 4 -> resp_buf_valid (lanes m b) = true -> AtBuffer b ∈ places m.
Proof.
  intros Hb Hv. apply (place_lane b); [done|]. unfold lane_places. rewrite !elem_of_app. right. right. by apply elem_of_when.
Qed.

Lemma nodup_apart {A B} (f : A -> B) (l : list A) x y : NoDup (map f l) -> x ∈ l -> y ∈ l -> f x = f y -> x = y.
Proof.
  intros Hn [i Hi]%list_elem_of_lookup [j Hj]%list_elem_of_lookup Hf.
  assert (i = j) as -> by (eapply (NoDup_lookup (map f l)); [done|..]; rewrite list_lookup_fmap; [by rewrite Hi|by rewrite Hj; cbn; f_equal]).
  congruence.
Qed.

(** One place for each client. *)
Lemma place_unique ks m x y :
  crowd ks m -> x ∈ places m -> y ∈ places m -> client (place_va m x) = client (place_va m y) -> x = y.
Proof.
  intros Hm. apply (nodup_apart (fun x => client (place_va m x))). rewrite <- (map_map (place_va m) client), places_va. apply Hm.
Qed.

Lemma place_under_way m x : x ∈ places m -> client (place_va m x) ∈ map client (under_way m).
Proof. intros Hx. rewrite <- places_va, map_map. apply list_elem_of_fmap. by exists x. Qed.

(** ** How far it is *)

(** How long a walker takes for its request. *)
Definition walk_wait (w : Walker) : nat :=
  match wk_state w with W_IDLE => 0 | W_LOOKUP => 3 | W_ALLOCATE => 2 | W_DONE | W_FAULT => 1 end.

(** How long a bank takes until it can be given the next request. *)
Definition bank_wait (l : Lane) (b : Bank) : nat :=
  match bank_state b with
  | B_IDLE => if resp_buf_valid l then 1 else 0
  | PHASE_0 => 4 | PHASE_1 => 3 | PHASE_2 => 2 | DONE_READ => 1
  end.

(** How long it takes until it answers. *)
Definition bank_left (b : Bank) : nat :=
  match bank_state b with B_IDLE => 2 | PHASE_0 => 6 | PHASE_1 => 5 | PHASE_2 => 4 | DONE_READ => 3 end.

Definition distance (m : Mmu) (x : Place) : nat :=
  match x with
  | AtQueue s p => 30 + 4 * p + walk_wait (sptw s m)
  | AtWalker s => 26 + walk_wait (sptw s m)
  | AtLane b p => 7 + 5 * p + bank_wait (lanes m b) (banks m b)
  | AtBank b _ => bank_left (banks m b)
  | AtBuffer _ => 1
  end.

(** The place of the client's request, and how many clock edges its answer is away, at
most; without a request, that is how long the next one will take. *)
Definition place_of (e : Z) (m : Mmu) : option Place := snd <$> list_find (fun x => client (place_va m x) = e) (places m).
Definition mmu_rank (e : Z) (m : Mmu) : nat :=
  match place_of e m with Some x => distance m x | None => 62 + Z.to_nat (before (rr_pointer m) e) end.

Lemma rank_place ks m x : crowd ks m -> x ∈ places m -> mmu_rank (client (place_va m x)) m = distance m x.
Proof.
  intros Hm Hx. unfold mmu_rank, place_of. destruct (list_find _ _) as [[i y]|] eqn:Hf; cbn.
  - apply list_find_Some in Hf as (Hi & Hy & _). apply list_elem_of_lookup_2 in Hi. by rewrite (place_unique ks m y x Hm Hi Hx Hy).
  - apply list_find_None in Hf. rewrite Forall_forall in Hf. by destruct (Hf x Hx).
Qed.

Lemma rank_free e m : e ∉ map client (under_way m) -> mmu_rank e m = (62 + Z.to_nat (before (rr_pointer m) e))%nat.
Proof.
  intros He. unfold mmu_rank, place_of. destruct (list_find _ _) as [[i y]|] eqn:Hf; [|done].
  apply list_find_Some in Hf as (Hi & Hy & _). apply list_elem_of_lookup_2 in Hi. destruct He. rewrite <- Hy. by apply place_under_way.
Qed.
