(* ===== verification/HwShelf.v ===== *)
(** * HwShelf: the nodes of one client among those of the others

What a clock edge of the MMU does to the nodes of one client ([stored]) while the others
use theirs: a bank that works for another client leaves them alone. *)
From S2P Require Import Prelude HwHeap HwTiers HwAccess HwRing HwTurn HwWalk HwBank HwMmu HwSlots HwStore HwGuard HwFlow HwShared HwCrowd HwPlaces.

#[local] Ltac Zify.zify_post_hook ::= Z.to_euclidean_division_equations.
#[local] Arguments client : simpl never.
#[local] Arguments bram_word : simpl never.
#[local] Arguments cat : simpl never.

(** ** A clock edge of a bank *)

Lemma rams_step reqs m b : rams (mmu_next reqs m) b = brams_next (banks m b).
Proof. unfold rams. cbn [mmu_next banks]. unfold banks_next. by rewrite four_eq. Qed.

(** The bank [b] writes the word [n] of the node of [r'], at the slot [j']. *)
Record writing (ks : Keys) (m : Mmu) (b : Z) (r' : VReq) (j' : nat) (n : Z) : Prop := {
  wg_word : phase_word (bank_state (banks m b)) = Some n;
  wg_range : 0 <= n < 3;
  wg_list : bank_vas m b = [req_va r'];
  wg_works : works ks b (banks m b) r' j'
}.

Lemma rams_next ks m reqs b :
  crowd ks m ->
  rams (mmu_next reqs m) b = rams m b \/
  exists r' j' n, writing ks m b r' j' n /\
    rams (mmu_next reqs m) b = write_word (rams m) (req_page r' j') (node_of j') n (bram_word (req_wdata r') n) b.
Proof.
  intros Hm. rewrite rams_step. unfold brams_next. destruct (phase_word (bank_state (banks m b))) as [n|] eqn:Hw; [|by left].
  destruct (latched_is_write (banks m b)); [right|by left].
  assert (Hs : bank_state (banks m b) <> B_IDLE /\ 0 <= n < 3) by (destruct (bank_state _); try done; injection Hw as <-; split; done || lia).
  destruct Hs as [Hs Hn]. destruct (lw_works _ _ _ _ (cr_lane _ _ Hm b) Hs) as (r' & j' & Hl & Hr). exists r', j', n.
  split; [by split|]. destruct Hr as [_ <- _ Hpg Hnd Hd]. unfold write_word, bram_word_addr, rams. by rewrite ram_set_eq, Hpg, Hnd, Hd.
Qed.

Section Shelf.
Variable e : Z.
Hypothesis He : 0 <= e < 8.

Lemma page_bank h j : 0 <= h <= 1 -> (j < 960)%nat -> page_of e h j / 60 = e / 2.
Proof. unfold page_of. lia. Qed.

(** The nodes of the client are in the slots of its pages. *)
Lemma stored_slots ks R R' w a pt :
  allocated e ks a pt ->
  (forall h j i, 0 <= h <= 1 -> (j < 960)%nat -> 0 <= i < 3 ->
     word_at R' (page_of e h j) (node_of j) i = word_at R (page_of e h j) (node_of j) i) ->
  stored e ks R w -> stored e ks R' w.
Proof.
  intros Ha HR [Hk Hs Hz]. split; [|intros h j i Hh Hj Hi; rewrite HR by lia; by apply Hs|exact Hz].
  intros h j x i Hh Hj Hi. pose proof (al_len _ _ _ _ Ha h Hh). pose proof (lookup_lt_Some _ _ _ Hj). rewrite HR by lia. by apply Hk.
Qed.

Lemma stored_bank ks R R' w a pt :
  allocated e ks a pt -> R' (e / 2) = R (e / 2) -> stored e ks R w -> stored e ks R' w.
Proof. intros Ha HR. apply (stored_slots _ _ _ _ _ _ Ha). intros. unfold word_at. by rewrite page_bank, HR. Qed.

(** Another client's node is written. *)
Lemma stored_other ks R w a pt r' j' n d :
  allocated e ks a pt -> of_client r' <> e -> (j' < 960)%nat -> 0 <= n < 3 ->
  stored e ks R w -> stored e ks (write_word R (req_page r' j') (node_of j') n d) w.
Proof.
  intros Ha Hr Hj Hn. apply (stored_slots _ _ _ _ _ _ Ha). intros h j i Hh Hjj Hi. apply write_word_other; [done|done|].
  intros [= Hp _ _]. pose proof (half_low r') as (? & _). unfold req_page, page_of in Hp. lia.
Qed.

(** No bank works on a request of the client. *)
Definition bank_free (m : Mmu) : Prop :=
  forall b p, AtBank b p ∈ places m -> client (place_va m (AtBank b p)) <> e.

Lemma stored_quiet ks m reqs w :
  crowd ks m -> bank_free m -> stored e (ks e) (rams m) w -> stored e (ks e) (rams (mmu_next reqs m)) w.
Proof.
  intros Hm Hb Hs. pose proof (cr_alloc _ _ Hm e He) as Ha.
  destruct (rams_next ks m reqs (e / 2) Hm) as [HR|(r' & j' & n & [Hw Hn Hl Hr] & HR)].
  - by apply (stored_bank _ (rams m) _ _ _ _ Ha).
  - apply (stored_bank _ (write_word (rams m) (req_page r' j') (node_of j') n (bram_word (req_wdata r') n)) _ _ _ _ Ha HR).
    destruct (place_bank (e / 2) 0 (req_va r') m) as [Hin Hva]; [lia|by rewrite Hl|]. specialize (Hb _ _ Hin). rewrite Hva in Hb.
    destruct (slot_range _ _ _ _ _ (cr_alloc _ _ Hm) (ws_slot _ _ _ _ _ Hr)) as (_ & _ & _ & Hj'). by apply (stored_other _ _ _ _ _ _ _ _ _ Ha).
Qed.

(** The client's own node is written. *)
Lemma stored_written ks m reqs r c j n :
  crowd ks m -> of_client r = e -> writing ks m (e / 2) r j n -> req_wr r = true ->
  stored e (ks e) (rams m) (mixed c r n) -> stored e (ks e) (rams (mmu_next reqs m)) (mixed c r (n + 1)).
Proof.
  intros Hm Hc Hw Hwr Hs. pose proof (cr_alloc _ _ Hm e He) as Ha. destruct Hw as [Hph Hn Hl Hr].
  pose proof (ws_slot _ _ _ _ _ Hr) as Hj. unfold keys_of in Hj. rewrite Hc in Hj.
  eapply stored_bank; [exact Ha| |exact (stored_write e He (ks e) _ _ _ c r n j Ha Hn Hwr Hj Hs)].
  rewrite rams_step. unfold brams_next. rewrite Hph. destruct Hr as [_ Hb Hlw Hpg Hnd Hd]. unfold req_page in Hb, Hpg. rewrite Hc in Hb, Hpg.
  rewrite Hlw, Hwr. unfold write_word, bram_word_addr, rams. by rewrite Hb, ram_set_eq, Hpg, Hnd, Hd.
Qed.

(** What a read finds. *)
Lemma words_read ks m r c j n i :
  crowd ks m -> of_client r = e -> works ks (e / 2) (banks m (e / 2)) r j -> req_wr r = false -> 0 <= i < 3 ->
  stored e (ks e) (rams m) (mixed c r n) ->
  brams (banks m (e / 2)) (latched_page (banks m (e / 2))) (bram_word_addr (banks m (e / 2)) i) = bram_word (c (va_key (req_va r))) i.
Proof.
  intros Hm Hc [Hj Hb _ Hpg Hnd _] Hwr Hi Hs. unfold keys_of, req_page in *. rewrite Hc in *.
  rewrite <- (stored_word e (ks e) _ c r n j i Hwr Hj Hi Hs). unfold word_at, bram_word_addr, rams. by rewrite Hb, Hpg, Hnd.
Qed.

(** *** The keys *)

(** No walker takes a slot for the client. *)
Definition walker_free (m : Mmu) : Prop := forall s, salloc s m = true -> of_client (spipe s m) <> e.

Lemma salloc_place s m : salloc s m = true -> AtWalker s ∈ places m /\ wk_state (sptw s m) = W_ALLOCATE.
Proof. rewrite side_alloc. intros [Hs _]%alloc_spec. split; [|done]. apply place_walker. unfold wk_busy. by rewrite Hs. Qed.

Lemma keys_quiet ks m : walker_free m -> keys_next ks m e = ks e.
Proof.
  intros Hw. unfold keys_next. by rewrite !keys_after_other by apply Hw.
Qed.

Lemma keys_taken ks m s r :
  crowd ks m -> salloc s m = true -> spipe s m = r -> of_client r = e -> keys_next ks m e = add_key (ks e) (half r) (low r).
Proof.
  intros Hm Ha Hr Hc. destruct (salloc_place s m Ha) as [Hp _].
  assert (Ho : forall s', s' <> s -> salloc s' m = true -> of_client (spipe s' m) <> e).
  { intros s' Hne Ha' Hc'. apply Hne. destruct (salloc_place s' m Ha') as [Hp' _].
    pose proof (place_unique ks m _ _ Hm Hp' Hp) as Hu. cbn in Hu. rewrite Hr in Hu. unfold of_client in *.
    specialize (Hu ltac:(congruence)). congruence. }
  assert (Htake : forall ks', take_key r ks' e = add_key (ks' e) (half r) (low r)) by (intros; rewrite <- Hc; apply take_key_same).
  unfold keys_next. destruct s; rewrite Ha, Hr.
  - rewrite (keys_after_other (salloc Second m)) by (by apply Ho). apply Htake.
  - cbn [keys_after]. rewrite Htake. by rewrite keys_after_other by (by apply Ho).
Qed.
End Shelf.
