(* ===== verification/HwStage.v ===== *)
(** * HwStage: a request on its way

The stages of one client's request on its way through the MMU, while the others use it
too: each clock edge brings it to a next stage, which is closer to the answer, until the
bank answers ([stage_step]). *)
From S2P Require Import Prelude HwHeap HwTiers HwAccess HwRing HwTurn HwWalk HwBank HwMmu HwSlots HwStore HwGuard HwFlow HwShared HwCrowd HwPlaces HwShelf.

#[local] Arguments client : simpl never.
#[local] Arguments bram_word : simpl never.
#[local] Arguments field : simpl never.
#[local] Arguments cat : simpl never.
#[local] Arguments computed_pa : simpl never.
#[local] Arguments mmu_next : simpl never.

(** What a bank shows at the end: a node that was read, or that it has written. *)
Definition shows_out (out : option Z) (b : Bank) : Prop :=
  match out with
  | Some d => mem_rdata_valid b = true /\ mem_rdata b = d
  | None => mem_rdata_valid b = false /\ mem_wdone b = true
  end.

Definition phase_no (st : Bstate) : Z :=
  match st with B_IDLE | PHASE_0 => 0 | PHASE_1 => 1 | PHASE_2 => 2 | DONE_READ => 3 end.

(** The low 64 bits of a register after its next word has come. *)
Lemma assemble_low w0 hi : 0 <= w0 < 2 ^ 32 -> field (cat hi 32 w0) 0 32 = w0.
Proof. intros Hw. rewrite field_cat_low by lia. by apply (field_whole w0 32). Qed.

Lemma assemble_mid w0 w1 hi :
  0 <= w0 < 2 ^ 32 -> 0 <= w1 < 2 ^ 32 -> field (cat (cat hi 32 w1) 32 w0) 0 64 = cat w1 32 w0.
Proof.
  intros H0 H1. pose proof (cat_bound w1 32 w0 32 ltac:(lia) ltac:(lia) H0 H1) as Hc.
  rewrite <- (field_whole (cat w1 32 w0) 64) by done. apply Z.bits_inj'. intros i Hi.
  rewrite !testbit_field by lia. destruct (Z.ltb_spec i 64); [|done]. cbn [andb]. rewrite !Z.add_0_r, !(cat_testbit _ 32 w0) by lia.
  destruct (Z.ltb_spec i 32); [done|]. rewrite cat_testbit by lia. by replace (i - 32 <? 32) with true by lia.
Qed.

Section Request.
Variable e : Z.
Hypothesis He : 0 <= e < 8.
Variables (r : VReq) (c : Z -> Z).
Hypothesis Hr : asks e r.

Lemma client_of_request : client (req_va r) = e.
Proof. apply (asks_client _ _ Hr). Qed.

(** The node that is read, and the answer. *)
Definition wanted : Z := c (va_key (req_va r)).
Definition answer : option Z := if req_wr r then None else Some wanted.

(** What a read has got so far. *)
Definition gathered (b : Bank) : Prop :=
  match bank_state b with
  | B_IDLE | PHASE_0 => True
  | PHASE_1 => active_rdata b = bram_word wanted 0
  | PHASE_2 => active_rdata b = bram_word wanted 1 /\ field (read_assemble b) 0 32 = bram_word wanted 0
  | DONE_READ => active_rdata b = bram_word wanted 2 /\
      field (read_assemble b) 0 64 = cat (bram_word wanted 1) 32 (bram_word wanted 0)
  end.

(** The request is at a place, and so many of its words are written. *)
Inductive stage (ks : Keys) (m : Mmu) : Place -> Z -> Prop :=
| at_queue s p : squeue s m !! p = Some r -> stage ks m (AtQueue s p) 0
| at_walker s : wk_busy (sptw s m) = true -> spipe s m = r -> stage ks m (AtWalker s) 0
| at_lane b p x : 0 <= b < 4 -> bank_queue m b !! p = Some x -> br_req x = r -> stage ks m (AtLane b p) 0
| at_bank b j :
    0 <= b < 4 -> bank_vas m b = [req_va r] -> bank_state (banks m b) <> B_IDLE -> works ks b (banks m b) r j ->
    (req_wr r = false -> gathered (banks m b)) -> stage ks m (AtBank b 0) (phase_no (bank_state (banks m b)))
| at_out b :
    0 <= b < 4 -> b = e / 2 -> bank_vas m b = [req_va r] -> bank_state (banks m b) = B_IDLE -> shows_out answer (banks m b) ->
    stage ks m (AtBank b 0) 3
| at_buffer b :
    0 <= b < 4 -> resp_buf_valid (lanes m b) = true -> resp_buf_va (lanes m b) = req_va r ->
    resp_buf_data (lanes m b) = default 0 answer -> stage ks m (AtBuffer b) 3.

(** The request is the only one of the client, and the client's nodes are in the banks. *)
Record serves (ks : Keys) (m : Mmu) (x : Place) (n : Z) : Prop := {
  sv_crowd : crowd ks m;
  sv_stage : stage ks m x n;
  sv_stored : stored e (ks e) (rams m) (mixed c r n);
  sv_within : within (ks e)
}.

Definition closer (d : nat) (m : Mmu) : Prop := exists ks x n, serves ks m x n /\ (distance m x < d)%nat.

Lemma stage_place ks m x n : stage ks m x n -> x ∈ places m /\ place_va m x = req_va r.
Proof.
  intros [s p Hp|s Hb <-|b p y Hb Hp <-|b j Hb Hl _ _ _|b Hb _ Hl _ _|b Hb Hv Hva _].
  - by apply place_queue.
  - split; [by apply place_walker|done].
  - by apply place_in_lane.
  - apply place_bank; [done|by rewrite Hl].
  - apply place_bank; [done|by rewrite Hl].
  - split; [by apply place_buffer|done].
Qed.

Lemma walker_stage ks m s n : stage ks m (AtWalker s) n -> n = 0 /\ spipe s m = r.
Proof. by inversion 1. Qed.

Lemma buffer_stage ks m b n :
  stage ks m (AtBuffer b) n ->
  n = 3 /\ 0 <= b < 4 /\ resp_buf_valid (lanes m b) = true /\ resp_buf_va (lanes m b) = req_va r /\
  resp_buf_data (lanes m b) = default 0 answer.
Proof. by inversion 1. Qed.

(** Nothing of the client elsewhere. *)
Lemma stage_elsewhere ks m x n y : serves ks m x n -> y ∈ places m -> client (place_va m y) = e -> y = x.
Proof.
  intros [Hm Hs _ _] Hy Hc. destruct (stage_place _ _ _ _ Hs) as [Hx Hva].
  apply (place_unique ks m); [done..|]. by rewrite Hva, client_of_request.
Qed.

Lemma free_bank ks m x n : serves ks m x n -> (forall b p, x <> AtBank b p) -> bank_free e m.
Proof. intros Hs Hx b p Hb Hc. by apply (Hx b p), eq_sym, (stage_elsewhere ks m x n). Qed.

Lemma free_walker ks m x n : serves ks m x n -> (forall s, x <> AtWalker s) -> walker_free e m.
Proof. intros Hs Hx s [Hb _]%salloc_place Hc. by apply (Hx s), eq_sym, (stage_elsewhere ks m x n). Qed.

Section Step.
Variables (ks : Keys) (m : Mmu) (reqs : Z -> option VReq).
Hypothesis Hp : polite reqs m.
Let m' := mmu_next reqs m.

(** The next stage, when the keys stay as they are. *)
Lemma stage_next x n x' n' :
  serves ks m x n -> (forall s, x <> AtWalker s) -> stage (keys_next ks m) m' x' n' ->
  stored e (ks e) (rams m') (mixed c r n') -> (distance m' x' < distance m x)%nat -> closer (distance m x) m'.
Proof.
  intros Hs Hx Hx' Hst Hd. exists (keys_next ks m), x', n'. split; [|done]. pose proof Hs as [Hm _ _ Hw].
  pose proof (keys_quiet e ks m (free_walker _ _ _ _ Hs Hx)) as Hk. split; [by apply crowd_next|done|by rewrite Hk|by rewrite Hk].
Qed.

(** *** In a queue *)

Lemma walk_step s :
  wk_state (sptw s m') = wn_state (sins s m) (sptw s m) /\ spipe s m' = if svalid s m then rd_data (sfifo s m) else spipe s m.
Proof. unfold m'. by rewrite side_ptw, side_pipe. Qed.

(** A walker comes closer to its next request. *)
Lemma wait_less s : wk_busy (sptw s m) = true -> (walk_wait (sptw s m') < walk_wait (sptw s m))%nat.
Proof.
  intros Hb. unfold walk_wait. rewrite (proj1 (walk_step s)). unfold wn_state, wk_busy in *.
  destruct (wk_state (sptw s m)); [done|destruct (lookup_valid_bit _)|destruct (alloc_avail _)|..]; lia.
Qed.

Lemma queue_next s p :
  serves ks m (AtQueue s p) 0 -> squeue s m !! p = Some r -> closer (30 + 4 * p + walk_wait (sptw s m)) m'.
Proof.
  intros Hs Hq. pose proof Hs as [Hm _ Hst _].
  assert (Hq' : svalid s m = false -> squeue s m' !! p = Some r).
  { intros Hv. unfold m'. rewrite (side_queue ks m Hm s reqs Hp), Hv. by apply lookup_app_l_Some. }
  assert (Hst' : stored e (ks e) (rams m') (mixed c r 0)).
  { exact (stored_quiet e He ks m reqs _ Hm (free_bank _ _ _ _ Hs ltac:(done)) Hst). }
  assert (Hto : forall x', stage (keys_next ks m) m' x' 0 -> (distance m' x' < 30 + 4 * p + walk_wait (sptw s m))%nat ->
    closer (30 + 4 * p + walk_wait (sptw s m)) m').
  { intros x' Hx' Hd. by apply (stage_next (AtQueue s p) 0 x' 0). }
  destruct (svalid s m) eqn:Hv.
  - destruct (svalid_spec ks m Hm s Hv) as [Hi [l Hl]]. rewrite Hl in Hq.
    assert (Hlook : wk_state (sptw s m') = W_LOOKUP).
    { rewrite (proj1 (walk_step s)). unfold wn_state. by rewrite Hi, (proj1 (side_va s m)), Hv. }
    destruct p as [|p].
    + injection Hq as Hq. apply (Hto (AtWalker s)); [|cbn; unfold walk_wait; rewrite Hlook, Hi; lia].
      apply at_walker; [unfold wk_busy; by rewrite Hlook|]. by rewrite (proj2 (walk_step s)), Hv.
    + apply (Hto (AtQueue s p)); [|cbn; unfold walk_wait; rewrite Hlook, Hi; lia].
      apply at_queue. unfold m'. rewrite (side_queue ks m Hm s reqs Hp), Hv, Hl. by apply lookup_app_l_Some.
  - apply (Hto (AtQueue s p)); [by apply at_queue, Hq'|]. cbn [distance].
    assert (Hb : wk_busy (sptw s m) = true).
    { rewrite side_takes in Hv. pose proof (qf_queue _ _ _ (queue_rep s m (cr_flow _ _ Hm))) as Hrep. fold (squeue s m) in Hrep.
      rewrite (ring_empty_rep _ _ _ Hrep) in Hv. destruct (squeue s m); [done|]. cbn in Hv. by destruct (wk_busy _). }
    pose proof (wait_less s Hb). lia.
Qed.

(** *** With a walker *)

(** The walker of a client that has room finds a slot. *)
Lemma walker_allocates s :
  serves ks m (AtWalker s) 0 -> spipe s m = r -> wk_state (sptw s m) = W_ALLOCATE -> salloc s m = true.
Proof.
  intros [Hm _ _ Hw] Hpipe Hs. destruct (wl_alloc _ _ _ _ _ (cr_walks _ _ Hm s) Hs) as [_ Hin]. rewrite side_alloc.
  apply alloc_spec. split; [done|]. rewrite (wi_avail _ _ _ _ _ (side_walk_of s m)). apply negb_true_iff.
  rewrite Hpipe, req_partition in *. unfold keys_of, of_client in *. rewrite client_of_request in *. pose proof (half_low r) as (Hh & Hl & _).
  pose proof (room_for e He _ _ _ (half r) (low r) (cr_alloc _ _ Hm e He) Hw Hh (conj (proj1 Hl) (asks_low _ _ Hr)) Hin).
  rewrite (al_full _ _ _ _ (cr_alloc _ _ Hm e He) _ Hh). apply bool_decide_eq_false. lia.
Qed.

Lemma no_fault s : serves ks m (AtWalker s) 0 -> spipe s m = r -> wk_state (sptw s m) <> W_FAULT.
Proof.
  intros [Hm _ _ Hw] Hpipe Hs. destruct (wl_fault _ _ _ _ _ (cr_walks _ _ Hm s) Hs) as [Hin Hlen].
  rewrite Hpipe in *. unfold keys_of, of_client in *. rewrite client_of_request in *. pose proof (half_low r) as (Hh & Hl & _).
  pose proof (room_for e He _ _ _ (half r) (low r) (cr_alloc _ _ Hm e He) Hw Hh (conj (proj1 Hl) (asks_low _ _ Hr)) Hin). lia.
Qed.

(** What the client's keys and nodes are after an edge of its walker. *)
Lemma walker_stored s :
  serves ks m (AtWalker s) 0 -> spipe s m = r ->
  stored e (keys_next ks m e) (rams m') (mixed c r 0) /\ within (keys_next ks m e).
Proof.
  intros Hs Hpipe. pose proof Hs as [Hm _ Hst Hw].
  pose proof (stored_quiet e He ks m reqs _ Hm (free_bank _ _ _ _ Hs ltac:(done)) Hst) as Hst'.
  destruct (salloc s m) eqn:Ha.
  - rewrite (keys_taken e ks m s r Hm Ha Hpipe client_of_request). destruct (salloc_place s m Ha) as [_ Hal].
    destruct (wl_alloc _ _ _ _ _ (cr_walks _ _ Hm s) Hal) as [_ Hin]. rewrite Hpipe in Hin. unfold keys_of, of_client in Hin. rewrite client_of_request in Hin.
    pose proof (half_low r) as (Hh & Hl & _). pose proof (asks_low _ _ Hr) as Hlow. split; [|by apply within_add].
    apply stored_add; [done..| |done]. exact (room_for e He _ _ _ (half r) (low r) (cr_alloc _ _ Hm e He) Hw Hh (conj (proj1 Hl) Hlow) Hin).
  - rewrite keys_quiet; [done|]. intros s' Ha' Hc. destruct (salloc_place s' m Ha') as [Hin _].
    pose proof (stage_elsewhere _ _ _ _ _ Hs Hin Hc) as [= ->]. congruence.
Qed.

(** Where the arbiter puts the request. *)
Lemma bank_queue_next b :
  crowd ks m -> bank_queue m' b =
    (if dispatch (lanes m b) (banks m b) then tail (bank_queue m b) else bank_queue m b) ++
    (if enters0 m b then [walked_entry (walked0 m)] else []) ++ (if enters1 m b then [walked_entry (walked1 m)] else []).
Proof.
  intros Hm. unfold bank_queue at 1. unfold m'. rewrite (proj1 (lane_step m reqs b)). destruct (enters_room ks m Hm b) as [H0 H1].
  exact (lane_queue_next ks b (lanes m b) (banks m b) _ _ _ _ (cr_lane _ _ Hm b) H0 H1).
Qed.

Lemma lane_enters s :
  crowd ks m -> wk_state (sptw s m) = W_DONE ->
  exists p x, bank_queue m' (bank_id_reg (sptw s m)) !! p = Some x /\ br_req x = spipe s m.
Proof.
  intros Hm Hd. set (b := bank_id_reg (sptw s m)). destruct (walkers_accepted ks m Hm) as (H0 & H1 & _).
  enough (Hin : mkBankReq (spipe s m) (pa_reg (sptw s m)) ∈ bank_queue m' b).
  { apply list_elem_of_lookup in Hin as [p Hin]. by eexists p, _. }
  rewrite bank_queue_next by done. unfold enters0, enters1. rewrite H0, H1, !elem_of_app. right. unfold b.
  destruct s; cbn [sptw spipe] in *; rewrite (bool_decide_eq_true_2 _ Hd), Z.eqb_refl; [left|right]; by apply list_elem_of_singleton.
Qed.

Lemma walker_next s :
  serves ks m (AtWalker s) 0 -> wk_busy (sptw s m) = true -> spipe s m = r -> closer (26 + walk_wait (sptw s m)) m'.
Proof.
  intros Hs Hb Hpipe. pose proof Hs as [Hm _ _ _]. destruct (walker_stored s Hs Hpipe) as [Hst Hw].
  assert (Hto : forall x', stage (keys_next ks m) m' x' 0 -> (distance m' x' < 26 + walk_wait (sptw s m))%nat ->
    closer (26 + walk_wait (sptw s m)) m').
  { intros x' Hx' Hd. exists (keys_next ks m), x', 0. split; [|done]. split; [by apply crowd_next|done..]. }
  assert (Hv : svalid s m = false) by (rewrite side_takes, Hb; by rewrite andb_false_r).
  destruct (walk_step s) as [Hstate Hpipe']. rewrite Hv, Hpipe in Hpipe'.
  destruct (wk_busy (sptw s m')) eqn:Hb'.
  - apply (Hto (AtWalker s)); [by apply at_walker|]. cbn. pose proof (wait_less s Hb). lia.
  - assert (Hd : wk_state (sptw s m) = W_DONE).
    { pose proof (no_fault s Hs Hpipe). unfold wk_busy in *. rewrite Hstate in Hb'. unfold wn_state in Hb'.
      destruct (wk_state (sptw s m)); [done|destruct (lookup_valid_bit _)|destruct (alloc_avail _)|..]; done. }
    destruct (lane_enters s Hm Hd) as (p & x & Hpx & Hx). rewrite Hpipe in Hx.
    pose proof (wl_done _ _ _ _ _ (cr_walks _ _ Hm s) Hd) as Hslot. apply (slot_bank _ _ _ _ _ _ (cr_alloc _ _ Hm)) in Hslot.
    pose proof (client_range (req_va (spipe s m))) as Hc. fold (of_client (spipe s m)) in Hc.
    apply (Hto (AtLane (bank_id_reg (sptw s m)) p)).
    + apply at_lane with x; [rewrite Hslot; split; [apply Z.div_pos; lia|apply Z.div_lt_upper_bound; lia]|done|done].
    + cbn. pose proof (lane_length _ _ (crowd_next ks m reqs Hm Hp) (bank_id_reg (sptw s m))) as Hl. apply lookup_lt_Some in Hpx.
      unfold bank_queue, m' in *. assert (bank_wait (lanes (mmu_next reqs m) (bank_id_reg (sptw s m))) (banks (mmu_next reqs m) (bank_id_reg (sptw s m))) <= 4)%nat
        by (unfold bank_wait; destruct (bank_state _); [destruct (resp_buf_valid _)|..]; lia).
      unfold walk_wait. rewrite Hd. lia.
Qed.

(** *** In the lane of a bank *)

Lemma lane_eq b :
  banks m' b = bank_clock b (lane_port (lanes m b) (banks m b)) (banks m b) /\
  resp_buf_valid (lanes m' b) = va_pop (lanes m b) (banks m b).
Proof. unfold m'. destruct (lane_step m reqs b) as [-> ->]. done. Qed.

Lemma bank_state_after b :
  bank_state (banks m' b) =
    match bank_state (banks m b) with
    | B_IDLE => if dispatch (lanes m b) (banks m b) then PHASE_0 else B_IDLE
    | PHASE_0 => PHASE_1 | PHASE_1 => PHASE_2
    | PHASE_2 => if latched_is_write (banks m b) then B_IDLE else DONE_READ | DONE_READ => B_IDLE
    end.
Proof. rewrite (proj1 (lane_eq b)). apply bank_state_next. Qed.

Lemma bank_vas_after b :
  crowd ks m -> bank_vas m' b =
    if dispatch (lanes m b) (banks m b) then [req_va (br_req (rd_data (queue (lanes m b))))]
    else if va_pop (lanes m b) (banks m b) then [] else bank_vas m b.
Proof.
  intros Hm. unfold bank_vas, m'. rewrite (proj1 (lane_step m reqs b)).
  exact (lane_vas_next ks b (lanes m b) (banks m b) _ _ _ _ (cr_lane _ _ Hm b)).
Qed.

(** A request that is not given to the bank waits for less. *)
Lemma bank_wait_less b p x :
  crowd ks m -> bank_queue m b !! p = Some x -> dispatch (lanes m b) (banks m b) = false ->
  (bank_wait (lanes m' b) (banks m' b) < bank_wait (lanes m b) (banks m b))%nat.
Proof.
  intros Hm Hx Hd. destruct (lw_flow _ _ _ _ (cr_lane _ _ Hm b)) as [vs [Hq Hv Hb]]. unfold bank_wait. rewrite bank_state_after, Hd, (proj2 (lane_eq b)).
  assert (Hpop : bank_state (banks m b) <> B_IDLE -> va_pop (lanes m b) (banks m b) = false).
  { intros Hs. by apply (busy_no_pop ks b (lanes m b) (banks m b) (cr_lane _ _ Hm b) Hs). }
  unfold dispatch, mem_busy in Hd. rewrite (ring_empty_rep _ _ _ Hq), (ring_size _ _ _ Hv) in Hd. unfold bank_queue in Hx.
  unfold bank_flow in Hb. destruct (bank_state (banks m b)); [|rewrite ?Hpop by done..].
  - destruct (ring_list 4 (queue (lanes m b))); [done|]. unfold va_pop. destruct (resp_buf_valid (lanes m b)); [rewrite andb_false_r; lia|].
    destruct (mem_rdata_valid (banks m b) || mem_wdone (banks m b)); [destruct Hb as [[v ->] _]; done|by subst].
  - lia.
  - lia.
  - destruct (latched_is_write _); lia.
  - lia.
Qed.

Lemma in_lane_next b p x :
  serves ks m (AtLane b p) 0 -> 0 <= b < 4 -> bank_queue m b !! p = Some x -> br_req x = r ->
  closer (7 + 5 * p + bank_wait (lanes m b) (banks m b)) m'.
Proof.
  intros Hs Hb Hx Hxr. pose proof Hs as [Hm _ Hst _]. pose proof (bank_queue_next b Hm) as Hnext.
  pose proof (stored_quiet e He ks m reqs _ Hm (free_bank _ _ _ _ Hs ltac:(done)) Hst) as Hst'.
  assert (Hto : forall x', stage (keys_next ks m) m' x' 0 -> (distance m' x' < distance m (AtLane b p))%nat ->
    closer (distance m (AtLane b p)) m') by (intros x' Hx' Hd; by apply (stage_next (AtLane b p) 0 x' 0)).
  cbn [distance] in Hto. destruct (dispatch (lanes m b) (banks m b)) eqn:Hd.
  - pose proof (dispatch_head ks b (lanes m b) (banks m b) false false (cr_lane _ _ Hm b) eq_refl eq_refl Hd) as (y & qs & Hq & Hy & Hi).
    assert (Hbusy : bank_state (banks m' b) = PHASE_0) by (by rewrite bank_state_after, Hi, Hd).
    unfold bank_queue in Hx. rewrite Hq in Hx. destruct p as [|p].
    + injection Hx as ->. destruct (bank_takes ks b (lanes m b) (banks m b) false false (cr_lane _ _ Hm b) eq_refl eq_refl _ _ (cr_alloc _ _ Hm) Hd) as [j Hj].
      rewrite Hy, Hxr, <- (proj1 (lane_eq b)) in Hj. apply (Hto (AtBank b 0)); [|cbn; unfold bank_left; rewrite Hbusy; lia].
      pose proof (at_bank (keys_next ks m) m' b j Hb) as Hin. rewrite Hbusy in Hin. apply Hin; [|done| |].
      * by rewrite bank_vas_after, Hd, Hy, Hxr.
      * exact (works_more _ _ _ _ _ _ (more_next ks m) Hj).
      * intros _. unfold gathered. by rewrite Hbusy.
    + apply (Hto (AtLane b p)); [|cbn; unfold bank_wait; rewrite Hbusy; lia].
      apply at_lane with x; [done| |done]. rewrite Hnext. unfold bank_queue. rewrite Hq. by apply lookup_app_l_Some.
  - apply (Hto (AtLane b p)); [|cbn; pose proof (bank_wait_less b p x Hm Hx Hd); lia].
    apply at_lane with x; [done| |done]. rewrite Hnext. by apply lookup_app_l_Some.
Qed.

(** *** In the bank *)

(** The banks of the client are not written. *)
Lemma stored_still w :
  crowd ks m -> phase_word (bank_state (banks m (e / 2))) = None \/ latched_is_write (banks m (e / 2)) = false ->
  stored e (ks e) (rams m) w -> stored e (ks e) (rams m') w.
Proof.
  intros Hm Hw. apply (stored_bank e He (ks e) (rams m) (rams m') w _ _ (cr_alloc _ _ Hm e He)). unfold m'. rewrite rams_step. unfold brams_next.
  destruct Hw as [-> | ->]; [done|]. by destruct (phase_word _).
Qed.

Lemma works_bank b bk j : crowd ks m -> works ks b bk r j -> b = e / 2.
Proof.
  intros Hm [Hj <- _ _ _ _]. destruct (slot_range _ _ _ _ _ (cr_alloc _ _ Hm) Hj) as (_ & _ & -> & _).
  unfold of_client. by rewrite client_of_request.
Qed.

(** The bank goes on. *)
Lemma bank_goes_on b j :
  crowd ks m -> bank_vas m b = [req_va r] -> bank_state (banks m b) <> B_IDLE -> works ks b (banks m b) r j ->
  bank_vas m' b = [req_va r] /\ works (keys_next ks m) b (banks m' b) r j /\ latched_is_write (banks m' b) = req_wr r.
Proof.
  intros Hm Hl Hi Hw. destruct (busy_no_pop ks b (lanes m b) (banks m b) (cr_lane _ _ Hm b) Hi) as [Hpop Hd].
  assert (Hw' : works (keys_next ks m) b (banks m' b) r j).
  { rewrite (proj1 (lane_eq b)). eapply works_more; [apply more_next|].
    exact (bank_keeps ks b (lanes m b) (banks m b) _ _ Hi Hw). }
  split; [by rewrite bank_vas_after, Hd, Hpop|]. split; [done|apply (ws_write _ _ _ _ _ Hw')].
Qed.

Lemma write_next b j :
  serves ks m (AtBank b 0) (phase_no (bank_state (banks m b))) -> 0 <= b < 4 -> bank_vas m b = [req_va r] ->
  bank_state (banks m b) <> B_IDLE -> works ks b (banks m b) r j -> req_wr r = true -> closer (bank_left (banks m b)) m'.
Proof.
  intros Hs Hb Hl Hi Hw Hwr. pose proof Hs as [Hm _ Hst _]. destruct (bank_goes_on b j Hm Hl Hi Hw) as (Hl' & Hw' & Hlw').
  destruct (lw_flow _ _ _ _ (cr_lane _ _ Hm b)) as [vs [_ _ Hf]]. pose proof (ws_write _ _ _ _ _ Hw) as Hlw. rewrite Hwr in Hlw, Hlw'.
  assert (Hph : phase_word (bank_state (banks m b)) = Some (phase_no (bank_state (banks m b)))).
  { unfold bank_flow in Hf. destruct (bank_state (banks m b)); try done. destruct Hf as (_ & _ & _ & Hf). rewrite Hf in Hlw by done. done. }
  assert (Hn : 0 <= phase_no (bank_state (banks m b)) < 3) by (destruct (bank_state _); try done; simpl; lia).
  assert (Hst' : stored e (ks e) (rams m') (mixed c r (phase_no (bank_state (banks m b)) + 1))).
  { apply (stored_written e He ks m reqs r c j); [done|apply client_of_request| |done|done].
    rewrite <- (works_bank b _ j Hm Hw). by split. }
  pose proof (bank_state_after b) as Hafter. rewrite Hlw in Hafter.
  assert (Hto : forall x' n', stage (keys_next ks m) m' x' n' -> n' = phase_no (bank_state (banks m b)) + 1 ->
    (distance m' x' < bank_left (banks m b))%nat -> closer (bank_left (banks m b)) m').
  { intros x' n' Hx' -> Hd. by apply (stage_next (AtBank b 0) (phase_no (bank_state (banks m b))) x' (phase_no (bank_state (banks m b)) + 1)). }
  destruct (decide (bank_state (banks m b) = PHASE_2)) as [H2|H2].
  - rewrite H2 in Hafter. apply (Hto (AtBank b 0) 3); [|by rewrite H2|cbn; unfold bank_left; rewrite Hafter, H2; lia].
    apply at_out; [done|by apply (works_bank b _ j Hm Hw)|done..|]. unfold answer. rewrite Hwr, (proj1 (lane_eq b)). cbn -[lane_port]. by rewrite H2, Hlw.
  - assert (Hi' : bank_state (banks m' b) <> B_IDLE /\ phase_no (bank_state (banks m' b)) = phase_no (bank_state (banks m b)) + 1 /\
      (bank_left (banks m' b) < bank_left (banks m b))%nat).
    { unfold bank_left. rewrite Hafter. destruct (bank_state (banks m b)); try done; (split; [done|split; [done|lia]]). }
    destruct Hi' as (Hi' & Hn' & Hd). eapply (Hto (AtBank b 0)); [|exact Hn'|exact Hd]. apply at_bank with j; [done..|]. by rewrite Hwr.
Qed.

Lemma gathered_next b j n :
  crowd ks m -> bank_state (banks m b) <> B_IDLE -> works ks b (banks m b) r j -> req_wr r = false ->
  stored e (ks e) (rams m) (mixed c r n) -> gathered (banks m b) -> gathered (banks m' b).
Proof.
  intros Hm Hi Hw Hrd Hst Hg. pose proof (works_bank b _ j Hm Hw) as ->. pose proof (ws_write _ _ _ _ _ Hw) as Hlw. rewrite Hrd in Hlw.
  pose proof (fun i Hi => words_read e ks m r c j n i Hm client_of_request Hw Hrd Hi Hst) as Hword. fold wanted in Hword.
  unfold gathered in *. rewrite bank_state_after, (proj1 (lane_eq (e / 2))). unfold active_rdata, bank_clock. cbv zeta.
  cbn [bram_out read_assemble latched_page]. rewrite (bool_decide_eq_false_2 _ Hi). cbn [andb].
  unfold bram_out_next, assemble_next. rewrite Hlw. pose proof (bram_word_bound wanted 0). pose proof (bram_word_bound wanted 1).
  destruct (bank_state (banks m (e / 2))); cbn; rewrite ?ram_set_eq; try done.
  - apply Hword. lia.
  - rewrite Hg. split; [apply Hword; lia|by apply assemble_low].
  - destruct Hg as [-> ->]. split; [apply Hword; lia|by apply assemble_mid].
Qed.

Lemma read_next b j :
  fits 86 wanted ->
  serves ks m (AtBank b 0) (phase_no (bank_state (banks m b))) -> 0 <= b < 4 -> bank_vas m b = [req_va r] ->
  bank_state (banks m b) <> B_IDLE -> works ks b (banks m b) r j -> req_wr r = false -> gathered (banks m b) ->
  closer (bank_left (banks m b)) m'.
Proof.
  intros Hfit Hs Hb Hl Hi Hw Hrd Hg. pose proof Hs as [Hm _ Hst _]. destruct (bank_goes_on b j Hm Hl Hi Hw) as (Hl' & Hw' & _).
  pose proof (ws_write _ _ _ _ _ Hw) as Hlw. rewrite Hrd in Hlw. pose proof (bank_state_after b) as Hafter. rewrite Hlw in Hafter.
  assert (Hst' : forall n', stored e (ks e) (rams m') (mixed c r n')).
  { intros n'. apply (mixed_read e _ _ _ _ (phase_no (bank_state (banks m b))) n' Hrd). apply stored_still; [done| |done].
    right. by rewrite <- (works_bank b _ j Hm Hw). }
  assert (Hto : forall x' n', stage (keys_next ks m) m' x' n' -> (distance m' x' < bank_left (banks m b))%nat -> closer (bank_left (banks m b)) m')
    by (intros x' n' Hx' Hd; by apply (stage_next (AtBank b 0) (phase_no (bank_state (banks m b))) x' n')).
  destruct (decide (bank_state (banks m b) = DONE_READ)) as [H3|H3].
  - rewrite H3 in Hafter. apply (Hto (AtBank b 0) 3); [|cbn; unfold bank_left; rewrite Hafter, H3; lia].
    apply at_out; [done|by apply (works_bank b _ j Hm Hw)|done..|]. unfold gathered in Hg. rewrite H3 in Hg. destruct Hg as [Hg1 Hg2].
    unfold answer. rewrite Hrd, (proj1 (lane_eq b)). cbn -[lane_port]. rewrite H3, Hlw. cbn. split; [done|]. by rewrite Hg1, Hg2, cat_words.
  - assert (Hi' : bank_state (banks m' b) <> B_IDLE /\ (bank_left (banks m' b) < bank_left (banks m b))%nat).
    { unfold bank_left. rewrite Hafter. destruct (bank_state (banks m b)); try done; (split; [done|lia]). }
    destruct Hi' as [Hi' Hd]. eapply (Hto (AtBank b 0)); [|exact Hd]. apply at_bank with j; [done..|]. intros _. by eapply gathered_next.
Qed.

(** The bank is done. *)
Lemma out_next b :
  serves ks m (AtBank b 0) 3 -> 0 <= b < 4 -> b = e / 2 -> bank_vas m b = [req_va r] -> bank_state (banks m b) = B_IDLE -> shows_out answer (banks m b) ->
  closer (bank_left (banks m b)) m'.
Proof.
  intros Hs Hb Hbe Hl Hi Ho. pose proof Hs as [Hm _ Hst _]. destruct (lw_flow _ _ _ _ (cr_lane _ _ Hm b)) as [vs [_ Hv Hf]].
  unfold bank_vas in Hl. rewrite (ring_list_rep _ _ _ Hv) in Hl. subst vs. unfold bank_flow in Hf. rewrite Hi in Hf.
  assert (Hout : mem_rdata_valid (banks m b) || mem_wdone (banks m b) = true).
  { destruct answer; cbn in Ho; destruct Ho as [Ho1 Ho2]; rewrite Ho1; [done|by rewrite Ho2]. }
  rewrite Hout in Hf. destruct Hf as [_ Hvalid]. assert (Hpop : va_pop (lanes m b) (banks m b) = true) by (unfold va_pop; by rewrite Hout, Hvalid).
  destruct (ring_read_rep _ _ _ _ Hv) as [Hrd _].
  assert (Hx' : stage (keys_next ks m) m' (AtBuffer b) 3).
  { apply at_buffer; [done|by rewrite (proj2 (lane_eq b))|..]; unfold m'; rewrite (proj1 (lane_step m reqs b)); cbn; rewrite Hpop; [done|].
    destruct answer; cbn in Ho; destruct Ho as [Ho1 Ho2]; by rewrite Ho1. }
  change (closer (distance m (AtBank b 0)) m').
  apply (stage_next (AtBank b 0) 3 _ 3 Hs ltac:(done) Hx'); [|cbn; unfold bank_left; rewrite Hi; lia].
  apply stored_still; [done|left; by rewrite <- Hbe, Hi|done].
Qed.

(** *** A clock edge *)

(** A request that is not shown yet comes closer. *)
Lemma stage_closer x n :
  fits 86 wanted -> serves ks m x n -> (forall b, x <> AtBuffer b) -> closer (distance m x) m'.
Proof.
  intros Hfit Hs Hx. pose proof (sv_stage _ _ _ _ Hs) as Hst. destruct Hst as [s p Hq|s Hb Hpipe|b p y Hb Hy Hyr|b j Hb Hl Hi Hw Hg|b Hb Hbe Hl Hi Ho|b _ _ _ _].
  - by apply queue_next.
  - by apply walker_next.
  - by apply in_lane_next with y.
  - destruct (req_wr r) eqn:Hwr; [by apply write_next with j|]. apply read_next with j; auto.
  - by apply out_next.
  - by destruct (Hx b).
Qed.
End Step.
End Request.

(** ** What the client sees *)

Section Seen.
Variable e : Z.
Hypothesis He : 0 <= e < 8.

(** An answer is shown when the buffer of a bank holds it. *)
Lemma shown_place ks m b :
  crowd ks m -> 0 <= b < 4 -> answers m e b = true <-> AtBuffer b ∈ places m /\ client (place_va m (AtBuffer b)) = e.
Proof.
  intros Hm Hb. unfold answers. rewrite andb_true_iff, Z.eqb_eq. cbn [place_va]. unfold client. split.
  - intros [Hv Hva]. split; [by apply place_buffer|done].
  - intros [Hin Hva]. split; [|done]. unfold places, side_places, lane_places, when in Hin. rewrite !elem_of_app in Hin.
    repeat match goal with H : _ \/ _ |- _ => destruct H as [H|H] end;
      try (apply elem_of_positions in Hin as (? & ? & _); done);
      try (destruct (wk_busy _); [apply list_elem_of_singleton in Hin|apply elem_of_nil in Hin]; done).
    all: destruct (resp_buf_valid (lanes m _)) eqn:Hv; [apply list_elem_of_singleton in Hin as [= ->]; done|by apply elem_of_nil in Hin].
Qed.

Lemma four_range b : b ∈ seqZ 0 4 -> 0 <= b < 4.
Proof. intros Hb. apply elem_of_seqZ in Hb. lia. Qed.

Lemma shows_nothing ks m :
  crowd ks m -> (forall b, AtBuffer b ∈ places m -> client (place_va m (AtBuffer b)) <> e) -> resp_valid m e = false.
Proof.
  intros Hm Hb. unfold resp_valid. apply not_true_is_false. intros (b & Hin & Ha)%existsb_exists.
  apply list_elem_of_In, four_range in Hin. apply (shown_place ks m b Hm Hin) in Ha as [Hp Hc]. by apply (Hb b).
Qed.

Lemma shows_one ks m b :
  crowd ks m -> 0 <= b < 4 -> AtBuffer b ∈ places m -> client (place_va m (AtBuffer b)) = e ->
  resp_valid m e = true /\ resp_data m e = resp_buf_data (lanes m b).
Proof.
  intros Hm Hb Hp Hc. assert (Ha : answers m e b = true) by (by apply (shown_place ks m b Hm Hb)).
  assert (Ho : forall b', 0 <= b' < 4 -> b' <> b -> answers m e b' = false).
  { intros b' Hb' Hne. apply not_true_is_false. intros [Hp' Hc']%(shown_place ks m b' Hm Hb').
    pose proof (place_unique ks m _ _ Hm Hp' Hp) as Hu. rewrite Hc, Hc' in Hu. specialize (Hu eq_refl). congruence. }
  unfold resp_valid, resp_data. change (seqZ 0 4) with [0; 1; 2; 3]. cbn [existsb foldl].
  assert (Hcases : b = 0 \/ b = 1 \/ b = 2 \/ b = 3) by lia.
  destruct Hcases as [->|[->|[->| ->]]]; rewrite Ha, ?(Ho 0), ?(Ho 1), ?(Ho 2), ?(Ho 3) by lia; done.
Qed.

(** A request is rejected when its walker has found no slot. *)
Lemma reject_place ks m :
  crowd ks m -> resp_reject m e = true ->
  exists s, AtWalker s ∈ places m /\ client (place_va m (AtWalker s)) = e /\ wk_state (sptw s m) = W_FAULT.
Proof.
  intros Hm. unfold resp_reject. rewrite (no_collision ks m Hm), orb_false_r, orb_true_iff, !andb_true_iff, !Z.eqb_eq.
  assert (Hf : forall s, fault_reg (sptw s m) = true -> wk_state (sptw s m) = W_FAULT /\ AtWalker s ∈ places m).
  { intros s. rewrite (qf_fault _ _ _ (queue_rep s m (cr_flow _ _ Hm))). intros Hs%bool_decide_eq_true. split; [done|].
    apply place_walker. unfold wk_busy. by rewrite Hs. }
  intros [[H0 Hc]|[H1 Hc]]; [exists First; destruct (Hf First H0)|exists Second; destruct (Hf Second H1)]; done.
Qed.

(** ** Nothing under way *)

(** The client has no request under way, and its memory holds [c]. *)
Record rests (c : Z -> Z) (ks : Keys) (m : Mmu) : Prop := {
  rs_crowd : crowd ks m;
  rs_none : e ∉ map client (under_way m);
  rs_stored : stored e (ks e) (rams m) (words_of c);
  rs_within : within (ks e)
}.

Lemma rests_nowhere c ks m x : rests c ks m -> x ∈ places m -> client (place_va m x) <> e.
Proof. intros Hs Hx Hc. apply (rs_none _ _ _ Hs). rewrite <- Hc. by apply place_under_way. Qed.

Lemma rests_silent c ks m : rests c ks m -> resp_valid m e = false /\ resp_reject m e = false.
Proof.
  intros Hs. split; [apply (shows_nothing ks); [apply Hs|]; intros b Hb; by eapply rests_nowhere|].
  apply not_true_is_false. intros (s & Hin & Hc & _)%(reject_place ks m (rs_crowd _ _ _ Hs)). by apply (rests_nowhere _ _ _ _ Hs Hin).
Qed.

(** What an edge leaves of the client's nodes. *)
Lemma rests_memory c ks m reqs :
  rests c ks m -> keys_next ks m e = ks e /\ stored e (ks e) (rams (mmu_next reqs m)) (words_of c).
Proof.
  intros Hs. split.
  - apply keys_quiet. intros s [Hin _]%salloc_place. by apply (rests_nowhere _ _ _ _ Hs Hin).
  - apply stored_quiet; [done|apply Hs| |apply Hs]. intros b p Hb. by apply (rests_nowhere _ _ _ _ Hs Hb).
Qed.

Lemma buffer_answered m b : 0 <= b < 4 -> resp_buf_valid (lanes m b) = true -> resp_buf_va (lanes m b) ∈ answered m.
Proof.
  intros Hb Hv. assert (Hin : resp_buf_va (lanes m b) ∈ in_buffer (lanes m b)) by (unfold in_buffer; rewrite Hv; left).
  unfold answered, each_lane. rewrite !elem_of_app. assert (Hc : b = 0 \/ b = 1 \/ b = 2 \/ b = 3) by lia.
  destruct Hc as [->|[->|[->| ->]]]; auto.
Qed.

(** A client that is answered or rejected has nothing under way in the next cycle. *)
Lemma seen_gone ks m reqs :
  crowd ks m -> polite reqs m -> resp_valid m e = true \/ resp_reject m e = true -> e ∉ map client (under_way (mmu_next reqs m)).
Proof.
  intros Hm Hp Hs. destruct (conserves_clients ks m reqs Hm Hp) as [Hc Hn]. rewrite <- Hc in Hn. apply NoDup_app in Hn as (_ & Hd & _).
  intros Hin. apply (Hd e Hin). apply elem_of_app. destruct Hs as [Hv|Hrj].
  - left. unfold resp_valid in Hv. apply existsb_exists in Hv as (b & Hb & Ha). apply list_elem_of_In, four_range in Hb.
    unfold answers in Ha. apply andb_true_iff in Ha as [Hv Ha%Z.eqb_eq]. apply list_elem_of_fmap. exists (resp_buf_va (lanes m b)).
    split; [done|by apply buffer_answered].
  - right. apply (reject_place ks m Hm) in Hrj as (s & _ & Hva & Hf). apply list_elem_of_fmap. exists (req_va (spipe s m)).
    split; [done|]. pose proof (qf_fault _ _ _ (queue_rep s m (cr_flow _ _ Hm))) as Hfr. rewrite Hf in Hfr.
    unfold failed, faulted. apply elem_of_app. destruct s; cbn in Hfr |- *; rewrite Hfr; [left|right]; by apply list_elem_of_singleton.
Qed.

(** A client that is not taken still has nothing under way. *)
Lemma none_next ks m reqs :
  crowd ks m -> polite reqs m -> e ∉ map client (under_way m) -> e ∉ take 2 (asking (wants reqs) (rr_pointer m)) ->
  e ∉ map client (under_way (mmu_next reqs m)).
Proof.
  intros Hm Hp Hnone Hn Hin. destruct (conserves_clients ks m reqs Hm Hp) as [Hc _].
  assert (Hin' : e ∈ map client (under_way m) ++ take 2 (asking (wants reqs) (rr_pointer m))).
  { rewrite <- Hc. apply elem_of_app. by left. }
  by apply elem_of_app in Hin' as [Hin'|Hin'].
Qed.

Lemma rests_next c ks m reqs :
  rests c ks m -> polite reqs m -> e ∉ take 2 (asking (wants reqs) (rr_pointer m)) -> rests c (keys_next ks m) (mmu_next reqs m).
Proof.
  intros Hs Hp Hn. destruct (rests_memory c ks m reqs Hs) as [Hk Hst].
  split; [apply crowd_next; [apply Hs|done]| |by rewrite Hk|rewrite Hk; apply Hs].
  apply (none_next ks); [apply Hs|done|apply Hs|done].
Qed.

Lemma idle_not_taken (reqs : Z -> option VReq) rr : reqs e = None -> e ∉ take 2 (asking (wants reqs) rr).
Proof.
  intros Hn Hin. assert (Ha : e ∈ asking (wants reqs) rr) by (eapply (elem_of_sublist _ _ _ Hin), sublist_take).
  apply (asking_spec _ _ _ He) in Ha. unfold wants in Ha. rewrite Hn in Ha. by apply bool_decide_unpack in Ha as [? ?].
Qed.

(** *** A request is taken *)

Lemma ready_taken ks m reqs :
  crowd ks m -> polite reqs m -> req_ready reqs m e = bool_decide (e ∈ take 2 (asking (wants reqs) (rr_pointer m))).
Proof.
  intros Hm Hp. rewrite (ready_spec ks m Hm reqs e Hp). cbv zeta. destruct (asking (wants reqs) (rr_pointer m)) as [|i [|j l]]; cbn.
  - done.
  - rewrite orb_false_r. apply bool_decide_ext. set_solver.
  - rewrite <- bool_decide_or. apply bool_decide_ext. set_solver.
Qed.

Section Taken.
Variables (r : VReq) (c : Z -> Z).
Hypothesis Hr : asks e r.

Lemma rests_take ks m reqs :
  rests c ks m -> polite reqs m -> reqs e = Some r -> req_ready reqs m e = true ->
  exists x, serves e r c (keys_next ks m) (mmu_next reqs m) x 0 /\ (distance (mmu_next reqs m) x < 62)%nat.
Proof.
  intros Hs Hp Hreq Hready. pose proof (rs_crowd _ _ _ Hs) as Hm. destruct (rests_memory c ks m reqs Hs) as [Hk Hst].
  assert (Hw : exists s, swrite s reqs m = Some r).
  { rewrite (ready_spec ks m Hm reqs e Hp) in Hready. apply orb_true_iff in Hready as [Ha%bool_decide_eq_true|Ha%bool_decide_eq_true].
    - exists (target m). rewrite (side_write ks m Hm _ reqs Hp). cbv zeta. rewrite decide_True by done. by rewrite Ha.
    - exists (other (target m)). rewrite (side_write ks m Hm _ reqs Hp). cbv zeta.
      rewrite decide_False by (by destruct (target m)). by rewrite Ha. }
  destruct Hw as [s Hw]. pose proof (crowd_next ks m reqs Hm Hp) as Hm'.
  pose proof (side_queue ks m Hm s reqs Hp) as Hq. rewrite Hw in Hq. cbn [from_option] in Hq.
  assert (Hin : r ∈ squeue s (mmu_next reqs m)) by (rewrite Hq; apply elem_of_app; right; by apply list_elem_of_singleton).
  apply list_elem_of_lookup in Hin as [p Hin]. exists (AtQueue s p). split.
  - split; [done|by apply at_queue|rewrite Hk; by apply mixed_start|rewrite Hk; apply Hs].
  - pose proof (ring_room _ _ _ (qf_queue _ _ _ (queue_rep s _ (cr_flow _ _ Hm')))). apply lookup_lt_Some in Hin.
    assert (walk_wait (sptw s (mmu_next reqs m)) <= 3)%nat by (unfold walk_wait; destruct (wk_state _); lia). cbn. lia.
Qed.

(** A client that is passed over is closer to its turn. *)
Lemma turn_next ks m reqs :
  rests c ks m -> polite reqs m -> reqs e = Some r -> req_ready reqs m e = false ->
  before (rr_pointer (mmu_next reqs m)) e < before (rr_pointer m) e.
Proof.
  intros Hs Hp Hreq Hready. pose proof (rs_crowd _ _ _ Hs) as Hm. rewrite (ready_spec ks m Hm reqs e Hp) in Hready.
  apply orb_false_iff in Hready as [H0%bool_decide_eq_false H1%bool_decide_eq_false].
  destruct (turn_comes (wants reqs) (rr_pointer m) e He) as [?|[?|(f & s & Hf & Hs2 & Hlt)]]; [|done|done|].
  { unfold wants. rewrite Hreq. by apply bool_decide_pack. }
  rewrite (pointer_next ks m Hm reqs Hp). cbv zeta. destruct (asking _ _) as [|f' [|s' l]]; [done|done|]. cbn in Hs2. by injection Hs2 as ->.
Qed.

(** *** The answer *)

Lemma answer_next ks m b reqs :
  serves e r c ks m (AtBuffer b) 3 -> 0 <= b < 4 -> resp_buf_valid (lanes m b) = true -> resp_buf_va (lanes m b) = req_va r ->
  polite reqs m -> rests (served r c) (keys_next ks m) (mmu_next reqs m).
Proof.
  intros Hs Hb Hv Hva Hp. pose proof Hs as [Hm _ Hst Hw]. pose proof (free_walker e r c Hr _ _ _ _ Hs ltac:(done)) as Hfw.
  destruct (conserves_clients ks m reqs Hm Hp) as [Hc Hn]. rewrite <- Hc in Hn.
  split; [by apply crowd_next| | |by rewrite (keys_quiet e ks m Hfw)].
  - intros Hin. apply NoDup_app in Hn as (_ & Hd & _). apply (Hd e Hin), elem_of_app. left. apply list_elem_of_fmap.
    exists (req_va r). split; [by rewrite (client_of_request e r Hr)|]. rewrite <- Hva. by apply buffer_answered.
  - rewrite (keys_quiet e ks m Hfw). apply mixed_end. apply stored_quiet; [done|done| |done]. by apply (free_bank e r c Hr _ _ _ _ Hs).
Qed.

(** A clock edge while the request is under way. *)
Lemma serves_step ks m x n reqs :
  fits 86 (wanted r c) -> serves e r c ks m x n -> polite reqs m ->
  resp_reject m e = false /\
  if resp_valid m e then
    rests (served r c) (keys_next ks m) (mmu_next reqs m) /\ (req_wr r = false -> resp_data m e = wanted r c)
  else closer e r c (distance m x) (mmu_next reqs m).
Proof.
  intros Hfit Hs Hp. pose proof (sv_crowd _ _ _ _ _ _ _ Hs) as Hm. split.
  { apply not_true_is_false. intros (s & Hin & Hc & Hf)%(reject_place ks m Hm).
    pose proof (stage_elsewhere e r c Hr _ _ _ _ _ Hs Hin Hc) as <-. destruct (walker_stage _ _ _ _ _ _ _ (sv_stage _ _ _ _ _ _ _ Hs)) as [-> Hpipe].
    by apply (no_fault e He _ c Hr ks m s). }
  assert (Hx : (exists b, x = AtBuffer b) \/ forall b, x <> AtBuffer b) by (destruct x; eauto). destruct Hx as [[b ->]|Hx].
  - pose proof (sv_stage _ _ _ _ _ _ _ Hs) as Hst. destruct (buffer_stage _ _ _ _ _ _ _ Hst) as (-> & Hb & Hv & Hva & Hd).
    destruct (stage_place e r c Hr _ _ _ _ Hst) as [Hin Hpva].
    destruct (shows_one ks m b Hm Hb Hin) as [Hvalid Hdata]; [rewrite Hpva; by apply client_of_request|]. rewrite Hvalid.
    split; [by apply answer_next with b|]. intros Hrd. rewrite Hdata, Hd. unfold answer. by rewrite Hrd.
  - rewrite (shows_nothing ks m Hm).
    + by apply (stage_closer e He r c Hr ks m reqs Hp x n).
    + intros b Hin Hc. apply (Hx b). symmetry. by apply (stage_elsewhere e r c Hr _ _ _ _ _ Hs).
Qed.
End Taken.
End Seen.
