(* ===== verification/HwPort.v ===== *)
(** * HwPort: the MMU behind the port of an engine

The MMU that an engine shares with seven other clients keeps the laws of the class
[MmuLaws] that the engine is proved against, whatever the others ask for and when, and
this without rejections and within 68 clock edges ([mmu_answers]). *)
From S2P Require Import Prelude HwHeap HwTiers HwAccess HwRing HwTurn HwWalk HwBank HwMmu HwSlots HwStore HwFlow HwShared HwCrowd HwPlaces HwShelf HwStage.

#[local] Arguments client : simpl never.
#[local] Arguments mmu_next : simpl never.
#[local] Arguments mmu_rank : simpl never.
#[local] Arguments req_ready : simpl never.

(** The MMU, and what the other clients will ask for. *)
Record Shared (e : Z) := mkShared { shared_mmu : Mmu; others : nat -> Z -> option VReq }.
Arguments mkShared {e} _ _.
Arguments shared_mmu {e} _.
Arguments others {e} _.

(** The requests of a cycle: [o] of the client [e]; the others ask for nodes of their own,
and not while a request of theirs is under way. *)
Definition offers {e} (o : option VReq) (v : Shared e) (j : Z) : option VReq :=
  if j =? e then o
  else match others v 0%nat j with
       | Some r => if (of_client r =? j) && bool_decide (j ∉ map client (under_way (shared_mmu v))) then Some r else None
       | None => None
       end.

#[export] Instance shared_port e : MmuPort (Shared e) := {|
  mmu_req_ready v r := req_ready (offers (Some r) v) (shared_mmu v) e;
  mmu_resp_valid v := resp_valid (shared_mmu v) e;
  mmu_resp_data v := resp_data (shared_mmu v) e;
  mmu_resp_reject v := resp_reject (shared_mmu v) e;
  mmu_clock o v := mkShared (mmu_next (offers o v) (shared_mmu v)) (fun n => others v (S n))
|}.

Section Laws.
Variable e : Z.
Hypothesis He : 0 <= e < 8.
Implicit Types (v : Shared e) (c : Z -> Z).

Lemma offers_own o v : offers o v e = o.
Proof. unfold offers. by rewrite Z.eqb_refl. Qed.

Lemma offers_polite o v :
  (forall r, o = Some r -> of_client r = e /\ e ∉ map client (under_way (shared_mmu v))) -> polite (offers o v) (shared_mmu v).
Proof.
  intros Ho i r. unfold offers. destruct (Z.eqb_spec i e) as [->|Hne]; [apply Ho|].
  destruct (others v 0%nat i) as [r'|]; [|done]. destruct ((of_client r' =? i) && _) eqn:Hp; [|done]. intros [= ->].
  apply andb_true_iff in Hp as [Hc%Z.eqb_eq Hn%bool_decide_eq_true]. done.
Qed.

(** ** The states of the port *)

Definition word86 c : Prop := forall a, fits 86 (c a).

Definition shared_free v c : Prop := (exists ks, rests e c ks (shared_mmu v)) /\ word86 c.
Definition shared_busy v c (r : VReq) : Prop :=
  (exists ks x n, serves e r c ks (shared_mmu v) x n) /\ asks e r /\ word86 c.

Lemma served_fits r c : asks e r -> word86 c -> word86 (served r c).
Proof. intros Hr Hc a. unfold served. by destruct (req_wr r && (a =? va_key (req_va r))); [apply Hr|]. Qed.

Lemma serves_rank r c ks m x n : asks e r -> serves e r c ks m x n -> mmu_rank e m = distance m x.
Proof.
  intros Hr Hs. destruct (stage_place e r c Hr _ _ _ _ (sv_stage _ _ _ _ _ _ _ Hs)) as [Hin Hva].
  rewrite <- (rank_place ks m x (sv_crowd _ _ _ _ _ _ _ Hs) Hin), Hva. by rewrite (client_of_request e r Hr).
Qed.

Lemma closer_busy r c d m : asks e r -> closer e r c d m -> (exists ks x n, serves e r c ks m x n) /\ (mmu_rank e m < d)%nat.
Proof. intros Hr (ks & x & n & Hs & Hd). split; [by exists ks, x, n|]. by rewrite (serves_rank r c ks m x n Hr Hs). Qed.

Lemma polite_idle v : polite (offers None v) (shared_mmu v).
Proof. by apply offers_polite. Qed.

Lemma polite_asks v r c : shared_free v c -> asks e r -> polite (offers (Some r) v) (shared_mmu v).
Proof. intros [[ks Hs] _] Hr. apply offers_polite. intros r' [= <-]. split; [apply (asks_client _ _ Hr)|apply (rs_none _ _ _ _ Hs)]. Qed.

(** A request that is under way. *)
Lemma shared_step v c r :
  shared_busy v c r ->
  mmu_resp_reject v = false /\
  if mmu_resp_valid v then
    shared_free (mmu_clock None v) (served r c) /\ (req_wr r = false -> mmu_resp_data v = c (va_key (req_va r)))
  else shared_busy (mmu_clock None v) c r /\ (mmu_rank e (shared_mmu (mmu_clock None v)) < mmu_rank e (shared_mmu v))%nat.
Proof.
  intros ((ks & x & n & Hs) & Hr & Hc). cbn.
  destruct (serves_step e He r c Hr ks (shared_mmu v) x n _ (Hc _) Hs (polite_idle v)) as [-> Hstep]. split; [done|].
  destruct (resp_valid (shared_mmu v) e).
  - destruct Hstep as [Hrest Hdata]. split; [|done]. split; [by eexists|by apply served_fits].
  - rewrite (serves_rank r c ks _ x n Hr Hs). destruct (closer_busy _ _ _ _ Hr Hstep) as [Hb Hd]. done.
Qed.

(** A request that is offered. *)
Lemma shared_take v c r :
  shared_free v c -> asks e r ->
  (mmu_rank e (shared_mmu (mmu_clock (Some r) v)) < mmu_rank e (shared_mmu v))%nat /\
  if mmu_req_ready v r then shared_busy (mmu_clock (Some r) v) c r else shared_free (mmu_clock (Some r) v) c.
Proof.
  intros Hf Hr. pose proof (polite_asks v r c Hf Hr) as Hp. destruct Hf as [[ks Hs] Hc]. cbn.
  rewrite (rank_free e (shared_mmu v)) by apply Hs. pose proof (offers_own (Some r) v) as Ho.
  destruct (req_ready (offers (Some r) v) (shared_mmu v) e) eqn:Hready.
  - destruct (rests_take e He r c ks _ _ Hs Hp Ho Hready) as (x & Hx & Hd).
    pose proof (serves_rank r c _ _ _ _ Hr Hx) as Hrank. split; [|split; [by eexists _, _, _|done]]. lia.
  - pose proof (rests_next e He c ks _ _ Hs Hp) as Hs'. rewrite (ready_taken e He ks _ _ (rs_crowd _ _ _ _ Hs) Hp) in Hready.
    apply bool_decide_eq_false in Hready. specialize (Hs' Hready). split; [|split; [by eexists|done]].
    rewrite (rank_free e (mmu_next _ _)) by apply Hs'.
    pose proof (turn_next e He r c ks _ _ Hs Hp Ho) as Ht. rewrite (ready_taken e He ks _ _ (rs_crowd _ _ _ _ Hs) Hp) in Ht.
    rewrite bool_decide_eq_false_2 in Ht by done. specialize (Ht eq_refl).
    unfold before in *. pose proof (Z.mod_pos_bound (e - rr_pointer (mmu_next (offers (Some r) v) (shared_mmu v))) 8 ltac:(lia)). lia.
Qed.

Lemma shared_idle v c : shared_free v c -> mmu_resp_valid v = false /\ mmu_resp_reject v = false /\ shared_free (mmu_clock None v) c.
Proof.
  intros [[ks Hs] Hc]. destruct (rests_silent e c ks _ Hs) as [Hv Hrj]. do 2 (split; [done|]). split; [|done].
  exists (keys_next ks (shared_mmu v)). apply (rests_next e He c ks _ _ Hs (polite_idle v)). apply (idle_not_taken e He), offers_own.
Qed.

(** ** The interface of the engine *)

Program Definition shared_laws : MmuLaws (Shared e) := {|
  vm_free := shared_free;
  vm_busy := shared_busy;
  vm_rank v := mmu_rank e (shared_mmu v);
  vm_room _ := True;
  vm_asks := asks e
|}.
Next Obligation. intros v c Hf. by destruct (shared_idle v c Hf) as (? & ? & _). Qed.
Next Obligation. intros v c Hf. by apply shared_idle. Qed.
Next Obligation. intros v c r Hf Hr. by apply shared_take. Qed.
Next Obligation. intros v c r Hf Hr _. by apply (shared_take v c r Hf Hr). Qed.
Next Obligation.
  intros v c r Hb. destruct (shared_step v c r Hb) as [Hrj Hstep]. destruct (mmu_resp_valid v); [done|]. rewrite Hrj. apply Hstep.
Qed.
Next Obligation. intros v c r Hb _ Hv. destruct (shared_step v c r Hb) as [_ Hstep]. rewrite Hv in Hstep. apply Hstep. Qed.
Next Obligation. intros v c r Hb Hv _. destruct (shared_step v c r Hb) as [_ Hstep]. rewrite Hv in Hstep. apply Hstep. Qed.

(** For 512 orders a side there are slots. *)
Lemma shared_capacity k : @capacity _ _ shared_laws e k 512.
Proof.
  split; [done|]. intros i Hi wr d Hd. split; cbn.
  - rewrite make_va_engine. by apply Z.mod_small.
  - unfold low. cbn. rewrite make_va_key. unfold node_key. rewrite (Z.mod_small (i - 64)) by lia.
    rewrite Z.add_comm, Z.mul_comm, Z_mod_plus_full, Z.mod_small by lia. lia.
  - done.
Qed.

Lemma reset_rests : rests e (fun _ => 0) (fun _ _ => []) mmu_reset.
Proof.
  split; [apply crowd_reset|by apply not_elem_of_nil|apply stored_reset|]. intros h x _ Hx. by apply elem_of_nil in Hx.
Qed.

Lemma reset_free others : shared_free (mkShared mmu_reset others) (fun _ => 0).
Proof. split; [eexists; exact reset_rests|done]. Qed.

(** *** Answers *)

(** The port [n] clock edges later, while [o] is kept up. *)
Definition cycles (n : nat) (o : option VReq) v : Shared e := Nat.iter n (mmu_clock o) v.

Lemma cycles_S n o v : cycles (S n) o v = cycles n o (mmu_clock o v).
Proof. unfold cycles. by rewrite Nat.iter_succ_r. Qed.

(** The request is answered after [k] clock edges, and not rejected. *)
Definition answered_in (k : nat) c (r : VReq) v : Prop :=
  (forall i, (i < k)%nat -> mmu_resp_valid (cycles i None v) = false) /\
  (forall i, (i <= k)%nat -> mmu_resp_reject (cycles i None v) = false) /\
  mmu_resp_valid (cycles k None v) = true /\
  (req_wr r = false -> mmu_resp_data (cycles k None v) = c (va_key (req_va r))) /\
  shared_free (cycles (S k) None v) (served r c).

Lemma busy_answered c r d : forall v, shared_busy v c r -> mmu_rank e (shared_mmu v) = d -> exists k, (k <= d)%nat /\ answered_in k c r v.
Proof.
  induction d as [d IH] using lt_wf_ind. intros v Hb Hd. destruct (shared_step v c r Hb) as [Hrj Hstep].
  destruct (mmu_resp_valid v) eqn:Hv.
  - destruct Hstep as [Hf Hdata]. exists 0%nat. split; [lia|]. split; [lia|]. split; [|done]. intros i Hi. by replace i with 0%nat by lia.
  - destruct Hstep as [Hb' Hlt]. destruct (IH (mmu_rank e (shared_mmu (mmu_clock None v))) ltac:(lia) _ Hb' eq_refl) as (k & Hk & Hval & Hrj' & Hans).
    exists (S k). split; [lia|]. unfold answered_in. rewrite !(cycles_S _ _ v). split; [|split; [|exact Hans]].
    + intros [|i] Hi; [done|]. rewrite cycles_S. apply Hval. lia.
    + intros [|i] Hi; [done|]. rewrite cycles_S. apply Hrj'. lia.
Qed.

(** A request that is kept up is taken after [n] clock edges. *)
Lemma free_taken c r d : asks e r -> forall v, shared_free v c -> mmu_rank e (shared_mmu v) = d ->
  exists n, (forall i, (i < n)%nat -> mmu_req_ready (cycles i (Some r) v) r = false) /\
    mmu_req_ready (cycles n (Some r) v) r = true /\ shared_busy (cycles (S n) (Some r) v) c r /\
    (n + mmu_rank e (shared_mmu (cycles (S n) (Some r) v)) < d)%nat.
Proof.
  intros Hr. induction d as [d IH] using lt_wf_ind. intros v Hf Hd. destruct (shared_take v c r Hf Hr) as [Hlt Hstep].
  destruct (mmu_req_ready v r) eqn:Hv.
  - exists 0%nat. split; [lia|]. split; [done|]. split; [done|]. change (cycles 1 (Some r) v) with (mmu_clock (Some r) v). lia.
  - destruct (IH (mmu_rank e (shared_mmu (mmu_clock (Some r) v))) ltac:(lia) _ Hstep eq_refl) as (n & Hn & Hready & Hb & Hless). exists (S n). rewrite !(cycles_S _ _ v). split.
    + intros [|i] Hi; [done|]. rewrite cycles_S. apply Hn. lia.
    + split; [done|]. split; [done|]. lia.
Qed.

(** C18: a request of one of the eight clients that is kept up is taken by the MMU and never
rejected, and its answer is shown at most 69 clock edges after it was first offered,
whatever the other seven ask for and when: a read with the word that the memory holds for
its node, which is zero when the node was never written; afterwards the client has
nothing under way, and its nodes are the old ones with, after a write, the new one. *)
Theorem mmu_answers c v r :
  shared_free v c -> asks e r ->
  exists n k, (n + k <= 68)%nat /\
    (forall i, (i < n)%nat -> mmu_req_ready (cycles i (Some r) v) r = false) /\
    mmu_req_ready (cycles n (Some r) v) r = true /\ answered_in k c r (cycles (S n) (Some r) v).
Proof.
  intros Hf Hr. destruct (free_taken c r _ Hr v Hf eq_refl) as (n & Hn & Hready & Hb & Hless).
  destruct (busy_answered c r _ _ Hb eq_refl) as (k & Hk & Hans). exists n, k. split; [|done].
  destruct Hf as [[ks Hs] _]. rewrite (rank_free e (shared_mmu v)) in Hless by apply Hs.
  unfold before in Hless. pose proof (Z.mod_pos_bound (e - rr_pointer (shared_mmu v)) 8 ltac:(lia)). lia.
Qed.
End Laws.

(** The engine 2 writes the node 7 at the key 0 of its bids, while all others ask without
end. *)
Definition first_request : VReq := mkVReq (make_va MAX_HEAP 2 64) true 7.
Definition crowded : Shared 2 :=
  mkShared mmu_reset (fun n j => Some (mkVReq (make_va MIN_HEAP j (64 + Z.of_nat n)) (Nat.odd n) (Z.of_nat n))).

Lemma mmu_answers_witness :
  asks 2 first_request /\
  exists n k, (n + k <= 68)%nat /\
    (forall i, (i < n)%nat -> mmu_req_ready (cycles 2 i (Some first_request) crowded) first_request = false) /\
    mmu_req_ready (cycles 2 n (Some first_request) crowded) first_request = true /\
    answered_in 2 k (fun _ => 0) first_request (cycles 2 (S n) (Some first_request) crowded).
Proof.
  assert (He : 0 <= 2 < 8) by lia.
  assert (Hr : asks 2 first_request) by (split; [reflexivity|vm_compute; reflexivity|vm_compute; split; congruence]).
  split; [exact Hr|].
  exact (mmu_answers 2 He (fun _ => 0) crowded first_request (reset_free 2 _) Hr).
Defined.
