(* ===== verification/HwSystem.v ===== *)
(** * HwSystem: an engine with the MMU of its exchange

The engine of HwEngine on the MMU of HwMmu that it shares with seven other clients, from
reset: both as they are in the source, no law assumed.  Whatever orders are offered,
whatever time the receiver of trades takes, and whatever the others ask of the MMU, each
order is traded by the reference rule ([engine_with_mmu_trades]). *)
From S2P Require Import Prelude HeapModel Machine Heap Book.
From S2P Require Import HwHeap HwTiers HwAccess HwSites HwSift HwCommand HwEngine HwRun HwSettle HwOrder HwHistory HwDemo HwMmu HwPort.

(** ** The engine from reset *)

Definition engine_reset (e : Z) (others : nat -> Z -> option VReq) (junk : list Z) (out : Z) : Engine (Shared e) :=
  mkEngine ctrl_reset fsm_reset fsm_reset (mkTiers junk out MMU_IDLE (mkShared mmu_reset others)).

Section System.
Variable e : Z.
Variable others : nat -> Z -> option VReq.
Variable ins : nat -> EngineIn.
Hypothesis He : 0 <= e < 8.

#[local] Instance laws : MmuLaws (Shared e) := shared_laws e He.

Lemma reset_books junk out :
  length junk = 128%nat ->
  tstate (ctrl (engine_reset e others junk out)) = T_IDLE /\ exists w, books (engine_reset e others junk out) w (book_of [] []).
Proof.
  intros Hlen. split; [done|]. exists (view (engine_reset e others junk out).(tiers) (fun _ => 0)). apply fresh_books.
  exists (fun _ => 0). split; [|done]. split; [done|]. cbn. by apply reset_free.
Qed.

(** C7: an engine and the MMU as they are in the source, from reset, whatever orders are
offered, whatever time the receiver of trades takes, and whatever the other seven clients
ask of the MMU: at every cycle the trades that have left the engine are a beginning of
those that the reference rule makes of the orders that it has taken, in that order, up to
512 of them; and if every trade is received at some time, the engine comes to rest before
it takes the next order, with all of these trades and a book in which no bid reaches an
ask. *)
Theorem engine_with_mmu_trades junk out n :
  (forall n, 0 <= now_ts (ins n) < 2 ^ 32) -> length junk = 128%nat ->
  let E0 := engine_reset e others junk out in
  (length (orders_at e ins E0 n) <= 512)%nat ->
  let '(all, bids, asks) := trade_all (orders_at e ins E0 n) in
  trades_at e ins E0 n `prefix_of` all /\
  ((forall n, exists m, trade_out_ready (ins (n + m)) = true) ->
   exists n', (n <= n')%nat /\ tstate (ctrl (engine_at e ins E0 n')) = T_IDLE /\
     orders_at e ins E0 n' = orders_at e ins E0 n /\ trades_at e ins E0 n' = all /\
     uncrossed (map node_order asks) (map node_order bids)).
Proof.
  intros Hclock Hj E0 Hn. pose proof (reset_books junk out Hj) as Hb. fold E0 in Hb.
  assert (Hn' : Z.of_nat (length (orders_at e ins E0 n)) <= 512) by lia.
  pose proof (engine_history e 512 E0 He ltac:(lia) (shared_capacity e He) Hb ins n Hclock Hn') as [Hp _].
  destruct (trade_all (orders_at e ins E0 n)) as [[all bids] asks] eqn:Hall. split; [done|]. intros Hready.
  destruct (engine_rests_again e 512 E0 He ltac:(lia) (shared_capacity e He) Hb ins Hclock Hready n Hn') as (n' & Hle & (b & a & Hr) & Ho).
  destruct Hr as [Hs _ _ _ Ha _ Hu]. rewrite Ho, Hall in Ha. injection Ha as -> -> ->. by exists n'.
Qed.
End System.

(** ** A run *)

(** All others ask without end, for the nodes of their asks. *)
Definition busy_others (n : nat) (j : Z) : option VReq :=
  Some (mkVReq (make_va MIN_HEAP j (64 + Z.of_nat n)) (Nat.odd n) (Z.of_nat n)).

(** The engine of HwDemo, now on the MMU. *)
Example mmu_demo_trades :
  let '(E, ts) := engine_run 2 demo_ins 120 0 (engine_reset 2 busy_others (replicate 128 0) 0) in
  tstate (ctrl E) = T_IDLE /\ bid_size E = 0 /\ ask_size E = 1 /\
  map (fun n => (order_price n, order_amount n)) ts = [(101, 3); (101, 2)].
Proof. vm_compute. repeat split. Qed.

(** Orders without end: bids and asks of 5 shares at 100 to 104. *)
Definition endless_ins (n : nat) : EngineIn :=
  mkEngineIn (Z.of_nat n mod 2 ^ 32) true (order_word (Z.of_nat n mod 2) (100 + Z.of_nat n mod 5) 5) (Nat.odd n).

Lemma engine_two : 0 <= 2 < 8.
Proof. lia. Qed.

(** In twelve cycles two orders have been taken. *)
Lemma engine_with_mmu_trades_witness :
  let E0 := engine_reset 2 busy_others (replicate 128 0) 0 in
  length (orders_at 2 endless_ins E0 12) = 2%nat /\
  let '(all, bids, asks) := trade_all (orders_at 2 endless_ins E0 12) in
  trades_at 2 endless_ins E0 12 `prefix_of` all /\
  ((forall n, exists m, trade_out_ready (endless_ins (n + m)) = true) ->
   exists n', (12 <= n')%nat /\ tstate (ctrl (engine_at 2 endless_ins E0 n')) = T_IDLE /\
     orders_at 2 endless_ins E0 n' = orders_at 2 endless_ins E0 12 /\ trades_at 2 endless_ins E0 n' = all /\
     uncrossed (map node_order asks) (map node_order bids)).
Proof.
  assert (Hl : length (orders_at 2 endless_ins (engine_reset 2 busy_others (replicate 128 0) 0) 12) = 2%nat) by (vm_compute; reflexivity).
  split; [exact Hl|].
  refine (engine_with_mmu_trades 2 busy_others endless_ins engine_two (replicate 128 0) 0 12 _ eq_refl _).
  - intros n. apply Z.mod_pos_bound. reflexivity.
  - rewrite Hl. repeat constructor.
Defined.
