(* ===== verification/HwDispatch.v ===== *)
(** * HwDispatch: the order dispatcher

[hw/dispatcher/dispatch_fifo_bram.sv] and [hw/dispatcher/order_dispatcher.sv], clock by
clock: eight FIFOs in block RAM with a registered read, and the state machine that lets
the software fill them and the engines empty them.  Whatever the software and the engines
do, an order that was taken goes to its engine once and in its place
([dispatch_keeps_order]), and all of them have gone when the dispatcher is done. *)
From S2P Require Import Prelude HwParams HwRing.

(** ** The FIFO of a lane *)

Record Dfifo := mkDfifo {
  dmem : Z -> Z;
  d_wr_ptr : Z;
  d_rd_ptr : Z;
  mem_count : Z;
  rd_pending : bool;
  out_valid : bool;
  out_data : Z
}.

Record DfifoIn := mkDfifoIn {
  wr_en : bool;
  wr_data : Z;
  dispatch_en : bool;
  out_ready : bool;
  clear : bool
}.

Definition dfifo_reset (junk : Z -> Z) : Dfifo := mkDfifo junk 0 0 0 false false 0.

(** [$clog2(1211)] bits count and address. *)
Definition occupancy (f : Dfifo) : Z := (mem_count f + Z.b2z (out_valid f) + Z.b2z (rd_pending f)) mod 2 ^ 11.
Definition dfifo_empty (f : Dfifo) : bool := occupancy f =? 0.
Definition dfifo_full (f : Dfifo) : bool := occupancy f =? FIFO_SZ.

Definition do_write (i : DfifoIn) (f : Dfifo) : bool := wr_en i && negb (dfifo_full f).
Definition do_consume (i : DfifoIn) (f : Dfifo) : bool := dispatch_en i && out_valid f && out_ready i.
Definition do_launch_read (i : DfifoIn) (f : Dfifo) : bool :=
  dispatch_en i && negb (rd_pending f) && negb (mem_count f =? 0) && (negb (out_valid f) || out_ready i).

(** A clock edge; a word that is not of the [FIFO_SZ] words is not written. *)
Definition dfifo_clock (i : DfifoIn) (f : Dfifo) : Dfifo :=
  if clear i then dfifo_reset (dmem f)
  else mkDfifo
    (if do_write i f && (d_wr_ptr f <? FIFO_SZ) then ram_set (dmem f) (d_wr_ptr f) (wr_data i) else dmem f)
    (if do_write i f then (d_wr_ptr f + 1) mod 2 ^ 11 else d_wr_ptr f)
    (if do_launch_read i f then (d_rd_ptr f + 1) mod 2 ^ 11 else d_rd_ptr f)
    (match do_write i f, do_launch_read i f with
     | true, false => (mem_count f + 1) mod 2 ^ 11
     | false, true => (mem_count f - 1) mod 2 ^ 11
     | _, _ => mem_count f
     end)
    (if rd_pending f then false else if do_launch_read i f then true else rd_pending f)
    (if do_consume i f then false else if rd_pending f then true else out_valid f)
    (if do_launch_read i f then dmem f (d_rd_ptr f) else out_data f).

(** ** The dispatcher *)

Inductive Dstate := IDLE | WRITE | DISPATCH | DONE.

#[export] Instance Dstate_eq_dec : EqDecision Dstate.
Proof. solve_decision. Defined.

Record Disp := mkDisp { dstate : Dstate; fifos : Z -> Dfifo }.

Record DispIn := mkDispIn {
  sw_begin_write : bool;
  sw_begin_dispatch : bool;
  sw_clear_done : bool;
  sw_wr_en : Z -> bool;
  sw_wr_data : Z -> Z;
  lane_ready : Z -> bool
}.

Definition disp_reset (junk : Z -> Z -> Z) : Disp := mkDisp IDLE (fun s => dfifo_reset (junk s)).

(** Eight modules, each computed once. *)
Definition eight {A} (f : Z -> A) : Z -> A :=
  let a0 := f 0 in let a1 := f 1 in let a2 := f 2 in let a3 := f 3 in
  let a4 := f 4 in let a5 := f 5 in let a6 := f 6 in let a7 := f 7 in
  fun b => if b =? 0 then a0 else if b =? 1 then a1 else if b =? 2 then a2 else if b =? 3 then a3
    else if b =? 4 then a4 else if b =? 5 then a5 else if b =? 6 then a6 else if b =? 7 then a7 else f b.

Lemma eight_eq {A} (f : Z -> A) b : eight f b = f b.
Proof.
  unfold eight. repeat match goal with |- context [b =? ?k] => destruct (Z.eqb_spec b k) as [->|]; [done|] end. done.
Qed.

Definition all_empty (d : Disp) : bool := forallb (fun s => dfifo_empty (fifos d s)) (seqZ 0 8).

Definition next_state (i : DispIn) (d : Disp) : Dstate :=
  match dstate d with
  | IDLE => if sw_begin_write i then WRITE else IDLE
  | WRITE => if sw_begin_dispatch i then DISPATCH else WRITE
  | DISPATCH => if all_empty d then DONE else DISPATCH
  | DONE => if sw_clear_done i then IDLE else DONE
  end.

Definition fifo_ins (i : DispIn) (d : Disp) (s : Z) : DfifoIn :=
  mkDfifoIn (bool_decide (dstate d = WRITE) && sw_wr_en i s) (sw_wr_data i s) (bool_decide (dstate d = DISPATCH))
    (bool_decide (dstate d = DISPATCH) && lane_ready i s) (bool_decide (dstate d = DONE) && sw_clear_done i).

Definition sw_wr_ready (d : Disp) (s : Z) : bool := bool_decide (dstate d = WRITE) && negb (dfifo_full (fifos d s)).
Definition order_out_valid (d : Disp) (s : Z) : bool := bool_decide (dstate d = DISPATCH) && out_valid (fifos d s).
Definition order_out (d : Disp) (s : Z) : Z := out_data (fifos d s).

(** A clock edge of the dispatcher. *)
Definition disp_clock (i : DispIn) (d : Disp) : Disp :=
  mkDisp (next_state i d) (eight (fun s => dfifo_clock (fifo_ins i d s) (fifos d s))).

(** ** The list in a FIFO *)

(** The words between the pointers, behind the one that has been read. *)
Record dfifo_rep (f : Dfifo) (l : list Z) : Prop := {
  df_rd : Z.b2z (out_valid f || rd_pending f) <= d_rd_ptr f;
  df_count : 0 <= mem_count f;
  df_wr : d_wr_ptr f = d_rd_ptr f + mem_count f;
  df_room : d_wr_ptr f <= FIFO_SZ;
  df_one : rd_pending f = true -> out_valid f = false;
  df_words : l = (if out_valid f || rd_pending f then [out_data f] else []) ++
    map (fun a => dmem f a) (seqZ (d_rd_ptr f) (mem_count f))
}.

(** Nothing of the FIFO has been read. *)
Definition unread (f : Dfifo) : Prop := d_rd_ptr f = 0 /\ out_valid f = false /\ rd_pending f = false.

Lemma dfifo_reset_rep junk : dfifo_rep (dfifo_reset junk) [].
Proof. by split. Qed.

Lemma dfifo_length f l : dfifo_rep f l -> Z.of_nat (length l) = mem_count f + Z.b2z (out_valid f) + Z.b2z (rd_pending f).
Proof.
  intros [Hrd Hc Hwr Hroom Hone ->]. rewrite length_app, length_map, length_seqZ.
  destruct (out_valid f), (rd_pending f); try (by specialize (Hone eq_refl)); cbn -[Z.of_nat]; lia.
Qed.

(** No counter wraps. *)
Lemma dfifo_occupancy f l :
  dfifo_rep f l -> Z.of_nat (length l) <= FIFO_SZ /\ occupancy f = Z.of_nat (length l).
Proof.
  intros Hf. pose proof (dfifo_length f l Hf) as Hl. destruct Hf as [Hrd Hc Hwr Hroom Hone _]. unfold FIFO_SZ in *.
  assert (Z.of_nat (length l) <= 1210).
  { rewrite Hl. destruct (out_valid f), (rd_pending f); try (by specialize (Hone eq_refl)); cbn in *; lia. }
  split; [lia|]. unfold occupancy. rewrite <- Hl. apply Z.mod_small. lia.
Qed.

Lemma dfifo_empty_rep f l : dfifo_rep f l -> dfifo_empty f = bool_decide (l = []).
Proof.
  intros Hf. unfold dfifo_empty. rewrite (proj2 (dfifo_occupancy f l Hf)). by destruct l.
Qed.

Lemma dfifo_full_rep f l : dfifo_rep f l -> dfifo_full f = (Z.of_nat (length l) =? FIFO_SZ).
Proof. intros Hf. unfold dfifo_full. by rewrite (proj2 (dfifo_occupancy f l Hf)). Qed.

Lemma dfifo_shows f l : dfifo_rep f l -> out_valid f = true -> head l = Some (out_data f).
Proof. intros Hf Hv. by rewrite (df_words _ _ Hf), Hv. Qed.

(** A word is written at the end. *)
Lemma dfifo_written f l i :
  dfifo_rep f l -> unread f -> clear i = false -> dispatch_en i = false ->
  dfifo_rep (dfifo_clock i f) (l ++ (if do_write i f then [wr_data i] else [])) /\ unread (dfifo_clock i f).
Proof.
  intros Hf (Hr0 & Hv & Hp) Hcl Hde. pose proof (dfifo_full_rep f l Hf) as Hfull. pose proof (dfifo_length f l Hf) as Hlen.
  rewrite Hv, Hp in Hlen. cbn in Hlen. destruct Hf as [Hrd Hc Hwr Hroom Hone Hl].
  rewrite Hv, Hp in Hl, Hrd. cbn [orb app Z.b2z] in Hl, Hrd.
  assert (Hla : do_launch_read i f = false) by (unfold do_launch_read; by rewrite Hde).
  assert (Hco : do_consume i f = false) by (unfold do_consume; by rewrite Hde).
  unfold dfifo_clock. rewrite Hcl, Hla, Hco, Hp, Hv. split; [|done].
  destruct (do_write i f) eqn:Hw.
  2: { rewrite app_nil_r. by split. }
  unfold do_write in Hw. apply andb_true_iff in Hw as [_ Hnf]. rewrite Hfull in Hnf. unfold FIFO_SZ in *.
  assert (d_wr_ptr f < 1210) by lia.
  rewrite (proj2 (Z.ltb_lt (d_wr_ptr f) 1210)) by lia. rewrite !Z.mod_small by lia.
  split; cbn [andb orb d_rd_ptr mem_count d_wr_ptr rd_pending out_valid out_data dmem]; try done; unfold FIFO_SZ; try lia.
  rewrite Hl. cbn [app]. rewrite seqZ_app, map_app by lia. f_equal.
  - apply map_ext_in. intros a Ha%list_elem_of_In. apply elem_of_seqZ in Ha. rewrite ram_set_ne; [done|lia].
  - rewrite <- Hwr, seqZ_cons by lia. cbn [map]. by rewrite ram_set_eq, seqZ_nil by lia.
Qed.

(** While orders are dispatched, the first one leaves when its engine takes it. *)
Lemma dfifo_dispatched f l i :
  dfifo_rep f l -> clear i = false -> dispatch_en i = true -> wr_en i = false ->
  dfifo_rep (dfifo_clock i f) (if do_consume i f then tail l else l).
Proof.
  intros [Hrd Hc Hwr Hroom Hone ->] Hcl Hde Hwe. unfold dfifo_clock, do_write, do_launch_read, do_consume. rewrite Hcl, Hwe, Hde.
  unfold FIFO_SZ in *. destruct (rd_pending f) eqn:Hp; [|destruct (Z.eqb_spec (mem_count f) 0) as [Hz|Hz]].
  - rewrite (Hone eq_refl) in *. by split.
  - destruct (out_valid f), (out_ready i); split; cbn in *; done || lia.
  - assert (Hcells : seqZ (d_rd_ptr f) (mem_count f) = d_rd_ptr f :: seqZ (d_rd_ptr f + 1) (mem_count f - 1)).
    { rewrite seqZ_cons by lia. done. }
    destruct (out_valid f) eqn:Hv, (out_ready i) eqn:Hr; cbn [andb orb negb]; [|by split|..].
    all: cbn in Hrd; rewrite !Z.mod_small by lia; split; cbn; try done; try (unfold FIFO_SZ; lia); by rewrite Hcells.
Qed.

(** Between the batches nothing moves. *)
Lemma dfifo_rests f l i :
  dfifo_rep f l -> clear i = false -> dispatch_en i = false -> wr_en i = false ->
  dfifo_rep (dfifo_clock i f) l /\ (unread f -> unread (dfifo_clock i f)).
Proof.
  intros [Hrd Hc Hwr Hroom Hone ->] Hcl Hde Hwe. unfold dfifo_clock, do_write, do_launch_read, do_consume.
  rewrite Hcl, Hwe, Hde. cbn. split.
  - destruct (rd_pending f) eqn:Hp; [|by split]. rewrite (Hone eq_refl) in *. by split.
  - intros (? & Hv & Hp). unfold unread. cbn. by rewrite Hp.
Qed.

(** ** A batch of orders *)

(** What a lane takes from the software and what it gives to its engine in a cycle. *)
Definition takes (i : DispIn) (d : Disp) (s : Z) : list Z :=
  if sw_wr_ready d s && sw_wr_en i s then [sw_wr_data i s] else [].
Definition sends (i : DispIn) (d : Disp) (s : Z) : list Z :=
  if order_out_valid d s && lane_ready i s then [order_out d s] else [].
Definition clears (i : DispIn) (d : Disp) : bool := bool_decide (dstate d = DONE) && sw_clear_done i.

#[local] Ltac simpl_bool_decide :=
  repeat (rewrite bool_decide_eq_true_2 in * by done) || rewrite bool_decide_eq_false_2 in * by done.

(** What a lane holds. *)
Definition lane_list (f : Dfifo) : list Z :=
  (if out_valid f || rd_pending f then [out_data f] else []) ++ map (dmem f) (seqZ (d_rd_ptr f) (mem_count f)).

(** The lanes between two clock edges. *)
Record disp_ok (d : Disp) : Prop := {
  ok_lane s : dfifo_rep (fifos d s) (lane_list (fifos d s));
  ok_unread s : dstate d = IDLE \/ dstate d = WRITE -> unread (fifos d s);
  ok_none s : dstate d = IDLE \/ dstate d = DONE -> 0 <= s < 8 -> lane_list (fifos d s) = []
}.

Lemma dfifo_rep_list f l : dfifo_rep f l -> lane_list f = l.
Proof. intros Hf. symmetry. apply Hf. Qed.

Lemma all_empty_lanes d : disp_ok d -> all_empty d = true <-> forall s, 0 <= s < 8 -> lane_list (fifos d s) = [].
Proof.
  intros Hd. unfold all_empty. rewrite forallb_forall. setoid_rewrite <- list_elem_of_In. setoid_rewrite elem_of_seqZ.
  split; intros Hs s Hin.
  - specialize (Hs s ltac:(lia)). rewrite (dfifo_empty_rep _ _ (ok_lane _ Hd s)) in Hs. by apply bool_decide_eq_true in Hs.
  - rewrite (dfifo_empty_rep _ _ (ok_lane _ Hd s)). apply bool_decide_eq_true. apply Hs. lia.
Qed.

Lemma disp_reset_ok junk : disp_ok (disp_reset junk).
Proof. split; intros; done || apply dfifo_reset_rep. Qed.

(** A lane through a clock edge. *)
Lemma disp_lane_next i d s :
  disp_ok d ->
  dfifo_rep (fifos (disp_clock i d) s)
    (if clears i d then [] else
     (if order_out_valid d s && lane_ready i s then tail (lane_list (fifos d s)) else lane_list (fifos d s)) ++ takes i d s) /\
  (dstate d <> DISPATCH -> unread (fifos d s) \/ clears i d = true -> unread (fifos (disp_clock i d) s)).
Proof.
  intros Hd. cbn [disp_clock fifos]. rewrite eight_eq. pose proof (ok_lane _ Hd s) as Hf.
  pose proof (dfifo_rests (fifos d s) _ (fifo_ins i d s) Hf) as Hrests.
  pose proof (dfifo_written (fifos d s) _ (fifo_ins i d s) Hf) as Hwritten.
  pose proof (dfifo_dispatched (fifos d s) _ (fifo_ins i d s) Hf) as Hsent. pose proof (ok_unread _ Hd s) as Hun.
  unfold takes, sw_wr_ready, order_out_valid, clears, do_write, do_consume, fifo_ins in *.
  cbn [clear dispatch_en wr_en out_ready wr_data] in *. destruct (dstate d) eqn:Hs; simpl_bool_decide; cbn [andb negb] in *.
  - rewrite app_nil_r. destruct (Hrests eq_refl eq_refl eq_refl) as [Hr Hu]. split; [done|intros _ [?|?]; auto; done].
  - rewrite andb_comm. destruct (Hwritten (Hun (or_intror eq_refl)) eq_refl eq_refl) as [Hr Hu]. done.
  - rewrite app_nil_r. split; [by apply Hsent|done].
  - rewrite app_nil_r. destruct (sw_clear_done i).
    + unfold dfifo_clock. cbn. split; [apply dfifo_reset_rep|done].
    + destruct (Hrests eq_refl eq_refl eq_refl) as [Hr Hu]. split; [done|intros _ [?|?]; auto; done].
Qed.

Lemma lane_list_next i d s :
  disp_ok d -> lane_list (fifos (disp_clock i d) s) =
    if clears i d then [] else
    (if order_out_valid d s && lane_ready i s then tail (lane_list (fifos d s)) else lane_list (fifos d s)) ++ takes i d s.
Proof. intros Hd. apply dfifo_rep_list, disp_lane_next, Hd. Qed.

Lemma takes_only i d s : dstate d <> WRITE -> takes i d s = [].
Proof. intros Hs. unfold takes, sw_wr_ready. by rewrite bool_decide_eq_false_2. Qed.

Lemma lane_valid_head d s :
  disp_ok d -> order_out_valid d s = true -> exists l, lane_list (fifos d s) = order_out d s :: l.
Proof.
  intros Hd [_ Hv]%andb_true_iff. pose proof (dfifo_shows _ _ (ok_lane _ Hd s) Hv) as Hh.
  destruct (lane_list _) as [|x l]; [done|]. injection Hh as ->. by exists l.
Qed.

Lemma disp_ok_next i d : disp_ok d -> disp_ok (disp_clock i d).
Proof.
  intros Hd. split; intros s.
  - rewrite lane_list_next by done. apply disp_lane_next, Hd.
  - intros Hs. cbn [disp_clock dstate] in Hs. unfold next_state in Hs. apply (disp_lane_next i d s Hd).
    + intros Hdis. rewrite Hdis in Hs. destruct (all_empty d); destruct Hs; done.
    + destruct (dstate d) eqn:Hst; [left; apply (ok_unread _ Hd); auto..| |].
      * destruct (all_empty d); destruct Hs; done.
      * unfold clears. rewrite Hst. destruct (sw_clear_done i); [by right|]. by destruct Hs.
  - intros Hs Hlt. rewrite lane_list_next by done. cbn [disp_clock dstate] in Hs. unfold next_state in Hs.
    pose proof (ok_none _ Hd s) as Hn. unfold clears. destruct (dstate d) eqn:Hst.
    + rewrite (Hn (or_introl eq_refl) Hlt), takes_only by congruence. unfold order_out_valid. by rewrite Hst.
    + destruct (sw_begin_dispatch i); destruct Hs; done.
    + destruct (all_empty d) eqn:He; [|destruct Hs; done]. rewrite (proj1 (all_empty_lanes d Hd) He s Hlt).
      rewrite takes_only by congruence. by destruct (order_out_valid d s && lane_ready i s).
    + cbn. destruct (sw_clear_done i); [done|]. rewrite (Hn (or_intror eq_refl) Hlt), takes_only by congruence.
      by destruct (order_out_valid d s && lane_ready i s).
Qed.

(** The dispatcher, and what its lanes have taken and given away since they were cleared. *)
Record Batch := mkBatch { b_disp : Disp; b_taken : Z -> list Z; b_sent : Z -> list Z }.

Definition batch_next (i : DispIn) (b : Batch) : Batch :=
  mkBatch (disp_clock i (b_disp b))
    (fun s => if clears i (b_disp b) then [] else b_taken b s ++ takes i (b_disp b) s)
    (fun s => if clears i (b_disp b) then [] else b_sent b s ++ sends i (b_disp b) s).

Fixpoint batch_run (ins : list DispIn) (b : Batch) : Batch :=
  match ins with [] => b | i :: ins' => batch_run ins' (batch_next i b) end.

Definition batch_reset (junk : Z -> Z -> Z) : Batch := mkBatch (disp_reset junk) (fun _ => []) (fun _ => []).

Definition batch_ok (b : Batch) (s : Z) : Prop :=
  disp_ok (b_disp b) /\ b_taken b s = b_sent b s ++ lane_list (fifos (b_disp b) s) /\
  (dstate (b_disp b) = IDLE -> b_taken b s = []).

Lemma batch_ok_next i b s : batch_ok b s -> batch_ok (batch_next i b) s.
Proof.
  intros (Hd & Ht & Hi). split; [by apply disp_ok_next|]. cbn [batch_next b_disp b_taken b_sent].
  rewrite lane_list_next by done. split.
  - destruct (clears i (b_disp b)); [done|]. rewrite Ht, <- !app_assoc. f_equal. unfold sends.
    destruct (order_out_valid (b_disp b) s) eqn:Hv; [|done]. destruct (lane_ready i s); [|done].
    by destruct (lane_valid_head _ _ Hd Hv) as [l ->].
  - cbn [disp_clock dstate]. unfold next_state, clears. destruct (dstate (b_disp b)) eqn:Hst; cbn.
    + intros _. by rewrite Hi, takes_only by (done || congruence).
    + by destruct (sw_begin_dispatch i).
    + by destruct (all_empty (b_disp b)).
    + by destruct (sw_clear_done i).
Qed.

Lemma batch_ok_run ins : forall b s, batch_ok b s -> batch_ok (batch_run ins b) s.
Proof. induction ins as [|i ins IH]; intros b s Hb; [done|]. by apply IH, batch_ok_next. Qed.

(** C21: whatever the software and the engines do from reset on, in every lane: the orders
taken since the last batch are those given to the engine followed by those still in the
FIFO, in the order in which they came; and once the dispatcher is done, all of them have
been given to the engine, once each. *)
Theorem dispatch_keeps_order junk ins s :
  0 <= s < 8 ->
  let b := batch_run ins (batch_reset junk) in
  b_taken b s = b_sent b s ++ lane_list (fifos (b_disp b) s) /\
  (dstate (b_disp b) = DONE -> b_sent b s = b_taken b s) /\
  (dstate (b_disp b) = IDLE -> b_taken b s = []) /\
  Z.of_nat (length (lane_list (fifos (b_disp b) s))) <= FIFO_SZ.
Proof.
  intros Hs b. destruct (batch_ok_run ins (batch_reset junk) s) as (Hd & Ht & Hi); [split; [apply disp_reset_ok|done]|].
  fold b in Hd, Ht, Hi. split; [done|]. split; [|split; [done|]].
  - intros Hdone. rewrite Ht, (ok_none _ Hd s) by auto. by rewrite app_nil_r.
  - apply (dfifo_occupancy _ _ (ok_lane _ Hd s)).
Qed.

(** ** A run *)

Definition idle_in : DispIn := mkDispIn false false false (fun _ => false) (fun _ => 0) (fun _ => false).
Definition push_in (s v : Z) : DispIn := mkDispIn false false false (fun b => b =? s) (fun _ => v) (fun _ => false).
Definition ready_in (s : Z) : DispIn := mkDispIn false false false (fun _ => false) (fun _ => 0) (fun b => b =? s).

(** Two orders for the lane 3 and one for the lane 5, whose engine is slow. *)
Definition demo_batch : list DispIn :=
  [mkDispIn true false false (fun _ => false) (fun _ => 0) (fun _ => false); push_in 3 10; push_in 5 30; push_in 3 20;
   mkDispIn false true false (fun _ => false) (fun _ => 0) (fun _ => false)] ++
  replicate 4 (ready_in 3) ++ replicate 3 idle_in ++ [ready_in 5; ready_in 3; idle_in].

Example demo_batch_ends :
  let b := batch_run demo_batch (batch_reset (fun _ _ => 0)) in
  dstate (b_disp b) = DONE /\ b_sent b 3 = [10; 20] /\ b_sent b 5 = [30].
Proof. vm_compute. repeat split. Qed.

Lemma dispatch_keeps_order_witness :
  0 <= 3 < 8 /\
  let b := batch_run demo_batch (batch_reset (fun _ _ => 0)) in
  b_taken b 3 = b_sent b 3 ++ lane_list (fifos (b_disp b) 3) /\
  (dstate (b_disp b) = DONE -> b_sent b 3 = b_taken b 3) /\
  (dstate (b_disp b) = IDLE -> b_taken b 3 = []) /\
  Z.of_nat (length (lane_list (fifos (b_disp b) 3))) <= FIFO_SZ.
Proof.
  assert (H3 : 0 <= 3 < 8) by lia. split; [exact H3|].
  exact (dispatch_keeps_order (fun _ _ => 0) demo_batch 3 H3).
Defined.
