(* ===== verification/HwLog.v ===== *)
(** * HwLog: the trades on their way into the log

[hw/trade_log/trade_aggregator.sv] and [hw/trade_log/trade_log.sv], clock by clock: one
trade per cycle, from the engines in turn, into a log that the software reads.  The log
holds the trades in the order in which they left the engines ([log_collects]), and an
engine waits for at most seven others ([aggregator_fair]). *)
From S2P Require Import Prelude HwHeap HwAccess HwRing HwTurn.

#[local] Ltac Zify.zify_post_hook ::= Z.to_euclidean_division_equations.

Definition LOG_DEPTH : Z := 8704.

(** ** The aggregator *)

(** The engines from the pointer on; the first one with a trade is selected. *)
Definition any_valid (eng_trade_valid : Z -> bool) (rr : Z) : bool := existsb eng_trade_valid (turns rr).
Definition selected (eng_trade_valid : Z -> bool) (rr : Z) : Z := default rr (List.find eng_trade_valid (turns rr)).

(** The entry of the log for the trade [w] of the engine [s]. *)
Definition log_entry (s w : Z) : Z := cat (cat (cat s 8 (field w 53 7)) 16 (field w 69 16)) 32 (field w 0 32).

Definition eng_trade_ready (eng_trade_valid : Z -> bool) (rr : Z) (trade_out_ready : bool) (e : Z) : bool :=
  any_valid eng_trade_valid rr && (e =? selected eng_trade_valid rr) && trade_out_ready.

Definition rr_next (eng_trade_valid : Z -> bool) (rr : Z) (trade_out_ready : bool) : Z :=
  if any_valid eng_trade_valid rr && trade_out_ready then (selected eng_trade_valid rr + 1) mod 8 else rr.

(** ** The log *)

Record Tlog := mkTlog { lmem : Z -> Z; l_wr_ptr : Z; count_reg : Z; overflow_reg : bool; sw_rdata : Z }.

Record TlogIn := mkTlogIn { trade_in_valid : bool; trade_in_data : Z; sw_re : bool; sw_addr : Z; sw_clear : bool }.

Definition tlog_reset (junk : Z -> Z) : Tlog := mkTlog junk 0 0 false 0.

Definition trade_in_ready (t : Tlog) : bool := count_reg t <? LOG_DEPTH.
Definition accept_write (i : TlogIn) (t : Tlog) : bool := trade_in_valid i && (count_reg t <? LOG_DEPTH).

(** A clock edge; the pointer and the count have 14 bits. *)
Definition tlog_clock (i : TlogIn) (t : Tlog) : Tlog :=
  let write := negb (sw_clear i) && accept_write i t in
  mkTlog (if write then ram_set (lmem t) (l_wr_ptr t) (trade_in_data i) else lmem t)
    (if sw_clear i then 0 else if write then (l_wr_ptr t + 1) mod 2 ^ 14 else l_wr_ptr t)
    (if sw_clear i then 0 else if write then (count_reg t + 1) mod 2 ^ 14 else count_reg t)
    (if sw_clear i then false else if trade_in_valid i && negb (accept_write i t) then true else overflow_reg t)
    (if sw_re i then lmem t (sw_addr i) else sw_rdata t).

(** The log holds [l]. *)
Record tlog_rep (t : Tlog) (l : list Z) : Prop := {
  tl_ptr : l_wr_ptr t = Z.of_nat (length l);
  tl_count : count_reg t = Z.of_nat (length l);
  tl_room : Z.of_nat (length l) <= LOG_DEPTH;
  tl_words j x : l !! j = Some x -> lmem t (Z.of_nat j) = x
}.

Lemma tlog_reset_rep junk : tlog_rep (tlog_reset junk) [].
Proof. by split. Qed.

Lemma tlog_clock_rep i t l :
  tlog_rep t l -> tlog_rep (tlog_clock i t)
    (if sw_clear i then [] else l ++ (if trade_in_valid i && trade_in_ready t then [trade_in_data i] else [])).
Proof.
  intros [Hp Hc Hr Hw]. unfold tlog_clock, accept_write, trade_in_ready, LOG_DEPTH in *.
  destruct (sw_clear i); [by split|]. cbn [negb andb].
  destruct (trade_in_valid i && (count_reg t <? 8704)) eqn:Ha; [|rewrite app_nil_r; by split].
  apply andb_true_iff in Ha as [_ Hlt]. rewrite !Z.mod_small by lia.
  split; cbn; rewrite ?length_app; cbn [length]; unfold LOG_DEPTH; try lia.
  intros j x [Hj|[Hge Hj]]%lookup_app_Some.
  - pose proof (lookup_lt_Some _ _ _ Hj). rewrite ram_set_ne by lia. by apply Hw.
  - apply list_lookup_singleton_Some in Hj as [Hj <-]. replace (Z.of_nat j) with (l_wr_ptr t) by lia. apply ram_set_eq.
Qed.

(** ** Both together *)

Record Merge := mkMerge { rr_ptr : Z; tlog : Tlog }.

Record MergeIn := mkMergeIn {
  eng_valid : Z -> bool;
  eng_data : Z -> Z;
  log_read : bool;
  log_index : Z;
  log_clear : bool
}.

Definition merge_reset (junk : Z -> Z) : Merge := mkMerge 0 (tlog_reset junk).

Definition agg_data (i : MergeIn) (m : Merge) : Z :=
  let s := selected (eng_valid i) (rr_ptr m) in log_entry s (eng_data i s).

Definition log_ins (i : MergeIn) (m : Merge) : TlogIn :=
  mkTlogIn (any_valid (eng_valid i) (rr_ptr m)) (agg_data i m) (log_read i) (log_index i) (log_clear i).

(** What the engine [e] sees. *)
Definition trade_ready (i : MergeIn) (m : Merge) (e : Z) : bool :=
  eng_trade_ready (eng_valid i) (rr_ptr m) (trade_in_ready (tlog m)) e.

Definition merge_clock (i : MergeIn) (m : Merge) : Merge :=
  mkMerge (rr_next (eng_valid i) (rr_ptr m) (trade_in_ready (tlog m))) (tlog_clock (log_ins i m) (tlog m)).

(** The trades that leave the engines in a cycle, with their engines. *)
Definition handed (i : MergeIn) (m : Merge) : list (Z * Z) :=
  map (fun e => (e, eng_data i e)) (List.filter (fun e => eng_valid i e && trade_ready i m e) (seqZ 0 8)).

Definition entries (l : list (Z * Z)) : list Z := map (fun x => log_entry (fst x) (snd x)) l.

Lemma selected_valid i m e :
  trade_ready i m e = true ->
  asking (eng_valid i) (rr_ptr m) !! 0%nat = Some e /\ trade_in_ready (tlog m) = true.
Proof.
  unfold trade_ready, eng_trade_ready, any_valid, selected. rewrite exists_asking, find_asking.
  destruct (asking _ _ !! 0%nat); [|done]. cbn. intros [?%Z.eqb_eq ->]%andb_true_iff. by subst.
Qed.

(** At most one trade leaves: the one that the log takes. *)
Lemma handed_one i m :
  entries (handed i m) = if any_valid (eng_valid i) (rr_ptr m) && trade_in_ready (tlog m) then [agg_data i m] else [].
Proof.
  unfold handed, agg_data, any_valid, selected. rewrite exists_asking, find_asking.
  destruct (asking (eng_valid i) (rr_ptr m) !! 0%nat) as [s|] eqn:Hs; cbn [default].
  - assert (Hin : s ∈ asking (eng_valid i) (rr_ptr m)) by by eapply list_elem_of_lookup_2.
    pose proof (asking_range _ _ _ Hin) as Hr. apply (asking_spec (eng_valid i) _ _ Hr) in Hin.
    assert (Hf : forall e, trade_ready i m e = (e =? s) && trade_in_ready (tlog m)).
    { intros e. unfold trade_ready, eng_trade_ready, any_valid, selected. by rewrite exists_asking, find_asking, Hs. }
    rewrite bool_decide_eq_true_2 by by eexists. cbn [andb].
    rewrite (List.filter_ext _ (fun e => (e =? s) && trade_in_ready (tlog m))).
    2: { intros e. rewrite Hf. destruct (Z.eqb_spec e s) as [->|]; [|by rewrite andb_false_r].
         destruct (eng_valid i s); done. }
    destruct (trade_in_ready (tlog m)).
    + assert (Hc : s = 0 \/ s = 1 \/ s = 2 \/ s = 3 \/ s = 4 \/ s = 5 \/ s = 6 \/ s = 7) by lia.
      by destruct Hc as [-> | [-> | [-> | [-> | [-> | [-> | [-> | ->]]]]]]].
    + rewrite (List.filter_ext _ (fun _ => false)) by (intros; apply andb_false_r). done.
  - rewrite bool_decide_eq_false_2 by (by intros [? ?]). cbn [andb].
    rewrite (List.filter_ext _ (fun _ => false)); [done|]. intros e. destruct (trade_ready i m e) eqn:Hr; [|apply andb_false_r].
    apply selected_valid in Hr as [Hr _]. congruence.
Qed.

(** ** Collecting *)

(** The hardware and the trades that have left the engines since the log was cleared. *)
Record Collect := mkCollect { c_merge : Merge; c_trades : list (Z * Z) }.

Definition collect_next (i : MergeIn) (c : Collect) : Collect :=
  mkCollect (merge_clock i (c_merge c)) (if log_clear i then [] else c_trades c ++ handed i (c_merge c)).

Fixpoint collect (ins : list MergeIn) (c : Collect) : Collect :=
  match ins with [] => c | i :: ins' => collect ins' (collect_next i c) end.

Lemma merge_next_rep i m l :
  tlog_rep (tlog m) l -> tlog_rep (tlog (merge_clock i m)) (if log_clear i then [] else l ++ entries (handed i m)).
Proof. intros Hl. rewrite handed_one. exact (tlog_clock_rep (log_ins i m) (tlog m) l Hl). Qed.

Lemma collect_rep ins : forall c,
  tlog_rep (tlog (c_merge c)) (entries (c_trades c)) ->
  tlog_rep (tlog (c_merge (collect ins c))) (entries (c_trades (collect ins c))).
Proof.
  induction ins as [|i ins IH]; intros c Hc; [done|]. apply IH. cbn [collect_next c_merge c_trades].
  pose proof (merge_next_rep i _ _ Hc) as Hn. destruct (log_clear i); [done|]. unfold entries in *. by rewrite map_app.
Qed.

Lemma read_entry i m l k x :
  tlog_rep (tlog m) l -> log_read i = true -> log_index i = Z.of_nat k -> l !! k = Some x ->
  sw_rdata (tlog (merge_clock i m)) = x.
Proof. intros Hl Hr Hi Hx. cbn. rewrite Hr, Hi. by eapply tl_words. Qed.

(** What the documentation of the log's entries ([sys_def.svh]) says of the entry [x] of a
trade of the engine [s] with the node [w]: from the top eight bits of engine, eight of
amount, sixteen of price and 32 of time; only the lower seven bits of the amount are kept. *)
Record logged (s w x : Z) : Prop := {
  lg_engine : x / 2 ^ 56 = s;
  lg_amount : x / 2 ^ 48 mod 2 ^ 8 = order_amount w mod 2 ^ 7;
  lg_price : x / 2 ^ 32 mod 2 ^ 16 = order_price w;
  lg_time : x mod 2 ^ 32 = order_ts w
}.

Lemma log_entry_logged s w : 0 <= s -> logged s w (log_entry s w).
Proof.
  intros Hs. unfold log_entry.
  pose proof (field_bound w 53 7 ltac:(lia)). pose proof (field_bound w 69 16 ltac:(lia)). pose proof (field_bound w 0 32 ltac:(lia)).
  assert (Ha : field w 53 7 = field w 53 16 mod 2 ^ 7).
  { rewrite !field_div by lia. change (2 ^ 7) with 128. change (2 ^ 16) with 65536. lia. }
  rewrite !cat_sum by lia. split; unfold order_amount, order_price, order_ts; rewrite <- ?Ha; lia.
Qed.

Lemma handed_engines i m : Forall (fun x => 0 <= fst x < 8) (handed i m).
Proof.
  unfold handed. apply Forall_map, Forall_forall. intros e He. apply list_elem_of_In, filter_In in He as [He _].
  apply list_elem_of_In, elem_of_seqZ in He. cbn. lia.
Qed.

Lemma collect_engines ins : forall c,
  Forall (fun x => 0 <= fst x < 8) (c_trades c) -> Forall (fun x => 0 <= fst x < 8) (c_trades (collect ins c)).
Proof.
  induction ins as [|i ins IH]; intros c Hc; [done|]. apply IH. cbn. destruct (log_clear i); [done|].
  apply Forall_app. split; [done|apply handed_engines].
Qed.

(** The entries of trades, one by one. *)
Lemma entries_logged l :
  Forall (fun x => 0 <= fst x < 8) l -> Forall2 (fun t x => logged (fst t) (snd t) x) l (entries l).
Proof. induction 1 as [|t l Ht _ IH]; constructor; [apply log_entry_logged; lia|exact IH]. Qed.

(** C22: whatever the engines offer and the software reads and clears from reset on, the
log holds the trades that have left the engines since it was last cleared, each once and
in the order in which they left, and its count is their number; the software that asks for
one of them is shown an entry of 64 bits after the next clock edge, whose fields are the
engine, the price, the time stamp and the lower seven bits of the amount of the trade. *)
Theorem log_collects junk ins :
  let c := collect ins (mkCollect (merge_reset junk) []) in
  let t := tlog (c_merge c) in
  count_reg t = Z.of_nat (length (c_trades c)) /\ count_reg t <= LOG_DEPTH /\
  forall i k e w, log_read i = true -> log_index i = Z.of_nat k -> c_trades c !! k = Some (e, w) ->
    0 <= e < 8 /\ logged e w (sw_rdata (tlog (merge_clock i (c_merge c)))).
Proof.
  intros c t. pose proof (collect_rep ins (mkCollect (merge_reset junk) []) (tlog_reset_rep junk)) as Hc. fold c in Hc.
  pose proof (tl_count _ _ Hc) as Hcount. pose proof (tl_room _ _ Hc) as Hroom. unfold entries in *. rewrite length_map in Hcount, Hroom.
  split; [done|]. split; [unfold t; lia|]. intros i k e w Hr Hi Hk.
  pose proof (collect_engines ins (mkCollect (merge_reset junk) []) ltac:(constructor)) as He. fold c in He.
  pose proof (Forall_lookup_1 _ _ _ _ He Hk) as Hew. split; [done|].
  erewrite (read_entry i _ _ k (log_entry e w)); [apply log_entry_logged; apply Hew|exact Hc|done|done|].
  change (map (fun x : Z * Z => log_entry (fst x) (snd x)) (c_trades c)) with ((fun x : Z * Z => log_entry (fst x) (snd x)) <$> c_trades c).
  by rewrite list_lookup_fmap, Hk.
Qed.

(** ** Every engine gets its turn *)

Fixpoint merge_run (ins : list MergeIn) (m : Merge) : Merge :=
  match ins with [] => m | i :: ins' => merge_run ins' (merge_clock i m) end.

(** The engine is taken, or it is closer to its turn. *)
Lemma turn_passes i m e :
  0 <= e < 8 -> eng_valid i e = true -> trade_in_ready (tlog m) = true ->
  trade_ready i m e = true \/ before (rr_ptr (merge_clock i m)) e < before (rr_ptr m) e.
Proof.
  intros He Hv Hr. destruct (turn_first (eng_valid i) (rr_ptr m) e He) as (s & Hs & Hse); [by rewrite Hv|].
  unfold trade_ready, eng_trade_ready, merge_clock, rr_next, any_valid, selected. cbn [rr_ptr].
  rewrite exists_asking, find_asking, Hs, bool_decide_eq_true_2, Hr by by eexists. cbn [default andb].
  destruct Hse as [->|?]; [left; by rewrite Z.eqb_refl|by right].
Qed.

Lemma handed_length i m : (length (handed i m) <= 1)%nat.
Proof.
  pose proof (handed_one i m) as Hh. apply (f_equal length) in Hh. unfold entries in Hh. rewrite length_map in Hh.
  rewrite Hh. destruct (_ && _); simpl; lia.
Qed.

Lemma turn_within e n : 0 <= e < 8 -> forall ins m l,
  length ins = n -> before (rr_ptr m) e < Z.of_nat n -> tlog_rep (tlog m) l -> Z.of_nat (length l) + Z.of_nat n <= LOG_DEPTH ->
  Forall (fun i => eng_valid i e = true) ins ->
  exists ins1 i ins2, ins = ins1 ++ i :: ins2 /\ trade_ready i (merge_run ins1 m) e = true.
Proof.
  intros He. induction n as [|n IH]; intros ins m l Hlen Hb Hl Hroom Hv.
  { unfold before in Hb. pose proof (Z.mod_pos_bound (e - rr_ptr m) 8). lia. }
  destruct ins as [|i ins]; [done|]. injection Hlen as Hlen. apply Forall_cons in Hv as [Hi Hv].
  destruct (turn_passes i m e He Hi) as [Hr|Hlt].
  { unfold trade_in_ready. rewrite (tl_count _ _ Hl). lia. }
  - by exists [], i, ins.
  - assert (Hsmall : exists l', tlog_rep (tlog (merge_clock i m)) l' /\ (length l' <= S (length l))%nat).
    { eexists. split; [by apply merge_next_rep|]. destruct (log_clear i); [simpl; lia|]. unfold entries.
      rewrite length_app, length_map. pose proof (handed_length i m). lia. }
    destruct Hsmall as (l' & Hl' & Hle). destruct (IH ins (merge_clock i m) l') as (ins1 & j & ins2 & -> & Hj); [done|lia|done|lia|done|].
    by exists (i :: ins1), j, ins2.
Qed.

(** C23: an engine that shows a trade for eight cycles while the log has room for eight
more is taken in one of them, whatever the other engines do: nobody waits for more than
seven others. *)
Theorem aggregator_fair e ins m l :
  0 <= e < 8 -> length ins = 8%nat -> tlog_rep (tlog m) l -> Z.of_nat (length l) + 8 <= LOG_DEPTH ->
  Forall (fun i => eng_valid i e = true) ins ->
  exists ins1 i ins2, ins = ins1 ++ i :: ins2 /\ trade_ready i (merge_run ins1 m) e = true.
Proof.
  intros He Hlen Hl Hroom Hv. eapply (turn_within e 8); try done. unfold before.
  pose proof (Z.mod_pos_bound (e - rr_ptr m) 8). lia.
Qed.

(** ** Runs *)

(** The trade [w] of every engine. *)
Definition all_trade (w : Z) : MergeIn := mkMergeIn (fun _ => true) (fun _ => w) false 0 false.

Lemma aggregator_fair_witness :
  0 <= 5 < 8 /\ exists ins1 i ins2, replicate 8 (all_trade 7) = ins1 ++ i :: ins2 /\
    trade_ready i (merge_run ins1 (merge_reset (fun _ => 0))) 5 = true.
Proof.
  assert (H5 : 0 <= 5 < 8) by lia. split; [exact H5|].
  refine (aggregator_fair 5 (replicate 8 (all_trade 7)) (merge_reset (fun _ => 0)) [] H5 eq_refl (tlog_reset_rep _) _ _).
  - simpl. unfold LOG_DEPTH. lia.
  - repeat constructor.
Defined.

(** All engines at once: one after the other. *)
Example all_trade_in_turn :
  let c := collect (replicate 9 (all_trade 7)) (mkCollect (merge_reset (fun _ => 0)) []) in
  map fst (c_trades c) = [0; 1; 2; 3; 4; 5; 6; 7; 0].
Proof. reflexivity. Qed.

(** In the cycle in which the log is cleared, an engine is told that its trade was taken,
and it is not in the log. *)
Example clear_loses_trade :
  let i := mkMergeIn (fun e => e =? 2) (fun _ => 7) false 0 true in
  let m := merge_reset (fun _ => 0) in
  trade_ready i m 2 = true /\ count_reg (tlog (merge_clock i m)) = 0.
Proof. split; reflexivity. Qed.

(** A full log sets the overflow flag although the trade stays with its engine. *)
Lemma full_stalls i m l :
  tlog_rep (tlog m) l -> Z.of_nat (length l) = LOG_DEPTH -> log_clear i = false -> any_valid (eng_valid i) (rr_ptr m) = true ->
  handed i m = [] /\ tlog_rep (tlog (merge_clock i m)) l /\ overflow_reg (tlog (merge_clock i m)) = true.
Proof.
  intros Hl Hfull Hc Hv. assert (Hr : trade_in_ready (tlog m) = false).
  { unfold trade_in_ready. rewrite (tl_count _ _ Hl). lia. }
  pose proof (handed_one i m) as Hh. rewrite Hv, Hr in Hh. cbn in Hh. apply map_eq_nil in Hh.
  pose proof (merge_next_rep i m l Hl) as Hn. rewrite Hc, Hh, app_nil_r in Hn. split; [done|]. split; [done|].
  cbn. rewrite Hc. unfold accept_write, trade_in_ready in *. cbn. by rewrite Hv, Hr.
Qed.
