(* ===== verification/HwBoard.v ===== *)
(** * HwBoard: the hardware as a whole

[hw/HFT_SIM.sv], clock by clock: the registers on the bus of the processor, the buttons,
the dispatcher, eight engines, the MMU with its banks, the aggregator and the log, wired
together, with the reset of all of them by the button [KEY[0]].  The seven-segment
displays are left out. *)
From S2P Require Import Prelude HeapModel HwHeap HwTiers HwEngine HwDemo HwRing HwWalk HwBank HwMmu HwDispatch HwLog.

(** ** The registers on the bus *)

(** What the bus and the buttons (active low) show in a cycle. *)
Record BusIn := mkBusIn {
  chipselect : bool;
  write : bool;
  read : bool;
  address : Z;
  writedata : Z;
  KEY : Z
}.

Record Avl := mkAvl {
  begin_write_pulse : bool;
  begin_dispatch_pulse : bool;
  clear_done_pulse : bool;
  push_en : Z -> bool;
  push_data : Z -> Z;
  log_read_pulse : bool;
  log_read_index : Z;
  log_clear_pulse : bool;
  log_data_shadow : Z;
  log_data_valid : bool;
  log_read_pipe : Z;
  key_s0 : Z;
  key_s1 : Z;
  key_prev : Z
}.

Definition avl_reset : Avl :=
  mkAvl false false false (fun _ => false) (fun _ => 0) false 0 false 0 false 0 15 15 15.

Definition ADDR_CONTROL : Z := 0.
Definition ADDR_STATUS : Z := 1.
Definition ADDR_PUSH0 : Z := 2.
Definition ADDR_LOG_INFO : Z := 10.
Definition ADDR_LOG_CMD : Z := 11.
Definition ADDR_LOG_DATA0 : Z := 12.
Definition ADDR_LOG_DATA1 : Z := 13.

(** A write to the register [a]. *)
Definition writes (i : BusIn) (a : Z) : bool := chipselect i && write i && (address i =? a).
Definition cmd_clear (i : BusIn) : bool := writes i ADDR_LOG_CMD && Z.testbit (writedata i) 0.
Definition cmd_read (i : BusIn) : bool := writes i ADDR_LOG_CMD && negb (Z.testbit (writedata i) 0) && Z.testbit (writedata i) 1.

(** A clock edge, while the dispatcher shows [push_ready] and the log [log_read_data]. *)
Definition avl_clock (i : BusIn) (push_ready : Z -> bool) (log_read_data : Z) (a : Avl) : Avl :=
  let captured := (log_read_pipe a =? 2) in
  let pushes s := writes i (ADDR_PUSH0 + s) && push_ready s in
  mkAvl
    (writes i ADDR_CONTROL && Z.testbit (writedata i) 0)
    (writes i ADDR_CONTROL && Z.testbit (writedata i) 1)
    (writes i ADDR_CONTROL && Z.testbit (writedata i) 2)
    (eight pushes)
    (eight (fun s => if pushes s then field (writedata i) 0 32 else push_data a s))
    (cmd_read i)
    (if cmd_read i then field (writedata i) 2 14 else log_read_index a)
    (cmd_clear i)
    (if cmd_clear i then 0 else if captured then log_read_data else log_data_shadow a)
    (if cmd_clear i then false else if cmd_read i then false else if captured then true else log_data_valid a)
    (if cmd_clear i then 0 else if cmd_read i then 1 else if log_read_pipe a =? 1 then 2 else if captured then 0 else log_read_pipe a)
    (KEY i) (key_s0 a) (key_s1 a).

(** A button has just been pressed. *)
Definition key_press_pulse (a : Avl) (n : Z) : bool := Z.testbit (key_prev a) n && negb (Z.testbit (key_s1 a) n).

(** ** The board *)

(** What an engine sees of the MMU in a cycle. *)
Record View := mkView { view_ready : bool; view_valid : bool; view_data : Z; view_reject : bool }.

#[export] Instance view_port : MmuPort View := {|
  mmu_req_ready v _ := view_ready v;
  mmu_resp_valid := view_valid;
  mmu_resp_data := view_data;
  mmu_resp_reject := view_reject;
  mmu_clock _ v := v
|}.

Definition with_mmu {V W} (v : W) (E : Engine V) : Engine W :=
  mkEngine (ctrl E) (bid E) (ask E) (mkTiers (bram (tiers E)) (bram_rdata (tiers E)) (mmu_owner (tiers E)) v).

Record Board := mkBoard {
  rst_pipe : Z;
  b_now : Z;
  b_avl : Avl;
  b_dispatcher : Disp;
  b_engines : Z -> Engine unit;
  b_mmu : Mmu;
  b_merge : Merge
}.

(** The request of an engine. *)
Definition engine_req (e : Z) {V} (E : Engine V) : option VReq :=
  mmu_req (fsm_port MAX_HEAP e (bid E)) (fsm_port MIN_HEAP e (ask E)) (tiers E).
Definition board_reqs (B : Board) (e : Z) : option VReq :=
  if (0 <=? e) && (e <? 8) then engine_req e (b_engines B e) else None.

Definition board_view (B : Board) (e : Z) : View :=
  mkView (req_ready (board_reqs B) (b_mmu B) e) (resp_valid (b_mmu B) e) (resp_data (b_mmu B) e) (resp_reject (b_mmu B) e).

Definition merge_ins (B : Board) : MergeIn :=
  mkMergeIn (fun e => trade_out_valid (b_engines B e)) (fun e => trade_out_data (b_engines B e))
    (log_read_pulse (b_avl B)) (log_read_index (b_avl B)) (log_clear_pulse (b_avl B)).

Definition engine_ins (B : Board) (e : Z) : EngineIn :=
  mkEngineIn (b_now B) (order_out_valid (b_dispatcher B) e) (order_out (b_dispatcher B) e)
    (trade_ready (merge_ins B) (b_merge B) e).

Definition disp_ins (B : Board) : DispIn :=
  mkDispIn (begin_write_pulse (b_avl B) || key_press_pulse (b_avl B) 1)
    (begin_dispatch_pulse (b_avl B) || key_press_pulse (b_avl B) 2)
    (clear_done_pulse (b_avl B)) (push_en (b_avl B)) (push_data (b_avl B))
    (fun e => order_in_ready (b_engines B e)).

Definition engine_next (B : Board) (e : Z) : Engine unit :=
  with_mmu tt (engine_clock e (engine_ins B e) (with_mmu (board_view B e) (b_engines B e))).

(** *** The reset button *)

(** [KEY[0]] resets when it is pressed, and for two more clock edges: [rst_n_i] is the
upper bit of [rst_pipe]. *)
Definition rst_pipe_next (i : BusIn) (B : Board) : Z :=
  if Z.testbit (KEY i) 0 then cat (field (rst_pipe B) 0 1) 1 1 else 0.
Definition rst_n_i (i : BusIn) (B : Board) : bool := Z.testbit (KEY i) 0 && Z.testbit (rst_pipe B) 1.

(** What the asynchronous reset leaves: the memories and the outputs of the block RAMs,
which have none. *)
Definition ring_held {A} (q : Ring A) : Ring A := ring_reset (rmem q).
Definition lane_held (l : Lane) : Lane := mkLane (ring_held (queue l)) (ring_held (va_fifo l)) 0 0 false.
Definition bank_held (b : Bank) : Bank := mkBank B_IDLE false 0 0 0 0 (brams b) (bram_out b) 0 false false.
Definition mmu_held (m : Mmu) : Mmu :=
  mkMmu 0 (ring_held (in_fifo0 m)) (ring_held (in_fifo1 m)) walker_reset walker_reset no_req no_req
    (mkPartitions (fun _ => 0) (fun _ => 0) (fun _ => false)) (page_table m) (ptw0_pt_rdata m) (ptw1_pt_rdata m)
    (four (fun b => lane_held (lanes m b))) false (four (fun b => bank_held (banks m b))).
Definition engine_held (E : Engine unit) : Engine unit :=
  mkEngine ctrl_reset fsm_reset fsm_reset (mkTiers (bram (tiers E)) (bram_rdata (tiers E)) MMU_IDLE tt).
Definition board_held (B : Board) : Board :=
  mkBoard (rst_pipe B) 0 avl_reset (mkDisp IDLE (eight (fun s => dfifo_reset (dmem (fifos (b_dispatcher B) s)))))
    (eight (fun e => engine_held (b_engines B e))) (mmu_held (b_mmu B)) (merge_reset (lmem (tlog (b_merge B)))).

(** *** A clock edge *)

Definition board_edge (i : BusIn) (B : Board) : Board :=
  mkBoard (rst_pipe_next i B) ((b_now B + 1) mod 2 ^ 32)
    (avl_clock i (sw_wr_ready (b_dispatcher B)) (sw_rdata (tlog (b_merge B))) (b_avl B))
    (disp_clock (disp_ins B) (b_dispatcher B))
    (eight (engine_next B))
    (mmu_next (board_reqs B) (b_mmu B))
    (merge_clock (merge_ins B) (b_merge B)).

(** A clock edge of the board, which holds its registers while it is reset. *)
Definition board_clock (i : BusIn) (B : Board) : Board :=
  if rst_n_i i B then board_edge i B else board_held (board_edge i (board_held B)).

(** *** What the software reads *)

Definition bits_of (f : Z -> bool) : Z := foldr (fun s w => Z.b2z (f s) + 2 * w) 0 (seqZ 0 8).

Definition state_out (d : Disp) : Z := match dstate d with IDLE => 0 | WRITE => 1 | DISPATCH => 2 | DONE => 3 end.

Definition all_engines_idle (B : Board) : bool := forallb (fun e => engine_idle (b_engines B e)) (seqZ 0 8).
Definition trade_done (B : Board) : bool := bool_decide (dstate (b_dispatcher B) = DONE) && all_engines_idle B.

Definition status_data (B : Board) : Z :=
  let d := b_dispatcher B in
  cat (cat (cat (bits_of (fun s => dfifo_full (fifos d s))) 8 (bits_of (fun s => dfifo_empty (fifos d s))))
    8 (bits_of (sw_wr_ready d))) 2 (state_out d).

Definition info_data (B : Board) : Z :=
  let t := tlog (b_merge B) in
  cat (cat (cat (cat (cat (cat (Z.b2z (trade_done B)) 1 (Z.b2z (all_engines_idle B)))
    8 (bits_of (fun e => engine_idle (b_engines B e)))) 1 0) 14 (count_reg t)) 1 (Z.b2z (log_data_valid (b_avl B))))
    1 (Z.b2z (overflow_reg t)).

Definition readdata (i : BusIn) (B0 : Board) : Z :=
  let B := if rst_n_i i B0 then B0 else board_held B0 in
  if chipselect i && read i then
    if address i =? ADDR_STATUS then status_data B
    else if address i =? ADDR_LOG_INFO then info_data B
    else if address i =? ADDR_LOG_DATA0 then field (log_data_shadow (b_avl B)) 0 32
    else if address i =? ADDR_LOG_DATA1 then field (log_data_shadow (b_avl B)) 32 32
    else 0
  else 0.

(** ** Reset *)

(** What the memories without a reset hold: the FIFOs, the block RAMs of the engines with
their output registers, the log. *)
Record Junk := mkJunk { fifo_junk : Z -> Z -> Z; bram_junk : Z -> list Z; rdata_junk : Z -> Z; log_junk : Z -> Z }.

Definition engine_unit (junk : list Z) (out : Z) : Engine unit :=
  mkEngine ctrl_reset fsm_reset fsm_reset (mkTiers junk out MMU_IDLE tt).

(** After the reset that follows the configuration of the device. *)
Definition board_reset (J : Junk) : Board :=
  mkBoard 3 0 avl_reset (disp_reset (fifo_junk J)) (fun e => engine_unit (bram_junk J e) (rdata_junk J e)) mmu_reset
    (merge_reset (log_junk J)).

Fixpoint board_run (ins : list BusIn) (B : Board) : Board :=
  match ins with [] => B | i :: ins' => board_run ins' (board_clock i B) end.

(** While the button is released, every clock edge is an ordinary one. *)
Lemma board_clock_edge i B : Z.testbit (KEY i) 0 = true -> rst_pipe B = 3 -> board_clock i B = board_edge i B.
Proof. intros Hk Hp. unfold board_clock, rst_n_i. by rewrite Hk, Hp. Qed.

Lemma rst_pipe_edge i B : Z.testbit (KEY i) 0 = true -> rst_pipe B = 3 -> rst_pipe (board_edge i B) = 3.
Proof. intros Hk Hp. cbn. unfold rst_pipe_next. by rewrite Hk, Hp. Qed.

(** *** A run *)

Definition bus_rest : BusIn := mkBusIn false false false 0 0 15.
Definition bus_write (a v : Z) : BusIn := mkBusIn true true false a v 15.

Definition some_junk : Junk := mkJunk (fun _ _ => 0) (fun _ => replicate 128 0) (fun _ => 0) (fun _ => 0).

(** Two symbols: a bid of 5 at 101 for lane 2 and an ask of 3 at 100; for lane 6 an ask and
a better bid. *)
Definition demo_session : list BusIn :=
  [bus_write ADDR_CONTROL 1; bus_rest; bus_rest;
   bus_write (ADDR_PUSH0 + 2) (order_word 1 101 5); bus_rest;
   bus_write (ADDR_PUSH0 + 6) (order_word 0 50 7); bus_rest;
   bus_write (ADDR_PUSH0 + 2) (order_word 0 100 3); bus_rest;
   bus_write (ADDR_PUSH0 + 6) (order_word 1 60 2); bus_rest;
   bus_write ADDR_CONTROL 2] ++ replicate 60 bus_rest.

(** An order that is written in the cycle in which the dispatcher is told to start: the
registers take it, because the lane still has room, and the dispatcher no longer does. *)
Example late_push_lost :
  let at_push := board_run [bus_write ADDR_CONTROL 1; bus_rest; bus_write ADDR_CONTROL 2] (board_reset some_junk) in
  let after := board_run [bus_write (ADDR_PUSH0 + 2) (order_word 1 101 5); bus_rest] at_push in
  sw_wr_ready (b_dispatcher at_push) 2 = true /\ dstate (b_dispatcher after) = DONE /\ lane_list (fifos (b_dispatcher after) 2) = [] /\
  push_en (b_avl (board_clock (bus_write (ADDR_PUSH0 + 2) (order_word 1 101 5)) at_push)) 2 = true.
Proof. vm_compute. repeat split. Qed.

(** A press of the button in the middle of a session: everything starts again, and for two
more cycles the bus is not heard. *)
Definition bus_reset : BusIn := mkBusIn false false false 0 0 14.

Example reset_restarts :
  let B := board_run (demo_session ++ [bus_reset]) (board_reset some_junk) in
  let early := board_run [bus_write ADDR_CONTROL 1; bus_write ADDR_CONTROL 1; bus_rest] B in
  let late := board_run [bus_rest; bus_rest; bus_write ADDR_CONTROL 1; bus_rest] B in
  rst_pipe B = 0 /\ b_now B = 0 /\ count_reg (tlog (b_merge B)) = 0 /\ dstate (b_dispatcher B) = IDLE /\
  trade_done B = false /\ dstate (b_dispatcher early) = IDLE /\ dstate (b_dispatcher late) = WRITE.
Proof. vm_compute. repeat split. Qed.

(** The reset takes the slots of the MMU back, but leaves the page table: the first node
that is placed after it gets the slot of the first one that was placed before, and the
entries of both are valid. *)
Definition places (i : Z) (m : Mmu) : Mmu :=
  let ask := fun e => if e =? 0 then Some (mkVReq (make_va MAX_HEAP 0 i) true 1) else None in
  Nat.iter 4 (mmu_next (fun _ => None)) (mmu_next ask m).

Example reset_shares_slot :
  let m := places 65 (mmu_held (places 64 mmu_reset)) in
  let entry i := page_table m (pt_key (make_va MAX_HEAP 0 i)) in
  lookup_valid_bit (entry 64) = true /\ entry 64 = entry 65 /\ pt_key (make_va MAX_HEAP 0 64) <> pt_key (make_va MAX_HEAP 0 65).
Proof. vm_compute. repeat split. discriminate. Qed.
