(* ===== verification/HwWire.v ===== *)
(** * HwWire: the engines on the board share the MMU

On the board an engine asks the MMU for a node of its own, and only when it has no
request under way ([board_polite]); so what it sees of the MMU is what one of eight
clients sees ([board_engine]), and it runs as the engine of HwSystem does. *)
From S2P Require Import Prelude HeapModel HwHeap HwTiers HwAccess HwEngine HwHistory HwRing HwTurn HwWalk HwMmu HwFlow HwShared HwCrowd HwPlaces HwStage HwPort HwSystem HwDispatch HwLog HwBoard.

#[local] Arguments client : simpl never.
#[local] Arguments mmu_next : simpl never.
#[local] Arguments fsm_port : simpl never.
#[local] Arguments req_ready : simpl never.

(** ** Only what is asked counts *)

Lemma winners_ext reqs reqs' rr : (forall i, reqs' i = reqs i) -> winners reqs' rr = winners reqs rr.
Proof.
  intros Hr. unfold winners. generalize (None : option Z, None : option Z) as w. induction (map _ _) as [|i l IH]; intros w; [done|].
  cbn [foldl]. unfold winner_step at 2 4. by rewrite Hr.
Qed.

Lemma ready_ext reqs reqs' m i : (forall i, reqs' i = reqs i) -> req_ready reqs' m i = req_ready reqs m i.
Proof. intros Hr. unfold req_ready, accept_first, accept_second, accept_first. by rewrite (winners_ext reqs reqs'). Qed.

Lemma mmu_next_ext reqs reqs' m : (forall i, reqs' i = reqs i) -> mmu_next reqs' m = mmu_next reqs m.
Proof.
  intros Hr. unfold mmu_next, rr_pointer_next, fifo_in_wr0, fifo_in_wr1, accept_second, accept_first, entry_of.
  rewrite (winners_ext reqs reqs') by done. destruct (winners reqs (rr_pointer m)) as [f s]. cbn [fst snd].
  by rewrite !Hr.
Qed.

(** ** Requests of engines *)

Lemma port_client k e f : 0 <= e < 8 -> of_client (port_req (fsm_port k e f)) = e.
Proof.
  intros He. unfold of_client, client, port_req, fsm_port. cbn [req_va virt_req_va]. rewrite make_va_engine. by apply Z.mod_small.
Qed.

Lemma engine_req_spec {V} e (E : Engine V) r :
  0 <= e < 8 -> engine_req e E = Some r -> mmu_owner (tiers E) = MMU_IDLE /\ of_client r = e.
Proof.
  intros He. unfold engine_req, mmu_req. destruct (bid_grant _ _) eqn:Hb; [|destruct (ask_grant _ _ _) eqn:Ha; [|done]].
  - intros [= <-]. unfold bid_grant in Hb. apply andb_true_iff in Hb as [Hb%bool_decide_eq_true _]. split; [done|by apply port_client].
  - intros [= <-]. unfold ask_grant in Ha. do 2 apply andb_true_iff in Ha as [Ha _]. apply bool_decide_eq_true in Ha.
    split; [done|by apply port_client].
Qed.

(** ** No engine asks twice *)

(** An engine whose port is free has nothing under way. *)
Record orderly (B : Board) : Prop := {
  od_crowd : exists ks, crowd ks (b_mmu B);
  od_free e : 0 <= e < 8 -> mmu_owner (tiers (b_engines B e)) = MMU_IDLE -> e ∉ map client (under_way (b_mmu B))
}.

Lemma board_req_range B e r : board_reqs B e = Some r -> 0 <= e < 8 /\ engine_req e (b_engines B e) = Some r.
Proof. unfold board_reqs. destruct (Z.leb_spec 0 e), (Z.ltb_spec e 8); done. Qed.

Lemma board_req_own B e : 0 <= e < 8 -> board_reqs B e = engine_req e (b_engines B e).
Proof. intros He. unfold board_reqs. destruct (Z.leb_spec 0 e), (Z.ltb_spec e 8); done || lia. Qed.

Lemma board_polite B : orderly B -> polite (board_reqs B) (b_mmu B).
Proof.
  intros Ho e r [He Hr]%board_req_range. destruct (engine_req_spec e _ r He Hr) as [Hidle Hc]. split; [done|by apply (od_free B Ho)].
Qed.

Lemma board_engine_step B i e :
  b_engines (board_edge i B) e = with_mmu tt (engine_clock e (engine_ins B e) (with_mmu (board_view B e) (b_engines B e))).
Proof. cbn [board_edge b_engines]. by rewrite eight_eq. Qed.

(** How the port goes on. *)
Lemma owner_next (b a : Port) (t : Tiers View) :
  mmu_owner_next b a t =
    match mmu_owner t with
    | MMU_IDLE =>
        match mmu_req b a t with
        | Some _ => if view_ready (mmu t) then (if bid_grant b t then MMU_BID else MMU_ASK) else MMU_IDLE
        | None => MMU_IDLE
        end
    | o => if view_valid (mmu t) || view_reject (mmu t) then MMU_IDLE else o
    end.
Proof.
  unfold mmu_owner_next, bid_virt_req_ready, ask_virt_req_ready, mmu_req. cbn [mmu_req_ready mmu_resp_valid mmu_resp_reject view_port].
  destruct (mmu_owner t); try done. destruct (bid_grant b t) eqn:Hb, (ask_grant b a t), (view_ready (mmu t)); done.
Qed.

Lemma orderly_next i B : orderly B -> orderly (board_edge i B).
Proof.
  intros Ho. pose proof (board_polite B Ho) as Hp. destruct (od_crowd B Ho) as [ks Hm]. split.
  { exists (keys_next ks (b_mmu B)). by apply crowd_next. }
  intros e He. rewrite board_engine_step. change (b_mmu (board_edge i B)) with (mmu_next (board_reqs B) (b_mmu B)).
  cbn [with_mmu tiers engine_clock tiers_clock mmu_owner ctrl bid ask]. rewrite owner_next. cbn [mmu_owner with_mmu tiers mmu].
  pose proof (od_free B Ho e He) as Hfree. set (b := fsm_port MAX_HEAP e _). set (a := fsm_port MIN_HEAP e _).
  assert (Hreq : board_reqs B e = mmu_req b a (mkTiers (bram (tiers (b_engines B e))) (bram_rdata (tiers (b_engines B e)))
      (mmu_owner (tiers (b_engines B e))) (board_view B e))) by (rewrite board_req_own by done; reflexivity).
  rewrite <- Hreq. destruct (mmu_owner (tiers (b_engines B e))) eqn:Hown.
  - specialize (Hfree eq_refl). intros Hnext. apply (none_next e ks); [done|done|done|].
    destruct (board_reqs B e) as [r|] eqn:Hr; [|by apply idle_not_taken]. cbn [view_ready board_view] in Hnext.
    rewrite (ready_taken e He ks _ _ Hm Hp) in Hnext. case_bool_decide; [by destruct (bid_grant _ _)|done].
  - cbn [view_valid view_reject board_view]. intros Hnext. apply (seen_gone e ks); [done|done|].
    destruct (resp_valid _ _); [by left|]. destruct (resp_reject _ _); [by right|done].
  - cbn [view_valid view_reject board_view]. intros Hnext. apply (seen_gone e ks); [done|done|].
    destruct (resp_valid _ _); [by left|]. destruct (resp_reject _ _); [by right|done].
Qed.

Lemma orderly_reset J : orderly (board_reset J).
Proof. split; [eexists; exact crowd_reset|]. intros e He _. by apply not_elem_of_nil. Qed.

(** ** What an engine sees of the MMU *)

(** An engine depends on its memory by four wires. *)
Section SameWires.
Context {V W : Type} `{MmuPort V} `{MmuPort W}.
Variables (e : Z) (v : V) (w : W).

Lemma clock_same {X} (E : Engine X) i :
  (forall r, engine_req e E = Some r -> mmu_req_ready v r = mmu_req_ready w r) ->
  mmu_resp_valid v = mmu_resp_valid w -> mmu_resp_data v = mmu_resp_data w -> mmu_resp_reject v = mmu_resp_reject w ->
  engine_clock e i (with_mmu v E) =
    with_mmu (mmu_clock (engine_req e E) v) (with_mmu tt (engine_clock e i (with_mmu w E))).
Proof.
  intros Hr Hv Hd Hj. unfold engine_clock, with_mmu. cbn [ctrl bid ask tiers bram bram_rdata mmu_owner mmu].
  set (bp := fsm_port MAX_HEAP e (bid E)). set (ap := fsm_port MIN_HEAP e (ask E)).
  set (tv := mkTiers (bram (tiers E)) (bram_rdata (tiers E)) (mmu_owner (tiers E)) v).
  set (tw := mkTiers (bram (tiers E)) (bram_rdata (tiers E)) (mmu_owner (tiers E)) w).
  assert (Hb : bid_virt_req_ready bp tv = bid_virt_req_ready bp tw).
  { unfold bid_virt_req_ready. change (bid_grant bp tw) with (bid_grant bp (tiers E)). change (bid_grant bp tv) with (bid_grant bp (tiers E)).
    destruct (bid_grant bp (tiers E)) eqn:Hg; [|done]. cbn [andb]. apply Hr. unfold engine_req, mmu_req. fold bp ap. by rewrite Hg. }
  assert (Ha : ask_virt_req_ready bp ap tv = ask_virt_req_ready bp ap tw).
  { unfold ask_virt_req_ready. change (ask_grant bp ap tw) with (ask_grant bp ap (tiers E)). change (ask_grant bp ap tv) with (ask_grant bp ap (tiers E)).
    destruct (ask_grant bp ap (tiers E)) eqn:Hg; [|done]. cbn [andb]. apply Hr. unfold engine_req, mmu_req. fold bp ap.
    assert (Hbg : bid_grant bp (tiers E) = false).
    { unfold ask_grant in Hg. unfold bid_grant. apply andb_true_iff in Hg as [[_ Hn%negb_true_iff]%andb_true_iff _]. rewrite Hn. apply andb_false_r. }
    by rewrite Hbg, Hg. }
  assert (Hbi : bid_ins bp tv = bid_ins bp tw) by (unfold bid_ins; rewrite Hb; cbn [tv tw mmu mmu_owner bram_rdata]; by rewrite Hv, Hd, Hj).
  assert (Hai : ask_ins bp ap tv = ask_ins bp ap tw) by (unfold ask_ins; rewrite Ha; cbn [tv tw mmu mmu_owner bram_rdata]; by rewrite Hv, Hd, Hj).
  rewrite Hbi, Hai. f_equal. unfold tiers_clock, mmu_owner_next. rewrite Hb, Ha. cbn [tv tw mmu_owner mmu]. by rewrite Hv, Hj.
Qed.
End SameWires.

(** ** A run of the board *)

Section Board.
Variable J : Junk.
Variable bus : nat -> BusIn.

Fixpoint board_at (n : nat) : Board :=
  match n with O => board_reset J | S m => board_clock (bus m) (board_at m) end.

(** Nobody presses the reset button. *)
Hypothesis Hkey : forall n, Z.testbit (KEY (bus n)) 0 = true.

Lemma board_pipe n : rst_pipe (board_at n) = 3.
Proof. induction n as [|n IH]; [done|]. cbn [board_at]. rewrite board_clock_edge by done. by apply rst_pipe_edge. Qed.

Lemma board_at_next n : board_at (S n) = board_edge (bus n) (board_at n).
Proof. apply board_clock_edge; [apply Hkey|apply board_pipe]. Qed.

Lemma disp_at_next n : b_dispatcher (board_at (S n)) = disp_clock (disp_ins (board_at n)) (b_dispatcher (board_at n)).
Proof. by rewrite board_at_next. Qed.

Lemma merge_at_next n : b_merge (board_at (S n)) = merge_clock (merge_ins (board_at n)) (b_merge (board_at n)).
Proof. by rewrite board_at_next. Qed.

Lemma board_orderly n : orderly (board_at n).
Proof. induction n as [|n IH]; [apply orderly_reset|]. rewrite board_at_next. by apply orderly_next. Qed.

(** A stream from the cycle [n] on. *)
Fixpoint from {A} (n : nat) (f : nat -> A) : nat -> A :=
  match n with O => f | S m => fun k => from m f (S k) end.

Lemma from_spec {A} n (f : nat -> A) k : from n f k = f (n + k)%nat.
Proof. revert k. induction n as [|n IH]; intros k; [done|]. cbn [from]. rewrite IH. f_equal. lia. Qed.

(** The requests of all engines, cycle by cycle. *)
Definition all_reqs : nat -> Z -> option VReq := fun n => board_reqs (board_at n).

(** The engine [e] with the MMU that it shares. *)
Definition engine_on (e : Z) (n : nat) : Engine (Shared e) :=
  with_mmu (mkShared (b_mmu (board_at n)) (from n all_reqs)) (b_engines (board_at n) e).

Lemma offers_board e n o :
  0 <= e < 8 -> board_reqs (board_at n) e = o ->
  forall j, offers o (mkShared (e:=e) (b_mmu (board_at n)) (from n all_reqs)) j = board_reqs (board_at n) j.
Proof.
  intros He Ho j. unfold offers. destruct (Z.eqb_spec j e) as [->|Hne]; [done|]. cbn [others shared_mmu].
  rewrite from_spec, Nat.add_0_r. unfold all_reqs. destruct (board_reqs (board_at n) j) as [r|] eqn:Hr; [|done].
  destruct (board_polite _ (board_orderly n) j r Hr) as [Hc Hn]. by rewrite Hc, Z.eqb_refl, bool_decide_eq_true_2.
Qed.

(** The engine with its next cycle. *)
Lemma board_engine e n :
  0 <= e < 8 -> engine_clock e (engine_ins (board_at n) e) (engine_on e n) = engine_on e (S n).
Proof.
  intros He. unfold engine_on at 1. set (v := mkShared _ _). pose proof (board_req_own (board_at n) e He) as Hown.
  rewrite (clock_same e v (board_view (board_at n) e)); [| |done..].
  - unfold engine_on. rewrite board_at_next, board_engine_step. rewrite <- Hown. unfold v. cbn [mmu_clock shared_port shared_mmu others].
    rewrite (mmu_next_ext _ _ _ (offers_board e n _ He eq_refl)). reflexivity.
  - intros r Hr. cbn [mmu_req_ready shared_port view_port board_view view_ready]. unfold v. cbn [shared_mmu].
    apply ready_ext. apply offers_board; [done|]. by rewrite Hown.
Qed.

Lemma engine_on_reset e : engine_on e 0 = engine_reset e all_reqs (bram_junk J e) (rdata_junk J e).
Proof. done. Qed.
End Board.
