(* ===== verification/HwSession.v ===== *)
(** * HwSession: a session on the board

From reset, whatever the software writes and reads, as long as nobody presses the reset
button: the trades of every engine are those
that the reference rule makes of the orders that it has taken ([board_trades]). *)
From Stdlib Require Import Sorted.
From S2P Require Import Prelude HeapModel Machine Heap Book.
From S2P Require Import HwHeap HwTiers HwAccess HwEngine HwRun HwSettle HwOrder HwHistory HwTurn HwMmu HwPort HwSystem HwDispatch HwLog HwBoard HwWire.

#[local] Arguments fsm_port : simpl never.
#[local] Arguments board_clock : simpl never.

(** ** A trade waits until it is received *)

(** An engine that is in a trade will show it. *)
Definition armed (c : Ctrl) : Prop :=
  match tstate c with
  | T_POP_BID_ISSUE | T_POP_BID_WAIT | T_POP_ASK_ISSUE | T_POP_ASK_WAIT | T_UPDATE_BID_ISSUE | T_UPDATE_BID_WAIT
  | T_UPDATE_ASK_ISSUE | T_UPDATE_ASK_WAIT | T_EMIT_TRADE => trade_event_pending c = true
  | _ => True
  end.

Lemma armed_next {V} `{MmuPort V} e i (E : Engine V) : armed (ctrl E) -> armed (ctrl_clock e i E).
Proof.
  unfold armed, ctrl_clock, tn_state. intros Ha. cbn [tstate trade_event_pending].
  destruct (tstate (ctrl E)); rewrite ?(bool_decide_eq_true_2 (T_DECIDE = T_DECIDE)) by done;
    rewrite ?bool_decide_eq_false_2 by done; cbn [andb]; destruct (trade_match E); repeat case_match; done.
Qed.

(** The receiver is ready when nothing is shown: this makes no difference. *)
Definition lenient {V} (i : EngineIn) (E : Engine V) : EngineIn :=
  mkEngineIn (now_ts i) (order_in_valid i) (order_in_data i) (trade_out_ready i || negb (trade_out_valid E)).

Lemma lenient_clock {V} `{MmuPort V} e i (E : Engine V) : armed (ctrl E) -> engine_clock e (lenient i E) E = engine_clock e i E.
Proof.
  intros Ha. unfold engine_clock. f_equal. unfold ctrl_clock, tn_state, lenient. cbn [order_in_valid trade_out_ready order_in_data].
  destruct (decide (tstate (ctrl E) = T_EMIT_TRADE)) as [Hs|Hs].
  - assert (Hv : trade_out_valid E = true).
    { unfold trade_out_valid, armed in *. rewrite Hs in *. rewrite bool_decide_eq_true_2 by done. exact Ha. }
    by rewrite Hv, orb_false_r.
  - rewrite (bool_decide_eq_false_2 (tstate (ctrl E) = T_EMIT_TRADE)) by done. by destruct (tstate (ctrl E)).
Qed.

Lemma lenient_out {V} i (E : Engine V) : trade_out (lenient i E) E = trade_out i E.
Proof. unfold trade_out, lenient. cbn. by destruct (trade_out_valid E), (trade_out_ready i). Qed.

(** ** Trades by engine *)

Definition of_engine (e : Z) (l : list (Z * Z)) : list Z := map snd (List.filter (fun x => fst x =? e) l).

Lemma of_engine_app e l l' : of_engine e (l ++ l') = of_engine e l ++ of_engine e l'.
Proof. unfold of_engine. by rewrite List.filter_app, map_app. Qed.

Lemma of_engine_chosen e (P : Z -> bool) (d : Z -> Z) l :
  NoDup l -> of_engine e (map (fun x => (x, d x)) (List.filter P l)) = if bool_decide (e ∈ l) && P e then [d e] else [].
Proof.
  unfold of_engine. induction 1 as [|x l Hx Hn IH]; [done|]. cbn [List.filter].
  destruct (decide (e = x)) as [->|Hne].
  - rewrite bool_decide_eq_true_2 by left. rewrite bool_decide_eq_false_2 in IH by done. destruct (P x); cbn; [|exact IH].
    rewrite Z.eqb_refl. cbn. by rewrite IH.
  - rewrite (bool_decide_ext (e ∈ x :: l) (e ∈ l)) by set_solver. rewrite <- IH. destruct (P x); [|done]. cbn.
    by rewrite (proj2 (Z.eqb_neq x e)) by congruence.
Qed.

Lemma handed_of e i m :
  0 <= e < 8 -> of_engine e (handed i m) = if eng_valid i e && trade_ready i m e then [eng_data i e] else [].
Proof.
  intros He. unfold handed. rewrite of_engine_chosen by apply NoDup_seqZ. rewrite bool_decide_eq_true_2 by (apply elem_of_seqZ; lia). done.
Qed.

(** All trades are of one of the eight. *)
Lemma of_engines_length l :
  Forall (fun x => 0 <= fst x < 8) l -> length l = sum_list (map (fun e => length (of_engine e l)) (seqZ 0 8)).
Proof.
  induction 1 as [|[x d] l Hx _ IH]; [done|]. cbn [length]. rewrite IH. clear IH. cbn [fst] in Hx. change (seqZ 0 8) with [0;1;2;3;4;5;6;7].
  unfold of_engine. cbn [map sum_list sum_list_with List.filter fst].
  assert (Hc : x = 0 \/ x = 1 \/ x = 2 \/ x = 3 \/ x = 4 \/ x = 5 \/ x = 6 \/ x = 7) by lia.
  destruct Hc as [-> | [-> | [-> | [-> | [-> | [-> | [-> | ->]]]]]]]; simpl; lia.
Qed.

(** ** A run from reset *)

(** A dispatched order with its time stamp, as its engine takes it. *)
Definition stamped (e w t : Z) : bool * Z := (negb (Z.testbit w 31), order_node e (mkEngineIn t false w false)).

(** The orders [ws], taken in the cycles [cs]. *)
Definition stamped_all (e : Z) (ws : list Z) (cs : list nat) : list (bool * Z) :=
  zip_with (fun w c => stamped e w (Z.of_nat c mod 2 ^ 32)) ws cs.

Lemma sorted_snoc cs n : Sorted lt cs -> Forall (fun c => (c < n)%nat) cs -> Sorted lt (cs ++ [n]).
Proof.
  induction 1 as [|c cs Hs IH Hc]; intros Hn; [by repeat constructor|]. apply Forall_cons in Hn as [Hcn Hn]. cbn.
  constructor; [by apply IH|]. destruct cs; constructor; [done|by inversion Hc].
Qed.

Section Session.
Variable J : Junk.
Variable bus : nat -> BusIn.
Hypothesis HJ : forall e, 0 <= e < 8 -> length (bram_junk J e) = 128%nat.
Hypothesis Hkey : forall n, Z.testbit (KEY (bus n)) 0 = true.

#[local] Notation B := (board_at J bus).

(** What has left the engines before the cycle [n], and what each has taken. *)
Fixpoint left_by (n : nat) : list (Z * Z) :=
  match n with O => [] | S m => left_by m ++ handed (merge_ins (B m)) (b_merge (B m)) end.
Fixpoint taken_by (e : Z) (n : nat) : list Z :=
  match n with O => [] | S m => taken_by e m ++ sends (disp_ins (B m)) (b_dispatcher (B m)) e end.

Definition ins_of (e : Z) (n : nat) : EngineIn := lenient (engine_ins (B n) e) (engine_on J bus e n).

Lemma now_at n : b_now (B n) = Z.of_nat n mod 2 ^ 32.
Proof.
  induction n as [|n IH]; [done|]. rewrite board_at_next by done. cbn [board_edge b_now]. rewrite IH, Zplus_mod_idemp_l. f_equal. lia.
Qed.

Lemma clock_of e n : 0 <= now_ts (ins_of e n) < 2 ^ 32.
Proof. cbn [ins_of lenient now_ts engine_ins]. rewrite now_at. by apply Z.mod_pos_bound. Qed.

Section Engine.
Variable e : Z.
Hypothesis He : 0 <= e < 8.

#[local] Notation E := (engine_on J bus e).

Lemma engine_run_on n : engine_at e (ins_of e) (E 0) n = E n /\ armed (ctrl (E n)).
Proof.
  induction n as [|n [IH Ha]]; [done|]. cbn [engine_at]. rewrite IH. unfold ins_of. rewrite lenient_clock by done.
  rewrite board_engine by done. split; [done|]. rewrite <- board_engine by done. by apply armed_next.
Qed.

Lemma left_trades n : of_engine e (left_by n) = trades_at e (ins_of e) (E 0) n.
Proof.
  induction n as [|n IH]; [done|]. cbn [left_by trades_at]. rewrite of_engine_app, IH, handed_of by done. f_equal.
  rewrite (proj1 (engine_run_on n)). unfold ins_of. by rewrite lenient_out.
Qed.

(** The engine takes what its lane sends. *)
Lemma takes_sends n :
  sends (disp_ins (B n)) (b_dispatcher (B n)) e = if takes_at e (ins_of e) (E 0) n then [order_in_data (ins_of e n)] else [].
Proof. unfold sends, takes_at. rewrite (proj1 (engine_run_on n)). rewrite andb_comm. reflexivity. Qed.

Lemma orders_stamped n :
  exists cs, length cs = length (taken_by e n) /\ Sorted lt cs /\ Forall (fun c => (c < n)%nat) cs /\
    orders_at e (ins_of e) (E 0) n = stamped_all e (taken_by e n) cs.
Proof.
  induction n as [|n (cs & Hl & Hs & Hn & Ho)]; [by exists []|]. cbn [taken_by orders_at]. rewrite takes_sends.
  destruct (takes_at e (ins_of e) (E 0) n).
  - exists (cs ++ [n]). split; [rewrite !length_app; simpl; lia|]. split; [|split].
    + by apply sorted_snoc.
    + apply Forall_app. split; [eapply Forall_impl; [exact Hn|]; cbn; lia|]. apply Forall_singleton. lia.
    + rewrite Ho. unfold stamped_all. rewrite zip_with_app by done. f_equal. cbn [zip_with]. by rewrite <- now_at.
  - exists cs. rewrite !app_nil_r. do 2 (split; [done|]). split; [|done]. eapply Forall_impl; [exact Hn|]. cbn. lia.
Qed.

(** ** The trades of an engine *)

#[local] Instance laws_on : MmuLaws (Shared e) := shared_laws e He.

Lemma engine_start : tstate (ctrl (E 0)) = T_IDLE /\ exists w, books (E 0) w (book_of [] []).
Proof. rewrite engine_on_reset. apply (reset_books e _ He). by apply HJ. Qed.

Lemma orders_length n : length (orders_at e (ins_of e) (E 0) n) = length (taken_by e n).
Proof. destruct (orders_stamped n) as (cs & Hl & _ & _ & ->). unfold stamped_all. rewrite length_zip_with. lia. Qed.

Lemma session_history n :
  (length (taken_by e n) <= 512)%nat ->
  of_engine e (left_by n) `prefix_of` fst (fst (trade_all (orders_at e (ins_of e) (E 0) n))) /\
  (tstate (ctrl (E n)) = T_IDLE -> rest_at e (E 0) (ins_of e) n).
Proof.
  intros Hn. rewrite left_trades. rewrite <- (proj1 (engine_run_on n)).
  apply (engine_history e 512 (E 0) He ltac:(lia) (shared_capacity e He) engine_start (ins_of e) n (clock_of e)).
  rewrite orders_length. lia.
Qed.
End Engine.

(** C6: the hardware from its reset on, whatever the software writes and reads and whichever
of the other buttons are pressed, as long as the reset button [KEY[0]] is not, with the
eight engines working at the same time on one MMU: at every cycle, the trades that have left an engine are a beginning of those that the reference rule makes
of the orders that it has taken from its lane, each with the time at which it was taken,
up to 512 of them; what the other engines do makes no difference. *)
Theorem board_trades e n :
  0 <= e < 8 -> (length (taken_by e n) <= 512)%nat ->
  exists cs, length cs = length (taken_by e n) /\ Sorted lt cs /\ Forall (fun c => (c < n)%nat) cs /\
    of_engine e (left_by n) `prefix_of` fst (fst (trade_all (stamped_all e (taken_by e n) cs))).
Proof.
  intros He Hn. destruct (orders_stamped e He n) as (cs & Hl & Hs & Hc & Ho). exists cs. do 3 (split; [done|]).
  rewrite <- Ho. by apply session_history.
Qed.
End Session.

(** ** A run *)

(** The session of HwBoard, and then nothing more. *)
Definition demo_bus (n : nat) : BusIn := default bus_rest (demo_session !! n).

Lemma some_junk_words e : 0 <= e < 8 -> length (bram_junk some_junk e) = 128%nat.
Proof. intros _. apply length_replicate. Qed.

Lemma demo_key n : Z.testbit (KEY (demo_bus n)) 0 = true.
Proof.
  unfold demo_bus. destruct (demo_session !! n) as [i|] eqn:Hi; [|done]. cbn [default].
  assert (Hf : forallb (fun i => Z.testbit (KEY i) 0) demo_session = true) by (vm_compute; reflexivity).
  rewrite forallb_forall in Hf. by apply Hf, list_elem_of_In, list_elem_of_lookup_2 with n.
Qed.

(** In seventeen cycles the engine 2 has taken an order. *)
Lemma board_trades_witness :
  length (taken_by some_junk demo_bus 2 17) = 1%nat /\
  exists cs, length cs = length (taken_by some_junk demo_bus 2 17) /\ Sorted lt cs /\ Forall (fun c => (c < 17)%nat) cs /\
    of_engine 2 (left_by some_junk demo_bus 17) `prefix_of`
      fst (fst (trade_all (stamped_all 2 (taken_by some_junk demo_bus 2 17) cs))).
Proof.
  assert (Hl : length (taken_by some_junk demo_bus 2 17) = 1%nat) by (vm_compute; reflexivity). split; [exact Hl|].
  refine (board_trades some_junk demo_bus some_junk_words demo_key 2 17 engine_two _). rewrite Hl. repeat constructor.
Defined.
