(* ===== verification/HwBatch.v ===== *)
(** * HwBatch: a batch of orders on the board

Once the software has started the dispatcher, every order goes through its engine, and the
board comes to rest with all trades in the log ([board_session]), unless the software
clears the log or the dispatcher meanwhile or somebody presses the reset button. *)
From Stdlib Require Import Sorted.
From S2P Require Import Prelude HeapModel Machine Heap Book.
From S2P Require Import HwHeap HwTiers HwAccess HwEngine HwRun HwSettle HwOrder HwHistory HwTurn HwMmu HwPort HwSystem HwDispatch HwLog HwBoard HwWire HwSession.

#[local] Arguments board_clock : simpl never.
#[local] Arguments disp_clock : simpl never.
#[local] Arguments merge_clock : simpl never.
#[local] Arguments engine_clock : simpl never.

(** A write that clears neither the log nor the dispatcher. *)
Definition keeps (i : BusIn) : bool := negb (cmd_clear i) && negb (writes i ADDR_CONTROL && Z.testbit (writedata i) 2).

Section Batch.
Variable J : Junk.
Variable bus : nat -> BusIn.
Hypothesis HJ : forall e, 0 <= e < 8 -> length (bram_junk J e) = 128%nat.
Hypothesis Hkey : forall n, Z.testbit (KEY (bus n)) 0 = true.

#[local] Notation B := (board_at J bus).
#[local] Notation D n := (b_dispatcher (board_at J bus n)).

(** What the lane of an engine holds. *)
Definition lane_at (e : Z) (n : nat) : list Z := lane_list (fifos (D n) e).

(** The words that a lane has taken from the software before the cycle [n]. *)
Fixpoint pushed_by (e : Z) (n : nat) : list Z :=
  match n with O => [] | S m => pushed_by e m ++ takes (disp_ins (B m)) (D m) e end.

Variable n0 : nat.
Hypothesis Hbefore : forall n, (n < n0)%nat -> dstate (D n) <> DISPATCH.
Hypothesis Hbegin : dstate (D n0) = DISPATCH.
Hypothesis Hfew : forall e, 0 <= e < 8 -> (length (pushed_by e n0) <= 512)%nat.
Hypothesis Hkeeps : forall n, (n0 <= S n)%nat -> keeps (bus n) = true.

Lemma disp_ok_at n : disp_ok (D n).
Proof. induction n as [|n IH]; [apply disp_reset_ok|]. rewrite disp_at_next by done. by apply disp_ok_next. Qed.

(** Before the first dispatch nothing leaves a lane. *)
Lemma lane_pushed e n : (n <= n0)%nat -> lane_at e n = pushed_by e n /\ (dstate (D n) = IDLE \/ dstate (D n) = WRITE \/ n = n0).
Proof.
  induction n as [|n IH]; intros Hn; [split; [done|by left]|]. destruct (IH ltac:(lia)) as [Hl Hs].
  assert (Hiw : dstate (D n) = IDLE \/ dstate (D n) = WRITE) by (destruct Hs as [?|[?|?]]; [by left|by right|lia]). split.
  - unfold lane_at. rewrite disp_at_next by done. rewrite lane_list_next by apply disp_ok_at.
    unfold clears, order_out_valid. destruct Hiw as [Hi|Hi]; rewrite Hi; cbn [pushed_by]; by rewrite <- Hl.
  - pose proof (Hbefore (S n)) as Hnot. rewrite disp_at_next in * by done. change (dstate (disp_clock ?i ?d)) with (next_state i d) in *. unfold next_state in *.
    destruct Hiw as [Hi|Hi]; rewrite Hi in *; [destruct (sw_begin_write _); tauto|].
    destruct (sw_begin_dispatch _); [|tauto]. right. right. destruct (decide (S n = n0)) as [|Hne]; [done|]. by destruct Hnot; [lia|].
Qed.

Lemma no_clear n : (n0 <= n)%nat -> clear_done_pulse (b_avl (B n)) = false /\ log_clear_pulse (b_avl (B n)) = false.
Proof.
  intros Hn. destruct n as [|n]; [done|]. specialize (Hkeeps n Hn). unfold keeps in Hkeeps.
  apply andb_true_iff in Hkeeps as [Hc%negb_true_iff Hd%negb_true_iff]. rewrite board_at_next by done. cbn [board_edge b_avl avl_clock clear_done_pulse log_clear_pulse]. done.
Qed.

(** Until all orders are gone they are dispatched, and then the dispatcher is done. *)
Lemma phase_at n : (n0 <= n)%nat -> dstate (D n) = DISPATCH \/ dstate (D n) = DONE.
Proof.
  induction 1 as [|n Hle IH]; [by left|]. rewrite disp_at_next by done. unfold disp_clock, next_state. cbn [dstate].
  destruct (no_clear n Hle) as [Hc _]. destruct IH as [-> | ->]; [by destruct (all_empty _); [right|left]|].
  cbn [sw_clear_done disp_ins]. rewrite Hc. by right.
Qed.

(** *** The lanes *)

Section Engine.
Variable e : Z.
Hypothesis He : 0 <= e < 8.

#[local] Notation E := (engine_on J bus e).
#[local] Notation idle n := (tstate (ctrl (engine_on J bus e n)) = T_IDLE).

Lemma lane_at_next n :
  (n0 <= n)%nat -> lane_at e (S n) = if order_out_valid (D n) e && order_in_ready (E n) then tail (lane_at e n) else lane_at e n.
Proof.
  intros Hn. unfold lane_at. rewrite disp_at_next by done. rewrite lane_list_next by apply disp_ok_at.
  destruct (no_clear n Hn) as [Hc _]. unfold clears. cbn [sw_clear_done disp_ins]. rewrite Hc, andb_false_r.
  rewrite takes_only, app_nil_r by (destruct (phase_at n Hn) as [-> | ->]; done). reflexivity.
Qed.

Lemma taken_next n :
  taken_by J bus e (S n) = taken_by J bus e n ++ (if order_out_valid (D n) e && order_in_ready (E n) then [order_out (D n) e] else []).
Proof. reflexivity. Qed.

Lemma taken_before n : (n <= n0)%nat -> taken_by J bus e n = [].
Proof.
  induction n as [|n IH]; intros Hn; [done|]. rewrite taken_next, IH by lia. unfold order_out_valid.
  by rewrite bool_decide_eq_false_2 by (apply Hbefore; lia).
Qed.

(** Nothing gets lost between the lane and its engine. *)
Lemma taken_lane n : (n0 <= n)%nat -> taken_by J bus e n ++ lane_at e n = lane_at e n0.
Proof.
  induction 1 as [|n Hle IH]; [by rewrite taken_before|]. rewrite taken_next, lane_at_next, <- IH, <- app_assoc by done. f_equal.
  destruct (order_out_valid (D n) e) eqn:Hv; [|done]. destruct (order_in_ready (E n)); [|done].
  unfold lane_at. by destruct (lane_valid_head _ _ (disp_ok_at n) Hv) as [l ->].
Qed.

Lemma taken_few n : (length (taken_by J bus e n) <= 512)%nat.
Proof.
  destruct (decide (n <= n0)%nat); [rewrite taken_before by done; simpl; lia|].
  pose proof (taken_lane n ltac:(lia)) as Ht. apply (f_equal length) in Ht. rewrite length_app in Ht. rewrite (proj1 (lane_pushed e n0 (Nat.le_refl n0))) in Ht. pose proof (Hfew e He). lia.
Qed.
End Engine.

(** *** The log *)

Lemma all_few e n : 0 <= e < 8 -> (length (of_engine e (left_by J bus n)) <= 512)%nat.
Proof.
  intros He. destruct (session_history J bus HJ Hkey e He n (taken_few e He n)) as [Hp _]. apply prefix_length in Hp.
  pose proof (trade_all_few (orders_at e (ins_of J bus e) (engine_on J bus e 0) n)) as Hf.
  destruct (trade_all _) as [[log bids] asks]. cbn [fst] in Hp. rewrite orders_length in Hf by done. pose proof (taken_few e He n). lia.
Qed.

Lemma left_engines n : Forall (fun x => 0 <= fst x < 8) (left_by J bus n).
Proof. induction n as [|n IH]; [constructor|]. apply Forall_app. split; [done|apply handed_engines]. Qed.

Lemma left_few n : (length (left_by J bus n) <= 4096)%nat.
Proof.
  rewrite of_engines_length by apply left_engines. change (seqZ 0 8) with [0;1;2;3;4;5;6;7]. cbn [map sum_list sum_list_with].
  pose proof (all_few 0 n). pose proof (all_few 1 n). pose proof (all_few 2 n). pose proof (all_few 3 n).
  pose proof (all_few 4 n). pose proof (all_few 5 n). pose proof (all_few 6 n). pose proof (all_few 7 n). simpl. lia.
Qed.

(** Before the first order is dispatched nothing has left. *)
Lemma left_before n : (n <= n0)%nat -> left_by J bus n = [].
Proof.
  intros Hn. apply length_zero_iff_nil. rewrite of_engines_length by apply left_engines.
  assert (Hz : forall e, 0 <= e < 8 -> of_engine e (left_by J bus n) = []).
  { intros e He. destruct (session_history J bus HJ Hkey e He n (taken_few e He n)) as [Hp _].
    pose proof (orders_length J bus Hkey e He n) as Hl. rewrite taken_before in Hl by done.
    apply length_zero_iff_nil in Hl. rewrite Hl in Hp. by apply prefix_nil_inv in Hp. }
  change (seqZ 0 8) with [0;1;2;3;4;5;6;7]. cbn [map]. by rewrite !Hz by lia.
Qed.

(** The log holds what has left the engines. *)
Lemma log_at n : tlog_rep (tlog (b_merge (B n))) (entries (left_by J bus n)).
Proof.
  induction n as [|n IH]; [apply tlog_reset_rep|]. pose proof (merge_next_rep (merge_ins (B n)) _ _ IH) as Hn.
  rewrite <- merge_at_next in Hn by done.
  cbn [merge_ins log_clear] in Hn. destruct (decide (S n <= n0)%nat) as [Hle|Hgt].
  - rewrite (left_before (S n) Hle). pose proof (left_before (S n) Hle) as Hb. cbn [left_by] in Hb. apply app_eq_nil in Hb as [Hb Hh].
    rewrite Hb, Hh in Hn. by destruct (log_clear_pulse _).
  - rewrite (proj2 (no_clear n ltac:(lia))) in Hn. cbn [left_by]. unfold entries in *. by rewrite map_app.
Qed.

Lemma log_has_room n : trade_in_ready (tlog (b_merge (B n))) = true.
Proof.
  unfold trade_in_ready, LOG_DEPTH. rewrite (tl_count _ _ (log_at n)). unfold entries. rewrite length_map.
  pose proof (left_few n). lia.
Qed.

(** So every trade is received. *)
Lemma received e : 0 <= e < 8 -> forall n, exists m, trade_out_ready (ins_of J bus e (n + m)) = true.
Proof.
  intros He. cut (forall k n, before (rr_ptr (b_merge (B n))) e < Z.of_nat k -> exists m, trade_out_ready (ins_of J bus e (n + m)) = true).
  { intros Hk n. apply (Hk 8%nat). unfold before. apply Z.mod_pos_bound. lia. }
  induction k as [|k IH]; intros n Hb.
  { unfold before in Hb. pose proof (Z.mod_pos_bound (e - rr_ptr (b_merge (B n))) 8). lia. }
  destruct (trade_out_valid (b_engines (B n) e)) eqn:Hv.
  2: { exists 0%nat. rewrite Nat.add_0_r. cbn [ins_of lenient trade_out_ready]. change (trade_out_valid (engine_on J bus e n)) with (trade_out_valid (b_engines (B n) e)).
       by rewrite Hv, orb_true_r. }
  destruct (turn_passes (merge_ins (B n)) (b_merge (B n)) e He Hv (log_has_room n)) as [Hr|Hlt].
  - exists 0%nat. rewrite Nat.add_0_r. cbn [ins_of lenient trade_out_ready engine_ins]. by rewrite Hr.
  - destruct (IH (S n)) as [m Hm]; [|exists (S m); by rewrite Nat.add_succ_r].
    rewrite merge_at_next by done. lia.
Qed.

(** *** An engine empties its lane *)

Section Emptied.
Variable e : Z.
Hypothesis He : 0 <= e < 8.

#[local] Notation E := (engine_on J bus e).
#[local] Notation idle n := (tstate (ctrl (engine_on J bus e n)) = T_IDLE).
#[local] Instance laws_of : MmuLaws (Shared e) := shared_laws e He.

Lemma taken_grow n n' : (n <= n')%nat -> taken_by J bus e n `prefix_of` taken_by J bus e n'.
Proof. induction 1 as [|n' _ IH]; [done|]. cbn. by apply prefix_app_r. Qed.

Lemma to_rest n : exists n', (n <= n')%nat /\ idle n' /\ taken_by J bus e n' = taken_by J bus e n.
Proof.
  destruct (engine_rests_again e 512 (E 0) He ltac:(lia) (shared_capacity e He) (engine_start J bus HJ e He) (ins_of J bus e)
    (clock_of J bus Hkey e) (received e He) n) as (n' & Hle & (b & a & Hr) & Ho).
  { rewrite orders_length by done. pose proof (taken_few e He n). lia. }
  exists n'. split; [done|]. rewrite <- (proj1 (engine_run_on J bus Hkey e He n')). split; [apply Hr|].
  apply (f_equal length) in Ho. rewrite !orders_length in Ho by done. destruct (taken_grow n n' Hle) as [l Hl].
  rewrite Hl, length_app in Ho. destruct l; [by rewrite app_nil_r in Hl|simpl in Ho; lia].
Qed.

Lemma idle_stays n : idle n -> order_out_valid (D n) e = false -> idle (S n) /\ taken_by J bus e (S n) = taken_by J bus e n.
Proof.
  intros Hs Hv. rewrite taken_next, Hv, app_nil_r. split; [|done]. rewrite <- (proj1 (engine_run_on J bus Hkey e He (S n))). cbn [engine_at].
  rewrite (proj1 (engine_run_on J bus Hkey e He n)). unfold engine_clock, ctrl_clock, tn_state. cbn [ctrl tstate]. rewrite Hs.
  cbn [ins_of lenient order_in_valid engine_ins]. by rewrite Hv.
Qed.

(** How many cycles until the first order of a lane is shown. *)
Definition unshown (f : Dfifo) : nat := if out_valid f then 0 else if rd_pending f then 1 else 2.

(** While orders are dispatched, a lane that holds one reads it and shows it. *)
Lemma fifo_reads f i :
  dfifo_rep f (lane_list f) -> lane_list f <> [] -> clear i = false -> dispatch_en i = true -> out_valid f = false ->
  (unshown (dfifo_clock i f) < unshown f)%nat.
Proof.
  intros [_ Hc _ _ _ _] Hl Hcl Hde Hv. unfold unshown, dfifo_clock, do_launch_read, do_consume. rewrite Hcl, Hde, Hv. cbn [andb negb].
  destruct (rd_pending f) eqn:Hp; cbn; [lia|]. destruct (Z.eqb_spec (mem_count f) 0) as [Hz|Hz]; [|cbn; lia].
  destruct Hl. unfold lane_list. by rewrite Hv, Hp, Hz.
Qed.

Lemma dispatching n : lane_at e n <> [] -> (n0 <= n)%nat -> dstate (D n) = DISPATCH.
Proof. intros Hl Hn. destruct (phase_at n Hn) as [Hp|Hp]; [done|]. destruct Hl. apply (ok_none _ (disp_ok_at n)); [by right|done]. Qed.

Lemma shown k : forall n,
  (n0 <= n)%nat -> idle n -> lane_at e n <> [] -> (unshown (fifos (D n) e) <= k)%nat ->
  exists n', (n <= n')%nat /\ idle n' /\ order_out_valid (D n') e = true /\ taken_by J bus e n' = taken_by J bus e n.
Proof.
  induction k as [|k IH]; intros n Hn Hs Hl Hk; pose proof (dispatching n Hl Hn) as Hd.
  all: destruct (order_out_valid (D n) e) eqn:Hv; [by exists n|].
  all: assert (Ho : out_valid (fifos (D n) e) = false) by (unfold order_out_valid in Hv; by rewrite Hd in Hv).
  { unfold unshown in Hk. rewrite Ho in Hk. destruct (rd_pending _); lia. }
  destruct (idle_stays n Hs Hv) as [Hs2 Ht2]. destruct (IH (S n)) as (n' & Hn' & Hi & Hv' & Ht); [lia|done| | |].
  - rewrite lane_at_next, Hv by done. exact Hl.
  - rewrite disp_at_next by done. unfold disp_clock at 1. cbn [fifos]. rewrite eight_eq.
    assert (unshown (dfifo_clock (fifo_ins (disp_ins (B n)) (D n) e) (fifos (D n) e)) < unshown (fifos (D n) e))%nat; [|lia].
    apply fifo_reads; [apply (ok_lane _ (disp_ok_at n))|exact Hl|cbn; by rewrite Hd|cbn; by rewrite Hd|exact Ho].
  - exists n'. split; [lia|]. split; [done|]. split; [done|]. congruence.
Qed.

(** One order after the other. *)
Lemma finishes k : forall n, (n0 <= n)%nat -> length (lane_at e n) = k -> exists n', (n <= n')%nat /\ idle n' /\ lane_at e n' = [].
Proof.
  induction k as [k IH] using lt_wf_ind. intros n Hn Hk. destruct (to_rest n) as (n1 & Hn1 & Hs1 & Ht1).
  assert (Hl1 : lane_at e n1 = lane_at e n).
  { apply (app_inv_head (taken_by J bus e n)). rewrite <- Ht1 at 1. rewrite !taken_lane by lia || done. done. }
  destruct (decide (lane_at e n1 = [])) as [He1|He1]; [by exists n1|].
  destruct (shown 2 n1 ltac:(lia) Hs1 He1) as (n2 & Hn2 & Hs2 & Hv2 & Ht2); [unfold unshown; repeat case_match; lia|].
  assert (Hl2 : lane_at e n2 = lane_at e n).
  { apply (app_inv_head (taken_by J bus e n2)). rewrite taken_lane by lia || done. rewrite Ht2, Ht1. by rewrite taken_lane. }
  assert (Hl3 : lane_at e (S n2) = tail (lane_at e n)).
  { rewrite lane_at_next, Hv2, Hl2 by lia. unfold order_in_ready. by rewrite bool_decide_eq_true_2. }
  rewrite Hl1 in He1. destruct (lane_at e n) as [|w l] eqn:Hln; [done|]. cbn [length tail] in *.
  destruct (IH (length l) ltac:(lia) (S n2) ltac:(lia)) as (n' & Hn' & Hr); [by rewrite Hl3|]. exists n'. split; [lia|done].
Qed.

(** An empty lane stays empty, and its engine at rest. *)
Lemma stays n n' : (n0 <= n)%nat -> (n <= n')%nat -> idle n -> lane_at e n = [] -> idle n' /\ lane_at e n' = [].
Proof.
  intros Hn Hle Hs Hl. induction Hle as [|n' Hle [Hs' Hl']]; [done|].
  assert (Hv : order_out_valid (D n') e = false).
  { destruct (order_out_valid (D n') e) eqn:Hv; [|done]. destruct (lane_valid_head _ _ (disp_ok_at n') Hv) as [l Hc].
    unfold lane_at in Hl'. congruence. }
  destruct (idle_stays n' Hs' Hv) as [Hs2 _]. split; [done|]. rewrite lane_at_next, Hv by lia. exact Hl'.
Qed.
End Emptied.

(** *** All engines *)

Lemma all_finish l :
  Forall (fun e => 0 <= e < 8) l ->
  exists N, (n0 <= N)%nat /\ forall e n, e ∈ l -> (N <= n)%nat -> tstate (ctrl (engine_on J bus e n)) = T_IDLE /\ lane_at e n = [].
Proof.
  induction 1 as [|e l He _ (N & HN & IH)].
  - exists n0. split; [lia|]. intros e n Hin. by apply elem_of_nil in Hin.
  - destruct (finishes e He _ N HN eq_refl) as (n' & Hle & Hs & Hl). exists n'. split; [lia|].
    intros e' n [-> | Hin]%elem_of_cons Hn; [by apply (stays e He n'); [lia|..]|]. apply IH; [done|lia].
Qed.

Lemma ends :
  exists n, (n0 <= n)%nat /\ trade_done (B n) = true /\
    forall e, 0 <= e < 8 -> tstate (ctrl (engine_on J bus e n)) = T_IDLE /\ lane_at e n = [].
Proof.
  destruct (all_finish (seqZ 0 8)) as (N & HN & Hf); [apply Forall_forall; intros e He%elem_of_seqZ; lia|].
  exists (S N). split; [lia|]. split; [|intros e He; apply Hf; [apply elem_of_seqZ; lia|lia]].
  unfold trade_done, all_engines_idle. apply andb_true_iff. split.
  - apply bool_decide_eq_true. rewrite disp_at_next by done. change (dstate (disp_clock ?i ?d)) with (next_state i d). unfold next_state.
    assert (Ha : all_empty (D N) = true) by (apply (all_empty_lanes _ (disp_ok_at N)); intros s Hs; apply (Hf s N); [apply elem_of_seqZ; lia|lia]).
    destruct (phase_at N HN) as [-> | ->]; [by rewrite Ha|]. cbn [sw_clear_done disp_ins]. by rewrite (proj1 (no_clear N HN)).
  - apply forallb_forall. intros e He%list_elem_of_In. apply bool_decide_eq_true. by apply (Hf e (S N) He); lia.
Qed.

(** C2: the hardware from its reset on, all parts of it at work, while nobody presses the
reset button [KEY[0]]: when the dispatcher starts with any orders that its lanes have taken
from the software (up to 512 in each), and the software then does what it likes short of
clearing the log or the dispatcher, the board reports at some time that trading is done;
and then the log holds an entry for each of the trades of all engines, with its engine,
price, time stamp and the lower seven bits of its amount, and these trades are for each
engine exactly those that the reference rule makes of the orders of its lane, in the order
in which they were written, each with the time at which its engine took it. *)
Theorem board_session :
  exists n log, (n0 <= n)%nat /\ trade_done (B n) = true /\ tlog_rep (tlog (b_merge (B n))) log /\
    Forall2 (fun t x => logged (fst t) (snd t) x) (left_by J bus n) log /\
    forall e, 0 <= e < 8 ->
    exists cs, length cs = length (pushed_by e n0) /\ Sorted lt cs /\
      let '(all, bids, asks) := trade_all (stamped_all e (pushed_by e n0) cs) in
      of_engine e (left_by J bus n) = all /\ uncrossed (map node_order asks) (map node_order bids).
Proof.
  destruct ends as (n & Hn & Hdone & Hend). exists n, (entries (left_by J bus n)). split; [done|]. split; [done|].
  split; [apply log_at|]. split; [apply entries_logged, left_engines|].
  intros e He. destruct (Hend e He) as [Hs Hl]. destruct (orders_stamped J bus Hkey e He n) as (cs & Hlen & Hsort & _ & Ho).
  assert (Ht : taken_by J bus e n = pushed_by e n0).
  { rewrite <- (proj1 (lane_pushed e n0 (Nat.le_refl n0))), <- (taken_lane e n Hn), Hl. by rewrite app_nil_r. }
  rewrite Ht in *. exists cs. split; [done|]. split; [done|]. rewrite <- Ho, left_trades by done.
  destruct (session_history J bus HJ Hkey e He n) as [_ Hr]; [rewrite Ht; by apply Hfew|].
  destruct (Hr Hs) as (bids & asks & [_ _ _ _ -> _ Hu]). done.
Qed.
End Batch.

(** ** A run *)

(** The dispatcher of the demonstration starts in its thirteenth cycle. *)
Lemma demo_starts n : (n < 13)%nat -> dstate (b_dispatcher (board_at some_junk demo_bus n)) <> DISPATCH.
Proof.
  intros Hn. assert (Hf : forallb (fun n => negb (bool_decide (dstate (b_dispatcher (board_at some_junk demo_bus n)) = DISPATCH))) (seq 0 13) = true)
    by (vm_compute; reflexivity).
  rewrite forallb_forall in Hf. specialize (Hf n). rewrite <- list_elem_of_In, elem_of_seq in Hf.
  by apply negb_true_iff, bool_decide_eq_false in Hf; [|lia].
Qed.

(** A lane takes at most one word in a cycle. *)
Lemma pushed_few J bus e n : (length (pushed_by J bus e n) <= n)%nat.
Proof.
  induction n as [|n IH]; [done|]. cbn [pushed_by]. rewrite length_app. unfold takes. destruct (_ && _); simpl; lia.
Qed.

Lemma demo_pushed e : 0 <= e < 8 -> (length (pushed_by some_junk demo_bus e 13) <= 512)%nat.
Proof. intros _. pose proof (pushed_few some_junk demo_bus e 13). lia. Qed.

Lemma demo_keeps n : keeps (demo_bus n) = true.
Proof.
  unfold demo_bus. destruct (demo_session !! n) as [i|] eqn:Hi; [|done]. cbn [default].
  assert (Hf : forallb keeps demo_session = true) by (vm_compute; reflexivity).
  rewrite forallb_forall in Hf. by apply Hf, list_elem_of_In, list_elem_of_lookup_2 with n.
Qed.

Lemma board_session_witness :
  dstate (b_dispatcher (board_at some_junk demo_bus 13)) = DISPATCH /\ length (pushed_by some_junk demo_bus 2 13) = 2%nat /\
  exists n log, (13 <= n)%nat /\ trade_done (board_at some_junk demo_bus n) = true /\
    tlog_rep (tlog (b_merge (board_at some_junk demo_bus n))) log /\
    Forall2 (fun t x => logged (fst t) (snd t) x) (left_by some_junk demo_bus n) log /\
    forall e, 0 <= e < 8 ->
    exists cs, length cs = length (pushed_by some_junk demo_bus e 13) /\ Sorted lt cs /\
      let '(all, bids, asks) := trade_all (stamped_all e (pushed_by some_junk demo_bus e 13) cs) in
      of_engine e (left_by some_junk demo_bus n) = all /\ uncrossed (map node_order asks) (map node_order bids).
Proof.
  assert (Hd : dstate (b_dispatcher (board_at some_junk demo_bus 13)) = DISPATCH) by (vm_compute; reflexivity). split; [exact Hd|].
  split; [vm_compute; reflexivity|].
  exact (board_session some_junk demo_bus some_junk_words demo_key 13 demo_starts Hd demo_pushed (fun n _ => demo_keeps n)).
Defined.
