(* ===== verification/SeqConfig.v ===== *)
(** * SeqConfig: the configuration and the registers of the memory sequencer

The constants of the headers under [submodules/sequencer/] that the model uses,
with the values that this board's configuration selects. *)
From S2P Require Import Prelude.

(** ** The configuration of the interface ([sequencer_defines.pre.h]) *)

Definition AFI_CLK_FREQ : Z := 401.
Definition AFI_RATE_RATIO : Z := 1.
Definition ARRIAV : Z := 0.
Definition BFM_MODE : Z := 0.
Definition CALIB_LFIFO_OFFSET : Z := 12.
Definition CALIB_VFIFO_OFFSET : Z := 10.
Definition CYCLONEV : Z := 1.
Definition DDRX : Z := 1.
Definition ENABLE_SUPER_QUICK_CALIBRATION : Z := 0.
Definition HALF_RATE : Z := 0.
Definition HARD_PHY : Z := 1.
Definition HARD_VFIFO : Z := 1.
Definition IO_DELAY_PER_DCHAIN_TAP : Z := 25.
Definition IO_DELAY_PER_DQS_EN_DCHAIN_TAP : Z := 25.
Definition IO_DELAY_PER_OPA_TAP : Z := 312.
Definition IO_DLL_CHAIN_LENGTH : Z := 8.
Definition IO_DM_OUT_RESERVE : Z := 0.
Definition IO_DQDQS_OUT_PHASE_MAX : Z := 0.
Definition IO_DQS_EN_DELAY_MAX : Z := 31.
Definition IO_DQS_EN_DELAY_OFFSET : Z := 0.
Definition IO_DQS_EN_PHASE_MAX : Z := 7.
Definition IO_DQS_IN_DELAY_MAX : Z := 31.
Definition IO_DQS_IN_RESERVE : Z := 4.
Definition IO_DQS_OUT_RESERVE : Z := 4.
Definition IO_DQ_OUT_RESERVE : Z := 0.
Definition IO_IO_IN_DELAY_MAX : Z := 31.
Definition IO_IO_OUT1_DELAY_MAX : Z := 31.
Definition IO_IO_OUT2_DELAY_MAX : Z := 0.
Definition IO_SHIFT_DQS_EN_WHEN_SHIFT_DQS : Z := 0.
Definition LRDIMM : Z := 0.
Definition MAX_LATENCY_COUNT_WIDTH : Z := 5.
Definition NUM_SHADOW_REGS : Z := 1.
Definition QDRII : Z := 0.
Definition QUARTER_RATE : Z := 0.
Definition RDIMM : Z := 0.
Definition REG_FILE_INIT_SEQ_SIGNATURE : Z := 0x555504d3.
Definition RW_MGR_MEM_ADDRESS_MIRRORING : Z := 0.
Definition RW_MGR_MEM_CHIP_SELECT_WIDTH : Z := 1.
Definition RW_MGR_MEM_DATA_MASK_WIDTH : Z := 4.
Definition RW_MGR_MEM_DATA_WIDTH : Z := 32.
Definition RW_MGR_MEM_DQ_PER_READ_DQS : Z := 8.
Definition RW_MGR_MEM_DQ_PER_WRITE_DQS : Z := 8.
Definition RW_MGR_MEM_IF_READ_DQS_WIDTH : Z := 4.
Definition RW_MGR_MEM_IF_WRITE_DQS_WIDTH : Z := 4.
Definition RW_MGR_MEM_NUMBER_OF_CS_PER_DIMM : Z := 1.
Definition RW_MGR_MEM_NUMBER_OF_RANKS : Z := 1.
Definition RW_MGR_MEM_ODT_WIDTH : Z := 1.
Definition RW_MGR_MEM_VIRTUAL_GROUPS_PER_READ_DQS : Z := 1.
Definition RW_MGR_MEM_VIRTUAL_GROUPS_PER_WRITE_DQS : Z := 1.
Definition READ_VALID_FIFO_SIZE : Z := 16.
Definition TINIT_CNTR0_VAL : Z := 99.
Definition TINIT_CNTR1_VAL : Z := 32.
Definition TINIT_CNTR2_VAL : Z := 32.
Definition TRESET_CNTR0_VAL : Z := 99.
Definition TRESET_CNTR1_VAL : Z := 99.
Definition TRESET_CNTR2_VAL : Z := 10.

(** ** Base addresses ([system.pre.h]) *)

Definition SEQUENCER_SCC_MGR_INST_BASE : Z := 0x58000.
Definition SEQUENCER_REG_FILE_INST_BASE : Z := 0x70000.

(** ** Entry points of the instruction ROM of the RW manager ([sequencer_auto.pre.h]) *)

Definition __RW_MGR_READ_B2B_WAIT2 : Z := 0x6B.
Definition __RW_MGR_LFSR_WR_RD_BANK_0_WAIT : Z := 0x32.
Definition __RW_MGR_REFRESH_ALL : Z := 0x14.
Definition __RW_MGR_ZQCL : Z := 0x06.
Definition __RW_MGR_LFSR_WR_RD_BANK_0_NOP : Z := 0x23.
Definition __RW_MGR_LFSR_WR_RD_BANK_0_DQS : Z := 0x24.
Definition __RW_MGR_ACTIVATE_0_AND_1 : Z := 0x0D.
Definition __RW_MGR_MRS2_MIRR : Z := 0x0A.
Definition __RW_MGR_INIT_RESET_0_CKE_0 : Z := 0x6F.
Definition __RW_MGR_LFSR_WR_RD_DM_BANK_0_WAIT : Z := 0x46.
Definition __RW_MGR_ACTIVATE_1 : Z := 0x0F.
Definition __RW_MGR_MRS2 : Z := 0x04.
Definition __RW_MGR_LFSR_WR_RD_DM_BANK_0_WL_1 : Z := 0x35.
Definition __RW_MGR_MRS1 : Z := 0x03.
Definition __RW_MGR_IDLE_LOOP1 : Z := 0x7B.
Definition __RW_MGR_GUARANTEED_WRITE_WAIT2 : Z := 0x19.
Definition __RW_MGR_MRS3 : Z := 0x05.
Definition __RW_MGR_IDLE_LOOP2 : Z := 0x7A.
Definition __RW_MGR_GUARANTEED_WRITE_WAIT1 : Z := 0x1F.
Definition __RW_MGR_LFSR_WR_RD_BANK_0_DATA : Z := 0x25.
Definition __RW_MGR_GUARANTEED_WRITE_WAIT3 : Z := 0x1D.
Definition __RW_MGR_LFSR_WR_RD_DM_BANK_0_NOP : Z := 0x37.
Definition __RW_MGR_GUARANTEED_WRITE_WAIT0 : Z := 0x1B.
Definition __RW_MGR_LFSR_WR_RD_DM_BANK_0_DATA : Z := 0x39.
Definition __RW_MGR_GUARANTEED_READ_CONT : Z := 0x54.
Definition __RW_MGR_MRS3_MIRR : Z := 0x0B.
Definition __RW_MGR_IDLE : Z := 0x00.
Definition __RW_MGR_READ_B2B : Z := 0x59.
Definition __RW_MGR_LFSR_WR_RD_DM_BANK_0_DQS : Z := 0x38.
Definition __RW_MGR_GUARANTEED_WRITE : Z := 0x18.
Definition __RW_MGR_PRECHARGE_ALL : Z := 0x12.
Definition __RW_MGR_SGLE_READ : Z := 0x7D.
Definition __RW_MGR_MRS0_USER_MIRR : Z := 0x0C.
Definition __RW_MGR_RETURN : Z := 0x01.
Definition __RW_MGR_LFSR_WR_RD_DM_BANK_0 : Z := 0x36.
Definition __RW_MGR_MRS0_USER : Z := 0x07.
Definition __RW_MGR_GUARANTEED_READ : Z := 0x4C.
Definition __RW_MGR_MRS0_DLL_RESET_MIRR : Z := 0x08.
Definition __RW_MGR_INIT_RESET_1_CKE_0 : Z := 0x74.
Definition __RW_MGR_ACTIVATE_0_AND_1_WAIT2 : Z := 0x10.
Definition __RW_MGR_LFSR_WR_RD_BANK_0_WL_1 : Z := 0x21.
Definition __RW_MGR_MRS0_DLL_RESET : Z := 0x02.
Definition __RW_MGR_ACTIVATE_0_AND_1_WAIT1 : Z := 0x0E.
Definition __RW_MGR_LFSR_WR_RD_BANK_0 : Z := 0x22.
Definition __RW_MGR_CLEAR_DQS_ENABLE : Z := 0x49.
Definition __RW_MGR_MRS1_MIRR : Z := 0x09.
Definition __RW_MGR_READ_B2B_WAIT1 : Z := 0x61.

(** ** Registers, commands, stages and steps ([sequencer.pre.h]) *)

Definition RW_MGR_NUM_DM_PER_WRITE_GROUP : Z := RW_MGR_MEM_DATA_MASK_WIDTH / RW_MGR_MEM_IF_WRITE_DQS_WIDTH.
Definition RW_MGR_NUM_DQS_PER_WRITE_GROUP : Z := RW_MGR_MEM_IF_READ_DQS_WIDTH / RW_MGR_MEM_IF_WRITE_DQS_WIDTH.
Definition NUM_RANKS_PER_SHADOW_REG : Z := RW_MGR_MEM_NUMBER_OF_RANKS / NUM_SHADOW_REGS.
Definition BASE_RW_MGR : Z := 0x00090000.
Definition RW_MGR_RUN_SINGLE_GROUP : Z := BASE_RW_MGR.
Definition RW_MGR_RUN_ALL_GROUPS : Z := BASE_RW_MGR + 0x0400.
Definition RW_MGR_LOAD_CNTR_0 : Z := BASE_RW_MGR + 0x0800.
Definition RW_MGR_LOAD_CNTR_1 : Z := BASE_RW_MGR + 0x0804.
Definition RW_MGR_LOAD_CNTR_2 : Z := BASE_RW_MGR + 0x0808.
Definition RW_MGR_LOAD_CNTR_3 : Z := BASE_RW_MGR + 0x080C.
Definition RW_MGR_LOAD_JUMP_ADD_0 : Z := BASE_RW_MGR + 0x0C00.
Definition RW_MGR_LOAD_JUMP_ADD_1 : Z := BASE_RW_MGR + 0x0C04.
Definition RW_MGR_LOAD_JUMP_ADD_2 : Z := BASE_RW_MGR + 0x0C08.
Definition RW_MGR_LOAD_JUMP_ADD_3 : Z := BASE_RW_MGR + 0x0C0C.
Definition RW_MGR_RESET_READ_DATAPATH : Z := BASE_RW_MGR + 0x1000.
Definition RW_MGR_SET_CS_AND_ODT_MASK : Z := BASE_RW_MGR + 0x1400.
Definition RW_MGR_RANK_ALL : Z := 0x00.
Definition RW_MGR_ODT_MODE_OFF : Z := 0.
Definition RW_MGR_ODT_MODE_READ_WRITE : Z := 1.
Definition NUM_CALIB_REPEAT : Z := 1.
Definition NUM_READ_TESTS : Z := 7.
Definition NUM_READ_PB_TESTS : Z := 7.
Definition PASS_ALL_BITS : Z := 1.
Definition PASS_ONE_BIT : Z := 0.
Definition CAL_STAGE_NIL : Z := 0.
Definition CAL_STAGE_VFIFO : Z := 1.
Definition CAL_STAGE_WLEVEL : Z := 2.
Definition CAL_STAGE_LFIFO : Z := 3.
Definition CAL_STAGE_WRITES : Z := 4.
Definition CAL_STAGE_VFIFO_AFTER_WRITES : Z := 9.
Definition CAL_SUBSTAGE_NIL : Z := 0.
Definition CAL_SUBSTAGE_GUARANTEED_READ : Z := 1.
Definition CAL_SUBSTAGE_DQS_EN_PHASE : Z := 2.
Definition CAL_SUBSTAGE_VFIFO_CENTER : Z := 3.
Definition CAL_SUBSTAGE_WORKING_DELAY : Z := 1.
Definition CAL_SUBSTAGE_LAST_WORKING_DELAY : Z := 2.
Definition CAL_SUBSTAGE_WRITES_CENTER : Z := 1.
Definition CAL_SUBSTAGE_READ_LATENCY : Z := 1.
Definition VFIFO_SIZE : Z := READ_VALID_FIFO_SIZE.
Definition BASE_PHY_MGR : Z := 0x00088000.
Definition BASE_DATA_MGR : Z := 0x00098000.
Definition BASE_SCC_MGR : Z := SEQUENCER_SCC_MGR_INST_BASE.
Definition BASE_REG_FILE : Z := SEQUENCER_REG_FILE_INST_BASE.
Definition BASE_MMR : Z := 0x000C0000.
Definition REG_FILE_SIGNATURE : Z := BASE_REG_FILE + 0x0000.
Definition REG_FILE_DEBUG_DATA_ADDR : Z := BASE_REG_FILE + 0x0004.
Definition REG_FILE_CUR_STAGE : Z := BASE_REG_FILE + 0x0008.
Definition REG_FILE_FOM : Z := BASE_REG_FILE + 0x000C.
Definition REG_FILE_FAILING_STAGE : Z := BASE_REG_FILE + 0x0010.
Definition REG_FILE_DEBUG1 : Z := BASE_REG_FILE + 0x0014.
Definition REG_FILE_DEBUG2 : Z := BASE_REG_FILE + 0x0018.
Definition REG_FILE_DTAPS_PER_PTAP : Z := BASE_REG_FILE + 0x001C.
Definition REG_FILE_TRK_SAMPLE_COUNT : Z := BASE_REG_FILE + 0x0020.
Definition REG_FILE_TRK_LONGIDLE : Z := BASE_REG_FILE + 0x0024.
Definition REG_FILE_DELAYS : Z := BASE_REG_FILE + 0x0028.
Definition REG_FILE_TRK_RW_MGR_ADDR : Z := BASE_REG_FILE + 0x002C.
Definition REG_FILE_TRK_READ_DQS_WIDTH : Z := BASE_REG_FILE + 0x0030.
Definition REG_FILE_TRK_RFSH : Z := BASE_REG_FILE + 0x0034.
Definition CTRL_CONFIG_REG : Z := BASE_MMR      + 0x0000.
Definition PHY_MGR_PHY_RLAT : Z := BASE_PHY_MGR + 0x4000.
Definition PHY_MGR_RESET_MEM_STBL : Z := BASE_PHY_MGR + 0x4004.
Definition PHY_MGR_MUX_SEL : Z := BASE_PHY_MGR + 0x4008.
Definition PHY_MGR_CAL_STATUS : Z := BASE_PHY_MGR + 0x400c.
Definition PHY_MGR_CAL_DEBUG_INFO : Z := BASE_PHY_MGR + 0x4010.
Definition PHY_MGR_AFI_WLAT : Z := BASE_PHY_MGR + 0x4018.
Definition PHY_MGR_CAL_RESET : Z := 0.
Definition PHY_MGR_CAL_SUCCESS : Z := 1.
Definition PHY_MGR_CAL_FAIL : Z := 2.
Definition PHY_MGR_CMD_INC_VFIFO_FR : Z := BASE_PHY_MGR + 0x0000.
Definition PHY_MGR_CMD_INC_VFIFO_HR : Z := BASE_PHY_MGR + 0x0004.
Definition PHY_MGR_CMD_INC_VFIFO_HARD_PHY : Z := BASE_PHY_MGR + 0x0004.
Definition PHY_MGR_CMD_FIFO_RESET : Z := BASE_PHY_MGR + 0x0008.
Definition PHY_MGR_CMD_INC_VFIFO_FR_HR : Z := BASE_PHY_MGR + 0x000C.
Definition PHY_MGR_CMD_INC_VFIFO_QR : Z := BASE_PHY_MGR + 0x0010.
Definition DATA_MGR_MEM_T_ADD : Z := BASE_DATA_MGR + 0x0008.
Definition DATA_MGR_MEM_T_WL : Z := BASE_DATA_MGR + 0x0004.
Definition MEM_T_WL_ADD : Z := DATA_MGR_MEM_T_WL.
Definition DATA_MGR_MEM_T_RL : Z := BASE_DATA_MGR + 0x000C.
Definition MEM_T_RL_ADD : Z := DATA_MGR_MEM_T_RL.
Definition CALIB_SKIP_DELAY_LOOPS : Z := Z.shiftl 1 0.
Definition CALIB_SKIP_DELAY_SWEEPS : Z := Z.shiftl 1 2.
Definition CALIB_SKIP_VFIFO : Z := Z.shiftl 1 3.
Definition CALIB_SKIP_LFIFO : Z := Z.shiftl 1 4.
Definition CALIB_SKIP_WRITES : Z := Z.shiftl 1 6.
Definition CALIB_SKIP_FULL_TEST : Z := Z.shiftl 1 7.
Definition CALIB_SKIP_WLEVEL : Z := Z.shiftl 1 5.
Definition CALIB_SKIP_ALL : Z := Z.lor (Z.lor (Z.lor (Z.lor CALIB_SKIP_VFIFO CALIB_SKIP_LFIFO) CALIB_SKIP_WLEVEL) CALIB_SKIP_WRITES) CALIB_SKIP_FULL_TEST.
Definition SCC_MGR_GROUP_COUNTER : Z := BASE_SCC_MGR + 0x0000.
Definition SCC_MGR_DQS_IN_DELAY : Z := BASE_SCC_MGR + 0x0100.
Definition SCC_MGR_DQS_EN_PHASE : Z := BASE_SCC_MGR + 0x0200.
Definition SCC_MGR_DQS_EN_DELAY : Z := BASE_SCC_MGR + 0x0300.
Definition SCC_MGR_DQDQS_OUT_PHASE : Z := BASE_SCC_MGR + 0x0400.
Definition SCC_MGR_OCT_OUT1_DELAY : Z := BASE_SCC_MGR + 0x0500.
Definition SCC_MGR_IO_OUT1_DELAY : Z := BASE_SCC_MGR + 0x0700.
Definition SCC_MGR_IO_IN_DELAY : Z := BASE_SCC_MGR + 0x0900.
Definition SCC_MGR_HHP_GLOBALS : Z := BASE_SCC_MGR + 0x0A00.
Definition SCC_MGR_HHP_RFILE : Z := BASE_SCC_MGR + 0x0B00.
Definition SCC_MGR_HHP_EXTRAS_OFFSET : Z := 0.
Definition SCC_MGR_HHP_DQSE_MAP_OFFSET : Z := 1.
Definition SCC_MGR_DQS_ENA : Z := BASE_SCC_MGR + 0x0E00.
Definition SCC_MGR_DQS_IO_ENA : Z := BASE_SCC_MGR + 0x0E04.
Definition SCC_MGR_DQ_ENA : Z := BASE_SCC_MGR + 0x0E08.
Definition SCC_MGR_DM_ENA : Z := BASE_SCC_MGR + 0x0E0C.
Definition SCC_MGR_UPD : Z := BASE_SCC_MGR + 0x0E20.
Definition SCC_MGR_AFI_CAL_INIT : Z := BASE_SCC_MGR + 0x0D00.
Definition PHY_DEBUG_IN_DEBUG_MODE : Z := 0x00000001.
Definition PHY_DEBUG_ENABLE_CAL_RPT : Z := 0x00000002.
Definition PHY_DEBUG_SWEEP_ALL_GROUPS : Z := 0x00000008.
Definition PHY_DEBUG_DISABLE_GUARANTEED_READ : Z := 0x00000010.
Definition SEQ_TINIT_CNTR0_VAL : Z := TINIT_CNTR0_VAL.
Definition SEQ_TINIT_CNTR1_VAL : Z := TINIT_CNTR1_VAL.
Definition SEQ_TINIT_CNTR2_VAL : Z := TINIT_CNTR2_VAL.
Definition SEQ_TRESET_CNTR0_VAL : Z := TRESET_CNTR0_VAL.
Definition SEQ_TRESET_CNTR1_VAL : Z := TRESET_CNTR1_VAL.
Definition SEQ_TRESET_CNTR2_VAL : Z := TRESET_CNTR2_VAL.
Definition RW_MGR_INST_ROM_WRITE : Z := BASE_RW_MGR + 0x1800.
Definition RW_MGR_AC_ROM_WRITE : Z := BASE_RW_MGR + 0x1C00.
