(* ===== verification/SeqBase.v ===== *)
(** * SeqBase: the state of the memory sequencer and its accesses to the bus

[sequencer.pre.c] calibrates the DDR3 interface of the board from software: it
keeps a few globals and otherwise acts through 32-bit accesses to the managers
of the PHY ([sdram_io.pre.h]).  Here are the bus as an interface, the globals,
and the small helpers at the top of the source.

A function with a [t_btfld *bit_chk] or [alt_u32 *v] argument gives the new
value of the variable with its result.  The debugging macros ([DPRINT],
[TRACE_FUNC], [ALTERA_ASSERT], [TCLRPT_SET], [BFM_*]) are empty in this
configuration. *)
From S2P Require Import Prelude SeqConfig.

(** ** The bus

What the Avalon bus answers to a read at an address, and what a write does. *)
Class Avalon (D : Type) := {
  avl_read : Z -> D -> Z * D;
  avl_write : Z -> Z -> D -> D
}.

(** On the processor the managers are behind an APB bus: [__AVL_TO_APB] gives
the offset of a register there from the six base addresses of the generated
[sdram.h]. *)
Class ApbMap := {
  APB_BASE_SCC_MGR : Z;
  APB_BASE_PHY_MGR : Z;
  APB_BASE_RW_MGR : Z;
  APB_BASE_DATA_MGR : Z;
  APB_BASE_REG_FILE : Z;
  APB_BASE_MMR : Z
}.
Class Registers (D : Type) := {
  read_register : Z -> D -> Z * D;
  write_register : Z -> Z -> D -> D
}.

Definition MGR_SELECT_MASK : Z := 0xf8000.

Definition AVL_TO_APB `{ApbMap} (addr : Z) : Z :=
  let manager := Z.land addr MGR_SELECT_MASK in
  if manager =? BASE_PHY_MGR
  then Z.lor (Z.lor APB_BASE_PHY_MGR (Z.land (Z.shiftr addr (14 - 6)) (Z.shiftl 1 6))) (Z.land addr 0x3f)
  else if manager =? BASE_RW_MGR then Z.lor APB_BASE_RW_MGR (Z.land addr 0x1fff)
  else if manager =? BASE_DATA_MGR then Z.lor APB_BASE_DATA_MGR (Z.land addr 0x7ff)
  else if manager =? BASE_SCC_MGR then Z.lor APB_BASE_SCC_MGR (Z.land addr 0xfff)
  else if manager =? BASE_REG_FILE then Z.lor APB_BASE_REG_FILE (Z.land addr 0x7ff)
  else if manager =? BASE_MMR then Z.lor APB_BASE_MMR (Z.land addr 0xfff)
  else -1.

#[export] Instance apb_bus {D} `{ApbMap} `{Registers D} : Avalon D := {|
  avl_read a d := read_register (AVL_TO_APB a) d;
  avl_write a v d := write_register (AVL_TO_APB a) v d
|}.

(** ** The globals *)

Record param_t := mkParam {
  dm_correct_mask : Z;
  read_correct_mask : Z;
  read_correct_mask_vg : Z;
  write_correct_mask : Z;
  write_correct_mask_vg : Z;
  skip_ranks : list Z;
  skip_groups : Z;
  skip_shadow_regs : list Z
}.

Record gbl_t := mkGbl {
  phy_debug_mode_flags : Z;
  curr_read_lat : Z;
  curr_write_lat : Z;
  error_substage : Z;
  error_stage : Z;
  error_group : Z;
  fom_in : Z;
  fom_out : Z;
  rw_wl_nop_cycles : Z
}.

(** The calibration steps that are left out at compile time: those of
[STATIC_FULL_CALIBRATION]. *)
Definition STATIC_CALIB_STEPS : Z := Z.lor (Z.lor 0 CALIB_SKIP_FULL_TEST) 0.

(** The sequencer: the device on the bus, [*gbl], [*param], [dyn_calib_steps]
and [skip_delay_mask]. *)
Record Seq (D : Type) := mkSeq {
  bus : D;
  gbl : gbl_t;
  param : param_t;
  dyn_calib_steps : Z;
  skip_delay_mask : Z
}.
Arguments mkSeq {D} _ _ _ _ _.
Arguments bus {D} _.
Arguments gbl {D} _.
Arguments param {D} _.
Arguments dyn_calib_steps {D} _.
Arguments skip_delay_mask {D} _.

Definition set_bus {D} (d : D) (s : Seq D) : Seq D :=
  mkSeq d (gbl s) (param s) (dyn_calib_steps s) (skip_delay_mask s).
Definition set_gbl {D} (g : gbl_t) (s : Seq D) : Seq D :=
  mkSeq (bus s) g (param s) (dyn_calib_steps s) (skip_delay_mask s).
Definition set_param {D} (p : param_t) (s : Seq D) : Seq D :=
  mkSeq (bus s) (gbl s) p (dyn_calib_steps s) (skip_delay_mask s).

Definition set_error (stage substage group : Z) (g : gbl_t) : gbl_t :=
  mkGbl (phy_debug_mode_flags g) (curr_read_lat g) (curr_write_lat g) substage stage group
    (fom_in g) (fom_out g) (rw_wl_nop_cycles g).
Definition set_read_lat (z : Z) (g : gbl_t) : gbl_t :=
  mkGbl (phy_debug_mode_flags g) z (curr_write_lat g) (error_substage g) (error_stage g)
    (error_group g) (fom_in g) (fom_out g) (rw_wl_nop_cycles g).
Definition set_write_lat (z : Z) (g : gbl_t) : gbl_t :=
  mkGbl (phy_debug_mode_flags g) (curr_read_lat g) z (error_substage g) (error_stage g)
    (error_group g) (fom_in g) (fom_out g) (rw_wl_nop_cycles g).
Definition set_nop_cycles (z : Z) (g : gbl_t) : gbl_t :=
  mkGbl (phy_debug_mode_flags g) (curr_read_lat g) (curr_write_lat g) (error_substage g)
    (error_stage g) (error_group g) (fom_in g) (fom_out g) z.

(** ** Loops and shifts

[c_range lo hi step] is what the variable of
[for (x = lo; x < hi; x += step)] goes through. *)
Definition c_range (lo hi step : Z) : list Z :=
  (fun k => lo + k * step) <$> seqZ 0 ((hi - lo + step - 1) / step).

(** A loop over a range that carries a variable. *)
Fixpoint for_fold {S A B} (xs : list A) (b : B) (body : B -> A -> M S B) : M S B :=
  match xs with
  | [] => ret b
  | x :: xs' => let! b' := body b x in for_fold xs' b' body
  end.

Lemma loop_S {S L R} n (body : L -> M S (L + R)) l (s : S) :
  loop (Datatypes.S n) body l s
  = bind (body l) (fun r => match r with inl l' => loop n body l' | inr v => ret v end) s.
Proof. done. Qed.

(** [1 << n] as an [int]. *)
Definition one_shl {S} (n : Z) : M S Z := if n <? 31 then ret (Z.shiftl 1 n) else undef.

Section Base.
Context {D : Type} `{Avalon D}.

Definition IOWR_32DIRECT (base offset data : Z) : M (Seq D) unit := modify (fun s =>
  set_bus (avl_write (u32 (base + offset)) (u32 data) (bus s)) s).

Definition IORD_32DIRECT (base offset : Z) : M (Seq D) Z := fun s =>
  let '(v, d) := avl_read (u32 (base + offset)) (bus s) in Val (u32 v) (set_bus d s).

(** ** Failures and the stage register *)

Definition set_failing_group_stage (group stage substage : Z) : M (Seq D) unit :=
  modify (fun s =>
    if error_stage (gbl s) =? CAL_STAGE_NIL
    then set_gbl (set_error stage substage group (gbl s)) s
    else s).

Definition reg_file_set_group (set_group : Z) : M (Seq D) unit :=
  let! cur_stage_group := IORD_32DIRECT REG_FILE_CUR_STAGE 0 in
  IOWR_32DIRECT REG_FILE_CUR_STAGE 0
    (Z.lor (Z.land cur_stage_group 0x0000FFFF) (u32 (Z.shiftl set_group 16))).

Definition reg_file_set_stage (set_stage : Z) : M (Seq D) unit :=
  let! cur_stage_group := IORD_32DIRECT REG_FILE_CUR_STAGE 0 in
  IOWR_32DIRECT REG_FILE_CUR_STAGE 0
    (Z.lor (Z.land cur_stage_group 0xFFFF0000) (Z.land set_stage 0x000000FF)).

Definition reg_file_set_sub_stage (set_sub_stage : Z) : M (Seq D) unit :=
  let! cur_stage_group := IORD_32DIRECT REG_FILE_CUR_STAGE 0 in
  IOWR_32DIRECT REG_FILE_CUR_STAGE 0
    (Z.lor (Z.land cur_stage_group 0xFFFF00FF)
           (Z.land (u32 (Z.shiftl set_sub_stage 8)) 0x0000FF00)).

(** ** Set-up *)

Definition correct_masks (p : param_t) : param_t :=
  let vg := u32 (Z.shiftl 1 (RW_MGR_MEM_DQ_PER_READ_DQS / RW_MGR_MEM_VIRTUAL_GROUPS_PER_READ_DQS) - 1) in
  mkParam (u32 (Z.shiftl 1 (RW_MGR_MEM_DATA_WIDTH / RW_MGR_MEM_DATA_MASK_WIDTH) - 1))
          (u32 (Z.shiftl 1 RW_MGR_MEM_DQ_PER_READ_DQS - 1)) vg
          (u32 (Z.shiftl 1 RW_MGR_MEM_DQ_PER_WRITE_DQS - 1)) vg
          (skip_ranks p) (skip_groups p) (skip_shadow_regs p).

Definition initialize : M (Seq D) unit :=
  IOWR_32DIRECT PHY_MGR_MUX_SEL 0 0x3 ;;!
  IOWR_32DIRECT PHY_MGR_RESET_MEM_STBL 0 0 ;;!
  IOWR_32DIRECT PHY_MGR_CAL_STATUS 0 0 ;;!
  IOWR_32DIRECT PHY_MGR_CAL_DEBUG_INFO 0 0 ;;!
  modify (fun s =>
    if negb (Z.land (dyn_calib_steps s) CALIB_SKIP_ALL =? CALIB_SKIP_ALL)
    then set_param (correct_masks (param s)) s
    else s).

(** ** Ranks *)

(** The masks for reads and writes: [odt_mask_0] is driven during a read,
[odt_mask_1] during a write. *)
Definition odt_masks (rank : Z) : M (Seq D) (Z * Z) :=
  if negb (LRDIMM =? 0) then
    ret (if RW_MGR_MEM_CHIP_SELECT_WIDTH / RW_MGR_MEM_NUMBER_OF_CS_PER_DIMM =? 1 then
           (if RW_MGR_MEM_ODT_WIDTH =? 1 then (0x0, 0x1)
            else if RW_MGR_MEM_ODT_WIDTH =? 2 then (0x0, 0x3) else (0, 0))
         else if RW_MGR_MEM_CHIP_SELECT_WIDTH / RW_MGR_MEM_NUMBER_OF_CS_PER_DIMM =? 2 then
           (if RW_MGR_MEM_ODT_WIDTH =? 2 then (if rank <? 2 then 0x2 else 0x1, 0x3)
            else if RW_MGR_MEM_ODT_WIDTH =? 4 then (if rank <? 2 then 0xC else 0x3, 0xF) else (0, 0))
         else (0, 0))
  else if RW_MGR_MEM_NUMBER_OF_RANKS =? 1 then ret (0x0, 0x1)
  else if RW_MGR_MEM_NUMBER_OF_RANKS =? 2 then
    let! bit := one_shl rank in
    ret (if (RW_MGR_MEM_NUMBER_OF_CS_PER_DIMM =? 1) ||
            (negb (RDIMM =? 0) && (RW_MGR_MEM_NUMBER_OF_CS_PER_DIMM =? 2)
             && (RW_MGR_MEM_CHIP_SELECT_WIDTH =? 4))
         then (Z.land 0x3 (Z.lnot bit), 0x3)
         else (0x0, Z.land 0x3 bit))
  else ret (if rank =? 0 then (0x4, 0x5)
            else if rank =? 1 then (0x8, 0xA)
            else if rank =? 2 then (0x1, 0x5)
            else if rank =? 3 then (0x2, 0xA)
            else (0, 0)).

(** The word with the chip select of the rank, active low, and both masks. *)
Definition cs_and_odt_mask (cs odt_mask_0 odt_mask_1 : Z) : Z :=
  Z.lor (Z.lor (Z.land 0xFF (Z.lnot cs)) (Z.shiftl (Z.land 0xFF odt_mask_0) 8))
        (Z.shiftl (Z.land 0xFF odt_mask_1) 16).

Definition set_rank_and_odt_mask (rank odt_mode : Z) : M (Seq D) unit :=
  let! '(odt_mask_0, odt_mask_1) :=
    if odt_mode =? RW_MGR_ODT_MODE_READ_WRITE then odt_masks rank else ret (0x0, 0x0) in
  let! cs :=
    if negb (RDIMM =? 0) && (RW_MGR_MEM_NUMBER_OF_CS_PER_DIMM =? 2)
       && (RW_MGR_MEM_CHIP_SELECT_WIDTH =? 4) && (RW_MGR_MEM_NUMBER_OF_RANKS =? 2)
    then one_shl (2 * rank) else one_shl rank in
  IOWR_32DIRECT RW_MGR_SET_CS_AND_ODT_MASK 0 (cs_and_odt_mask cs odt_mask_0 odt_mask_1).

(** With one shadow register per rank there is nothing to select. *)
Definition select_shadow_regs_for_update (rank group update_scan_chains : Z) : M (Seq D) unit :=
  ret tt.

(** [param->skip_ranks[r]] as a condition. *)
Definition skipped_rank (r : Z) : M (Seq D) bool :=
  let! p := gets param in
  let! skip := lift (array_get (skip_ranks p) r) in
  ret (negb (skip =? 0)).

(** [SKIP_DELAY_LOOP_VALUE_OR_ZERO] *)
Definition skip_delay_loop_value_or_zero (non_skip_value : Z) : M (Seq D) Z :=
  gets (fun s => Z.land non_skip_value (skip_delay_mask s)).

End Base.

(** ** Programs that only write

[writes m ws]: whatever the device, [m] makes the writes [ws] and nothing else. *)

Section Writes.
Context {D : Type} `{Avalon D}.

Definition write_all (ws : list (Z * Z)) (d : D) : D :=
  foldl (fun d '(a, v) => avl_write a v d) d ws.

Definition writes (m : M (Seq D) unit) (ws : list (Z * Z)) : Prop :=
  forall s, m s = Val tt (set_bus (write_all ws (bus s)) s).

Lemma set_bus_same (s : Seq D) : set_bus (bus s) s = s.
Proof. by destruct s. Qed.

Lemma writes_ret : writes (ret tt) [].
Proof. intros s. unfold ret. by rewrite <- (set_bus_same s) at 1. Qed.

Lemma writes_iowr base off v : writes (IOWR_32DIRECT base off v) [(u32 (base + off), u32 v)].
Proof. by intros s. Qed.

Lemma writes_then m k ws ws' : writes m ws -> writes k ws' -> writes (m ;;! k) (ws ++ ws').
Proof.
  intros Hm Hk s. rewrite (bind_val _ _ _ _ _ (Hm s)), Hk. unfold write_all. by rewrite foldl_app.
Qed.

Lemma writes_iowr_then base off v k ws :
  writes k ws -> writes (IOWR_32DIRECT base off v ;;! k) ((u32 (base + off), u32 v) :: ws).
Proof. intros Hk. apply (writes_then _ _ [_]); [apply writes_iowr|done]. Qed.

Lemma writes_for_each {A} (xs : list A) (body : A -> M (Seq D) unit) (f : A -> list (Z * Z)) :
  (forall x, x ∈ xs -> writes (body x) (f x)) -> writes (for_each xs body) (xs ≫= f).
Proof.
  induction xs as [|x xs IH]; intros Hbody; [apply writes_ret|].
  apply writes_then; [apply Hbody; set_solver|apply IH; set_solver].
Qed.

End Writes.

(** ** The stage register

Its law: the register holds what was last written to it. *)
Class StageRegister (D : Type) `{Avalon D} := {
  stage_word : D -> Z;
  read_stage d : exists d', avl_read REG_FILE_CUR_STAGE d = (stage_word d, d') /\ stage_word d' = stage_word d;
  write_stage v d : stage_word (avl_write REG_FILE_CUR_STAGE v d) = v
}.

Lemma testbit_u32 w i : 0 <= i -> Z.testbit (u32 w) i = (i <? 32) && Z.testbit w i.
Proof.
  intros. replace (u32 w) with (field w 0 32) by (unfold field; by rewrite Z.shiftr_0_r).
  rewrite testbit_field by lia. by rewrite Z.add_0_r.
Qed.

Lemma testbit_small x n i : 0 <= x < 2 ^ n -> 0 <= n <= i -> Z.testbit x i = false.
Proof. intros Hx Hi. rewrite <- (Z.mod_small x (2 ^ n)) by done. apply Z.mod_pow2_bits_high. lia. Qed.

(** Whether the bits of a mask from [lo] on are all [b]. *)
Definition mask_bits (keep lo n : Z) (b : bool) : bool :=
  forallb (fun i => Bool.eqb (Z.testbit keep i) b) (seqZ lo n).

Lemma mask_bit keep lo n b i :
  mask_bits keep lo n b = true -> lo <= i < lo + n -> Z.testbit keep i = b.
Proof.
  unfold mask_bits. rewrite forallb_forall. intros Hall Hi.
  by apply eqb_prop, Hall, list_elem_of_In, elem_of_seqZ.
Qed.

(** The word with a new field, of which [keep] masks what stays. *)
Lemma field_replaced w keep x lo n :
  0 <= lo -> 0 <= n -> lo + n <= 32 -> 0 <= x < 2 ^ n -> mask_bits keep lo n false = true ->
  field (u32 (Z.lor (Z.land w keep) (Z.shiftl x lo))) lo n = x.
Proof.
  intros Hlo Hn H32 Hx Hkeep. apply Z.bits_inj'. intros i Hi.
  rewrite testbit_field, testbit_u32, Z.lor_spec, Z.land_spec, Z.shiftl_spec by lia.
  replace (i + lo - lo) with i by lia. destruct (Z.ltb_spec i n); simpl.
  - rewrite (mask_bit _ _ _ _ _ Hkeep) by lia. replace (i + lo <? 32) with true by lia.
    by rewrite andb_false_r.
  - symmetry. by apply (testbit_small x n).
Qed.

Lemma field_kept w keep x lo n lo' n' :
  0 <= lo -> 0 <= n -> lo + n <= 32 -> 0 <= x < 2 ^ n' -> 0 <= n' -> 0 <= lo' ->
  mask_bits keep lo n true = true -> lo + n <= lo' \/ lo' + n' <= lo ->
  field (u32 (Z.lor (Z.land w keep) (Z.shiftl x lo'))) lo n = field w lo n.
Proof.
  intros Hlo Hn H32 Hx Hn' Hlo' Hkeep Hapart. apply Z.bits_inj'. intros i Hi.
  rewrite !testbit_field, testbit_u32, Z.lor_spec, Z.land_spec, Z.shiftl_spec by lia.
  destruct (Z.ltb_spec i n); simpl; [|done]. rewrite (mask_bit _ _ _ _ _ Hkeep) by lia.
  replace (i + lo <? 32) with true by lia.
  replace (Z.testbit x (i + lo - lo')) with false; [by rewrite andb_true_r, orb_false_r|].
  symmetry. destruct Hapart; [apply Z.testbit_neg_r; lia|apply (testbit_small x n'); lia].
Qed.

(** The word that each update of the stage register writes. *)
Lemma stage_word_updated w x :
  0 <= x < 2 ^ 8 ->
  let w' := u32 (Z.lor (Z.land w 0xFFFF0000) (Z.land x 0xFF)) in
  field w' 0 8 = x /\ field w' 8 8 = 0 /\ field w' 16 16 = field w 16 16.
Proof.
  intros Hx. replace (Z.land x 0xFF) with (Z.shiftl x 0)
    by (rewrite Z.shiftl_0_r; change 0xFF with (Z.ones 8); by rewrite Z.land_ones, Z.mod_small).
  cbv zeta. set (w' := u32 _).
  assert (field w' 0 16 = x) as Hx' by (by apply field_replaced; [..|lia|]).
  change (field w' 0 8) with (field w' (0 + 0) 8). change (field w' 8 8) with (field w' (0 + 8) 8).
  rewrite <- !(field_field w' 0 16) by lia. rewrite Hx'. unfold field at 1 2.
  rewrite Z.shiftr_0_r, Z.shiftr_div_pow2, Z.div_small, !Z.mod_small by lia.
  repeat split. by apply (field_kept _ _ _ _ _ _ 8); try lia.
Qed.

Lemma sub_stage_word_updated w x :
  0 <= x < 2 ^ 8 ->
  let w' := u32 (Z.lor (Z.land w 0xFFFF00FF) (Z.land (u32 (Z.shiftl x 8)) 0xFF00)) in
  field w' 0 8 = field w 0 8 /\ field w' 8 8 = x /\ field w' 16 16 = field w 16 16.
Proof.
  intros Hx. replace (Z.land (u32 (Z.shiftl x 8)) 0xFF00) with (Z.shiftl x 8).
  { cbv zeta. split; [|split].
    - by apply (field_kept _ _ _ _ _ _ 8); try lia.
    - by apply field_replaced; try lia.
    - by apply (field_kept _ _ _ _ _ _ 8); try lia. }
  rewrite u32_small by (rewrite Z.shiftl_mul_pow2; lia).
  apply Z.bits_inj'. intros i Hi. rewrite Z.land_spec, Z.shiftl_spec by lia.
  destruct (Z.ltb_spec i 8); [by rewrite Z.testbit_neg_r by lia|].
  destruct (Z.ltb_spec i 16).
  - by rewrite (mask_bit 0xFF00 8 8 true), andb_true_r by (done || lia).
  - by rewrite (testbit_small x 8) by lia.
Qed.

Lemma group_word_updated w g :
  0 <= g < 2 ^ 16 ->
  let w' := u32 (Z.lor (Z.land w 0xFFFF) (u32 (Z.shiftl g 16))) in
  field w' 0 8 = field w 0 8 /\ field w' 8 8 = field w 8 8 /\ field w' 16 16 = g.
Proof.
  intros Hg. rewrite (u32_small (Z.shiftl g 16)) by (rewrite Z.shiftl_mul_pow2; lia).
  cbv zeta. split; [|split].
  - by apply (field_kept _ _ _ _ _ _ 16); try lia.
  - by apply (field_kept _ _ _ _ _ _ 16); try lia.
  - by apply field_replaced; try lia.
Qed.

Section Stage.
Context {D : Type} `{StageRegister D}.

(** The stage, the sub-stage and the group that the register shows. *)
Definition shown_stage (s : Seq D) : Z * Z * Z :=
  let w := u32 (stage_word (bus s)) in (field w 0 8, field w 8 8, field w 16 16).

(** An update of the register: a read, then a write. *)
Lemma update_stage (f : Z -> Z) (s : Seq D) a b c :
  (let w' := u32 (f (u32 (stage_word (bus s)))) in field w' 0 8 = a /\ field w' 8 8 = b /\ field w' 16 16 = c) ->
  exists s', (let! w := IORD_32DIRECT REG_FILE_CUR_STAGE 0 in IOWR_32DIRECT REG_FILE_CUR_STAGE 0 (f w)) s
             = Val tt s' /\ shown_stage s' = (a, b, c).
Proof.
  intros Hw. destruct (read_stage (bus s)) as (d & Hread & _). eexists. split.
  - unfold bind, IORD_32DIRECT. change (u32 (REG_FILE_CUR_STAGE + 0)) with REG_FILE_CUR_STAGE.
    rewrite Hread. reflexivity.
  - unfold shown_stage. simpl. change (u32 (REG_FILE_CUR_STAGE + 0)) with REG_FILE_CUR_STAGE.
    rewrite write_stage, (u32_small (u32 _)) by apply u32_bound. by destruct Hw as (-> & -> & ->).
Qed.

(** The three fields of the stage register are set independently: a new
group keeps the stage and the sub-stage, a new sub-stage keeps the other two, and
a new stage keeps the group and clears the sub-stage. *)
Theorem stage_register_correct (s : Seq D) x g :
  0 <= x < 2 ^ 8 -> 0 <= g < 2 ^ 16 ->
  let '(stage, sub_stage, group) := shown_stage s in
  (exists s', reg_file_set_stage x s = Val tt s' /\ shown_stage s' = (x, 0, group)) /\
  (exists s', reg_file_set_sub_stage x s = Val tt s' /\ shown_stage s' = (stage, x, group)) /\
  (exists s', reg_file_set_group g s = Val tt s' /\ shown_stage s' = (stage, sub_stage, g)).
Proof.
  intros Hx Hg. unfold shown_stage at 1. cbv zeta. split; [|split]; apply update_stage.
  - by apply stage_word_updated.
  - by apply sub_stage_word_updated.
  - by apply group_word_updated.
Qed.

End Stage.

(** A device that is only the register. *)
#[export] Instance register_bus : Avalon Z := {| avl_read _ d := (d, d); avl_write _ v _ := v |}.
#[export] Instance register_stage : StageRegister Z.
Proof. refine {| stage_word d := d |}; [intros d; by exists d|done]. Defined.

Definition register_start : Seq Z :=
  mkSeq 0x00020103 (mkGbl 0 0 0 0 0 0 0 0 0) (mkParam 0xff 0xff 0xff 0xff 0xff [0] 0 [0]) 0 0xff.

Lemma stage_register_correct_witness :
  0 <= 4 < 2 ^ 8 /\ 0 <= 3 < 2 ^ 16 /\
  exists s', reg_file_set_group 3 register_start = Val tt s' /\ shown_stage s' = (3, 1, 3).
Proof.
  split; [lia|]. split; [lia|].
  exact (proj2 (proj2 (stage_register_correct register_start 4 3 ltac:(lia) ltac:(lia)))).
Defined.
