(* ===== verification/SeqScc.v ===== *)
(** * SeqScc: the scan-chain manager of the memory sequencer

The delays and phases of the pins are registers of the SCC manager: the
[WRITE_SCC_*] and [READ_SCC_*] macros of [sequencer.pre.h] and the [scc_mgr_*]
functions of [sequencer.pre.c], in the order of the source.  The second output
delay chain and the bypasses do not exist on this chip: their writes are empty
and their reads 0. *)
From S2P Require Import Prelude SeqConfig SeqBase.

Definition shl2 (n : Z) : Z := u32 (Z.shiftl n 2).

(** The read groups of a write group, as the loops over them compute them. *)
Definition read_groups (write_group : Z) : list Z :=
  c_range (u32 (write_group * RW_MGR_MEM_IF_READ_DQS_WIDTH) / RW_MGR_MEM_IF_WRITE_DQS_WIDTH)
    (u32 (u32 (write_group + 1) * RW_MGR_MEM_IF_READ_DQS_WIDTH) / RW_MGR_MEM_IF_WRITE_DQS_WIDTH) 1.

Section Scc.
Context {D : Type} `{Avalon D}.
Local Abbreviation prog A := (M (Seq D) A).

(** ** The macros *)

Definition WRITE_SCC_DQS_IN_DELAY (group delay : Z) : prog unit :=
  IOWR_32DIRECT SCC_MGR_DQS_IN_DELAY (shl2 group) delay.
Definition WRITE_SCC_DQS_EN_DELAY (group delay : Z) : prog unit :=
  IOWR_32DIRECT SCC_MGR_DQS_EN_DELAY (shl2 group) (delay + IO_DQS_EN_DELAY_OFFSET).
Definition WRITE_SCC_DQS_EN_PHASE (group phase : Z) : prog unit :=
  IOWR_32DIRECT SCC_MGR_DQS_EN_PHASE (shl2 group) phase.
Definition WRITE_SCC_DQDQS_OUT_PHASE (group phase : Z) : prog unit :=
  IOWR_32DIRECT SCC_MGR_DQDQS_OUT_PHASE (shl2 group) phase.
Definition WRITE_SCC_OCT_OUT1_DELAY (group delay : Z) : prog unit :=
  IOWR_32DIRECT SCC_MGR_OCT_OUT1_DELAY (shl2 group) delay.
Definition WRITE_SCC_OCT_OUT2_DELAY (group delay : Z) : prog unit := ret tt.
Definition WRITE_SCC_DQS_BYPASS (group bypass : Z) : prog unit := ret tt.
Definition WRITE_SCC_DQ_OUT1_DELAY (pin delay : Z) : prog unit :=
  IOWR_32DIRECT SCC_MGR_IO_OUT1_DELAY (shl2 pin) delay.
Definition WRITE_SCC_DQ_OUT2_DELAY (pin delay : Z) : prog unit := ret tt.
Definition WRITE_SCC_DQ_IN_DELAY (pin delay : Z) : prog unit :=
  IOWR_32DIRECT SCC_MGR_IO_IN_DELAY (shl2 pin) delay.
Definition WRITE_SCC_DQ_BYPASS (pin bypass : Z) : prog unit := ret tt.
Definition WRITE_SCC_RFIFO_MODE (pin mode : Z) : prog unit := ret tt.
Definition WRITE_SCC_HHP_EXTRAS (value : Z) : prog unit :=
  IOWR_32DIRECT SCC_MGR_HHP_GLOBALS SCC_MGR_HHP_EXTRAS_OFFSET value.
Definition WRITE_SCC_HHP_DQSE_MAP (value : Z) : prog unit :=
  IOWR_32DIRECT SCC_MGR_HHP_GLOBALS SCC_MGR_HHP_DQSE_MAP_OFFSET value.
Definition WRITE_SCC_DQS_IO_OUT1_DELAY (delay : Z) : prog unit :=
  IOWR_32DIRECT SCC_MGR_IO_OUT1_DELAY (shl2 RW_MGR_MEM_DQ_PER_WRITE_DQS) delay.
Definition WRITE_SCC_DQS_IO_OUT2_DELAY (delay : Z) : prog unit := ret tt.
Definition WRITE_SCC_DQS_IO_IN_DELAY (delay : Z) : prog unit :=
  IOWR_32DIRECT SCC_MGR_IO_IN_DELAY (shl2 RW_MGR_MEM_DQ_PER_WRITE_DQS) delay.
Definition WRITE_SCC_DM_IO_OUT1_DELAY (pin delay : Z) : prog unit :=
  IOWR_32DIRECT SCC_MGR_IO_OUT1_DELAY (shl2 (u32 (RW_MGR_MEM_DQ_PER_WRITE_DQS + 1 + pin))) delay.
Definition WRITE_SCC_DM_IO_OUT2_DELAY (pin delay : Z) : prog unit := ret tt.
Definition WRITE_SCC_DM_IO_IN_DELAY (pin delay : Z) : prog unit :=
  IOWR_32DIRECT SCC_MGR_IO_IN_DELAY (shl2 (u32 (RW_MGR_MEM_DQ_PER_WRITE_DQS + 1 + pin))) delay.
Definition WRITE_SCC_DM_BYPASS (pin bypass : Z) : prog unit := ret tt.

Definition READ_SCC_DQS_IN_DELAY (group : Z) : prog Z :=
  IORD_32DIRECT SCC_MGR_DQS_IN_DELAY (shl2 group).
Definition READ_SCC_DQS_EN_DELAY (group : Z) : prog Z :=
  let! r := IORD_32DIRECT SCC_MGR_DQS_EN_DELAY (shl2 group) in ret (u32 (r - IO_DQS_EN_DELAY_OFFSET)).
Definition READ_SCC_DQ_IN_DELAY (pin : Z) : prog Z := IORD_32DIRECT SCC_MGR_IO_IN_DELAY (shl2 pin).
Definition READ_SCC_DQ_OUT1_DELAY (pin : Z) : prog Z := IORD_32DIRECT SCC_MGR_IO_OUT1_DELAY (shl2 pin).
Definition READ_SCC_DQ_OUT2_DELAY (pin : Z) : Z := 0.
Definition READ_SCC_DM_IO_OUT2_DELAY (pin : Z) : Z := 0.
Definition READ_SCC_DQS_IO_OUT1_DELAY : prog Z :=
  IORD_32DIRECT SCC_MGR_IO_OUT1_DELAY (shl2 RW_MGR_MEM_DQ_PER_WRITE_DQS).
Definition READ_SCC_DQS_IO_OUT2_DELAY : Z := 0.
Definition READ_SCC_OCT_OUT2_DELAY (group : Z) : Z := 0.

(** ** Setting one delay *)

Definition scc_mgr_initialize : prog unit :=
  for_each (c_range 0 16 1) (fun i => IOWR_32DIRECT SCC_MGR_HHP_RFILE (shl2 i) 0).

Definition scc_mgr_set_dqs_bus_in_delay (read_group delay : Z) : prog unit :=
  WRITE_SCC_DQS_IN_DELAY read_group delay.

Definition scc_mgr_set_dqs_io_in_delay (write_group delay : Z) : prog unit :=
  WRITE_SCC_DQS_IO_IN_DELAY delay.

Definition scc_mgr_set_dqs_en_phase (read_group phase : Z) : prog unit :=
  WRITE_SCC_DQS_EN_PHASE read_group phase.

(** [for (r = 0; r < ranks; r += ranks per shadow register)]. *)
Definition for_shadow_regs (body : Z -> prog unit) : prog unit :=
  for_each (c_range 0 RW_MGR_MEM_NUMBER_OF_RANKS NUM_RANKS_PER_SHADOW_REG) body.

Definition scc_mgr_set_dqs_en_phase_all_ranks (read_group phase : Z) : prog unit :=
  for_shadow_regs (fun r =>
    let update_scan_chains := if r =? 0 then 1 else 0 in
    select_shadow_regs_for_update r read_group update_scan_chains ;;!
    scc_mgr_set_dqs_en_phase read_group phase ;;!
    if negb (update_scan_chains =? 0)
    then IOWR_32DIRECT SCC_MGR_DQS_ENA 0 read_group ;;! IOWR_32DIRECT SCC_MGR_UPD 0 0
    else ret tt).

Definition scc_mgr_set_dqdqs_output_phase (write_group phase : Z) : prog unit :=
  WRITE_SCC_DQDQS_OUT_PHASE write_group phase.

Definition scc_mgr_set_dqdqs_output_phase_all_ranks (write_group phase : Z) : prog unit :=
  for_shadow_regs (fun r =>
    let update_scan_chains := if r =? 0 then 1 else 0 in
    select_shadow_regs_for_update r write_group update_scan_chains ;;!
    scc_mgr_set_dqdqs_output_phase write_group phase ;;!
    if negb (update_scan_chains =? 0)
    then IOWR_32DIRECT SCC_MGR_DQS_ENA 0 write_group ;;! IOWR_32DIRECT SCC_MGR_UPD 0 0
    else ret tt).

Definition scc_mgr_set_dqs_en_delay (read_group delay : Z) : prog unit :=
  WRITE_SCC_DQS_EN_DELAY read_group delay.

Definition scc_mgr_set_dqs_en_delay_all_ranks (read_group delay : Z) : prog unit :=
  for_shadow_regs (fun r =>
    select_shadow_regs_for_update r read_group 0 ;;!
    scc_mgr_set_dqs_en_delay read_group delay ;;!
    IOWR_32DIRECT SCC_MGR_DQS_ENA 0 read_group ;;!
    IOWR_32DIRECT SCC_MGR_UPD 0 0).

Definition scc_mgr_set_oct_out1_delay (write_group delay : Z) : prog unit :=
  for_each (read_groups write_group) (fun read_group => WRITE_SCC_OCT_OUT1_DELAY read_group delay).

Definition scc_mgr_set_oct_out2_delay (write_group delay : Z) : prog unit :=
  for_each (read_groups write_group) (fun read_group => WRITE_SCC_OCT_OUT2_DELAY read_group delay).

Definition scc_mgr_set_dqs_bypass (write_group bypass : Z) : prog unit :=
  WRITE_SCC_DQS_BYPASS write_group bypass.

Definition scc_mgr_set_dq_out1_delay (write_group dq_in_group delay : Z) : prog unit :=
  WRITE_SCC_DQ_OUT1_DELAY dq_in_group delay.

Definition scc_mgr_set_dq_out2_delay (write_group dq_in_group delay : Z) : prog unit :=
  WRITE_SCC_DQ_OUT2_DELAY dq_in_group delay.

Definition scc_mgr_set_dq_in_delay (write_group dq_in_group delay : Z) : prog unit :=
  WRITE_SCC_DQ_IN_DELAY dq_in_group delay.

Definition scc_mgr_set_dq_bypass (write_group dq_in_group bypass : Z) : prog unit :=
  WRITE_SCC_DQ_BYPASS dq_in_group bypass.

Definition scc_mgr_set_rfifo_mode (write_group dq_in_group mode : Z) : prog unit :=
  WRITE_SCC_RFIFO_MODE dq_in_group mode.

Definition scc_mgr_set_hhp_extras : prog unit :=
  let value := Z.lor (Z.lor (Z.lor (Z.lor (Z.lor (Z.shiftl 0 8) (Z.shiftl 0 7)) (Z.shiftl 1 5))
                                   (Z.shiftl 1 2)) (Z.shiftl 1 1)) (Z.shiftl 1 0) in
  WRITE_SCC_HHP_EXTRAS value.

Definition scc_mgr_set_hhp_dqse_map : prog unit := WRITE_SCC_HHP_DQSE_MAP 0.

Definition scc_mgr_set_dqs_out1_delay (write_group delay : Z) : prog unit :=
  WRITE_SCC_DQS_IO_OUT1_DELAY delay.

Definition scc_mgr_set_dqs_out2_delay (write_group delay : Z) : prog unit :=
  WRITE_SCC_DQS_IO_OUT2_DELAY delay.

Definition scc_mgr_set_dm_out1_delay (write_group dm delay : Z) : prog unit :=
  WRITE_SCC_DM_IO_OUT1_DELAY dm delay.

Definition scc_mgr_set_dm_out2_delay (write_group dm delay : Z) : prog unit :=
  WRITE_SCC_DM_IO_OUT2_DELAY dm delay.

Definition scc_mgr_set_dm_in_delay (write_group dm delay : Z) : prog unit :=
  WRITE_SCC_DM_IO_IN_DELAY dm delay.

Definition scc_mgr_set_dm_bypass (write_group dm bypass : Z) : prog unit :=
  WRITE_SCC_DM_BYPASS dm bypass.

(** ** Loading and clearing groups *)

Definition scc_mgr_zero_all : prog unit :=
  for_shadow_regs (fun r =>
    select_shadow_regs_for_update r 0 1 ;;!
    for_each (c_range 0 RW_MGR_MEM_IF_READ_DQS_WIDTH 1) (fun i =>
      scc_mgr_set_dqs_bus_in_delay i IO_DQS_IN_RESERVE ;;!
      scc_mgr_set_dqs_en_phase i 0 ;;!
      scc_mgr_set_dqs_en_delay i 0) ;;!
    for_each (c_range 0 RW_MGR_MEM_IF_WRITE_DQS_WIDTH 1) (fun i =>
      scc_mgr_set_dqdqs_output_phase i 0 ;;!
      scc_mgr_set_oct_out1_delay i IO_DQS_OUT_RESERVE) ;;!
    IOWR_32DIRECT SCC_MGR_DQS_ENA 0 0xff ;;!
    IOWR_32DIRECT SCC_MGR_UPD 0 0).

Definition scc_set_bypass_mode (write_group mode : Z) : prog unit :=
  (if write_group =? 0 then scc_mgr_set_hhp_extras else ret tt) ;;!
  IOWR_32DIRECT SCC_MGR_DQ_ENA 0 0xff ;;!
  IOWR_32DIRECT SCC_MGR_DM_ENA 0 0xff ;;!
  IOWR_32DIRECT SCC_MGR_DQS_IO_ENA 0 0 ;;!
  IOWR_32DIRECT SCC_MGR_DQS_ENA 0 write_group ;;!
  IOWR_32DIRECT SCC_MGR_UPD 0 0.

Definition scc_mgr_load_dqs_for_write_group (write_group : Z) : prog unit :=
  for_each (read_groups write_group) (fun read_group => IOWR_32DIRECT SCC_MGR_DQS_ENA 0 read_group).

Definition scc_mgr_zero_group (write_group test_begin out_only : Z) : prog unit :=
  let when_in (m : prog unit) : prog unit := if out_only =? 0 then m else ret tt in
  for_shadow_regs (fun r =>
    select_shadow_regs_for_update r write_group 1 ;;!
    for_each (c_range 0 RW_MGR_MEM_DQ_PER_WRITE_DQS 1) (fun i =>
      scc_mgr_set_dq_out1_delay write_group i 0 ;;!
      scc_mgr_set_dq_out2_delay write_group i IO_DQ_OUT_RESERVE ;;!
      when_in (scc_mgr_set_dq_in_delay write_group i 0)) ;;!
    IOWR_32DIRECT SCC_MGR_DQ_ENA 0 0xff ;;!
    for_each (c_range 0 RW_MGR_NUM_DM_PER_WRITE_GROUP 1) (fun i =>
      when_in (scc_mgr_set_dm_in_delay write_group i 0) ;;!
      scc_mgr_set_dm_out1_delay write_group i 0 ;;!
      scc_mgr_set_dm_out2_delay write_group i IO_DM_OUT_RESERVE) ;;!
    IOWR_32DIRECT SCC_MGR_DM_ENA 0 0xff ;;!
    when_in (scc_mgr_set_dqs_io_in_delay write_group 0) ;;!
    scc_mgr_set_dqs_out1_delay write_group IO_DQS_OUT_RESERVE ;;!
    scc_mgr_set_oct_out1_delay write_group IO_DQS_OUT_RESERVE ;;!
    scc_mgr_load_dqs_for_write_group write_group ;;!
    IOWR_32DIRECT SCC_MGR_DQS_IO_ENA 0 0 ;;!
    IOWR_32DIRECT SCC_MGR_UPD 0 0).

Definition scc_mgr_load_dqs (dqs : Z) : prog unit := IOWR_32DIRECT SCC_MGR_DQS_ENA 0 dqs.

Definition scc_mgr_load_dqs_io : prog unit := IOWR_32DIRECT SCC_MGR_DQS_IO_ENA 0 0.

Definition scc_mgr_load_dq (dq_in_group : Z) : prog unit :=
  IOWR_32DIRECT SCC_MGR_DQ_ENA 0 dq_in_group.

Definition scc_mgr_load_dm (dm : Z) : prog unit := IOWR_32DIRECT SCC_MGR_DM_ENA 0 dm.

(** ** Applying a delay to a group *)

Definition scc_mgr_apply_group_dq_in_delay (write_group group_bgn delay : Z) : prog unit :=
  for_each (c_range 0 RW_MGR_MEM_DQ_PER_READ_DQS 1) (fun i =>
    let p := u32 (group_bgn + i) in
    scc_mgr_set_dq_in_delay write_group p delay ;;! scc_mgr_load_dq p).

Definition scc_mgr_apply_group_dq_out1_delay (write_group group_bgn delay1 : Z) : prog unit :=
  for_each (c_range 0 RW_MGR_MEM_DQ_PER_WRITE_DQS 1) (fun i =>
    scc_mgr_set_dq_out1_delay write_group i delay1 ;;! scc_mgr_load_dq i).

Definition scc_mgr_apply_group_dq_out2_delay (write_group group_bgn delay2 : Z) : prog unit :=
  for_each (c_range 0 RW_MGR_MEM_DQ_PER_WRITE_DQS 1) (fun i =>
    scc_mgr_set_dq_out2_delay write_group i delay2 ;;! scc_mgr_load_dq i).

Definition scc_mgr_apply_group_dm_out1_delay (write_group delay1 : Z) : prog unit :=
  for_each (c_range 0 RW_MGR_NUM_DM_PER_WRITE_GROUP 1) (fun i =>
    scc_mgr_set_dm_out1_delay write_group i delay1 ;;! scc_mgr_load_dm i).

Definition scc_mgr_apply_group_dqs_io_and_oct_out1 (write_group delay : Z) : prog unit :=
  scc_mgr_set_dqs_out1_delay write_group delay ;;!
  scc_mgr_load_dqs_io ;;!
  scc_mgr_set_oct_out1_delay write_group delay ;;!
  scc_mgr_load_dqs_for_write_group write_group.

Definition scc_mgr_apply_group_dqs_io_and_oct_out2 (write_group delay : Z) : prog unit :=
  scc_mgr_set_dqs_out2_delay write_group delay ;;!
  scc_mgr_load_dqs_io ;;!
  scc_mgr_set_oct_out2_delay write_group delay ;;!
  scc_mgr_load_dqs_for_write_group write_group.

(** [rw_mgr_mem_dll_lock_wait] has an empty body on this interface. *)
Definition rw_mgr_mem_dll_lock_wait : prog unit := ret tt.

(** One step of the gradual change: the delay [d] is applied and updated. *)
Definition gradual_step (apply : Z -> prog unit) (d : Z) : prog unit :=
  apply d ;;!
  IOWR_32DIRECT SCC_MGR_UPD 0 0 ;;!
  if negb (QDRII =? 0) then rw_mgr_mem_dll_lock_wait else ret tt.

(** The two loops of the gradual change, from [d] down or up to [delay]; as
much fuel as there are taps to go is enough. *)
Definition gradual_down (apply : Z -> prog unit) (delay d : Z) : prog Z :=
  loop (S (Z.to_nat (d - delay))) (fun d =>
    if delay <? d then gradual_step apply (d - 1) ;;! ret (inl (d - 1)) else ret (inr d)) d.

Definition gradual_up (apply : Z -> prog unit) (delay d : Z) : prog Z :=
  loop (S (Z.to_nat (delay - d))) (fun d =>
    if d <? delay then gradual_step apply (d + 1) ;;! ret (inl (d + 1)) else ret (inr d)) d.

Definition scc_mgr_set_group_dqs_io_and_oct_out1_gradual (write_group delay : Z) : prog unit :=
  let! d := READ_SCC_DQS_IO_OUT1_DELAY in
  let apply := scc_mgr_apply_group_dqs_io_and_oct_out1 write_group in
  let! d := gradual_down apply delay d in
  let! d := gradual_up apply delay d in
  ret tt.

Definition scc_mgr_set_group_dqs_io_and_oct_out2_gradual (write_group delay : Z) : prog unit :=
  let d := READ_SCC_DQS_IO_OUT2_DELAY in
  let apply := scc_mgr_apply_group_dqs_io_and_oct_out2 write_group in
  let! d := gradual_down apply delay d in
  let! d := gradual_up apply delay d in
  ret tt.

Definition scc_mgr_apply_group_all_out_delay (write_group group_bgn delay : Z) : prog unit :=
  scc_mgr_apply_group_dq_out1_delay write_group group_bgn delay ;;!
  scc_mgr_apply_group_dm_out1_delay write_group delay ;;!
  scc_mgr_apply_group_dqs_io_and_oct_out1 write_group delay.

Definition scc_mgr_apply_group_all_out_delay_all_ranks (write_group group_bgn delay : Z) : prog unit :=
  for_shadow_regs (fun r =>
    select_shadow_regs_for_update r write_group 1 ;;!
    scc_mgr_apply_group_all_out_delay write_group group_bgn delay ;;!
    IOWR_32DIRECT SCC_MGR_UPD 0 0).

(** The sum of a delay of the second chain and an increment, saturated. *)
Definition saturated_out2 (old delay : Z) : Z :=
  let new_delay := u32 (old + delay) in
  if IO_IO_OUT2_DELAY_MAX <? new_delay then IO_IO_OUT2_DELAY_MAX else new_delay.

(** What of that sum exceeds the second chain goes to the first one. *)
Definition overflow_out1 (old delay : Z) (set_out1 : Z -> prog unit) : prog unit :=
  let new_delay := u32 (old + delay) in
  if IO_IO_OUT2_DELAY_MAX <? new_delay then set_out1 (new_delay - IO_IO_OUT2_DELAY_MAX) else ret tt.

Definition scc_mgr_apply_group_all_out_delay_add (write_group group_bgn delay : Z) : prog unit :=
  for_each (c_range 0 RW_MGR_MEM_DQ_PER_WRITE_DQS 1) (fun i =>
    scc_mgr_set_dq_out2_delay write_group i (saturated_out2 (READ_SCC_DQ_OUT2_DELAY i) delay) ;;!
    scc_mgr_load_dq i) ;;!
  for_each (c_range 0 RW_MGR_NUM_DM_PER_WRITE_GROUP 1) (fun i =>
    scc_mgr_set_dm_out2_delay write_group i (saturated_out2 (READ_SCC_DM_IO_OUT2_DELAY i) delay) ;;!
    scc_mgr_load_dm i) ;;!
  overflow_out1 READ_SCC_DQS_IO_OUT2_DELAY delay (scc_mgr_set_dqs_out1_delay write_group) ;;!
  scc_mgr_set_dqs_out2_delay write_group (saturated_out2 READ_SCC_DQS_IO_OUT2_DELAY delay) ;;!
  scc_mgr_load_dqs_io ;;!
  overflow_out1 (READ_SCC_OCT_OUT2_DELAY write_group) delay (scc_mgr_set_oct_out1_delay write_group) ;;!
  scc_mgr_set_oct_out2_delay write_group (saturated_out2 (READ_SCC_OCT_OUT2_DELAY write_group) delay) ;;!
  scc_mgr_load_dqs_for_write_group write_group.

Definition scc_mgr_apply_group_all_out_delay_add_all_ranks (write_group group_bgn delay : Z) : prog unit :=
  for_shadow_regs (fun r =>
    select_shadow_regs_for_update r write_group 1 ;;!
    scc_mgr_apply_group_all_out_delay_add write_group group_bgn delay ;;!
    IOWR_32DIRECT SCC_MGR_UPD 0 0).

End Scc.

(** The groups of the interface. *)
Definition group_ok (g : Z) : Prop := 0 <= g < RW_MGR_MEM_IF_READ_DQS_WIDTH.

Lemma group_cases g : group_ok g -> g = 0 \/ g = 1 \/ g = 2 \/ g = 3.
Proof. unfold group_ok. change RW_MGR_MEM_IF_READ_DQS_WIDTH with 4. lia. Qed.

Ltac case_group Hg := destruct (group_cases _ Hg) as [-> | [-> | [-> | ->]]].

(** ** The gradual change

[taps a b] are the taps passed on the way from [a] to [b], [b] included. *)
Definition taps (a b : Z) : list Z :=
  if b <? a then rev (seqZ b (a - b)) else seqZ (a + 1) (b - a).

(** The register of the strobe's output delay, and the writes of one step. *)
Definition DQS_OUT1 : Z := SCC_MGR_IO_OUT1_DELAY + 4 * RW_MGR_MEM_DQ_PER_WRITE_DQS.

Definition out1_step (g d : Z) : list (Z * Z) :=
  [(DQS_OUT1, d); (SCC_MGR_DQS_IO_ENA, 0); (SCC_MGR_OCT_OUT1_DELAY + 4 * g, d);
   (SCC_MGR_DQS_ENA, g); (SCC_MGR_UPD, 0)].

Section Gradual.
Context {D : Type} `{Avalon D}.

Lemma gradual_step_writes g d :
  group_ok g -> 0 <= d < 2 ^ 32 ->
  writes (gradual_step (scc_mgr_apply_group_dqs_io_and_oct_out1 g) d) (out1_step g d).
Proof.
  intros Hg Hd. unfold out1_step. rewrite <- (u32_small d Hd) at 2 3.
  case_group Hg; intros s; reflexivity.
Qed.

Lemma gradual_down_spec (apply : Z -> M (Seq D) unit) f delay n d s :
  (forall x, delay <= x < d -> writes (apply x) (f x)) -> d - delay = Z.of_nat n ->
  loop (S n) (fun d => if delay <? d then apply (d - 1) ;;! ret (inl (d - 1)) else ret (inr d)) d s
  = Val delay (set_bus (write_all (rev (seqZ delay (d - delay)) ≫= f) (bus s)) s).
Proof.
  revert d s. induction n as [|n IH]; intros d s Hf Hn; rewrite loop_S.
  - destruct (Z.ltb_spec delay d); [lia|]. replace d with delay by lia. rewrite Z.sub_diag.
    simpl. by rewrite set_bus_same.
  - destruct (Z.ltb_spec delay d); [|lia].
    erewrite bind_val; [|erewrite bind_val; [reflexivity|]; apply Hf; lia]. cbv beta iota.
    rewrite IH; [|intros; apply Hf; lia|lia].
    replace (d - delay) with (d - 1 - delay + 1) by lia.
    rewrite (seqZ_app delay (d - 1 - delay) 1), rev_app_distr by lia.
    simpl. replace (delay + (d - 1 - delay)) with (d - 1) by lia.
    replace (0 + (d - 1)) with (d - 1) by lia. unfold write_all. by rewrite foldl_app.
Qed.

Lemma gradual_up_spec (apply : Z -> M (Seq D) unit) f delay n d s :
  (forall x, d < x <= delay -> writes (apply x) (f x)) -> delay - d = Z.of_nat n ->
  loop (S n) (fun d => if d <? delay then apply (d + 1) ;;! ret (inl (d + 1)) else ret (inr d)) d s
  = Val delay (set_bus (write_all (seqZ (d + 1) (delay - d) ≫= f) (bus s)) s).
Proof.
  revert d s. induction n as [|n IH]; intros d s Hf Hn; rewrite loop_S.
  - destruct (Z.ltb_spec d delay); [lia|]. replace d with delay by lia. rewrite Z.sub_diag.
    simpl. by rewrite set_bus_same.
  - destruct (Z.ltb_spec d delay); [|lia].
    erewrite bind_val; [|erewrite bind_val; [reflexivity|]; apply Hf; lia]. cbv beta iota.
    rewrite IH; [|intros; apply Hf; lia|lia].
    rewrite (seqZ_cons (d + 1)) by lia. simpl.
    replace (Z.succ (d + 1)) with (d + 1 + 1) by lia.
    replace (Z.pred (delay - d)) with (delay - (d + 1)) by lia.
    unfold write_all. by rewrite foldl_app.
Qed.

(** The output delay of a strobe is changed one tap at a time: whatever tap
the register starts from, every tap on the way to the wanted one is written to
the strobe and to its termination, and each is made effective before the next. *)
Theorem gradual_correct g delay (s : Seq D) :
  group_ok g -> 0 <= delay < 2 ^ 32 ->
  let '(v, d) := avl_read DQS_OUT1 (bus s) in
  scc_mgr_set_group_dqs_io_and_oct_out1_gradual g delay s
  = Val tt (set_bus (write_all (taps (u32 v) delay ≫= out1_step g) d) s).
Proof.
  intros Hg Hdelay. unfold scc_mgr_set_group_dqs_io_and_oct_out1_gradual, READ_SCC_DQS_IO_OUT1_DELAY.
  destruct (avl_read DQS_OUT1 (bus s)) as [v d] eqn:Hread.
  erewrite bind_val.
  2: { unfold IORD_32DIRECT. change (u32 (SCC_MGR_IO_OUT1_DELAY + _)) with DQS_OUT1.
       rewrite Hread. reflexivity. }
  pose proof (u32_bound v). unfold gradual_down, gradual_up, taps.
  destruct (Z.ltb_spec delay (u32 v)) as [Hlt|Hge].
  - erewrite bind_val.
    2: { apply gradual_down_spec; [intros; apply gradual_step_writes; [done|lia]|lia]. }
    erewrite bind_val; [|apply (gradual_up_spec _ (out1_step g)); [intros; lia|lia]].
    unfold ret. rewrite Z.sub_diag. reflexivity.
  - rewrite (bind_val _ _ (set_bus d s) (u32 v) (set_bus d s)).
    2: { rewrite loop_S. by replace (delay <? u32 v) with false by lia. }
    erewrite bind_val.
    2: { apply gradual_up_spec; [intros; apply gradual_step_writes; [done|lia]|lia]. }
    reflexivity.
Qed.

End Gradual.

(** A device that logs what is written and always reads tap 7. *)
#[export] Instance log_bus : Avalon (list (Z * Z)) := {|
  avl_read _ d := (7, d);
  avl_write a v d := d ++ [(a, v)]
|}.

Definition log_start : Seq (list (Z * Z)) :=
  mkSeq [] (mkGbl 0 0 0 0 0 0 0 0 0) (mkParam 0xff 0xff 0xff 0xff 0xff [0] 0 [0]) 0 0xff.

Lemma gradual_correct_witness :
  group_ok 1 /\ 0 <= 5 < 2 ^ 32 /\
  scc_mgr_set_group_dqs_io_and_oct_out1_gradual 1 5 log_start
  = Val tt (set_bus (out1_step 1 6 ++ out1_step 1 5) log_start).
Proof.
  assert (group_ok 1) as Hg by (unfold group_ok; vm_compute; split; congruence).
  split; [exact Hg|]. split; [lia|].
  exact (gradual_correct 1 5 log_start Hg ltac:(lia)).
Defined.
