(* ===== verification/SeqMem.v ===== *)
(** * SeqMem: delays and set-up of the memory by the sequencer

The RW manager runs instruction sequences from its ROM: a function loads
counters and jump addresses and starts a sequence.  Here are the idle loops used
as delays, the initialisation of the memory, the hand-over to the controller,
the latencies, and the ROM and register-file contents. *)
From S2P Require Import Prelude SeqConfig SeqBase.

(** The contents of the two ROMs ([sequencer_auto_inst_init.pre.c],
[sequencer_auto_ac_init.pre.c]). *)
Definition inst_rom_init : list Z :=
  [0x80000; 0x80680; 0x8180; 0x8200; 0x8280; 0x8300; 0x8380; 0x8100; 0x8480; 0x8500; 0x8580;
   0x8600; 0x8400; 0x800; 0x8680; 0x880; 0xa680; 0x80680; 0x900; 0x80680; 0x980; 0xa680; 0x8680;
   0x80680; 0xb68; 0xcce8; 0xae8; 0x8ce8; 0xb88; 0xec88; 0xa08; 0xac88; 0x80680; 0xce00; 0xcd80;
   0xe700; 0xc00; 0x20ce0; 0x20ce0; 0x20ce0; 0x20ce0; 0xd00; 0x680; 0x680; 0x680; 0x680; 0x60e80;
   0x61080; 0x61080; 0x61080; 0xa680; 0x8680; 0x80680; 0xce00; 0xcd80; 0xe700; 0xc00; 0x30ce0;
   0x30ce0; 0x30ce0; 0x30ce0; 0xd00; 0x680; 0x680; 0x680; 0x680; 0x70e80; 0x71080; 0x71080;
   0x71080; 0xa680; 0x8680; 0x80680; 0x1158; 0x6d8; 0x80680; 0x1168; 0x7e8; 0x7e8; 0x87e8;
   0x40fe8; 0x410e8; 0x410e8; 0x410e8; 0x1168; 0x7e8; 0x7e8; 0xa7e8; 0x80680; 0x40e88; 0x41088;
   0x41088; 0x41088; 0x40f68; 0x410e8; 0x410e8; 0x410e8; 0xa680; 0x40fe8; 0x410e8; 0x410e8;
   0x410e8; 0x41008; 0x41088; 0x41088; 0x41088; 0x1100; 0xc680; 0x8680; 0xe680; 0x80680; 0x0;
   0x8000; 0xa000; 0xc000; 0x80000; 0x80; 0x8080; 0xa080; 0xc080; 0x80080; 0x9180; 0x8680; 0xa680;
   0x80680; 0x40f08; 0x80680].

Definition ac_rom_init : list Z :=
  [0x20700000; 0x20780000; 0x10080471; 0x10080570; 0x10090006; 0x100a0218; 0x100b0000; 0x10380400;
   0x10080469; 0x100804e8; 0x100a0006; 0x10090218; 0x100b0000; 0x30780000; 0x38780000; 0x30780000;
   0x10680000; 0x106b0000; 0x10280400; 0x10480000; 0x1c980000; 0x1c9b0000; 0x1c980008; 0x1c9b0008;
   0x38f80000; 0x3cf80000; 0x38780000; 0x18180000; 0x18980000; 0x13580000; 0x135b0000; 0x13580008;
   0x135b0008; 0x33780000; 0x10580008; 0x10780000].

(** The loop counters of a delay of [afi_clocks] clocks: [inner], [outer] and
[c_loop], in variables of 8, 8 and 16 bits. *)
Definition delay_counters (afi_clocks : Z) : Z * Z * Z :=
  if afi_clocks =? 0 then (0, 0, 0)
  else if afi_clocks <=? 0x100 then (u8 (afi_clocks - 1), 0, 0)
  else if afi_clocks <=? 0x10000 then (0xff, u8 (Z.shiftr (afi_clocks - 1) 8), 0)
  else (0xff, 0xff, u16 (Z.shiftr (afi_clocks - 1) 16)).

Section Mem.
Context {D : Type} `{Avalon D}.
Local Abbreviation prog A := (M (Seq D) A).

(** ** Delays *)

Definition set_jump_as_return : prog unit :=
  IOWR_32DIRECT RW_MGR_LOAD_CNTR_0 0 0xFF ;;!
  IOWR_32DIRECT RW_MGR_LOAD_JUMP_ADD_0 0 __RW_MGR_RETURN.

Definition delay_for_n_mem_clocks (clocks : Z) : prog unit :=
  let afi_clocks := u32 (u32 (clocks + AFI_RATE_RATIO) - 1) / AFI_RATE_RATIO in
  let '(inner, outer, c_loop) := delay_counters afi_clocks in
  let! inner := skip_delay_loop_value_or_zero inner in
  let! outer := skip_delay_loop_value_or_zero outer in
  if afi_clocks <=? 0x100 then
    IOWR_32DIRECT RW_MGR_LOAD_CNTR_1 0 inner ;;!
    IOWR_32DIRECT RW_MGR_LOAD_JUMP_ADD_1 0 __RW_MGR_IDLE_LOOP1 ;;!
    IOWR_32DIRECT RW_MGR_RUN_SINGLE_GROUP 0 __RW_MGR_IDLE_LOOP1
  else
    IOWR_32DIRECT RW_MGR_LOAD_CNTR_0 0 inner ;;!
    IOWR_32DIRECT RW_MGR_LOAD_CNTR_1 0 outer ;;!
    IOWR_32DIRECT RW_MGR_LOAD_JUMP_ADD_0 0 __RW_MGR_IDLE_LOOP2 ;;!
    IOWR_32DIRECT RW_MGR_LOAD_JUMP_ADD_1 0 __RW_MGR_IDLE_LOOP2 ;;!
    if afi_clocks <=? 0x10000 then IOWR_32DIRECT RW_MGR_RUN_SINGLE_GROUP 0 __RW_MGR_IDLE_LOOP2
    else for_each (c_range 0 (c_loop + 1) 1) (fun _ =>
           IOWR_32DIRECT RW_MGR_RUN_SINGLE_GROUP 0 __RW_MGR_IDLE_LOOP2).

Definition delay_for_n_ns (nanoseconds : Z) : prog unit :=
  delay_for_n_mem_clocks (u32 (u32 (1000 * nanoseconds) / (1000000 / AFI_CLK_FREQ) * AFI_RATE_RATIO)).

(** ** The memory *)

(** A mode-register command: the jump is made a return and the sequence run. *)
Definition run_mode_register (sequence : Z) : prog unit :=
  set_jump_as_return ;;! IOWR_32DIRECT RW_MGR_RUN_SINGLE_GROUP 0 sequence.

(** A reset sequence: three counters, its address as target of the three jumps. *)
Definition run_reset_sequence (cntr0 cntr1 cntr2 sequence : Z) : prog unit :=
  let! cntr0 := skip_delay_loop_value_or_zero cntr0 in
  IOWR_32DIRECT RW_MGR_LOAD_CNTR_0 0 cntr0 ;;!
  let! cntr1 := skip_delay_loop_value_or_zero cntr1 in
  IOWR_32DIRECT RW_MGR_LOAD_CNTR_1 0 cntr1 ;;!
  let! cntr2 := skip_delay_loop_value_or_zero cntr2 in
  IOWR_32DIRECT RW_MGR_LOAD_CNTR_2 0 cntr2 ;;!
  IOWR_32DIRECT RW_MGR_LOAD_JUMP_ADD_0 0 sequence ;;!
  IOWR_32DIRECT RW_MGR_LOAD_JUMP_ADD_1 0 sequence ;;!
  IOWR_32DIRECT RW_MGR_LOAD_JUMP_ADD_2 0 sequence ;;!
  IOWR_32DIRECT RW_MGR_RUN_SINGLE_GROUP 0 sequence.

(** [(RW_MGR_MEM_ADDRESS_MIRRORING >> r) & 0x1] *)
Definition mirrored_rank (r : Z) : bool :=
  negb (Z.land (Z.shiftr RW_MGR_MEM_ADDRESS_MIRRORING r) 0x1 =? 0).

(** The mode registers of one rank, loaded for calibration. *)
Definition initialize_rank (r : Z) : prog unit :=
  set_rank_and_odt_mask r RW_MGR_ODT_MODE_OFF ;;!
  (if mirrored_rank r then
     run_mode_register __RW_MGR_MRS2_MIRR ;;!
     delay_for_n_mem_clocks 4 ;;!
     run_mode_register __RW_MGR_MRS3_MIRR ;;!
     delay_for_n_mem_clocks 4 ;;!
     run_mode_register __RW_MGR_MRS1_MIRR ;;!
     delay_for_n_mem_clocks 4 ;;!
     run_mode_register __RW_MGR_MRS0_DLL_RESET_MIRR
   else
     run_mode_register __RW_MGR_MRS2 ;;!
     delay_for_n_mem_clocks 4 ;;!
     run_mode_register __RW_MGR_MRS3 ;;!
     delay_for_n_mem_clocks 4 ;;!
     run_mode_register __RW_MGR_MRS1 ;;!
     run_mode_register __RW_MGR_MRS0_DLL_RESET) ;;!
  run_mode_register __RW_MGR_ZQCL ;;!
  delay_for_n_mem_clocks 512.

(** [for (r = 0; r < ranks; r++) { if (param->skip_ranks[r]) continue; ... }] *)
Definition for_used_ranks (bgn rank_end : Z) (body : Z -> prog unit) : prog unit :=
  for_each (c_range bgn rank_end 1) (fun r =>
    let! skip := skipped_rank r in
    if skip then ret tt else body r).

Definition rw_mgr_rdimm_initialize : prog unit := ret tt.

Definition rw_mgr_mem_initialize : prog unit :=
  IOWR_32DIRECT RW_MGR_SET_CS_AND_ODT_MASK 0 RW_MGR_RANK_ALL ;;!
  run_reset_sequence SEQ_TINIT_CNTR0_VAL SEQ_TINIT_CNTR1_VAL SEQ_TINIT_CNTR2_VAL
    __RW_MGR_INIT_RESET_0_CKE_0 ;;!
  IOWR_32DIRECT PHY_MGR_RESET_MEM_STBL 0 1 ;;!
  run_reset_sequence SEQ_TRESET_CNTR0_VAL SEQ_TRESET_CNTR1_VAL SEQ_TRESET_CNTR2_VAL
    __RW_MGR_INIT_RESET_1_CKE_0 ;;!
  delay_for_n_mem_clocks 250 ;;!
  rw_mgr_rdimm_initialize ;;!
  for_used_ranks 0 RW_MGR_MEM_NUMBER_OF_RANKS initialize_rank.

(** The mode registers of one rank, loaded for the user. *)
Definition handoff_rank (r : Z) : prog unit :=
  set_rank_and_odt_mask r RW_MGR_ODT_MODE_OFF ;;!
  IOWR_32DIRECT RW_MGR_RUN_SINGLE_GROUP 0 __RW_MGR_PRECHARGE_ALL ;;!
  if mirrored_rank r then
    run_mode_register __RW_MGR_MRS2_MIRR ;;!
    delay_for_n_mem_clocks 4 ;;!
    run_mode_register __RW_MGR_MRS3_MIRR ;;!
    delay_for_n_mem_clocks 4 ;;!
    run_mode_register __RW_MGR_MRS1_MIRR ;;!
    delay_for_n_mem_clocks 4 ;;!
    run_mode_register __RW_MGR_MRS0_USER_MIRR
  else
    run_mode_register __RW_MGR_MRS2 ;;!
    delay_for_n_mem_clocks 4 ;;!
    run_mode_register __RW_MGR_MRS3 ;;!
    delay_for_n_mem_clocks 4 ;;!
    run_mode_register __RW_MGR_MRS1 ;;!
    delay_for_n_mem_clocks 4 ;;!
    run_mode_register __RW_MGR_MRS0_USER.

Definition rw_mgr_mem_handoff : prog unit :=
  for_used_ranks 0 RW_MGR_MEM_NUMBER_OF_RANKS handoff_rank.

Definition mem_precharge_and_activate : prog unit :=
  for_used_ranks 0 RW_MGR_MEM_NUMBER_OF_RANKS (fun r =>
    set_rank_and_odt_mask r RW_MGR_ODT_MODE_OFF ;;!
    IOWR_32DIRECT RW_MGR_RUN_SINGLE_GROUP 0 __RW_MGR_PRECHARGE_ALL ;;!
    IOWR_32DIRECT RW_MGR_LOAD_CNTR_0 0 0x0F ;;!
    IOWR_32DIRECT RW_MGR_LOAD_JUMP_ADD_0 0 __RW_MGR_ACTIVATE_0_AND_1_WAIT1 ;;!
    IOWR_32DIRECT RW_MGR_LOAD_CNTR_1 0 0x0F ;;!
    IOWR_32DIRECT RW_MGR_LOAD_JUMP_ADD_1 0 __RW_MGR_ACTIVATE_0_AND_1_WAIT2 ;;!
    IOWR_32DIRECT RW_MGR_RUN_SINGLE_GROUP 0 __RW_MGR_ACTIVATE_0_AND_1).

(** ** Latencies *)

Definition nop_cycles_of (wlat : Z) : Z :=
  if negb (QUARTER_RATE =? 0) then u32 (u32 (wlat + 6) / 4 - 1)
  else if negb (HALF_RATE =? 0) then
    (if negb (wlat mod 2 =? 0) then u32 (u32 (wlat - 1) / 2 - 1) else u32 (wlat / 2 - 1))
  else u32 (wlat - 2).

Definition max_latency : Z :=
  if negb (QUARTER_RATE =? 0) then Z.shiftl 1 MAX_LATENCY_COUNT_WIDTH / 4 - 1
  else if negb (HALF_RATE =? 0) then Z.shiftl 1 MAX_LATENCY_COUNT_WIDTH / 2 - 1
  else Z.shiftl 1 MAX_LATENCY_COUNT_WIDTH / 1 - 1.

(** The write latency that is advertised and the read latency to start from. *)
Definition latencies (wlat rlat : Z) : Z * Z :=
  if negb (QUARTER_RATE =? 0) then (u32 (u32 (wlat + 5) / 4 + 1), u32 (u32 (rlat + 1) / 4 + 8))
  else if negb (HALF_RATE =? 0) then (u32 (u32 (wlat - 1) / 2 + 1), u32 (u32 (rlat + 1) / 2 + 8))
  else (u32 (wlat + 1), u32 (rlat + 16)).

Definition mem_config : prog unit :=
  let! wlat := IORD_32DIRECT MEM_T_WL_ADD 0 in
  let! add := IORD_32DIRECT DATA_MGR_MEM_T_ADD 0 in
  let wlat := u32 (u32 (wlat + add) + 1) in
  let! rlat := IORD_32DIRECT MEM_T_RL_ADD 0 in
  modify (fun s => set_gbl (set_nop_cycles (nop_cycles_of wlat) (gbl s)) s) ;;!
  let '(wlat, read_lat) := latencies wlat rlat in
  let read_lat := if max_latency <? read_lat then max_latency else read_lat in
  modify (fun s => set_gbl (set_read_lat read_lat (gbl s)) s) ;;!
  IOWR_32DIRECT PHY_MGR_PHY_RLAT 0 read_lat ;;!
  modify (fun s => set_gbl (set_write_lat wlat (gbl s)) s) ;;!
  IOWR_32DIRECT PHY_MGR_AFI_WLAT 0 (u32 (wlat - 2)) ;;!
  mem_precharge_and_activate.

(** ** ROMs and register file *)

(** [for (i = 0; i < size; i++) IOWR_32DIRECT (base, i << 2, rom[i])] *)
Definition write_rom (base : Z) (rom : list Z) : prog unit :=
  for_each (c_range 0 (Z.of_nat (length rom)) 1) (fun i =>
    let! data := lift (array_get rom i) in
    IOWR_32DIRECT base (u32 (Z.shiftl i 2)) data).

Definition hc_initialize_rom_data : prog unit :=
  write_rom RW_MGR_INST_ROM_WRITE inst_rom_init ;;!
  write_rom RW_MGR_AC_ROM_WRITE ac_rom_init.

Definition initialize_reg_file : prog unit :=
  IOWR_32DIRECT REG_FILE_SIGNATURE 0 REG_FILE_INIT_SEQ_SIGNATURE ;;!
  IOWR_32DIRECT REG_FILE_DEBUG_DATA_ADDR 0 0 ;;!
  IOWR_32DIRECT REG_FILE_CUR_STAGE 0 0 ;;!
  IOWR_32DIRECT REG_FILE_FOM 0 0 ;;!
  IOWR_32DIRECT REG_FILE_FAILING_STAGE 0 0 ;;!
  IOWR_32DIRECT REG_FILE_DEBUG1 0 0 ;;!
  IOWR_32DIRECT REG_FILE_DEBUG2 0 0.

(** The whole delay taps of [step] picoseconds in a phase tap, less one: the
loop that several functions start with. *)
Definition dtaps_per_phase (step : Z) : prog Z :=
  let! n := loop (S (Z.to_nat IO_DELAY_PER_OPA_TAP)) (fun '(n, tmp_delay) =>
    if tmp_delay <? IO_DELAY_PER_OPA_TAP then ret (inl (u32 (n + 1), u32 (tmp_delay + step)))
    else ret (inr n)) (0, 0) in
  ret (u32 (n - 1)).

(** [concatenated = (concatenated << width) ^ value] *)
Definition append_field (concatenated width value : Z) : Z :=
  Z.lxor (u32 (Z.shiftl concatenated width)) value.

Definition initialize_tracking : prog unit :=
  let! dtaps_per_ptap := dtaps_per_phase IO_DELAY_PER_DCHAIN_TAP in
  let concatenated_longidle := append_field (Z.lxor 0 10) 16 100 in
  let concatenated_delays := append_field (append_field (append_field (Z.lxor 0 243) 8 14) 8 10) 8 4 in
  let concatenated_rw_addr :=
    append_field (append_field (append_field (Z.lxor 0 __RW_MGR_IDLE) 8 __RW_MGR_ACTIVATE_1)
                               8 __RW_MGR_SGLE_READ) 8 __RW_MGR_PRECHARGE_ALL in
  let concatenated_refresh := append_field (Z.lxor 0 __RW_MGR_REFRESH_ALL) 24 1000 in
  IOWR_32DIRECT REG_FILE_DTAPS_PER_PTAP 0 dtaps_per_ptap ;;!
  IOWR_32DIRECT REG_FILE_TRK_SAMPLE_COUNT 0 7500 ;;!
  IOWR_32DIRECT REG_FILE_TRK_LONGIDLE 0 concatenated_longidle ;;!
  IOWR_32DIRECT REG_FILE_DELAYS 0 concatenated_delays ;;!
  IOWR_32DIRECT REG_FILE_TRK_RW_MGR_ADDR 0 concatenated_rw_addr ;;!
  IOWR_32DIRECT REG_FILE_TRK_READ_DQS_WIDTH 0 RW_MGR_MEM_IF_READ_DQS_WIDTH ;;!
  IOWR_32DIRECT REG_FILE_TRK_RFSH 0 concatenated_refresh.

End Mem.

(** ** How long a delay lasts

The sequence at [IDLE_LOOP2] goes round [counter 0 + 1] times for each of
[counter 1 + 1] rounds, the one at [IDLE_LOOP1] only [counter 1 + 1] times. *)

Definition idle_loops (inner outer runs : Z) : Z := (inner + 1) * (outer + 1) * runs.

(** The writes of a delay that is too long for one loop. *)
Definition long_delay (inner outer runs : Z) : list (Z * Z) :=
  [(RW_MGR_LOAD_CNTR_0, inner); (RW_MGR_LOAD_CNTR_1, outer);
   (RW_MGR_LOAD_JUMP_ADD_0, __RW_MGR_IDLE_LOOP2); (RW_MGR_LOAD_JUMP_ADD_1, __RW_MGR_IDLE_LOOP2)]
  ++ replicate (Z.to_nat runs) (RW_MGR_RUN_SINGLE_GROUP, __RW_MGR_IDLE_LOOP2).

Definition short_delay (counter : Z) : list (Z * Z) :=
  [(RW_MGR_LOAD_CNTR_1, counter); (RW_MGR_LOAD_JUMP_ADD_1, __RW_MGR_IDLE_LOOP1);
   (RW_MGR_RUN_SINGLE_GROUP, __RW_MGR_IDLE_LOOP1)].

Lemma delay_counters_short c :
  0 < c <= 0x100 -> delay_counters c = (c - 1, 0, 0).
Proof.
  intros Hc. unfold delay_counters, u8. destruct (Z.eqb_spec c 0), (Z.leb_spec c 0x100); try lia.
  by rewrite Z.mod_small by lia.
Qed.

Lemma delay_counters_long c :
  0x100 < c < 2 ^ 32 ->
  exists outer c_loop,
    delay_counters c = (0xff, outer, c_loop) /\ 0 <= outer <= 0xff /\ 0 <= c_loop /\
    (c <= 0x10000 -> c_loop = 0) /\ c <= idle_loops 0xff outer (c_loop + 1) < c + 0x10000.
Proof.
  intros Hc. unfold delay_counters, idle_loops, u8, u16. rewrite !Z.shiftr_div_pow2 by lia.
  change (2 ^ 8) with 256. change (2 ^ 16) with 65536.
  destruct (Z.eqb_spec c 0), (Z.leb_spec c 0x100); try lia.
  destruct (Z.leb_spec c 0x10000); eexists _, _; (split; [reflexivity|]); [rewrite Z.mod_small|rewrite Z.mod_small];
    Z.to_euclidean_division_equations; lia.
Qed.

Lemma land_ff x : 0 <= x <= 0xff -> Z.land x 0xff = x.
Proof. intros. change 0xff with (Z.ones 8). rewrite Z.land_ones, Z.mod_small; lia. Qed.

Section Delay.
Context {D : Type} `{Avalon D}.

Lemma delay_unskipped x (s : Seq D) :
  skip_delay_mask s = 0xff -> 0 <= x <= 0xff -> skip_delay_loop_value_or_zero x s = Val x s.
Proof. intros Hs Hx. unfold skip_delay_loop_value_or_zero, gets. by rewrite Hs, land_ff. Qed.

Lemma runs_writes n :
  writes (for_each (c_range 0 n 1) (fun _ =>
            IOWR_32DIRECT (D := D) RW_MGR_RUN_SINGLE_GROUP 0 __RW_MGR_IDLE_LOOP2))
    (replicate (Z.to_nat n) (RW_MGR_RUN_SINGLE_GROUP, __RW_MGR_IDLE_LOOP2)).
Proof.
  replace (replicate _ _) with (c_range 0 n 1 ≫= fun _ => [(RW_MGR_RUN_SINGLE_GROUP, __RW_MGR_IDLE_LOOP2)]).
  - apply writes_for_each. intros. apply writes_iowr.
  - assert (forall xs : list Z, (xs ≫= fun _ => [(RW_MGR_RUN_SINGLE_GROUP, __RW_MGR_IDLE_LOOP2)])
              = replicate (length xs) (RW_MGR_RUN_SINGLE_GROUP, __RW_MGR_IDLE_LOOP2)) as ->
      by (induction xs as [|x xs IH]; [done|cbn; by f_equal]).
    unfold c_range. rewrite length_fmap, length_seqZ, Z.div_1_r. f_equal. lia.
Qed.

(** C36: a delay of some clocks programs the idle loops for at least that many
rounds: exactly as many when one loop is enough, and less than 65536 more
otherwise, with every counter within its 8 bits. *)
Theorem delay_for_n_mem_clocks_correct clocks (s : Seq D) :
  skip_delay_mask s = 0xff -> 0 < clocks < 2 ^ 32 ->
  exists ws,
    delay_for_n_mem_clocks clocks s = Val tt (set_bus (write_all ws (bus s)) s) /\
    ((clocks <= 0x100 /\ ws = short_delay (clocks - 1)) \/
     exists outer runs, ws = long_delay 0xff outer runs /\ 0 <= outer <= 0xff /\
       clocks <= idle_loops 0xff outer runs < clocks + 0x10000).
Proof.
  intros Hs Hc. unfold delay_for_n_mem_clocks.
  replace (u32 (u32 (clocks + AFI_RATE_RATIO) - 1) / AFI_RATE_RATIO) with clocks.
  2: { change AFI_RATE_RATIO with 1. unfold u32. rewrite Z.div_1_r, Zminus_mod_idemp_l.
       rewrite Z.mod_small; lia. }
  cbv zeta. destruct (Z.le_gt_cases clocks 0x100) as [Hle|Hgt].
  - rewrite delay_counters_short by lia. exists (short_delay (clocks - 1)). split; [|by left].
    do 2 run (apply delay_unskipped; [done|lia]).
    replace (clocks <=? 0x100) with true by lia. unfold short_delay.
    rewrite <- (u32_small (clocks - 1)) at 2 by lia. reflexivity.
  - destruct (delay_counters_long clocks) as (outer & c_loop & -> & Ho & Hl & Hshort & Hloops); [lia|].
    exists (long_delay 0xff outer (c_loop + 1)). split; [|right; by exists outer, (c_loop + 1)].
    do 2 run (apply delay_unskipped; [done|lia]).
    replace (clocks <=? 0x100) with false by lia. unfold long_delay.
    replace (RW_MGR_LOAD_CNTR_1, outer) with (u32 (RW_MGR_LOAD_CNTR_1 + 0), u32 outer)
      by (by rewrite (u32_small outer) by lia).
    refine ((_ : writes _ _) s). do 4 apply writes_iowr_then.
    destruct (Z.leb_spec clocks 0x10000); [|apply runs_writes].
    rewrite Hshort by done. apply writes_iowr.
Qed.

End Delay.

Lemma delay_for_n_mem_clocks_correct_witness :
  skip_delay_mask register_start = 0xff /\ 0 < 70000 < 2 ^ 32 /\
  exists ws,
    delay_for_n_mem_clocks 70000 register_start
    = Val tt (set_bus (write_all ws (bus register_start)) register_start) /\
    ((70000 <= 0x100 /\ ws = short_delay (70000 - 1)) \/
     exists outer runs, ws = long_delay 0xff outer runs /\ 0 <= outer <= 0xff /\
       70000 <= idle_loops 0xff outer runs < 70000 + 0x10000).
Proof.
  split; [reflexivity|]. split; [lia|].
  apply (delay_for_n_mem_clocks_correct 70000 register_start); [reflexivity|lia].
Defined.
