(* ===== verification/SeqTest.v ===== *)
(** * SeqTest: reading and writing test patterns

The memory is tested by instruction sequences that compare what is read with
what was written; the RW manager answers with one bit per DQ pin, set on an
error.  Here are the read and write tests, the read FIFO and the calibration of
the read latency.  A test returns its result with the new [*bit_chk]. *)
From S2P Require Import Prelude SeqConfig SeqBase SeqScc SeqMem.

Section Test.
Context {D : Type} `{Avalon D}.
Local Abbreviation prog A := (M (Seq D) A).

Definition rank_end (rank_bgn all_ranks : Z) : Z :=
  if negb (all_ranks =? 0) then RW_MGR_MEM_NUMBER_OF_RANKS
  else u32 (rank_bgn + NUM_RANKS_PER_SHADOW_REG).

(** [for (vg = virtual groups - 1; ; vg--)]: each group is tested by [run] and
the bits without an error are collected. *)
Definition collect_groups (virtual_groups dq_per_group : Z) (correct_mask_vg : Z)
    (run : Z -> prog unit) : prog Z :=
  for_fold (rev (c_range 0 virtual_groups 1)) 0 (fun tmp_bit_chk vg =>
    let tmp_bit_chk := u32 (Z.shiftl tmp_bit_chk dq_per_group) in
    run vg ;;!
    let! errors := IORD_32DIRECT BASE_RW_MGR 0 in
    ret (Z.lor tmp_bit_chk (Z.land correct_mask_vg (u32 (Z.lnot errors))))).

(** The ranks of a test: [*bit_chk] keeps the bits that no rank clears. *)
Definition test_ranks (rank_bgn all_ranks bit_chk : Z) (test : Z -> prog Z) : prog Z :=
  for_fold (c_range rank_bgn (rank_end rank_bgn all_ranks) 1) bit_chk (fun bit_chk r =>
    let! skip := skipped_rank r in
    if skip then ret bit_chk
    else let! tmp_bit_chk := test r in ret (Z.land bit_chk tmp_bit_chk)).

(** [*bit_chk == correct_mask], or [*bit_chk != 0] when one bit is enough. *)
Definition verdict (all_correct bit_chk correct_mask : Z) : Z :=
  if negb (all_correct =? 0) then Z.b2z (bit_chk =? correct_mask) else Z.b2z (negb (bit_chk =? 0)).

(** ** Guaranteed patterns *)

Definition run_guaranteed_read (group vg : Z) : prog unit :=
  IOWR_32DIRECT PHY_MGR_CMD_FIFO_RESET 0 0 ;;!
  IOWR_32DIRECT RW_MGR_RESET_READ_DATAPATH 0 0 ;;!
  IOWR_32DIRECT RW_MGR_RUN_SINGLE_GROUP
    (shl2 (u32 (group * RW_MGR_MEM_VIRTUAL_GROUPS_PER_READ_DQS + vg))) __RW_MGR_GUARANTEED_READ.

Definition rw_mgr_mem_calibrate_read_test_patterns (rank_bgn group num_tries all_ranks : Z) :
    prog (Z * Z) :=
  let! p := gets param in
  let! bit_chk := test_ranks rank_bgn all_ranks (read_correct_mask p) (fun r =>
    set_rank_and_odt_mask r RW_MGR_ODT_MODE_READ_WRITE ;;!
    IOWR_32DIRECT RW_MGR_LOAD_CNTR_0 0 0x20 ;;!
    IOWR_32DIRECT RW_MGR_LOAD_JUMP_ADD_0 0 __RW_MGR_GUARANTEED_READ ;;!
    IOWR_32DIRECT RW_MGR_LOAD_CNTR_1 0 0x20 ;;!
    IOWR_32DIRECT RW_MGR_LOAD_JUMP_ADD_1 0 __RW_MGR_GUARANTEED_READ_CONT ;;!
    collect_groups RW_MGR_MEM_VIRTUAL_GROUPS_PER_READ_DQS
      (RW_MGR_MEM_DQ_PER_READ_DQS / RW_MGR_MEM_VIRTUAL_GROUPS_PER_READ_DQS)
      (read_correct_mask_vg p) (run_guaranteed_read group)) in
  IOWR_32DIRECT RW_MGR_RUN_SINGLE_GROUP (shl2 group) __RW_MGR_CLEAR_DQS_ENABLE ;;!
  set_rank_and_odt_mask 0 RW_MGR_ODT_MODE_OFF ;;!
  ret (Z.b2z (bit_chk =? read_correct_mask p), bit_chk).

Definition rw_mgr_mem_calibrate_read_test_patterns_all_ranks (group num_tries : Z) : prog (Z * Z) :=
  let! '(ok, bit_chk) := rw_mgr_mem_calibrate_read_test_patterns 0 group num_tries 1 in
  if negb (ok =? 0) then ret (1, bit_chk)
  else
    loop (S (Z.to_nat (IO_DQS_EN_PHASE_MAX + 1))) (fun '(p, bit_chk) =>
      if p <=? IO_DQS_EN_PHASE_MAX then
        scc_mgr_set_dqs_en_phase_all_ranks group p ;;!
        let! '(ok, bit_chk) := rw_mgr_mem_calibrate_read_test_patterns 0 group num_tries 1 in
        if negb (ok =? 0) then ret (inr (1, bit_chk)) else ret (inl (p + 1, bit_chk))
      else ret (inr (0, bit_chk))) (0, bit_chk).

Definition rw_mgr_mem_calibrate_read_load_patterns (rank_bgn all_ranks : Z) : prog unit :=
  for_used_ranks rank_bgn (rank_end rank_bgn all_ranks) (fun r =>
    set_rank_and_odt_mask r RW_MGR_ODT_MODE_READ_WRITE ;;!
    IOWR_32DIRECT RW_MGR_LOAD_CNTR_0 0 0x20 ;;!
    IOWR_32DIRECT RW_MGR_LOAD_JUMP_ADD_0 0 __RW_MGR_GUARANTEED_WRITE_WAIT0 ;;!
    IOWR_32DIRECT RW_MGR_LOAD_CNTR_1 0 0x20 ;;!
    IOWR_32DIRECT RW_MGR_LOAD_JUMP_ADD_1 0 __RW_MGR_GUARANTEED_WRITE_WAIT1 ;;!
    IOWR_32DIRECT RW_MGR_LOAD_CNTR_2 0 0x04 ;;!
    IOWR_32DIRECT RW_MGR_LOAD_JUMP_ADD_2 0 __RW_MGR_GUARANTEED_WRITE_WAIT2 ;;!
    IOWR_32DIRECT RW_MGR_LOAD_CNTR_3 0 0x04 ;;!
    IOWR_32DIRECT RW_MGR_LOAD_JUMP_ADD_3 0 __RW_MGR_GUARANTEED_WRITE_WAIT3 ;;!
    IOWR_32DIRECT RW_MGR_RUN_SINGLE_GROUP 0 __RW_MGR_GUARANTEED_WRITE) ;;!
  set_rank_and_odt_mask 0 RW_MGR_ODT_MODE_OFF.

Definition rw_mgr_mem_calibrate_read_load_patterns_all_ranks : prog unit :=
  rw_mgr_mem_calibrate_read_load_patterns 0 1.

(** ** Back-to-back reads *)

Definition quick_read_mode : bool :=
  negb (Z.land STATIC_CALIB_STEPS CALIB_SKIP_DELAY_SWEEPS =? 0)
  && negb (ENABLE_SUPER_QUICK_CALIBRATION =? 0) || negb (BFM_MODE =? 0).

Definition run_read (all_groups group vg : Z) : prog unit :=
  IOWR_32DIRECT PHY_MGR_CMD_FIFO_RESET 0 0 ;;!
  IOWR_32DIRECT RW_MGR_RESET_READ_DATAPATH 0 0 ;;!
  IOWR_32DIRECT (if negb (all_groups =? 0) then RW_MGR_RUN_ALL_GROUPS else RW_MGR_RUN_SINGLE_GROUP)
    (shl2 (u32 (group * RW_MGR_MEM_VIRTUAL_GROUPS_PER_READ_DQS + vg))) __RW_MGR_READ_B2B.

(** The counters and jumps of the read sequence. *)
Definition load_read (all_groups : Z) : prog unit :=
  IOWR_32DIRECT RW_MGR_LOAD_CNTR_1 0 0x10 ;;!
  IOWR_32DIRECT RW_MGR_LOAD_JUMP_ADD_1 0 __RW_MGR_READ_B2B_WAIT1 ;;!
  IOWR_32DIRECT RW_MGR_LOAD_CNTR_2 0 0x10 ;;!
  IOWR_32DIRECT RW_MGR_LOAD_JUMP_ADD_2 0 __RW_MGR_READ_B2B_WAIT2 ;;!
  IOWR_32DIRECT RW_MGR_LOAD_CNTR_0 0
    (if quick_read_mode then 0x1 else if negb (all_groups =? 0) then 0x06 else 0x32) ;;!
  IOWR_32DIRECT RW_MGR_LOAD_JUMP_ADD_0 0 __RW_MGR_READ_B2B ;;!
  IOWR_32DIRECT RW_MGR_LOAD_CNTR_3 0
    (if negb (all_groups =? 0)
     then RW_MGR_MEM_IF_READ_DQS_WIDTH * RW_MGR_MEM_VIRTUAL_GROUPS_PER_READ_DQS - 1 else 0x0) ;;!
  IOWR_32DIRECT RW_MGR_LOAD_JUMP_ADD_3 0 __RW_MGR_READ_B2B.

Definition rw_mgr_mem_calibrate_read_test
    (rank_bgn group num_tries all_correct all_groups all_ranks : Z) : prog (Z * Z) :=
  let! p := gets param in
  let! bit_chk := test_ranks rank_bgn all_ranks (read_correct_mask p) (fun r =>
    set_rank_and_odt_mask r RW_MGR_ODT_MODE_READ_WRITE ;;!
    load_read all_groups ;;!
    collect_groups RW_MGR_MEM_VIRTUAL_GROUPS_PER_READ_DQS
      (RW_MGR_MEM_DQ_PER_READ_DQS / RW_MGR_MEM_VIRTUAL_GROUPS_PER_READ_DQS)
      (read_correct_mask_vg p) (run_read all_groups group)) in
  IOWR_32DIRECT RW_MGR_RUN_SINGLE_GROUP (shl2 group) __RW_MGR_CLEAR_DQS_ENABLE ;;!
  set_rank_and_odt_mask 0 RW_MGR_ODT_MODE_OFF ;;!
  ret (verdict all_correct bit_chk (read_correct_mask p), bit_chk).

Definition rw_mgr_mem_calibrate_read_test_all_ranks
    (group num_tries all_correct bit_chk all_groups : Z) : prog (Z * Z) :=
  let num_tries := if num_tries <=? 0 then 1 else num_tries in
  loop (S (Z.to_nat num_tries)) (fun '(i, success, bit_chk) =>
    if i <? num_tries then
      let! '(one_test_success, bit_chk) :=
        rw_mgr_mem_calibrate_read_test 0 group 1 all_correct all_groups 1 in
      let success := Z.land success one_test_success in
      if success =? 0 then ret (inr (success, bit_chk))
      else ret (inl (i + 1, success, bit_chk))
    else ret (inr (success, bit_chk))) (0, 1, bit_chk).

(** ** The read FIFO *)

Definition rw_mgr_incr_vfifo (grp v : Z) : prog Z :=
  (if negb (HARD_PHY =? 0) then IOWR_32DIRECT PHY_MGR_CMD_INC_VFIFO_HARD_PHY 0 grp
   else if negb (QUARTER_RATE =? 0) && (HARD_VFIFO =? 0) then
     (if Z.land v 3 =? 3 then IOWR_32DIRECT PHY_MGR_CMD_INC_VFIFO_QR 0 grp
      else if Z.land v 2 =? 2 then IOWR_32DIRECT PHY_MGR_CMD_INC_VFIFO_FR_HR 0 grp
      else if Z.land v 1 =? 1 then IOWR_32DIRECT PHY_MGR_CMD_INC_VFIFO_HR 0 grp
      else IOWR_32DIRECT PHY_MGR_CMD_INC_VFIFO_FR 0 grp)
   else if negb (HARD_VFIFO =? 0) then IOWR_32DIRECT PHY_MGR_CMD_INC_VFIFO_FR 0 grp
   else if (HALF_RATE =? 0) || (Z.land v 1 =? 1)
     then IOWR_32DIRECT PHY_MGR_CMD_INC_VFIFO_HR 0 grp
     else IOWR_32DIRECT PHY_MGR_CMD_INC_VFIFO_FR 0 grp) ;;!
  ret (u32 (v + 1)).

Definition rw_mgr_incr_vfifo_all (grp v : Z) : prog Z := rw_mgr_incr_vfifo grp v.

Definition rw_mgr_decr_vfifo (grp v : Z) : prog Z :=
  for_fold (c_range 0 (VFIFO_SIZE - 1) 1) v (fun v _ => rw_mgr_incr_vfifo grp v).

(** ** The read latency *)

Definition set_curr_read_lat (z : Z) : prog unit :=
  modify (fun s => set_gbl (set_read_lat (u32 z) (gbl s)) s).

Definition lfifo_body (found_one : Z) : prog (Z + Z) :=
  let! lat := gets (fun s => curr_read_lat (gbl s)) in
  IOWR_32DIRECT PHY_MGR_PHY_RLAT 0 lat ;;!
  let! '(ok, _) := rw_mgr_mem_calibrate_read_test_all_ranks 0 NUM_READ_TESTS PASS_ALL_BITS 0 1 in
  if ok =? 0 then ret (inr found_one)
  else
    set_curr_read_lat (lat - 1) ;;!
    let! lat := gets (fun s => curr_read_lat (gbl s)) in
    if 0 <? lat then ret (inl 1) else ret (inr 1).

(** The loop tries one latency after the other down to 1; as much fuel as there
are latencies is enough. *)
Definition rw_mgr_mem_calibrate_lfifo : prog Z :=
  reg_file_set_stage CAL_STAGE_LFIFO ;;!
  reg_file_set_sub_stage CAL_SUBSTAGE_READ_LATENCY ;;!
  rw_mgr_mem_calibrate_read_load_patterns_all_ranks ;;!
  let! lat := gets (fun s => curr_read_lat (gbl s)) in
  let! found_one := loop (S (Z.to_nat (u32 (lat - 1)))) lfifo_body 0 in
  IOWR_32DIRECT PHY_MGR_CMD_FIFO_RESET 0 0 ;;!
  if negb (found_one =? 0) then
    let! lat := gets (fun s => curr_read_lat (gbl s)) in
    set_curr_read_lat (lat + 2) ;;!
    let! lat := gets (fun s => curr_read_lat (gbl s)) in
    IOWR_32DIRECT PHY_MGR_PHY_RLAT 0 lat ;;!
    ret 1
  else
    set_failing_group_stage 0xff CAL_STAGE_LFIFO CAL_SUBSTAGE_READ_LATENCY ;;!
    ret 0.

(** ** Writes *)

Definition quick_write_mode : bool :=
  negb (Z.land STATIC_CALIB_STEPS CALIB_SKIP_WRITES =? 0)
  && negb (ENABLE_SUPER_QUICK_CALIBRATION =? 0) || negb (BFM_MODE =? 0).

(** The counters and jumps for the cycles between a write command and its data;
the result is the sequence to run. *)
Definition load_write_nops (rw_wl_nop_cycles : Z) (test_dm : bool) : prog Z :=
  if rw_wl_nop_cycles =? u32 (-1) then
    IOWR_32DIRECT RW_MGR_LOAD_CNTR_2 0 0xFF ;;!
    if test_dm then
      IOWR_32DIRECT RW_MGR_LOAD_JUMP_ADD_2 0 __RW_MGR_LFSR_WR_RD_DM_BANK_0_DATA ;;!
      IOWR_32DIRECT RW_MGR_LOAD_JUMP_ADD_3 0 __RW_MGR_LFSR_WR_RD_DM_BANK_0_NOP ;;!
      ret __RW_MGR_LFSR_WR_RD_DM_BANK_0_WL_1
    else
      IOWR_32DIRECT RW_MGR_LOAD_JUMP_ADD_2 0 __RW_MGR_LFSR_WR_RD_BANK_0_DATA ;;!
      IOWR_32DIRECT RW_MGR_LOAD_JUMP_ADD_3 0 __RW_MGR_LFSR_WR_RD_BANK_0_NOP ;;!
      ret __RW_MGR_LFSR_WR_RD_BANK_0_WL_1
  else if rw_wl_nop_cycles =? 0 then
    IOWR_32DIRECT RW_MGR_LOAD_CNTR_2 0 0xFF ;;!
    if test_dm then
      IOWR_32DIRECT RW_MGR_LOAD_JUMP_ADD_2 0 __RW_MGR_LFSR_WR_RD_DM_BANK_0_DQS ;;!
      ret __RW_MGR_LFSR_WR_RD_DM_BANK_0
    else
      IOWR_32DIRECT RW_MGR_LOAD_JUMP_ADD_2 0 __RW_MGR_LFSR_WR_RD_BANK_0_DQS ;;!
      ret __RW_MGR_LFSR_WR_RD_BANK_0
  else
    IOWR_32DIRECT RW_MGR_LOAD_CNTR_2 0 0x0 ;;!
    IOWR_32DIRECT RW_MGR_LOAD_JUMP_ADD_2 0 0x0 ;;!
    IOWR_32DIRECT RW_MGR_LOAD_CNTR_3 0 (u32 (rw_wl_nop_cycles - 1)) ;;!
    if test_dm then
      IOWR_32DIRECT RW_MGR_LOAD_JUMP_ADD_3 0 __RW_MGR_LFSR_WR_RD_DM_BANK_0_NOP ;;!
      ret __RW_MGR_LFSR_WR_RD_DM_BANK_0
    else
      IOWR_32DIRECT RW_MGR_LOAD_JUMP_ADD_3 0 __RW_MGR_LFSR_WR_RD_BANK_0_NOP ;;!
      ret __RW_MGR_LFSR_WR_RD_BANK_0.

Definition rw_mgr_mem_calibrate_write_test_issue (group test_dm : Z) : prog unit :=
  let test_dm := negb (test_dm =? 0) in
  let! rw_wl_nop_cycles := gets (fun s => rw_wl_nop_cycles (gbl s)) in
  let! mcc_instruction := load_write_nops rw_wl_nop_cycles test_dm in
  IOWR_32DIRECT RW_MGR_RESET_READ_DATAPATH 0 0 ;;!
  IOWR_32DIRECT RW_MGR_LOAD_CNTR_0 0 (if quick_write_mode then 0x08 else 0x40) ;;!
  IOWR_32DIRECT RW_MGR_LOAD_JUMP_ADD_0 0 mcc_instruction ;;!
  IOWR_32DIRECT RW_MGR_LOAD_CNTR_1 0 0x30 ;;!
  IOWR_32DIRECT RW_MGR_LOAD_JUMP_ADD_1 0
    (if test_dm then __RW_MGR_LFSR_WR_RD_DM_BANK_0_WAIT else __RW_MGR_LFSR_WR_RD_BANK_0_WAIT) ;;!
  IOWR_32DIRECT RW_MGR_RUN_SINGLE_GROUP (shl2 group) mcc_instruction.

Definition rw_mgr_mem_calibrate_write_test
    (rank_bgn write_group use_dm all_correct all_ranks : Z) : prog (Z * Z) :=
  let! p := gets param in
  let! bit_chk := test_ranks rank_bgn all_ranks (write_correct_mask p) (fun r =>
    set_rank_and_odt_mask r RW_MGR_ODT_MODE_READ_WRITE ;;!
    collect_groups RW_MGR_MEM_VIRTUAL_GROUPS_PER_WRITE_DQS
      (RW_MGR_MEM_DQ_PER_WRITE_DQS / RW_MGR_MEM_VIRTUAL_GROUPS_PER_WRITE_DQS)
      (write_correct_mask_vg p) (fun vg =>
        IOWR_32DIRECT PHY_MGR_CMD_FIFO_RESET 0 0 ;;!
        rw_mgr_mem_calibrate_write_test_issue
          (u32 (write_group * RW_MGR_MEM_VIRTUAL_GROUPS_PER_WRITE_DQS + vg)) use_dm)) in
  set_rank_and_odt_mask 0 RW_MGR_ODT_MODE_OFF ;;!
  ret (verdict all_correct bit_chk (write_correct_mask p), bit_chk).

Definition rw_mgr_mem_calibrate_write_test_all_ranks (write_group use_dm all_correct : Z) :
    prog (Z * Z) :=
  rw_mgr_mem_calibrate_write_test 0 write_group use_dm all_correct 1.

(** A group is tested when it is not skipped; the result is that of the last
one tested. *)
Definition rw_mgr_mem_calibrate_full_test (min_correct bit_chk test_dm : Z) : prog (Z * Z) :=
  let! p := gets param in
  let! '(success, bit_chk, _) :=
    for_fold (c_range 0 RW_MGR_MEM_IF_READ_DQS_WIDTH 1) (0, bit_chk, u32 (Z.lnot (skip_groups p)))
      (fun '(success, bit_chk, run_groups) g =>
        let! '(success, bit_chk) :=
          if negb (Z.land run_groups (Z.shiftl 1 RW_MGR_NUM_DQS_PER_WRITE_GROUP - 1) =? 0)
          then rw_mgr_mem_calibrate_write_test_all_ranks g test_dm PASS_ALL_BITS
          else ret (success, bit_chk) in
        ret (success, bit_chk, Z.shiftr run_groups RW_MGR_NUM_DQS_PER_WRITE_GROUP)) in
  ret (success, bit_chk).

End Test.

(** ** What a read test does *)

(** The writes that lead to the answer of the RW manager, and those after it. *)
Definition read_setup (all_groups g : Z) : list (Z * Z) :=
  [(RW_MGR_SET_CS_AND_ODT_MASK, cs_and_odt_mask 1 0x0 0x1);
   (RW_MGR_LOAD_CNTR_1, 0x10); (RW_MGR_LOAD_JUMP_ADD_1, __RW_MGR_READ_B2B_WAIT1);
   (RW_MGR_LOAD_CNTR_2, 0x10); (RW_MGR_LOAD_JUMP_ADD_2, __RW_MGR_READ_B2B_WAIT2);
   (RW_MGR_LOAD_CNTR_0, if all_groups =? 0 then 0x32 else 0x06);
   (RW_MGR_LOAD_JUMP_ADD_0, __RW_MGR_READ_B2B);
   (RW_MGR_LOAD_CNTR_3, if all_groups =? 0 then 0 else 3);
   (RW_MGR_LOAD_JUMP_ADD_3, __RW_MGR_READ_B2B);
   (PHY_MGR_CMD_FIFO_RESET, 0); (RW_MGR_RESET_READ_DATAPATH, 0);
   ((if all_groups =? 0 then RW_MGR_RUN_SINGLE_GROUP else RW_MGR_RUN_ALL_GROUPS) + 4 * g,
    __RW_MGR_READ_B2B)].

Definition read_cleanup (g : Z) : list (Z * Z) :=
  [(RW_MGR_RUN_SINGLE_GROUP + 4 * g, __RW_MGR_CLEAR_DQS_ENABLE);
   (RW_MGR_SET_CS_AND_ODT_MASK, cs_and_odt_mask 1 0x0 0x0)].

Section ReadTest.
Context {D : Type} `{Avalon D}.

Lemma rank_mask_writes odt_mode :
  writes (D := D) (set_rank_and_odt_mask 0 odt_mode)
    [(RW_MGR_SET_CS_AND_ODT_MASK,
      cs_and_odt_mask 1 0x0 (if odt_mode =? RW_MGR_ODT_MODE_READ_WRITE then 0x1 else 0x0))].
Proof. intros s. unfold set_rank_and_odt_mask. case_match; reflexivity. Qed.

Lemma read_setup_writes g all_groups :
  group_ok g ->
  writes (D := D) (set_rank_and_odt_mask 0 RW_MGR_ODT_MODE_READ_WRITE ;;!
                   load_read all_groups ;;! run_read all_groups g 0) (read_setup all_groups g).
Proof.
  intros Hg s. unfold load_read, run_read, read_setup.
  case_group Hg; destruct (all_groups =? 0); reflexivity.
Qed.

(** One rank: the set-up, the read and the pins without an error. *)
Lemma read_rank_spec g all_groups mask (s : Seq D) :
  group_ok g ->
  (set_rank_and_odt_mask 0 RW_MGR_ODT_MODE_READ_WRITE ;;!
   load_read all_groups ;;!
   collect_groups RW_MGR_MEM_VIRTUAL_GROUPS_PER_READ_DQS
     (RW_MGR_MEM_DQ_PER_READ_DQS / RW_MGR_MEM_VIRTUAL_GROUPS_PER_READ_DQS) mask
     (run_read all_groups g)) s =
  let '(errors, d) := avl_read BASE_RW_MGR (write_all (read_setup all_groups g) (bus s)) in
  Val (Z.land mask (u32 (Z.lnot (u32 errors)))) (set_bus d s).
Proof.
  intros Hg. pose proof (read_setup_writes g all_groups Hg s) as Hsetup.
  unfold collect_groups. change (rev _) with [0]. cbn [for_fold]. unfold bind at 1 2 in Hsetup.
  unfold bind at 1. destruct (set_rank_and_odt_mask _ _ s) as [[] s1| | |]; [|done..].
  unfold bind at 1. destruct (load_read _ s1) as [[] s2| | |]; [|done..].
  unfold bind at 1 2. rewrite Hsetup.
  destruct (avl_read _ _) as [errors d] eqn:Hread.
  unfold bind, IORD_32DIRECT. change (u32 (BASE_RW_MGR + 0)) with BASE_RW_MGR.
  change (bus (set_bus ?x _)) with x. rewrite Hread. reflexivity.
Qed.

Lemma skipped_rank_val skip (s : Seq D) :
  skip_ranks (param s) = [skip] -> skipped_rank 0 s = Val (negb (skip =? 0)) s.
Proof. intros Hskip. unfold skipped_rank, bind, gets. by rewrite Hskip. Qed.

Lemma test_ranks_one bit_chk (test : Z -> M (Seq D) Z) skip (s : Seq D) :
  skip_ranks (param s) = [skip] ->
  test_ranks 0 1 bit_chk test s
  = if skip =? 0 then (let! t := test 0 in ret (Z.land bit_chk t)) s else Val bit_chk s.
Proof.
  intros Hskip. unfold test_ranks. change (c_range _ _ _) with [0]. cbn [for_fold].
  unfold bind at 1 2. rewrite (skipped_rank_val skip) by done.
  destruct (skip =? 0); simpl; [|done]. by destruct (bind _ _ s).
Qed.

Lemma read_test_spec g num_tries all_correct all_groups skip (s : Seq D) :
  group_ok g -> skip_ranks (param s) = [skip] ->
  let p := param s in
  rw_mgr_mem_calibrate_read_test 0 g num_tries all_correct all_groups 1 s =
  if skip =? 0 then
    let '(errors, d) := avl_read BASE_RW_MGR (write_all (read_setup all_groups g) (bus s)) in
    let bit_chk := Z.land (read_correct_mask p)
                          (Z.land (read_correct_mask_vg p) (u32 (Z.lnot (u32 errors)))) in
    Val (verdict all_correct bit_chk (read_correct_mask p), bit_chk)
        (set_bus (write_all (read_cleanup g) d) s)
  else Val (verdict all_correct (read_correct_mask p) (read_correct_mask p), read_correct_mask p)
           (set_bus (write_all (read_cleanup g) (bus s)) s).
Proof.
  intros Hg Hskip. cbv zeta. unfold rw_mgr_mem_calibrate_read_test.
  unfold bind at 1, gets at 1. unfold bind at 1. rewrite (test_ranks_one _ _ skip) by done.
  destruct (skip =? 0).
  - unfold bind at 1. rewrite read_rank_spec by done.
    destruct (avl_read _ _) as [errors d]. unfold ret at 1.
    case_group Hg; reflexivity.
  - case_group Hg; reflexivity.
Qed.

(** The pins that were to work and showed no error, bit by bit. *)
Lemma testbit_good mask mask_vg errors i :
  0 <= i ->
  Z.testbit (Z.land mask (Z.land mask_vg (u32 (Z.lnot (u32 errors))))) i
  = (i <? 32) && Z.testbit mask i && Z.testbit mask_vg i && negb (Z.testbit errors i).
Proof.
  intros Hi. rewrite !Z.land_spec, testbit_u32, Z.lnot_spec, testbit_u32 by lia.
  destruct (i <? 32); cbn [andb]; [by rewrite !andb_assoc|by rewrite !andb_false_r].
Qed.

Lemma verdict_bit all_correct bit_chk mask :
  (verdict all_correct bit_chk mask = 1 \/ verdict all_correct bit_chk mask = 0) /\
  (verdict all_correct bit_chk mask = 1 <-> if all_correct =? 0 then bit_chk <> 0 else bit_chk = mask).
Proof.
  unfold verdict. destruct (all_correct =? 0); cbn [negb].
  - destruct (Z.eqb_spec bit_chk 0); cbn; split; tauto || lia.
  - destruct (Z.eqb_spec bit_chk mask); cbn; split; tauto || lia.
Qed.

(** C35: a read test of a group programs the back-to-back reads, reads the error
bits of the RW manager exactly once, clears the strobe's enable and turns the
termination off; a bit of its [bit_chk] is set exactly when its pin was to work and
showed no error, and its result is 1, and not 0, exactly when all of them worked, or,
if [all_correct] is 0, any of them.  A rank that is skipped is not read and counts as
working. *)
Theorem read_test_correct g num_tries all_correct all_groups skip (s : Seq D) :
  group_ok g -> skip_ranks (param s) = [skip] ->
  let p := param s in
  exists r bit_chk s',
    rw_mgr_mem_calibrate_read_test 0 g num_tries all_correct all_groups 1 s = Val (r, bit_chk) s' /\
    (r = 1 \/ r = 0) /\
    (r = 1 <-> if all_correct =? 0 then bit_chk <> 0 else bit_chk = read_correct_mask p) /\
    if skip =? 0 then
      let '(errors, d) := avl_read BASE_RW_MGR (write_all (read_setup all_groups g) (bus s)) in
      s' = set_bus (write_all (read_cleanup g) d) s /\
      forall i, 0 <= i -> Z.testbit bit_chk i =
        (i <? 32) && Z.testbit (read_correct_mask p) i && Z.testbit (read_correct_mask_vg p) i &&
        negb (Z.testbit errors i)
    else s' = set_bus (write_all (read_cleanup g) (bus s)) s /\ bit_chk = read_correct_mask p.
Proof.
  intros Hg Hskip p. subst p. rewrite (read_test_spec g _ _ _ skip) by done. destruct (skip =? 0).
  - destruct (avl_read _ _) as [errors d]. eexists _, _, _. split; [reflexivity|].
    destruct (verdict_bit all_correct (Z.land (read_correct_mask (param s))
      (Z.land (read_correct_mask_vg (param s)) (u32 (Z.lnot (u32 errors))))) (read_correct_mask (param s))) as [Hb Hv].
    split; [exact Hb|]. split; [exact Hv|]. split; [done|]. intros i Hi. by apply testbit_good.
  - eexists _, _, _. split; [reflexivity|].
    destruct (verdict_bit all_correct (read_correct_mask (param s)) (read_correct_mask (param s))) as [Hb Hv]. done.
Qed.

End ReadTest.

Lemma read_test_correct_witness :
  group_ok 2 /\ skip_ranks (param log_start) = [0] /\
  exists r bit_chk s', rw_mgr_mem_calibrate_read_test 0 2 1 PASS_ONE_BIT 0 1 log_start = Val (r, bit_chk) s' /\
    (r = 1 \/ r = 0) /\ (r = 1 <-> bit_chk <> 0) /\
    s' = set_bus (write_all (read_cleanup 2) (snd (avl_read BASE_RW_MGR (write_all (read_setup 0 2) (bus log_start))))) log_start /\
    forall i, 0 <= i -> Z.testbit bit_chk i =
      (i <? 32) && Z.testbit 0xff i && Z.testbit 0xff i &&
      negb (Z.testbit (fst (avl_read BASE_RW_MGR (write_all (read_setup 0 2) (bus log_start)))) i).
Proof.
  assert (group_ok 2) as Hg by (unfold group_ok; vm_compute; split; congruence).
  split; [exact Hg|]. split; [reflexivity|].
  exact (read_test_correct 2 1 PASS_ONE_BIT 0 0 log_start Hg eq_refl).
Defined.

(** Pins 0 to 2 of group 2 show an error: one good pin is enough, or it is not. *)
Example read_test_one_bit :
  match rw_mgr_mem_calibrate_read_test 0 2 1 PASS_ONE_BIT 0 1 log_start,
        rw_mgr_mem_calibrate_read_test 0 2 1 PASS_ALL_BITS 0 1 log_start with
  | Val one _, Val all _ => one = (1, 0xf8) /\ all = (0, 0xf8)
  | _, _ => False
  end.
Proof. vm_compute. by split. Qed.
