(* ===== verification/SeqLatency.v ===== *)
(** * SeqLatency: the read latency that the sequencer settles on

[rw_mgr_mem_calibrate_lfifo] lowers the read latency as long as reads work.  Its
result is stated for a device whose reads work from some latency on. *)
From S2P Require Import Prelude SeqConfig SeqBase SeqScc SeqMem SeqTest.

(** The law of the device: reads show no error exactly when the latency in the
register is at least the needed one; only the latency register changes it. *)
Class Latency (D : Type) `{Avalon D} := {
  rlat : D -> Z;
  needed : D -> Z;
  write_rlat a v d : rlat (avl_write a v d) = if a =? PHY_MGR_PHY_RLAT then v else rlat d;
  write_needed a v d : needed (avl_write a v d) = needed d;
  read_rlat a d : rlat (avl_read a d).2 = rlat d;
  read_needed a d : needed (avl_read a d).2 = needed d;
  read_errors d : field (avl_read BASE_RW_MGR d).1 0 8 = 0 <-> needed d <= rlat d
}.

Section Lfifo.
Context {D : Type} `{Latency D}.
Local Abbreviation prog A := (M (Seq D) A).

(** The sequencer is ready: one rank in use, eight pins to a group. *)
Definition ready (s : Seq D) : Prop :=
  skip_ranks (param s) = [0] /\ read_correct_mask (param s) = 0xff /\
  read_correct_mask_vg (param s) = 0xff.

(** What a program that leaves the latency alone keeps. *)
Record same (s s' : Seq D) : Prop := {
  same_gbl : gbl s' = gbl s;
  same_param : param s' = param s;
  same_rlat : rlat (bus s') = rlat (bus s);
  same_needed : needed (bus s') = needed (bus s)
}.

Definition quiet {A} (m : prog A) : Prop :=
  forall s, ready s -> exists a s', m s = Val a s' /\ same s s'.

Lemma same_refl s : same s s.
Proof. by split. Qed.

Lemma same_trans s1 s2 s3 : same s1 s2 -> same s2 s3 -> same s1 s3.
Proof. intros [] []. split; congruence. Qed.

Lemma same_ready s s' : same s s' -> ready s -> ready s'.
Proof. intros [_ Hp _ _]. unfold ready. by rewrite Hp. Qed.

Lemma quiet_ret {A} (a : A) : quiet (ret a).
Proof. intros s _. exists a, s. split; [done|apply same_refl]. Qed.

Lemma quiet_bind {A B} (m : prog A) (k : A -> prog B) :
  quiet m -> (forall a, quiet (k a)) -> quiet (bind m k).
Proof.
  intros Hm Hk s Hs. destruct (Hm s Hs) as (a & s1 & Ha & H1).
  destruct (Hk a s1 (same_ready _ _ H1 Hs)) as (b & s2 & Hb & H2).
  exists b, s2. split; [by rewrite (bind_val _ _ _ _ _ Ha)|by eapply same_trans].
Qed.

Lemma quiet_read base off : quiet (IORD_32DIRECT base off).
Proof.
  intros s _. unfold IORD_32DIRECT.
  pose proof (read_rlat (u32 (base + off)) (bus s)) as Hr.
  pose proof (read_needed (u32 (base + off)) (bus s)) as Hn.
  destruct (avl_read _ _) as [v d]. eexists _, _. by split.
Qed.

Lemma same_write a v s : a <> PHY_MGR_PHY_RLAT -> same s (set_bus (avl_write a v (bus s)) s).
Proof.
  intros Ha. split; simpl; [done|done| |apply write_needed].
  rewrite write_rlat. by destruct (Z.eqb_spec a PHY_MGR_PHY_RLAT).
Qed.

Lemma quiet_write base off v : u32 (base + off) <> PHY_MGR_PHY_RLAT -> quiet (IOWR_32DIRECT base off v).
Proof. intros Ha s _. eexists _, _. split; [reflexivity|by apply same_write]. Qed.

Lemma write_all_quiet ws d :
  Forall (fun w => w.1 <> PHY_MGR_PHY_RLAT) ws ->
  rlat (write_all ws d) = rlat d /\ needed (write_all ws d) = needed d.
Proof.
  intros Hws. revert d. induction Hws as [|[a v] ws Ha Hws IH]; intros d; [done|]. simpl.
  destruct (IH (avl_write a v d)) as [-> ->]. rewrite write_rlat, write_needed. simpl in Ha.
  by destruct (Z.eqb_spec a PHY_MGR_PHY_RLAT).
Qed.

(** ** The programs that the calibration is made of *)

Lemma quiet_rank_mask odt_mode : quiet (set_rank_and_odt_mask 0 odt_mode).
Proof. intros s _. eexists _, _. split; [apply rank_mask_writes|by apply same_write]. Qed.

Lemma quiet_load_patterns : quiet rw_mgr_mem_calibrate_read_load_patterns_all_ranks.
Proof.
  apply quiet_bind; [|intros _; apply quiet_rank_mask].
  apply quiet_bind; [|intros _; apply quiet_ret].
  apply quiet_bind.
  { intros s [Hs _]. eexists _, _. split; [by apply (skipped_rank_val 0)|apply same_refl]. }
  intros []; [apply quiet_ret|]. apply quiet_bind; [apply quiet_rank_mask|]. intros _.
  repeat (apply quiet_bind; [by apply quiet_write|intros _]). by apply quiet_write.
Qed.

Lemma quiet_stage x : quiet (reg_file_set_stage x).
Proof. apply quiet_bind; [apply quiet_read|]. intros. by apply quiet_write. Qed.

Lemma quiet_sub_stage x : quiet (reg_file_set_sub_stage x).
Proof. apply quiet_bind; [apply quiet_read|]. intros. by apply quiet_write. Qed.

(** ** The read test tells whether the latency is enough *)

Definition works (s : Seq D) : bool := needed (bus s) <=? rlat (bus s).

Lemma good_pins e : Z.land 0xff (u32 (Z.lnot (u32 e))) = 0xff <-> field e 0 8 = 0.
Proof.
  assert (forall i, 0 <= i -> Z.testbit (Z.land 0xff (u32 (Z.lnot (u32 e)))) i
                    = (i <? 8) && negb (Z.testbit (field e 0 8) i)) as Hbit.
  { intros i Hi. rewrite Z.land_spec, testbit_u32, testbit_field, Z.lnot_spec, testbit_u32 by lia.
    rewrite Z.add_0_r. change 0xff with (Z.ones 8). rewrite Z.testbit_ones_nonneg by lia.
    destruct (Z.ltb_spec i 8); simpl; [|done]. by replace (i <? 32) with true by lia. }
  split; intros Heq.
  - apply Z.bits_inj'. intros i Hi. rewrite Z.bits_0.
    specialize (Hbit i Hi). rewrite Heq in Hbit. change 0xff with (Z.ones 8) in Hbit.
    rewrite Z.testbit_ones_nonneg in Hbit by lia.
    rewrite testbit_field in * by lia. destruct (Z.ltb_spec i 8); [|done].
    simpl in *. by destruct (Z.testbit e (i + 0)).
  - apply Z.bits_inj'. intros i Hi. rewrite Hbit by done. rewrite Heq, Z.bits_0, andb_true_r.
    change 0xff with (Z.ones 8). by rewrite Z.testbit_ones_nonneg by lia.
Qed.

Lemma read_test_works num_tries all_groups s :
  ready s -> exists b s',
    rw_mgr_mem_calibrate_read_test 0 0 num_tries PASS_ALL_BITS all_groups 1 s
    = Val (Z.b2z (works s), b) s' /\ same s s'.
Proof.
  intros (Hskip & Hmask & Hvg).
  rewrite (read_test_spec 0 _ _ _ 0) by (done || (unfold group_ok; vm_compute; split; congruence)).
  rewrite Hmask, Hvg. cbn [Z.eqb].
  destruct (write_all_quiet (read_setup all_groups 0) (bus s)) as [Hr Hn].
  { unfold read_setup. destruct (all_groups =? 0); repeat constructor; simpl; vm_compute; congruence. }
  set (d0 := write_all (read_setup all_groups 0) (bus s)) in *.
  pose proof (read_errors d0) as Herr. pose proof (read_rlat BASE_RW_MGR d0) as Hr1.
  pose proof (read_needed BASE_RW_MGR d0) as Hn1.
  destruct (avl_read BASE_RW_MGR d0) as [e d1]. simpl in *.
  destruct (write_all_quiet (read_cleanup 0) d1) as [Hr2 Hn2].
  { repeat constructor; simpl; vm_compute; congruence. }
  eexists _, (set_bus (write_all (read_cleanup 0) d1) s).
  split; [|split; [done|done|exact (eq_trans Hr2 (eq_trans Hr1 Hr))|exact (eq_trans Hn2 (eq_trans Hn1 Hn))]].
  f_equal. f_equal. unfold verdict, works. simpl. f_equal.
  rewrite Z.land_assoc. change (Z.land 255 255) with 255.
  rewrite Hr, Hn in Herr. rewrite <- good_pins in Herr.
  destruct (Z.leb_spec (needed (bus s)) (rlat (bus s))); [by apply Z.eqb_eq, Herr|].
  apply Z.eqb_neq. rewrite Herr. lia.
Qed.

Lemma read_all_ranks_works num_tries all_groups bit_chk s :
  ready s -> 0 < num_tries -> exists b s',
    rw_mgr_mem_calibrate_read_test_all_ranks 0 num_tries PASS_ALL_BITS bit_chk all_groups s
    = Val (Z.b2z (works s), b) s' /\ same s s'.
Proof.
  intros Hs Hn. unfold rw_mgr_mem_calibrate_read_test_all_ranks. cbv zeta.
  replace (num_tries <=? 0) with false by lia.
  set (body := fun _ : Z * Z * Z => _).
  assert (forall n i b s1, same s s1 -> num_tries - i = Z.of_nat n -> (i = 0 \/ works s = true) ->
            (0 < n)%nat \/ works s = true ->
            exists b' s', loop (S n) body (i, 1, b) s1 = Val (Z.b2z (works s), b') s' /\ same s s') as Hloop.
  { induction n as [|n IH]; intros i b s1 H1 Hi Hw Hn1; rewrite loop_S; unfold body at 1.
    - replace (i <? num_tries) with false by lia. destruct Hn1 as [|Hn1]; [lia|]. rewrite Hn1.
      by exists b, s1.
    - replace (i <? num_tries) with true by lia.
      destruct (read_test_works 1 all_groups s1 (same_ready _ _ H1 Hs)) as (b' & s2 & Ht & H2).
      assert (works s1 = works s) as Hw1 by (unfold works; by rewrite (same_rlat _ _ H1), (same_needed _ _ H1)).
      unfold bind at 1 2. rewrite Ht, Hw1. destruct (works s) eqn:Hws; simpl.
      + apply IH; [by eapply same_trans|lia|by right|by right].
      + exists b', s2. split; [done|by eapply same_trans]. }
  apply Hloop; [apply same_refl|lia|by left|left; lia].
Qed.

(** ** The search for the latency *)

Lemma set_read_lat_read_lat x y g : set_read_lat x (set_read_lat y g) = set_read_lat x g.
Proof. done. Qed.

(** One round of the loop. *)
Lemma lfifo_body_spec found s :
  ready s -> 0 < curr_read_lat (gbl s) < 2 ^ 32 ->
  let lat := curr_read_lat (gbl s) in
  exists s', ready s' /\ needed (bus s') = needed (bus s) /\
    if needed (bus s) <=? lat
    then lfifo_body found s = Val (if 0 <? lat - 1 then inl 1 else inr 1) s' /\
         gbl s' = set_read_lat (lat - 1) (gbl s)
    else lfifo_body found s = Val (inr found) s' /\ gbl s' = gbl s.
Proof.
  intros Hs Hlat lat.
  set (s1 := set_bus (avl_write (u32 (PHY_MGR_PHY_RLAT + 0)) (u32 lat) (bus s)) s).
  assert (rlat (bus s1) = lat /\ needed (bus s1) = needed (bus s)) as [Hr1 Hn1].
  { subst s1. simpl. rewrite write_rlat, write_needed.
    split; [|done]. apply (u32_small lat). subst lat. lia. }
  destruct (read_all_ranks_works NUM_READ_TESTS 1 0 s1) as (b & s2 & Ht & [Hg Hp Hr Hn]);
    [exact Hs|done|].
  assert (ready s2) as Hs2 by (unfold ready; by rewrite Hp).
  unfold works in Ht. rewrite Hr1, Hn1 in Ht.
  destruct (Z.leb_spec (needed (bus s)) lat).
  - exists (set_gbl (set_read_lat (lat - 1) (gbl s)) s2).
    split; [done|]. split; [simpl; congruence|]. split; [|done].
    unfold lfifo_body, bind at 1, gets at 1. unfold bind at 1.
    change (IOWR_32DIRECT _ _ _ s) with (Val (S := Seq D) tt s1). cbv iota.
    unfold bind at 1. rewrite Ht. cbn [Z.b2z Z.eqb].
    unfold bind, set_curr_read_lat, modify, gets. rewrite Hg. simpl.
    fold lat. rewrite u32_small by lia. by destruct (0 <? lat - 1).
  - exists s2. split; [done|]. split; [congruence|]. split; [|by rewrite Hg].
    unfold lfifo_body, bind at 1, gets at 1. unfold bind at 1.
    change (IOWR_32DIRECT _ _ _ s) with (Val (S := Seq D) tt s1). cbv iota.
    unfold bind at 1. by rewrite Ht.
Qed.

(** The loop from a latency down: it stops below the needed one, or at 0. *)
Lemma lfifo_loop_spec n found s :
  ready s -> curr_read_lat (gbl s) = Z.of_nat (S n) -> Z.of_nat (S n) < 2 ^ 32 ->
  exists s', ready s' /\ needed (bus s') = needed (bus s) /\
    if needed (bus s) <=? curr_read_lat (gbl s)
    then loop (S n) lfifo_body found s = Val 1 s' /\
         gbl s' = set_read_lat (Z.max (needed (bus s)) 1 - 1) (gbl s)
    else loop (S n) lfifo_body found s = Val found s' /\ gbl s' = gbl s.
Proof.
  revert found s. induction n as [|n IH]; intros found s Hs Hlat Hn; rewrite loop_S;
    destruct (lfifo_body_spec found s) as (s1 & Hs1 & Hneed & Hbody); [done|lia| |done|lia|];
    destruct (Z.leb_spec (needed (bus s)) (curr_read_lat (gbl s))) as [Hle|Hgt];
    destruct Hbody as [Hrun Hgbl]; rewrite (bind_val _ _ _ _ _ Hrun).
  - replace (0 <? curr_read_lat (gbl s) - 1) with false by lia.
    exists s1. do 3 (split; [done|]). rewrite Hgbl. f_equal. lia.
  - by exists s1.
  - replace (0 <? curr_read_lat (gbl s) - 1) with true by lia.
    assert (curr_read_lat (gbl s1) = Z.of_nat (S n)) as Hlat1 by (rewrite Hgbl; simpl; lia).
    destruct (IH 1 s1 Hs1 Hlat1) as (s2 & Hs2 & Hneed2 & Hloop); [lia|].
    exists s2. split; [done|]. split; [congruence|]. rewrite Hneed in Hloop.
    destruct (Z.leb_spec (needed (bus s)) (curr_read_lat (gbl s1))) as [Hle1|Hgt1];
      destruct Hloop as [Hloop Hgbl2]; (split; [done|]); rewrite Hgbl2, Hgbl; [done|].
    f_equal. lia.
  - by exists s1.
Qed.

(** For a device whose reads work from some latency on, the calibration of
the read latency always ends.  If the latency it starts from is enough it
succeeds, and the latency it leaves, also in the register, is one more than the
smallest that works (and at least 2); otherwise it fails, leaves the latency
alone, and records the failure if none was recorded before. *)
Theorem lfifo_correct s :
  ready s -> 0 < curr_read_lat (gbl s) < 2 ^ 32 - 1 ->
  exists r s', rw_mgr_mem_calibrate_lfifo s = Val r s' /\
    if needed (bus s) <=? curr_read_lat (gbl s)
    then r = 1 /\ gbl s' = set_read_lat (Z.max (needed (bus s)) 1 + 1) (gbl s) /\
         rlat (bus s') = Z.max (needed (bus s)) 1 + 1
    else r = 0 /\ gbl s' = if error_stage (gbl s) =? CAL_STAGE_NIL
                          then set_error CAL_STAGE_LFIFO CAL_SUBSTAGE_READ_LATENCY 0xff (gbl s)
                          else gbl s.
Proof.
  intros Hs Hlat. unfold rw_mgr_mem_calibrate_lfifo.
  destruct (quiet_stage CAL_STAGE_LFIFO s Hs) as ([] & s1 & Hr1 & H1).
  rewrite (bind_val _ _ _ _ _ Hr1). apply same_ready in H1 as Hs1; [|done].
  destruct (quiet_sub_stage CAL_SUBSTAGE_READ_LATENCY s1 Hs1) as ([] & s2 & Hr2 & H2).
  rewrite (bind_val _ _ _ _ _ Hr2). apply same_ready in H2 as Hs2; [|done].
  destruct (quiet_load_patterns s2 Hs2) as ([] & s3 & Hr3 & H3).
  rewrite (bind_val _ _ _ _ _ Hr3). apply same_ready in H3 as Hs3; [|done].
  destruct (same_trans _ _ _ H1 (same_trans _ _ _ H2 H3)) as [Hg _ _ Hneed].
  unfold bind at 1, gets at 1. rewrite Hg, u32_small by lia.
  destruct (lfifo_loop_spec (Z.to_nat (curr_read_lat (gbl s) - 1)) 0 s3) as (s4 & Hs4 & Hneed4 & Hloop);
    [done|rewrite Hg; lia|lia|].
  rewrite Hneed, Hg in Hloop.
  destruct (Z.leb_spec (needed (bus s)) (curr_read_lat (gbl s)));
    destruct Hloop as [Hloop Hgbl]; rewrite (bind_val _ _ _ _ _ Hloop).
  - eexists _, _. split; [reflexivity|]. split; [done|]. simpl. rewrite Hgbl. simpl.
    set (lat := _ `max` 1 - 1 + 2). assert (lat = Z.max (needed (bus s)) 1 + 1) as -> by lia.
    rewrite write_rlat, !(u32_small (_ `max` 1 + 1)) by lia. by split.
  - eexists _, _. split; [reflexivity|]. split; [done|]. simpl. rewrite Hgbl.
    by destruct (error_stage (gbl s) =? CAL_STAGE_NIL).
Qed.

End Lfifo.

(** A memory that needs a read latency of 9: the register and the needed value. *)
#[export] Instance latency_bus : Avalon (Z * Z) := {|
  avl_read a d := (if (a =? BASE_RW_MGR) && (d.1 <? d.2) then 0xff else 0, d);
  avl_write a v d := if a =? PHY_MGR_PHY_RLAT then (v, d.2) else d
|}.

#[export] Instance latency_law : Latency (Z * Z).
Proof.
  refine {| rlat d := d.1; needed d := d.2 |}; try done.
  - intros a v d. simpl. by destruct (a =? PHY_MGR_PHY_RLAT).
  - intros a v d. simpl. by destruct (a =? PHY_MGR_PHY_RLAT).
  - intros [r n]. simpl. destruct (Z.ltb_spec r n); split; [done|lia|lia|done].
Defined.

Definition latency_start : Seq (Z * Z) :=
  mkSeq (0, 9) (mkGbl 0 23 0 0 0 0 0 0 0) (mkParam 0xff 0xff 0xff 0xff 0xff [0] 0 [0]) 0 0xff.

Lemma lfifo_correct_witness :
  ready latency_start /\ 0 < curr_read_lat (gbl latency_start) < 2 ^ 32 - 1 /\
  exists r s', rw_mgr_mem_calibrate_lfifo latency_start = Val r s' /\ r = 1 /\
    gbl s' = set_read_lat 10 (gbl latency_start) /\ rlat (bus s') = 10.
Proof.
  split; [by repeat split|]. split; [simpl; lia|].
  exact (lfifo_correct latency_start ltac:(by repeat split) ltac:(simpl; lia)).
Defined.

(** The two cycles that are added back can leave a latency that the counter of
the read FIFO does not have: when only the largest one works. *)
Example lfifo_exceeds_max_latency :
  match rw_mgr_mem_calibrate_lfifo
          (mkSeq (0, 31) (set_read_lat max_latency (gbl latency_start)) (param latency_start) 0 0xff) with
  | Val r s' => r = 1 /\ max_latency = 31 /\ rlat (bus s') = 32
  | _ => False
  end.
Proof. vm_compute. repeat split; reflexivity. Qed.
