(* ===== verification/SeqSafe.v ===== *)
(** * SeqSafe: programs that keep every delay and phase in range

A delay or phase register holds a tap number, and each has a largest one.
[safe m P] says that [m] always ends, without undefined behaviour, with a result
that satisfies [P], and never writes a tap out of range: it keeps any invariant
of the device that reads and writes in range keep.  Under such an invariant a tap
register does not read more than its largest tap, and reads the same twice. *)
From S2P Require Import Prelude SeqConfig SeqBase SeqScc SeqMem SeqTest.

(** The largest tap of the register at an address, if it is one. *)
Definition tap_limit (a : Z) : option Z :=
  let bank base := (base <=? a) && (a <? base + 0x100) in
  if bank SCC_MGR_DQS_IN_DELAY then Some IO_DQS_IN_DELAY_MAX
  else if bank SCC_MGR_DQS_EN_PHASE then Some IO_DQS_EN_PHASE_MAX
  else if bank SCC_MGR_DQS_EN_DELAY then Some IO_DQS_EN_DELAY_MAX
  else if bank SCC_MGR_DQDQS_OUT_PHASE then Some IO_DQDQS_OUT_PHASE_MAX
  else if bank SCC_MGR_OCT_OUT1_DELAY then Some IO_IO_OUT1_DELAY_MAX
  else if bank SCC_MGR_IO_OUT1_DELAY then Some IO_IO_OUT1_DELAY_MAX
  else if bank SCC_MGR_IO_IN_DELAY then Some IO_IO_IN_DELAY_MAX
  else None.

Lemma tap_limit_nonneg a m : tap_limit a = Some m -> 0 <= m.
Proof. unfold tap_limit. intros. repeat case_match; simplify_eq; done. Qed.

Definition tap_ok (a v : Z) : bool :=
  match tap_limit a with Some m => (0 <=? v) && (v <=? m) | None => true end.

Class TapInvariant (D : Type) `{Avalon D} (I : D -> Prop) := {
  tap_read a d : I d -> I (avl_read a d).2;
  tap_value a d m : I d -> tap_limit a = Some m -> u32 (avl_read a d).1 <= m;
  tap_again a d m : I d -> tap_limit a = Some m ->
    u32 (avl_read a (avl_read a d).2).1 = u32 (avl_read a d).1;
  tap_write a v d : tap_ok a v = true -> I d -> I (avl_write a v d)
}.

(** Facts about values that need no more than their form. *)
Definition is_u32 (z : Z) : Prop := 0 <= z < 2 ^ 32.

(** The result is 0 or 1. *)
Definition is_bit (z : Z) : Prop := z = 0 \/ z = 1.

Lemma b2z_cases b : Z.b2z b = 0 \/ Z.b2z b = 1.
Proof. destruct b; auto. Qed.

Section Safe.
Context {D : Type} `{Avalon D} (I : D -> Prop) `{!TapInvariant D I}.
Local Abbreviation prog A := (M (Seq D) A).

(** A state of a run that calibrates: the device is well, the arrays have their
sizes, and the calibration is not left out. *)
Definition calm (s : Seq D) : Prop :=
  I (bus s) /\ Z.land (dyn_calib_steps s) CALIB_SKIP_ALL <> CALIB_SKIP_ALL /\
  Z.of_nat (length (skip_ranks (param s))) = RW_MGR_MEM_NUMBER_OF_RANKS /\
  Z.of_nat (length (skip_shadow_regs (param s))) = NUM_SHADOW_REGS.

Definition safe {A} (m : prog A) (P : A -> Prop) : Prop :=
  forall s, calm s -> wp m (fun a s' => calm s' /\ P a) no_exit s.

(** ** Rules *)

Lemma safe_ret {A} (a : A) (P : A -> Prop) : P a -> safe (ret a) P.
Proof. by intros HP s Hs. Qed.

Lemma safe_bind {A B} (m : prog A) (k : A -> prog B) P Q :
  safe m P -> (forall a, P a -> safe (k a) Q) -> safe (bind m k) Q.
Proof.
  intros Hm Hk s Hs. apply wp_bind. eapply wp_mono; [by apply Hm| |done].
  intros a s' [Hs' Ha]. by apply Hk.
Qed.

Lemma safe_mono {A} (m : prog A) (P Q : A -> Prop) : safe m P -> (forall a, P a -> Q a) -> safe m Q.
Proof. intros Hm HPQ s Hs. eapply wp_mono; [by apply Hm| |done]. intros a s' [? ?]. auto. Qed.

Lemma safe_then {B} (m : prog unit) (k : prog B) Q :
  safe m (fun _ => True) -> safe k Q -> safe (m ;;! k) Q.
Proof. intros Hm Hk. eapply safe_bind; [exact Hm|done]. Qed.

Lemma safe_gets {A} (f : Seq D -> A) : safe (gets f) (fun _ => True).
Proof. by intros s Hs. Qed.

Lemma safe_loop {L R} (inv : L -> Prop) (mu : L -> nat) (body : L -> prog (L + R)) P fuel l :
  (forall l, inv l -> safe (body l) (fun r =>
     match r with inl l' => inv l' /\ (mu l' < mu l)%nat | inr v => P v end)) ->
  (mu l < fuel)%nat -> inv l -> safe (loop fuel body l) P.
Proof.
  intros Hbody Hfuel Hl s Hs.
  apply (wp_loop (fun l s => calm s /\ inv l) (fun l _ => mu l)); [|done..].
  intros l' s' [Hs' Hl']. eapply wp_mono; [by apply (Hbody l' Hl')| |done].
  intros [l''|v] s'' [Hs'' Hr]; [|done]. destruct Hr. auto.
Qed.

Lemma safe_for_each {A} (xs : list A) (body : A -> prog unit) :
  (forall x, x ∈ xs -> safe (body x) (fun _ => True)) -> safe (for_each xs body) (fun _ => True).
Proof.
  induction xs as [|x xs IH]; intros Hbody; [by apply safe_ret|].
  apply safe_then; [apply Hbody; set_solver|apply IH; set_solver].
Qed.

Lemma safe_for_fold {A B} (P : B -> Prop) (xs : list A) b (body : B -> A -> prog B) :
  (forall b x, x ∈ xs -> P b -> safe (body b x) P) -> P b -> safe (for_fold xs b body) P.
Proof.
  revert b. induction xs as [|x xs IH]; intros b Hbody Hb; [by apply safe_ret|].
  eapply safe_bind; [apply Hbody; [set_solver|done]|].
  intros b' Hb'. apply IH; [set_solver|done].
Qed.

(** ** Accesses *)

Lemma safe_read base off : safe (IORD_32DIRECT base off) is_u32.
Proof.
  intros s [HI Hlen]. unfold wp, IORD_32DIRECT.
  pose proof (tap_read (u32 (base + off)) (bus s) HI) as Hread.
  destruct (avl_read (u32 (base + off)) (bus s)) as [v d]. split; [done|apply u32_bound].
Qed.

Lemma safe_write base off v :
  tap_ok (u32 (base + off)) (u32 v) = true -> safe (IOWR_32DIRECT base off v) (fun _ => True).
Proof. intros Hok s [HI Hlen]. split; [|done]. split; [by apply tap_write|done]. Qed.

Lemma safe_plain base off v :
  tap_limit (u32 (base + off)) = None -> safe (IOWR_32DIRECT base off v) (fun _ => True).
Proof. intros Ha. apply safe_write. unfold tap_ok. by rewrite Ha. Qed.

Lemma safe_tap base off v m :
  tap_limit (u32 (base + off)) = Some m -> 0 <= v <= m -> m < 2 ^ 32 ->
  safe (IOWR_32DIRECT base off v) (fun _ => True).
Proof. intros Ha Hv Hm. apply safe_write. unfold tap_ok. rewrite Ha, u32_small; lia. Qed.

Lemma safe_tap_read base off m :
  tap_limit (u32 (base + off)) = Some m -> safe (IORD_32DIRECT base off) (fun v => 0 <= v <= m).
Proof.
  intros Hm s [HI Hlen]. unfold wp, IORD_32DIRECT.
  pose proof (tap_read (u32 (base + off)) (bus s) HI) as Hread.
  pose proof (tap_value (u32 (base + off)) (bus s) m HI Hm) as Hval.
  pose proof (u32_bound (avl_read (u32 (base + off)) (bus s)).1).
  destruct (avl_read (u32 (base + off)) (bus s)) as [v d]. simpl in *. split; [done|lia].
Qed.

Lemma safe_gets_calm {A B} (f : Seq D -> A) (k : A -> prog B) P :
  (forall s, calm s -> safe (k (f s)) P) -> safe (bind (gets f) k) P.
Proof. intros Hk s Hs. apply wp_bind. eapply wp_val; [reflexivity|]. by apply Hk. Qed.

(** What the register at [a] reads now; reading it does not change that. *)
Definition tap_now (a : Z) (s : Seq D) : Z := u32 (avl_read a (bus s)).1.

Lemma tap_now_bound a m s : calm s -> tap_limit a = Some m -> 0 <= tap_now a s <= m.
Proof.
  intros [HI _] Ha. pose proof (tap_value a (bus s) m HI Ha). pose proof (u32_bound (avl_read a (bus s)).1).
  unfold tap_now. lia.
Qed.

Lemma wp_tap_read base off m Q s :
  calm s -> tap_limit (u32 (base + off)) = Some m ->
  (forall s', calm s' -> tap_now (u32 (base + off)) s' = tap_now (u32 (base + off)) s ->
     Q (tap_now (u32 (base + off)) s) s') ->
  wp (IORD_32DIRECT base off) Q no_exit s.
Proof.
  intros [HI Hlen] Ha HQ. set (a := u32 (base + off)) in *. unfold wp, IORD_32DIRECT. fold a.
  pose proof (tap_again a (bus s) m HI Ha) as Hagain. pose proof (tap_read a (bus s) HI) as Hread.
  unfold tap_now in *. destruct (avl_read a (bus s)) as [v d]. by apply HQ.
Qed.

Lemma safe_modify (f : Seq D -> Seq D) :
  (forall s, calm s -> calm (f s)) -> safe (modify f) (fun _ => True).
Proof. intros Hf s Hs. split; [by apply Hf|done]. Qed.

Lemma safe_gets_bind {A B} (f : Seq D -> A) (k : A -> prog B) P :
  (forall a, safe (k a) P) -> safe (bind (gets f) k) P.
Proof. intros Hk. eapply safe_bind; [apply safe_gets|intros a _; apply Hk]. Qed.

Lemma safe_read_bind {B} base off (k : Z -> prog B) P :
  (forall a, is_u32 a -> safe (k a) P) -> safe (bind (IORD_32DIRECT base off) k) P.
Proof. intros Hk. eapply safe_bind; [apply safe_read|exact Hk]. Qed.

(** ** Ranks *)

Lemma safe_skipped_rank r : r = 0 -> safe (skipped_rank r) (fun _ => True).
Proof.
  intros -> s Hs. pose proof Hs as (_ & _ & Hlen & _). unfold skipped_rank. apply wp_bind. red. simpl. apply wp_bind.
  destruct (skip_ranks (param s)) as [|x xs]; [by vm_compute in Hlen|].
  eapply wp_lift; [reflexivity|]. by apply wp_ret.
Qed.

Lemma safe_set_rank_and_odt_mask odt_mode :
  safe (set_rank_and_odt_mask 0 odt_mode) (fun _ => True).
Proof.
  unfold set_rank_and_odt_mask.
  apply (safe_bind _ _ (fun _ => True)); [case_match; by apply safe_ret|].
  intros [m0 m1] _. apply (safe_bind _ _ (fun _ => True)); [by apply safe_ret|].
  intros cs _. by apply safe_plain.
Qed.

Lemma safe_for_used_ranks (body : Z -> prog unit) :
  safe (body 0) (fun _ => True) ->
  safe (for_used_ranks 0 RW_MGR_MEM_NUMBER_OF_RANKS body) (fun _ => True).
Proof.
  intros Hbody. apply safe_then; [|by apply safe_ret].
  eapply safe_bind; [by apply safe_skipped_rank|]. intros [] _; [by apply safe_ret|done].
Qed.

(** ** Taps of a group *)

Lemma safe_set_dqs_en_phase g p :
  group_ok g -> 0 <= p <= IO_DQS_EN_PHASE_MAX ->
  safe (scc_mgr_set_dqs_en_phase_all_ranks g p) (fun _ => True).
Proof.
  intros Hg Hp. case_group Hg; (apply safe_then; [|by apply safe_ret]);
    repeat (apply safe_then; [|]); try (by apply safe_ret); try (by apply safe_plain);
    (eapply safe_tap; [reflexivity|exact Hp|done]).
Qed.

Lemma safe_set_dqs_en_delay g d :
  group_ok g -> 0 <= d <= IO_DQS_EN_DELAY_MAX ->
  safe (scc_mgr_set_dqs_en_delay_all_ranks g d) (fun _ => True).
Proof.
  intros Hg Hd. case_group Hg; (apply safe_then; [|by apply safe_ret]);
    repeat (apply safe_then; [|]); try (by apply safe_ret); try (by apply safe_plain);
    (eapply safe_tap; [reflexivity| |done]); change IO_DQS_EN_DELAY_OFFSET with 0;
    by rewrite Z.add_0_r.
Qed.

(** ** Tests *)

Lemma safe_collect_groups mask (run : Z -> prog unit) n w :
  (forall vg, vg ∈ rev (c_range 0 n 1) -> safe (run vg) (fun _ => True)) ->
  safe (collect_groups n w mask run) (fun _ => True).
Proof.
  intros Hrun. apply (safe_for_fold (fun _ => True)); [|done]. intros b vg Hvg _.
  apply safe_then; [by apply Hrun|].
  eapply safe_bind; [apply safe_read|]. intros errors _. by apply safe_ret.
Qed.

Lemma safe_test_ranks all_ranks bit_chk (test : Z -> prog Z) :
  safe (test 0) (fun _ => True) -> safe (test_ranks 0 all_ranks bit_chk test) (fun _ => True).
Proof.
  intros Htest. unfold test_ranks.
  replace (rank_end 0 all_ranks) with 1 by (unfold rank_end; by case_match).
  apply (safe_bind _ _ (fun _ => True)); [|by intros; apply safe_ret].
  eapply safe_bind; [by apply safe_skipped_rank|]. intros [] _; [by apply safe_ret|].
  eapply safe_bind; [exact Htest|]. intros. by apply safe_ret.
Qed.

Lemma verdict_cases all_correct b m : verdict all_correct b m = 0 \/ verdict all_correct b m = 1.
Proof. unfold verdict. case_match; apply b2z_cases. Qed.

Lemma safe_run_read all_groups g :
  group_ok g -> forall vg, vg ∈ rev (c_range 0 RW_MGR_MEM_VIRTUAL_GROUPS_PER_READ_DQS 1) ->
  safe (run_read all_groups g vg) (fun _ => True).
Proof.
  intros Hg vg Hvg. assert (vg = 0) as -> by (revert Hvg; vm_compute rev; set_solver).
  repeat (apply safe_then; [by apply safe_plain|]).
  case_group Hg; case_match; by apply safe_plain.
Qed.

Lemma safe_read_test g num_tries all_correct all_groups all_ranks :
  group_ok g ->
  safe (rw_mgr_mem_calibrate_read_test 0 g num_tries all_correct all_groups all_ranks)
    (fun r => r.1 = 0 \/ r.1 = 1).
Proof.
  intros Hg. eapply safe_bind; [apply safe_gets|]. intros p _.
  eapply safe_bind.
  { apply safe_test_ranks. apply safe_then; [apply safe_set_rank_and_odt_mask|].
    apply safe_then.
    { repeat (apply safe_then; [by apply safe_plain|]). by apply safe_plain. }
    apply safe_collect_groups. by apply safe_run_read. }
  intros b _. apply safe_then; [by case_group Hg; apply safe_plain|].
  apply safe_then; [apply safe_set_rank_and_odt_mask|].
  apply safe_ret, verdict_cases.
Qed.

Lemma safe_read_test_all_ranks g num_tries all_correct bit_chk all_groups :
  group_ok g -> 0 <= num_tries ->
  safe (rw_mgr_mem_calibrate_read_test_all_ranks g num_tries all_correct bit_chk all_groups)
    (fun r => r.1 = 0 \/ r.1 = 1).
Proof.
  intros Hg Hn. unfold rw_mgr_mem_calibrate_read_test_all_ranks. cbv zeta.
  set (n := if num_tries <=? 0 then 1 else num_tries).
  apply (safe_loop (fun l => 0 <= l.1.1 <= n /\ (l.1.2 = 0 \/ l.1.2 = 1))
           (fun l => Z.to_nat (n - l.1.1))); simpl; [|lia|subst n; case_match; lia].
  intros [[i success] b] [Hi Hs]. simpl in *. destruct (Z.ltb_spec i n) as [Hlt|Hge].
  - eapply safe_bind; [by apply safe_read_test|]. intros [one b'] Hone. simpl in Hone.
    assert (Z.land success one = 0 \/ Z.land success one = 1)
      by (destruct Hs as [-> | ->], Hone as [-> | ->]; auto).
    case_match; apply safe_ret; simpl; [done|]. lia.
  - by apply safe_ret.
Qed.

(** ** The read FIFO *)

Lemma safe_incr_vfifo g v : safe (rw_mgr_incr_vfifo g v) (fun _ => True).
Proof. apply safe_then; [by apply safe_plain|by apply safe_ret]. Qed.

Lemma safe_decr_vfifo g v : safe (rw_mgr_decr_vfifo g v) (fun _ => True).
Proof. apply (safe_for_fold (fun _ => True)); [|done]. intros. apply safe_incr_vfifo. Qed.

Lemma safe_reg_file_set_sub_stage x : safe (reg_file_set_sub_stage x) (fun _ => True).
Proof. eapply safe_bind; [apply safe_read|]. intros. by apply safe_plain. Qed.

End Safe.
