(* ===== verification/SeqOps.v ===== *)
(** * SeqOps: the building blocks of the sequencer are safe

The rules of [SeqSafe.v] applied to the functions of [SeqScc.v], [SeqMem.v] and
[SeqTest.v]: each ends and writes no tap out of range.  The lemmas are in the
hint database [safe], and the tactic [safe] goes through a program with them. *)
From S2P Require Import Prelude SeqConfig SeqBase SeqScc SeqMem SeqTest SeqSafe.

(** ** Banks of registers

Whether the registers [base], [base + 4], ... are [n] taps of limit [m], or none. *)
Definition tap_bank (base m n : Z) : bool :=
  forallb (fun k => bool_decide (tap_limit (u32 (base + shl2 k)) = Some m)) (seqZ 0 n).
Definition plain_bank (base n : Z) : bool :=
  forallb (fun k => bool_decide (tap_limit (u32 (base + shl2 k)) = None)) (seqZ 0 n).

Lemma bank_lookup (P : Z -> bool) n k : forallb P (seqZ 0 n) = true -> 0 <= k < n -> P k = true.
Proof. rewrite forallb_forall. intros HP Hk. apply HP, list_elem_of_In, elem_of_seqZ. lia. Qed.

Lemma tap_bank_limit base m n k :
  tap_bank base m n = true -> 0 <= k < n -> tap_limit (u32 (base + shl2 k)) = Some m.
Proof. intros Hb Hk. by apply (bank_lookup _ _ _ Hb), bool_decide_eq_true in Hk. Qed.

Lemma plain_bank_limit base n k :
  plain_bank base n = true -> 0 <= k < n -> tap_limit (u32 (base + shl2 k)) = None.
Proof. intros Hb Hk. by apply (bank_lookup _ _ _ Hb), bool_decide_eq_true in Hk. Qed.

(** The variable of a loop from 0 by ones. *)
(** A loop over the range from 0, with an invariant at each index. *)
Lemma range_seqZ n : c_range 0 n 1 = seqZ 0 n.
Proof.
  unfold c_range. rewrite Z.div_1_r. replace (n - 0 + 1 - 1) with n by lia.
  rewrite <- (list_fmap_id (seqZ 0 n)) at 2. apply list_fmap_ext. intros. simpl. lia.
Qed.

Lemma wp_for_range {S B} (I : Z -> B -> S -> Prop) n (body : B -> Z -> M S B) X b s :
  0 <= n -> (forall k b s, 0 <= k < n -> I k b s -> wp (body b k) (fun b' s' => I (k + 1) b' s') X s) ->
  I 0 b s -> wp (for_fold (c_range 0 n 1) b body) (fun b' s' => I n b' s') X s.
Proof.
  intros Hn Hbody. rewrite range_seqZ.
  assert (forall m k b s, 0 <= k -> k + Z.of_nat m = n -> I k b s ->
    wp (for_fold (seqZ k (Z.of_nat m)) b body) (fun b' s' => I n b' s') X s) as Hgen.
  { intros m. induction m as [|m IH]; intros k b' s' Hk Hm HI; [by replace n with k by lia|].
    rewrite seqZ_cons by lia. cbn [for_fold]. apply wp_bind.
    eapply wp_mono; [apply Hbody; [lia|done]| |done]. intros b2 s2 H2.
    replace (Z.pred (Z.of_nat (Datatypes.S m))) with (Z.of_nat m) by lia.
    apply IH; [lia|lia|]. by replace (Z.succ k) with (k + 1) by lia. }
  intros H0. specialize (Hgen (Z.to_nat n) 0 b s). rewrite Z2Nat.id in Hgen by done. apply Hgen; [done|lia|done].
Qed.

Lemma elem_of_range x n : x ∈ c_range 0 n 1 -> 0 <= x < n.
Proof.
  unfold c_range. intros (k & -> & Hk)%list_elem_of_fmap. apply elem_of_seqZ in Hk.
  rewrite Z.div_1_r in Hk. lia.
Qed.

(** A group has one data mask. *)
Lemma dm_range (x : Z) : x ∈ c_range 0 RW_MGR_NUM_DM_PER_WRITE_GROUP 1 -> x = 0.
Proof. intros Hx%elem_of_range. change RW_MGR_NUM_DM_PER_WRITE_GROUP with 1 in Hx. lia. Qed.

(** The pins of a group are registers of these banks, the strobe's output the
register after the pins, the mask the one after it. *)
Definition pin_ok (p : Z) : Prop := 0 <= p < 16.

Create HintDb safe discriminated.

Ltac range_facts := repeat match goal with Hx : _ ∈ c_range 0 _ 1 |- _ => apply elem_of_range in Hx end.

Ltac solve_bound :=
  range_facts; unfold pin_ok, group_ok in *;
  repeat match goal with
  | |- context [Z.to_nat] => fail 1
  | Hx : context [RW_MGR_MEM_DQ_PER_READ_DQS] |- _ => change RW_MGR_MEM_DQ_PER_READ_DQS with 8 in Hx
  | Hx : context [RW_MGR_MEM_DQ_PER_WRITE_DQS] |- _ => change RW_MGR_MEM_DQ_PER_WRITE_DQS with 8 in Hx
  | Hx : context [RW_MGR_MEM_IF_READ_DQS_WIDTH] |- _ => change RW_MGR_MEM_IF_READ_DQS_WIDTH with 4 in Hx
  | Hx : context [RW_MGR_MEM_IF_WRITE_DQS_WIDTH] |- _ => change RW_MGR_MEM_IF_WRITE_DQS_WIDTH with 4 in Hx
  | Hx : context [RW_MGR_NUM_DM_PER_WRITE_GROUP] |- _ => change RW_MGR_NUM_DM_PER_WRITE_GROUP with 1 in Hx
  | |- context [RW_MGR_MEM_IF_READ_DQS_WIDTH] => change RW_MGR_MEM_IF_READ_DQS_WIDTH with 4
  | |- context [IO_IO_IN_DELAY_MAX] => change IO_IO_IN_DELAY_MAX with 31
  | |- context [IO_IO_OUT1_DELAY_MAX] => change IO_IO_OUT1_DELAY_MAX with 31
  | |- context [IO_DQS_IN_DELAY_MAX] => change IO_DQS_IN_DELAY_MAX with 31
  | Hx : context [IO_IO_IN_DELAY_MAX] |- _ => change IO_IO_IN_DELAY_MAX with 31 in Hx
  | Hx : context [IO_IO_OUT1_DELAY_MAX] |- _ => change IO_IO_OUT1_DELAY_MAX with 31 in Hx
  | Hx : context [IO_DQS_IN_DELAY_MAX] |- _ => change IO_DQS_IN_DELAY_MAX with 31 in Hx
  end; lia.

Ltac tap_instance := lazymatch goal with |- TapInvariant _ _ => exact _ | |- _ => idtac end.

Ltac one_dm := try match goal with Hx : _ |- _ => apply dm_range in Hx; subst end.

(** A step of the tactic: the head of the program decides. *)
Ltac safe_step :=
  lazymatch goal with
  | |- safe _ (ret _) _ => apply safe_ret; try first [done | by left | by right]; tap_instance
  | |- safe _ (IOWR_32DIRECT _ _ _) _ => first [apply safe_plain; tap_instance; reflexivity | solve [eauto with safe nocore]]
  | |- safe _ (for_each _ _) _ => apply safe_for_each; tap_instance; intros ? ?; one_dm
  | |- safe _ (for_shadow_regs _) _ => apply safe_for_each; tap_instance; intros ? ?
  | |- safe _ (if ?b then _ else _) _ => destruct b
  | |- safe _ (bind (gets _) _) _ => apply safe_gets_bind; tap_instance; intros ?
  | |- safe _ (bind _ (fun _ => _)) _ => first [apply safe_then; tap_instance | eapply safe_bind; tap_instance; [|intros ? ?]]
  | |- safe _ _ _ => first [solve [eauto with safe nocore] | solve [eapply safe_mono; tap_instance; [eauto with safe nocore|done]]]
  end.

Ltac safe_run := repeat (cbv beta zeta; safe_step).

#[export] Hint Extern 5 (0 <= _ < _) => solve_bound : safe.
#[export] Hint Extern 5 (0 <= _ <= _) => first [solve_bound | by vm_compute] : safe.
#[export] Hint Extern 5 (_ /\ _) => solve_bound : safe.
#[export] Hint Extern 5 (pin_ok _) => solve_bound : safe.
#[export] Hint Extern 5 (group_ok _) => solve_bound : safe.

Section Ops.
Context {D : Type} `{Avalon D} (I : D -> Prop) `{!TapInvariant D I}.
Local Abbreviation prog A := (M (Seq D) A).
Local Abbreviation safe := (safe I).

Lemma safe_bank_write base m n k v :
  tap_bank base m n = true -> m < 2 ^ 32 -> 0 <= k < n -> 0 <= v <= m ->
  safe (IOWR_32DIRECT base (shl2 k) v) (fun _ => True).
Proof. intros Hb Hm Hk Hv. eapply (safe_tap I); [by eapply tap_bank_limit|done|done]. Qed.

Lemma safe_bank_read base m n k :
  tap_bank base m n = true -> 0 <= k < n -> safe (IORD_32DIRECT base (shl2 k)) (fun v => 0 <= v <= m).
Proof. intros Hb Hk. by eapply (safe_tap_read I), tap_bank_limit. Qed.

Lemma safe_bank_plain base n k v :
  plain_bank base n = true -> 0 <= k < n -> safe (IOWR_32DIRECT base (shl2 k) v) (fun _ => True).
Proof. intros Hb Hk. by eapply (safe_plain I), plain_bank_limit. Qed.

Ltac bank_write m n :=
  intros; apply (safe_bank_write _ m n); [vm_compute; reflexivity|reflexivity|first [solve_bound|by vm_compute]|solve_bound].
Ltac bank_read n :=
  intros; apply (safe_bank_read _ _ n); [vm_compute; reflexivity|first [solve_bound|by vm_compute]].

(** ** Delays of one pin, strobe or group *)

Lemma safe_dq_in g p d : pin_ok p -> 0 <= d <= IO_IO_IN_DELAY_MAX ->
  safe (scc_mgr_set_dq_in_delay g p d) (fun _ => True).
Proof. bank_write IO_IO_IN_DELAY_MAX 16. Qed.

Lemma safe_dq_out1 g p d : pin_ok p -> 0 <= d <= IO_IO_OUT1_DELAY_MAX ->
  safe (scc_mgr_set_dq_out1_delay g p d) (fun _ => True).
Proof. bank_write IO_IO_OUT1_DELAY_MAX 16. Qed.

Lemma safe_dm_out1 g d : 0 <= d <= IO_IO_OUT1_DELAY_MAX ->
  safe (scc_mgr_set_dm_out1_delay g 0 d) (fun _ => True).
Proof. bank_write IO_IO_OUT1_DELAY_MAX 16. Qed.

Lemma safe_dqs_out1 g d : 0 <= d <= IO_IO_OUT1_DELAY_MAX ->
  safe (scc_mgr_set_dqs_out1_delay g d) (fun _ => True).
Proof. bank_write IO_IO_OUT1_DELAY_MAX 16. Qed.

Lemma safe_dqs_in g d : group_ok g -> 0 <= d <= IO_DQS_IN_DELAY_MAX ->
  safe (scc_mgr_set_dqs_bus_in_delay g d) (fun _ => True).
Proof. bank_write IO_DQS_IN_DELAY_MAX 4. Qed.

Lemma safe_en_phase g d : group_ok g -> 0 <= d <= IO_DQS_EN_PHASE_MAX ->
  safe (scc_mgr_set_dqs_en_phase g d) (fun _ => True).
Proof. bank_write IO_DQS_EN_PHASE_MAX 4. Qed.

Lemma safe_out_phase g d : group_ok g -> 0 <= d <= IO_DQDQS_OUT_PHASE_MAX ->
  safe (scc_mgr_set_dqdqs_output_phase g d) (fun _ => True).
Proof. bank_write IO_DQDQS_OUT_PHASE_MAX 4. Qed.

Lemma safe_read_dqs_in g : group_ok g -> safe (READ_SCC_DQS_IN_DELAY g) (fun v => 0 <= v <= 31).
Proof. bank_read 4. Qed.

Lemma safe_read_dq_in p : pin_ok p -> safe (READ_SCC_DQ_IN_DELAY p) (fun v => 0 <= v <= 31).
Proof. bank_read 16. Qed.

Lemma safe_read_dq_out1 p : pin_ok p -> safe (READ_SCC_DQ_OUT1_DELAY p) (fun v => 0 <= v <= 31).
Proof. bank_read 16. Qed.

Lemma safe_read_dqs_out1 : safe READ_SCC_DQS_IO_OUT1_DELAY (fun v => 0 <= v <= 31).
Proof. bank_read 16. Qed.

(** Read groups of a write group: it alone. *)
Lemma read_groups_same g : group_ok g -> read_groups g = [g].
Proof. intros Hg. by case_group Hg. Qed.

Lemma safe_oct_out1 g d : group_ok g -> 0 <= d <= IO_IO_OUT1_DELAY_MAX ->
  safe (scc_mgr_set_oct_out1_delay g d) (fun _ => True).
Proof.
  intros Hg Hd. unfold scc_mgr_set_oct_out1_delay. rewrite read_groups_same by done.
  apply safe_then; [bank_write IO_IO_OUT1_DELAY_MAX 4|by apply safe_ret].
Qed.

Lemma safe_en_delay g d : group_ok g -> 0 <= d <= IO_DQS_EN_DELAY_MAX ->
  safe (scc_mgr_set_dqs_en_delay g d) (fun _ => True).
Proof.
  intros Hg Hd. unfold scc_mgr_set_dqs_en_delay, WRITE_SCC_DQS_EN_DELAY.
  change IO_DQS_EN_DELAY_OFFSET with 0. rewrite Z.add_0_r. revert Hg Hd. bank_write IO_DQS_EN_DELAY_MAX 4.
Qed.

Lemma safe_dqs_io_in g d : 0 <= d <= IO_IO_IN_DELAY_MAX ->
  safe (scc_mgr_set_dqs_io_in_delay g d) (fun _ => True).
Proof. bank_write IO_IO_IN_DELAY_MAX 16. Qed.

Lemma safe_dm_in g d : 0 <= d <= IO_IO_IN_DELAY_MAX ->
  safe (scc_mgr_set_dm_in_delay g 0 d) (fun _ => True).
Proof. bank_write IO_IO_IN_DELAY_MAX 16. Qed.

(** Nothing to do on this chip. *)
Lemma safe_select r g u : safe (select_shadow_regs_for_update r g u) (fun _ => True).
Proof. by apply safe_ret. Qed.
Lemma safe_dq_out2 g p d : safe (scc_mgr_set_dq_out2_delay g p d) (fun _ => True).
Proof. by apply safe_ret. Qed.
Lemma safe_dm_out2 g p d : safe (scc_mgr_set_dm_out2_delay g p d) (fun _ => True).
Proof. by apply safe_ret. Qed.
Lemma safe_dqs_out2 g d : safe (scc_mgr_set_dqs_out2_delay g d) (fun _ => True).
Proof. by apply safe_ret. Qed.

Lemma safe_load_dq p : safe (scc_mgr_load_dq p) (fun _ => True).
Proof. by apply safe_plain. Qed.
Lemma safe_load_dqs g : safe (scc_mgr_load_dqs g) (fun _ => True).
Proof. by apply safe_plain. Qed.
Lemma safe_load_dqs_io : safe scc_mgr_load_dqs_io (fun _ => True).
Proof. by apply safe_plain. Qed.
Lemma safe_load_dm m : safe (scc_mgr_load_dm m) (fun _ => True).
Proof. by apply safe_plain. Qed.

End Ops.

#[export] Hint Resolve safe_dq_in safe_dq_out1 safe_dm_out1 safe_dqs_out1 safe_dqs_in safe_en_phase
  safe_out_phase safe_read_dqs_in safe_read_dq_in safe_read_dq_out1 safe_read_dqs_out1 safe_oct_out1
  safe_load_dq safe_load_dqs safe_load_dqs_io safe_load_dm safe_en_delay safe_dqs_io_in safe_dm_in
  safe_select safe_dq_out2 safe_dm_out2 safe_dqs_out2 : safe.

(** ** Groups *)

Section Groups.
Context {D : Type} `{Avalon D} (I : D -> Prop) `{!TapInvariant D I}.
Local Abbreviation prog A := (M (Seq D) A).
Local Abbreviation safe := (safe I).

Lemma safe_load_dqs_group g : group_ok g -> safe (scc_mgr_load_dqs_for_write_group g) (fun _ => True).
Proof. intros Hg. unfold scc_mgr_load_dqs_for_write_group. rewrite read_groups_same by done. safe_run.
Qed.

Hint Resolve safe_load_dqs_group : safe.

Lemma small_u32 i : 0 <= i < 8 -> u32 (0 + i) = i.
Proof. intros. rewrite Z.add_0_l. apply u32_small. lia. Qed.

Lemma safe_group_dq_in g d : 0 <= d <= IO_IO_IN_DELAY_MAX ->
  safe (scc_mgr_apply_group_dq_in_delay g 0 d) (fun _ => True).
Proof.
  intros Hd. apply (safe_for_each I). intros i Hi. cbv zeta.
  rewrite small_u32 by (apply elem_of_range in Hi; exact Hi). safe_run.
Qed.

Lemma safe_group_dq_out1 g b d : 0 <= d <= IO_IO_OUT1_DELAY_MAX ->
  safe (scc_mgr_apply_group_dq_out1_delay g b d) (fun _ => True).
Proof. intros Hd. unfold scc_mgr_apply_group_dq_out1_delay. safe_run. Qed.

Lemma safe_group_dm_out1 g d : 0 <= d <= IO_IO_OUT1_DELAY_MAX ->
  safe (scc_mgr_apply_group_dm_out1_delay g d) (fun _ => True).
Proof. intros Hd. apply (safe_for_each I). intros x ->%dm_range. safe_run. Qed.

Lemma safe_group_dqs_out1 g d : group_ok g -> 0 <= d <= IO_IO_OUT1_DELAY_MAX ->
  safe (scc_mgr_apply_group_dqs_io_and_oct_out1 g d) (fun _ => True).
Proof. intros Hg Hd. unfold scc_mgr_apply_group_dqs_io_and_oct_out1. safe_run. Qed.

Lemma safe_zero_all : safe scc_mgr_zero_all (fun _ => True).
Proof. unfold scc_mgr_zero_all. safe_run.
Qed.

Lemma safe_zero_group g b out_only : group_ok g -> safe (scc_mgr_zero_group g b out_only) (fun _ => True).
Proof. intros Hg. unfold scc_mgr_zero_group. safe_run. Qed.

Lemma safe_out_phase_all g p : group_ok g -> 0 <= p <= IO_DQDQS_OUT_PHASE_MAX ->
  safe (scc_mgr_set_dqdqs_output_phase_all_ranks g p) (fun _ => True).
Proof. intros Hg Hp. unfold scc_mgr_set_dqdqs_output_phase_all_ranks. safe_run. Qed.

Lemma safe_out_delay_add g b d : group_ok g -> 0 <= d <= IO_IO_OUT1_DELAY_MAX ->
  safe (scc_mgr_apply_group_all_out_delay_add_all_ranks g b d) (fun _ => True).
Proof.
  intros Hg Hd. unfold scc_mgr_apply_group_all_out_delay_add_all_ranks, scc_mgr_apply_group_all_out_delay_add.
  assert (Hover : forall set_out1 : Z -> prog unit, safe (set_out1 d) (fun _ => True) ->
    safe (overflow_out1 0 d set_out1) (fun _ => True)).
  { intros set_out1 Hset. unfold overflow_out1. cbv zeta. change IO_IO_OUT2_DELAY_MAX with 0.
    rewrite Z.add_0_l, Z.sub_0_r, u32_small by solve_bound. case_match; [done|by apply safe_ret]. }
  safe_run; try (apply Hover; safe_run).
  unfold scc_mgr_set_oct_out2_delay. rewrite read_groups_same by done. safe_run.
Qed.

Lemma safe_scc_initialize : safe scc_mgr_initialize (fun _ => True).
Proof.
  apply (safe_for_each I). intros i Hi%elem_of_range. by apply (safe_bank_plain I _ 16).
Qed.

Lemma safe_bypass_mode g mode : safe (scc_set_bypass_mode g mode) (fun _ => True).
Proof. unfold scc_set_bypass_mode, scc_mgr_set_hhp_extras, WRITE_SCC_HHP_EXTRAS. safe_run. Qed.

End Groups.

#[export] Hint Resolve safe_load_dqs_group safe_group_dq_in safe_group_dq_out1 safe_group_dm_out1
  safe_group_dqs_out1 safe_zero_all safe_zero_group safe_out_phase_all safe_out_delay_add
  safe_scc_initialize safe_bypass_mode : safe.

(** ** The memory *)

Section Memory.
Context {D : Type} `{Avalon D} (I : D -> Prop) `{!TapInvariant D I}.
Local Abbreviation prog A := (M (Seq D) A).
Local Abbreviation safe := (safe I).

Lemma safe_skip_delay v : safe (skip_delay_loop_value_or_zero v) (fun _ => True).
Proof. apply (safe_gets I). Qed.

Lemma safe_delay n : safe (delay_for_n_mem_clocks n) (fun _ => True).
Proof.
  unfold delay_for_n_mem_clocks. cbv zeta. destruct (delay_counters _) as [[inner outer] c_loop].
  do 2 (eapply (safe_bind I); [apply safe_skip_delay|intros ? _]). safe_run.
Qed.

Lemma safe_run_mode s : safe (run_mode_register s) (fun _ => True).
Proof. unfold run_mode_register, set_jump_as_return. repeat apply (safe_then I); safe_run. Qed.

Lemma safe_run_reset a b c s : safe (run_reset_sequence a b c s) (fun _ => True).
Proof.
  unfold run_reset_sequence.
  repeat first [ eapply (safe_bind I); [apply safe_skip_delay|intros ? _] | safe_step ].
Qed.

Lemma safe_odt_mask mode : safe (set_rank_and_odt_mask 0 mode) (fun _ => True).
Proof. apply (safe_set_rank_and_odt_mask I). Qed.

Hint Resolve safe_delay safe_run_mode safe_run_reset safe_odt_mask : safe.

Lemma safe_used_ranks (body : Z -> prog unit) :
  safe (body 0) (fun _ => True) ->
  safe (for_used_ranks 0 RW_MGR_MEM_NUMBER_OF_RANKS body) (fun _ => True).
Proof. apply (safe_for_used_ranks I). Qed.

Lemma safe_mem_initialize : safe rw_mgr_mem_initialize (fun _ => True).
Proof.
  unfold rw_mgr_mem_initialize, rw_mgr_rdimm_initialize. safe_run.
  apply safe_used_ranks. unfold initialize_rank. safe_run.
Qed.

Lemma safe_mem_handoff : safe rw_mgr_mem_handoff (fun _ => True).
Proof. apply safe_used_ranks. unfold handoff_rank. safe_run. Qed.

Lemma safe_precharge : safe mem_precharge_and_activate (fun _ => True).
Proof. apply safe_used_ranks. safe_run. Qed.

Lemma safe_load_patterns : safe rw_mgr_mem_calibrate_read_load_patterns_all_ranks (fun _ => True).
Proof.
  apply (safe_then I); [|apply safe_odt_mask]. apply safe_used_ranks. safe_run.
Qed.

(** A step that only changes the globals. *)
Lemma safe_set_gbl (f : gbl_t -> gbl_t) : safe (modify (fun s => set_gbl (f (gbl s)) s)) (fun _ => True).
Proof. by apply (safe_modify I). Qed.

Hint Resolve safe_set_gbl safe_precharge : safe.

Lemma safe_mem_config : safe mem_config (fun _ => True).
Proof.
  unfold mem_config. do 3 (apply (safe_read_bind I); intros ? _).
  cbv zeta. destruct (latencies _ _) as [wlat read_lat].
  repeat first [ apply (safe_set_gbl (set_nop_cycles _)) | apply (safe_set_gbl (set_read_lat _))
               | apply (safe_set_gbl (set_write_lat _)) | safe_step ].
Qed.

Lemma safe_reg_stage x : safe (reg_file_set_stage x) (fun _ => True).
Proof. apply (safe_read_bind I). intros. safe_run. Qed.

Lemma safe_reg_group x : safe (reg_file_set_group x) (fun _ => True).
Proof. apply (safe_read_bind I). intros. safe_run. Qed.

Lemma safe_reg_sub_stage x : safe (reg_file_set_sub_stage x) (fun _ => True).
Proof. apply (safe_read_bind I). intros. safe_run. Qed.

Lemma safe_failing g s ss : safe (set_failing_group_stage g s ss) (fun _ => True).
Proof. apply (safe_modify I). intros st Hst. by case_match. Qed.

Lemma safe_initialize : safe initialize (fun _ => True).
Proof.
  unfold initialize. safe_run. apply (safe_modify I). intros s Hs. by case_match.
Qed.

Lemma safe_initialize_reg_file : safe initialize_reg_file (fun _ => True).
Proof. unfold initialize_reg_file. safe_run. Qed.

Lemma safe_write_rom base rom :
  plain_bank base (Z.of_nat (length rom)) = true -> safe (write_rom base rom) (fun _ => True).
Proof.
  intros Hb. apply (safe_for_each I). intros i Hi%elem_of_range.
  destruct (lookup_lt_is_Some_2 rom (Z.to_nat i)) as [v Hv]; [lia|].
  replace (array_get rom i) with (Some v) by (unfold array_get; destruct (Z.leb_spec 0 i); [done|lia]).
  apply (safe_bind I _ _ (fun _ => True)); [by apply safe_ret|]. intros w _.
  by apply (safe_bank_plain I _ (Z.of_nat (length rom))).
Qed.

Lemma safe_rom_data : safe hc_initialize_rom_data (fun _ => True).
Proof. apply (safe_then I); apply safe_write_rom; vm_compute; reflexivity. Qed.

Lemma safe_tracking : safe initialize_tracking (fun _ => True).
Proof.
  unfold initialize_tracking. apply (safe_bind I _ _ (fun _ => True)); [by intros s Hs|intros n _].
  safe_run.
Qed.

End Memory.

#[export] Hint Resolve safe_delay safe_odt_mask safe_mem_initialize safe_mem_handoff safe_precharge
  safe_load_patterns safe_mem_config safe_reg_stage safe_reg_group safe_reg_sub_stage safe_failing
  safe_initialize safe_initialize_reg_file safe_rom_data safe_tracking : safe.

(** ** Tests *)

Section Tests.
Context {D : Type} `{Avalon D} (I : D -> Prop) `{!TapInvariant D I}.
Local Abbreviation prog A := (M (Seq D) A).
Local Abbreviation safe := (safe I).

(** The one virtual group of a group, as the loops over it compute it. *)
Lemma one_virtual_group vg n : n = 1 -> vg ∈ rev (c_range 0 n 1) -> vg = 0.
Proof. intros -> Hvg. revert Hvg. vm_compute rev. set_solver. Qed.

(** A sequence run on one group. *)
Lemma safe_run_group g v : group_ok g -> safe (IOWR_32DIRECT RW_MGR_RUN_SINGLE_GROUP (shl2 g) v) (fun _ => True).
Proof. intros Hg. apply (safe_bank_plain I _ 4); [vm_compute; reflexivity|solve_bound]. Qed.

Lemma safe_patterns_test g n : group_ok g ->
  safe (rw_mgr_mem_calibrate_read_test_patterns 0 g n 1) (fun r => r.1 = 0 \/ r.1 = 1).
Proof.
  intros Hg. apply (safe_gets_bind I). intros p.
  eapply (safe_bind I).
  { apply (safe_test_ranks I). apply (safe_then I); [apply (safe_odt_mask I)|]. safe_run.
    apply (safe_collect_groups I). intros vg ->%one_virtual_group; [|done].
    unfold run_guaranteed_read. safe_run. case_group Hg; by apply (safe_plain I). }
  intros b _. apply (safe_then I); [by apply safe_run_group|].
  apply (safe_then I); [apply (safe_odt_mask I)|]. apply safe_ret, b2z_cases.
Qed.

Lemma safe_patterns_all_ranks g n : group_ok g ->
  safe (rw_mgr_mem_calibrate_read_test_patterns_all_ranks g n) (fun r => r.1 = 0 \/ r.1 = 1).
Proof.
  intros Hg. eapply (safe_bind I); [by apply safe_patterns_test|]. intros [ok b] Hok. simpl in Hok.
  case_match; [by apply safe_ret; right|].
  apply (safe_loop I (fun l => 0 <= l.1 <= IO_DQS_EN_PHASE_MAX + 1)
           (fun l => Z.to_nat (IO_DQS_EN_PHASE_MAX + 1 - l.1))); simpl; [|lia|by vm_compute].
  intros [p b'] Hp. simpl in Hp. destruct (Z.leb_spec p IO_DQS_EN_PHASE_MAX); [|by apply safe_ret; left].
  apply (safe_then I); [by apply (safe_set_dqs_en_phase I); [|lia]|].
  eapply (safe_bind I); [by apply safe_patterns_test|]. intros [ok' b2] _.
  case_match; apply safe_ret; simpl; [by right|lia].
Qed.

Lemma safe_write_nops n dm : safe (load_write_nops n dm) (fun _ => True).
Proof. unfold load_write_nops. safe_run. Qed.

Lemma safe_write_issue g dm : group_ok g -> safe (rw_mgr_mem_calibrate_write_test_issue g dm) (fun _ => True).
Proof.
  intros Hg. apply (safe_gets_bind I). intros n. eapply (safe_bind I); [apply safe_write_nops|]. intros i _.
  safe_run; by apply safe_run_group.
Qed.

Lemma safe_write_test g dm all_correct all_ranks : group_ok g ->
  safe (rw_mgr_mem_calibrate_write_test 0 g dm all_correct all_ranks) (fun r => is_bit r.1).
Proof.
  intros Hg. apply (safe_gets_bind I). intros p. eapply (safe_bind I).
  { apply (safe_test_ranks I). apply (safe_then I); [apply (safe_odt_mask I)|].
    apply (safe_collect_groups I). intros vg ->%one_virtual_group; [|done].
    safe_run. replace (u32 _) with g by (by case_group Hg). by apply safe_write_issue. }
  intros b _. apply (safe_then I); [apply (safe_odt_mask I)|]. apply safe_ret, verdict_cases.
Qed.

(** A step of the read latency leaves one less. *)
Lemma lfifo_body_safe found s : calm I s -> is_bit found ->
  wp (lfifo_body found) (fun r s' => calm I s' /\
    match r with
    | inl v => is_bit v /\ curr_read_lat (gbl s') = u32 (curr_read_lat (gbl s) - 1) /\ 0 < curr_read_lat (gbl s')
    | inr v => is_bit v
    end) no_exit s.
Proof.
  intros Hs Hf. unfold lfifo_body. apply wp_bind. set (lat := curr_read_lat (gbl s)).
  eapply wp_val; [reflexivity|]. fold lat.
  apply wp_bind. eapply wp_mono; [by apply (safe_plain I)|intros ? s2 [Hs2 _]|done].
  apply wp_bind. eapply wp_mono; [apply (safe_read_test_all_ranks I); [solve_bound|done|exact Hs2]|intros [ok b] s3 [Hs3 _]|done].
  case_match; [by apply wp_ret|].
  apply wp_bind. eapply wp_val; [reflexivity|].
  apply wp_bind. eapply wp_val; [reflexivity|]. simpl.
  destruct (Z.ltb_spec 0 (u32 (lat - 1))); apply wp_ret; (split; [done|]); [|by right].
  split; [by right|]. by split.
Qed.

Lemma safe_lfifo : safe rw_mgr_mem_calibrate_lfifo is_bit.
Proof.
  apply (safe_then I); [apply (safe_reg_stage I)|]. apply (safe_then I); [apply (safe_reg_sub_stage I)|].
  apply (safe_then I); [apply (safe_load_patterns I)|].
  intros s Hs. apply wp_bind. eapply wp_val; [reflexivity|]. apply wp_bind.
  eapply wp_mono with (X := no_exit) (Q := fun found s' => calm I s' /\ is_bit found); [|intros found s2 [Hs2 Hfound]|done].
  - apply (wp_loop (fun v s => calm I s /\ is_bit v) (fun _ s => Z.to_nat (u32 (curr_read_lat (gbl s) - 1))));
      [|lia|split; [done|by left]].
    intros v s1 [Hs1 Hv]. eapply wp_mono; [by apply lfifo_body_safe| |done].
    intros [v'|v'] s2 [Hs2 Hr]; [|done]. destruct Hr as (Hv' & Hlat & Hpos). split; [done|].
    rewrite Hlat in Hpos. rewrite Hlat, (u32_small (u32 _ - 1)); pose proof (u32_bound (curr_read_lat (gbl s1) - 1)); lia.
  - revert s2 Hs2. lazymatch goal with |- forall s, calm I s -> wp ?m _ _ s => change (safe m is_bit) end.
    safe_run; by apply (safe_modify I).
Qed.

End Tests.

#[export] Hint Resolve safe_patterns_all_ranks safe_write_test safe_lfifo : safe.
