(* ===== verification/SeqPhase.v ===== *)
(** * SeqPhase: finding the phase of the read strobe

[rw_mgr_mem_calibrate_vfifo_find_dqs_en_phase] looks for the window of FIFO
positions, phases and delays in which reads work and centres the strobe's enable
in it.  Its stages are definitions of their own; a delay is counted in
picoseconds.  The variable [max_working_cnt], which only the debugging output
reads, is left out. *)
From S2P Require Import Prelude SeqConfig SeqBase SeqScc SeqMem SeqTest SeqSafe.

(** [for (; n <= max && tmp_delay < target; n++, tmp_delay += step);] *)
Fixpoint count_taps (fuel : nat) (max target step n tmp_delay : Z) : Z * Z :=
  match fuel with
  | O => (n, tmp_delay)
  | S fuel' =>
      if (n <=? max) && (tmp_delay <? target)
      then count_taps fuel' max target step (n + 1) (u32 (tmp_delay + step))
      else (n, tmp_delay)
  end.

(** [while (work_mid > period) work_mid -= period;] *)
Fixpoint reduce_mid (fuel : nat) (work_mid period : Z) : Z :=
  match fuel with
  | O => work_mid
  | S fuel' => if period <? work_mid then reduce_mid fuel' (work_mid - period) period else work_mid
  end.

(** The picoseconds of all phases: [for (p = 0; p <= max; p++, tmp_delay += ...);] *)
Definition phase_period : Z :=
  foldl (fun tmp_delay _ => u32 (tmp_delay + IO_DELAY_PER_OPA_TAP)) 0
    (c_range 0 (IO_DQS_EN_PHASE_MAX + 1) 1).

(** The phase (one more than it) and delay in the middle of the window. *)
Definition centre (work_bgn work_end : Z) : Z * Z :=
  let work_mid := u32 (work_bgn + work_end) / 2 in
  let work_mid := reduce_mid (S (Z.to_nat (work_mid / phase_period))) work_mid phase_period in
  let '(p, tmp_delay) :=
    count_taps (Z.to_nat (IO_DQS_EN_PHASE_MAX + 1)) IO_DQS_EN_PHASE_MAX work_mid IO_DELAY_PER_OPA_TAP 0 0 in
  let tmp_delay := u32 (tmp_delay - IO_DELAY_PER_OPA_TAP) in
  let '(d, _) :=
    count_taps (Z.to_nat (IO_DQS_EN_DELAY_MAX + 1)) IO_DQS_EN_DELAY_MAX work_mid
      IO_DELAY_PER_DQS_EN_DCHAIN_TAP 0 tmp_delay in
  if p =? 1 then (2, 0) else (p, d).

Section Phase.
Context {D : Type} `{Avalon D}.
Local Abbreviation prog A := (M (Seq D) A).

(** The read test that the search uses; its [bit_chk] is not looked at. *)
Definition passes (grp num_tries : Z) : prog bool :=
  let! '(ok, _) := rw_mgr_mem_calibrate_read_test_all_ranks grp num_tries PASS_ONE_BIT 0 0 in
  ret (negb (ok =? 0)).

(** Step 0: the FIFO is advanced until two reads have failed. *)
Definition find_failing_read (grp : Z) : prog Z :=
  loop (S (Z.to_nat VFIFO_SIZE)) (fun '(v, fail_cnt) =>
    if v <? VFIFO_SIZE then
      let! test_status := passes grp 5 in
      let fail_cnt := if test_status then fail_cnt else fail_cnt + 1 in
      if negb test_status && (fail_cnt =? 2) then ret (inr v)
      else let! v := rw_mgr_incr_vfifo grp v in ret (inl (v, fail_cnt))
    else ret (inr v)) (0, 0).

(** Step 1: the first working phase.  The three loops run over the delays, the
FIFO positions and the phases. *)
Definition find_phase (grp work_bgn : Z) : prog (bool * Z * Z) :=
  loop (S (Z.to_nat (IO_DQS_EN_PHASE_MAX + 1))) (fun '(p, work_bgn) =>
    if p <=? IO_DQS_EN_PHASE_MAX then
      if p =? 0 then ret (inl (p + 1, u32 (work_bgn + IO_DELAY_PER_OPA_TAP)))
      else
        scc_mgr_set_dqs_en_phase_all_ranks grp p ;;!
        let! test_status := passes grp 5 in
        if test_status then ret (inr (true, p, work_bgn))
        else ret (inl (p + 1, u32 (work_bgn + IO_DELAY_PER_OPA_TAP)))
    else ret (inr (false, p, work_bgn))) (0, work_bgn).

Definition find_position (grp v work_bgn : Z) : prog (bool * Z * Z * Z * Z) :=
  loop (S (Z.to_nat VFIFO_SIZE)) (fun '(i, v, p, work_bgn) =>
    if i <? VFIFO_SIZE then
      let! '(found_begin, p, work_bgn) := find_phase grp work_bgn in
      if found_begin : bool then ret (inr (true, i, v, p, work_bgn))
      else
        let! v := if IO_DQS_EN_PHASE_MAX <? p then rw_mgr_incr_vfifo grp v else ret v in
        ret (inl (i + 1, v, p, work_bgn))
    else ret (inr (false, i, v, p, work_bgn))) (0, v, 0, work_bgn).

(** The result is [(d, i, v, p, work_bgn)]. *)
Definition find_begin (grp dtaps_per_ptap v : Z) : prog (Z * Z * Z * Z * Z) :=
  loop (S (S (Z.to_nat dtaps_per_ptap))) (fun '(d, tmp_delay, i, v, p, work_bgn) =>
    if d <=? dtaps_per_ptap then
      scc_mgr_set_dqs_en_delay_all_ranks grp d ;;!
      let! '(found_begin, i, v, p, work_bgn) := find_position grp v tmp_delay in
      if found_begin : bool then ret (inr (d, i, v, p, work_bgn))
      else ret (inl (d + 1, u32 (tmp_delay + IO_DELAY_PER_DQS_EN_DCHAIN_TAP), i, v, p, work_bgn))
    else ret (inr (d, i, v, p, work_bgn))) (0, 0, 0, v, 0, 0).

(** A step back to the previous phase, and forward to the next one; at the end
of the phases the FIFO moves. *)
Definition previous_phase (grp v p : Z) : prog (Z * Z) :=
  if p =? 0 then let! v := rw_mgr_decr_vfifo grp v in ret (v, IO_DQS_EN_PHASE_MAX)
  else ret (v, p - 1).

Definition next_phase (grp v p : Z) : prog (Z * Z) :=
  let p := p + 1 in
  if IO_DQS_EN_PHASE_MAX <? p then let! v := rw_mgr_incr_vfifo grp v in ret (v, 0) else ret (v, p).

(** Step 2a: the phase before the first working one, with the least delay that
makes it work; the result is the delay in picoseconds, if any. *)
Definition refine_begin (grp tmp_delay work_bgn : Z) : prog (option Z) :=
  loop (S (Z.to_nat (IO_DQS_EN_DELAY_MAX + 1))) (fun '(d, tmp_delay) =>
    if (d <=? IO_DQS_EN_DELAY_MAX) && (tmp_delay <? work_bgn) then
      scc_mgr_set_dqs_en_delay_all_ranks grp d ;;!
      let! ok := passes grp 5 in
      if ok then ret (inr (Some tmp_delay))
      else ret (inl (d + 1, u32 (tmp_delay + IO_DELAY_PER_DQS_EN_DCHAIN_TAP)))
    else ret (inr None)) (0, tmp_delay).

(** Steps 3a and 4a: the first phase that fails again; [j] counts the phases. *)
Definition find_end_phase (grp p work_bgn work_end j : Z) : prog (bool * Z * Z * Z * Z) :=
  loop (S (Z.to_nat (IO_DQS_EN_PHASE_MAX + 1))) (fun '(p, work_bgn, work_end, j) =>
    if p <=? IO_DQS_EN_PHASE_MAX then
      let j := u32 (j + 1) in
      if p =? 0 then ret (inl (p + 1, work_bgn, u32 (work_end + IO_DELAY_PER_OPA_TAP), j))
      else
        scc_mgr_set_dqs_en_phase_all_ranks grp p ;;!
        let! test_status := passes grp 5 in
        if negb test_status && (j =? 1) then
          ret (inl (p + 1, work_end, u32 (work_end + IO_DELAY_PER_OPA_TAP), j))
        else if negb test_status then ret (inr (true, p, work_bgn, work_end, j))
        else ret (inl (p + 1, work_bgn, u32 (work_end + IO_DELAY_PER_OPA_TAP), j))
    else ret (inr (false, p, work_bgn, work_end, j))) (p, work_bgn, work_end, j).

(** The result is [(i, v, p, work_bgn, work_end)]. *)
Definition find_end (grp i v p work_bgn work_end : Z) : prog (Z * Z * Z * Z * Z) :=
  loop (S (Z.to_nat (VFIFO_SIZE + 1))) (fun '(i, v, p, work_bgn, work_end, j) =>
    if i <? VFIFO_SIZE + 1 then
      let! '(found_end, p, work_bgn, work_end, j) := find_end_phase grp p work_bgn work_end j in
      if found_end : bool then ret (inr (i, v, p, work_bgn, work_end))
      else
        let! '(v, p) :=
          if IO_DQS_EN_PHASE_MAX <? p then let! v := rw_mgr_incr_vfifo grp v in ret (v, 0)
          else ret (v, p) in
        ret (inl (i + 1, v, p, work_bgn, work_end, j))
    else ret (inr (i, v, p, work_bgn, work_end))) (i, v, p, work_bgn, work_end, 0).

(** Steps 2a to 5a, for a window that starts within a phase: the result is
[(v, p, work_bgn, work_end)], or nothing when no phase fails. *)
Definition phase_window (grp i v p work_bgn : Z) : prog (option (Z * Z * Z * Z)) :=
  let work_end := work_bgn in
  let! '(v, p) := previous_phase grp v p in
  let tmp_delay := u32 (work_bgn - IO_DELAY_PER_OPA_TAP) in
  let '(p, tmp_delay) := if p =? 0 then (1, work_bgn) else (p, tmp_delay) in
  scc_mgr_set_dqs_en_phase_all_ranks grp p ;;!
  let! begin := refine_begin grp tmp_delay work_bgn in
  let work_bgn := default work_bgn begin in
  let! '(v, p) := next_phase grp v p in
  scc_mgr_set_dqs_en_delay_all_ranks grp 0 ;;!
  let work_end := u32 (work_end + IO_DELAY_PER_OPA_TAP) in
  let! '(v, p) := next_phase grp v p in
  let! '(i, v, p, work_bgn, work_end) := find_end grp i v p work_bgn work_end in
  if VFIFO_SIZE + 1 <=? i then ret None
  else
    let '(p, work_end) :=
      if p =? 1 then (0, u32 (work_end - IO_DELAY_PER_OPA_TAP)) else (p, work_end) in
    let! '(v, p) := previous_phase grp v p in
    let work_end := u32 (work_end - IO_DELAY_PER_OPA_TAP) in
    scc_mgr_set_dqs_en_phase_all_ranks grp p ;;!
    ret (Some (v, p, work_bgn, work_end)).

(** Step 6a: the last delay that works; the result is [(d, work_end)]. *)
Definition extend_end (grp d work_end : Z) : prog (Z * Z) :=
  loop (S (Z.to_nat (IO_DQS_EN_DELAY_MAX + 1))) (fun '(d, work_end) =>
    if d <=? IO_DQS_EN_DELAY_MAX then
      scc_mgr_set_dqs_en_delay_all_ranks grp d ;;!
      let! ok := passes grp 5 in
      if ok then ret (inl (d + 1, u32 (work_end + IO_DELAY_PER_DQS_EN_DCHAIN_TAP)))
      else ret (inr (d, work_end))
    else ret (inr (d, work_end))) (d, work_end).

(** The delay from [d] on at which a read is first as wanted. *)
Definition scan_delay (grp d : Z) (wanted : bool) : prog (bool * Z) :=
  loop (S (Z.to_nat (IO_DQS_EN_DELAY_MAX + 1))) (fun d =>
    if d <=? IO_DQS_EN_DELAY_MAX then
      scc_mgr_set_dqs_en_delay_all_ranks grp d ;;!
      let! ok := passes grp 1 in
      if Bool.eqb ok wanted then ret (inr (true, d)) else ret (inl (d + 1))
    else ret (inr (false, d))) d.

(** The delay taps in a phase tap, measured: the FIFO position [v] and the phase
[p] are stepped back and the delay scanned over a window.  The result is [v]. *)
Definition measure_dtaps (grp v p d dtaps_per_ptap : Z) : prog Z :=
  let! '(v, p) :=
    if (p =? 0) || (p =? 1) then let! v := rw_mgr_decr_vfifo grp v in ret (v, IO_DQS_EN_PHASE_MAX)
    else ret (v, p - 1) in
  scc_mgr_set_dqs_en_phase_all_ranks grp p ;;!
  let initial_failing_dtap := d in
  let! '(found_passing_read, d) := scan_delay grp d true in
  let! '(found_failing_read, d) :=
    if found_passing_read : bool then scan_delay grp (d + 1) false else ret (false, d) in
  let dtaps_per_ptap :=
    if found_passing_read && (found_failing_read : bool) then u32 (d - initial_failing_dtap)
    else dtaps_per_ptap in
  IOWR_32DIRECT REG_FILE_DTAPS_PER_PTAP 0 dtaps_per_ptap ;;!
  ret v.

(** The FIFO position at the centre: the FIFO is advanced until a read works. *)
Definition find_centre_position (grp v : Z) : prog Z :=
  loop (S (Z.to_nat VFIFO_SIZE)) (fun '(i, v) =>
    if i <? VFIFO_SIZE then
      let! ok := passes grp 1 in
      if ok then ret (inr i)
      else let! v := rw_mgr_incr_vfifo grp v in ret (inl (i + 1, v))
    else ret (inr i)) (0, v).

(** The last stage: the phase and delay are set to the middle of the window. *)
Definition centre_window (grp v work_bgn work_end : Z) : prog Z :=
  let '(p, d) := centre work_bgn work_end in
  scc_mgr_set_dqs_en_phase_all_ranks grp (u32 (p - 1)) ;;!
  scc_mgr_set_dqs_en_delay_all_ranks grp d ;;!
  let! i := find_centre_position grp v in
  if VFIFO_SIZE <=? i then ret 0 else ret 1.

(** The stages from the first working setting on. *)
Definition window_of (grp d i v p work_bgn dtaps_per_ptap : Z) : prog Z :=
  let! window :=
    if d =? 0 then phase_window grp i v p work_bgn
    else ret (Some (v, p, work_bgn, work_bgn)) in
  match window with
  | None => ret 0
  | Some (v, p, work_bgn, work_end) =>
      let! '(d, work_end) := extend_end grp d work_end in
      let work_end :=
        if negb (d =? 0) then u32 (work_end - IO_DELAY_PER_DQS_EN_DCHAIN_TAP) else work_end in
      if work_bgn <=? work_end then
        let! v := measure_dtaps grp v p d dtaps_per_ptap in
        centre_window grp v work_bgn work_end
      else ret 0
  end.

Definition rw_mgr_mem_calibrate_vfifo_find_dqs_en_phase (grp : Z) : prog Z :=
  reg_file_set_sub_stage CAL_SUBSTAGE_VFIFO_CENTER ;;!
  scc_mgr_set_dqs_en_delay_all_ranks grp 0 ;;!
  scc_mgr_set_dqs_en_phase_all_ranks grp 1 ;;!
  let! dtaps_per_ptap := dtaps_per_phase IO_DELAY_PER_DQS_EN_DCHAIN_TAP in
  let! v := find_failing_read grp in
  if VFIFO_SIZE <=? v then ret 0
  else
    let! '(d, i, v, p, work_bgn) := find_begin grp dtaps_per_ptap v in
    if VFIFO_SIZE <=? i then ret 0
    else window_of grp d i v p work_bgn dtaps_per_ptap.

(** The search with the DQ input delays spread over the group. *)
Definition rw_mgr_mem_calibrate_vfifo_find_dqs_en_phase_sweep_dq_in_delay
    (write_group read_group test_bgn : Z) : prog Z :=
  let delay_step := IO_IO_IN_DELAY_MAX / (RW_MGR_MEM_DQ_PER_READ_DQS - 1) in
  let set_delays (delay_of : Z -> Z) : prog unit :=
    for_shadow_regs (fun r =>
      select_shadow_regs_for_update r write_group 1 ;;!
      for_each (c_range 0 RW_MGR_MEM_DQ_PER_READ_DQS 1) (fun i =>
        let p := u32 (test_bgn + i) in
        scc_mgr_set_dq_in_delay write_group p (delay_of i) ;;!
        scc_mgr_load_dq p) ;;!
      IOWR_32DIRECT SCC_MGR_UPD 0 0) in
  set_delays (fun i => i * delay_step) ;;!
  let! found := rw_mgr_mem_calibrate_vfifo_find_dqs_en_phase read_group in
  set_delays (fun _ => 0) ;;!
  ret found.

End Phase.

(** ** The counting loops *)

Lemma count_taps_spec fuel max target step n tmp n' tmp' :
  Z.of_nat fuel = max + 1 - n -> 0 <= step -> 0 <= tmp -> tmp + step * Z.of_nat fuel < 2 ^ 32 ->
  count_taps fuel max target step n tmp = (n', tmp') ->
  n <= n' <= max + 1 /\ tmp' = tmp + step * (n' - n) /\
  (n' = max + 1 \/ target <= tmp') /\ (n < n' -> tmp' - step < target).
Proof.
  revert n tmp. induction fuel as [|fuel IH]; intros n tmp Hfuel Hstep Htmp Hmax Heq; simpl in Heq.
  { injection Heq as <- <-. lia. }
  destruct ((n <=? max) && (tmp <? target)) eqn:Hif.
  - rewrite u32_small in Heq by nia.
    destruct (IH (n + 1) (tmp + step) ltac:(lia) Hstep ltac:(lia) ltac:(nia) Heq) as (Hn & -> & Hend & Hlt).
    repeat split; [lia..|lia|lia|]. intros _.
    destruct (Z.eq_dec (n + 1) n') as [<-|Hne]; [lia|]. specialize (Hlt ltac:(lia)). lia.
  - injection Heq as <- <-. lia.
Qed.

Lemma reduce_mid_spec fuel mid period :
  0 < period -> 0 < mid -> mid / period < Z.of_nat fuel -> 0 < reduce_mid fuel mid period <= period.
Proof.
  intros Hp. revert mid. induction fuel as [|fuel IH]; intros mid Hmid Hfuel; simpl.
  { pose proof (Z.div_pos mid period). lia. }
  destruct (Z.ltb_spec period mid); [|lia]. apply IH; [lia|].
  replace (mid - period) with (mid + -1 * period) by lia. rewrite Z.div_add by lia. lia.
Qed.

(** The middle of a window that starts after the first phase is a phase and a
delay of the registers. *)
Lemma centre_in_range work_bgn work_end :
  IO_DELAY_PER_OPA_TAP <= work_bgn <= work_end -> work_end < 2 ^ 31 ->
  let '(p, d) := centre work_bgn work_end in
  1 <= p - 1 <= IO_DQS_EN_PHASE_MAX /\ 0 <= d <= IO_DQS_EN_DELAY_MAX.
Proof.
  change IO_DELAY_PER_OPA_TAP with 312. change IO_DQS_EN_PHASE_MAX with 7.
  change IO_DQS_EN_DELAY_MAX with 31. intros Hbgn Hend. unfold centre.
  rewrite u32_small by lia. change phase_period with 2496. cbv zeta.
  set (mid := reduce_mid _ _ _).
  assert (0 < mid <= 2496) as Hmid.
  { apply reduce_mid_spec; [lia| |].
    - apply Z.div_str_pos. lia.
    - pose proof (Z.div_pos ((work_bgn + work_end) / 2) 2496).
      pose proof (Z.div_pos (work_bgn + work_end) 2). lia. }
  destruct (count_taps _ _ mid IO_DELAY_PER_OPA_TAP 0 0) as [p tmp] eqn:Hp.
  apply count_taps_spec in Hp; [|done..]. change IO_DELAY_PER_OPA_TAP with 312 in *.
  change IO_DQS_EN_PHASE_MAX with 7 in *. destruct Hp as (Hp & -> & Hend1 & _).
  rewrite u32_small by lia.
  destruct (count_taps _ _ mid IO_DELAY_PER_DQS_EN_DCHAIN_TAP 0 _) as [d tmp] eqn:Hd.
  apply count_taps_spec in Hd; [|reflexivity|done|lia|].
  2: { change IO_DELAY_PER_DQS_EN_DCHAIN_TAP with 25. change IO_DQS_EN_DELAY_MAX with 31. lia. }
  change IO_DELAY_PER_DQS_EN_DCHAIN_TAP with 25 in *. change IO_DQS_EN_DELAY_MAX with 31 in *.
  destruct Hd as (Hd & -> & _ & Hlt).
  destruct (Z.eqb_spec p 1); lia.
Qed.

(** ** Every stage is safe

The bounds that the stages pass on: a window starts at a positive multiple of a
phase (so its middle is not 0) and stays far from the width of a word. *)

Definition window_ok (work_bgn work_end : Z) : Prop :=
  IO_DELAY_PER_OPA_TAP <= work_bgn < 2 ^ 20 /\ 0 <= work_end < 2 ^ 20.

(** The constants of the search as numbers, for [lia]. *)
Ltac constants :=
  change VFIFO_SIZE with 16 in *; change IO_DQS_EN_PHASE_MAX with 7 in *;
  change IO_DQS_EN_DELAY_MAX with 31 in *; change IO_DELAY_PER_OPA_TAP with 312 in *;
  change IO_DELAY_PER_DQS_EN_DCHAIN_TAP with 25 in *.
Ltac solve_range := cbn in *; constants; lia.

Section Safety.
Context {D : Type} `{Avalon D} (I : D -> Prop) `{!TapInvariant D I}.
Local Abbreviation safe m P := (SeqSafe.safe I m P).

Lemma safe_passes grp n : group_ok grp -> 0 <= n -> safe (passes grp n) (fun _ => True).
Proof.
  intros. eapply safe_bind; [by apply safe_read_test_all_ranks|]. intros [] _. by apply safe_ret.
Qed.

Lemma safe_phase_then {B} grp p (k : M (Seq D) B) P :
  group_ok grp -> 0 <= p <= IO_DQS_EN_PHASE_MAX -> safe k P ->
  safe (scc_mgr_set_dqs_en_phase_all_ranks grp p ;;! k) P.
Proof. intros. apply safe_then; [by apply safe_set_dqs_en_phase|done]. Qed.

Lemma safe_delay_then {B} grp d (k : M (Seq D) B) P :
  group_ok grp -> 0 <= d <= IO_DQS_EN_DELAY_MAX -> safe k P ->
  safe (scc_mgr_set_dqs_en_delay_all_ranks grp d ;;! k) P.
Proof. intros. apply safe_then; [by apply safe_set_dqs_en_delay|done]. Qed.

Lemma safe_passes_then {B} grp n (k : bool -> M (Seq D) B) P :
  group_ok grp -> 0 <= n -> (forall ok, safe (k ok) P) ->
  safe (let! ok := passes grp n in k ok) P.
Proof. intros. eapply safe_bind; [by apply safe_passes|auto]. Qed.

Lemma safe_dtaps : safe (dtaps_per_phase IO_DELAY_PER_DQS_EN_DCHAIN_TAP) (fun n => n = 12).
Proof. intros s Hs. split; [exact Hs|reflexivity]. Qed.

Lemma safe_incr grp v : safe (rw_mgr_incr_vfifo grp v) (fun v' => v' = u32 (v + 1)).
Proof. apply safe_then; [by apply safe_plain|by apply safe_ret]. Qed.

Lemma safe_decr grp v : safe (rw_mgr_decr_vfifo grp v) (fun _ => True).
Proof. apply safe_decr_vfifo; exact _. Qed.

Lemma safe_find_failing_read grp : group_ok grp -> safe (find_failing_read grp) (fun _ => True).
Proof.
  intros Hg. apply (safe_loop I (fun l => 0 <= l.1) (fun l => Z.to_nat (16 - l.1))); [|solve_range..].
  intros [v fail_cnt] Hv. destruct (Z.ltb_spec v VFIFO_SIZE); [|by apply safe_ret].
  apply safe_passes_then; [done..|]. intros ok. case_match; [by apply safe_ret|].
  eapply safe_bind; [apply safe_incr|]. intros v' ->. apply safe_ret.
  rewrite u32_small; solve_range.
Qed.

Lemma safe_find_phase grp w :
  group_ok grp -> 0 <= w < 2 ^ 30 ->
  safe (find_phase grp w) (fun '(found, p, w') =>
    w' = w + 312 * p /\ if found : bool then 1 <= p <= 7 else p = 8).
Proof.
  intros Hg Hw.
  apply (safe_loop I (fun l => 0 <= l.1 <= 8 /\ l.2 = w + 312 * l.1) (fun l => Z.to_nat (8 - l.1)));
    [|solve_range..].
  intros [p w'] [Hp Hw']. destruct (Z.leb_spec p IO_DQS_EN_PHASE_MAX); [|apply safe_ret; solve_range].
  rewrite (u32_small (_ + IO_DELAY_PER_OPA_TAP)) by solve_range.
  destruct (Z.eqb_spec p 0); [apply safe_ret; solve_range|].
  apply safe_phase_then; [done|solve_range|]. apply safe_passes_then; [done..|].
  intros []; apply safe_ret; solve_range.
Qed.

Lemma safe_find_position grp v w :
  group_ok grp -> 0 <= w < 2 ^ 20 ->
  safe (find_position grp v w) (fun '(found, i, v', p, w') =>
    if found : bool then 0 <= i < 16 /\ 1 <= p <= 7 /\ w' = w + 2496 * i + 312 * p else i = 16).
Proof.
  intros Hg Hw.
  apply (safe_loop I (fun '(i, v, p, w') => 0 <= i <= 16 /\ w' = w + 2496 * i)
           (fun l => Z.to_nat (16 - l.1.1.1))); [|solve_range..].
  intros [[[i v'] p] w'] [Hi ->]. destruct (Z.ltb_spec i VFIFO_SIZE); [|apply safe_ret; solve_range].
  eapply safe_bind; [apply safe_find_phase; [done|solve_range]|].
  intros [[[] p'] w'] [-> Hp]; [apply safe_ret; solve_range|].
  apply (safe_bind _ _ _ (fun _ => True)).
  { case_match; [eapply safe_mono; [apply safe_incr|done]|by apply safe_ret]. }
  intros v'' _. apply safe_ret. solve_range.
Qed.

Lemma safe_find_begin grp v :
  group_ok grp ->
  safe (find_begin grp 12 v) (fun '(d, i, v', p, w) =>
    i < 16 -> 0 <= i /\ 0 <= d <= 12 /\ 1 <= p <= 7 /\ w = 25 * d + 2496 * i + 312 * p).
Proof.
  intros Hg.
  apply (safe_loop I (fun '(d, t, i, v, p, w) => 0 <= d <= 13 /\ t = 25 * d /\ (d = 0 \/ i = 16))
           (fun l => Z.to_nat (13 - l.1.1.1.1.1))); [|solve_range..].
  intros [[[[[d t] i] v'] p] w] (Hd & -> & Hi).
  destruct (Z.leb_spec d 12); [|apply safe_ret; solve_range].
  apply safe_delay_then; [done|solve_range|].
  eapply safe_bind; [apply safe_find_position; [done|lia]|].
  intros [[[[[] i'] v''] p'] w'] Hr; apply safe_ret; [solve_range|].
  rewrite u32_small; solve_range.
Qed.

Lemma safe_previous_phase grp v p :
  0 <= p <= 7 -> safe (previous_phase grp v p) (fun r => r.2 = if p =? 0 then 7 else p - 1).
Proof.
  intros Hp. unfold previous_phase. case_match; [|by apply safe_ret].
  eapply safe_bind; [apply safe_decr|]. intros. by apply safe_ret.
Qed.

Lemma safe_next_phase grp v p : 0 <= p <= 7 -> safe (next_phase grp v p) (fun r => 0 <= r.2 <= 7).
Proof.
  intros Hp. unfold next_phase. cbv zeta. destruct (Z.ltb_spec IO_DQS_EN_PHASE_MAX (p + 1)).
  - eapply safe_bind; [apply safe_incr|]. intros. apply safe_ret. solve_range.
  - apply safe_ret. solve_range.
Qed.

Lemma safe_refine_begin grp t w :
  group_ok grp -> 312 <= t -> w < 2 ^ 20 ->
  safe (refine_begin grp t w) (fun r => from_option (fun t' => 312 <= t' < w) True r).
Proof.
  intros Hg Ht Hw.
  apply (safe_loop I (fun l => 0 <= l.1 <= 32 /\ 312 <= l.2) (fun l => Z.to_nat (32 - l.1)));
    [|solve_range..].
  intros [d t'] [Hd Ht'].
  destruct ((d <=? IO_DQS_EN_DELAY_MAX) && (t' <? w)) eqn:Hif; [|by apply safe_ret].
  apply andb_true_iff in Hif as [Hle%Z.leb_le Hlt%Z.ltb_lt].
  apply safe_delay_then; [done|solve_range|]. apply safe_passes_then; [done..|].
  intros []; apply safe_ret; [solve_range|]. rewrite u32_small; solve_range.
Qed.

Lemma safe_find_end_phase grp p0 w0 e0 j0 :
  group_ok grp -> 0 <= p0 <= 7 -> 312 <= w0 < 2 ^ 19 -> 312 <= e0 < 2 ^ 18 ->
  safe (find_end_phase grp p0 w0 e0 j0) (fun '(found, p, w, e, j) =>
    312 <= w < 2 ^ 19 /\ e0 <= e <= e0 + 2496 /\ if found : bool then 1 <= p <= 7 else p = 8).
Proof.
  intros Hg Hp0 Hw0 He0.
  apply (safe_loop I (fun '(p, w, e, j) => p0 <= p <= 8 /\ 312 <= w < 2 ^ 19 /\ e = e0 + 312 * (p - p0))
           (fun l => Z.to_nat (8 - l.1.1.1))); [|solve_range..].
  intros [[[p w] e] j] (Hp & Hw & ->).
  destruct (Z.leb_spec p IO_DQS_EN_PHASE_MAX); [|apply safe_ret; solve_range].
  rewrite !(u32_small (_ + IO_DELAY_PER_OPA_TAP)) by solve_range.
  destruct (Z.eqb_spec p 0); [apply safe_ret; solve_range|].
  apply safe_phase_then; [done|solve_range|]. apply safe_passes_then; [done..|].
  intros []; simpl; [|case_match]; apply safe_ret; solve_range.
Qed.

Lemma safe_find_end grp i0 v0 p0 w0 e0 :
  group_ok grp -> 0 <= i0 -> 0 <= p0 <= 7 -> 312 <= w0 < 2 ^ 19 -> 312 <= e0 < 2 ^ 17 ->
  safe (find_end grp i0 v0 p0 w0 e0) (fun '(i, v, p, w, e) =>
    i < 17 -> 1 <= p <= 7 /\ 312 <= w < 2 ^ 19 /\ e0 <= e < 2 ^ 18).
Proof.
  intros Hg Hi0 Hp0 Hw0 He0.
  apply (safe_loop I
           (fun '(i, v, p, w, e, j) => i0 <= i <= Z.max i0 17 /\ 0 <= p <= 7 /\ 312 <= w < 2 ^ 19 /\
              e0 <= e <= e0 + 2496 * (i - i0))
           (fun l => Z.to_nat (17 - l.1.1.1.1.1))); [|solve_range..].
  intros [[[[[i v] p] w] e] j] (Hi & Hp & Hw & He).
  destruct (Z.ltb_spec i (VFIFO_SIZE + 1)); [|apply safe_ret; solve_range].
  eapply safe_bind; [apply safe_find_end_phase; [done|done|done|solve_range]|].
  intros [[[[[] p'] w'] e'] j'] (Hw' & He' & Hp'); [apply safe_ret; solve_range|].
  apply (safe_bind _ _ _ (fun r => 0 <= r.2 <= 7)).
  - subst p'. eapply safe_bind; [apply safe_incr|]. intros. apply safe_ret. solve_range.
  - intros [v' p''] Hp''. apply safe_ret. solve_range.
Qed.

Lemma safe_phase_window grp i v p w :
  group_ok grp -> 0 <= i -> 1 <= p <= 7 -> 312 * p <= w < 2 ^ 16 ->
  safe (phase_window grp i v p w) (from_option (fun '(v', p', w', e') =>
    1 <= p' <= 7 /\ window_ok w' e') True).
Proof.
  intros Hg Hi Hp Hw. unfold phase_window. cbv zeta.
  eapply safe_bind; [apply safe_previous_phase; lia|]. intros [v1 p1] Hp1. simpl in Hp1.
  destruct (Z.eqb_spec p 0) as [|_]; [lia|].
  destruct (if p1 =? 0 then _ else _) as [p2 t] eqn:Hpt.
  assert (1 <= p2 <= 7 /\ 312 <= t) as [Hp2 Ht].
  { revert Hpt. destruct (Z.eqb_spec p1 0); intros [= <- <-]; [lia|]. rewrite u32_small; solve_range. }
  apply safe_phase_then; [done|solve_range|].
  eapply safe_bind; [apply safe_refine_begin; [done|done|lia]|]. intros begin Hbegin.
  assert (312 <= default w begin <= w) as Hw' by (destruct begin; simpl in *; lia).
  eapply safe_bind; [apply safe_next_phase; lia|]. intros [v3 p3] Hp3.
  apply safe_delay_then; [done|solve_range|].
  rewrite (u32_small (w + IO_DELAY_PER_OPA_TAP)) by solve_range.
  eapply safe_bind; [apply safe_next_phase; exact Hp3|]. intros [v4 p4] Hp4.
  eapply safe_bind; [apply safe_find_end; [done|done|exact Hp4|lia|solve_range]|].
  intros [[[[i' v5] p5] w5] e5] Hend. destruct (Z.leb_spec (VFIFO_SIZE + 1) i'); [by apply safe_ret|].
  destruct Hend as (Hp5 & Hw5 & He5); [solve_range|]. simpl in Hp4.
  rewrite !(u32_small (e5 - IO_DELAY_PER_OPA_TAP)) by solve_range.
  assert (exists p6 e6, (if p5 =? 1 then (0, e5 - IO_DELAY_PER_OPA_TAP) else (p5, e5)) = (p6, e6) /\
            (p6 = 0 \/ 2 <= p6 <= 7) /\ 312 <= e6 < 2 ^ 18) as (p6 & e6 & -> & Hp6 & He6).
  { destruct (Z.eqb_spec p5 1); eexists _, _; (split; [reflexivity|]); solve_range. }
  eapply safe_bind; [apply safe_previous_phase; lia|]. intros [v7 p7] Hp7. simpl in Hp7.
  rewrite (u32_small (e6 - IO_DELAY_PER_OPA_TAP)) by solve_range.
  assert (1 <= p7 <= 7) by (destruct (Z.eqb_spec p6 0); lia).
  apply safe_phase_then; [done|solve_range|]. apply safe_ret. unfold window_ok. solve_range.
Qed.

Lemma safe_extend_end grp d0 e0 :
  group_ok grp -> 0 <= d0 <= 32 -> 0 <= e0 < 2 ^ 20 ->
  safe (extend_end grp d0 e0) (fun r => d0 <= r.1 <= 32 /\ r.2 = e0 + 25 * (r.1 - d0)).
Proof.
  intros Hg Hd He.
  apply (safe_loop I (fun l => d0 <= l.1 <= 32 /\ l.2 = e0 + 25 * (l.1 - d0))
           (fun l => Z.to_nat (32 - l.1))); [|solve_range..].
  intros [d e] [Hd' He']. destruct (Z.leb_spec d IO_DQS_EN_DELAY_MAX); [|apply safe_ret; solve_range].
  apply safe_delay_then; [done|solve_range|]. apply safe_passes_then; [done..|].
  intros []; apply safe_ret; [|solve_range]. rewrite u32_small; solve_range.
Qed.

Lemma safe_scan_delay grp d0 wanted :
  group_ok grp -> 0 <= d0 -> safe (scan_delay grp d0 wanted) (fun r => d0 <= r.2 /\ (r.1 = true -> r.2 <= 31)).
Proof.
  intros Hg Hd.
  apply (safe_loop I (fun d => d0 <= d) (fun d => Z.to_nat (32 - d))); [|solve_range..].
  intros d Hd'. destruct (Z.leb_spec d IO_DQS_EN_DELAY_MAX); [|by apply safe_ret].
  apply safe_delay_then; [done|solve_range|]. apply safe_passes_then; [done..|].
  intros ok. case_match; apply safe_ret; solve_range.
Qed.

Lemma safe_measure_dtaps grp v p d n :
  group_ok grp -> 0 <= p <= 7 -> 0 <= d -> safe (measure_dtaps grp v p d n) (fun _ => True).
Proof.
  intros Hg Hp Hd. unfold measure_dtaps.
  apply (safe_bind _ _ _ (fun r => 0 <= r.2 <= 7)).
  { destruct (Z.eqb_spec p 0), (Z.eqb_spec p 1); simpl;
      try (eapply safe_bind; [apply safe_decr|intros]); apply safe_ret; solve_range. }
  intros [v' p'] Hp'. simpl in Hp'. apply safe_phase_then; [done|solve_range|].
  eapply safe_bind; [by apply safe_scan_delay|]. intros [found d1] [Hd1 _]. simpl in Hd1.
  apply (safe_bind _ _ _ (fun _ => True)).
  { destruct found; [|by apply safe_ret]. eapply safe_mono; [apply safe_scan_delay; [done|lia]|done]. }
  intros [found' d2] _. apply safe_then; [by apply safe_plain|by apply safe_ret].
Qed.

Lemma safe_find_centre_position grp v :
  group_ok grp -> safe (find_centre_position grp v) (fun _ => True).
Proof.
  intros Hg.
  apply (safe_loop I (fun l => 0 <= l.1) (fun l => Z.to_nat (16 - l.1))); [|solve_range..].
  intros [i v'] Hi. destruct (Z.ltb_spec i VFIFO_SIZE); [|by apply safe_ret].
  apply safe_passes_then; [done..|]. intros []; [by apply safe_ret|].
  eapply safe_bind; [apply safe_incr|]. intros v'' _. apply safe_ret. solve_range.
Qed.

Lemma safe_window_of grp d i v p w n :
  group_ok grp -> 0 <= d <= 12 -> 0 <= i -> 1 <= p <= 7 -> 312 * p <= w < 2 ^ 16 ->
  safe (window_of grp d i v p w n) (fun _ => True).
Proof.
  intros Hg Hd Hi Hp Hw. unfold window_of.
  apply (safe_bind _ _ _ (from_option (fun '(v', p', w', e') => 1 <= p' <= 7 /\ window_ok w' e' /\
                            (d = 0 \/ 312 <= e')) True)).
  { destruct (Z.eqb_spec d 0).
    - eapply safe_mono; [by apply safe_phase_window|].
      intros [[[[v' p'] w'] e']|]; simpl; [|done]. intuition lia.
    - apply safe_ret. unfold window_ok. solve_range. }
  intros [[[[v1 p1] w1] e1]|]; simpl; [|by intros; apply safe_ret].
  unfold window_ok. intros (Hp1 & [Hw1 He1] & Hd1).
  eapply safe_bind; [apply safe_extend_end; [done|lia|lia]|]. intros [d2 e2] [Hd2 He2]. simpl in Hd2, He2.
  assert (exists e3, (if negb (d2 =? 0) then u32 (e2 - IO_DELAY_PER_DQS_EN_DCHAIN_TAP) else e2) = e3 /\
            e3 < 2 ^ 21) as (e3 & -> & He3).
  { eexists. split; [reflexivity|]. destruct (Z.eqb_spec d2 0); simpl; [lia|].
    rewrite u32_small; solve_range. }
  destruct (Z.leb_spec w1 e3); [|by apply safe_ret].
  eapply safe_bind; [apply safe_measure_dtaps; [done|lia|lia]|]. intros v3 _.
  unfold centre_window. pose proof (centre_in_range w1 e3) as Hc.
  destruct (centre w1 e3) as [p4 d4]. destruct Hc as [Hp4 Hd4]; [solve_range|lia|].
  rewrite u32_small by solve_range.
  apply safe_phase_then; [done|lia|]. apply safe_delay_then; [done|done|].
  eapply safe_bind; [by apply safe_find_centre_position|]. intros. case_match; by apply safe_ret.
Qed.

Lemma safe_find_dqs_en_phase grp :
  group_ok grp -> safe (rw_mgr_mem_calibrate_vfifo_find_dqs_en_phase grp) (fun _ => True).
Proof.
  intros Hg. apply safe_then; [apply safe_reg_file_set_sub_stage; exact _|].
  apply safe_delay_then; [done|solve_range|]. apply safe_phase_then; [done|solve_range|].
  eapply safe_bind; [apply safe_dtaps|]. intros n ->.
  eapply safe_bind; [by apply safe_find_failing_read|]. intros v _. case_match; [by apply safe_ret|].
  eapply safe_bind; [by apply safe_find_begin|]. intros [[[[d i] v'] p] w] Hw.
  destruct (Z.leb_spec VFIFO_SIZE i); [by apply safe_ret|].
  destruct Hw as (Hi & Hd & Hp & ->); [solve_range|].
  apply safe_window_of; [done|solve_range..].
Qed.

End Safety.

(** ** The search *)

Section Search.
Context {D : Type} `{Avalon D}.
Local Abbreviation prog A := (M (Seq D) A).

(** The last thing a program did was the run of [m] with result [a]. *)
Definition ended_with {A} (m : prog A) (a : A) (s' : Seq D) : Prop := exists s1, m s1 = Val a s'.

Lemma wlp_ended {A} (m : prog A) s : wlp m (ended_with m) s.
Proof. intros a s' Heq. by exists s. Qed.

Lemma wlp_after {A B} (m : prog A) (k : A -> prog B) Q s :
  (forall a s', ended_with m a s' -> wlp (k a) Q s') -> wlp (bind m k) Q s.
Proof. intros Hk. apply wlp_bind. eapply wlp_mono; [apply wlp_ended|exact Hk]. Qed.

Lemma find_centre_position_reads grp v s :
  wlp (find_centre_position grp v)
    (fun i s' => i < VFIFO_SIZE -> ended_with (passes grp 1) true s') s.
Proof.
  apply (wlp_loop (fun _ _ => True)); [|done]. intros [i v'] s1 _.
  destruct (Z.ltb_spec i VFIFO_SIZE); [|apply wlp_ret; lia].
  apply wlp_after. intros [] s2 Hok; [by apply wlp_ret|].
  apply wlp_after. intros v'' s3 _. by apply wlp_ret.
Qed.

Lemma window_of_reads grp d i v p w n s :
  wlp (window_of grp d i v p w n) (fun r s' => r <> 0 -> ended_with (passes grp 1) true s') s.
Proof.
  unfold window_of. apply wlp_after. intros [[[[v1 p1] w1] e1]|] s1 _; [|by apply wlp_ret].
  apply wlp_after. intros [d2 e2] s2 _. case_match; [|by apply wlp_ret].
  apply wlp_after. intros v3 s3 _. unfold centre_window. destruct (centre _ _) as [p4 d4].
  do 2 (apply wlp_after; intros ? ? _). apply wlp_bind.
  eapply wlp_mono; [apply find_centre_position_reads|]. intros i' s4 Hi.
  destruct (Z.leb_spec VFIFO_SIZE i'); apply wlp_ret; [done|]. intros _. by apply Hi.
Qed.

Lemma find_dqs_en_phase_reads grp s :
  wlp (rw_mgr_mem_calibrate_vfifo_find_dqs_en_phase grp)
    (fun r s' => r <> 0 -> ended_with (passes grp 1) true s') s.
Proof.
  do 3 (apply wlp_after; intros ? ? _). apply wlp_after; intros n s1 _.
  apply wlp_after; intros v s2 _. case_match; [by apply wlp_ret|].
  apply wlp_after; intros [[[[d i] v'] p] w] s3 _. case_match; [by apply wlp_ret|].
  apply window_of_reads.
Qed.

(** C34: the search for the phase of a read strobe always ends, whatever the
device answers, and never writes a delay or a phase that the registers do not
have; it reports success only right after a read test that passed with the
setting it leaves. *)
Theorem find_dqs_en_phase_correct (I : D -> Prop) `{!TapInvariant D I} grp s :
  calm I s -> group_ok grp ->
  wp (rw_mgr_mem_calibrate_vfifo_find_dqs_en_phase grp)
    (fun r s' => calm I s' /\ (r <> 0 -> ended_with (passes grp 1) true s')) no_exit s.
Proof.
  intros Hs Hg. pose proof (safe_find_dqs_en_phase I grp Hg s Hs) as Hsafe.
  pose proof (find_dqs_en_phase_reads grp s) as Hreads. unfold wp in *.
  destruct (rw_mgr_mem_calibrate_vfifo_find_dqs_en_phase grp s) eqn:Heq; [|done..].
  split; [apply Hsafe|]. by apply Hreads.
Qed.

End Search.

(** ** A strobe to search for

A group whose reads work when the enable, at a FIFO position, a phase and a
delay, comes within a window of picoseconds. *)

Record Strobe := mkStrobe { st_position : Z; st_phase : Z; st_delay : Z }.

Definition strobe_works (d : Strobe) : bool :=
  let t := st_position d * 2496 + st_phase d * IO_DELAY_PER_OPA_TAP
           + st_delay d * IO_DELAY_PER_DQS_EN_DCHAIN_TAP in
  (6000 <=? t) && (t <? 7300).

#[export] Instance strobe_bus : Avalon Strobe := {|
  avl_read a d := (if (a =? BASE_RW_MGR) && negb (strobe_works d) then 0xff else 0, d);
  avl_write a v d :=
    if a =? PHY_MGR_CMD_INC_VFIFO_HARD_PHY
    then mkStrobe ((st_position d + 1) mod VFIFO_SIZE) (st_phase d) (st_delay d)
    else if a =? SCC_MGR_DQS_EN_PHASE then mkStrobe (st_position d) v (st_delay d)
    else if a =? SCC_MGR_DQS_EN_DELAY then mkStrobe (st_position d) (st_phase d) v
    else d
|}.

Definition strobe_in_range (d : Strobe) : Prop :=
  st_phase d <= IO_DQS_EN_PHASE_MAX /\ st_delay d <= IO_DQS_EN_DELAY_MAX.

#[export] Instance strobe_taps : TapInvariant Strobe strobe_in_range.
Proof.
  split; [done| | |].
  { intros a d m _ Hm. simpl. destruct (Z.eqb_spec a BASE_RW_MGR) as [->|]; [done|].
    simpl. by apply tap_limit_nonneg in Hm. }
  { done. }
  intros a v d Hok [Hp Hd]. unfold tap_ok in Hok. simpl.
  destruct (Z.eqb_spec a PHY_MGR_CMD_INC_VFIFO_HARD_PHY); [done|].
  destruct (Z.eqb_spec a SCC_MGR_DQS_EN_PHASE) as [->|]; [split; [by apply andb_prop, proj2, Z.leb_le in Hok|done]|].
  destruct (Z.eqb_spec a SCC_MGR_DQS_EN_DELAY) as [->|]; [split; [done|by apply andb_prop, proj2, Z.leb_le in Hok]|done].
Qed.

Definition calibration_masks : param_t := mkParam 0xff 0xff 0xff 0xff 0xff [0] 0 [0].
Definition no_globals : gbl_t := mkGbl 0 0 0 0 0 0 0 0 0.
Definition strobe_start : Seq Strobe := mkSeq (mkStrobe 0 0 0) no_globals calibration_masks 0 0xff.

Example search_succeeds :
  match rw_mgr_mem_calibrate_vfifo_find_dqs_en_phase 0 strobe_start with
  | Val r s' => r = 1 /\ strobe_works (bus s') = true
  | _ => False
  end.
Proof. vm_compute. split; reflexivity. Qed.

Lemma find_dqs_en_phase_correct_witness :
  calm strobe_in_range strobe_start /\ group_ok 0 /\
  wp (rw_mgr_mem_calibrate_vfifo_find_dqs_en_phase 0)
    (fun r s' => calm strobe_in_range s' /\ (r <> 0 -> ended_with (passes 0 1) true s')) no_exit strobe_start.
Proof.
  assert (calm strobe_in_range strobe_start) as Hs by (repeat split; vm_compute; congruence).
  assert (group_ok 0) as Hg by (unfold group_ok; vm_compute; split; congruence).
  split; [exact Hs|]. split; [exact Hg|].
  apply (find_dqs_en_phase_correct strobe_in_range 0 strobe_start); [exact Hs|exact Hg].
Defined.
