(* ===== verification/SeqCentre.v ===== *)
(** * SeqCentre: centring the read strobe in the data window

[rw_mgr_mem_calibrate_vfifo_center] moves the delays of the data pins and of the
strobe to find, for each pin, how far the strobe can move left and right while
the pin is read correctly, and then sets all delays so that the strobe is in the
middle of every window.  The search and the shifting of the pins are shared with
the centring of writes in [SeqWrites.v].  A pair of edges is a [Pin]; an edge
that has not been found is one more than the largest delay. *)
From S2P Require Import Prelude SeqConfig SeqBase SeqScc SeqMem SeqTest SeqSafe SeqOps.

(** ** The edges of the pins *)

Record Pin := mkPin { left_edge : Z; right_edge : Z }.

#[export] Instance pin_inhabited : Inhabited Pin := populate (mkPin 0 0).

Definition set_left (z : Z) (e : Pin) : Pin := mkPin z (right_edge e).
Definition set_right (z : Z) (e : Pin) : Pin := mkPin (left_edge e) z.

(** [left_edge[i] = right_edge[i] = max + 1] for all pins. *)
Definition no_edges (n max : Z) : list Pin := replicate (Z.to_nat n) (mkPin (max + 1) (max + 1)).

(** [for (i = 0; ...; i++) { ... bit_chk & 1 ...; bit_chk = bit_chk >> 1; }] *)
Fixpoint each_pin (f : bool -> Pin -> Pin) (bit_chk : Z) (pins : list Pin) : list Pin :=
  match pins with
  | [] => []
  | e :: pins' => f (negb (Z.land bit_chk 1 =? 0)) e :: each_pin f (Z.shiftr bit_chk 1) pins'
  end.

(** A pin after the test with its own delay increased by [d]. *)
Definition left_step (max d : Z) (ok : bool) (e : Pin) : Pin :=
  if ok then set_left (s32 d) e
  else if left_edge e =? max + 1 then set_right (s32 (- (d + 1))) e else e.

(** A pin after the test with the delay of the strobe increased by [d]. *)
Definition right_step (max d : Z) (ok : bool) (e : Pin) : Pin :=
  if ok then set_right (s32 d) e
  else if negb (d =? 0) then
    (if right_edge e =? max + 1 then set_left (s32 (- (d + 1))) e else e)
  else if (right_edge e =? max + 1) && negb (left_edge e =? max + 1) then set_right (-1) e
  else if right_edge e =? max + 1 then set_left (s32 (- (d + 1))) e
  else e.

(** A right edge of a pin that was never right is forgotten. *)
Definition reset_right (max : Z) (e : Pin) : Pin :=
  if (left_edge e =? max + 1) && negb (right_edge e =? max + 1) then set_right (max + 1) e else e.

Definition has_left (max : Z) (e : Pin) : bool := negb (left_edge e =? max + 1).
Definition has_both (max : Z) (e : Pin) : bool :=
  negb (left_edge e =? max + 1) && negb (right_edge e =? max + 1).

(** The loop from the last pin down that sets a bit of [sticky_bit_chk] for each
pin that is [seen]. *)
Definition sticky_of (seen : Pin -> bool) (pins : list Pin) : Z :=
  foldr (fun e sticky_bit_chk =>
    let sticky_bit_chk := u32 (Z.shiftl sticky_bit_chk 1) in
    if seen e then Z.lor sticky_bit_chk 1 else sticky_bit_chk) 0 pins.

(** The first pin without both edges. *)
Fixpoint first_open (max : Z) (i : Z) (pins : list Pin) : option Z :=
  match pins with
  | [] => None
  | e :: pins' =>
      if (left_edge e =? max + 1) || (right_edge e =? max + 1) then Some i
      else first_open max (i + 1) pins'
  end.

(** ** The middle *)

(** [left_edge[i] - right_edge[i]] *)
Definition mid_of (pins : list Pin) (i : Z) : Z :=
  left_edge (pins !!! Z.to_nat i) - right_edge (pins !!! Z.to_nat i).

(** The smallest of them, and the first pin that has it. *)
Definition min_mid (n : Z) (pins : list Pin) : Z * Z :=
  foldl (fun '(mid_min, min_index) i =>
    let mid := mid_of pins i in
    if mid <? mid_min then (mid, i) else (mid_min, min_index)) (mid_of pins 0, 0) (c_range 1 n 1).

Definition half_mid (mid_min : Z) : Z := (if mid_min >? 0 then mid_min + 1 else mid_min) ÷ 2.

Section Centre.
Context {D : Type} `{Avalon D}.
Local Abbreviation prog A := (M (Seq D) A).

(** Empty on an interface without shadow registers. *)
Definition select_curr_shadow_reg_using_rank (rank : Z) : prog unit := ret tt.

(** ** The search for edges

The delay [d] goes up to [limit]; [try d] sets it and tests: it says whether no
pin is right any more, and which are.  The loop ends early when none is right
after all of them have been. *)
Definition sweep (limit mask : Z) (try : Z -> prog (bool * Z)) (step : Z -> bool -> Pin -> Pin)
    (at_stop : Z -> list Pin -> list Pin) (sticky : Z) (pins : list Pin) : prog (list Pin) :=
  loop (S (Z.to_nat (limit + 1))) (fun '(d, sticky_bit_chk, pins) =>
    if d <=? limit then
      let! '(stop, bit_chk) := try d in
      let sticky_bit_chk := Z.lor sticky_bit_chk bit_chk in
      if (stop : bool) && (sticky_bit_chk =? mask) then ret (inr (at_stop d pins))
      else ret (inl (u32 (d + 1), sticky_bit_chk, each_pin (step d) bit_chk pins))
    else ret (inr pins)) (0, sticky, pins).

(** ** Shifting the pins *)

(** The shift of pin [p], limited so that its delay stays in range: the register
is read each time, once with [i] for [p]. *)
Definition shift_of (max : Z) (read : Z -> prog Z) (p i shift_dq : Z) : prog Z :=
  let! r := read p in
  let! sum := int (shift_dq + s32 r) in
  if sum >? max then let! r := read i in ret (s32 (u32 (max - r)))
  else
    let! r := read p in
    let! sum := int (shift_dq + s32 r) in
    if sum <? 0 then let! r := read p in int (- s32 r)
    else ret shift_dq.

(** All the pins: the result is [(dq_margin, dqs_margin)]. *)
Definition shift_pins (n max : Z) (read : Z -> prog Z) (set_delay : Z -> Z -> prog unit)
    (pin_of : Z -> Z) (pins : list Pin) (min_index orig_mid_min mid_min : Z) : prog (Z * Z) :=
  for_fold (c_range 0 n 1) (max + 1, max + 1) (fun '(dq_margin, dqs_margin) i =>
    let p := pin_of i in
    let! shift_dq := shift_of max read p i
      ((mid_of pins i - mid_of pins min_index) ÷ 2 + (orig_mid_min - mid_min)) in
    let! r := read p in
    set_delay p (u32 (r + shift_dq)) ;;!
    scc_mgr_load_dq p ;;!
    let left := left_edge (pins !!! Z.to_nat i) - shift_dq + (- mid_min) in
    let right := right_edge (pins !!! Z.to_nat i) + shift_dq - (- mid_min) in
    ret (if left <? dq_margin then left else dq_margin,
         if right <? dqs_margin then right else dqs_margin)).

(** ** Reads *)

(** One test of the group, by reading or, after the writes are calibrated, by
writing: whether no pin is right, and which are.  A shift by the width of the
word or more is undefined. *)
Definition centre_test (use_read_test rank_bgn write_group read_group : Z) : prog (bool * Z) :=
  if negb (use_read_test =? 0) then
    let! '(ok, bit_chk) :=
      rw_mgr_mem_calibrate_read_test rank_bgn read_group NUM_READ_PB_TESTS PASS_ONE_BIT 0 0 in
    ret (ok =? 0, bit_chk)
  else
    let! '(_, bit_chk) := rw_mgr_mem_calibrate_write_test rank_bgn write_group 0 PASS_ONE_BIT 0 in
    let n := u32 (RW_MGR_MEM_DQ_PER_READ_DQS *
      u32 (read_group - u32 (write_group * RW_MGR_MEM_IF_READ_DQS_WIDTH) / RW_MGR_MEM_IF_WRITE_DQS_WIDTH)) in
    if n <? 32 then let bit_chk := Z.shiftr bit_chk n in ret (bit_chk =? 0, bit_chk) else undef.

Definition shift_dqs_en : bool := negb (IO_SHIFT_DQS_EN_WHEN_SHIFT_DQS =? 0).

(** The steps of the two searches: all pins, or the strobe, moved by [d]. *)
Definition try_dq_in (use_read_test rank_bgn write_group read_group test_bgn d : Z) : prog (bool * Z) :=
  scc_mgr_apply_group_dq_in_delay write_group test_bgn d ;;!
  IOWR_32DIRECT SCC_MGR_UPD 0 0 ;;!
  centre_test use_read_test rank_bgn write_group read_group.

Definition try_dqs_in (use_read_test rank_bgn write_group read_group start_dqs start_dqs_en d : Z) :
    prog (bool * Z) :=
  scc_mgr_set_dqs_bus_in_delay read_group (u32 (d + start_dqs)) ;;!
  (if shift_dqs_en then
     let delay := u32 (d + start_dqs_en) in
     scc_mgr_set_dqs_en_delay read_group
       (if IO_DQS_EN_DELAY_MAX <? delay then IO_DQS_EN_DELAY_MAX else delay)
   else ret tt) ;;!
  scc_mgr_load_dqs read_group ;;!
  IOWR_32DIRECT SCC_MGR_UPD 0 0 ;;!
  centre_test use_read_test rank_bgn write_group read_group.

(** The edges of all pins, from no edges: the pins first, then the strobe. *)
Definition find_read_edges (use_read_test rank_bgn write_group read_group test_bgn start_dqs start_dqs_en : Z) :
    prog (list Pin) :=
  let max := IO_IO_IN_DELAY_MAX in
  let! mask := gets (fun s => read_correct_mask (param s)) in
  let! pins := sweep max mask
    (try_dq_in use_read_test rank_bgn write_group read_group test_bgn) (left_step max)
    (fun _ pins => pins) 0 (no_edges RW_MGR_MEM_DQ_PER_READ_DQS max) in
  scc_mgr_apply_group_dq_in_delay write_group test_bgn 0 ;;!
  let pins := reset_right max <$> pins in
  sweep (u32 (IO_DQS_IN_DELAY_MAX - start_dqs)) mask
    (try_dqs_in use_read_test rank_bgn write_group read_group start_dqs start_dqs_en) (right_step max)
    (fun _ pins => pins) (sticky_of (has_both max) pins) pins.

(** No edge for pin [i]: the strobe goes back to where it was. *)
Definition read_edge_failed (use_read_test read_group start_dqs start_dqs_en i : Z) : prog Z :=
  scc_mgr_set_dqs_bus_in_delay read_group start_dqs ;;!
  (if shift_dqs_en then scc_mgr_set_dqs_en_delay read_group start_dqs_en else ret tt) ;;!
  scc_mgr_load_dqs read_group ;;!
  IOWR_32DIRECT SCC_MGR_UPD 0 0 ;;!
  set_failing_group_stage (u32 (read_group * RW_MGR_MEM_DQ_PER_READ_DQS + i))
    (if negb (use_read_test =? 0) then CAL_STAGE_VFIFO else CAL_STAGE_VFIFO_AFTER_WRITES)
    CAL_SUBSTAGE_VFIFO_CENTER ;;!
  ret 0.

(** The new delay of the strobe and how far it moves left, [(new_dqs, mid_min)]. *)
Definition move_dqs (start_dqs start_dqs_en mid_min : Z) : prog (Z * Z) :=
  let! new_dqs := int (start_dqs - mid_min) in
  let new_dqs :=
    if new_dqs >? IO_DQS_IN_DELAY_MAX then IO_DQS_IN_DELAY_MAX
    else if new_dqs <? 0 then 0 else new_dqs in
  let! mid_min := int (start_dqs - new_dqs) in
  let mid_min :=
    if shift_dqs_en then
      (if start_dqs_en - mid_min >? IO_DQS_EN_DELAY_MAX
       then mid_min + (start_dqs_en - mid_min - IO_DQS_EN_DELAY_MAX)
       else if start_dqs_en - mid_min <? 0 then mid_min + (start_dqs_en - mid_min) else mid_min)
    else mid_min in
  let! new_dqs := int (start_dqs - mid_min) in
  ret (new_dqs, mid_min).

Definition add_fom_in (z : Z) (g : gbl_t) : gbl_t :=
  mkGbl (phy_debug_mode_flags g) (curr_read_lat g) (curr_write_lat g) (error_substage g)
    (error_stage g) (error_group g) (u32 (fom_in g + z)) (fom_out g) (rw_wl_nop_cycles g).

(** The delays that put the strobe in the middle, from the edges. *)
Definition centre_reads (write_group read_group test_bgn update_fom start_dqs start_dqs_en : Z)
    (pins : list Pin) : prog Z :=
  let '(mid_min, min_index) := min_mid RW_MGR_MEM_DQ_PER_READ_DQS pins in
  let orig_mid_min := half_mid mid_min in
  let! '(new_dqs, mid_min) := move_dqs start_dqs start_dqs_en orig_mid_min in
  let! '(dq_margin, dqs_margin) :=
    shift_pins RW_MGR_MEM_DQ_PER_READ_DQS IO_IO_IN_DELAY_MAX READ_SCC_DQ_IN_DELAY
      (fun p delay => scc_mgr_set_dq_in_delay write_group p delay) (fun i => u32 (test_bgn + i))
      pins min_index orig_mid_min mid_min in
  (if shift_dqs_en then
     scc_mgr_set_dqs_en_delay read_group (start_dqs_en - mid_min) ;;! scc_mgr_load_dqs read_group
   else ret tt) ;;!
  scc_mgr_set_dqs_bus_in_delay read_group new_dqs ;;!
  scc_mgr_load_dqs read_group ;;!
  (if negb (update_fom =? 0) then
     modify (fun s => set_gbl (add_fom_in
       ((dq_margin + dqs_margin) ÷ (RW_MGR_MEM_IF_READ_DQS_WIDTH / RW_MGR_MEM_IF_WRITE_DQS_WIDTH))
       (gbl s)) s)
   else ret tt) ;;!
  IOWR_32DIRECT SCC_MGR_UPD 0 0 ;;!
  ret (Z.b2z ((0 <=? dq_margin) && (0 <=? dqs_margin))).

Definition rw_mgr_mem_calibrate_vfifo_center
    (rank_bgn write_group read_group test_bgn use_read_test update_fom : Z) : prog Z :=
  let! start_dqs := READ_SCC_DQS_IN_DELAY read_group in
  let start_dqs := s32 start_dqs in
  let! start_dqs_en :=
    if shift_dqs_en then let! r := READ_SCC_DQS_EN_DELAY read_group in ret (s32 r) else ret 0 in
  select_curr_shadow_reg_using_rank rank_bgn ;;!
  let! pins :=
    find_read_edges use_read_test rank_bgn write_group read_group test_bgn start_dqs start_dqs_en in
  match first_open IO_IO_IN_DELAY_MAX 0 pins with
  | Some i => read_edge_failed use_read_test read_group start_dqs start_dqs_en i
  | None => centre_reads write_group read_group test_bgn update_fom start_dqs start_dqs_en pins
  end.

End Centre.

(** ** Safety

The edges stay within one more than the largest delay. *)

Definition pin_bounded (e : Pin) : Prop := -32 <= left_edge e <= 32 /\ -32 <= right_edge e <= 32.
Definition pins_bounded (n : nat) (pins : list Pin) : Prop := length pins = n /\ Forall pin_bounded pins.

Lemma length_each_pin f b pins : length (each_pin f b pins) = length pins.
Proof. revert b. induction pins as [|e pins IH]; intros b; simpl; [done|]. by rewrite IH. Qed.

Lemma Forall_each_pin (P : Pin -> Prop) f b pins :
  (forall ok e, P e -> P (f ok e)) -> Forall P pins -> Forall P (each_pin f b pins).
Proof. intros Hf Hpins. revert b. induction Hpins; intros b; simpl; constructor; auto. Qed.

Lemma left_step_bounded d ok e : 0 <= d <= 31 -> pin_bounded e -> pin_bounded (left_step 31 d ok e).
Proof.
  intros Hd [Hl Hr]. unfold left_step. repeat case_match; try done; split; simpl; try done;
    rewrite s32_small; lia.
Qed.

Lemma right_step_bounded d ok e : 0 <= d <= 31 -> pin_bounded e -> pin_bounded (right_step 31 d ok e).
Proof.
  intros Hd [Hl Hr]. unfold right_step. repeat case_match; try done; split; simpl; try done;
    rewrite ?s32_small; lia.
Qed.

Lemma no_edges_bounded : pins_bounded 8 (no_edges 8 31).
Proof. split; [done|]. by repeat constructor. Qed.

Lemma reset_bounded n pins : pins_bounded n pins -> pins_bounded n (reset_right 31 <$> pins).
Proof.
  intros [Hn Hp]. split; [by rewrite length_fmap|]. apply Forall_fmap. eapply Forall_impl; [exact Hp|].
  intros e [Hl Hr]. unfold compose, reset_right. case_match; by split.
Qed.

Lemma pins_lookup n pins i : pins_bounded n pins -> 0 <= i < Z.of_nat n -> pin_bounded (pins !!! Z.to_nat i).
Proof.
  intros [Hn Hp] Hi. destruct (lookup_lt_is_Some_2 pins (Z.to_nat i)) as [e He]; [lia|].
  rewrite (list_lookup_total_correct _ _ _ He). by eapply Forall_lookup_1.
Qed.

Lemma mid_bounded n pins i : pins_bounded n pins -> 0 <= i < Z.of_nat n -> -64 <= mid_of pins i <= 64.
Proof. intros Hp Hi. destruct (pins_lookup _ _ _ Hp Hi) as [Hl Hr]. unfold mid_of. lia. Qed.

Lemma min_mid_bounded pins : pins_bounded 8 pins ->
  -64 <= (min_mid 8 pins).1 <= 64 /\ 0 <= (min_mid 8 pins).2 < 8.
Proof.
  intros Hp. apply (foldl_inv (fun r => -64 <= r.1 <= 64 /\ 0 <= r.2 < 8)).
  - split; [by apply (mid_bounded 8)|done].
  - intros [m j] i Hi Hr. assert (0 <= i < 8) by (revert Hi; vm_compute c_range; set_solver by lia).
    cbv zeta. case_match; [|done]. split; [by apply (mid_bounded 8)|done].
Qed.

Section Safety.
Context {D : Type} `{Avalon D} (I : D -> Prop) `{!TapInvariant D I}.
Local Abbreviation prog A := (M (Seq D) A).
Local Abbreviation safe := (safe I).

Lemma safe_sweep n limit mask (try : Z -> prog (bool * Z)) step at_stop sticky pins :
  0 <= limit <= 31 -> pins_bounded n pins ->
  (forall d, 0 <= d <= limit -> safe (try d) (fun _ => True)) ->
  (forall d ok e, 0 <= d <= limit -> pin_bounded e -> pin_bounded (step d ok e)) ->
  (forall d ps, pins_bounded n ps -> pins_bounded n (at_stop d ps)) ->
  safe (sweep limit mask try step at_stop sticky pins) (pins_bounded n).
Proof.
  intros Hlimit Hpins Htry Hstep Hstop.
  apply (safe_loop I (fun l => 0 <= l.1.1 <= limit + 1 /\ pins_bounded n l.2)
           (fun l => Z.to_nat (limit + 1 - l.1.1))); simpl; [|lia|split; [lia|done]].
  intros [[d sticky'] ps] [Hd Hps]. simpl in *. destruct (Z.leb_spec d limit); [|by apply safe_ret].
  eapply (safe_bind I); [apply Htry; lia|]. intros [stop bit_chk] _. case_match; apply safe_ret.
  - by apply Hstop.
  - rewrite u32_small by lia. simpl. split; [|lia]. split; [lia|]. destruct Hps as [Hn Hps].
    split; [by rewrite length_each_pin|]. apply Forall_each_pin; [|done]. intros. apply Hstep; [lia|done].
Qed.

(** ** Shifts *)

Section Shift.
Variables (max : Z) (reg : Z -> Z) (read : Z -> prog Z) (p : Z).
Hypothesis read_is : forall q, read q = IORD_32DIRECT (reg q) (shl2 q).
Hypothesis tap : tap_limit (u32 (reg p + shl2 p)) = Some max.
Hypothesis max_small : 0 <= max < 2 ^ 16.

(** The shift that is applied keeps the delay within its range. *)
Lemma safe_shift {B} shift_dq (k : Z -> Z -> prog B) P :
  -1000 <= shift_dq <= 1000 ->
  (forall shift_dq' r, 0 <= r + shift_dq' <= max -> 0 <= r <= max -> safe (k shift_dq' r) P) ->
  safe (let! shift_dq' := shift_of max read p p shift_dq in let! r := read p in k shift_dq' r) P.
Proof.
  intros Hsh Hk s0 Hs0. set (a := u32 (reg p + shl2 p)) in *. set (v := tap_now a s0).
  assert (Hv : 0 <= v <= max) by by apply (tap_now_bound I a max).
  assert (Hread : forall s Q, calm I s -> tap_now a s = v ->
    (forall s', calm I s' -> tap_now a s' = v -> Q v s') -> wp (read p) Q no_exit s).
  { intros s Q Hs Hnow HQ. rewrite read_is. eapply (wp_tap_read I); [done|exact tap|]. fold a. rewrite Hnow. done. }
  apply wp_bind. unfold shift_of. apply wp_bind. apply Hread; [done|done|]. intros s1 Hs1 Hv1.
  rewrite (s32_small v) by lia. apply wp_bind, wp_int; [lia|].
  assert (Hend : forall s sh, calm I s -> tap_now a s = v -> 0 <= v + sh <= max ->
    wp (let! r := read p in k sh r) (fun b s' => calm I s' /\ P b) no_exit s).
  { intros s sh Hs Hnow Hin. apply wp_bind, Hread; [done|done|]. intros s' Hs' _. by apply Hk. }
  destruct (Z.gtb_spec (shift_dq + v) max).
  - apply wp_bind, Hread; [done|done|]. intros s2 Hs2 Hv2. apply wp_ret.
    rewrite u32_small, s32_small by lia. apply Hend; [done|done|lia].
  - apply wp_bind, Hread; [done|done|]. intros s2 Hs2 Hv2. rewrite (s32_small v) by lia.
    apply wp_bind, wp_int; [lia|]. destruct (Z.ltb_spec (shift_dq + v) 0).
    + apply wp_bind, Hread; [done|done|]. intros s3 Hs3 Hv3. rewrite (s32_small v) by lia.
      apply wp_int; [lia|]. apply Hend; [done|done|lia].
    + apply wp_ret. apply Hend; [done|done|lia].
Qed.

End Shift.

Lemma safe_shift_pins n max base (read : Z -> prog Z) set_delay pin_of pins min_index orig_mid_min mid_min :
  0 <= n <= 16 -> pins_bounded (Z.to_nat n) pins -> 0 <= min_index < n ->
  -300 <= orig_mid_min - mid_min <= 300 -> 0 <= max < 2 ^ 16 -> tap_bank base max 16 = true ->
  (forall q, read q = IORD_32DIRECT base (shl2 q)) ->
  (forall q d, pin_ok q -> 0 <= d <= max -> safe (set_delay q d) (fun _ => True)) ->
  (forall i, 0 <= i < n -> pin_of i = i) ->
  safe (shift_pins n max read set_delay pin_of pins min_index orig_mid_min mid_min) (fun _ => True).
Proof.
  intros Hn Hpins Hmin Hmid Hmax Hbank Hread Hset Hpin.
  apply (safe_for_fold I (fun _ => True)); [|done]. intros [dqm dqsm] i Hi%elem_of_range _. cbv zeta.
  rewrite Hpin by done.
  pose proof (mid_bounded _ pins i Hpins ltac:(lia)). pose proof (mid_bounded _ pins min_index Hpins ltac:(lia)).
  apply (safe_shift max (fun _ => base)); [done|by apply (tap_bank_limit _ _ 16); [|lia]|done| |].
  - Z.to_euclidean_division_equations; lia.
  - intros sh r Hin Hr. apply (safe_then I); [rewrite u32_small by lia; apply Hset; unfold pin_ok; lia|].
    apply (safe_then I); [apply (safe_load_dq I)|by apply safe_ret].
Qed.

(** ** The centring of reads is safe *)

Lemma safe_centre_test u g : group_ok g -> safe (centre_test u 0 g g) (fun _ => True).
Proof.
  intros Hg. unfold centre_test. case_match.
  - eapply (safe_bind I); [by apply (safe_read_test I)|]. intros [ok b] _. by apply safe_ret.
  - eapply (safe_bind I); [by apply (safe_write_test I)|]. intros [ok b] _. cbv zeta.
    replace (u32 (RW_MGR_MEM_DQ_PER_READ_DQS * _)) with 0 by (by case_group Hg). by apply safe_ret.
Qed.

Lemma safe_try_dq_in u g d : group_ok g -> 0 <= d <= 31 -> safe (try_dq_in u 0 g g 0 d) (fun _ => True).
Proof.
  intros Hg Hd. apply (safe_then I); [by apply (safe_group_dq_in I)|].
  apply (safe_then I); [by apply (safe_plain I)|by apply safe_centre_test].
Qed.

Lemma safe_try_dqs_in u g start en d : group_ok g -> 0 <= d -> 0 <= d + start <= 31 ->
  safe (try_dqs_in u 0 g g start en d) (fun _ => True).
Proof.
  intros Hg Hd Hs. unfold try_dqs_in. rewrite (u32_small (d + start)) by lia.
  apply (safe_then I); [by apply (safe_dqs_in I)|]. apply (safe_then I); [by apply safe_ret|].
  apply (safe_then I); [apply (safe_load_dqs I)|].
  apply (safe_then I); [by apply (safe_plain I)|by apply safe_centre_test].
Qed.

Lemma safe_find_read_edges u g start en : group_ok g -> 0 <= start <= 31 ->
  safe (find_read_edges u 0 g g 0 start en) (pins_bounded 8).
Proof.
  intros Hg Hs. apply (safe_gets_bind I). intros mask.
  eapply (safe_bind I).
  { apply (safe_sweep 8); [by vm_compute|apply no_edges_bounded| | |done].
    - intros d Hd. by apply safe_try_dq_in.
    - intros d ok e Hd. by apply left_step_bounded. }
  intros pins Hpins. apply (safe_then I); [by apply (safe_group_dq_in I)|]. cbv zeta.
  change IO_DQS_IN_DELAY_MAX with 31. rewrite u32_small by lia.
  apply safe_sweep; [lia|by apply reset_bounded| | |done].
  - intros d Hd. apply safe_try_dqs_in; [done|lia|lia].
  - intros d ok e Hd. apply right_step_bounded. lia.
Qed.

Lemma safe_read_edge_failed u g start en i : group_ok g -> 0 <= start <= 31 ->
  safe (read_edge_failed u g start en i) is_bit.
Proof.
  intros Hg Hs. apply (safe_then I); [by apply (safe_dqs_in I)|]. apply (safe_then I); [by apply safe_ret|].
  safe_run.
Qed.

(** The strobe stays within its delays. *)
Lemma move_dqs_run start en mid_min (s : Seq D) :
  0 <= start <= 31 -> -64 <= mid_min <= 64 ->
  exists new_dqs mid, move_dqs start en mid_min s = Val (new_dqs, mid) s /\
    new_dqs = Z.max 0 (Z.min 31 (start - mid_min)) /\ mid = start - new_dqs.
Proof.
  intros Hs Hm. set (new := Z.max 0 (Z.min 31 (start - mid_min))).
  exists new, (start - new). split; [|done]. unfold move_dqs, bind, int.
  rewrite in_s32_true by lia. cbn [ret]. change IO_DQS_IN_DELAY_MAX with 31. change shift_dqs_en with false.
  cbv iota. unfold ret.
  replace (if start - mid_min >? 31 then 31 else if start - mid_min <? 0 then 0 else start - mid_min) with new
    by (subst new; repeat case_match; lia).
  rewrite in_s32_true by lia. replace (start - (start - new)) with new by lia.
  rewrite in_s32_true by lia. done.
Qed.

Lemma half_mid_bounded m : -64 <= m <= 64 -> -64 <= half_mid m <= 64.
Proof. intros. unfold half_mid. case_match; Z.to_euclidean_division_equations; lia. Qed.

Lemma safe_centre_reads g fom start en pins : group_ok g -> 0 <= start <= 31 -> pins_bounded 8 pins ->
  safe (centre_reads g g 0 fom start en pins) is_bit.
Proof.
  intros Hg Hs Hpins. unfold centre_reads. change RW_MGR_MEM_DQ_PER_READ_DQS with 8.
  destruct (min_mid_bounded pins Hpins) as [Hm Hj]. destruct (min_mid 8 pins) as [m j]. simpl in Hm, Hj.
  pose proof (half_mid_bounded m Hm) as Hh.
  apply (safe_bind I _ _ (fun r => 0 <= r.1 <= 31 /\ r.2 = start - r.1)).
  { intros s Hsafe. destruct (move_dqs_run start en (half_mid m) s Hs Hh) as (new & mid & Hrun & Hnew & Hmid).
    eapply wp_val; [exact Hrun|]. split; [done|]. simpl. lia. }
  intros [new mid] [Hnew Hmid]. simpl in Hnew, Hmid.
  eapply (safe_bind I).
  { apply (safe_shift_pins 8 IO_IO_IN_DELAY_MAX SCC_MGR_IO_IN_DELAY);
      [lia|exact Hpins|exact Hj|lia|by vm_compute|vm_compute; reflexivity|reflexivity| |].
    - intros q d Hq Hd. by apply (safe_dq_in I).
    - intros i Hi. rewrite Z.add_0_l. apply u32_small. lia. }
  intros [dqm dqsm] _. apply (safe_then I); [by apply safe_ret|].
  apply (safe_then I); [by apply (safe_dqs_in I)|]. apply (safe_then I); [apply (safe_load_dqs I)|].
  apply (safe_then I); [case_match; [by apply (safe_modify I)|by apply safe_ret]|].
  apply (safe_then I); [by apply (safe_plain I)|]. apply safe_ret, b2z_cases.
Qed.

Lemma safe_vfifo_center g u fom : group_ok g ->
  safe (rw_mgr_mem_calibrate_vfifo_center 0 g g 0 u fom) is_bit.
Proof.
  intros Hg. eapply (safe_bind I); [by apply (safe_read_dqs_in I)|]. intros start Hs. cbv beta zeta in *.
  rewrite s32_small by lia. apply (safe_bind I _ _ (fun _ => True)); [by apply safe_ret|]. intros en _.
  apply (safe_then I); [by apply safe_ret|].
  eapply (safe_bind I); [by apply safe_find_read_edges|]. intros pins Hpins.
  case_match; [by apply safe_read_edge_failed|by apply safe_centre_reads].
Qed.

End Safety.

#[export] Hint Resolve safe_vfifo_center : safe.
