(* ===== verification/SeqEye.v ===== *)
(** * SeqEye: what the centring finds on pins with eyes

A pin has an eye: it is read correctly when its delay, relative to the strobe's,
is in an interval.  For such pins the two searches of [SeqCentre.v] find the
edges of every eye, and the centring leaves the strobe in the middle of each. *)
From S2P Require Import Prelude SeqConfig SeqBase SeqScc SeqMem SeqTest SeqSafe SeqOps SeqPhase SeqCentre.

(** ** Words of bits, the first one lowest *)

Definition bits (l : list bool) : Z := foldr (fun b w => 2 * w + Z.b2z b) 0 l.

Lemma bits_cons b l : bits (b :: l) = 2 * bits l + Z.b2z b.
Proof. done. Qed.

Lemma low_bit w b : negb (Z.land (2 * w + Z.b2z b) 1 =? 0) = b.
Proof.
  change 1 with (Z.ones 1) at 1. rewrite Z.land_ones by lia. change (2 ^ 1) with 2.
  rewrite Z.add_comm, Z.mul_comm, Z.mod_add by lia. by destruct b.
Qed.

Lemma high_bits w b : Z.shiftr (2 * w + Z.b2z b) 1 = w.
Proof.
  rewrite Z.shiftr_div_pow2 by lia. change (2 ^ 1) with 2.
  rewrite Z.add_comm, Z.mul_comm, Z.div_add by lia. by destruct b.
Qed.

Lemma lor_double x y a b : Z.lor (2 * x + Z.b2z a) (2 * y + Z.b2z b) = 2 * Z.lor x y + Z.b2z (a || b).
Proof.
  apply Z.bits_inj'. intros n Hn. rewrite Z.lor_spec.
  destruct (Z.eq_dec n 0) as [->|]; [by rewrite !Z.testbit_0_r|].
  replace n with (Z.succ (n - 1)) by lia. by rewrite !Z.testbit_succ_r, Z.lor_spec by lia.
Qed.

Lemma each_pin_bits f l pins : length l = length pins -> each_pin f (bits l) pins = zip_with f l pins.
Proof.
  revert pins. induction l as [|b l IH]; intros [|e pins] Hlen; try done.
  cbn [each_pin zip_with]. rewrite bits_cons, low_bit, high_bits. f_equal. apply IH. by injection Hlen.
Qed.

Lemma lor_bits l1 l2 : length l1 = length l2 -> Z.lor (bits l1) (bits l2) = bits (zip_with orb l1 l2).
Proof.
  revert l2. induction l1 as [|b l1 IH]; intros [|b2 l2] Hlen; try done.
  cbn [zip_with]. rewrite !bits_cons, lor_double, IH; [done|by injection Hlen].
Qed.

Lemma bits_inj l1 l2 : length l1 = length l2 -> bits l1 = bits l2 -> l1 = l2.
Proof.
  revert l2. induction l1 as [|b l1 IH]; intros [|b2 l2] Hlen; try done.
  rewrite !bits_cons. intros Heq. injection Hlen as Hlen.
  assert (b = b2) as -> by (rewrite <- (low_bit (bits l1) b), <- (low_bit (bits l2) b2); by rewrite Heq).
  f_equal. apply IH; [done|]. lia.
Qed.

Lemma bits_bound l : 0 <= bits l < 2 ^ Z.of_nat (length l).
Proof.
  induction l as [|b l IH]; [done|]. rewrite bits_cons, length_cons, Nat2Z.inj_succ, Z.pow_succ_r by lia.
  destruct b; simpl; lia.
Qed.

Lemma bits_fmap_zero {E} (f : E -> bool) es e : bits (f <$> es) = 0 -> e ∈ es -> f e = false.
Proof.
  intros Hz He. revert Hz. induction es as [|y es IH]; [by apply elem_of_nil in He|].
  rewrite fmap_cons, bits_cons. pose proof (bits_bound (f <$> es)). intros Hz.
  apply elem_of_cons in He as [->|He]; [|apply IH; [done|]]; destruct (f y); simpl in *; lia || done.
Qed.

Lemma bits_all_true {E} (f : E -> bool) es e :
  bits (f <$> es) = bits ((fun _ => true) <$> es) -> e ∈ es -> f e = true.
Proof.
  intros Heq He. apply bits_inj in Heq; [|by rewrite !length_fmap].
  apply list_elem_of_lookup_1 in He as [i Hi].
  assert (Hl : (f <$> es) !! i = ((fun _ => true) <$> es) !! i) by by rewrite Heq.
  rewrite !list_lookup_fmap, Hi in Hl. by injection Hl.
Qed.

Lemma sticky_of_bits seen pins :
  (length pins <= 31)%nat -> sticky_of seen pins = bits (seen <$> pins).
Proof.
  induction pins as [|e pins IH]; intros Hlen; [done|]. cbn [sticky_of foldr fmap list_fmap] in *.
  rewrite bits_cons. unfold sticky_of in IH. rewrite IH by (simpl in Hlen; lia).
  pose proof (bits_bound (seen <$> pins)) as Hb. rewrite length_fmap in Hb.
  assert (2 ^ Z.of_nat (length pins) <= 2 ^ 30) by (apply Z.pow_le_mono_r; simpl in Hlen; lia).
  rewrite Z.shiftl_mul_pow2, u32_small, Z.mul_comm by lia. change (2 ^ 1) with 2.
  destruct (seen e); simpl; [|lia].
  pose proof (lor_double (bits (seen <$> pins)) 0 false true) as Hlor.
  rewrite Z.lor_0_r, Z.add_0_r in Hlor. exact Hlor.
Qed.

(** The pins without an error, of the word of the errors. *)
Lemma good_bits l : length l = 8%nat ->
  Z.land 0xff (Z.land 0xff (u32 (Z.lnot (u32 (bits (negb <$> l)))))) = bits l.
Proof.
  intros Hl. do 8 (destruct l as [|[] l]; [done|..|]); try (destruct l; [reflexivity|done]).
Qed.

(** ** A search over pins that behave

[ok d e]: whether a pin with eye [e] is right at step [d]; [st d e]: its edges
before that step; [seen d e]: whether its bit is set by then.  A pin whose bit is
set and that is wrong again has its final edges. *)
Section Sweep.
Context {D E : Type} `{Avalon D}.
Local Abbreviation prog A := (M (Seq D) A).
Variables (limit : Z) (try : Z -> prog (bool * Z)) (step : Z -> bool -> Pin -> Pin)
  (at_stop : Z -> list Pin -> list Pin).
Variables (ok seen : Z -> E -> bool) (st : Z -> E -> Pin) (es : list E) (Inv : Seq D -> Prop).
Hypothesis limit_small : 0 <= limit < 2 ^ 31.
Hypothesis try_spec : forall d s, 0 <= d <= limit -> Inv s ->
  wp (try d) (fun r s' => Inv s' /\ r = (bits (ok d <$> es) =? 0, bits (ok d <$> es))) no_exit s.
Hypothesis step_spec : forall d e, 0 <= d <= limit -> e ∈ es -> step d (ok d e) (st d e) = st (d + 1) e.
Hypothesis seen_spec : forall d e, 0 <= d <= limit -> e ∈ es -> seen (d + 1) e = seen d e || ok d e.
Hypothesis final : forall d e, 0 <= d <= limit -> e ∈ es -> seen d e = true -> ok d e = false ->
  st d e = st (limit + 1) e.
Hypothesis stop_spec : forall d, 0 <= d <= limit ->
  (forall e, e ∈ es -> st d e = st (limit + 1) e) -> at_stop d (st d <$> es) = st d <$> es.

Lemma sweep_run s :
  Inv s ->
  wp (sweep limit (bits ((fun _ => true) <$> es)) try step at_stop (bits (seen 0 <$> es)) (st 0 <$> es))
    (fun pins s' => Inv s' /\ pins = st (limit + 1) <$> es) no_exit s.
Proof.
  intros Hs. apply (wp_loop (fun l s => Inv s /\ exists d, 0 <= d <= limit + 1 /\
      l = (d, bits (seen d <$> es), st d <$> es)) (fun l _ => Z.to_nat (limit + 1 - l.1.1)));
    simpl; [|lia|split; [done|exists 0; split; [lia|done]]].
  intros l s1 (Hs1 & d & Hd & ->). simpl. destruct (Z.leb_spec d limit).
  2: { apply wp_ret. split; [done|]. by replace d with (limit + 1) by lia. }
  apply wp_bind. eapply wp_mono; [apply try_spec; [lia|done]| |done].
  intros [stop b] s2 [Hs2 [= -> ->]]. rewrite lor_bits by by rewrite !length_fmap.
  assert (Hseen : zip_with orb (seen d <$> es) (ok d <$> es) = seen (d + 1) <$> es).
  { rewrite zip_with_fmap_l, zip_with_fmap_r, zip_with_diag. apply list_fmap_ext.
    intros i e He. symmetry. apply seen_spec; [lia|by eapply list_elem_of_lookup_2]. }
  assert (Hnext : (Inv s2 /\ exists d', 0 <= d' <= limit + 1 /\
      (u32 (d + 1), bits (seen (d + 1) <$> es), each_pin (step d) (bits (ok d <$> es)) (st d <$> es))
      = (d', bits (seen d' <$> es), st d' <$> es)) /\
    (Z.to_nat (limit + 1 - u32 (d + 1)) < Z.to_nat (limit + 1 - d))%nat).
  { rewrite u32_small by lia. split; [|lia]. split; [done|]. exists (d + 1). split; [lia|]. f_equal.
    rewrite each_pin_bits by by rewrite !length_fmap. rewrite zip_with_fmap_l, zip_with_fmap_r, zip_with_diag.
    apply list_fmap_ext. intros i e He. apply step_spec; [lia|by eapply list_elem_of_lookup_2]. }
  rewrite Hseen. destruct (Z.eqb_spec (bits (ok d <$> es)) 0) as [Hz|Hz]; simpl;
    [destruct (Z.eqb_spec (bits (seen (d + 1) <$> es)) (bits ((fun _ => true) <$> es))) as [Hall|]|]; apply wp_ret.
  - assert (Hst : forall e, e ∈ es -> st d e = st (limit + 1) e).
    { intros e He. pose proof (bits_fmap_zero _ _ e Hz He) as Hno. apply final; [lia|done| |done].
      pose proof (bits_all_true _ _ e Hall He) as Hyes. rewrite seen_spec, Hno, orb_false_r in Hyes by (lia || done). done. }
    split; [done|]. rewrite stop_spec by (lia || done). apply list_fmap_ext. intros i e He.
    apply Hst. by eapply list_elem_of_lookup_2.
  - exact Hnext.
  - exact Hnext.
Qed.

End Sweep.

(** ** Eyes

[reach_l] is how far the pin's own delay can grow, [reach_r] how far the
strobe's can, with the pin still right; one of them may be negative. *)
Record Eye := mkEye { reach_l : Z; reach_r : Z }.

(** The eye is not empty and within the delays: the pin's own up to 31, the
strobe's up to [limit] more than it is. *)
Definition eye_ok (limit : Z) (e : Eye) : Prop :=
  0 <= reach_l e + reach_r e /\ - limit <= reach_l e <= 31 /\ -31 <= reach_r e <= limit.

Definition left_ok (d : Z) (e : Eye) : bool := (- reach_r e <=? d) && (d <=? reach_l e).
Definition right_ok (d : Z) (e : Eye) : bool := (- reach_l e <=? d) && (d <=? reach_r e).

(** The edges during the first search: the first right step is at
[Z.max 0 (- reach_r e)], if the pin's own delay is enough. *)
Definition left_state (d : Z) (e : Eye) : Pin :=
  if (Z.max 0 (- reach_r e) <? d) && (Z.max 0 (- reach_r e) <=? reach_l e)
  then mkPin (Z.min (d - 1) (reach_l e)) (if reach_r e <? 0 then reach_r e else 32)
  else mkPin 32 (if d =? 0 then 32 else - d).
Definition left_seen (d : Z) (e : Eye) : bool :=
  (Z.max 0 (- reach_r e) <? d) && (Z.max 0 (- reach_r e) <=? reach_l e).

(** And during the second one. *)
Definition right_state (d : Z) (e : Eye) : Pin :=
  if reach_r e <? 0 then mkPin (reach_l e) (reach_r e)
  else if reach_l e <? 0 then
    (if d <=? - reach_l e then mkPin (if d =? 0 then 32 else - d) 32
     else mkPin (reach_l e) (Z.min (d - 1) (reach_r e)))
  else mkPin (reach_l e) (if d =? 0 then 32 else Z.min (d - 1) (reach_r e)).
Definition right_seen (d : Z) (e : Eye) : bool := (reach_r e <? 0) || (Z.max 0 (- reach_l e) <? d).

Ltac bool_cases :=
  repeat match goal with
  | |- context [?a <? ?b] => destruct (Z.ltb_spec a b)
  | |- context [?a <=? ?b] => destruct (Z.leb_spec a b)
  | |- context [?a =? ?b] =>
      lazymatch a with context [left_edge] => fail | context [right_edge] => fail | _ => destruct (Z.eqb_spec a b) end
  | |- _ => progress simpl
  end.

Lemma left_state_step limit d e : limit <= 31 -> eye_ok limit e -> 0 <= d <= 31 ->
  left_step 31 d (left_ok d e) (left_state d e) = left_state (d + 1) e.
Proof.
  intros Hlim (Hne & Hl & Hr) Hd. destruct e as [l r]. unfold left_step, left_ok, left_state, set_left, set_right. simpl in *.
  rewrite !s32_small by lia. bool_cases; try lia; f_equal; lia.
Qed.

Lemma left_seen_step limit d e : eye_ok limit e -> 0 <= d ->
  left_seen (d + 1) e = left_seen d e || left_ok d e.
Proof. intros (Hne & Hl & Hr) Hd. destruct e as [l r]. unfold left_seen, left_ok. simpl in *. bool_cases; lia. Qed.

Lemma left_final limit d e : eye_ok limit e -> 0 <= d <= 31 -> left_seen d e = true -> left_ok d e = false ->
  left_state d e = left_state 32 e.
Proof.
  intros (Hne & Hl & Hr) Hd. destruct e as [l r]. unfold left_seen, left_ok, left_state. simpl in *.
  bool_cases; try lia; intros; f_equal; lia.
Qed.

Lemma right_start limit e : limit <= 31 -> eye_ok limit e -> reset_right 31 (left_state 32 e) = right_state 0 e.
Proof.
  intros Hlim (Hne & Hl & Hr). destruct e as [l r]. unfold reset_right, left_state, right_state, set_right. simpl in *.
  bool_cases; try lia; f_equal; lia.
Qed.

Lemma right_seen_start e limit : eye_ok limit e -> has_both 31 (right_state 0 e) = right_seen 0 e.
Proof.
  intros (Hne & Hl & Hr). destruct e as [l r]. unfold has_both, right_state, right_seen. simpl in *.
  bool_cases; lia.
Qed.

Lemma right_state_step limit d e : limit <= 31 -> eye_ok limit e -> 0 <= d <= limit ->
  right_step 31 d (right_ok d e) (right_state d e) = right_state (d + 1) e.
Proof.
  intros Hlim (Hne & Hl & Hr) Hd. destruct e as [l r].
  unfold right_step, right_ok, right_state, set_left, set_right. simpl in *.
  rewrite !s32_small by lia. bool_cases; try lia; f_equal; lia.
Qed.

Lemma right_seen_step limit d e : eye_ok limit e -> 0 <= d ->
  right_seen (d + 1) e = right_seen d e || right_ok d e.
Proof. intros (Hne & Hl & Hr) Hd. destruct e as [l r]. unfold right_seen, right_ok. simpl in *. bool_cases; lia. Qed.

Lemma right_final limit d e : eye_ok limit e -> 0 <= d <= limit -> right_seen d e = true -> right_ok d e = false ->
  right_state d e = right_state (limit + 1) e.
Proof.
  intros (Hne & Hl & Hr) Hd. destruct e as [l r]. unfold right_seen, right_ok, right_state. simpl in *.
  bool_cases; try lia; intros; f_equal; lia.
Qed.

Lemma right_end limit e : eye_ok limit e -> right_state (limit + 1) e = mkPin (reach_l e) (reach_r e).
Proof.
  intros (Hne & Hl & Hr). destruct e as [l r]. unfold right_state. simpl in *. bool_cases; try lia; f_equal; lia.
Qed.

(** ** The smallest difference of the edges *)

Lemma foldl_min_le (f : Z -> Z) xs m j :
  let r := foldl (fun '(mid_min, min_index) i =>
    let mid := f i in if mid <? mid_min then (mid, i) else (mid_min, min_index)) (m, j) xs in
  r.1 <= m /\ forall i, i ∈ xs -> r.1 <= f i.
Proof.
  revert m j. induction xs as [|x xs IH]; intros m j; cbv zeta in *; simpl.
  - split; [lia|]. intros i Hi. by apply elem_of_nil in Hi.
  - destruct (Z.ltb_spec (f x) m) as [Hlt|Hge].
    + destruct (IH (f x) x) as [Hle Hall]. split; [lia|]. intros i [->|Hi]%elem_of_cons; [done|by apply Hall].
    + destruct (IH m j) as [Hle Hall]. split; [done|]. intros i [->|Hi]%elem_of_cons; [lia|by apply Hall].
Qed.

Lemma min_mid_le pins i : 0 <= i < 8 -> (min_mid 8 pins).1 <= mid_of pins i.
Proof.
  intros Hi. destruct (foldl_min_le (mid_of pins) (c_range 1 8 1) (mid_of pins 0) 0) as [H0 Hall].
  destruct (Z.eq_dec i 0) as [->|]; [exact H0|]. apply Hall. vm_compute c_range. set_unfold. lia.
Qed.

Lemma min_mid_index n pins : mid_of pins (min_mid n pins).2 = (min_mid n pins).1.
Proof.
  apply (foldl_inv (fun r => mid_of pins r.2 = r.1)); [done|]. intros [m j] i _ Hr. cbv zeta. by case_match.
Qed.

(** The middle of the eye [i], twice; the delays the centring aims at. *)
Section Goal.
Variables (start : Z) (e : Z -> Eye).

Definition found_edges : list Pin := (fun i => mkPin (reach_l (e i)) (reach_r (e i))) <$> seqZ 0 8.
Definition least_mid : Z := (min_mid 8 found_edges).1.
Definition strobe_goal : Z := Z.max 0 (Z.min 31 (start - half_mid least_mid)).
(** The pin's delay for a strobe that ends at [strobe]. *)
Definition pin_goal_at (strobe i : Z) : Z :=
  (reach_l (e i) - reach_r (e i) - least_mid) ÷ 2 + (half_mid least_mid - (start - strobe)).
Definition pin_goal (i : Z) : Z := pin_goal_at strobe_goal i.

Lemma found_lookup i : 0 <= i < 8 -> found_edges !!! Z.to_nat i = mkPin (reach_l (e i)) (reach_r (e i)).
Proof.
  intros Hi. apply list_lookup_total_correct. unfold found_edges.
  rewrite list_lookup_fmap, lookup_seqZ_lt by lia. simpl. by rewrite Z2Nat.id by lia.
Qed.

Lemma found_mid i : 0 <= i < 8 -> mid_of found_edges i = reach_l (e i) - reach_r (e i).
Proof. intros Hi. unfold mid_of. by rewrite found_lookup. Qed.

(** At the goal the two margins of a pin differ by at most one tap. *)
Lemma goal_balanced strobe i : 0 <= i < 8 ->
  let t := pin_goal_at strobe i - (strobe - start) in
  -1 <= (reach_l (e i) - t) - (reach_r (e i) + t) <= 1.
Proof.
  intros Hi. pose proof (min_mid_le found_edges i Hi) as Hmin. rewrite found_mid in Hmin by done.
  cbv zeta. unfold pin_goal_at. fold least_mid in Hmin.
  set (c := reach_l (e i) - reach_r (e i)) in *. set (m := least_mid) in *. unfold half_mid.
  destruct (Z.gtb_spec m 0); Z.to_euclidean_division_equations; lia.
Qed.

Lemma found_bounded limit : limit <= 31 -> (forall i, 0 <= i < 8 -> eye_ok limit (e i)) -> pins_bounded 8 found_edges.
Proof.
  intros Hlim Hok. split; [done|]. apply Forall_fmap, Forall_forall. intros i Hi%elem_of_seqZ.
  destruct (Hok i ltac:(lia)) as (Hne & Hl & Hr). unfold compose, pin_bounded. simpl. lia.
Qed.

Lemma found_closed limit : limit <= 31 -> (forall i, 0 <= i < 8 -> eye_ok limit (e i)) -> first_open 31 0 found_edges = None.
Proof.
  intros Hlim Hok. unfold found_edges.
  assert (forall xs k, (forall i, i ∈ xs -> 0 <= i < 8) ->
    first_open 31 k ((fun i => mkPin (reach_l (e i)) (reach_r (e i))) <$> xs) = None) as Hgen.
  { induction xs as [|x xs IH]; intros k Hxs; [done|]. simpl.
    destruct (Hok x (Hxs x ltac:(set_solver))) as (Hne & Hl & Hr).
    destruct (Z.eqb_spec (reach_l (e x)) (31 + 1)); [lia|]. destruct (Z.eqb_spec (reach_r (e x)) (31 + 1)); [lia|].
    apply IH. set_solver. }
  apply Hgen. intros i Hi%elem_of_seqZ. lia.
Qed.

(** The delays aimed at exist, if the middles of the eyes are not too far from
each other and from the strobe. *)
Lemma goal_range :
  0 <= start <= 31 -> (forall i, 0 <= i < 8 -> eye_ok (31 - start) (e i)) ->
  (forall i j, 0 <= i < 8 -> 0 <= j < 8 ->
     reach_l (e i) - reach_r (e i) - Z.min (2 * start) (reach_l (e j) - reach_r (e j)) <= 62) ->
  forall i, 0 <= i < 8 -> 0 <= pin_goal i <= 31.
Proof.
  intros Hst Hok Hskew i Hi. pose proof (min_mid_le found_edges i Hi) as Hmin.
  destruct (min_mid_bounded found_edges) as [_ Hj]; [apply (found_bounded (31 - start)); [lia|done]|].
  pose proof (min_mid_index 8 found_edges) as Hmid. rewrite !found_mid in * by done.
  fold least_mid in Hmin, Hmid. set (j := (min_mid 8 found_edges).2) in *.
  pose proof (Hskew i j Hi Hj). destruct (Hok i Hi) as (? & ? & ?). destruct (Hok j Hj) as (? & ? & ?).
  unfold pin_goal, pin_goal_at, strobe_goal, half_mid. set (m := least_mid) in *.
  destruct (Z.gtb_spec m 0); Z.to_euclidean_division_equations; lia.
Qed.

End Goal.

(** ** The two searches over eight eyes *)

Definition write_seen (d : Z) (e : Eye) : bool := (0 <=? reach_l e) || (- reach_l e <? d).

Lemma write_seen_start e limit : limit <= 31 -> eye_ok limit e -> has_left 31 (right_state 0 e) = write_seen 0 e.
Proof.
  intros Hlim (Hne & Hl & Hr). destruct e as [l r]. unfold has_left, right_state, write_seen. simpl in *.
  bool_cases; lia.
Qed.

Lemma write_seen_step limit d e : eye_ok limit e -> 0 <= d ->
  write_seen (d + 1) e = write_seen d e || right_ok d e.
Proof. intros (Hne & Hl & Hr) Hd. destruct e as [l r]. unfold write_seen, right_ok. simpl in *. bool_cases; lia. Qed.

Lemma write_final limit d e : eye_ok limit e -> 0 <= d <= limit -> write_seen d e = true -> right_ok d e = false ->
  right_state d e = right_state (limit + 1) e.
Proof.
  intros (Hne & Hl & Hr) Hd. destruct e as [l r]. unfold write_seen, right_ok, right_state. simpl in *.
  bool_cases; try lia; intros; f_equal; lia.
Qed.

Section Searches.
Context {D : Type} `{Avalon D}.
Local Abbreviation prog A := (M (Seq D) A).
Variables (e : Z -> Eye) (limit : Z) (try : Z -> prog (bool * Z)) (Inv : Seq D -> Prop).
Hypothesis limit_range : 0 <= limit <= 31.
Hypothesis eyes_ok : forall i, 0 <= i < 8 -> eye_ok limit (e i).

Definition eyes : list Eye := e <$> seqZ 0 8.

Lemma eyes_elem x : x ∈ eyes -> eye_ok limit x.
Proof. intros (i & -> & Hi)%list_elem_of_fmap. apply elem_of_seqZ in Hi. apply eyes_ok. lia. Qed.

Lemma eyes_ext {B} (f f' : Eye -> B) : (forall x, x ∈ eyes -> f x = f' x) -> f <$> eyes = f' <$> eyes.
Proof. intros Hf. apply list_fmap_ext. intros k x Hk%list_elem_of_lookup_2. by apply Hf. Qed.

(** The first search, of the pins. *)
Lemma left_sweep s :
  (forall d s, 0 <= d <= 31 -> Inv s -> wp (try d)
     (fun r s' => Inv s' /\ r = (bits (left_ok d <$> eyes) =? 0, bits (left_ok d <$> eyes))) no_exit s) ->
  Inv s ->
  wp (sweep 31 0xff try (left_step 31) (fun _ pins => pins) 0 (no_edges 8 31))
    (fun pins s' => Inv s' /\ pins = left_state 32 <$> eyes) no_exit s.
Proof.
  intros Htry Hs. change 0xff with (bits ((fun _ => true) <$> eyes)).
  enough (Hgen : forall sticky pins, sticky = bits (left_seen 0 <$> eyes) -> pins = left_state 0 <$> eyes ->
    wp (sweep 31 (bits ((fun _ => true) <$> eyes)) try (left_step 31) (fun _ pins => pins) sticky pins)
      (fun pins s' => Inv s' /\ pins = left_state 32 <$> eyes) no_exit s).
  { apply Hgen.
    - change 0 with (bits ((fun _ => false) <$> eyes)) at 1. f_equal. apply eyes_ext.
      intros x _. unfold left_seen. lia.
    - change (no_edges 8 31) with ((fun _ => mkPin 32 32) <$> eyes). apply eyes_ext.
      intros x _. unfold left_state. by destruct (Z.ltb_spec (Z.max 0 (- reach_r x)) 0); [lia|]. }
  intros ? ? -> ->. apply (sweep_run 31 _ _ _ left_ok left_seen left_state _ Inv); [lia|exact Htry|..|done|done].
  - intros d x Hd Hx. by apply (left_state_step limit); [lia|apply eyes_elem|].
  - intros d x Hd Hx. apply (left_seen_step limit); [by apply eyes_elem|lia].
  - intros d x Hd Hx. by apply (left_final limit); [apply eyes_elem|].
Qed.

(** The second search, of the strobe, with one of two ways to set the bits and to
stop. *)
Lemma right_sweep seen at_stop s :
  (forall d s, 0 <= d <= limit -> Inv s -> wp (try d)
     (fun r s' => Inv s' /\ r = (bits (right_ok d <$> eyes) =? 0, bits (right_ok d <$> eyes))) no_exit s) ->
  (forall d x, 0 <= d -> x ∈ eyes -> seen (d + 1) x = seen d x || right_ok d x) ->
  (forall d x, 0 <= d <= limit -> x ∈ eyes -> seen d x = true -> right_ok d x = false ->
     right_state d x = right_state (limit + 1) x) ->
  (forall d, at_stop d (found_edges e) = found_edges e) -> Inv s ->
  wp (sweep limit 0xff try (right_step 31) at_stop (bits (seen 0 <$> eyes)) (right_state 0 <$> eyes))
    (fun pins s' => Inv s' /\ pins = found_edges e) no_exit s.
Proof.
  intros Htry Hseen Hfinal Hstop Hs. change 0xff with (bits ((fun _ => true) <$> eyes)).
  assert (Hend : right_state (limit + 1) <$> eyes = found_edges e).
  { rewrite (eyes_ext _ (fun x => mkPin (reach_l x) (reach_r x))); [|intros x Hx; by apply right_end, eyes_elem].
    unfold eyes, found_edges. by rewrite <- list_fmap_compose. }
  rewrite <- Hend. apply (sweep_run limit _ _ _ right_ok seen right_state _ Inv); [lia|exact Htry|..|done].
  - intros d x Hd Hx. by apply (right_state_step limit); [lia|apply eyes_elem|].
  - intros d x Hd Hx. apply Hseen; [lia|done].
  - intros d x Hd Hx. by apply Hfinal.
  - intros d Hd Hall. rewrite (eyes_ext _ _ Hall), Hend. apply Hstop.
Qed.

(** Between the two. *)
Lemma reset_edges : reset_right 31 <$> (left_state 32 <$> eyes) = right_state 0 <$> eyes.
Proof.
  rewrite <- list_fmap_compose. apply eyes_ext. intros x Hx. unfold compose.
  apply (right_start limit); [lia|by apply eyes_elem].
Qed.

Lemma sticky_both : sticky_of (has_both 31) (right_state 0 <$> eyes) = bits (right_seen 0 <$> eyes).
Proof.
  rewrite sticky_of_bits by (simpl; lia). rewrite <- list_fmap_compose. f_equal. apply eyes_ext. intros x Hx.
  apply (right_seen_start _ limit). by apply eyes_elem.
Qed.

Lemma sticky_left : sticky_of (has_left 31) (right_state 0 <$> eyes) = bits (write_seen 0 <$> eyes).
Proof.
  rewrite sticky_of_bits by (simpl; lia). rewrite <- list_fmap_compose. f_equal. apply eyes_ext. intros x Hx.
  apply (write_seen_start _ limit); [lia|by apply eyes_elem].
Qed.

End Searches.

(** ** The scan chains

The delay of a pin is first written to a register of the SCC manager.  A write to an
enable register marks the pins whose chains are to be loaded, and only a write to
[SCC_MGR_UPD] loads the marked ones: until then a pin keeps the delay it had. *)

Record Link := mkLink { written : Z; marked : bool; applied : Z }.

(** The registers of the delays of a group, and which of them a write marks. *)
Record Chain := mkChain { chain_size : Z; delay_register : Z -> Z; marks : Z -> Z -> Z -> bool }.

Definition link_write (c : Chain) (i : Z) (l : Link) (w : Z * Z) : Link :=
  let '(a, v) := w in
  mkLink (if a =? delay_register c i then v else written l)
    (if a =? SCC_MGR_UPD then false else marks c i a v || marked l)
    (if a =? SCC_MGR_UPD then if marked l then written l else applied l else applied l).

(** The laws: writes act on the links as above, reading changes nothing of them, and
a register is read as it was written. *)
Class ScanChain (D : Type) `{Avalon D} (c : Chain) := {
  link : D -> Z -> Link;
  write_link a v d i : 0 <= i < chain_size c -> link (avl_write a v d) i = link_write c i (link d i) (a, v);
  read_link a d i : link (avl_read a d).2 i = link d i;
  register_reads d i : 0 <= i < chain_size c -> (avl_read (delay_register c i) d).1 = written (link d i)
}.

(** A link that will be at [v] after the next update, and one that is there. *)
Definition link_set (v : Z) (l : Link) : Prop := written l = v /\ (if marked l then written l else applied l) = v.
Definition link_at (v : Z) (l : Link) : Prop := written l = v /\ applied l = v.

Lemma link_at_set v l : link_at v l -> link_set v l.
Proof. intros [Hw Ha]. split; [done|]. by destruct (marked l). Qed.

Lemma pin_cases i : 0 <= i < 8 -> i = 0 \/ i = 1 \/ i = 2 \/ i = 3 \/ i = 4 \/ i = 5 \/ i = 6 \/ i = 7.
Proof. lia. Qed.

Section Chains.
Context {D : Type} `{Avalon D} (c : Chain) `{!ScanChain D c}.
Local Abbreviation prog A := (M (Seq D) A).

(** What is asked of the rest of the state; it does not depend on the device. *)
Variable ready_state : Seq D -> Prop.
Hypothesis ready_any : forall d s, ready_state s -> ready_state (set_bus d s).

(** The delays [f] are set, or they are applied. *)
Definition chain_set (f : Z -> Z) (s : Seq D) : Prop :=
  ready_state s /\ forall i, 0 <= i < chain_size c -> link_set (f i) (link (bus s) i).
Definition chain_at (f : Z -> Z) (s : Seq D) : Prop :=
  ready_state s /\ forall i, 0 <= i < chain_size c -> link_at (f i) (link (bus s) i).

Lemma chain_at_set f s : chain_at f s -> chain_set f s.
Proof. intros [Hs Hl]. split; [done|]. intros i Hi. by apply link_at_set, Hl. Qed.

Lemma chain_set_ext f f' s : (forall i, 0 <= i < chain_size c -> f i = f' i) -> chain_set f s -> chain_set f' s.
Proof. intros Hf [Hs Hl]. split; [done|]. intros i Hi. rewrite <- Hf by done. by apply Hl. Qed.

Lemma link_write_all ws (d : D) i :
  0 <= i < chain_size c -> link (write_all ws d) i = foldl (link_write c i) (link d i) ws.
Proof.
  intros Hi. revert d. induction ws as [|[a v] ws IH]; intros d; [done|]. cbn [write_all foldl].
  unfold write_all in IH. by rewrite IH, write_link.
Qed.

(** A command that only writes. *)
Lemma wp_write (m : prog unit) ws f f' (Q : unit -> Seq D -> Prop) s :
  writes m ws -> chain_set f s ->
  (forall i l, 0 <= i < chain_size c -> link_set (f i) l -> link_set (f' i) (foldl (link_write c i) l ws)) ->
  (forall s', chain_set f' s' -> Q tt s') -> wp m Q no_exit s.
Proof.
  intros Hw [Hs Hl] Hws HQ. eapply wp_val; [apply Hw|]. apply HQ. split; [by apply ready_any|].
  intros i Hi. cbn [bus set_bus]. rewrite link_write_all by done. by apply Hws, Hl.
Qed.

Lemma wp_writes {B} (m : prog unit) ws f f' (k : prog B) Q s :
  writes m ws -> chain_set f s ->
  (forall i l, 0 <= i < chain_size c -> link_set (f i) l -> link_set (f' i) (foldl (link_write c i) l ws)) ->
  (forall s', chain_set f' s' -> wp k Q no_exit s') -> wp (m ;;! k) Q no_exit s.
Proof. intros Hw Hs Hws HQ. by eapply wp_bind, wp_write. Qed.

(** A delay is written and its link marked. *)
Lemma wp_writes_two {B} (m1 m2 : prog unit) ws1 ws2 f f' (k : prog B) Q s :
  writes m1 ws1 -> writes m2 ws2 -> chain_set f s ->
  (forall i l, 0 <= i < chain_size c -> link_set (f i) l -> link_set (f' i) (foldl (link_write c i) l (ws1 ++ ws2))) ->
  (forall s', chain_set f' s' -> wp k Q no_exit s') -> wp (m1 ;;! m2 ;;! k) Q no_exit s.
Proof.
  intros Hw1 Hw2 [Hs Hl] Hws HQ. apply wp_bind. eapply wp_val; [apply Hw1|].
  apply wp_bind. eapply wp_val; [apply Hw2|]. apply HQ. split; [by do 2 apply ready_any|].
  intros i Hi. cbn [bus set_bus]. rewrite !link_write_all, <- foldl_app by done. by apply Hws, Hl.
Qed.

(** An update applies what is set. *)
Hypothesis no_update : forall i, 0 <= i < chain_size c -> (SCC_MGR_UPD =? delay_register c i) = false.

Lemma wp_update {B} f (k : prog B) Q s :
  chain_set f s -> (forall s', chain_at f s' -> wp k Q no_exit s') -> wp (IOWR_32DIRECT SCC_MGR_UPD 0 0 ;;! k) Q no_exit s.
Proof.
  intros [Hs Hl] HQ. apply wp_bind. eapply wp_val; [reflexivity|]. apply HQ. split; [by apply ready_any|].
  intros i Hi. cbn [bus set_bus]. rewrite write_link by done. destruct (Hl i Hi) as [Hw Ha].
  change (u32 (SCC_MGR_UPD + 0)) with SCC_MGR_UPD. cbn [link_write]. rewrite no_update, Z.eqb_refl by done. split; done.
Qed.

(** Writes that touch no link. *)
Lemma chain_at_quiet f ws s :
  chain_at f s -> (forall i l, 0 <= i < chain_size c -> foldl (link_write c i) l ws = l) ->
  chain_at f (set_bus (write_all ws (bus s)) s).
Proof.
  intros [Hs Hl] Hws. split; [by apply ready_any|]. intros i Hi. cbn [bus set_bus].
  rewrite link_write_all, Hws by done. by apply Hl.
Qed.

Lemma chain_at_read f a s : chain_at f s -> chain_at f (set_bus (avl_read a (bus s)).2 s).
Proof. intros [Hs Hl]. split; [by apply ready_any|]. intros i Hi. cbn [bus set_bus]. rewrite read_link. by apply Hl. Qed.

(** Reading a register. *)
Lemma wp_register f base off i (Q : Z -> Seq D -> Prop) s :
  chain_set f s -> 0 <= i < chain_size c -> 0 <= f i <= 31 -> u32 (base + off) = delay_register c i ->
  (forall s', chain_set f s' -> Q (f i) s') -> wp (IORD_32DIRECT base off) Q no_exit s.
Proof.
  intros [Hs Hl] Hi Hf Ha HQ. unfold IORD_32DIRECT, wp. rewrite Ha. destruct (Hl i Hi) as [Hw _].
  pose proof (register_reads (bus s) i Hi) as Hr. pose proof (fun k => read_link (delay_register c i) (bus s) k) as Hk.
  destruct (avl_read _ (bus s)) as [v d]. cbn [fst snd] in *. subst v. rewrite Hw, u32_small by lia.
  apply HQ. split; [by apply ready_any|]. intros k Hk8. cbn [bus set_bus]. rewrite Hk. by apply Hl.
Qed.

End Chains.

(** A link after writes whose addresses are known. *)
Ltac solve_link := intros [?written [] ?applied] [??]; cbn in *; (by split) || (split; cbn; lia || done).

(** ** The shifts of the pins

[pins_at f s]: pin [i] is at [f i], and the state is otherwise as it should be. *)
Section Shift.
Context {D : Type} `{Avalon D}.
Local Abbreviation prog A := (M (Seq D) A).
Variables (pins_at : (Z -> Z) -> Seq D -> Prop) (read : Z -> prog Z) (set_delay : Z -> Z -> prog unit).

Definition set_pin (f : Z -> Z) (i v : Z) : Z -> Z := fun k => if k =? i then v else f k.

Hypothesis pins_ext : forall f f' s, (forall i, 0 <= i < 8 -> f i = f' i) -> pins_at f s -> pins_at f' s.
Hypothesis read_spec : forall f i Q s,
  pins_at f s -> 0 <= i < 8 -> 0 <= f i <= 31 -> (forall s', pins_at f s' -> Q (f i) s') ->
  wp (read i) Q no_exit s.
Hypothesis set_spec : forall B f i v (k : prog B) Q s,
  pins_at f s -> 0 <= i < 8 -> 0 <= v <= 31 ->
  (forall s', pins_at (set_pin f i v) s' -> wp k Q no_exit s') ->
  wp (set_delay i v ;;! scc_mgr_load_dq i ;;! k) Q no_exit s.

(** A shift that keeps the pin in range is applied as it is. *)
Lemma shift_of_spec f i sh s :
  pins_at f s -> 0 <= i < 8 -> f i = 0 -> 0 <= sh <= 31 ->
  wp (shift_of 31 read i i sh) (fun r s' => r = sh /\ pins_at f s') no_exit s.
Proof.
  intros Hs Hi Hf Hsh. unfold shift_of.
  apply wp_bind, (read_spec f); [done|done|lia|]. intros s1 Hs1. rewrite Hf.
  change (s32 0) with 0. rewrite Z.add_0_r. apply wp_bind, wp_int; [lia|].
  destruct (Z.gtb_spec sh 31); [lia|].
  apply wp_bind, (read_spec f); [done|done|lia|]. intros s2 Hs2. rewrite Hf.
  change (s32 0) with 0. rewrite Z.add_0_r. apply wp_bind, wp_int; [lia|].
  destruct (Z.ltb_spec sh 0); [lia|]. by apply wp_ret.
Qed.

(** The pins are put at their goals, from 0, and no margin is negative. *)
Lemma shift_pins_spec start (e : Z -> Eye) strobe (pin_of : Z -> Z) s :
  pins_at (fun _ => 0) s -> (forall i, 0 <= i < 8 -> 0 <= reach_l (e i) + reach_r (e i)) ->
  (forall i, 0 <= i < 8 -> pin_of i = i) -> (forall i, 0 <= i < 8 -> 0 <= pin_goal_at start e strobe i <= 31) ->
  wp (shift_pins 8 31 read set_delay pin_of (found_edges e) (min_mid 8 (found_edges e)).2
        (half_mid (least_mid e)) (start - strobe))
    (fun r s' => (0 <= r.1 <= 32 /\ 0 <= r.2 <= 32) /\ pins_at (pin_goal_at start e strobe) s') no_exit s.
Proof.
  intros Hs Hne Hpin Hgoal. set (goal := pin_goal_at start e strobe) in *.
  eapply wp_mono; [apply (wp_for_range (fun k r s => (0 <= r.1 <= 32 /\ 0 <= r.2 <= 32) /\
    pins_at (fun i => if i <? k then goal i else 0) s) _ _ no_exit)| |done].
  - done.
  - intros k [dqm dqsm] s1 Hk [Hm Hs1]. cbn [fst snd] in Hm. rewrite Hpin by lia.
    rewrite min_mid_index, found_mid by done. fold (least_mid e).
    change (_ ÷ 2 + _) with (goal k).
    set (f := fun i => if i <? k then goal i else 0) in *.
    assert (Hf : f k = 0) by (unfold f; by case_match; [lia|]).
    apply wp_bind. eapply wp_mono; [by apply (shift_of_spec f); [..|apply Hgoal]| |done].
    intros ? s2 [-> Hs2]. apply wp_bind, (read_spec f); [done|done|lia|]. intros s3 Hs3.
    rewrite Hf, Z.add_0_l, found_lookup, (u32_small (goal k)) by (lia || (pose proof (Hgoal k Hk); lia)).
    apply (set_spec _ f); [done|done|by apply Hgoal|]. intros s4 Hs4. cbv zeta. apply wp_ret.
    pose proof (goal_balanced start e strobe k Hk) as Hbal. cbv zeta in Hbal. fold goal in Hbal.
    pose proof (Hne k Hk). split; [cbn [fst snd left_edge right_edge]; repeat case_match; lia|].
    revert Hs4. apply pins_ext. intros i Hi. unfold set_pin, f. repeat case_match; try lia. by replace i with k by lia.
  - split; [simpl; lia|]. revert Hs. apply pins_ext. intros i Hi. by case_match; [lia|].
  - intros r s' [Hm Hs']. split; [done|]. revert Hs'. apply pins_ext. intros i Hi. by case_match; [|lia].
Qed.

End Shift.
