(* ===== verification/SeqReadEye.v ===== *)
(** * SeqReadEye: the centring of reads on a device with read eyes

On a device whose RW manager answers a read with an error on the pins whose
delay, relative to the strobe's, is outside an interval, the function
[rw_mgr_mem_calibrate_vfifo_center] is shown to find the edges of all intervals
and to leave the strobe in the middle of each. *)
From S2P Require Import Prelude SeqConfig SeqBase SeqScc SeqMem SeqTest SeqLatency SeqSafe.
From S2P Require Import SeqOps SeqPhase SeqCentre SeqEye.

(** Links 0 to 7 are the pins of the group [g], 8 is its strobe. *)
Definition read_chain (g : Z) : Chain :=
  mkChain 9 (fun i => if i <? 8 then SCC_MGR_IO_IN_DELAY + 4 * i else SCC_MGR_DQS_IN_DELAY + 4 * g)
    (fun i a v => if i <? 8 then (a =? SCC_MGR_DQ_ENA) && ((v =? i) || (v =? 0xff))
                  else (a =? SCC_MGR_DQS_ENA) && ((v =? g) || (v =? 0xff))).

(** The law of the device, beside those of the chains: after the writes of a read test
of the group the RW manager shows an error on the pins whose delay, relative to the
strobe's, is outside an interval.  Of other reads nothing is known. *)
Class ReadEyes (D : Type) `{Avalon D} (g : Z) := {
  #[global] read_eyes_chain :: ScanChain D (read_chain g);
  eye_lo : Z -> Z;
  eye_hi : Z -> Z;
  errors_read d :
    let t i := applied (link (c := read_chain g) d i) - applied (link (c := read_chain g) d 8) in
    (avl_read BASE_RW_MGR (write_all (read_setup 0 g) d)).1 =
      bits ((fun i => negb ((eye_lo i <=? t i) && (t i <=? eye_hi i))) <$> seqZ 0 8)
}.

Section Device.
Context {D : Type} `{Avalon D} (g : Z) `{!ReadEyes D g}.
Local Abbreviation prog A := (M (Seq D) A).
Hypothesis g_ok : group_ok g.

Definition pin_tap (d : D) (i : Z) : Z := applied (link (c := read_chain g) d i).
Definition strobe_tap (d : D) : Z := applied (link (c := read_chain g) d 8).

(** All registers have been applied. *)
Definition in_sync (d : D) : Prop :=
  forall i, 0 <= i < 9 -> applied (link (c := read_chain g) d i) = written (link (c := read_chain g) d i).

(** The pins at [f], the strobe. *)
Definition ins (f : Z -> Z) (strobe : Z) : Z -> Z := fun i => if i <? 8 then f i else strobe.

Local Abbreviation ins_set := (chain_set (read_chain g) ready).
Local Abbreviation ins_at := (chain_at (read_chain g) ready).

Lemma ready_bus d (s : Seq D) : ready s -> ready (set_bus d s).
Proof. done. Qed.

Lemma in_cases i : 0 <= i < 9 -> i = 0 \/ i = 1 \/ i = 2 \/ i = 3 \/ i = 4 \/ i = 5 \/ i = 6 \/ i = 7 \/ i = 8.
Proof. lia. Qed.

Ltac case_pin Hi := destruct (pin_cases _ Hi) as [->|[->|[->|[->|[->|[->|[->| ->]]]]]]].
Ltac case_in Hi := destruct (in_cases _ Hi) as [->|[->|[->|[->|[->|[->|[->|[->| ->]]]]]]]].

Lemma update_apart i : 0 <= i < 9 -> (SCC_MGR_UPD =? delay_register (read_chain g) i) = false.
Proof. intros Hi. case_in Hi; case_group g_ok; reflexivity. Qed.

(** ** The test *)

Definition inside (f : Z -> Z) (i : Z) : bool := (eye_lo i <=? f i - f 8) && (f i - f 8 <=? eye_hi i).
Definition good_ins (f : Z -> Z) : list bool := inside f <$> seqZ 0 8.

Lemma setup_quiet i (l : Link) : 0 <= i < 9 -> foldl (link_write (read_chain g) i) l (read_setup 0 g) = l.
Proof. intros Hi. destruct l as [w [] t]; case_in Hi; case_group g_ok; reflexivity. Qed.

Lemma cleanup_quiet i (l : Link) : 0 <= i < 9 -> foldl (link_write (read_chain g) i) l (read_cleanup g) = l.
Proof. intros Hi. destruct l as [w [] t]; case_in Hi; case_group g_ok; reflexivity. Qed.

Lemma one_rank_test n all_correct all_groups :
  rw_mgr_mem_calibrate_read_test (D := D) 0 g n all_correct all_groups 0
  = rw_mgr_mem_calibrate_read_test 0 g n all_correct all_groups 1.
Proof. reflexivity. Qed.

Lemma eye_test f s :
  ins_at f s -> exists s', ins_at f s' /\
    centre_test 1 0 g g s = Val (bits (good_ins f) =? 0, bits (good_ins f)) s'.
Proof.
  intros Hs. destruct (proj1 Hs) as (Hskip & Hmask & Hvg). unfold centre_test. change (negb (1 =? 0)) with true. cbv iota.
  rewrite one_rank_test. unfold bind. rewrite (read_test_spec g _ _ _ 0) by done.
  rewrite Hmask, Hvg. cbn [Z.eqb].
  pose proof (chain_at_quiet _ ready ready_bus f _ s Hs setup_quiet) as Hs1.
  pose proof (errors_read (bus s)) as Herr. cbv zeta in Herr.
  pose proof (chain_at_read _ ready ready_bus f BASE_RW_MGR _ Hs1) as Hs2. cbn [bus set_bus] in Hs2.
  destruct (avl_read BASE_RW_MGR _) as [errors d2]. cbn [fst snd] in Herr, Hs2.
  assert (errors = bits (negb <$> good_ins f)) as ->.
  { rewrite Herr. unfold good_ins. rewrite <- list_fmap_compose. f_equal. apply list_fmap_ext.
    intros k i Hk%list_elem_of_lookup_2%elem_of_seqZ. unfold compose, inside.
    destruct (proj2 Hs i ltac:(cbn; lia)) as [_ ->]. by destruct (proj2 Hs 8 ltac:(cbn; lia)) as [_ ->]. }
  rewrite good_bits by done. exists (set_bus (write_all (read_cleanup g) d2) s). split.
  - exact (chain_at_quiet _ ready ready_bus f _ _ Hs2 cleanup_quiet).
  - unfold ret, verdict. change (negb (PASS_ONE_BIT =? 0)) with false. cbv iota. by destruct (bits (good_ins f) =? 0).
Qed.

Lemma wp_eye_test f (Q : bool * Z -> Seq D -> Prop) s :
  ins_at f s -> (forall s', ins_at f s' -> Q (bits (good_ins f) =? 0, bits (good_ins f)) s') ->
  wp (centre_test 1 0 g g) Q no_exit s.
Proof. intros Hs HQ. destruct (eye_test f s Hs) as (s' & Hs' & Hrun). eapply wp_val; [exact Hrun|]. by apply HQ. Qed.

(** ** The steps of the searches *)

(** The eye of pin [i] seen from a strobe at [start] and a pin at 0. *)
Definition eye_at (start i : Z) : Eye := mkEye (eye_hi i + start) (- eye_lo i - start).
Abbreviation eyes_at start := (eyes (eye_at start)).

Lemma good_ins_eyes f (ok : Eye -> bool) start :
  (forall i, 0 <= i < 8 -> inside f i = ok (eye_at start i)) -> good_ins f = ok <$> eyes_at start.
Proof.
  intros Hok. unfold good_ins, eyes. rewrite <- list_fmap_compose. apply list_fmap_ext.
  intros k i Hk%list_elem_of_lookup_2%elem_of_seqZ. apply Hok. lia.
Qed.

Definition dq_writes (d : Z) : list (Z * Z) :=
  c_range 0 8 1 ≫= (fun i => [(u32 (SCC_MGR_IO_IN_DELAY + shl2 i), u32 d); (u32 (SCC_MGR_DQ_ENA + 0), u32 i)]).

Lemma dq_in_writes d : writes (D := D) (scc_mgr_apply_group_dq_in_delay g 0 d) (dq_writes d).
Proof.
  apply writes_for_each. intros i Hi%elem_of_range. cbv zeta. rewrite small_u32 by exact Hi.
  apply writes_iowr_then, writes_iowr.
Qed.

Lemma wp_dq_in {B} d p st (k : prog B) Q s :
  ins_set (ins p st) s -> 0 <= d <= 31 -> (forall s', ins_set (ins (fun _ => d) st) s' -> wp k Q no_exit s') ->
  wp (scc_mgr_apply_group_dq_in_delay g 0 d ;;! k) Q no_exit s.
Proof.
  intros Hs Hd. eapply (wp_writes _ ready ready_bus); [apply dq_in_writes|exact Hs|]. intros i l Hi.
  unfold dq_writes. rewrite (u32_small d) by lia. revert l. case_in Hi; case_group g_ok; solve_link.
Qed.

Lemma strobe_writes d : 0 <= d <= 31 ->
  writes (D := D) (scc_mgr_set_dqs_bus_in_delay g d) [(SCC_MGR_DQS_IN_DELAY + 4 * g, d)] /\
  writes (D := D) (scc_mgr_load_dqs g) [(SCC_MGR_DQS_ENA, g)].
Proof. intros Hd. split; intros s; [rewrite <- (u32_small d) at 2 by lia|]; case_group g_ok; reflexivity. Qed.

Lemma wp_dqs_in {B} d p st (k : prog B) Q s :
  ins_set (ins p st) s -> 0 <= d <= 31 -> (forall s', ins_set (ins p d) s' -> wp k Q no_exit s') ->
  wp (scc_mgr_set_dqs_bus_in_delay g d ;;! scc_mgr_load_dqs g ;;! k) Q no_exit s.
Proof.
  intros Hs Hd. destruct (strobe_writes d Hd) as [Hw1 Hw2].
  eapply (wp_writes_two _ ready ready_bus); [exact Hw1|exact Hw2|exact Hs|].
  intros i l Hi. revert l. case_in Hi; case_group g_ok; solve_link.
Qed.

Lemma wp_update_ins {B} f (k : prog B) Q s :
  ins_set f s -> (forall s', ins_at f s' -> wp k Q no_exit s') -> wp (IOWR_32DIRECT SCC_MGR_UPD 0 0 ;;! k) Q no_exit s.
Proof. apply (wp_update (read_chain g) ready ready_bus update_apart). Qed.

(** The pins at [d], the strobe where it was. *)
Lemma try_dq_in_spec start d p s :
  0 <= d <= 31 -> ins_set (ins p start) s ->
  wp (try_dq_in 1 0 g g 0 d) (fun r s' => ins_set (ins (fun _ => d) start) s' /\
    r = (bits (left_ok d <$> eyes_at start) =? 0, bits (left_ok d <$> eyes_at start))) no_exit s.
Proof.
  intros Hd Hs. unfold try_dq_in. eapply wp_dq_in; [exact Hs|done|]. intros s1 Hs1.
  eapply wp_update_ins; [exact Hs1|]. intros s2 Hs2. eapply wp_eye_test; [exact Hs2|]. intros s3 Hs3.
  split; [by apply chain_at_set|].
  rewrite (good_ins_eyes _ (left_ok d) start); [done|]. intros i Hi. unfold inside, ins, left_ok, eye_at.
  replace (i <? 8) with true by lia. cbn. f_equal; apply Bool.eq_iff_eq_true; lia.
Qed.

(** The pins at 0, the strobe [d] further. *)
Lemma try_dqs_in_spec start en d st s :
  0 <= d -> 0 <= start -> d + start <= 31 -> ins_set (ins (fun _ => 0) st) s ->
  wp (try_dqs_in 1 0 g g start en d) (fun r s' => ins_set (ins (fun _ => 0) (d + start)) s' /\
    r = (bits (right_ok d <$> eyes_at start) =? 0, bits (right_ok d <$> eyes_at start))) no_exit s.
Proof.
  intros Hd Hst Hlim Hs. unfold try_dqs_in. change shift_dqs_en with false. cbv iota.
  rewrite (u32_small (d + start)) by lia.
  assert (Hskip : forall k : prog (bool * Z), (scc_mgr_set_dqs_bus_in_delay g (d + start) ;;! ret tt ;;! k) s
    = (scc_mgr_set_dqs_bus_in_delay g (d + start) ;;! k) s) by reflexivity.
  unfold wp. rewrite Hskip. eapply wp_dqs_in; [exact Hs|lia|]. intros s1 Hs1.
  eapply wp_update_ins; [exact Hs1|]. intros s2 Hs2. eapply wp_eye_test; [exact Hs2|]. intros s3 Hs3.
  split; [by apply chain_at_set|].
  rewrite (good_ins_eyes _ (right_ok d) start); [done|]. intros i Hi. unfold inside, ins, right_ok, eye_at.
  replace (i <? 8) with true by lia. cbn. rewrite andb_comm. f_equal; apply Bool.eq_iff_eq_true; lia.
Qed.

(** ** The two searches *)

Lemma find_read_edges_spec start p s :
  0 <= start <= 31 -> ins_set (ins p start) s ->
  (forall i, 0 <= i < 8 -> eye_ok (31 - start) (eye_at start i)) ->
  wp (find_read_edges 1 0 g g 0 start 0)
    (fun pins s' => (exists st, ins_set (ins (fun _ => 0) st) s') /\ pins = found_edges (eye_at start)) no_exit s.
Proof.
  intros Hst Hs Heyes. assert (Hlimit : 0 <= 31 - start <= 31) by lia.
  pose proof (eyes_elem (eye_at start) (31 - start) Heyes) as Hin.
  unfold find_read_edges. apply wp_bind. eapply wp_val; [reflexivity|].
  destruct (proj1 Hs) as (Hskip & Hmask & Hvg). rewrite Hmask.
  apply wp_bind. eapply wp_mono;
    [apply (left_sweep (eye_at start) (31 - start) _ (fun s => exists p, ins_set (ins p start) s))| |done];
    [done|done| |by eexists|].
  { intros d s1 Hd [p1 Hs1]. eapply wp_mono; [by eapply try_dq_in_spec| |done]. intros r s2 [Hs2 ->]. eauto. }
  intros pins s1 [[p1 Hs1] ->]. eapply wp_dq_in; [exact Hs1|lia|]. intros s2 Hs2.
  change IO_IO_IN_DELAY_MAX with 31. change IO_DQS_IN_DELAY_MAX with 31. cbv zeta.
  rewrite (u32_small (31 - start)), (reset_edges _ (31 - start)), (sticky_both _ (31 - start)) by (lia || done).
  apply (right_sweep (eye_at start) (31 - start) _ (fun s => exists st, ins_set (ins (fun _ => 0) st) s)
           Hlimit Heyes right_seen); [| | |done|by eexists].
  - intros d s3 Hd [st Hs3]. eapply wp_mono; [eapply try_dqs_in_spec; [| | |exact Hs3]; lia| |done].
    intros r s4 [Hs4 ->]. eauto.
  - intros d x Hd Hx. apply (right_seen_step (31 - start)); [by apply Hin|lia].
  - intros d x Hd Hx. by apply (right_final (31 - start)); [apply Hin|].
Qed.

(** ** The shifts *)

Definition pins_at (f : Z -> Z) (s : Seq D) : Prop := exists st, ins_set (ins f st) s.

Lemma pins_at_ext f f' s : (forall i, 0 <= i < 8 -> f i = f' i) -> pins_at f s -> pins_at f' s.
Proof.
  intros Hf [st Hs]. exists st. revert Hs. apply chain_set_ext. intros i Hi. unfold ins.
  destruct (Z.ltb_spec i 8); [apply Hf; cbn in Hi; lia|done].
Qed.

Lemma read_pin_spec f i (Q : Z -> Seq D -> Prop) s :
  pins_at f s -> 0 <= i < 8 -> 0 <= f i <= 31 -> (forall s', pins_at f s' -> Q (f i) s') ->
  wp (READ_SCC_DQ_IN_DELAY i) Q no_exit s.
Proof.
  intros [st Hs] Hi Hf HQ. assert (Hfi : ins f st i = f i) by (unfold ins; by replace (i <? 8) with true by lia).
  apply (wp_register _ ready ready_bus (ins f st) _ _ i _ _ Hs); [cbn; lia|by rewrite Hfi|by case_pin Hi|].
  intros s' Hs'. rewrite Hfi. apply HQ. by eexists.
Qed.

Lemma set_dq_spec {B} f i v (k : prog B) Q s :
  pins_at f s -> 0 <= i < 8 -> 0 <= v <= 31 ->
  (forall s', pins_at (set_pin f i v) s' -> wp k Q no_exit s') ->
  wp (scc_mgr_set_dq_in_delay g i v ;;! scc_mgr_load_dq i ;;! k) Q no_exit s.
Proof.
  intros [st Hs] Hi Hv HQ.
  eapply (wp_writes_two _ ready ready_bus _ _ _ _ _ (ins (set_pin f i v) st)); [apply writes_iowr|apply writes_iowr|exact Hs| |].
  - clear Hs HQ. intros j l Hj. rewrite (u32_small v) by lia. revert l. cbn in Hj.
    case_pin Hi; case_in Hj; case_group g_ok; solve_link.
  - intros s' Hs'. apply HQ. by eexists.
Qed.

(** The strobe and the pins at their goals: every pin in the middle of its eye. *)
Definition centred_at (start : Z) (s : Seq D) : Prop :=
  strobe_tap (bus s) = strobe_goal start (eye_at start) /\
  forall i, 0 <= i < 8 -> pin_tap (bus s) i = pin_goal start (eye_at start) i.

Lemma finish_spec start fom margins (r : Z) s :
  pins_at (pin_goal start (eye_at start)) s ->
  wp (scc_mgr_set_dqs_bus_in_delay g (strobe_goal start (eye_at start)) ;;!
      scc_mgr_load_dqs g ;;!
      (if negb (fom =? 0) then modify (fun s => set_gbl (add_fom_in margins (gbl s)) s) else ret tt) ;;!
      IOWR_32DIRECT SCC_MGR_UPD 0 0 ;;! ret r) (fun r' s' => r' = r /\ centred_at start s') no_exit s.
Proof.
  intros [st Hs]. assert (Hb : 0 <= strobe_goal start (eye_at start) <= 31) by (unfold strobe_goal; lia).
  eapply wp_dqs_in; [exact Hs|done|]. intros s1 Hs1.
  assert (Hend : forall s2, ins_set (ins (pin_goal start (eye_at start)) (strobe_goal start (eye_at start))) s2 ->
    wp (IOWR_32DIRECT SCC_MGR_UPD 0 0 ;;! ret r) (fun r' s' => r' = r /\ centred_at start s') no_exit s2).
  { intros s2 Hs2. eapply wp_update_ins; [exact Hs2|]. intros s3 [_ Hl]. apply wp_ret. split; [done|]. split.
    - apply (Hl 8). cbn. lia.
    - intros i Hi. destruct (Hl i ltac:(cbn; lia)) as [_ Ha]. unfold pin_tap. rewrite Ha. unfold ins.
      by replace (i <? 8) with true by lia. }
  apply wp_bind. case_match; eapply wp_val; [reflexivity| |reflexivity|]; by apply Hend.
Qed.

Lemma centre_reads_spec start fom s :
  let e := eye_at start in
  pins_at (fun _ => 0) s -> 0 <= start <= 31 -> (forall i, 0 <= i < 8 -> eye_ok (31 - start) (e i)) ->
  (forall i, 0 <= i < 8 -> 0 <= pin_goal start e i <= 31) ->
  wp (centre_reads g g 0 fom start 0 (found_edges e)) (fun r s' => r = 1 /\ centred_at start s') no_exit s.
Proof.
  intros e Hs Hst Hok Hgoal. unfold centre_reads.
  pose proof (found_bounded e (31 - start) ltac:(lia) Hok) as Hbnd.
  destruct (min_mid_bounded _ Hbnd) as [Hm _]. pose proof (half_mid_bounded _ Hm) as Hh.
  change RW_MGR_MEM_DQ_PER_READ_DQS with 8. change IO_IO_IN_DELAY_MAX with 31.
  rewrite (surjective_pairing (min_mid 8 (found_edges e))). fold (least_mid e) in *. cbv zeta.
  destruct (move_dqs_run start 0 (half_mid (least_mid e)) s Hst Hh) as (new & mid & Hrun & Hnew & ->).
  fold (strobe_goal start e) in Hnew. subst new.
  apply wp_bind. eapply wp_val; [exact Hrun|].
  apply wp_bind. eapply wp_mono; [apply (shift_pins_spec pins_at)| |done].
  { exact pins_at_ext. }
  { exact read_pin_spec. }
  { intros B. apply set_dq_spec. }
  { done. }
  { intros i Hi. apply (Hok i Hi). }
  { intros i Hi. rewrite Z.add_0_l. apply u32_small. lia. }
  { exact Hgoal. }
  intros [dqm dqsm] s1 [Hmargins Hs1]. cbn [fst snd] in Hmargins.
  apply wp_bind. eapply wp_val; [reflexivity|].
  replace ((0 <=? dqm) && (0 <=? dqsm)) with true by lia. by apply finish_spec.
Qed.

Lemma read_start_spec start p s :
  ins_set (ins p start) s -> 0 <= start <= 31 ->
  wp (READ_SCC_DQS_IN_DELAY g) (fun r s' => r = start /\ ins_set (ins p start) s') no_exit s.
Proof.
  intros Hs Hst. apply (wp_register _ ready ready_bus (ins p start) _ _ 8 _ _ Hs);
    [cbn; lia|done|by case_group g_ok|by intros s' Hs'].
Qed.

(** Pin [i] is inside its eye, half-way between the ends up to one tap. *)
Definition in_middle (d : D) (i : Z) : Prop :=
  let t := pin_tap d i - strobe_tap d in
  0 <= pin_tap d i <= 31 /\ eye_lo i <= t <= eye_hi i /\ -1 <= (eye_hi i - t) - (t - eye_lo i) <= 1.

(** C32: if every pin of a group is read correctly exactly while its delay, relative
to the strobe's, is in an interval of its own, the intervals are within reach and
their middles not too far apart, then [rw_mgr_mem_calibrate_vfifo_center] succeeds
and leaves the strobe and the pins at delays for which every pin is inside its
interval and its two margins differ by at most one tap.  The delays are those of the
scan chains: a delay that is written and not loaded by an update counts for nothing,
and only a read test shows errors. *)
Theorem vfifo_center_centres start fom s :
  ready s -> in_sync (bus s) -> strobe_tap (bus s) = start -> 0 <= start <= 31 ->
  (forall i, 0 <= i < 8 -> -31 <= eye_lo i /\ eye_lo i <= eye_hi i /\ eye_hi i <= 31 - start) ->
  (forall i j, 0 <= i < 8 -> 0 <= j < 8 -> eye_lo i + eye_hi i - Z.min 0 (eye_lo j + eye_hi j) <= 62) ->
  wp (rw_mgr_mem_calibrate_vfifo_center 0 g g 0 1 fom)
    (fun r s' => r = 1 /\ 0 <= strobe_tap (bus s') <= 31 /\ forall i, 0 <= i < 8 -> in_middle (bus s') i)
    no_exit s.
Proof.
  intros Hs Hsync Htap Hst Heyes Hskew.
  assert (Hok : forall i, 0 <= i < 8 -> eye_ok (31 - start) (eye_at start i)).
  { intros i Hi. destruct (Heyes i Hi) as (? & ? & ?). unfold eye_ok, eye_at. simpl. lia. }
  assert (Hgoal : forall i, 0 <= i < 8 -> 0 <= pin_goal start (eye_at start) i <= 31).
  { apply goal_range; [done|done|]. intros i j Hi Hj. simpl. pose proof (Hskew i j Hi Hj). lia. }
  assert (Hs0 : ins_set (ins (pin_tap (bus s)) start) s).
  { apply chain_at_set. split; [done|]. intros i Hi. pose proof (Hsync i Hi) as Happ. unfold ins. cbn in Hi.
    destruct (Z.ltb_spec i 8); [by split|]. replace i with 8 in * by lia. unfold strobe_tap in Htap. split; congruence. }
  apply wp_bind. eapply wp_mono; [by apply (read_start_spec start _ _ Hs0)| |done]. intros ? s0 [-> Hs1].
  cbv zeta. rewrite s32_small by lia. apply wp_bind, wp_ret, wp_bind, wp_ret, wp_bind.
  eapply wp_mono; [by eapply (find_read_edges_spec start)| |done].
  intros pins s1 [Hs2 ->]. rewrite (found_closed _ (31 - start)) by (lia || done).
  eapply wp_mono; [by apply centre_reads_spec| |done]. intros r s2 [-> [Hst2 Hp2]].
  split; [done|]. rewrite Hst2. split; [unfold strobe_goal; lia|]. intros i Hi. unfold in_middle. cbv zeta.
  rewrite Hst2, Hp2 by done.
  split; [by apply Hgoal|]. destruct (Heyes i Hi) as (? & ? & ?).
  pose proof (goal_balanced start (eye_at start) (strobe_goal start (eye_at start)) i Hi) as Hbal.
  change (pin_goal_at _ _ _ i) with (pin_goal start (eye_at start) i) in Hbal. cbv zeta in Hbal. simpl in Hbal. lia.
Qed.

End Device.

(** ** A device with eyes

The links of group 3 and the error register: a reset of the read path clears it, a
read sequence adds the errors of the pins whose delay less the strobe's is not from
[i - 14] to [i + 2]. *)
Record EyeBank := mkEyeBank { bank_links : Z -> Link; bank_errors : Z }.

Definition bank_right (d : EyeBank) (i : Z) : bool :=
  let t := applied (bank_links d i) - applied (bank_links d 8) in (i - 14 <=? t) && (t <=? i + 2).

#[export] Instance bank_bus : Avalon EyeBank := {|
  avl_read a d :=
    (if a =? BASE_RW_MGR then bank_errors d
     else if a =? SCC_MGR_DQS_IN_DELAY + 4 * 3 then written (bank_links d 8)
     else written (bank_links d ((a - SCC_MGR_IO_IN_DELAY) / 4)), d);
  avl_write a v d :=
    mkEyeBank (fun i => link_write (read_chain 3) i (bank_links d i) (a, v))
      (if a =? RW_MGR_RESET_READ_DATAPATH then 0
       else if (a =? RW_MGR_RUN_SINGLE_GROUP + 4 * 3) && (v =? __RW_MGR_READ_B2B)
         then Z.lor (bank_errors d) (bits ((fun i => negb (bank_right d i)) <$> seqZ 0 8)) else bank_errors d)
|}.

#[export] Instance bank_chain : ScanChain EyeBank (read_chain 3).
Proof.
  refine {| link := bank_links |}; [done|done|].
  intros d i Hi. destruct (in_cases i Hi) as [->|[->|[->|[->|[->|[->|[->|[->| ->]]]]]]]]; reflexivity.
Defined.

#[export] Instance bank_eyes : ReadEyes EyeBank 3.
Proof.
  refine {| eye_lo i := i - 14; eye_hi i := i + 2 |}. intros d t.
  set (d1 := write_all (removelast (read_setup 0 3)) d).
  transitivity (Z.lor (bank_errors d1) (bits ((fun i => negb (bank_right d1 i)) <$> seqZ 0 8))); [reflexivity|].
  change (bank_errors d1) with 0. rewrite Z.lor_0_l. reflexivity.
Defined.

(** The strobe starts at 4, everything applied. *)
Definition bank_start : Seq EyeBank :=
  mkSeq (mkEyeBank (fun i => let d := if i =? 8 then 4 else 0 in mkLink d false d) 0) no_globals calibration_masks 0 0.

Lemma vfifo_center_centres_witness :
  wp (rw_mgr_mem_calibrate_vfifo_center 0 3 3 0 1 1)
    (fun r s' => r = 1 /\ 0 <= strobe_tap 3 (bus s') <= 31 /\ forall i, 0 <= i < 8 -> in_middle 3 (bus s') i)
    no_exit bank_start.
Proof.
  apply (vfifo_center_centres 3 ltac:(by vm_compute) 4 1 bank_start); try by vm_compute.
  - intros i Hi. cbn. lia.
  - intros i j Hi Hj. cbn. lia.
Defined.

Example bank_read_centred :
  match rw_mgr_mem_calibrate_vfifo_center 0 3 3 0 1 1 bank_start with
  | Val r s' => r = 1 /\ (fun i => applied (bank_links (bus s') i)) <$> seqZ 0 9 = [0; 1; 2; 3; 4; 5; 6; 7; 6]
  | _ => False
  end.
Proof. vm_compute. by split. Qed.
