(* ===== verification/SeqWrites.v ===== *)
(** * SeqWrites: centring the write strobe and the data mask

[rw_mgr_mem_calibrate_writes_center] does for writes what [SeqCentre.v] does for
reads, with the delays of the outputs and a strobe that stays where it is; then
it looks for the window of the data mask: the longest run of delays with which
masked writes work, over the mask's own delay and the strobe's. *)
From S2P Require Import Prelude SeqConfig SeqBase SeqScc SeqMem SeqTest SeqSafe SeqOps SeqCentre.

(** The step of the two loops of the data mask. *)
Definition DELTA_D : Z := 1.

(** ** The window of the data mask

Positions count from the left: minus the mask's delay, then plus the strobe's.
A bound that is not set is one more than the largest delay. *)
Record Window := mkWindow {
  bgn_curr : Z; end_curr : Z; bgn_best : Z; end_best : Z; win_best : Z
}.

Definition no_window : Window :=
  let none := IO_IO_OUT1_DELAY_MAX + 1 in mkWindow none none none none 0.

(** The test at position [x] worked: the current window ends there, and may be
the best one. *)
Definition window_pass (x : Z) (w : Window) : Window :=
  let end_curr := x in
  let bgn_curr := if bgn_curr w =? IO_IO_OUT1_DELAY_MAX + 1 then x else bgn_curr w in
  if end_curr - bgn_curr + 1 >? win_best w
  then mkWindow bgn_curr end_curr bgn_curr end_curr (end_curr - bgn_curr + 1)
  else mkWindow bgn_curr end_curr (bgn_best w) (end_best w) (win_best w).

Definition window_fail (w : Window) : Window :=
  mkWindow (IO_IO_OUT1_DELAY_MAX + 1) (IO_IO_OUT1_DELAY_MAX + 1) (bgn_best w) (end_best w) (win_best w).

(** The mask's delay in the middle, and its margin. *)
Definition dm_mid (w : Window) : Z := Z.max 0 ((-1 * bgn_best w - end_best w) ÷ 2).
Definition dm_margin_of (w : Window) : Z :=
  if win_best w =? 0 then -1 else -1 * bgn_best w - dm_mid w.

Section Writes.
Context {D : Type} `{Avalon D}.
Local Abbreviation prog A := (M (Seq D) A).

(** Empty on this chip. *)
Definition recover_mem_device_after_ck_dqs_violation : prog unit := ret tt.

(** ** The edges *)

Definition try_dq_out (rank_bgn write_group test_bgn d : Z) : prog (bool * Z) :=
  scc_mgr_apply_group_dq_out1_delay write_group test_bgn d ;;!
  IOWR_32DIRECT SCC_MGR_UPD 0 0 ;;!
  let! '(ok, bit_chk) := rw_mgr_mem_calibrate_write_test rank_bgn write_group 0 PASS_ONE_BIT 0 in
  ret (ok =? 0, bit_chk).

Definition try_dqs_out (rank_bgn write_group start_dqs d : Z) : prog (bool * Z) :=
  scc_mgr_apply_group_dqs_io_and_oct_out1 write_group (u32 (d + start_dqs)) ;;!
  IOWR_32DIRECT SCC_MGR_UPD 0 0 ;;!
  (if negb (QDRII =? 0) then rw_mgr_mem_dll_lock_wait else ret tt) ;;!
  let! '(ok, bit_chk) := rw_mgr_mem_calibrate_write_test rank_bgn write_group 0 PASS_ONE_BIT 0 in
  (if ok =? 0 then recover_mem_device_after_ck_dqs_violation else ret tt) ;;!
  ret (ok =? 0, bit_chk).

(** When the search stops at once, a pin with a left edge has its right edge there. *)
Definition stopped_at (max d : Z) (pins : list Pin) : list Pin :=
  if d =? 0 then
    (fun e => if (right_edge e =? max + 1) && negb (left_edge e =? max + 1) then set_right (-1) e else e)
      <$> pins
  else pins.

Definition find_write_edges (rank_bgn write_group test_bgn start_dqs : Z) : prog (list Pin) :=
  let max := IO_IO_OUT1_DELAY_MAX in
  let! mask := gets (fun s => write_correct_mask (param s)) in
  let! pins := sweep max mask (try_dq_out rank_bgn write_group test_bgn) (left_step max)
    (fun _ pins => pins) 0 (no_edges RW_MGR_MEM_DQ_PER_WRITE_DQS max) in
  scc_mgr_apply_group_dq_out1_delay write_group test_bgn 0 ;;!
  let pins := reset_right max <$> pins in
  let! limit := int (max - start_dqs) in
  sweep limit mask (try_dqs_out rank_bgn write_group start_dqs) (right_step max) (stopped_at max)
    (sticky_of (has_left max) pins) pins.

(** ** The data mask *)

Definition dm_works (rank_bgn write_group : Z) : prog bool :=
  let! '(ok, _) := rw_mgr_mem_calibrate_write_test rank_bgn write_group 1 PASS_ALL_BITS 0 in
  ret (negb (ok =? 0)).

(** [for (d = max; d >= 0; d -= DELTA_D)] over the mask's delay. *)
Definition dm_left (rank_bgn write_group : Z) : prog Window :=
  loop (S (S (Z.to_nat IO_IO_OUT1_DELAY_MAX))) (fun '(d, w) =>
    if 0 <=? d then
      scc_mgr_apply_group_dm_out1_delay write_group d ;;!
      IOWR_32DIRECT SCC_MGR_UPD 0 0 ;;!
      let! ok := dm_works rank_bgn write_group in
      ret (inl (d - DELTA_D, if (ok : bool) then window_pass (- d) w else window_fail w))
    else ret (inr w)) (IO_IO_OUT1_DELAY_MAX, no_window).

(** Over the strobe's delay, until no longer window can come. *)
Definition dm_right (rank_bgn write_group new_dqs : Z) (w : Window) : prog Window :=
  let! limit := int (IO_IO_OUT1_DELAY_MAX - new_dqs) in
  loop (S (Z.to_nat (limit + 1))) (fun '(d, w) =>
    if d <=? limit then
      scc_mgr_apply_group_dqs_io_and_oct_out1 write_group (u32 (d + new_dqs)) ;;!
      IOWR_32DIRECT SCC_MGR_UPD 0 0 ;;!
      let! ok := dm_works rank_bgn write_group in
      if (ok : bool) then ret (inl (d + DELTA_D, window_pass d w))
      else
        recover_mem_device_after_ck_dqs_violation ;;!
        let w := window_fail w in
        if win_best w - 1 >? limit - d then ret (inr w) else ret (inl (d + DELTA_D, w))
    else ret (inr w)) (0, w).

(** The window, and the mask's delay set to its middle; the result is its margin. *)
Definition centre_dm (rank_bgn write_group new_dqs : Z) : prog Z :=
  let! w := dm_left rank_bgn write_group in
  scc_mgr_apply_group_dm_out1_delay write_group 0 ;;!
  let w := if negb (end_curr w =? 0) then window_fail w else w in
  let! w := dm_right rank_bgn write_group new_dqs w in
  scc_mgr_apply_group_dqs_io_and_oct_out1 write_group (u32 new_dqs) ;;!
  scc_mgr_apply_group_dm_out1_delay write_group (dm_mid w) ;;!
  IOWR_32DIRECT SCC_MGR_UPD 0 0 ;;!
  ret (dm_margin_of w).

(** ** The whole *)

Definition add_fom_out (z : Z) (g : gbl_t) : gbl_t :=
  mkGbl (phy_debug_mode_flags g) (curr_read_lat g) (curr_write_lat g) (error_substage g)
    (error_stage g) (error_group g) (fom_in g) (u32 (fom_out g + z)) (rw_wl_nop_cycles g).

Definition centre_writes (rank_bgn write_group start_dqs : Z) (pins : list Pin) : prog Z :=
  let '(mid_min, min_index) := min_mid RW_MGR_MEM_DQ_PER_WRITE_DQS pins in
  let orig_mid_min := half_mid mid_min in
  let new_dqs := start_dqs in
  let mid_min := 0 in
  let! '(dq_margin, dqs_margin) :=
    shift_pins RW_MGR_MEM_DQ_PER_WRITE_DQS IO_IO_OUT1_DELAY_MAX READ_SCC_DQ_OUT1_DELAY
      (fun i delay => scc_mgr_set_dq_out1_delay write_group i delay) (fun i => i)
      pins min_index orig_mid_min mid_min in
  (if negb (QDRII =? 0) then scc_mgr_set_group_dqs_io_and_oct_out1_gradual write_group (u32 new_dqs)
   else
     scc_mgr_apply_group_dqs_io_and_oct_out1 write_group (u32 new_dqs) ;;!
     IOWR_32DIRECT SCC_MGR_UPD 0 0) ;;!
  let! dm_margin := centre_dm rank_bgn write_group new_dqs in
  modify (fun s => set_gbl (add_fom_out (dq_margin + dqs_margin) (gbl s)) s) ;;!
  IOWR_32DIRECT SCC_MGR_UPD 0 0 ;;!
  ret (Z.b2z ((0 <=? dq_margin) && (0 <=? dqs_margin) && (0 <=? dm_margin))).

Definition rw_mgr_mem_calibrate_writes_center (rank_bgn write_group test_bgn : Z) : prog Z :=
  let! start_dqs := READ_SCC_DQS_IO_OUT1_DELAY in
  let start_dqs := s32 start_dqs in
  select_curr_shadow_reg_using_rank rank_bgn ;;!
  let! pins := find_write_edges rank_bgn write_group test_bgn start_dqs in
  match first_open IO_IO_OUT1_DELAY_MAX 0 pins with
  | Some i =>
      set_failing_group_stage (u32 (test_bgn + i)) CAL_STAGE_WRITES CAL_SUBSTAGE_WRITES_CENTER ;;!
      ret 0
  | None => centre_writes rank_bgn write_group start_dqs pins
  end.

Definition rw_mgr_mem_calibrate_writes (rank_bgn g test_bgn : Z) : prog Z :=
  reg_file_set_stage CAL_STAGE_WRITES ;;!
  reg_file_set_sub_stage CAL_SUBSTAGE_WRITES_CENTER ;;!
  reg_file_set_group g ;;!
  let! ok := rw_mgr_mem_calibrate_writes_center rank_bgn g test_bgn in
  if ok =? 0 then
    set_failing_group_stage g CAL_STAGE_WRITES CAL_SUBSTAGE_WRITES_CENTER ;;! ret 0
  else ret 1.

End Writes.

(** ** Windows

[window_ok lim w]: the current window, if there is one, ends at [lim] or before,
and both windows are within the delays. *)
Definition window_ok (lim : Z) (w : Window) : Prop :=
  ((bgn_curr w = 32 /\ end_curr w = 32) \/ -31 <= bgn_curr w <= end_curr w /\ end_curr w <= lim) /\
  ((win_best w = 0 /\ bgn_best w = 32 /\ end_best w = 32) \/
   0 < win_best w /\ -31 <= bgn_best w <= end_best w /\ end_best w <= 31).

Lemma no_window_ok lim : window_ok lim no_window.
Proof. split; left; repeat split. Qed.

Lemma window_pass_ok lim x w : window_ok lim w -> -31 <= x <= 31 -> lim <= x -> window_ok x (window_pass x w).
Proof.
  intros [Hc Hb] Hx Hlim. unfold window_pass. change (IO_IO_OUT1_DELAY_MAX + 1) with 32.
  set (b := if bgn_curr w =? 32 then x else bgn_curr w).
  assert (-31 <= b <= x) by (subst b; case_match; lia).
  destruct (Z.gtb_spec (x - b + 1) (win_best w)); split; simpl; try done; right; lia.
Qed.

Lemma window_fail_ok lim lim' w : window_ok lim w -> window_ok lim' (window_fail w).
Proof. intros [_ Hb]. split; [by left|done]. Qed.

Lemma window_ok_mono lim lim' w : window_ok lim w -> lim <= lim' -> window_ok lim' w.
Proof. intros [Hc Hb] Hl. split; [|done]. destruct Hc as [|]; [by left|right; lia]. Qed.

Lemma dm_mid_bounded lim w : window_ok lim w -> 0 <= dm_mid w <= 31.
Proof. intros [_ Hb]. unfold dm_mid. Z.to_euclidean_division_equations; lia. Qed.

Section Safety.
Context {D : Type} `{Avalon D} (I : D -> Prop) `{!TapInvariant D I}.
Local Abbreviation prog A := (M (Seq D) A).
Local Abbreviation safe := (safe I).

Lemma safe_try_dq_out g b d : group_ok g -> 0 <= d <= 31 -> safe (try_dq_out 0 g b d) (fun _ => True).
Proof.
  intros Hg Hd. apply (safe_then I); [by apply (safe_group_dq_out1 I)|].
  apply (safe_then I); [by apply (safe_plain I)|].
  eapply (safe_bind I); [by apply (safe_write_test I)|]. intros [ok bit_chk] _. by apply safe_ret.
Qed.

Lemma safe_try_dqs_out g start d : group_ok g -> 0 <= d + start <= 31 ->
  safe (try_dqs_out 0 g start d) (fun _ => True).
Proof.
  intros Hg Hd. unfold try_dqs_out. rewrite u32_small by lia.
  apply (safe_then I); [by apply (safe_group_dqs_out1 I)|].
  apply (safe_then I); [by apply (safe_plain I)|]. apply (safe_then I); [by apply safe_ret|].
  eapply (safe_bind I); [by apply (safe_write_test I)|]. intros [ok bit_chk] _.
  apply (safe_then I); [case_match; by apply safe_ret|by apply safe_ret].
Qed.

Lemma stopped_bounded n d pins : pins_bounded n pins -> pins_bounded n (stopped_at 31 d pins).
Proof.
  intros [Hn Hp]. unfold stopped_at. case_match; [|done]. split; [by rewrite length_fmap|].
  apply Forall_fmap. eapply Forall_impl; [exact Hp|]. intros e [Hl Hr]. unfold compose. case_match; [|done].
  split; simpl; lia.
Qed.

Lemma safe_find_write_edges g b start : group_ok g -> 0 <= start <= 31 ->
  safe (find_write_edges 0 g b start) (pins_bounded 8).
Proof.
  intros Hg Hs. apply (safe_gets_bind I). intros mask.
  eapply (safe_bind I).
  { apply (safe_sweep I 8); [by vm_compute|apply no_edges_bounded| | |done].
    - intros d Hd. by apply safe_try_dq_out.
    - intros d ok e Hd. by apply left_step_bounded. }
  intros pins Hpins. apply (safe_then I); [by apply (safe_group_dq_out1 I)|]. cbv zeta.
  change IO_IO_OUT1_DELAY_MAX with 31.
  apply (safe_bind I _ _ (fun l => l = 31 - start)).
  { intros s Hs'. apply wp_int; [lia|done]. }
  intros limit ->. apply (safe_sweep I); [lia|by apply reset_bounded| | |].
  - intros d Hd. apply safe_try_dqs_out; [done|lia].
  - intros d ok e Hd. apply right_step_bounded. lia.
  - intros. by apply stopped_bounded.
Qed.

Lemma safe_dm_works g : group_ok g -> safe (dm_works 0 g) (fun _ => True).
Proof.
  intros Hg. eapply (safe_bind I); [by apply (safe_write_test I)|]. intros [ok b] _. by apply safe_ret.
Qed.

Lemma safe_dm_left g : group_ok g -> safe (dm_left 0 g) (window_ok 0).
Proof.
  intros Hg. apply (safe_loop I (fun l => -1 <= l.1 <= 31 /\ window_ok (- l.1 - 1) l.2)
    (fun l => Z.to_nat (l.1 + 1))); simpl; [|by vm_compute|split; [done|apply no_window_ok]].
  intros [d w] [Hd Hw]. simpl in *. destruct (Z.leb_spec 0 d); [|apply safe_ret; by replace d with (-1) in Hw by lia].
  apply (safe_then I); [apply (safe_group_dm_out1 I); solve_bound|].
  apply (safe_then I); [by apply (safe_plain I)|].
  eapply (safe_bind I); [by apply safe_dm_works|]. intros ok _. apply safe_ret. unfold DELTA_D. simpl.
  split; [|lia]. split; [lia|]. replace (- (d - 1) - 1) with (- d) by lia.
  destruct ok; [eapply window_pass_ok; [exact Hw|lia|lia]|by eapply window_fail_ok].
Qed.

Lemma safe_dm_right g new w : group_ok g -> 0 <= new <= 31 -> window_ok 0 w ->
  safe (dm_right 0 g new w) (window_ok 31).
Proof.
  intros Hg Hn Hw. unfold dm_right. change IO_IO_OUT1_DELAY_MAX with 31.
  apply (safe_bind I _ _ (fun l => l = 31 - new)).
  { intros s Hs'. apply wp_int; [lia|done]. }
  intros limit ->. apply (safe_loop I (fun l => 0 <= l.1 <= 32 - new /\ window_ok (Z.max 0 (l.1 - 1)) l.2)
    (fun l => Z.to_nat (32 - new - l.1))); simpl; [|lia|split; [lia|done]].
  intros [d w'] [Hd Hw']. simpl in *.
  destruct (Z.leb_spec d (31 - new)); [|apply safe_ret; eapply window_ok_mono; [exact Hw'|lia]].
  rewrite u32_small by lia. apply (safe_then I); [apply (safe_group_dqs_out1 I); [done|solve_bound]|].
  apply (safe_then I); [by apply (safe_plain I)|].
  eapply (safe_bind I); [by apply safe_dm_works|]. unfold DELTA_D. intros ok _. destruct ok.
  - apply safe_ret. simpl. split; [|lia]. split; [lia|]. replace (Z.max 0 (d + 1 - 1)) with d by lia.
    eapply window_pass_ok; [exact Hw'|lia|lia].
  - apply (safe_then I); [by apply safe_ret|]. cbv zeta.
    case_match; apply safe_ret; simpl; [by eapply window_fail_ok|].
    split; [|lia]. split; [lia|by eapply window_fail_ok].
Qed.

Lemma safe_centre_dm g new : group_ok g -> 0 <= new <= 31 -> safe (centre_dm 0 g new) (fun _ => True).
Proof.
  intros Hg Hn. eapply (safe_bind I); [by apply safe_dm_left|]. intros w Hw.
  apply (safe_then I); [by apply (safe_group_dm_out1 I)|]. cbv zeta.
  eapply (safe_bind I).
  { apply safe_dm_right; [done|done|]. case_match; [by eapply window_fail_ok|exact Hw]. }
  intros w' Hw'. rewrite u32_small by lia. pose proof (dm_mid_bounded _ _ Hw').
  apply (safe_then I); [by apply (safe_group_dqs_out1 I)|].
  apply (safe_then I); [by apply (safe_group_dm_out1 I)|]. safe_run.
Qed.

Lemma safe_centre_writes g start pins : group_ok g -> 0 <= start <= 31 -> pins_bounded 8 pins ->
  safe (centre_writes 0 g start pins) is_bit.
Proof.
  intros Hg Hs Hpins. unfold centre_writes. change RW_MGR_MEM_DQ_PER_WRITE_DQS with 8.
  destruct (min_mid_bounded pins Hpins) as [Hm Hj]. destruct (min_mid 8 pins) as [m j]. simpl in Hm, Hj.
  pose proof (half_mid_bounded m Hm) as Hh. cbv zeta.
  eapply (safe_bind I).
  { apply (safe_shift_pins I 8 IO_IO_OUT1_DELAY_MAX SCC_MGR_IO_OUT1_DELAY);
      [lia|exact Hpins|exact Hj|lia|by vm_compute|vm_compute; reflexivity|reflexivity| |done].
    intros q d Hq Hd. by apply (safe_dq_out1 I). }
  intros [dqm dqsm] _. rewrite u32_small by lia. apply (safe_then I).
  { apply (safe_then I); [by apply (safe_group_dqs_out1 I)|by apply (safe_plain I)]. }
  eapply (safe_bind I); [by apply safe_centre_dm|]. intros dm _.
  apply (safe_then I); [by apply (safe_modify I)|]. apply (safe_then I); [by apply (safe_plain I)|].
  apply safe_ret, b2z_cases.
Qed.

Lemma safe_writes_center g b : group_ok g -> safe (rw_mgr_mem_calibrate_writes_center 0 g b) is_bit.
Proof.
  intros Hg. eapply (safe_bind I); [apply (safe_read_dqs_out1 I)|]. intros start Hs. cbv beta zeta in *.
  rewrite s32_small by lia. apply (safe_then I); [by apply safe_ret|].
  eapply (safe_bind I); [by apply safe_find_write_edges|]. intros pins Hpins.
  case_match; [safe_run|by apply safe_centre_writes].
Qed.

Lemma safe_writes g b : group_ok g -> safe (rw_mgr_mem_calibrate_writes 0 g b) is_bit.
Proof.
  intros Hg. apply (safe_then I); [apply (safe_reg_stage I)|]. apply (safe_then I); [apply (safe_reg_sub_stage I)|].
  apply (safe_then I); [apply (safe_reg_group I)|].
  eapply (safe_bind I); [by apply safe_writes_center|]. intros ok _. case_match; safe_run.
Qed.

End Safety.

#[export] Hint Resolve safe_writes : safe.
