(* ===== verification/SeqWriteEye.v ===== *)
(** * SeqWriteEye: the centring of writes on a device with write eyes

On a device whose RW manager answers a write sequence with an error on the pins
whose output delay, relative to the strobe's, is outside an interval, and a
masked one also with errors when the mask's delay is, the function
[rw_mgr_mem_calibrate_writes_center] is shown to leave every pin in the middle of
its interval and the mask inside its own. *)
From S2P Require Import Prelude SeqConfig SeqBase SeqScc SeqMem SeqTest SeqSafe SeqOps.
From S2P Require Import SeqPhase SeqCentre SeqEye SeqWrites.

(** ** What a write test does *)

Definition write_sequence (nops : Z) (dm : bool) : Z :=
  if nops =? u32 (-1)
  then if dm then __RW_MGR_LFSR_WR_RD_DM_BANK_0_WL_1 else __RW_MGR_LFSR_WR_RD_BANK_0_WL_1
  else if dm then __RW_MGR_LFSR_WR_RD_DM_BANK_0 else __RW_MGR_LFSR_WR_RD_BANK_0.

Definition write_nops (nops : Z) (dm : bool) : list (Z * Z) :=
  if nops =? u32 (-1) then
    [(RW_MGR_LOAD_CNTR_2, 0xff);
     (RW_MGR_LOAD_JUMP_ADD_2, if dm then __RW_MGR_LFSR_WR_RD_DM_BANK_0_DATA else __RW_MGR_LFSR_WR_RD_BANK_0_DATA);
     (RW_MGR_LOAD_JUMP_ADD_3, if dm then __RW_MGR_LFSR_WR_RD_DM_BANK_0_NOP else __RW_MGR_LFSR_WR_RD_BANK_0_NOP)]
  else if nops =? 0 then
    [(RW_MGR_LOAD_CNTR_2, 0xff);
     (RW_MGR_LOAD_JUMP_ADD_2, if dm then __RW_MGR_LFSR_WR_RD_DM_BANK_0_DQS else __RW_MGR_LFSR_WR_RD_BANK_0_DQS)]
  else
    [(RW_MGR_LOAD_CNTR_2, 0); (RW_MGR_LOAD_JUMP_ADD_2, 0); (RW_MGR_LOAD_CNTR_3, u32 (u32 (nops - 1)));
     (RW_MGR_LOAD_JUMP_ADD_3, if dm then __RW_MGR_LFSR_WR_RD_DM_BANK_0_NOP else __RW_MGR_LFSR_WR_RD_BANK_0_NOP)].

(** The writes that lead to the answer of the RW manager. *)
Definition write_setup (nops : Z) (dm : bool) (g : Z) : list (Z * Z) :=
  [(RW_MGR_SET_CS_AND_ODT_MASK, cs_and_odt_mask 1 0x0 0x1); (PHY_MGR_CMD_FIFO_RESET, 0)] ++
  write_nops nops dm ++
  [(RW_MGR_RESET_READ_DATAPATH, 0); (RW_MGR_LOAD_CNTR_0, 0x40);
   (RW_MGR_LOAD_JUMP_ADD_0, write_sequence nops dm); (RW_MGR_LOAD_CNTR_1, 0x30);
   (RW_MGR_LOAD_JUMP_ADD_1, if dm then __RW_MGR_LFSR_WR_RD_DM_BANK_0_WAIT else __RW_MGR_LFSR_WR_RD_BANK_0_WAIT);
   (RW_MGR_RUN_SINGLE_GROUP + 4 * g, write_sequence nops dm)].

Definition write_cleanup : list (Z * Z) := [(RW_MGR_SET_CS_AND_ODT_MASK, cs_and_odt_mask 1 0x0 0x0)].

Section WriteTest.
Context {D : Type} `{Avalon D}.

Lemma load_write_nops_run nops dm (s : Seq D) :
  load_write_nops nops dm s
  = Val (write_sequence nops dm) (set_bus (write_all (write_nops nops dm) (bus s)) s).
Proof.
  unfold load_write_nops, write_sequence, write_nops.
  destruct (nops =? u32 (-1)); [|destruct (nops =? 0)]; destruct dm; reflexivity.
Qed.

Lemma write_issue_writes g dm (s : Seq D) : group_ok g ->
  (set_rank_and_odt_mask 0 RW_MGR_ODT_MODE_READ_WRITE ;;!
   IOWR_32DIRECT PHY_MGR_CMD_FIFO_RESET 0 0 ;;!
   rw_mgr_mem_calibrate_write_test_issue (u32 (g * RW_MGR_MEM_VIRTUAL_GROUPS_PER_WRITE_DQS + 0)) dm) s
  = Val tt (set_bus (write_all (write_setup (rw_wl_nop_cycles (gbl s)) (negb (dm =? 0)) g) (bus s)) s).
Proof.
  intros Hg. run apply rank_mask_writes. run apply writes_iowr.
  unfold rw_mgr_mem_calibrate_write_test_issue. run. run apply load_write_nops_run.
  cbn [gbl set_bus]. generalize (rw_wl_nop_cycles (gbl s)). intros nops.
  unfold write_setup, write_all. rewrite !foldl_app. unfold write_sequence, write_nops.
  case_group Hg; destruct (negb (dm =? 0)), (nops =? u32 (-1)), (nops =? 0); reflexivity.
Qed.

(** One rank: the set-up, the write and the pins without an error. *)
Lemma write_rank_spec g dm mask (s : Seq D) :
  group_ok g ->
  (set_rank_and_odt_mask 0 RW_MGR_ODT_MODE_READ_WRITE ;;!
   collect_groups RW_MGR_MEM_VIRTUAL_GROUPS_PER_WRITE_DQS
     (RW_MGR_MEM_DQ_PER_WRITE_DQS / RW_MGR_MEM_VIRTUAL_GROUPS_PER_WRITE_DQS) mask (fun vg =>
       IOWR_32DIRECT PHY_MGR_CMD_FIFO_RESET 0 0 ;;!
       rw_mgr_mem_calibrate_write_test_issue
         (u32 (g * RW_MGR_MEM_VIRTUAL_GROUPS_PER_WRITE_DQS + vg)) dm)) s =
  let '(errors, d) :=
    avl_read BASE_RW_MGR (write_all (write_setup (rw_wl_nop_cycles (gbl s)) (negb (dm =? 0)) g) (bus s)) in
  Val (Z.land mask (u32 (Z.lnot (u32 errors)))) (set_bus d s).
Proof.
  intros Hg. pose proof (write_issue_writes g dm s Hg) as Hissue.
  unfold collect_groups. change (rev _) with [0]. cbn [for_fold]. unfold bind at 1 in Hissue.
  unfold bind at 1. destruct (set_rank_and_odt_mask _ _ s) as [[] s1| | |]; [|done..].
  unfold bind at 1 2. rewrite Hissue.
  destruct (avl_read _ _) as [errors d] eqn:Hread.
  unfold bind, IORD_32DIRECT. change (u32 (BASE_RW_MGR + 0)) with BASE_RW_MGR.
  change (bus (set_bus ?x _)) with x. rewrite Hread. reflexivity.
Qed.

(** A write test: one answer of the RW manager, and the termination off again. *)
Lemma write_test_spec g dm all_correct (s : Seq D) :
  group_ok g -> skip_ranks (param s) = [0] ->
  let p := param s in
  rw_mgr_mem_calibrate_write_test 0 g dm all_correct 1 s =
  let '(errors, d) :=
    avl_read BASE_RW_MGR (write_all (write_setup (rw_wl_nop_cycles (gbl s)) (negb (dm =? 0)) g) (bus s)) in
  let bit_chk := Z.land (write_correct_mask p)
                        (Z.land (write_correct_mask_vg p) (u32 (Z.lnot (u32 errors)))) in
  Val (verdict all_correct bit_chk (write_correct_mask p), bit_chk)
      (set_bus (write_all write_cleanup d) s).
Proof.
  intros Hg Hskip. cbv zeta. unfold rw_mgr_mem_calibrate_write_test.
  unfold bind at 1, gets at 1. unfold bind at 1. rewrite (test_ranks_one _ _ 0) by done.
  cbn [Z.eqb]. unfold bind at 1. rewrite write_rank_spec by done.
  destruct (avl_read _ _) as [errors d]. reflexivity.
Qed.

End WriteTest.

(** ** The window of the mask

The scan of the positions from -31 up, when exactly those from [a] to [b] work:
the state before position [x]. *)
Definition window_before (a b x : Z) : Window :=
  if x <=? a then no_window
  else if x <=? b + 1 then mkWindow a (x - 1) a (x - 1) (x - a)
  else mkWindow 32 32 a b (b - a + 1).

Definition window_step (ok : bool) (x : Z) (w : Window) : Window :=
  if ok then window_pass x w else window_fail w.

Ltac window_cases :=
  unfold window_step, window_before, window_pass, window_fail, no_window;
  change (IO_IO_OUT1_DELAY_MAX + 1) with 32;
  repeat (simpl; match goal with
  | |- context [?a <=? ?b] => destruct (Z.leb_spec a b)
  | |- context [?a =? ?b] => destruct (Z.eqb_spec a b)
  | |- context [?a >? ?b] => destruct (Z.gtb_spec a b)
  end); simpl; try lia; try (f_equal; lia).

Section Window.
Variables (a b : Z).
Hypothesis a_b : -31 <= a <= 0 /\ a <= b <= 31.

Lemma window_before_step x : -31 <= x <= 31 ->
  window_step ((a <=? x) && (x <=? b)) x (window_before a b x) = window_before a b (x + 1).
Proof. intros Hx. window_cases. Qed.

(** Position 0 is tried by both loops. *)
Lemma window_before_again :
  let w := window_before a b 1 in
  window_step ((a <=? 0) && (0 <=? b)) 0 (if negb (end_curr w =? 0) then window_fail w else w) = w.
Proof. cbv zeta. window_cases. Qed.

Lemma window_best x : b < x ->
  let w := window_before a b x in bgn_best w = a /\ end_best w = b /\ win_best w = b - a + 1.
Proof. intros Hx. cbv zeta. window_cases. Qed.

(** The mask in the middle: always in the window, and half-way between its ends
when they are within the mask's own delays. *)
Lemma dm_mid_window w : bgn_best w = a -> end_best w = b ->
  (0 <= dm_mid w <= 31 /\ a <= - dm_mid w <= b) /\ (b <= 0 -> -1 <= (- a - dm_mid w) - (dm_mid w + b) <= 1).
Proof. intros Ha Hb. unfold dm_mid. rewrite Ha, Hb. Z.to_euclidean_division_equations. lia. Qed.

Lemma dm_margin_window w : bgn_best w = a -> end_best w = b -> win_best w = b - a + 1 -> 0 <= dm_margin_of w.
Proof.
  intros Ha Hb Hw. unfold dm_margin_of, dm_mid. rewrite Ha, Hb, Hw.
  destruct (Z.eqb_spec (b - a + 1) 0); [lia|]. Z.to_euclidean_division_equations. lia.
Qed.

End Window.

(** ** The device

Links 0 to 7 are the outputs of the pins of the group that is selected, 8 is the strobe
and 9 the mask. *)
Definition write_chain : Chain :=
  mkChain 10 (fun i => SCC_MGR_IO_OUT1_DELAY + 4 * i)
    (fun i a v => if i <? 8 then (a =? SCC_MGR_DQ_ENA) && ((v =? i) || (v =? 0xff))
                  else if i =? 8 then a =? SCC_MGR_DQS_IO_ENA
                  else (a =? SCC_MGR_DM_ENA) && ((v =? 0) || (v =? 0xff))).

(** The law of the device, beside those of the chains: after the writes of a write test
of the group, for the number of cycles between a write command and its data that the
memory has, the RW manager shows an error on a pin whose delay, relative to the
strobe's, is outside an interval and, after a masked test, on all pins if that of the
mask is outside its own.  Of other reads nothing is known. *)
Class WriteEyes (D : Type) `{Avalon D} (g : Z) := {
  #[global] write_eyes_chain :: ScanChain D write_chain;
  data_cycles : Z;
  out_lo : Z -> Z;
  out_hi : Z -> Z;
  write_errors dm d :
    let t i := applied (link (c := write_chain) d i) - applied (link (c := write_chain) d 8) in
    let inside i := (out_lo i <=? t i) && (t i <=? out_hi i) in
    (avl_read BASE_RW_MGR (write_all (write_setup data_cycles dm g) d)).1 =
      bits ((fun i => negb (inside i && (negb dm || inside 9))) <$> seqZ 0 8)
}.

Section Device.
Context {D : Type} `{Avalon D} (g : Z) `{!WriteEyes D g}.
Local Abbreviation prog A := (M (Seq D) A).
Hypothesis g_ok : group_ok g.

Definition out_tap (d : D) (i : Z) : Z := applied (link (c := write_chain) d i).

(** All registers have been applied. *)
Definition outs_in_sync (d : D) : Prop :=
  forall i, 0 <= i < 10 -> applied (link (c := write_chain) d i) = written (link (c := write_chain) d i).

Definition ready_to_write (s : Seq D) : Prop :=
  skip_ranks (param s) = [0] /\ write_correct_mask (param s) = 0xff /\ write_correct_mask_vg (param s) = 0xff /\
  rw_wl_nop_cycles (gbl s) = data_cycles.

Lemma write_ready_bus d (s : Seq D) : ready_to_write s -> ready_to_write (set_bus d s).
Proof. done. Qed.

(** The delays of all outputs, as they are set and as they are applied. *)
Local Abbreviation outs_set := (chain_set write_chain ready_to_write).
Local Abbreviation outs_at := (chain_at write_chain ready_to_write).

(** The pins at [f], the strobe and the mask. *)
Definition outs (f : Z -> Z) (strobe mask : Z) : Z -> Z :=
  fun i => if i <? 8 then f i else if i =? 8 then strobe else mask.

Lemma out_cases i : 0 <= i < 10 -> i = 0 \/ i = 1 \/ i = 2 \/ i = 3 \/ i = 4 \/ i = 5 \/ i = 6 \/ i = 7 \/ i = 8 \/ i = 9.
Proof. lia. Qed.

Ltac case_out Hi := destruct (out_cases _ Hi) as [->|[->|[->|[->|[->|[->|[->|[->|[->| ->]]]]]]]]].

Lemma out_update_apart i : 0 <= i < 10 -> (SCC_MGR_UPD =? delay_register write_chain i) = false.
Proof. intros Hi. case_out Hi; reflexivity. Qed.

Lemma wp_update_outs {B} f (k : prog B) Q s :
  outs_set f s -> (forall s', outs_at f s' -> wp k Q no_exit s') -> wp (IOWR_32DIRECT SCC_MGR_UPD 0 0 ;;! k) Q no_exit s.
Proof. apply (wp_update write_chain ready_to_write write_ready_bus out_update_apart). Qed.

(** ** The test *)

Definition inside (f : Z -> Z) (i : Z) : bool := (out_lo i <=? f i - f 8) && (f i - f 8 <=? out_hi i).

Definition good_outs (dm : bool) (f : Z -> Z) : list bool :=
  (fun i => inside f i && (negb dm || inside f 9)) <$> seqZ 0 8.

Lemma write_setup_quiet nops dm i (l : Link) :
  0 <= i < 10 -> foldl (link_write write_chain i) l (write_setup nops dm g) = l.
Proof.
  intros Hi. unfold write_setup, write_nops. rewrite !foldl_app. destruct l as [w [] t];
    case_out Hi; case_group g_ok; destruct (nops =? u32 (-1)), (nops =? 0); reflexivity.
Qed.

Lemma write_cleanup_quiet i (l : Link) : 0 <= i < 10 -> foldl (link_write write_chain i) l write_cleanup = l.
Proof. intros Hi. destruct l as [w [] t]; case_out Hi; reflexivity. Qed.

Lemma one_rank_write_test dm all_correct :
  rw_mgr_mem_calibrate_write_test (D := D) 0 g dm all_correct 0
  = rw_mgr_mem_calibrate_write_test 0 g dm all_correct 1.
Proof. reflexivity. Qed.

Lemma write_test_eye dm all_correct f s :
  outs_at f s -> exists s', outs_at f s' /\
    rw_mgr_mem_calibrate_write_test 0 g dm all_correct 0 s
    = Val (verdict all_correct (bits (good_outs (negb (dm =? 0)) f)) 0xff, bits (good_outs (negb (dm =? 0)) f)) s'.
Proof.
  intros Hs. destruct (proj1 Hs) as (Hskip & Hmask & Hvg & Hnops). rewrite one_rank_write_test, write_test_spec by done.
  rewrite Hmask, Hvg, Hnops. set (m := negb (dm =? 0)).
  pose proof (chain_at_quiet _ ready_to_write write_ready_bus f _ s Hs (write_setup_quiet data_cycles m)) as Hs1.
  pose proof (write_errors m (bus s)) as Herr. cbv zeta in Herr.
  pose proof (chain_at_read _ ready_to_write write_ready_bus f BASE_RW_MGR _ Hs1) as Hs2. cbn [bus set_bus] in Hs2.
  destruct (avl_read BASE_RW_MGR _) as [errors d2]. cbn [fst snd] in Herr, Hs2.
  assert (errors = bits (negb <$> good_outs m f)) as ->.
  { rewrite Herr. unfold good_outs. rewrite <- list_fmap_compose. f_equal. apply list_fmap_ext.
    intros k i Hk%list_elem_of_lookup_2%elem_of_seqZ. unfold compose, inside.
    destruct (proj2 Hs i ltac:(cbn; lia)) as [_ ->]. destruct (proj2 Hs 8 ltac:(cbn; lia)) as [_ ->].
    by destruct (proj2 Hs 9 ltac:(cbn; lia)) as [_ ->]. }
  rewrite good_bits by done. exists (set_bus (write_all write_cleanup d2) s). split; [|reflexivity].
  exact (chain_at_quiet _ ready_to_write write_ready_bus f _ _ Hs2 write_cleanup_quiet).
Qed.

(** ** The steps of the searches *)

(** The eye of pin [i] seen from a strobe at [start] and a pin at 0. *)
Definition out_eye (start i : Z) : Eye := mkEye (out_hi i + start) (- out_lo i - start).
Abbreviation out_eyes start := (eyes (out_eye start)).

Lemma good_outs_eyes f (ok : Eye -> bool) start :
  (forall i, 0 <= i < 8 -> inside f i = ok (out_eye start i)) -> good_outs false f = ok <$> out_eyes start.
Proof.
  intros Hok. unfold good_outs, eyes. rewrite <- list_fmap_compose. apply list_fmap_ext.
  intros k i Hk%list_elem_of_lookup_2%elem_of_seqZ. unfold compose. rewrite andb_true_r. apply Hok. lia.
Qed.

Lemma dq_out_writes b d :
  writes (D := D) (scc_mgr_apply_group_dq_out1_delay g b d)
    (c_range 0 8 1 ≫= (fun i => [(u32 (SCC_MGR_IO_OUT1_DELAY + shl2 i), u32 d); (u32 (SCC_MGR_DQ_ENA + 0), u32 i)])).
Proof. apply writes_for_each. intros i Hi. apply writes_iowr_then, writes_iowr. Qed.

Lemma wp_dq_out {B} b d p st m (k : prog B) Q s :
  outs_set (outs p st m) s -> 0 <= d <= 31 -> (forall s', outs_set (outs (fun _ => d) st m) s' -> wp k Q no_exit s') ->
  wp (scc_mgr_apply_group_dq_out1_delay g b d ;;! k) Q no_exit s.
Proof.
  intros Hs Hd. eapply (wp_writes _ ready_to_write write_ready_bus); [apply dq_out_writes|exact Hs|]. intros i l Hi.
  rewrite (u32_small d) by lia. revert l. case_out Hi; solve_link.
Qed.

Lemma wp_dqs_out {B} d p st m (k : prog B) Q s :
  outs_set (outs p st m) s -> 0 <= d <= 31 -> (forall s', outs_set (outs p d m) s' -> wp k Q no_exit s') ->
  wp (scc_mgr_apply_group_dqs_io_and_oct_out1 g d ;;! k) Q no_exit s.
Proof.
  intros Hs Hd HQ. eapply (wp_writes _ ready_to_write write_ready_bus _ [(SCC_MGR_IO_OUT1_DELAY + 4 * 8, d); (SCC_MGR_DQS_IO_ENA, 0);
    (SCC_MGR_OCT_OUT1_DELAY + 4 * g, d); (SCC_MGR_DQS_ENA, g)] _ (outs p d m)); [|exact Hs| |exact HQ].
  - clear Hs HQ. intros s1. rewrite <- (u32_small d) at 2 3 by lia. case_group g_ok; reflexivity.
  - clear Hs HQ. intros i l Hi. revert l. case_out Hi; case_group g_ok; solve_link.
Qed.

Lemma wp_dm_out {B} d p st m (k : prog B) Q s :
  outs_set (outs p st m) s -> 0 <= d <= 31 -> (forall s', outs_set (outs p st d) s' -> wp k Q no_exit s') ->
  wp (scc_mgr_apply_group_dm_out1_delay g d ;;! k) Q no_exit s.
Proof.
  intros Hs Hd HQ. eapply (wp_writes _ ready_to_write write_ready_bus _ [(SCC_MGR_IO_OUT1_DELAY + 4 * 9, d); (SCC_MGR_DM_ENA, 0)]
    _ (outs p st d)); [|exact Hs| |exact HQ].
  - intros s1. rewrite <- (u32_small d) at 2 by lia. reflexivity.
  - intros i l Hi. revert l. case_out Hi; solve_link.
Qed.

(** A test that passes with one good pin. *)
Lemma wp_one_bit {B} f (k : Z * Z -> prog B) Q s :
  outs_at f s -> (forall ok s', outs_set f s' -> (ok =? 0) = (bits (good_outs false f) =? 0) ->
     wp (k (ok, bits (good_outs false f))) Q no_exit s') ->
  wp (let! r := rw_mgr_mem_calibrate_write_test 0 g 0 PASS_ONE_BIT 0 in k r) Q no_exit s.
Proof.
  intros Hs HQ. destruct (write_test_eye 0 PASS_ONE_BIT f s Hs) as (s' & Hs' & Hrun).
  apply wp_bind. eapply wp_val; [exact Hrun|]. apply HQ; [by apply chain_at_set|]. unfold verdict.
  change (negb (PASS_ONE_BIT =? 0)) with false. cbv iota. by destruct (bits _ =? 0).
Qed.

Lemma try_dq_out_spec b start d p m s :
  0 <= d <= 31 -> outs_set (outs p start m) s ->
  wp (try_dq_out 0 g b d) (fun r s' => outs_set (outs (fun _ => d) start m) s' /\
    r = (bits (left_ok d <$> out_eyes start) =? 0, bits (left_ok d <$> out_eyes start))) no_exit s.
Proof.
  intros Hd Hs. unfold try_dq_out. eapply wp_dq_out; [exact Hs|done|]. intros s1 Hs1.
  eapply wp_update_outs; [exact Hs1|]. intros s2 Hs2. eapply wp_one_bit; [exact Hs2|]. intros ok s3 Hs3 Hok.
  assert (Hgood : good_outs false (outs (fun _ => d) start m) = left_ok d <$> out_eyes start).
  { apply good_outs_eyes. intros i Hi. unfold inside, outs, left_ok, out_eye. replace (i <? 8) with true by lia. cbn.
    f_equal; apply Bool.eq_iff_eq_true; lia. }
  rewrite Hgood in *. apply wp_ret. split; [done|]. by rewrite Hok.
Qed.

Lemma try_dqs_out_spec start d m st s :
  0 <= d -> 0 <= start -> d + start <= 31 -> outs_set (outs (fun _ => 0) st m) s ->
  wp (try_dqs_out 0 g start d) (fun r s' => outs_set (outs (fun _ => 0) (d + start) m) s' /\
    r = (bits (right_ok d <$> out_eyes start) =? 0, bits (right_ok d <$> out_eyes start))) no_exit s.
Proof.
  intros Hd Hst Hlim Hs. unfold try_dqs_out. rewrite (u32_small (d + start)) by lia.
  eapply wp_dqs_out; [exact Hs|lia|]. intros s1 Hs1.
  eapply wp_update_outs; [exact Hs1|]. intros s2 Hs2. apply wp_bind, wp_ret.
  eapply wp_one_bit; [exact Hs2|]. intros ok s3 Hs3 Hok.
  assert (Hgood : good_outs false (outs (fun _ => 0) (d + start) m) = right_ok d <$> out_eyes start).
  { apply good_outs_eyes. intros i Hi. unfold inside, outs, right_ok, out_eye. replace (i <? 8) with true by lia. cbn.
    rewrite andb_comm. f_equal; apply Bool.eq_iff_eq_true; lia. }
  rewrite Hgood in *. apply wp_bind. rewrite <- Hok. destruct (ok =? 0); by apply wp_ret, wp_ret.
Qed.

(** ** The two searches *)

Lemma stopped_at_found start d :
  (forall i, 0 <= i < 8 -> eye_ok (31 - start) (out_eye start i)) -> 0 <= start ->
  stopped_at 31 d (found_edges (out_eye start)) = found_edges (out_eye start).
Proof.
  intros Hok Hst. unfold stopped_at. case_match; [|done]. unfold found_edges. rewrite <- list_fmap_compose.
  apply list_fmap_ext. intros k i Hk%list_elem_of_lookup_2%elem_of_seqZ. unfold compose. cbn [right_edge left_edge].
  destruct (Hok i ltac:(lia)) as (_ & _ & Hr). by destruct (Z.eqb_spec (reach_r (out_eye start i)) (31 + 1)); [lia|].
Qed.

Lemma find_write_edges_spec b start p m s :
  0 <= start <= 31 -> outs_set (outs p start m) s ->
  (forall i, 0 <= i < 8 -> eye_ok (31 - start) (out_eye start i)) ->
  wp (find_write_edges 0 g b start)
    (fun pins s' => (exists st, outs_set (outs (fun _ => 0) st m) s') /\ pins = found_edges (out_eye start)) no_exit s.
Proof.
  intros Hst Hs Heyes. assert (Hlimit : 0 <= 31 - start <= 31) by lia.
  pose proof (eyes_elem (out_eye start) (31 - start) Heyes) as Hin.
  unfold find_write_edges. apply wp_bind. eapply wp_val; [reflexivity|].
  destruct (proj1 Hs) as (Hskip & Hmask & Hvg). rewrite Hmask.
  apply wp_bind. eapply wp_mono;
    [apply (left_sweep (out_eye start) (31 - start) _ (fun s => exists p, outs_set (outs p start m) s))| |done];
    [done|done| |by eexists|].
  { intros d s1 Hd [p1 Hs1]. eapply wp_mono; [by eapply try_dq_out_spec| |done]. intros r s2 [Hs2 ->]. eauto. }
  intros pins s1 [[p1 Hs1] ->]. eapply wp_dq_out; [exact Hs1|lia|]. intros s2 Hs2.
  change IO_IO_OUT1_DELAY_MAX with 31. cbv zeta. apply wp_bind, wp_int; [lia|].
  rewrite (reset_edges _ (31 - start)), (sticky_left _ (31 - start)) by (lia || done).
  apply (right_sweep (out_eye start) (31 - start) _ (fun s => exists st, outs_set (outs (fun _ => 0) st m) s)
           Hlimit Heyes write_seen); [| | | |by eexists].
  - intros d s3 Hd [st Hs3]. eapply wp_mono; [eapply try_dqs_out_spec; [| | |exact Hs3]; lia| |done].
    intros r s4 [Hs4 ->]. eauto.
  - intros d x Hd Hx. apply (write_seen_step (31 - start)); [by apply Hin|lia].
  - intros d x Hd Hx. by apply (write_final (31 - start)); [apply Hin|].
  - intros d. apply stopped_at_found; [done|lia].
Qed.

(** ** The mask *)

Definition all_inside (f : Z -> Z) : bool := forallb (inside f) (seqZ 0 8) && inside f 9.

Lemma all_bits l : length l = 8%nat -> (bits l =? 0xff) = forallb id l.
Proof.
  intros Hl. do 8 (destruct l as [|[] l]; [done|..|]); try (destruct l; [reflexivity|done]).
Qed.

Lemma dm_works_spec f s :
  outs_at f s -> wp (dm_works 0 g) (fun ok s' => outs_set f s' /\ ok = all_inside f) no_exit s.
Proof.
  intros Hs. destruct (write_test_eye 1 PASS_ALL_BITS f s Hs) as (s' & Hs' & Hrun).
  unfold dm_works. apply wp_bind. eapply wp_val; [exact Hrun|]. apply wp_ret. split; [by apply chain_at_set|].
  change (negb (1 =? 0)) with true. unfold verdict. change (negb (PASS_ALL_BITS =? 0)) with true. cbv iota.
  rewrite all_bits by done. unfold good_outs, all_inside. cbn [negb orb].
  change (seqZ 0 8) with [0; 1; 2; 3; 4; 5; 6; 7]. cbn [fmap list_fmap forallb id].
  by destruct (inside f 0), (inside f 1), (inside f 2), (inside f 3), (inside f 4), (inside f 5), (inside f 6),
    (inside f 7), (inside f 9).
Qed.

Section Mask.
Variables (p : Z -> Z) (start a b : Z).
Hypothesis start_range : 0 <= start <= 31.
Hypothesis a_b : -31 <= a <= 0 /\ a <= b <= 31 - start.
Hypothesis left_works : forall d, 0 <= d <= 31 -> all_inside (outs p start d) = (a <=? - d) && (- d <=? b).
Hypothesis right_works : forall d, 0 <= d <= 31 - start ->
  all_inside (outs p (d + start) 0) = (a <=? d) && (d <=? b).

Lemma dm_left_spec m s :
  outs_set (outs p start m) s ->
  wp (dm_left 0 g) (fun w s' => (exists m, outs_set (outs p start m) s') /\ w = window_before a b 1) no_exit s.
Proof.
  intros Hs. unfold dm_left. change IO_IO_OUT1_DELAY_MAX with 31.
  apply (wp_loop (fun l s => (exists m, outs_set (outs p start m) s) /\ -1 <= l.1 <= 31 /\
      l.2 = window_before a b (- l.1)) (fun l _ => Z.to_nat (l.1 + 1))).
  - intros [d w] s1 ([m1 Hs1] & Hd & Hw). simpl in Hd, Hw. subst w. destruct (Z.leb_spec 0 d).
    2: { apply wp_ret. split; [by eexists|]. by replace d with (-1) by lia. }
    eapply wp_dm_out; [exact Hs1|lia|]. intros s2 Hs2. eapply wp_update_outs; [exact Hs2|]. intros s3 Hs3.
    apply wp_bind. eapply wp_mono; [by apply dm_works_spec| |done]. intros ok s4 [Hs4 ->]. apply wp_ret.
    change DELTA_D with 1. cbn [fst snd]. split; [|lia]. split; [by eexists|]. split; [lia|].
    rewrite left_works by lia. replace (- (d - 1)) with (- d + 1) by lia.
    rewrite <- (window_before_step a b) by lia. reflexivity.
  - simpl. lia.
  - simpl. split; [by eexists|]. split; [lia|]. unfold window_before.
    change (- (31)) with (-31). destruct (Z.leb_spec (-31) a); [done|lia].
Qed.

Lemma dm_right_spec s :
  let w1 := window_before a b 1 in
  (exists st, outs_set (outs p st 0) s) ->
  wp (dm_right 0 g start (if negb (end_curr w1 =? 0) then window_fail w1 else w1))
    (fun w s' => (exists st, outs_set (outs p st 0) s') /\ bgn_best w = a /\ end_best w = b /\
       win_best w = b - a + 1) no_exit s.
Proof.
  intros w1 Hs. set (w0 := if _ : bool then window_fail w1 else w1). unfold dm_right.
  change IO_IO_OUT1_DELAY_MAX with 31. apply wp_bind, wp_int; [lia|].
  apply (wp_loop (fun l s => (exists st, outs_set (outs p st 0) s) /\ 0 <= l.1 <= 31 - start + 1 /\
      l.2 = if l.1 =? 0 then w0 else window_before a b l.1) (fun l _ => Z.to_nat (31 - start + 1 - l.1))).
  - intros [d w] s1 ([st Hs1] & Hd & Hw). simpl in Hd, Hw. destruct (Z.leb_spec d (31 - start)).
    2: { apply wp_ret. split; [by eexists|]. subst w. destruct (Z.eqb_spec d 0); [lia|]. apply window_best; lia. }
    rewrite (u32_small (d + start)) by lia.
    eapply wp_dqs_out; [exact Hs1|lia|]. intros s2 Hs2. eapply wp_update_outs; [exact Hs2|]. intros s3 Hs3.
    apply wp_bind. eapply wp_mono; [by apply dm_works_spec| |done]. intros ok s4 [Hs4 Hok].
    assert (Hnext : window_step ok d w = window_before a b (d + 1)).
    { subst w. rewrite Hok, right_works by lia. destruct (Z.eqb_spec d 0) as [->|]; [|apply window_before_step; lia].
      apply window_before_again. lia. }
    rewrite right_works in Hok by lia. change DELTA_D with 1.
    assert (Hloop : (exists st, outs_set (outs p st 0) s4) /\ 0 <= d + 1 <= 31 - start + 1 /\
      window_step ok d w = (if d + 1 =? 0 then w0 else window_before a b (d + 1))).
    { split; [by eexists|]. split; [lia|]. by destruct (Z.eqb_spec (d + 1) 0); [lia|]. }
    destruct ok; [apply wp_ret; simpl; split; [exact Hloop|lia]|]. apply wp_bind, wp_ret. cbv zeta.
    destruct (_ >? _); apply wp_ret; [|simpl; split; [exact Hloop|lia]]. split; [by eexists|].
    change (window_fail w) with (window_step false d w). rewrite Hnext. apply window_best; lia.
  - simpl. lia.
  - simpl. split; [done|]. split; [lia|done].
Qed.

(** The mask ends in the window, in its middle if that is on the mask's side. *)
Lemma centre_dm_spec m s :
  outs_set (outs p start m) s ->
  wp (centre_dm 0 g start) (fun r s' => 0 <= r /\ exists m, outs_set (outs p start m) s' /\
    (0 <= m <= 31 /\ a <= - m <= b) /\ (b <= 0 -> -1 <= (- a - m) - (m + b) <= 1)) no_exit s.
Proof.
  intros Hs. unfold centre_dm. apply wp_bind. eapply wp_mono; [by eapply dm_left_spec| |done].
  intros w s1 [[m1 Hs1] ->]. eapply wp_dm_out; [exact Hs1|lia|]. intros s2 Hs2. cbv zeta.
  apply wp_bind. eapply wp_mono; [apply dm_right_spec; by eexists| |done].
  intros w s3 ([st Hs3] & Ha & Hb & Hw). rewrite (u32_small start) by lia.
  destruct (dm_mid_window a b ltac:(lia) w Ha Hb) as [[Hm Hin] Hmid].
  eapply wp_dqs_out; [exact Hs3|done|]. intros s4 Hs4.
  eapply wp_dm_out; [exact Hs4|done|]. intros s5 Hs5.
  eapply wp_update_outs; [exact Hs5|]. intros s6 Hs6%chain_at_set. apply wp_ret.
  split; [eapply dm_margin_window; [|exact Ha|exact Hb|exact Hw]; lia|]. eauto.
Qed.

End Mask.

(** ** The shifts *)

Lemma read_out_spec f i (Q : Z -> Seq D -> Prop) s :
  outs_set f s -> 0 <= i < 10 -> 0 <= f i <= 31 -> (forall s', outs_set f s' -> Q (f i) s') ->
  wp (READ_SCC_DQ_OUT1_DELAY i) Q no_exit s.
Proof. intros Hs Hi Hf. apply (wp_register _ ready_to_write write_ready_bus f _ _ i _ _ Hs); [done|done|by case_out Hi]. Qed.

Section Shift.
Variable m : Z.

Definition out_pins (f : Z -> Z) (s : Seq D) : Prop := exists st, outs_set (outs f st m) s.

Lemma out_pins_ext f f' s : (forall i, 0 <= i < 8 -> f i = f' i) -> out_pins f s -> out_pins f' s.
Proof.
  intros Hf [st Hs]. exists st. revert Hs. apply chain_set_ext. intros i Hi. unfold outs.
  destruct (Z.ltb_spec i 8); [apply Hf; cbn in Hi; lia|done].
Qed.

Lemma out_pins_read f i (Q : Z -> Seq D -> Prop) s :
  out_pins f s -> 0 <= i < 8 -> 0 <= f i <= 31 -> (forall s', out_pins f s' -> Q (f i) s') ->
  wp (READ_SCC_DQ_OUT1_DELAY i) Q no_exit s.
Proof.
  intros [st Hs] Hi Hf HQ. assert (Hfi : outs f st m i = f i) by (unfold outs; by replace (i <? 8) with true by lia).
  apply (read_out_spec _ _ _ _ Hs); [lia|by rewrite Hfi|]. intros s' Hs'. rewrite Hfi. apply HQ. by eexists.
Qed.

Lemma out_pins_set B f i v (k : prog B) Q s :
  out_pins f s -> 0 <= i < 8 -> 0 <= v <= 31 ->
  (forall s', out_pins (set_pin f i v) s' -> wp k Q no_exit s') ->
  wp (scc_mgr_set_dq_out1_delay g i v ;;! scc_mgr_load_dq i ;;! k) Q no_exit s.
Proof.
  intros [st Hs] Hi Hv HQ.
  eapply (wp_writes_two _ ready_to_write write_ready_bus _ _ _ _ _ (outs (set_pin f i v) st m)); [apply writes_iowr|apply writes_iowr|exact Hs| |].
  - clear Hs HQ. intros j l Hj. rewrite (u32_small v) by lia. revert l. cbn in Hj. pose proof (pin_cases i Hi) as Hcase.
    destruct Hcase as [->|[->|[->|[->|[->|[->|[->| ->]]]]]]]; case_out Hj; solve_link.
  - intros s' Hs'. apply HQ. by eexists.
Qed.

End Shift.

(** ** The whole *)

Section Goals.
Variable start : Z.
Hypothesis start_range : 0 <= start <= 31.
Hypothesis pin_eyes : forall i, 0 <= i < 8 -> -31 <= out_lo i /\ out_lo i <= out_hi i /\ out_hi i <= 31 - start.
Hypothesis pin_middles : forall i, 0 <= i < 8 -> 0 <= out_lo i + out_hi i + 2 * start <= 62.
Hypothesis mask_eye : out_lo 9 <= out_hi 9 /\ 0 <= out_hi 9 + start <= 31.

Definition out_goal (i : Z) : Z := pin_goal_at start (out_eye start) start i.

Lemma out_eye_ok i : 0 <= i < 8 -> eye_ok (31 - start) (out_eye start i).
Proof. intros Hi. pose proof (pin_eyes i Hi). unfold eye_ok, out_eye. simpl. lia. Qed.

Lemma out_goal_range i : 0 <= i < 8 -> 0 <= out_goal i <= 31.
Proof.
  intros Hi. pose proof (min_mid_le (found_edges (out_eye start)) i Hi) as Hmin.
  destruct (min_mid_bounded (found_edges (out_eye start))) as [_ Hj].
  { apply (found_bounded _ (31 - start)); [lia|exact out_eye_ok]. }
  pose proof (min_mid_index 8 (found_edges (out_eye start))) as Hmid. rewrite !found_mid in * by done.
  unfold out_goal, pin_goal_at, half_mid. fold (least_mid (out_eye start)) in *.
  set (j := (min_mid 8 _).2) in *. set (least := least_mid _) in *.
  pose proof (pin_middles i Hi). pose proof (pin_middles j Hj). unfold out_eye in *. simpl in *.
  destruct (Z.gtb_spec least 0); Z.to_euclidean_division_equations; lia.
Qed.

Lemma out_goal_inside i : 0 <= i < 8 ->
  out_lo i <= out_goal i - start <= out_hi i /\
  -1 <= (out_hi i - (out_goal i - start)) - ((out_goal i - start) - out_lo i) <= 1.
Proof.
  intros Hi. pose proof (goal_balanced start (out_eye start) start i Hi) as Hbal. cbv zeta in Hbal.
  fold (out_goal i) in Hbal. destruct (pin_eyes i Hi) as (? & ? & ?). simpl in Hbal. lia.
Qed.

(** How far the strobe can move with all pins right, and the end of the window of
the mask. *)
Definition pins_reach : Z := foldr (fun i z => Z.min (out_goal i - start - out_lo i) z) (31 - start) (seqZ 0 8).
Definition mask_end : Z :=
  if - (out_lo 9 + start) <=? 0 then - (out_lo 9 + start) else Z.min (- (out_lo 9 + start)) pins_reach.

Lemma forallb_min (h : Z -> bool) (f : Z -> Z) z d l :
  d <= z -> (forall i, i ∈ l -> h i = (d <=? f i)) ->
  forallb h l = (d <=? foldr (fun i z => Z.min (f i) z) z l).
Proof.
  intros Hz. induction l as [|x l IH]; intros Hh; simpl; [by destruct (Z.leb_spec d z); [|lia]|].
  rewrite (Hh x), IH by set_solver. apply Bool.eq_iff_eq_true. lia.
Qed.

Lemma pins_inside d m : 0 <= d <= 31 - start ->
  forallb (inside (outs out_goal (d + start) m)) (seqZ 0 8) = (d <=? pins_reach).
Proof.
  intros Hd. apply forallb_min; [lia|]. intros i Hi%elem_of_seqZ.
  destruct (out_goal_inside i ltac:(lia)) as [Hin _]. unfold inside, outs.
  replace (i <? 8) with true by lia. cbn. apply Bool.eq_iff_eq_true. lia.
Qed.

Lemma pins_reach_range : 0 <= pins_reach <= 31 - start.
Proof.
  unfold pins_reach.
  assert (forall l, (forall i, i ∈ l -> 0 <= i < 8) ->
    0 <= foldr (fun i z => Z.min (out_goal i - start - out_lo i) z) (31 - start) l <= 31 - start) as Hgen.
  { induction l as [|x l IH]; intros Hl; simpl; [lia|].
    destruct (out_goal_inside x (Hl x ltac:(set_solver))) as [Hin _]. assert (Hl' : forall i, i ∈ l -> 0 <= i < 8) by set_solver.
    specialize (IH Hl'). lia. }
  apply Hgen. intros i Hi%elem_of_seqZ. lia.
Qed.

Lemma mask_left_works d : 0 <= d <= 31 ->
  all_inside (outs out_goal start d) = (- (out_hi 9 + start) <=? - d) && (- d <=? mask_end).
Proof.
  intros Hd. unfold all_inside. replace start with (0 + start) at 1 by lia. rewrite pins_inside by lia.
  pose proof pins_reach_range. unfold inside, outs, mask_end. cbn. apply Bool.eq_iff_eq_true.
  destruct (Z.leb_spec (- (out_lo 9 + start)) 0); lia.
Qed.

Lemma mask_right_works d : 0 <= d <= 31 - start ->
  all_inside (outs out_goal (d + start) 0) = (- (out_hi 9 + start) <=? d) && (d <=? mask_end).
Proof.
  intros Hd. unfold all_inside. rewrite pins_inside by lia.
  pose proof pins_reach_range. unfold inside, outs, mask_end. cbn. apply Bool.eq_iff_eq_true.
  destruct (Z.leb_spec (- (out_lo 9 + start)) 0); lia.
Qed.

(** Everything at its goal. *)
Definition writes_centred (s : Seq D) : Prop :=
  exists m, outs_at (outs out_goal start m) s /\
    (0 <= m <= 31 /\ - (out_hi 9 + start) <= - m <= mask_end) /\
    (mask_end <= 0 -> -1 <= (out_hi 9 + start - m) - (m + mask_end) <= 1).

Lemma centre_writes_spec m s :
  out_pins m (fun _ => 0) s ->
  wp (centre_writes 0 g start (found_edges (out_eye start))) (fun r s' => r = 1 /\ writes_centred s') no_exit s.
Proof.
  intros Hs. unfold centre_writes. change RW_MGR_MEM_DQ_PER_WRITE_DQS with 8. change IO_IO_OUT1_DELAY_MAX with 31.
  rewrite (surjective_pairing (min_mid 8 _)). fold (least_mid (out_eye start)). cbv zeta.
  enough (Hgen : forall z, z = start - start -> wp (shift_pins 8 31 READ_SCC_DQ_OUT1_DELAY
      (fun i delay => scc_mgr_set_dq_out1_delay g i delay) (fun i => i) (found_edges (out_eye start))
      (min_mid 8 (found_edges (out_eye start))).2 (half_mid (least_mid (out_eye start))) z)
    (fun r s' => (0 <= r.1 <= 32 /\ 0 <= r.2 <= 32) /\ out_pins m out_goal s') no_exit s).
  2: { intros ? ->. apply (shift_pins_spec (out_pins m)); [apply out_pins_ext|apply out_pins_read|apply out_pins_set|done| |done|
         exact out_goal_range]. intros i Hi. apply (out_eye_ok i Hi). }
  apply wp_bind. eapply wp_mono; [apply Hgen; lia| |done]. intros [dqm dqsm] s1 [Hm [st Hs1]]. cbn [fst snd] in Hm.
  change (negb (QDRII =? 0)) with false. cbv iota. rewrite (u32_small start) by lia.
  apply wp_bind. eapply wp_dqs_out; [exact Hs1|done|]. intros s2 Hs2.
  eapply (wp_write _ ready_to_write write_ready_bus _ _ _ (outs out_goal start m)); [apply writes_iowr|exact Hs2|intros i l Hi; revert l; case_out Hi; solve_link|].
  intros s3 Hs3.
  apply wp_bind. eapply wp_mono; [eapply (centre_dm_spec out_goal start (- (out_hi 9 + start)) mask_end)| |done];
    [done| |exact mask_left_works|exact mask_right_works|exact Hs3|].
  { pose proof pins_reach_range. unfold mask_end. case_match; lia. }
  intros dmm s4 (Hdm & m1 & Hs4 & Hin & Hmid). apply wp_bind. eapply wp_val; [reflexivity|].
  assert (Hs5 : outs_set (outs out_goal start m1) (set_gbl (add_fom_out (dqm + dqsm) (gbl s4)) s4)) by exact Hs4.
  eapply wp_update_outs; [exact Hs5|]. intros s6 Hs6. apply wp_ret.
  replace ((0 <=? dqm) && (0 <=? dqsm) && (0 <=? dmm)) with true by lia. split; [done|].
  exists m1. split; [done|]. split; [done|]. intros Hb. specialize (Hmid Hb). lia.
Qed.

End Goals.

Lemma read_strobe_out f s start :
  outs_set f s -> f 8 = start -> 0 <= start <= 31 ->
  wp READ_SCC_DQS_IO_OUT1_DELAY (fun r s' => r = start /\ outs_set f s') no_exit s.
Proof. intros Hs <- Hst. apply (read_out_spec f 8 _ s Hs); [lia|done|]. by intros s' Hs'. Qed.

(** C33: if every pin of a group is written correctly exactly while its output delay,
relative to the strobe's, is in an interval of its own, and the mask likewise, and
the middles of the intervals can be reached, then
[rw_mgr_mem_calibrate_writes_center] succeeds, leaves the strobe where it was and
every pin inside its interval with two margins that differ by at most one tap;
the mask ends inside its interval, and in its middle if no delay of the strobe is
needed to reach its far end.  The delays are those of the scan chains: a delay that is
written and not loaded by an update counts for nothing, and only a write test shows
errors. *)
Theorem writes_center_centres b start s :
  ready_to_write s -> outs_in_sync (bus s) -> out_tap (bus s) 8 = start -> 0 <= start <= 31 ->
  (forall i, 0 <= i < 8 -> -31 <= out_lo i /\ out_lo i <= out_hi i /\ out_hi i <= 31 - start) ->
  (forall i, 0 <= i < 8 -> 0 <= out_lo i + out_hi i + 2 * start <= 62) ->
  (out_lo 9 <= out_hi 9 /\ 0 <= out_hi 9 + start <= 31) ->
  wp (rw_mgr_mem_calibrate_writes_center 0 g b)
    (fun r s' => r = 1 /\ out_tap (bus s') 8 = start /\
       (forall i, 0 <= i < 8 -> let t := out_tap (bus s') i - start in
          0 <= out_tap (bus s') i <= 31 /\ out_lo i <= t <= out_hi i /\ -1 <= (out_hi i - t) - (t - out_lo i) <= 1) /\
       let t := out_tap (bus s') 9 - start in
       0 <= out_tap (bus s') 9 <= 31 /\ out_lo 9 <= t <= out_hi 9 /\
       (0 <= out_lo 9 + start -> -1 <= (out_hi 9 - t) - (t - out_lo 9) <= 1))
    no_exit s.
Proof.
  intros Hs Hsync Htap Hst Hpins Hmiddles Hmask.
  assert (Hs0 : outs_set (outs (fun i => out_tap (bus s) i) start (out_tap (bus s) 9)) s).
  { apply chain_at_set. split; [done|]. intros i Hi. pose proof (Hsync i Hi) as Happ. unfold outs, out_tap in *. cbn in Hi.
    destruct (Z.ltb_spec i 8); [by split|].
    destruct (Z.eqb_spec i 8) as [->|]; [split; congruence|]. replace i with 9 in * by lia. by split. }
  apply wp_bind. eapply wp_mono; [by apply (read_strobe_out _ _ start Hs0)| |done]. intros ? s1 [-> Hs1].
  cbv zeta. rewrite s32_small by lia. apply wp_bind, wp_ret, wp_bind.
  pose proof (out_eye_ok start Hpins) as Hok.
  eapply wp_mono; [by eapply (find_write_edges_spec b start)| |done]. intros pins s2 [Hs2 ->].
  rewrite (found_closed _ (31 - start)) by (lia || done).
  eapply wp_mono; [by eapply (centre_writes_spec start)| |done].
  intros r s3 [-> (m & [_ Hl] & [Hm Hin] & Hmid)].
  assert (Ho : forall i, 0 <= i < 10 -> out_tap (bus s3) i = outs (out_goal start) start m i) by (intros i Hi; apply (Hl i Hi)).
  split; [done|]. rewrite !Ho by lia. split; [done|]. split.
  - intros i Hi. cbv zeta. rewrite Ho by lia. unfold outs. replace (i <? 8) with true by lia.
    split; [by apply out_goal_range|by apply out_goal_inside].
  - cbv zeta. change (outs _ _ _ 9) with m. unfold mask_end in *.
    destruct (Z.leb_spec (- (out_lo 9 + start)) 0); [|pose proof (pins_reach_range start Hst Hpins)]; lia.
Qed.

End Device.

(** ** A device with write eyes

The links of group 3, the memory's cycles (2) and the error register, cleared by a reset of the
read path; a write sequence adds the errors.  Pin [i] is right when its delay less the
strobe's is from [i - 2] to [i + 10], the mask when its is from -3 to 9. *)
Record OutBank := mkOutBank { out_links : Z -> Link; out_errors : Z }.

Definition bank_lo (i : Z) : Z := if i =? 9 then -3 else i - 2.
Definition bank_hi (i : Z) : Z := if i =? 9 then 9 else i + 10.

Definition bank_inside (d : OutBank) (i : Z) : bool :=
  let t := applied (out_links d i) - applied (out_links d 8) in (bank_lo i <=? t) && (t <=? bank_hi i).

Definition bank_wrong (d : OutBank) (dm : bool) : Z :=
  bits ((fun i => negb (bank_inside d i && (negb dm || bank_inside d 9))) <$> seqZ 0 8).

#[export] Instance out_bank_bus : Avalon OutBank := {|
  avl_read a d :=
    (if a =? BASE_RW_MGR then out_errors d else written (out_links d ((a - SCC_MGR_IO_OUT1_DELAY) / 4)), d);
  avl_write a v d :=
    mkOutBank (fun i => link_write write_chain i (out_links d i) (a, v))
      (if a =? RW_MGR_RESET_READ_DATAPATH then 0
       else if a =? RW_MGR_RUN_SINGLE_GROUP + 4 * 3 then
         (if v =? __RW_MGR_LFSR_WR_RD_DM_BANK_0 then Z.lor (out_errors d) (bank_wrong d true)
          else if v =? __RW_MGR_LFSR_WR_RD_BANK_0 then Z.lor (out_errors d) (bank_wrong d false) else out_errors d)
       else out_errors d)
|}.

#[export] Instance out_bank_chain : ScanChain OutBank write_chain.
Proof.
  refine {| link := out_links |}; [done|done|].
  intros d i Hi. destruct (out_cases i Hi) as [->|[->|[->|[->|[->|[->|[->|[->|[->| ->]]]]]]]]]; reflexivity.
Defined.

#[export] Instance out_bank_eyes : WriteEyes OutBank 3.
Proof.
  refine {| data_cycles := 2; out_lo := bank_lo; out_hi := bank_hi |}. intros dm d t ins.
  set (d1 := write_all (removelast (write_setup 2 dm 3)) d).
  transitivity (Z.lor (out_errors d1) (bank_wrong d1 dm)); [destruct dm; reflexivity|].
  assert (out_errors d1 = 0) as -> by (destruct dm; reflexivity). rewrite Z.lor_0_l. destruct dm; reflexivity.
Defined.

Definition write_globals : gbl_t := set_nop_cycles 2 no_globals.

Definition out_bank_start : Seq OutBank :=
  mkSeq (mkOutBank (fun i => let d := if i =? 8 then 4 else 0 in mkLink d false d) 0)
    write_globals calibration_masks 0 0.

Lemma writes_center_centres_witness :
  wp (rw_mgr_mem_calibrate_writes_center 0 3 0)
    (fun r s' => r = 1 /\ out_tap 3 (bus s') 8 = 4 /\
       (forall i, 0 <= i < 8 -> let t := out_tap 3 (bus s') i - 4 in
          0 <= out_tap 3 (bus s') i <= 31 /\ bank_lo i <= t <= bank_hi i /\
          -1 <= (bank_hi i - t) - (t - bank_lo i) <= 1) /\
       let t := out_tap 3 (bus s') 9 - 4 in
       0 <= out_tap 3 (bus s') 9 <= 31 /\ -3 <= t <= 9 /\
       (0 <= -3 + 4 -> -1 <= (9 - t) - (t - -3) <= 1))
    no_exit out_bank_start.
Proof.
  apply (writes_center_centres 3 ltac:(by vm_compute) 0 4 out_bank_start); try by vm_compute.
  - intros i Hi. cbn. unfold bank_lo, bank_hi. destruct (Z.eqb_spec i 9); lia.
  - intros i Hi. cbn. unfold bank_lo, bank_hi. destruct (Z.eqb_spec i 9); lia.
Defined.

Example bank_centred :
  match rw_mgr_mem_calibrate_writes_center 0 3 0 out_bank_start with
  | Val r s' => r = 1 /\
      (fun i => applied (out_links (bus s') i)) <$> seqZ 0 10 = [8; 9; 10; 11; 12; 13; 14; 15; 4; 7]
  | _ => False
  end.
Proof. vm_compute. by split. Qed.
