(* ===== verification/SeqCalib.v ===== *)
(** * SeqCalib: the calibration of the memory, from the top

[rw_mgr_mem_calibrate_vfifo] and [rw_mgr_mem_calibrate_vfifo_end] calibrate the
reads of a group, [mem_calibrate] all groups in turn, [run_mem_calibrate] the
memory with its report, and [sdram_calibration] is the entry of the sequencer.
[rw_mgr_mem_calibrate_wlevel] is not called on this chip. *)
From S2P Require Import Prelude SeqConfig SeqBase SeqScc SeqMem SeqTest SeqSafe SeqPhase SeqCentre SeqWrites.

(** ** The controller's registers

The generated [sdram.h] says where the fields of the three PHY control registers
are: the class gives its macros, [_SET] for a field, [_OFFSET] for a register. *)
Class PhyCtrl := {
  PHYCTRL_0_OFFSET : Z;
  PHYCTRL_1_OFFSET : Z;
  PHYCTRL_2_OFFSET : Z;
  PHYCTRL_0_ACDELAYEN_SET : Z -> Z;
  PHYCTRL_0_DQDELAYEN_SET : Z -> Z;
  PHYCTRL_0_DQSDELAYEN_SET : Z -> Z;
  PHYCTRL_0_DQSLOGICDELAYEN_SET : Z -> Z;
  PHYCTRL_0_RESETDELAYEN_SET : Z -> Z;
  PHYCTRL_0_LPDDRDIS_SET : Z -> Z;
  PHYCTRL_0_ADDLATSEL_SET : Z -> Z;
  PHYCTRL_0_SAMPLECOUNT_19_0_SET : Z -> Z;
  PHYCTRL_0_SAMPLECOUNT_19_0_WIDTH : Z;
  PHYCTRL_1_SAMPLECOUNT_31_20_SET : Z -> Z;
  PHYCTRL_1_LONGIDLESAMPLECOUNT_19_0_SET : Z -> Z;
  PHYCTRL_1_LONGIDLESAMPLECOUNT_19_0_WIDTH : Z;
  PHYCTRL_2_LONGIDLESAMPLECOUNT_31_20_SET : Z -> Z
}.

(** The variables [rank_bgn] and [sr] of the loops over shadow registers. *)
Definition shadow_ranks : list (Z * Z) :=
  (fun rank_bgn => (rank_bgn, rank_bgn / NUM_RANKS_PER_SHADOW_REG))
    <$> c_range 0 RW_MGR_MEM_NUMBER_OF_RANKS NUM_RANKS_PER_SHADOW_REG.

(** The write group of a read group. *)
Definition write_group_of (read_group : Z) : Z :=
  if negb (DDRX =? 0) then read_group
  else read_group / (RW_MGR_MEM_IF_READ_DQS_WIDTH / RW_MGR_MEM_IF_WRITE_DQS_WIDTH).

Section Calib.
Context {D : Type} `{Avalon D}.
Local Abbreviation prog A := (M (Seq D) A).

(** [param->skip_shadow_regs[sr]] as a condition. *)
Definition skipped_shadow_reg (sr : Z) : prog bool :=
  let! p := gets param in
  let! skip := lift (array_get (skip_shadow_regs p) sr) in
  ret (negb (skip =? 0)).

Definition debug_flag (flag : Z) : prog bool :=
  gets (fun s => negb (Z.land (phy_debug_mode_flags (gbl s)) flag =? 0)).

(** ** The reads of a group *)

(** The delay of the strobe, for the shadow registers in use. *)
Definition set_dqs_in (read_group dqs_in_dtaps : Z) : prog unit :=
  for_each shadow_ranks (fun '(rank_bgn, sr) =>
    let! skip := skipped_shadow_reg sr in
    if skip then ret tt
    else
      select_shadow_regs_for_update rank_bgn read_group 1 ;;!
      WRITE_SCC_DQS_IN_DELAY read_group dqs_in_dtaps ;;!
      scc_mgr_load_dqs read_group ;;!
      IOWR_32DIRECT SCC_MGR_UPD 0 0).

(** The centring of all shadow registers, after the delay of the strobe is put
back: the result is [(grp_calibrated, failed_substage)]. *)
Definition centre_all (write_group read_group test_bgn orig_start_dqs failed_substage : Z) : prog (Z * Z) :=
  for_fold shadow_ranks (1, failed_substage) (fun '(grp_calibrated, failed_substage) '(rank_bgn, sr) =>
    let! skip := skipped_shadow_reg sr in
    if skip then ret (grp_calibrated, failed_substage)
    else
      select_shadow_regs_for_update rank_bgn read_group 1 ;;!
      WRITE_SCC_DQS_IN_DELAY read_group orig_start_dqs ;;!
      scc_mgr_load_dqs read_group ;;!
      IOWR_32DIRECT SCC_MGR_UPD 0 0 ;;!
      let! ok := rw_mgr_mem_calibrate_vfifo_center rank_bgn write_group read_group test_bgn 1 0 in
      ret (if ok =? 0 then (0, CAL_SUBSTAGE_VFIFO_CENTER) else (grp_calibrated, failed_substage))).

(** The three loops of [rw_mgr_mem_calibrate_vfifo]: over the delays of the
strobe, the output phases and the output delays.  The first two give
[(grp_calibrated, failed_substage)], the last one also [d]. *)
Definition vfifo_dqs_in (write_group read_group test_bgn grp_calibrated failed_substage : Z) : prog (Z * Z) :=
  let! orig_start_dqs := READ_SCC_DQS_IN_DELAY read_group in
  loop (S (Z.to_nat (IO_DQS_IN_DELAY_MAX + 1))) (fun '(dqs_in_dtaps, grp_calibrated, failed_substage) =>
    if (dqs_in_dtaps <=? IO_DQS_IN_DELAY_MAX) && (grp_calibrated =? 0) then
      set_dqs_in read_group dqs_in_dtaps ;;!
      let! found := rw_mgr_mem_calibrate_vfifo_find_dqs_en_phase_sweep_dq_in_delay
        write_group read_group test_bgn in
      let! '(grp_calibrated, failed_substage) :=
        if negb (found =? 0)
        then centre_all write_group read_group test_bgn orig_start_dqs failed_substage
        else ret (0, CAL_SUBSTAGE_DQS_EN_PHASE) in
      ret (inl (dqs_in_dtaps + 1, grp_calibrated, failed_substage))
    else ret (inr (grp_calibrated, failed_substage))) (orig_start_dqs, grp_calibrated, failed_substage).

(** The guaranteed read, unless the debug mode disables it. *)
Definition guaranteed_read (read_group : Z) : prog bool :=
  let! disabled := debug_flag PHY_DEBUG_DISABLE_GUARANTEED_READ in
  if (disabled : bool) then ret true
  else
    let! '(ok, _) := rw_mgr_mem_calibrate_read_test_patterns_all_ranks read_group 1 in
    ret (negb (ok =? 0)).

Definition vfifo_phases (write_group read_group test_bgn d grp_calibrated failed_substage : Z) : prog (Z * Z) :=
  loop (S (Z.to_nat (IO_DQDQS_OUT_PHASE_MAX + 1))) (fun '(p, grp_calibrated, failed_substage) =>
    if (p <=? IO_DQDQS_OUT_PHASE_MAX) && (grp_calibrated =? 0) then
      (if negb (DDRX =? 0) then scc_mgr_set_dqdqs_output_phase_all_ranks read_group p else ret tt) ;;!
      (if negb (d =? 0) || negb (p =? 0) then recover_mem_device_after_ck_dqs_violation else ret tt) ;;!
      rw_mgr_mem_calibrate_read_load_patterns_all_ranks ;;!
      let! works := guaranteed_read read_group in
      if negb works then ret (inr (grp_calibrated, failed_substage))
      else
        let! '(grp_calibrated, failed_substage) :=
          vfifo_dqs_in write_group read_group test_bgn grp_calibrated failed_substage in
        ret (inl (p + 1, grp_calibrated, failed_substage))
    else ret (inr (grp_calibrated, failed_substage))) (0, grp_calibrated, failed_substage).

Definition vfifo_delays (write_group write_test_bgn read_group test_bgn dtaps_per_ptap : Z) :
    prog (Z * Z * Z) :=
  loop (S (S (Z.to_nat dtaps_per_ptap))) (fun '(d, grp_calibrated, failed_substage) =>
    if (d <=? dtaps_per_ptap) && (grp_calibrated =? 0) then
      (if d >? 0 then scc_mgr_apply_group_all_out_delay_add_all_ranks write_group write_test_bgn d
       else ret tt) ;;!
      let! '(grp_calibrated, failed_substage) :=
        vfifo_phases write_group read_group test_bgn d grp_calibrated failed_substage in
      ret (inl (d + 2, grp_calibrated, failed_substage))
    else ret (inr (d, grp_calibrated, failed_substage))) (0, 0, CAL_SUBSTAGE_GUARANTEED_READ).

Definition rw_mgr_mem_calibrate_vfifo (read_group test_bgn : Z) : prog Z :=
  reg_file_set_stage CAL_STAGE_VFIFO ;;!
  let write_group := write_group_of read_group in
  let write_test_bgn :=
    if negb (DDRX =? 0) then test_bgn else u32 (read_group * RW_MGR_MEM_DQ_PER_READ_DQS) in
  let! dtaps_per_ptap :=
    if QDRII =? 0 then dtaps_per_phase IO_DELAY_PER_DQS_EN_DCHAIN_TAP else ret 0 in
  reg_file_set_group read_group ;;!
  reg_file_set_sub_stage CAL_SUBSTAGE_GUARANTEED_READ ;;!
  let! '(d, grp_calibrated, failed_substage) :=
    vfifo_delays write_group write_test_bgn read_group test_bgn dtaps_per_ptap in
  if grp_calibrated =? 0 then
    set_failing_group_stage write_group CAL_STAGE_VFIFO failed_substage ;;! ret 0
  else
    (if d >? 2 then scc_mgr_zero_group write_group write_test_bgn 1 else ret tt) ;;!
    ret 1.

(** The second centring of the reads, by the writes that now work. *)
Definition rw_mgr_mem_calibrate_vfifo_end (read_group test_bgn : Z) : prog Z :=
  reg_file_set_stage CAL_STAGE_VFIFO_AFTER_WRITES ;;!
  reg_file_set_sub_stage CAL_SUBSTAGE_VFIFO_CENTER ;;!
  let write_group := write_group_of read_group in
  reg_file_set_group read_group ;;!
  let! grp_calibrated := for_fold shadow_ranks 1 (fun grp_calibrated '(rank_bgn, sr) =>
    let! skip := skipped_shadow_reg sr in
    if skip then ret grp_calibrated
    else
      select_shadow_regs_for_update rank_bgn read_group 1 ;;!
      let! ok := rw_mgr_mem_calibrate_vfifo_center rank_bgn write_group read_group test_bgn 0 1 in
      ret (if ok =? 0 then 0 else grp_calibrated)) in
  if grp_calibrated =? 0 then
    set_failing_group_stage write_group CAL_STAGE_VFIFO_AFTER_WRITES CAL_SUBSTAGE_VFIFO_CENTER ;;! ret 0
  else ret 1.

(** ** All groups

A step of the calibration of a group gives [None] when it makes [mem_calibrate]
return 0, and otherwise [group_failed]. *)

Definition does (step : Z) : bool := Z.land STATIC_CALIB_STEPS step =? 0.

(** After a failure the function returns, unless the debug mode sweeps all groups. *)
Definition on_failure : prog (option Z) :=
  let! sweeps := debug_flag PHY_DEBUG_SWEEP_ALL_GROUPS in
  ret (if (sweeps : bool) then Some 1 else None).

(** [if (group_failed == 0) { ... }] *)
Definition if_not_failed (m k : prog (option Z)) : prog (option Z) :=
  let! group_failed := m in
  if bool_decide (group_failed = Some 0) then k else ret group_failed.

(** The loop over the read groups of a write group. *)
Fixpoint each_read_group (calibrate : Z -> Z -> prog Z) (read_groups : list Z) (read_test_bgn : Z) :
    prog (option Z) :=
  match read_groups with
  | [] => ret (Some 0)
  | read_group :: read_groups' =>
      let! ok := calibrate read_group read_test_bgn in
      if ok =? 0 then on_failure
      else each_read_group calibrate read_groups' (u32 (read_test_bgn + RW_MGR_MEM_DQ_PER_READ_DQS))
  end.

(** The loop over the shadow registers: the writes of each. *)
Fixpoint each_shadow_reg (write_group write_test_bgn : Z) (ranks : list (Z * Z)) (group_failed : Z) :
    prog (option Z) :=
  match ranks with
  | [] => ret (Some group_failed)
  | (rank_bgn, sr) :: ranks' =>
      let! skip := skipped_shadow_reg sr in
      if skip then each_shadow_reg write_group write_test_bgn ranks' group_failed
      else
        select_shadow_regs_for_update rank_bgn write_group 1 ;;!
        let! ok := rw_mgr_mem_calibrate_writes rank_bgn write_group write_test_bgn in
        if ok =? 0 then
          let! r := on_failure in
          match r with
          | None => ret None
          | Some _ => each_shadow_reg write_group write_test_bgn ranks' 1
          end
        else each_shadow_reg write_group write_test_bgn ranks' group_failed
  end.

Definition calibrate_group (write_group write_test_bgn : Z) : prog (option Z) :=
  IOWR_32DIRECT SCC_MGR_GROUP_COUNTER 0 write_group ;;!
  scc_mgr_zero_group write_group write_test_bgn 0 ;;!
  if_not_failed
    (if does CALIB_SKIP_VFIFO
     then each_read_group rw_mgr_mem_calibrate_vfifo (read_groups write_group) 0 else ret (Some 0))
    (if_not_failed
       (if does CALIB_SKIP_WRITES && does CALIB_SKIP_DELAY_SWEEPS
        then each_shadow_reg write_group write_test_bgn shadow_ranks 0 else ret (Some 0))
       (if does CALIB_SKIP_WRITES
        then each_read_group rw_mgr_mem_calibrate_vfifo_end (read_groups write_group) 0
        else ret (Some 0))).

(** The loop over the write groups: the groups that are not skipped; the result
is [failing_groups], or [None] for a [return 0]. *)
Fixpoint calibrate_groups (write_groups : list Z) (run_groups failing_groups : Z) : prog (option Z) :=
  match write_groups with
  | [] => ret (Some failing_groups)
  | write_group :: write_groups' =>
      let current_run := Z.land run_groups (Z.shiftl 1 RW_MGR_NUM_DQS_PER_WRITE_GROUP - 1) in
      let run_groups := Z.shiftr run_groups RW_MGR_NUM_DQS_PER_WRITE_GROUP in
      if current_run =? 0 then calibrate_groups write_groups' run_groups failing_groups
      else
        let! r := calibrate_group write_group (u32 (write_group * RW_MGR_MEM_DQ_PER_WRITE_DQS)) in
        match r with
        | None => ret None
        | Some group_failed =>
            calibrate_groups write_groups' run_groups
              (if negb (group_failed =? 0) then failing_groups + 1 else failing_groups)
        end
  end.

(** One pass of the repeated calibration: [Some 0] for a [return 0]. *)
Definition calibrate_pass : prog (option Z) :=
  scc_mgr_zero_all ;;!
  let! skip := gets (fun s => skip_groups (param s)) in
  let! failing_groups :=
    calibrate_groups (c_range 0 RW_MGR_MEM_IF_WRITE_DQS_WIDTH 1) (u32 (Z.lnot skip)) 0 in
  if negb (bool_decide (failing_groups = Some 0)) then ret (Some 0)
  else if does CALIB_SKIP_LFIFO then
    let! skip := gets (fun s => skip_groups (param s)) in
    if skip =? 0 then
      let! ok := rw_mgr_mem_calibrate_lfifo in
      ret (if ok =? 0 then Some 0 else None)
    else ret None
  else ret None.

(** ** The calibration left out *)

Definition set_error_and_fom (g : gbl_t) : gbl_t :=
  mkGbl (phy_debug_mode_flags g) (curr_read_lat g) (curr_write_lat g)
    CAL_SUBSTAGE_NIL CAL_STAGE_NIL 0xff 0 0 (rw_wl_nop_cycles g).

(** The phase is [1.25 * IO_DLL_CHAIN_LENGTH - 2], an integer here. *)
Definition mem_skip_calibrate : prog unit :=
  for_shadow_regs (fun r =>
    select_shadow_regs_for_update r 0 1 ;;!
    for_each (c_range 0 RW_MGR_MEM_IF_READ_DQS_WIDTH 1) (fun i =>
      scc_mgr_set_dqs_en_phase i 0 ;;!
      scc_mgr_set_dqdqs_output_phase i (5 * IO_DLL_CHAIN_LENGTH / 4 - 2)) ;;!
    IOWR_32DIRECT SCC_MGR_DQS_ENA 0 0xff ;;!
    IOWR_32DIRECT SCC_MGR_DQS_IO_ENA 0 0xff ;;!
    for_each (c_range 0 RW_MGR_MEM_IF_WRITE_DQS_WIDTH 1) (fun i =>
      IOWR_32DIRECT SCC_MGR_GROUP_COUNTER 0 i ;;!
      IOWR_32DIRECT SCC_MGR_DQ_ENA 0 0xff ;;!
      IOWR_32DIRECT SCC_MGR_DM_ENA 0 0xff) ;;!
    IOWR_32DIRECT SCC_MGR_UPD 0 0) ;;!
  for_each (c_range 0 RW_MGR_MEM_IF_READ_DQS_WIDTH 1) (fun i =>
    scc_mgr_set_dqs_bus_in_delay i 10 ;;! scc_mgr_load_dqs i) ;;!
  IOWR_32DIRECT SCC_MGR_UPD 0 0 ;;!
  for_each (c_range 0 CALIB_VFIFO_OFFSET 1) (fun _ =>
    IOWR_32DIRECT (if negb (HARD_PHY =? 0) then PHY_MGR_CMD_INC_VFIFO_HARD_PHY else PHY_MGR_CMD_INC_VFIFO_FR)
      0 0xff) ;;!
  IOWR_32DIRECT PHY_MGR_CMD_FIFO_RESET 0 0 ;;!
  set_curr_read_lat CALIB_LFIFO_OFFSET ;;!
  let! lat := gets (fun s => curr_read_lat (gbl s)) in
  IOWR_32DIRECT PHY_MGR_PHY_RLAT 0 lat.

(** ** The top *)

Definition mem_calibrate : prog Z :=
  modify (fun s => set_gbl (set_error_and_fom (gbl s)) s) ;;!
  mem_config ;;!
  (if negb (ARRIAV =? 0) || negb (CYCLONEV =? 0) then
     for_each (c_range 0 RW_MGR_MEM_IF_READ_DQS_WIDTH 1) (fun i =>
       IOWR_32DIRECT SCC_MGR_GROUP_COUNTER 0 i ;;!
       scc_set_bypass_mode i (if negb (HARD_PHY =? 0) then 0x1 else 0x0))
   else ret tt) ;;!
  let! steps := gets dyn_calib_steps in
  let! r :=
    if Z.land steps CALIB_SKIP_ALL =? CALIB_SKIP_ALL then mem_skip_calibrate ;;! ret None
    else for_return (c_range 0 NUM_CALIB_REPEAT 1) (fun _ => calibrate_pass) in
  match r with
  | Some v => ret v
  | None => IOWR_32DIRECT SCC_MGR_UPD 0 0 ;;! ret 1
  end.

(** The figure of merit and the failure as they are reported. *)
Definition clip_fom (z : Z) : Z := if 0xff <? z / 2 then 0xff else z / 2.
Definition set_fom (i o : Z) (g : gbl_t) : gbl_t :=
  mkGbl (phy_debug_mode_flags g) (curr_read_lat g) (curr_write_lat g) (error_substage g)
    (error_stage g) (error_group g) i o (rw_wl_nop_cycles g).
Definition fom_word (g : gbl_t) : Z := Z.lor (fom_in g) (u32 (Z.shiftl (fom_out g) 8)).
Definition error_word (g : gbl_t) : Z :=
  Z.lor (Z.lor (error_stage g) (u32 (Z.shiftl (error_substage g) 8))) (u32 (Z.shiftl (error_group g) 16)).

Definition report (pass : Z) : prog unit :=
  if negb (pass =? 0) then
    modify (fun s => set_gbl (set_fom (clip_fom (fom_in (gbl s))) (clip_fom (fom_out (gbl s))) (gbl s)) s) ;;!
    let! debug_info := gets (fun s => fom_word (gbl s)) in
    IOWR_32DIRECT REG_FILE_FOM 0 debug_info ;;!
    IOWR_32DIRECT PHY_MGR_CAL_DEBUG_INFO 0 debug_info ;;!
    IOWR_32DIRECT PHY_MGR_CAL_STATUS 0 PHY_MGR_CAL_SUCCESS
  else
    let! debug_info := gets (fun s => error_word (gbl s)) in
    IOWR_32DIRECT REG_FILE_FAILING_STAGE 0 debug_info ;;!
    IOWR_32DIRECT PHY_MGR_CAL_DEBUG_INFO 0 debug_info ;;!
    IOWR_32DIRECT PHY_MGR_CAL_STATUS 0 PHY_MGR_CAL_FAIL ;;!
    let! debug_info := gets (fun s => error_word (gbl s)) in
    IOWR_32DIRECT REG_FILE_FAILING_STAGE 0 debug_info.

Definition run_mem_calibrate : prog Z :=
  IOWR_32DIRECT PHY_MGR_CAL_STATUS 0 PHY_MGR_CAL_RESET ;;!
  let! ctrlcfg := IORD_32DIRECT CTRL_CONFIG_REG 0 in
  IOWR_32DIRECT CTRL_CONFIG_REG 0 (Z.land ctrlcfg 0xFFBFFFFF) ;;!
  initialize ;;!
  rw_mgr_mem_initialize ;;!
  let! pass := mem_calibrate in
  mem_precharge_and_activate ;;!
  IOWR_32DIRECT PHY_MGR_CMD_FIFO_RESET 0 0 ;;!
  let! debugging := debug_flag PHY_DEBUG_IN_DEBUG_MODE in
  (if (debugging : bool) then ret tt
   else rw_mgr_mem_handoff ;;! IOWR_32DIRECT PHY_MGR_MUX_SEL 0 0x2) ;;!
  IOWR_32DIRECT CTRL_CONFIG_REG 0 ctrlcfg ;;!
  report pass ;;!
  ret pass.

(** A request of the user, by the interface. *)
Definition user_init_cal_req : prog unit :=
  let! scc_afi_reg := IORD_32DIRECT SCC_MGR_AFI_CAL_INIT 0 in
  if (scc_afi_reg =? 1) || (scc_afi_reg =? 16) then
    initialize ;;!
    rw_mgr_mem_initialize ;;!
    rw_mgr_mem_handoff ;;!
    IOWR_32DIRECT PHY_MGR_MUX_SEL 0 0 ;;!
    IOWR_32DIRECT PHY_MGR_CAL_STATUS 0 PHY_MGR_CAL_SUCCESS
  else if (scc_afi_reg =? 2) || (scc_afi_reg =? 32) then
    let! _ := run_mem_calibrate in ret tt
  else ret tt.

(** ** The entry *)

(** [reg |= ...] of a list of fields, from 0. *)
Definition or_all (fields : list Z) : Z := foldl (fun reg x => Z.lor reg x) 0 fields.

Definition initialize_hps_phy `{PhyCtrl} : prog unit :=
  let trk_sample_count := 7500 in
  let trk_long_idle_sample_count := Z.lor (Z.shiftl 10 16) 100 in
  IOWR_32DIRECT BASE_MMR PHYCTRL_0_OFFSET
    (or_all [PHYCTRL_0_ACDELAYEN_SET 2; PHYCTRL_0_DQDELAYEN_SET 1; PHYCTRL_0_DQSDELAYEN_SET 1;
             PHYCTRL_0_DQSLOGICDELAYEN_SET 1; PHYCTRL_0_RESETDELAYEN_SET 0; PHYCTRL_0_LPDDRDIS_SET 1;
             PHYCTRL_0_ADDLATSEL_SET 0; PHYCTRL_0_SAMPLECOUNT_19_0_SET trk_sample_count]) ;;!
  IOWR_32DIRECT BASE_MMR PHYCTRL_1_OFFSET
    (or_all [PHYCTRL_1_SAMPLECOUNT_31_20_SET (Z.shiftr trk_sample_count PHYCTRL_0_SAMPLECOUNT_19_0_WIDTH);
             PHYCTRL_1_LONGIDLESAMPLECOUNT_19_0_SET trk_long_idle_sample_count]) ;;!
  IOWR_32DIRECT BASE_MMR PHYCTRL_2_OFFSET
    (or_all [PHYCTRL_2_LONGIDLESAMPLECOUNT_31_20_SET
               (Z.shiftr trk_long_idle_sample_count PHYCTRL_1_LONGIDLESAMPLECOUNT_19_0_WIDTH)]).

(** What the function sets of its two local structures: the other fields hold
what was there before. *)
Definition start_gbl (g : gbl_t) : gbl_t :=
  mkGbl (Z.lor 0 PHY_DEBUG_ENABLE_CAL_RPT) (curr_read_lat g) (curr_write_lat g) (error_substage g)
    (error_stage g) (error_group g) (fom_in g) (fom_out g) (rw_wl_nop_cycles g).
Definition start_param (p : param_t) : param_t :=
  mkParam (dm_correct_mask p) (read_correct_mask p) (read_correct_mask_vg p) (write_correct_mask p)
    (write_correct_mask_vg p) (replicate (Z.to_nat RW_MGR_MEM_NUMBER_OF_RANKS) 0) 0
    (replicate (Z.to_nat NUM_SHADOW_REGS) 0).

Definition set_dyn_calib_steps (z : Z) (s : Seq D) : Seq D :=
  mkSeq (bus s) (gbl s) (param s) z (skip_delay_mask s).
Definition set_skip_delay_mask (z : Z) (s : Seq D) : Seq D :=
  mkSeq (bus s) (gbl s) (param s) (dyn_calib_steps s) z.

Definition sdram_calibration `{PhyCtrl} : prog Z :=
  modify (fun s => set_gbl (start_gbl (gbl s)) s) ;;!
  initialize_reg_file ;;!
  initialize_hps_phy ;;!
  scc_mgr_initialize ;;!
  initialize_tracking ;;!
  modify (fun s => set_param (start_param (param s)) s) ;;!
  hc_initialize_rom_data ;;!
  reg_file_set_stage CAL_STAGE_NIL ;;!
  reg_file_set_group 0 ;;!
  modify (set_dyn_calib_steps (u16 STATIC_CALIB_STEPS)) ;;!
  let! steps := gets dyn_calib_steps in
  modify (set_skip_delay_mask (if Z.land steps CALIB_SKIP_DELAY_LOOPS =? 0 then 0xff else 0x0)) ;;!
  run_mem_calibrate.

End Calib.
