(* ===== verification/SeqWlevel.v ===== *)
(** * SeqWlevel: write levelling

[rw_mgr_mem_calibrate_wlevel] looks for the output phases and delays with which
writes of a group work and sets the middle of them.  [mem_calibrate] does not call
it on this chip, whose controller levels the writes itself. *)
From stdpp Require Import gmap.
From S2P Require Import Prelude SeqConfig SeqBase SeqScc SeqMem SeqTest SeqSafe SeqOps SeqPhase SeqCalib.

Section Wlevel.
Context {D : Type} `{Avalon D}.
Local Abbreviation prog A := (M (Seq D) A).

(** Empty on this chip. *)
Definition scc_mgr_spread_out2_delay_all_ranks (write_group test_bgn : Z) : prog unit := ret tt.

Definition num_additional_fr_cycles : Z := 0.
Definition last_phase : Z := IO_DQDQS_OUT_PHASE_MAX + num_additional_fr_cycles * IO_DLL_CHAIN_LENGTH.

Definition write_works (g : Z) : prog bool :=
  let! '(ok, _) := rw_mgr_mem_calibrate_write_test_all_ranks g 0 PASS_ONE_BIT in
  ret (negb (ok =? 0)).

(** ** The beginning of the window

The phases, from 0: the result is [(found_begin, p, work_bgn)]. *)
Definition first_phase (g tmp_delay : Z) : prog (bool * Z * Z) :=
  loop (S (Z.to_nat (last_phase + 1))) (fun '(p, work_bgn) =>
    if p <=? last_phase then
      scc_mgr_set_dqdqs_output_phase_all_ranks g p ;;!
      let! ok := write_works g in
      if (ok : bool) then ret (inr (true, p, work_bgn))
      else ret (inl (p + 1, u32 (work_bgn + IO_DELAY_PER_OPA_TAP)))
    else ret (inr (false, p, work_bgn))) (0, tmp_delay).

(** The delays, and for each the phases: [(d, p, work_bgn)].  The variables [p] and
[work_bgn] are set in every round. *)
Definition first_delay (g test_bgn dtaps_per_ptap : Z) : prog (Z * Z * Z) :=
  loop (S (S (Z.to_nat dtaps_per_ptap))) (fun '(d, tmp_delay, p, work_bgn) =>
    if d <=? dtaps_per_ptap then
      scc_mgr_apply_group_all_out_delay_all_ranks g test_bgn d ;;!
      let! '(found_begin, p, work_bgn) := first_phase g tmp_delay in
      if (found_begin : bool) then ret (inr (d, p, work_bgn))
      else ret (inl (u32 (d + 1), u32 (tmp_delay + IO_DELAY_PER_DCHAIN_TAP), p, work_bgn))
    else ret (inr (d, p, work_bgn))) (0, 0, 0, 0).

(** The delays of the phase before, while they come before [work_bgn]: the new
[work_bgn]. *)
Definition earlier_begin (g test_bgn tmp_delay work_bgn : Z) : prog Z :=
  loop (S (S (Z.to_nat IO_IO_OUT1_DELAY_MAX))) (fun '(d, tmp_delay) =>
    if (d <=? IO_IO_OUT1_DELAY_MAX) && (tmp_delay <? work_bgn) then
      scc_mgr_apply_group_all_out_delay_all_ranks g test_bgn d ;;!
      let! ok := write_works g in
      if (ok : bool) then ret (inr tmp_delay)
      else ret (inl (d + 1, u32 (tmp_delay + IO_DELAY_PER_DCHAIN_TAP)))
    else ret (inr work_bgn)) (0, tmp_delay).

(** ** The end of the window

The phases after [p] that work: the first one that does not, and [work_end]. *)
Definition last_working_phase (g p work_end : Z) : prog (Z * Z) :=
  loop (S (Z.to_nat (last_phase + 1))) (fun '(p, work_end) =>
    if p <=? last_phase then
      scc_mgr_set_dqdqs_output_phase_all_ranks g p ;;!
      let! ok := write_works g in
      if negb ok then ret (inr (p, work_end))
      else ret (inl (p + 1, u32 (work_end + IO_DELAY_PER_OPA_TAP)))
    else ret (inr (p, work_end))) (p, work_end).

(** The window covers a phase: [(work_bgn, work_end)]. *)
Definition phase_covered (g test_bgn p work_bgn : Z) : prog (Z * Z) :=
  let work_end := u32 (work_bgn + IO_DELAY_PER_OPA_TAP) in
  let! work_bgn :=
    if p >? 0 then
      scc_mgr_set_dqdqs_output_phase_all_ranks g (p - 1) ;;!
      let! work_bgn :=
        earlier_begin g test_bgn (u32 (work_bgn - IO_DELAY_PER_OPA_TAP)) work_bgn in
      scc_mgr_apply_group_all_out_delay_all_ranks g test_bgn 0 ;;!
      ret work_bgn
    else ret work_bgn in
  let! '(p, work_end) := last_working_phase g (p + 1) work_end in
  scc_mgr_set_dqdqs_output_phase_all_ranks g (p - 1) ;;!
  ret (work_bgn, u32 (work_end - IO_DELAY_PER_OPA_TAP)).

(** The delays from [d] that work: [work_end]. *)
Definition last_working_delay (g test_bgn d work_end : Z) : prog Z :=
  loop (S (S (Z.to_nat IO_IO_OUT1_DELAY_MAX))) (fun '(d, work_end) =>
    if d <=? IO_IO_OUT1_DELAY_MAX then
      scc_mgr_apply_group_all_out_delay_all_ranks g test_bgn d ;;!
      let! ok := write_works g in
      if negb ok then ret (inr work_end)
      else ret (inl (d + 1, u32 (work_end + IO_DELAY_PER_DCHAIN_TAP)))
    else ret (inr work_end)) (d, work_end).

(** ** The middle

[for (x = 0; x <= max && tmp_delay < mid; x++, tmp_delay += step)], and one step
back when [mid] is passed: [(x, tmp_delay)]. *)
Definition count_to (max step mid tmp_delay : Z) : prog (Z * Z) :=
  let! '(x, tmp_delay) :=
    loop (S (Z.to_nat (max + 1))) (fun '(x, tmp_delay) =>
      if (x <=? max) && (tmp_delay <? mid) then ret (inl (x + 1, u32 (tmp_delay + step)))
      else ret (inr (x, tmp_delay))) (0, tmp_delay) in
  ret (if mid <? tmp_delay then (u32 (x - 1), u32 (tmp_delay - step)) else (x, tmp_delay)).

(** [while (p > IO_DQDQS_OUT_PHASE_MAX)] *)
Definition limit_phase (p tmp_delay : Z) : prog (Z * Z) :=
  loop (S (Z.to_nat p)) (fun '(p, tmp_delay) =>
    if p >? IO_DQDQS_OUT_PHASE_MAX then ret (inl (p - 1, u32 (tmp_delay - IO_DELAY_PER_OPA_TAP)))
    else ret (inr (p, tmp_delay))) (p, tmp_delay).

(** The phase and the delay of the middle are set. *)
Definition set_middle (g test_bgn work_mid : Z) : prog unit :=
  let! '(p, tmp_delay) := count_to last_phase IO_DELAY_PER_OPA_TAP work_mid 0 in
  let! '(p, tmp_delay) := limit_phase p tmp_delay in
  scc_mgr_set_dqdqs_output_phase_all_ranks g p ;;!
  let! '(d, _) := count_to IO_IO_OUT1_DELAY_MAX IO_DELAY_PER_DCHAIN_TAP work_mid tmp_delay in
  scc_mgr_apply_group_all_out_delay_add_all_ranks g test_bgn d.

Definition rw_mgr_mem_calibrate_wlevel (g test_bgn : Z) : prog Z :=
  reg_file_set_stage CAL_STAGE_WLEVEL ;;!
  reg_file_set_sub_stage CAL_SUBSTAGE_WORKING_DELAY ;;!
  let! dtaps_per_ptap := IORD_32DIRECT REG_FILE_DTAPS_PER_PTAP 0 in
  reg_file_set_group g ;;!
  scc_mgr_spread_out2_delay_all_ranks g test_bgn ;;!
  let! '(d, p, work_bgn) := first_delay g test_bgn dtaps_per_ptap in
  if p >? last_phase then
    set_failing_group_stage g CAL_STAGE_WLEVEL CAL_SUBSTAGE_WORKING_DELAY ;;! ret 0
  else
    reg_file_set_sub_stage CAL_SUBSTAGE_LAST_WORKING_DELAY ;;!
    let! '(work_bgn, d, work_end) :=
      if d =? 0 then
        let! '(work_bgn, work_end) := phase_covered g test_bgn p work_bgn in
        ret (work_bgn, 0, work_end)
      else ret (work_bgn, d, work_bgn) in
    let! work_end := last_working_delay g test_bgn d work_end in
    scc_mgr_zero_group g test_bgn 1 ;;!
    let work_end := u32 (work_end - IO_DELAY_PER_DCHAIN_TAP) in
    if work_bgn <=? work_end then
      set_middle g test_bgn (u32 (work_bgn + work_end) / 2) ;;!
      ret 1
    else
      set_failing_group_stage g CAL_STAGE_WLEVEL CAL_SUBSTAGE_LAST_WORKING_DELAY ;;!
      ret 0.

End Wlevel.

(** ** A window that closes at once

The end of the window is the last delay that works, less one step.  When the
phase of the beginning works in the first test and not in the test that repeats
it, nothing has been added and the subtraction wraps around: the window seems to
have no end, the middle is not reached by any delay, and the strobe gets the delay
32, which its register does not have.  The device counts the sequences that are
run; only the first one works. *)
Record Fading := mkFading { fading_regs : gmap Z Z; runs : Z }.

#[export] Instance fading_bus : Avalon Fading := {|
  avl_read a d :=
    (if a =? BASE_RW_MGR then (if runs d <=? 1 then 0 else 0xff)
     else if a =? REG_FILE_DTAPS_PER_PTAP then 11 else default 0 (fading_regs d !! a), d);
  avl_write a v d :=
    mkFading (<[a := v]> (fading_regs d)) (if a =? RW_MGR_RUN_SINGLE_GROUP then runs d + 1 else runs d)
|}.

Definition fading_start : Seq Fading := mkSeq (mkFading ∅ 0) no_globals calibration_masks 0 0.

Example wlevel_end_wraps :
  match rw_mgr_mem_calibrate_wlevel 0 0 fading_start with
  | Val r s' => r = 1 /\ fading_regs (bus s') !! (SCC_MGR_IO_OUT1_DELAY + 4 * 8) = Some 32 /\ IO_IO_OUT1_DELAY_MAX = 31
  | _ => False
  end.
Proof. vm_compute. repeat split. Qed.
