(* ===== verification/SeqCalibSafe.v ===== *)
(** * SeqCalibSafe: the calibration ends and keeps every tap in range

The rules of [SeqSafe.v] carried through [SeqCalib.v], up to [sdram_calibration]. *)
From S2P Require Import Prelude SeqConfig SeqBase SeqScc SeqMem SeqTest SeqSafe SeqOps.
From S2P Require Import SeqPhase SeqCentre SeqWrites SeqCalib.

(** The registers of the controller are not taps. *)
Class PhyCtrlOk `{PhyCtrl} := {
  phyctrl_0_plain : tap_limit (u32 (BASE_MMR + PHYCTRL_0_OFFSET)) = None;
  phyctrl_1_plain : tap_limit (u32 (BASE_MMR + PHYCTRL_1_OFFSET)) = None;
  phyctrl_2_plain : tap_limit (u32 (BASE_MMR + PHYCTRL_2_OFFSET)) = None
}.

Section Safety.
Context {D : Type} `{Avalon D} (I : D -> Prop) `{!TapInvariant D I}.
Local Abbreviation prog A := (M (Seq D) A).
Local Abbreviation safe := (safe I).

(** ** Reads of a group *)

Lemma safe_sweep_dq_in g : group_ok g ->
  safe (rw_mgr_mem_calibrate_vfifo_find_dqs_en_phase_sweep_dq_in_delay g g 0) (fun _ => True).
Proof.
  intros Hg. unfold rw_mgr_mem_calibrate_vfifo_find_dqs_en_phase_sweep_dq_in_delay. cbv zeta.
  change (IO_IO_IN_DELAY_MAX / (RW_MGR_MEM_DQ_PER_READ_DQS - 1)) with 4.
  assert (Hset : forall f : Z -> Z, (forall i, 0 <= i < 8 -> 0 <= f i <= 31) ->
    safe (for_shadow_regs (fun r =>
      select_shadow_regs_for_update r g 1 ;;!
      for_each (c_range 0 RW_MGR_MEM_DQ_PER_READ_DQS 1) (fun i =>
        scc_mgr_set_dq_in_delay g (u32 (0 + i)) (f i) ;;! scc_mgr_load_dq (u32 (0 + i))) ;;!
      IOWR_32DIRECT SCC_MGR_UPD 0 0)) (fun _ => True)).
  { intros f Hf. safe_run. apply elem_of_range in H1.
    rewrite small_u32 by exact H1. apply (safe_dq_in I); [solve_bound|by apply Hf]. }
  apply (safe_then I); [apply Hset; lia|].
  eapply (safe_bind I); [by apply (safe_find_dqs_en_phase I)|]. intros found _.
  apply (safe_then I); [by apply Hset|by apply safe_ret].
Qed.

Lemma safe_skipped_shadow : safe (skipped_shadow_reg 0) (fun _ => True).
Proof.
  intros s Hs. pose proof Hs as (_ & _ & _ & Hlen). unfold skipped_shadow_reg. apply wp_bind.
  eapply wp_val; [reflexivity|]. apply wp_bind.
  destruct (skip_shadow_regs (param s)) as [|x xs]; [by vm_compute in Hlen|].
  eapply wp_lift; [reflexivity|]. by apply wp_ret.
Qed.

Lemma safe_dqs_in_write g d : group_ok g -> 0 <= d <= 31 ->
  safe (WRITE_SCC_DQS_IN_DELAY g d) (fun _ => True).
Proof. apply (safe_dqs_in I). Qed.

Lemma safe_set_dqs_in g d : group_ok g -> 0 <= d <= 31 -> safe (set_dqs_in g d) (fun _ => True).
Proof.
  intros Hg Hd. apply (safe_then I); [|by apply safe_ret].
  eapply (safe_bind I); [apply safe_skipped_shadow|]. intros [] _; [by apply safe_ret|].
  apply (safe_then I); [by apply safe_ret|]. apply (safe_then I); [by apply safe_dqs_in_write|]. safe_run.
Qed.

Lemma safe_centre_all g orig fs : group_ok g -> 0 <= orig <= 31 ->
  safe (centre_all g g 0 orig fs) (fun _ => True).
Proof.
  intros Hg Ho. apply (safe_bind I _ _ (fun _ => True)); [|by intros; apply safe_ret].
  eapply (safe_bind I); [apply safe_skipped_shadow|]. intros [] _; [by apply safe_ret|].
  apply (safe_then I); [by apply safe_ret|]. apply (safe_then I); [by apply safe_dqs_in_write|].
  do 2 (apply (safe_then I); [by apply (safe_plain I)|]).
  eapply (safe_bind I); [by apply (safe_vfifo_center I)|]. intros ok _. by apply safe_ret.
Qed.

Lemma safe_vfifo_dqs_in g cal fs : group_ok g -> safe (vfifo_dqs_in g g 0 cal fs) (fun _ => True).
Proof.
  intros Hg. eapply (safe_bind I); [by apply (safe_read_dqs_in I)|]. intros orig Ho. cbv beta in Ho.
  change IO_DQS_IN_DELAY_MAX with 31.
  apply (safe_loop I (fun l => 0 <= l.1.1 <= 32) (fun l => Z.to_nat (32 - l.1.1))); simpl; [|lia|lia].
  intros [[x cal'] fs'] Hx. simpl in Hx.
  destruct (Z.leb_spec x 31); simpl; [|by apply safe_ret]. case_match; [|by apply safe_ret].
  apply (safe_then I); [apply safe_set_dqs_in; [done|lia]|].
  eapply (safe_bind I); [by apply safe_sweep_dq_in|]. intros found _.
  apply (safe_bind I _ _ (fun _ => True)); [case_match; [by apply safe_centre_all|by apply safe_ret]|].
  intros [cal2 fs2] _. apply safe_ret. simpl. lia.
Qed.

Lemma safe_guaranteed g : group_ok g -> safe (guaranteed_read g) (fun _ => True).
Proof.
  intros Hg. apply (safe_gets_bind I). intros []; [by apply safe_ret|].
  eapply (safe_bind I); [by apply (safe_patterns_all_ranks I)|]. intros [ok b] _. by apply safe_ret.
Qed.

Lemma safe_vfifo_phases g d cal fs : group_ok g -> safe (vfifo_phases g g 0 d cal fs) (fun _ => True).
Proof.
  intros Hg. set (max := IO_DQDQS_OUT_PHASE_MAX).
  apply (safe_loop I (fun l => 0 <= l.1.1 <= max + 1) (fun l => Z.to_nat (max + 1 - l.1.1)));
    simpl; [|fold max; lia|by vm_compute].
  intros [[p cal'] fs'] Hp. simpl in Hp. fold max.
  destruct (Z.leb_spec p max); simpl; [|by apply safe_ret]. case_match; [|by apply safe_ret].
  apply (safe_then I); [apply (safe_out_phase_all I); [done|subst max; lia]|].
  apply (safe_then I); [case_match; by apply safe_ret|]. apply (safe_then I); [apply (safe_load_patterns I)|].
  eapply (safe_bind I); [by apply safe_guaranteed|]. intros [] _; [|by apply safe_ret]. simpl.
  eapply (safe_bind I); [by apply safe_vfifo_dqs_in|]. intros [cal2 fs2] _. apply safe_ret. simpl. lia.
Qed.

Lemma safe_vfifo_delays g n : group_ok g -> n = 12 -> safe (vfifo_delays g 0 g 0 n) (fun _ => True).
Proof.
  intros Hg ->.
  apply (safe_loop I (fun l => 0 <= l.1.1 <= 14) (fun l => Z.to_nat (13 - l.1.1))); simpl; [|by vm_compute|lia].
  intros [[d cal] fs] Hd. simpl in Hd. destruct (Z.leb_spec d 12); simpl; [|by apply safe_ret].
  case_match; [|by apply safe_ret]. apply (safe_then I).
  { case_match; [|by apply safe_ret]. apply (safe_out_delay_add I); [done|solve_bound]. }
  eapply (safe_bind I); [by apply safe_vfifo_phases|]. intros [cal2 fs2] _. apply safe_ret. simpl. lia.
Qed.

Lemma safe_vfifo g : group_ok g -> safe (rw_mgr_mem_calibrate_vfifo g 0) is_bit.
Proof.
  intros Hg. apply (safe_then I); [apply (safe_reg_stage I)|].
  eapply (safe_bind I); [apply (safe_dtaps I)|]. intros n Hn.
  apply (safe_then I); [apply (safe_reg_group I)|]. apply (safe_then I); [apply (safe_reg_sub_stage I)|].
  eapply (safe_bind I); [by apply safe_vfifo_delays|]. intros [[d cal] fs] _.
  case_match; [safe_run|]. apply (safe_then I); [case_match; [by apply (safe_zero_group I)|by apply safe_ret]|].
  safe_run.
Qed.

Lemma safe_vfifo_end g : group_ok g -> safe (rw_mgr_mem_calibrate_vfifo_end g 0) is_bit.
Proof.
  intros Hg. apply (safe_then I); [apply (safe_reg_stage I)|]. apply (safe_then I); [apply (safe_reg_sub_stage I)|].
  apply (safe_then I); [apply (safe_reg_group I)|].
  apply (safe_bind I _ _ (fun _ => True)); [|intros cal _; case_match; safe_run].
  apply (safe_bind I _ _ (fun _ => True)); [|by intros; apply safe_ret].
  eapply (safe_bind I); [apply safe_skipped_shadow|]. intros [] _; [by apply safe_ret|].
  apply (safe_then I); [by apply safe_ret|].
  eapply (safe_bind I); [by apply (safe_vfifo_center I)|]. intros ok _. by apply safe_ret.
Qed.

(** ** All groups *)

(** The result of a step: a bit, or [None]. *)
Definition is_bit_or_none (r : option Z) : Prop := forall v, r = Some v -> is_bit v.

Lemma safe_on_failure : safe on_failure is_bit_or_none.
Proof.
  apply (safe_gets_bind I). intros []; apply safe_ret; intros v [=<-]. by right.
Qed.

Lemma safe_if_not_failed m k :
  safe m is_bit_or_none -> safe k is_bit_or_none -> safe (if_not_failed m k) is_bit_or_none.
Proof.
  intros Hm Hk. eapply (safe_bind I); [exact Hm|]. intros r Hr. case_match; [done|by apply safe_ret].
Qed.

Lemma safe_not_done : safe (ret (Some 0)) is_bit_or_none.
Proof. apply safe_ret. intros v [=<-]. by left. Qed.

Lemma safe_each_read_group calibrate g :
  group_ok g -> safe (calibrate g 0) is_bit -> safe (each_read_group calibrate (read_groups g) 0) is_bit_or_none.
Proof.
  intros Hg Hcal. rewrite read_groups_same by done.
  eapply (safe_bind I); [exact Hcal|]. intros ok _. case_match; [apply safe_on_failure|apply safe_not_done].
Qed.

Lemma safe_each_shadow_reg g b : group_ok g ->
  safe (each_shadow_reg g b shadow_ranks 0) is_bit_or_none.
Proof.
  intros Hg. change shadow_ranks with [(0, 0)]. cbn [each_shadow_reg].
  eapply (safe_bind I); [apply safe_skipped_shadow|]. intros [] _; [apply safe_not_done|].
  apply (safe_then I); [by apply safe_ret|]. eapply (safe_bind I); [by apply (safe_writes I)|]. intros ok _.
  case_match; [|apply safe_not_done]. eapply (safe_bind I); [apply safe_on_failure|]. intros [v|] _;
    apply safe_ret; intros u [=<-]. by right.
Qed.

Lemma safe_calibrate_group g b : group_ok g -> safe (calibrate_group g b) is_bit_or_none.
Proof.
  intros Hg. apply (safe_then I); [by apply (safe_plain I)|]. apply (safe_then I); [by apply (safe_zero_group I)|].
  apply safe_if_not_failed; [by apply safe_each_read_group, safe_vfifo|].
  apply safe_if_not_failed; [by apply safe_each_shadow_reg|by apply safe_each_read_group, safe_vfifo_end].
Qed.

Lemma safe_calibrate_groups gs run failing :
  (forall g, g ∈ gs -> group_ok g) -> safe (calibrate_groups gs run failing) (fun _ => True).
Proof.
  revert run failing. induction gs as [|g gs IH]; intros run failing Hgs; [by apply safe_ret|].
  cbn [calibrate_groups]. cbv zeta. case_match; [apply IH; set_solver|].
  eapply (safe_bind I); [apply safe_calibrate_group, Hgs; set_solver|].
  intros [v|] _; [apply IH; set_solver|by apply safe_ret].
Qed.

Lemma safe_calibrate_pass : safe calibrate_pass is_bit_or_none.
Proof.
  apply (safe_then I); [apply (safe_zero_all I)|]. apply (safe_gets_bind I). intros skip.
  eapply (safe_bind I).
  { apply safe_calibrate_groups. intros g Hg%elem_of_range. exact Hg. }
  intros failing _. case_match; [apply safe_not_done|]. apply (safe_gets_bind I). intros skip'.
  case_match; [|by apply safe_ret]. eapply (safe_bind I); [apply (safe_lfifo I)|]. intros ok _.
  apply safe_ret. intros v. case_match; intros [=<-]. by left.
Qed.

Lemma safe_mem_calibrate : safe mem_calibrate is_bit.
Proof.
  apply (safe_then I); [by apply (safe_modify I)|]. apply (safe_then I); [apply (safe_mem_config I)|].
  apply (safe_then I); [safe_run|]. apply (safe_gets_calm I). intros s (_ & Hsteps & _).
  eapply (safe_bind I _ _ is_bit_or_none).
  { apply Z.eqb_neq in Hsteps. rewrite Hsteps.
    eapply (safe_bind I); [apply safe_calibrate_pass|]. intros [v|] Hv; by apply safe_ret. }
  intros [v|] Hv; [apply safe_ret; by apply Hv|]. safe_run.
Qed.

Lemma safe_report pass : safe (report pass) (fun _ => True).
Proof.
  unfold report. safe_run; by apply (safe_modify I).
Qed.

Lemma safe_run_mem_calibrate : safe run_mem_calibrate is_bit.
Proof.
  apply (safe_then I); [by apply (safe_plain I)|]. apply (safe_read_bind I). intros ctrlcfg _.
  apply (safe_then I); [by apply (safe_plain I)|]. apply (safe_then I); [apply (safe_initialize I)|].
  apply (safe_then I); [apply (safe_mem_initialize I)|].
  eapply (safe_bind I); [apply safe_mem_calibrate|]. intros pass Hpass.
  apply (safe_then I); [apply (safe_precharge I)|]. apply (safe_then I); [by apply (safe_plain I)|].
  apply (safe_gets_bind I). intros debugging. apply (safe_then I).
  { destruct debugging; [by apply safe_ret|].
    apply (safe_then I); [apply (safe_mem_handoff I)|by apply (safe_plain I)]. }
  apply (safe_then I); [by apply (safe_plain I)|]. apply (safe_then I); [apply safe_report|by apply safe_ret].
Qed.

Lemma safe_user_init_cal_req : safe user_init_cal_req (fun _ => True).
Proof.
  apply (safe_read_bind I). intros reg _. safe_run. eapply (safe_mono I); [apply safe_run_mem_calibrate|done].
Qed.

Lemma safe_sdram_calibration `{PhyCtrlOk} : safe sdram_calibration is_bit.
Proof.
  apply (safe_then I); [by apply (safe_modify I)|]. apply (safe_then I); [apply (safe_initialize_reg_file I)|].
  apply (safe_then I).
  { repeat (apply (safe_then I)); apply (safe_plain I); [apply phyctrl_0_plain|apply phyctrl_1_plain|apply phyctrl_2_plain]. }
  apply (safe_then I); [apply (safe_scc_initialize I)|]. apply (safe_then I); [apply (safe_tracking I)|].
  apply (safe_then I); [apply (safe_modify I); intros s (HI & Hst & _); by split|].
  apply (safe_then I); [apply (safe_rom_data I)|]. apply (safe_then I); [apply (safe_reg_stage I)|].
  apply (safe_then I); [apply (safe_reg_group I)|].
  apply (safe_then I); [apply (safe_modify I); intros s (HI & _ & Hs); by split|].
  apply (safe_gets_bind I). intros steps. apply (safe_then I); [by apply (safe_modify I)|].
  apply safe_run_mem_calibrate.
Qed.

End Safety.
