(* ===== verification/SeqError.v ===== *)
(** * SeqError: a recorded failure is never forgotten

[set_failing_group_stage] records the first failure of a calibration.  [keeps m]
says that [m] does not remove the record; only the start of [mem_calibrate] does.
With it, every calibration that fails has recorded a stage. *)
From S2P Require Import Prelude SeqConfig SeqBase SeqScc SeqMem SeqTest SeqSafe SeqOps.
From S2P Require Import SeqPhase SeqCentre SeqWrites SeqCalib.

Section Keeps.
Context {D : Type} `{Avalon D}.
Local Abbreviation prog A := (M (Seq D) A).

Definition marked (s : Seq D) : Prop := error_stage (gbl s) <> CAL_STAGE_NIL.

Definition keeps {A} (m : prog A) : Prop := forall s, marked s -> wlp m (fun _ s' => marked s') s.

(** ** Rules *)

Lemma keeps_ret {A} (a : A) : keeps (ret a).
Proof. intros s Hs. by apply wlp_ret. Qed.

Lemma keeps_undef {A} : keeps (A := A) undef.
Proof. by intros s Hs a s'. Qed.

Lemma keeps_bind {A B} (m : prog A) (k : A -> prog B) : keeps m -> (forall a, keeps (k a)) -> keeps (bind m k).
Proof.
  intros Hm Hk s Hs. apply wlp_bind. eapply wlp_mono; [by apply Hm|]. intros a s' Hs'. by apply Hk.
Qed.

Lemma keeps_gets {A} (f : Seq D -> A) : keeps (gets f).
Proof. by intros s Hs a s' [= <- <-]. Qed.

Lemma keeps_lift {A} (o : option A) : keeps (lift o).
Proof. destruct o; [apply keeps_ret|apply keeps_undef]. Qed.

Lemma keeps_int z : keeps (int z).
Proof. unfold int. case_match; [apply keeps_ret|apply keeps_undef]. Qed.

Lemma keeps_write base off v : keeps (IOWR_32DIRECT base off v).
Proof. by intros s Hs a s' [= <- <-]. Qed.

Lemma keeps_read base off : keeps (IORD_32DIRECT base off).
Proof.
  intros s Hs a s'. unfold IORD_32DIRECT. destruct (avl_read _ _) as [v d]. by intros [= <- <-].
Qed.

Lemma keeps_modify (f : Seq D -> Seq D) : (forall s, marked s -> marked (f s)) -> keeps (modify f).
Proof. intros Hf s Hs a s' [= <- <-]. by apply Hf. Qed.

Lemma keeps_for_each {A} (xs : list A) (body : A -> prog unit) : (forall x, keeps (body x)) -> keeps (for_each xs body).
Proof. intros Hb. induction xs; [apply keeps_ret|]. by apply keeps_bind. Qed.

Lemma keeps_for_fold {A B} (xs : list A) (b : B) body :
  (forall b x, keeps (body b x)) -> keeps (for_fold xs b body).
Proof. intros Hb. revert b. induction xs; intros b; [apply keeps_ret|]. by apply keeps_bind. Qed.

Lemma keeps_for_return {A R} (xs : list A) (body : A -> prog (option R)) :
  (forall x, keeps (body x)) -> keeps (for_return xs body).
Proof.
  intros Hb. induction xs; [apply keeps_ret|]. apply keeps_bind; [done|]. intros []; [apply keeps_ret|done].
Qed.

Lemma keeps_loop {L R} fuel (body : L -> prog (L + R)) l : (forall l, keeps (body l)) -> keeps (loop fuel body l).
Proof.
  intros Hb. revert l. induction fuel as [|fuel IH]; intros l; [by intros s Hs a s'|].
  apply keeps_bind; [done|]. intros []; [apply IH|apply keeps_ret].
Qed.

Lemma keeps_failing g st ss : keeps (set_failing_group_stage g st ss).
Proof.
  apply keeps_modify. intros s Hs. unfold marked in *. destruct (Z.eqb_spec (error_stage (gbl s)) CAL_STAGE_NIL); done.
Qed.

End Keeps.

Create HintDb keeps discriminated.

(** The rules cover every construct of the programs: the tactic goes through one,
using the hints for the functions already done and unfolding the others. *)
Ltac keeps_head m := lazymatch m with ?f _ => keeps_head f | _ => unfold m end.
Ltac keeps_step :=
  cbv beta zeta;
  lazymatch goal with
  | |- keeps (ret _) => apply keeps_ret
  | |- keeps undef => apply keeps_undef
  | |- keeps (bind _ _) => apply keeps_bind; [|intros ?]
  | |- keeps (gets _) => apply keeps_gets
  | |- keeps (lift _) => apply keeps_lift
  | |- keeps (int _) => apply keeps_int
  | |- keeps (IOWR_32DIRECT _ _ _) => apply keeps_write
  | |- keeps (IORD_32DIRECT _ _) => apply keeps_read
  | |- keeps (for_each _ _) => apply keeps_for_each; intros ?
  | |- keeps (for_fold _ _ _) => apply keeps_for_fold; intros ? ?
  | |- keeps (for_return _ _) => apply keeps_for_return; intros ?
  | |- keeps (loop _ _ _) => apply keeps_loop; intros ?
  | |- keeps (set_failing_group_stage _ _ _) => apply keeps_failing
  | |- keeps (modify _) => apply keeps_modify; intros ? ?; done
  | |- keeps (match ?x with _ => _ end) => destruct x
  | |- keeps ((match ?x with _ => _ end) _) => destruct x
  | |- keeps ?m => first [solve [eauto with keeps nocore] | keeps_head m]
  end.
Ltac keeps_run := intros; repeat keeps_step.

Section Functions.
Context {D : Type} `{Avalon D}.
Local Abbreviation prog A := (M (Seq D) A).

Lemma keeps_read_test r g n c a k : keeps (rw_mgr_mem_calibrate_read_test r g n c a k).
Proof. keeps_run. Qed.
Hint Resolve keeps_read_test : keeps.

Lemma keeps_write_test r g n c a : keeps (rw_mgr_mem_calibrate_write_test r g n c a).
Proof. keeps_run. Qed.
Hint Resolve keeps_write_test : keeps.

Lemma keeps_read_test_all g n c b a : keeps (rw_mgr_mem_calibrate_read_test_all_ranks g n c b a).
Proof. keeps_run. Qed.
Hint Resolve keeps_read_test_all : keeps.

Lemma keeps_passes g n : keeps (passes g n).
Proof. keeps_run. Qed.
Hint Resolve keeps_passes : keeps.

Lemma keeps_find_dqs_en_phase g : keeps (rw_mgr_mem_calibrate_vfifo_find_dqs_en_phase g).
Proof. keeps_run. Qed.
Hint Resolve keeps_find_dqs_en_phase : keeps.

Lemma keeps_sweep limit mask (try : Z -> M (Seq D) (bool * Z)) step stop sticky pins :
  (forall d, keeps (try d)) -> keeps (sweep limit mask try step stop sticky pins).
Proof. intros Htry. unfold sweep. keeps_run. Qed.

Lemma keeps_shift_pins n max (read : Z -> M (Seq D) Z) (set : Z -> Z -> M (Seq D) unit) pin_of pins i a b :
  (forall p, keeps (read p)) -> (forall p d, keeps (set p d)) ->
  keeps (shift_pins n max read set pin_of pins i a b).
Proof. intros Hread Hset. unfold shift_pins. keeps_run.
Qed.

Lemma keeps_vfifo_center r w g t u f : keeps (rw_mgr_mem_calibrate_vfifo_center r w g t u f).
Proof.
  unfold rw_mgr_mem_calibrate_vfifo_center, find_read_edges, centre_reads.
  repeat first [ apply keeps_sweep; intros ? | apply keeps_shift_pins; intros | keeps_step ].
Qed.
Hint Resolve keeps_vfifo_center : keeps.

Lemma keeps_writes r g t : keeps (rw_mgr_mem_calibrate_writes r g t).
Proof.
  unfold rw_mgr_mem_calibrate_writes, rw_mgr_mem_calibrate_writes_center, find_write_edges, centre_writes.
  repeat first [ apply keeps_sweep; intros ? | apply keeps_shift_pins; intros | keeps_step ].
Qed.

Lemma keeps_vfifo g t : keeps (rw_mgr_mem_calibrate_vfifo g t).
Proof. keeps_run. Qed.

Lemma keeps_vfifo_end g t : keeps (rw_mgr_mem_calibrate_vfifo_end g t).
Proof. keeps_run. Qed.

Lemma keeps_lfifo : keeps rw_mgr_mem_calibrate_lfifo.
Proof. keeps_run. Qed.

End Functions.

#[export] Hint Resolve keeps_vfifo_center keeps_writes keeps_vfifo keeps_vfifo_end keeps_lfifo : keeps.

(** ** A calibration that fails has recorded a stage *)

Section Marks.
Context {D : Type} `{Avalon D}.
Local Abbreviation prog A := (M (Seq D) A).

Definition marks (m : prog Z) : Prop := forall s, wlp m (fun r s' => r = 0 -> marked s') s.

(** The same for the steps of the group loop: a result other than [Some 0] is a
failure. *)
Definition marks_step (m : prog (option Z)) (s : Seq D) : Prop :=
  wlp m (fun r s' => r <> Some 0 -> marked s') s.

Lemma wlp_any {A B} (m : prog A) (k : A -> prog B) Q s :
  (forall a s', wlp (k a) Q s') -> wlp (bind m k) Q s.
Proof. intros Hk. apply wlp_bind. intros a s' _. apply Hk. Qed.

Lemma failing_marks {A} g st ss (a : A) (Q : A -> Prop) s :
  st <> CAL_STAGE_NIL -> wlp (set_failing_group_stage g st ss ;;! ret a) (fun r (s' : Seq D) => Q r -> marked s') s.
Proof.
  intros Hst r s' [= <- <-] _. unfold marked.
  destruct (Z.eqb_spec (error_stage (gbl s)) CAL_STAGE_NIL); done.
Qed.

Lemma marks_vfifo g t : marks (rw_mgr_mem_calibrate_vfifo g t).
Proof.
  intros s. do 5 (apply wlp_any; intros). destruct a3 as [[d cal] fs]. case_match; [by apply failing_marks|].
  apply wlp_any; intros. by apply wlp_ret.
Qed.

Lemma marks_vfifo_end g t : marks (rw_mgr_mem_calibrate_vfifo_end g t).
Proof. intros s. do 4 (apply wlp_any; intros). case_match; [by apply failing_marks|by apply wlp_ret]. Qed.

Lemma marks_writes r g t : marks (rw_mgr_mem_calibrate_writes r g t).
Proof. intros s. do 4 (apply wlp_any; intros). case_match; [by apply failing_marks|by apply wlp_ret]. Qed.

Lemma marks_lfifo : marks rw_mgr_mem_calibrate_lfifo.
Proof.
  intros s. do 6 (apply wlp_any; intros). case_match; [|by apply failing_marks].
  do 4 (apply wlp_any; intros). by apply wlp_ret.
Qed.

Lemma keeps_on_failure : keeps (D := D) on_failure.
Proof. keeps_run. Qed.

(** A failure leads to [on_failure]. *)
Lemma marked_on_failure (Q : option Z -> Prop) s : marked s -> wlp on_failure (fun r (s' : Seq D) => Q r -> marked s') s.
Proof. intros Hs. eapply wlp_mono; [by apply keeps_on_failure|done]. Qed.

Lemma marks_each_read_group calibrate gs t s :
  (forall g t, marks (calibrate g t)) -> marks_step (each_read_group calibrate gs t) s.
Proof.
  intros Hcal. revert t s. induction gs as [|g gs IH]; intros t s; [by apply wlp_ret|].
  apply wlp_bind. eapply wlp_mono; [apply Hcal|]. intros ok s' Hok. cbv beta.
  destruct (Z.eqb_spec ok 0); [by apply marked_on_failure, Hok|apply IH].
Qed.

Lemma marks_each_shadow_reg g t rs failed s :
  (failed <> 0 -> marked s) -> marks_step (each_shadow_reg g t rs failed) s.
Proof.
  revert failed s. induction rs as [|[r sr] rs IH]; intros failed s Hs.
  { apply wlp_ret. intros Hne. apply Hs. congruence. }
  apply wlp_bind. intros skip s1 Hrun.
  assert (Hs1 : failed <> 0 -> marked s1).
  { intros Hf. refine ((_ : keeps (skipped_shadow_reg sr)) s (Hs Hf) skip s1 Hrun). keeps_run. }
  destruct skip; [by apply IH|]. apply wlp_bind. intros [] s2 [= <-].
  apply wlp_bind. intros ok s3 Hok.
  pose proof (marks_writes r g t s1 ok s3 Hok) as Hmark.
  assert (Hs3 : failed <> 0 -> marked s3) by (intros Hf; exact (keeps_writes r g t s1 (Hs1 Hf) ok s3 Hok)).
  destruct (Z.eqb_spec ok 0) as [Hz|]; [|by apply IH].
  apply wlp_bind. eapply wlp_mono; [apply keeps_on_failure, Hmark, Hz|]. intros [v|] s4 Hs4; [by apply IH|by apply wlp_ret].
Qed.

Lemma marks_if_not_failed m k s :
  marks_step m s -> (forall s', marks_step k s') -> marks_step (if_not_failed m k) s.
Proof.
  intros Hm Hk. apply wlp_bind. eapply wlp_mono; [exact Hm|]. intros r s' Hr. cbv beta.
  case_bool_decide; [apply Hk|]. apply wlp_ret. auto.
Qed.

Lemma marks_calibrate_group g t s : marks_step (calibrate_group g t) s.
Proof.
  do 2 (apply wlp_any; intros). apply marks_if_not_failed.
  { apply marks_each_read_group. intros; apply marks_vfifo. }
  intros. apply marks_if_not_failed; [by apply marks_each_shadow_reg|].
  intros. apply marks_each_read_group. intros; apply marks_vfifo_end.
Qed.

Lemma keeps_calibrate_group g t : keeps (D := D) (calibrate_group g t).
Proof.
  assert (Heach : forall (cal : Z -> Z -> prog Z) gs t', (forall g t, keeps (cal g t)) ->
    keeps (each_read_group cal gs t')).
  { intros cal gs. induction gs as [|g' gs IH]; intros t' Hcal; cbn [each_read_group]; keeps_run; by apply IH. }
  assert (Hshadow : forall rs failed, keeps (each_shadow_reg g t rs failed)).
  { induction rs as [|[r sr] rs IH]; intros failed; cbn [each_shadow_reg]; keeps_run; apply IH. }
  unfold calibrate_group, if_not_failed.
  repeat first [ apply Heach; intros; eauto using keeps_vfifo, keeps_vfifo_end | apply Hshadow | keeps_step ].
Qed.

Lemma marks_calibrate_groups gs run failing s :
  0 <= failing -> (failing <> 0 -> marked s) -> marks_step (calibrate_groups gs run failing) s.
Proof.
  revert run failing s. induction gs as [|g gs IH]; intros run failing s Hpos Hs; cbn [calibrate_groups].
  { apply wlp_ret. intros Hne. apply Hs. congruence. }
  cbv zeta. case_match; [by apply IH|]. apply wlp_bind. intros r s1 Hrun.
  pose proof (marks_calibrate_group g _ s r s1 Hrun) as Hmark.
  assert (Hs1 : failing <> 0 -> marked s1) by (intros Hf; exact (keeps_calibrate_group g _ s (Hs Hf) r s1 Hrun)).
  destruct r as [v|]; [|apply wlp_ret; auto]. destruct (Z.eqb_spec v 0) as [->|Hv]; simpl; apply IH; try done; [lia|].
  intros _. apply Hmark. congruence.
Qed.

Lemma marks_calibrate_pass s : wlp calibrate_pass (fun r (s' : Seq D) => r <> None -> marked s') s.
Proof.
  do 2 (apply wlp_any; intros). apply wlp_bind.
  eapply wlp_mono; [by apply marks_calibrate_groups|]. intros r s5 Hr. cbv beta.
  case_bool_decide; simpl; [|apply wlp_ret; auto]. apply wlp_any; intros. case_match; [|by apply wlp_ret].
  apply wlp_bind. eapply wlp_mono; [apply marks_lfifo|]. intros ok s2 Hok. cbv beta.
  destruct (Z.eqb_spec ok 0); apply wlp_ret; [auto|done].
Qed.

Lemma wlp_for_return {A R} (P : Seq D -> Prop) (xs : list A) (body : A -> prog (option R)) :
  (forall x s, wlp (body x) (fun r s' => r <> None -> P s') s) ->
  forall s, wlp (for_return xs body) (fun r s' => r <> None -> P s') s.
Proof.
  intros Hb. induction xs as [|x xs IH]; intros s; [by apply wlp_ret|].
  apply wlp_bind. eapply wlp_mono; [apply Hb|]. intros [r|] s' Hr; [|apply IH]. apply wlp_ret. intros _. by apply Hr.
Qed.

Lemma marks_mem_calibrate : marks mem_calibrate.
Proof.
  intros s. do 4 (apply wlp_any; intros). apply wlp_bind.
  apply (wlp_mono _ (fun r s' => r <> None -> marked s')).
  - case_match; [apply wlp_any; intros; by apply wlp_ret|].
    apply wlp_for_return. intros. apply marks_calibrate_pass.
  - intros [v|] s5 Hr; [apply wlp_ret; intros; by apply Hr|]. apply wlp_any; intros. by apply wlp_ret.
Qed.

(** The failing calibration of the memory leaves its stage in the globals. *)
Lemma marks_run_mem_calibrate : marks run_mem_calibrate.
Proof.
  intros s. do 5 (apply wlp_any; intros). apply wlp_bind.
  eapply wlp_mono; [apply marks_mem_calibrate|]. intros pass s5 Hpass. cbv beta.
  lazymatch goal with |- wlp ?m _ _ => assert (Hk : keeps m) by keeps_run;
    assert (Hret : forall s, wlp m (fun r _ => r = pass) s)
      by (intros; do 6 (apply wlp_any; intros); by apply wlp_ret) end.
  intros r s6 Hrun Hr. rewrite (Hret _ _ _ Hrun) in Hr. exact (Hk _ (Hpass Hr) _ _ Hrun).
Qed.

Lemma marks_sdram_calibration `{PhyCtrl} : marks sdram_calibration.
Proof. intros s. do 12 (apply wlp_any; intros). apply marks_run_mem_calibrate. Qed.

End Marks.
