(* ===== verification/SeqTop.v ===== *)
(** * SeqTop: what the calibration of the memory guarantees

Whatever the device answers, the sequencer ends, never writes a tap that a
register does not have, and reports its result in the status register.  A device
that can be calibrated is calibrated. *)
From stdpp Require Import gmap.
From S2P Require Import Prelude SeqConfig SeqBase SeqScc SeqMem SeqTest SeqSafe SeqOps.
From S2P Require Import SeqPhase SeqCentre SeqWrites SeqCalib SeqCalibSafe SeqError.

(** ** The registers of the report

Their law: each holds what was last written to it, and the controller's
configuration reads back. *)
Class ReportRegisters (D : Type) `{Avalon D} := {
  cal_status : D -> Z;
  failing_stage : D -> Z;
  ctrl_config : D -> Z;
  write_status a v d : cal_status (avl_write a v d) = if a =? PHY_MGR_CAL_STATUS then v else cal_status d;
  write_failing a v d :
    failing_stage (avl_write a v d) = if a =? REG_FILE_FAILING_STAGE then v else failing_stage d;
  write_ctrl a v d : ctrl_config (avl_write a v d) = if a =? CTRL_CONFIG_REG then v else ctrl_config d;
  read_ctrl d : (avl_read CTRL_CONFIG_REG d).1 = ctrl_config d
}.

Section Report.
Context {D : Type} `{Avalon D} `{!ReportRegisters D}.
Local Abbreviation prog A := (M (Seq D) A).

(** What the report says of a result. *)
Definition reported (ctrlcfg pass : Z) (s : Seq D) : Prop :=
  ctrl_config (bus s) = ctrlcfg /\
  cal_status (bus s) = (if pass =? 0 then PHY_MGR_CAL_FAIL else PHY_MGR_CAL_SUCCESS) /\
  (pass = 0 -> failing_stage (bus s) = u32 (error_word (gbl s))).

(** What a write of the report does to the three registers. *)
Ltac write_laws :=
  repeat match goal with
  | |- context [cal_status (avl_write ?a _ _)] => rewrite (write_status a); change (a =? _) with false
  | |- context [cal_status (avl_write ?a _ _)] => rewrite (write_status a); change (a =? _) with true
  | |- context [failing_stage (avl_write ?a _ _)] => rewrite (write_failing a); change (a =? _) with false
  | |- context [failing_stage (avl_write ?a _ _)] => rewrite (write_failing a); change (a =? _) with true
  | |- context [ctrl_config (avl_write ?a _ _)] => rewrite (write_ctrl a); change (a =? _) with false
  | |- context [ctrl_config (avl_write ?a _ _)] => rewrite (write_ctrl a); change (a =? _) with true
  end; cbv iota.

Lemma report_run ctrlcfg pass (s : Seq D) :
  wlp (IOWR_32DIRECT CTRL_CONFIG_REG 0 ctrlcfg ;;! report pass ;;! ret pass)
    (fun r s' => r = pass /\ reported (u32 ctrlcfg) pass s') s.
Proof.
  intros r s'. unfold report, reported. destruct (pass =? 0) eqn:Hp; intros [= <- <-];
    (split; [done|]); cbn -[u32 Z.pow]; write_laws; (split; [done|]); (split; [done|]); [done|lia].
Qed.

(** The calibration ends with the report; the controller's configuration is
what it was at the start. *)
Lemma run_mem_calibrate_reports (s : Seq D) :
  wlp run_mem_calibrate (reported (u32 (ctrl_config (bus s)))) s.
Proof.
  apply wlp_bind. intros [] s1 [= <-]. apply wlp_bind. intros ctrlcfg s2 Hread.
  assert (ctrlcfg = u32 (ctrl_config (bus s))) as ->.
  { unfold IORD_32DIRECT in Hread. rewrite (surjective_pairing (avl_read _ _)) in Hread.
    injection Hread as <- _. change (u32 (CTRL_CONFIG_REG + 0)) with CTRL_CONFIG_REG.
    rewrite read_ctrl. cbn. by rewrite write_ctrl. }
  do 3 (apply wlp_any; intros). apply wlp_any. intros pass ?. do 4 (apply wlp_any; intros).
  eapply wlp_mono; [apply report_run|]. intros r s9 [-> Hrep]. rewrite u32_small in Hrep by apply u32_bound. done.
Qed.

End Report.

(** ** The calibration *)

Section Calibration.
Context {D : Type} `{Avalon D} `{!ReportRegisters D}.

Lemma calibration_ends (I : D -> Prop) `{!TapInvariant D I} (m : M (Seq D) Z) P s :
  calm I s -> safe I m is_bit -> marks m -> wlp m P s ->
  wp m (fun pass s' => calm I s' /\ (pass = 0 \/ pass = 1) /\ P pass s' /\ (pass = 0 -> error_stage (gbl s') <> CAL_STAGE_NIL)) no_exit s.
Proof.
  intros Hs Hsafe Hmarks Hrep. pose proof (Hsafe s Hs) as Hwp. pose proof (Hmarks s) as Hm.
  unfold wp in *. destruct (m s) as [pass s'| | |] eqn:Heq; [|done..].
  destruct Hwp as [Hs' Hbit]. do 2 (split; [done|]). split; [by apply Hrep|by apply Hm].
Qed.

(** C31: the calibration of the memory always ends, whatever the device answers, and
writes no delay or phase that its register does not have.  Its result is 1 or 0;
the status register says which; after a failure the failing-stage register holds
the stage that was recorded, and there is one; the controller's configuration is
put back to what it was. *)
Theorem run_mem_calibrate_correct (I : D -> Prop) `{!TapInvariant D I} s :
  calm I s ->
  wp run_mem_calibrate (fun pass s' => calm I s' /\ (pass = 0 \/ pass = 1) /\
    reported (u32 (ctrl_config (bus s))) pass s' /\
    (pass = 0 -> error_stage (gbl s') <> CAL_STAGE_NIL)) no_exit s.
Proof.
  intros Hs. apply (calibration_ends I);
    [done|apply (safe_run_mem_calibrate I)|apply marks_run_mem_calibrate|apply run_mem_calibrate_reports].
Qed.

(** The sequencer, from any contents of its variables, always ends, writes no
delay or phase that its register does not have, and reports its result. *)
Theorem sdram_calibration_correct `{PhyCtrlOk} (I : D -> Prop) `{!TapInvariant D I} s :
  calm I s ->
  wp sdram_calibration (fun pass s' => calm I s' /\ (pass = 0 \/ pass = 1) /\
    (exists c, reported c pass s') /\
    (pass = 0 -> error_stage (gbl s') <> CAL_STAGE_NIL)) no_exit s.
Proof.
  intros Hs. apply (calibration_ends I _ (fun pass s' => exists c, reported c pass s'));
    [done|apply (safe_sdram_calibration I)|apply marks_sdram_calibration|].
  do 12 (apply wlp_any; intros). eapply wlp_mono; [apply run_mem_calibrate_reports|]. eauto.
Qed.

End Calibration.

(** ** A device that can be calibrated

It keeps what is written to its registers.  The RW manager answers a read
sequence, but the guaranteed one, with an error on every pin unless the strobe's enable comes within a
window of picoseconds and the read latency is enough, and on a pin whose delay
is too far from the strobe's; a write sequence likewise, with the delays of the
outputs; a masked write also needs the delay of the mask near the strobe's. *)
Record Phy := mkPhy { regs : gmap Z Z; position : gmap Z Z; last_run : Z * Z }.

Definition reg (a : Z) (d : Phy) : Z := default 0 (regs d !! a).

Definition within (lo t hi : Z) : bool := (lo <=? t) && (t <=? hi).

Definition strobe_enabled (g : Z) (d : Phy) : bool :=
  within 6000 (default 0 (position d !! g) * 2496
    + reg (SCC_MGR_DQS_EN_PHASE + 4 * g) d * IO_DELAY_PER_OPA_TAP
    + reg (SCC_MGR_DQS_EN_DELAY + 4 * g) d * IO_DELAY_PER_DQS_EN_DCHAIN_TAP) 7299
  && (10 <=? reg PHY_MGR_PHY_RLAT d).

Definition read_eye (g i : Z) (d : Phy) : bool :=
  within (i - 14) (reg (SCC_MGR_IO_IN_DELAY + 4 * i) d - reg (SCC_MGR_DQS_IN_DELAY + 4 * g) d) (i + 2).

Definition write_eye (i : Z) (d : Phy) : bool :=
  within (i - 10) (reg (SCC_MGR_IO_OUT1_DELAY + 4 * i) d - reg (SCC_MGR_IO_OUT1_DELAY + 4 * 8) d) (i + 6).

Definition mask_eye (d : Phy) : bool :=
  within (-6) (reg (SCC_MGR_IO_OUT1_DELAY + 4 * 9) d - reg (SCC_MGR_IO_OUT1_DELAY + 4 * 8) d) 8.

Definition pin_error (d : Phy) (i : Z) : bool :=
  let '(a, command) := last_run d in
  let g := (a - RW_MGR_RUN_SINGLE_GROUP) / 4 mod 4 in
  let masked := command =? __RW_MGR_LFSR_WR_RD_DM_BANK_0_WL_1 in
  let write := masked || (command =? __RW_MGR_LFSR_WR_RD_BANK_0_WL_1) in
  negb (command =? __RW_MGR_GUARANTEED_READ) &&
  negb (strobe_enabled g d && read_eye g i d && (negb write || write_eye i d) && (negb masked || mask_eye d)).

Definition errors (d : Phy) : Z :=
  foldr (fun i w => 2 * w + Z.b2z (pin_error d i)) 0 (seqZ 0 8).

Definition is_run (a : Z) : bool := within RW_MGR_RUN_SINGLE_GROUP a (RW_MGR_RUN_ALL_GROUPS + 12).

#[export] Instance phy_bus : Avalon Phy := {|
  avl_read a d := (if a =? BASE_RW_MGR then errors d else reg a d, d);
  avl_write a v d :=
    mkPhy (<[a := v]> (regs d))
      (if a =? PHY_MGR_CMD_INC_VFIFO_HARD_PHY
       then <[v := (default 0 (position d !! v) + 1) mod VFIFO_SIZE]> (position d) else position d)
      (if is_run a then (a, v) else last_run d)
|}.

Definition phy_taps (d : Phy) : Prop := map_Forall (fun a v => tap_ok a v = true) (regs d).

Lemma reg_tap a d m : phy_taps d -> tap_limit a = Some m -> 0 <= reg a d <= m.
Proof.
  intros HI Ha. unfold reg. destruct (regs d !! a) as [v|] eqn:Hv; simpl.
  - specialize (HI a v Hv). simpl in HI. unfold tap_ok in HI. rewrite Ha in HI. lia.
  - apply tap_limit_nonneg in Ha. lia.
Qed.

#[export] Instance phy_tap_invariant : TapInvariant Phy phy_taps.
Proof.
  split; [done| |done|].
  - intros a d m HI Ha. simpl. destruct (Z.eqb_spec a BASE_RW_MGR) as [->|]; [done|].
    pose proof (reg_tap a d m HI Ha). simpl. unfold u32. pose proof (Z.mod_le (reg a d) (2 ^ 32)). lia.
  - intros a v d Hok HI. unfold phy_taps. simpl. by apply map_Forall_insert_2.
Qed.

#[export] Instance phy_report : ReportRegisters Phy.
Proof.
  refine (Build_ReportRegisters Phy phy_bus (reg PHY_MGR_CAL_STATUS) (reg REG_FILE_FAILING_STAGE)
    (reg CTRL_CONFIG_REG) _ _ _ _); [intros a v d..|done].
  all: unfold reg; simpl; case_match eqn:Ha;
    [apply Z.eqb_eq in Ha as ->; by rewrite lookup_insert_eq|apply Z.eqb_neq in Ha; by rewrite lookup_insert_ne].
Defined.

(** A place for the controller's fields. *)
#[export] Instance demo_phyctrl : PhyCtrl := {|
  PHYCTRL_0_OFFSET := 0x150; PHYCTRL_1_OFFSET := 0x154; PHYCTRL_2_OFFSET := 0x158;
  PHYCTRL_0_ACDELAYEN_SET x := x; PHYCTRL_0_DQDELAYEN_SET x := Z.shiftl x 2;
  PHYCTRL_0_DQSDELAYEN_SET x := Z.shiftl x 4; PHYCTRL_0_DQSLOGICDELAYEN_SET x := Z.shiftl x 6;
  PHYCTRL_0_RESETDELAYEN_SET x := Z.shiftl x 8; PHYCTRL_0_LPDDRDIS_SET x := Z.shiftl x 9;
  PHYCTRL_0_ADDLATSEL_SET x := Z.shiftl x 10;
  PHYCTRL_0_SAMPLECOUNT_19_0_SET x := Z.shiftl (Z.land x 0xfffff) 12;
  PHYCTRL_0_SAMPLECOUNT_19_0_WIDTH := 20;
  PHYCTRL_1_SAMPLECOUNT_31_20_SET x := x;
  PHYCTRL_1_LONGIDLESAMPLECOUNT_19_0_SET x := Z.shiftl (Z.land x 0xfffff) 12;
  PHYCTRL_1_LONGIDLESAMPLECOUNT_19_0_WIDTH := 20;
  PHYCTRL_2_LONGIDLESAMPLECOUNT_31_20_SET x := x
|}.

#[export] Instance demo_phyctrl_ok : PhyCtrlOk.
Proof. by split. Qed.

Definition phy_start : Seq Phy := mkSeq (mkPhy ∅ ∅ (0, 0)) no_globals calibration_masks 0 0.

(** The whole calibration, run: it succeeds, the read latency is one more than
needed, and every pin and the mask is in the middle of its eye. *)
Definition centred (d : Phy) : bool :=
  forallb (fun i =>
    within (-1) ((reg (SCC_MGR_IO_IN_DELAY + 4 * i) d - reg (SCC_MGR_DQS_IN_DELAY + 4 * 3) d) - (i - 6)) 1 &&
    within (-1) ((reg (SCC_MGR_IO_OUT1_DELAY + 4 * i) d - reg (SCC_MGR_IO_OUT1_DELAY + 4 * 8) d) - (i - 2)) 1)
    (seqZ 0 8)
  && within (-1) (reg (SCC_MGR_IO_OUT1_DELAY + 4 * 9) d - reg (SCC_MGR_IO_OUT1_DELAY + 4 * 8) d - 1) 1.

Example phy_calibrates :
  match sdram_calibration phy_start with
  | Val pass s' => pass = 1 /\ reg PHY_MGR_CAL_STATUS (bus s') = PHY_MGR_CAL_SUCCESS /\
      curr_read_lat (gbl s') = 11 /\ error_stage (gbl s') = CAL_STAGE_NIL /\ centred (bus s') = true
  | _ => False
  end.
Proof. vm_compute. repeat split. Qed.

(** With a latency that is too small nothing is read: no phase of the strobe is
found, the calibration of the group fails and leaves the delay of the strobe at
its largest value, not where it found it; the next attempt starts from there. *)
Definition phy_blind : Seq Phy :=
  mkSeq (mkPhy (<[SCC_MGR_DQS_IN_DELAY := 30]> ∅) ∅ (0, 0)) no_globals calibration_masks 0 0xff.

Example failed_sweep_moves_strobe :
  match vfifo_dqs_in 0 0 0 0 CAL_SUBSTAGE_GUARANTEED_READ phy_blind with
  | Val r s' => r = (0, CAL_SUBSTAGE_DQS_EN_PHASE) /\
      reg SCC_MGR_DQS_IN_DELAY (bus phy_blind) = 30 /\ reg SCC_MGR_DQS_IN_DELAY (bus s') = 31
  | _ => False
  end.
Proof. vm_compute. repeat split. Qed.

(** The calibration left out sets an output phase that this chip does not have. *)
Example skipped_calibration_phase :
  match mem_skip_calibrate phy_start with
  | Val _ s' => reg SCC_MGR_DQDQS_OUT_PHASE (bus s') = 8 /\ IO_DQDQS_OUT_PHASE_MAX = 0
  | _ => False
  end.
Proof. vm_compute. repeat split. Qed.

Lemma phy_start_calm : calm phy_taps phy_start.
Proof. split; [apply map_Forall_empty|]. split; [done|]. by split. Qed.

Lemma run_mem_calibrate_correct_witness :
  calm phy_taps phy_start /\
  wp run_mem_calibrate (fun pass s' => calm phy_taps s' /\ (pass = 0 \/ pass = 1) /\
    reported (u32 (ctrl_config (bus phy_start))) pass s' /\
    (pass = 0 -> error_stage (gbl s') <> CAL_STAGE_NIL)) no_exit phy_start.
Proof.
  split; [exact phy_start_calm|]. apply (run_mem_calibrate_correct phy_taps phy_start). exact phy_start_calm.
Defined.

Lemma sdram_calibration_correct_witness :
  calm phy_taps phy_start /\
  wp sdram_calibration (fun pass s' => calm phy_taps s' /\ (pass = 0 \/ pass = 1) /\
    (exists c, reported c pass s') /\
    (pass = 0 -> error_stage (gbl s') <> CAL_STAGE_NIL)) no_exit phy_start.
Proof.
  split; [exact phy_start_calm|]. apply (sdram_calibration_correct phy_taps phy_start). exact phy_start_calm.
Defined.
